(* ===== verification/_CoqProject ===== *)
-Q . S2P
Prelude.v
GoStrings.v
GoNet.v
DnsMsg.v
Pattern.v
FlatBlocklist.v
BlocklistSource.v
BlocklistManager.v
CacheCore.v
Cache.v
ShardedCache.v
CircuitBreaker.v
BreakerConc.v
Forwarder.v
LocalRecords.v
Policy.v
ReplyBuffer.v
KillSwitch.v
ClientAcl.v
Response.v
Handler.v
HandlerProps.v
GoBase64.v
GoStrconv.v
QueryLogger.v
RateLimit.v
Session.v
Config.v
Auth.v
UnboundConf.v
Supervisor.v
DnsServer.v
Doh.v
PolicyApi.v
GoTime.v
ConfigUpdate.v
RecordsLoad.v
QueryStore.v
Startup.v
Wiring.v
Sql.v
Clients.v
Migrations.v
QueryReads.v
Import.v
StatsApi.v
BlocklistApi.v
Acme.v
Routes.v
UnboundLog.v
Timestamps.v
Resolver.v
Pipeline.v
StorageNew.v
Control.v
