(* ===== verification/Prelude.v ===== *)
(** * Glory-Hole: a verification development

    Glory-Hole is a DNS server that answers queries from local records, applies
    policy rules and blocklists, caches responses and forwards the rest to
    upstream resolvers; an HTTP API manages it.  This library models its Go
    packages (src/pkg) and program (src/cmd) as executable functions and proves that
    the parts, and the handlers that combine them, do what they promise.

    ** The program and its model

    A request enters [Handler.ServeDNS] (pkg/dns/handler.go).  It is answered by
    the first of: the local records (pkg/localrecords), the first matching
    policy rule (pkg/policy), the blocklist (pkg/blocklist with pkg/pattern),
    the response cache (pkg/cache), the upstreams (pkg/forwarder).  Kill
    switches (pkg/api/killswitch.go) turn policies and the blocklist off for a
    while; a ring buffer of dnstap replies (pkg/unbound/replybuffer.go) enriches
    the query log; an allowlist (pkg/dns/acl.go) guards the plain listeners.
    Around it: the listeners and DNS over HTTPS, which hand queries to the
    handler; the query logger, to which it hands its entries; the configuration
    with its file watcher; the API, whose middleware chain authenticates and
    limits requests and whose handlers change the settings, the policies, the
    records and the managed Unbound process.  cmd/glory-hole/main.go builds all of
    this, migrates old sections of the file into the database, and puts changes of
    the file in force; pkg/storage keeps the query log, the rules and the clients
    in SQLite; import.go turns a Pi-hole backup into a configuration.

    Files, in dependency order:
    - [Prelude]: tactics, hint databases, results, machine integers,
      [sort.Search].
    - [GoStrings], [GoNet]: what the code uses of Go's packages strings and net.
    - [DnsMsg]: the messages of github.com/miekg/dns; its functions are a class
      [DnsLib] with laws [DnsLibOk] (documented behaviour), instantiated by
      [simple_dns].
    - [Pattern] (pkg/pattern/pattern.go): exact, wildcard and regexp patterns
      and the three-tier matcher; the regexp engine is the class [RegexpLib].
    - [FlatBlocklist] (pkg/blocklist/flatlist.go): the packed, NUL-separated
      blocklist, its two builders and its lookups.
    - [BlocklistSource] (pkg/blocklist/blocklist.go): download and parsing of
      lists; HTTP is a parameter.
    - [BlocklistManager] (pkg/blocklist/manager.go): updates, attribution of a
      match to its sources, lifecycle.
    - [CacheCore], [Cache], [ShardedCache] (pkg/cache): keys, lifetimes, the
      interface as a class ([CacheImpl], laws [CacheImplOk]) and both
      implementations, which discharge it.
    - [CircuitBreaker], [BreakerConc] (pkg/forwarder/circuit_breaker.go): the
      breaker called sequentially, and as atomic steps of interleaved
      goroutines.
    - [Forwarder] (pkg/forwarder/forwarder.go, health.go): upstream selection,
      retries, breakers; the network, the context and the clock are the class
      [World].
    - [LocalRecords] (pkg/localrecords): validation, lookups, CNAME chains.
    - [Policy] (pkg/policy): helpers, rules, the engine, client groups; the
      expression language is the class [ExprLib].
    - [ReplyBuffer], [KillSwitch], [ClientAcl]: the three small components.
    - [Response] (pkg/dns/edns.go, response.go, trace.go, metrics.go) and
      [Handler] (pkg/dns/handler*.go): the request handler, over any cache
      implementation, any kill-switch checker and any [World].
    - [HandlerProps]: the theorems about the handler.
    - [GoBase64], [GoStrconv], [GoTime]: what the code uses of encoding/base64,
      strconv, time.ParseDuration and path cleaning.
    - [QueryLogger] (pkg/dns/query_logger.go): the bounded channel and its
      workers, as atomic steps.
    - [RateLimit] (pkg/api/middleware_ratelimit.go): the token buckets; float64
      arithmetic is a class [Rounding] with laws [RoundingOk].
    - [Session] (pkg/api/session.go): the session store.
    - [Config] (pkg/config): the data, defaults, environment, validation, load
      and watcher; YAML and bcrypt are the classes [YamlLib] and [BcryptLib].
    - [Auth] (pkg/api/middleware*.go, ui_handlers.go, block_page.go, api.go): the
      middleware chain, login and logout, with the stores above.
    - [UnboundConf] (pkg/unbound config, validator, writer; handlers_unbound.go):
      the sanitizer, the template and the handlers that edit it.
    - [Supervisor] (pkg/unbound/supervisor.go): the process supervisor, as atomic
      steps of its goroutines.
    - [DnsServer] (pkg/dns/server_impl.go): the wrapper around [Handler] that
      every listener has, and the life of the listeners.
    - [Doh] (pkg/api/handler_doh.go): DNS over HTTPS on top of both; packing and
      unpacking of messages is the class [DnsWire].
    - [PolicyApi] (pkg/api/handlers_policy.go, pkg/storage/sqlite_policies.go):
      the rules table and the handlers that keep the engine of [Policy] in step.
    - [ConfigUpdate] (pkg/api/handlers_config_update.go, settings_page.go,
      handlers_features.go): the settings handlers over [Config], [KillSwitch]
      and [ClientAcl].
    - [RecordsLoad] (pkg/api/handlers_localrecords.go, cmd/glory-hole/main.go):
      the configured records at the start, after a change of the file and after
      an edit through the API.
    - [QueryStore] (pkg/storage/sqlite.go): the write path of the query log with
      its summary tables, as atomic steps; the texts of times are the class
      [TimeText].
    - [Startup] (cmd/glory-hole/main.go): the migrations of the whitelist and of the
      conditional forwarding into policy rules, and the rules and allowed clients a
      boot ends with.
    - [Wiring] (cmd/glory-hole/main.go): what each component is built from, and the
      callback that runs when the file changes.
    - [Sql]: LIKE, LIMIT and OFFSET, NULL, as the statements use them.
    - [Clients] (pkg/storage/sqlite_clients.go, pkg/api/handlers_clients.go,
      handlers_storage.go): the tables of clients and groups, their list, their
      handlers, and the groups the engine of [Policy] sees.
    - [Migrations] (pkg/storage/migrations.go and 001_initial.sql): the schema
      versions, the runner, and the columns of every statement of the storage.
    - [QueryReads] (pkg/storage/sqlite.go, sqlite_trace.go): the reads of the query
      log, its retention and its reset.
    - [Import] (cmd/glory-hole/import.go): the Pi-hole importer; the tables of a
      gravity.db are the class [Gravity].
    - [StatsApi] (pkg/api/handlers.go, responses.go): the handlers over
      [QueryReads], readiness, and the configuration that is shown.
    - [BlocklistApi] (pkg/api/handlers_blocklists.go, handlers.go): the sources, the
      check of a name, the reload and the purge; url.Parse is the class [UrlLib].
    - [Acme] (pkg/dns/tls.go, autocert_impl.go): the source of the certificate, the
      two loops of the ACME manager as atomic steps, the account and the challenge
      records.
    - [Routes] (pkg/api/api.go, handlers_unbound.go): the table of routes, and the
      multiplexer of net/http with its patterns and precedence, under [Auth]'s chain.
    - [UnboundLog] (pkg/unbound/dnstap_reader.go, stats.go; pkg/storage/sqlite.go;
      handlers_unbound.go): Unbound's events from a dnstap message to the reply buffer
      and the table, their worker as atomic steps, and the parser of its statistics.
    - [Timestamps] (pkg/storage/sqlite_time.go, sqlite.go; scripts/migrate-timestamps.go):
      the calendar, time.Format and time.Parse on the layouts the code uses, an
      instance of [TimeText], the retention of main, and the script.
    - [Resolver] (pkg/resolver): which name servers are asked for an outbound name.
    - [Pipeline] (cmd/glory-hole/main.go): [QueryLogger] and [QueryStore] composed, with
      the shutdown.
    - [StorageNew] (pkg/storage/factory.go, storage.go, sqlite.go): the opening of the
      database, and the interface of the storage as a class with its two instances.
    - [Control] (pkg/unbound/supervisor.go, handlers_unbound.go): the programs, the
      sequence of a start, the command lines, and the saved configuration across
      restarts, over [Supervisor] and [UnboundConf].

    ** Conventions

    Go strings are lists of bytes, integers are [Z] with the wrap-around written
    out where it can occur, times and durations are nanoseconds, maps are [gmap]
    with the iteration order as an argument where the code iterates, errors are
    [result] or [option], and a panic is [None].  Objects behind pointers are
    values threaded through the operations; where goroutines can interleave
    inside an operation and the claim depends on it ([Cache.get_lookup] and
    [get_finish], [BreakerConc], [KillSwitch.tick], [QueryLogger], [Supervisor],
    [DnsServer], [QueryStore], [Acme], [UnboundLog], [Pipeline]) the critical sections
    are separate definitions, and a run is any sequence of them.  An HTTP request is a record of
    what the code reads of it; a body that the JSON or form decoder rejects is [None]; a reply is its
    status with the data the code puts in it.  Whether a file can be written, a
    process started or a row stored is an argument.  A table is its rows in the
    order they were inserted, or a map by its key; an ORDER BY is a stable sort.

    ** What the theorems show

    - The handler writes exactly one response, by precedence, without a panic,
      with upstream traffic only where the stage allows it; its log agrees with
      the response; a block answer outlives the switching off of the blocklist
      in the cache; truncation follows the stated limit.
    - The packed blocklist is the map it was built from; the merge of sorted
      lists equals the map build; the lookup finds the most specific name; after
      an update a query is blocked exactly when a list or a pattern covers it,
      with exact attribution; no sequence of manager operations panics.
    - Both caches only serve what an ideal cache would serve, keep their
      accounting and capacity exact, and return what was stored; keys are
      injective; evictions are sampled LRU.
    - The breaker is a three-state automaton, and in every interleaving moves
      along its edges only; the forwarder contacts only its upstreams, answers
      with what it received, and answers when the network does, an upstream is not
      open and no half-open breaker is at its limit.
    - Local lookups are ordered, complete and terminate on CNAME loops; the
      policy engine evaluates its first true enabled rule; helper caches are
      transparent; the reply buffer is the list of the newest replies; kill
      switches follow the last operation and announce their end once; the
      allowlist is prefix containment.
    - Every listener answers each query once, refusing clients outside the
      allowlist without any other effect; a DoH request gets the same answer;
      a shutdown leaves no listener up.  Every entry the query logger accepts is
      queued, in a worker's hands, stored or failed, and closing it terminates;
      the same holds of the storage behind it, whose domain counters agree with
      its rows, and of the two composed, where a shutdown, in the order of main,
      refuses what still waits in the logger.
    - No protected route is reached without a credential, and none that changes state
      without an Authorization header or the CSRF token of the session, however its
      path is escaped; a login gives a session that later requests can
      use; redirects stay local; a client is granted at most the burst plus the
      rate times the interval, within the rounding; the session store is the map
      of live sessions.
    - A loaded configuration is the completed and validated file and fails with
      the first problem otherwise; upstreams, cache, logging and block page are in
      force when 200 is answered, TLS settings when the outcome is valid, and both
      features unless both are switched off; the TLS settings can be saved in a
      form that cannot be loaded again.  The policy engine follows its table; what
      the API created can be read back.  Reloaded records are those of a fresh start on every compared
      field; an edit through the API is served, and takes SOA and CAA records out
      of service.
    - A written unbound.conf has exactly the directives of the model; at most one
      restart is in progress and a window has at most five of them; nothing is
      started after a stop, unless a crash is being handled.  A change that is
      answered as done is what Unbound runs with; after a start the changes are made
      on the defaults.  Every event of Unbound that was accepted is kept once.
    - The schema after any interrupted boots is that of the recorded versions, an
      undisturbed run completes it, and every statement but one fits it.  Pages of
      the log and of the clients are complete and in order, trace counters exact
      across batches, retention ends and loses nothing it should keep.  The groups
      the engine sees are those of the tables, except between a reset or a failed
      reload and the next reload.  A stored time is read back exactly;
      compared as texts of different layouts, only the days of the times count.
    - Outbound names are asked at the configured servers, in order, and an ACME order
      with upstreams never asks the system's resolver.
    - The sections that were migrated stay migrated while the rules table can be read,
      and a migrated rule means what its section said, its regexps apart; without
      Unbound the upstreams, the handler's cache, the records, the trace and the
      credentials of the last configuration are in force after any changes of the
      file, and with it the first change takes Unbound out of service.
    - Unpacking an archive writes nothing outside its directory; the imported lists
      decide as Pi-hole's did, its regexps apart; upstreams are read in both notations.
    - The certificate that is served covers the hosts and never goes away; an
      accepted configuration has a source for it; a challenge leaves one record for
      its name.  The check of a name over HTTP agrees with the resolver.
    - Some theorems state races and gaps of the code as they are
      ([Cache.expired_get_race], [BreakerConc.half_open_limit_exceeded],
      [Forwarder.open_breaker_tcp_retry], ...).

    ** Fuel

    Recursion that is not structural takes as fuel a bound the code implies:
    the length of the interval in [sort_Search], the number of domains left in
    [FlatBlocklist.merge_loop], five digits of a [uint16] in
    [CacheCore.qtype_digits], the depth limit in [LocalRecords.resolve_loop], the
    number of digits of an integer in [GoStrconv.Utoa], the number of rows in
    [QueryReads.trace_batches] and [cleanup_loop].
    The theorems show that it is enough.

    ** Not modelled

    Sockets (the accept loops of the servers and of the dnstap reader), the PROXY
    protocol, HTML pages, and the structs that only copy data into JSON: I/O around the
    modelled parts.  Of pkg/dns/tls.go the order of a certificate and the HTTP requests
    to Cloudflare belong to libraries, and of pkg/storage the averages are floats.  Of
    cmd/glory-hole the flags and the signals are left, and of the scripts the prompts.
    pkg/telemetry, pkg/logging and the metrics of the host are adapters around
    libraries and hold no state the rest reads. *)

From Stdlib Require Export ZArith Lia.
From stdpp Require Export numbers base sorting gmap strings list.
From stdpp Require Import options.

(** ** Proof automation *)

(** The hint databases of the development: [gostr] holds the lemmas on Go's
    byte strings, [golist] the generic list lemmas. *)
Create HintDb gostr.
Create Rewrite HintDb gostr.
Create HintDb golist.

(** Split a boolean connective, in hypotheses and goals, into propositions. *)
Ltac bsimpl :=
  repeat match goal with
  | H : andb _ _ = true |- _ => apply andb_true_iff in H as [? ?]
  | H : orb _ _ = false |- _ => apply orb_false_iff in H as [? ?]
  | H : negb _ = true |- _ => apply negb_true_iff in H
  | H : negb _ = false |- _ => apply negb_false_iff in H
  | H : bool_decide _ = true |- _ => apply bool_decide_eq_true in H
  | H : bool_decide _ = false |- _ => apply bool_decide_eq_false in H
  | H : (_ <? _)%nat = true |- _ => apply Nat.ltb_lt in H
  | H : (_ <? _)%nat = false |- _ => apply Nat.ltb_ge in H
  | H : (_ <=? _)%nat = true |- _ => apply Nat.leb_le in H
  | H : (_ <=? _)%nat = false |- _ => apply Nat.leb_gt in H
  | H : (_ =? _)%nat = true |- _ => apply Nat.eqb_eq in H
  | H : (_ =? _)%nat = false |- _ => apply Nat.eqb_neq in H
  | H : (_ <? _)%Z = true |- _ => apply Z.ltb_lt in H
  | H : (_ <? _)%Z = false |- _ => apply Z.ltb_ge in H
  | H : (_ <=? _)%Z = true |- _ => apply Z.leb_le in H
  | H : (_ <=? _)%Z = false |- _ => apply Z.leb_gt in H
  | H : (_ =? _)%Z = true |- _ => apply Z.eqb_eq in H
  | H : (_ =? _)%Z = false |- _ => apply Z.eqb_neq in H
  end.

(** Case analysis on the innermost boolean or option test of the goal, keeping
    the equation. *)
Ltac case_test :=
  match goal with
  | |- context [if ?b then _ else _] =>
      lazymatch b with context [if _ then _ else _] => fail | _ => idtac end;
      let E := fresh "E" in destruct b eqn:E
  | |- context [match ?o with Some _ => _ | None => _ end] =>
      lazymatch o with context [match _ with _ => _ end] => fail | _ => idtac end;
      let E := fresh "E" in destruct o eqn:E
  end.

(** ** Lists *)

Lemma StronglySorted_weaken {A} (R Q : A -> A -> Prop) (l : list A) :
  (forall a b, R a b -> Q a b) -> StronglySorted R l -> StronglySorted Q l.
Proof.
  intros H. induction 1 as [|x l Hs IH Hf]; constructor; [done|].
  eapply Forall_impl; [exact Hf|]. intros y. apply H.
Qed.
#[export] Hint Resolve StronglySorted_weaken : golist.

Lemma omap_cons_eq {A B} (f : A -> option B) (x : A) (l : list A) :
  omap f (x :: l) = match f x with Some y => y :: omap f l | None => omap f l end.
Proof. done. Qed.

Lemma last_default {A} (x d : A) (l : list A) : List.last (x :: l) d = List.last l x.
Proof.
  revert x d. induction l as [|y l IH]; intros x d; [done|].
  change (List.last (x :: y :: l) d) with (List.last (y :: l) d). by rewrite (IH y d), (IH y x).
Qed.

(** ** Errors as values *)

(** A Go function returning [(T, error)]. *)
Inductive result (E A : Type) : Type :=
| Ok (a : A)
| Err (e : E).
Arguments Ok {E A} a.
Arguments Err {E A} e.

#[global] Instance result_ret {E} : MRet (result E) := fun A a => Ok a.
#[global] Instance result_bind {E} : MBind (result E) := fun A B f m =>
  match m with Ok a => f a | Err e => Err e end.

Definition is_ok {E A} (r : result E A) : bool :=
  match r with Ok _ => true | Err _ => false end.

(** ** Machine integers

    Go's fixed-width integers are [Z] with the wrap-around written out. *)

Section machine_integers.
Local Open Scope Z_scope.

Definition wrapu (w : Z) (z : Z) : Z := z mod 2 ^ w.
Definition wraps (w : Z) (z : Z) : Z :=
  let m := z mod 2 ^ w in if m <? 2 ^ (w - 1) then m else m - 2 ^ w.

Lemma wrapu_range w z : 0 <= w -> 0 <= wrapu w z < 2 ^ w.
Proof. intros Hw. apply Z.mod_pos_bound, Z.pow_pos_nonneg; lia. Qed.

Lemma wrapu_small w z : 0 <= z < 2 ^ w -> wrapu w z = z.
Proof. apply Z.mod_small. Qed.

End machine_integers.

(** ** [sort.Search]

    The binary search of Go's package [sort]: the loop
    [for i < j { h := (i+j)/2; if !f(h) { i = h+1 } else { j = h } }].  The
    interval shrinks at every step, so [n] steps are enough. *)

Section sort_search.
Local Open Scope nat_scope.

Fixpoint search_loop (fuel i j : nat) (f : nat -> bool) : nat :=
  match fuel with
  | 0 => i
  | S fuel' =>
      if i <? j then
        let h := (i + j) / 2 in
        if negb (f h) then search_loop fuel' (h + 1) j f else search_loop fuel' i h f
      else i
  end.

Definition sort_Search (n : nat) (f : nat -> bool) : nat := search_loop n 0 n f.

Lemma search_loop_spec fuel i j n f :
  i <= j <= n -> j - i <= fuel ->
  (forall a b, a <= b < n -> f a = true -> f b = true) ->
  (forall a, a < i -> f a = false) -> (forall a, j <= a < n -> f a = true) ->
  let k := search_loop fuel i j f in
  k <= n /\ (forall a, a < k -> f a = false) /\ (forall a, k <= a < n -> f a = true).
Proof.
  revert i j. induction fuel as [|fuel IH]; intros i j Hij Hf Hmono Hlo Hhi; cbn [search_loop].
  { split; [lia|]. split; [done|]. intros a Ha. apply Hhi. lia. }
  destruct (Nat.ltb_spec i j) as [Hlt|Hge].
  2: { split; [lia|]. split; [done|]. intros a Ha. apply Hhi. lia. }
  assert (i <= (i + j) / 2 < j) as Hh.
  { split; [apply Nat.div_le_lower_bound; lia|apply Nat.Div0.div_lt_upper_bound; lia]. }
  destruct (f ((i + j) / 2)) eqn:E; cbn [negb].
  - apply IH; [lia|lia|done|done|]. intros a Ha. apply (Hmono ((i + j) / 2)); [lia|done].
  - apply IH; [lia|lia|done| |intros a Ha; apply Hhi; lia].
    intros a Ha. destruct (f a) eqn:Ea; [|done].
    rewrite (Hmono a ((i + j) / 2)) in E; [done|lia|done].
Qed.

(** On a monotone predicate [sort.Search] returns the least index where it
    holds, or [n]. *)
Lemma sort_Search_spec n f :
  (forall a b, a <= b < n -> f a = true -> f b = true) ->
  let k := sort_Search n f in
  k <= n /\ (forall a, a < k -> f a = false) /\ (forall a, k <= a < n -> f a = true).
Proof. intros H. apply search_loop_spec; try lia; done. Qed.

End sort_search.

(** ** Boolean list functions *)

Lemma filter_none {A} (f : A -> bool) l : (forall x, x ∈ l -> f x = false) -> List.filter f l = [].
Proof.
  intros H. induction l as [|x l IH]; [done|]. cbn. rewrite (H x) by set_solver. apply IH. set_solver.
Qed.

Lemma forallb_ext {A} (f g : A -> bool) l : (forall x, f x = g x) -> forallb f l = forallb g l.
Proof. intros H. induction l as [|x l IH]; cbn; [done|]. by rewrite H, IH. Qed.

Lemma zip_all {A} (f : A -> A -> bool) (P : A -> A -> Prop) l k :
  (forall x y, f x y = true <-> P x y) ->
  (length l =? length k)%nat && forallb (fun p => f p.1 p.2) (zip l k) = true <-> Forall2 P l k.
Proof.
  intros Hf. revert k. induction l as [|x l IH]; intros [|y k]; cbn.
  - split; [constructor|done].
  - split; [done|inversion 1].
  - split; [done|inversion 1].
  - rewrite Forall2_cons, <- IH, <- Hf, !andb_true_iff. tauto.
Qed.
