(* ===== verification/GoStrings.v ===== *)
(** * Go strings

    A Go string is a sequence of bytes, here [list ascii].  This file models
    the functions of package [strings] (and the built-in comparison and
    [sort.Strings]) that the repository calls.  The case mapping and
    [TrimSpace] are those of ASCII text: a byte of 128 or more is left alone,
    where Go would decode it as UTF-8.  DNS names in presentation format are
    ASCII (other bytes are escaped). *)

From Stdlib Require Import Ascii.
From S2P Require Import Prelude.
From stdpp Require Import options.
Local Open Scope nat_scope.

Abbreviation gostring := (list ascii).

(** String literals. *)
Definition str (s : string) : gostring := String.list_ascii_of_string s.

Definition code (c : ascii) : Z := Z.of_N (N_of_ascii c).
Definition chr (z : Z) : ascii := ascii_of_N (Z.to_N z).

Definition dot : ascii := "."%char.

(** ** Comparison *)

Definition bytes_eqb (a b : gostring) : bool := bool_decide (a = b).

(** The three-way comparison behind Go's [<] on strings: bytewise
    lexicographic. *)
Fixpoint str_cmp (a b : gostring) : comparison :=
  match a, b with
  | [], [] => Eq
  | [], _ :: _ => Lt
  | _ :: _, [] => Gt
  | x :: a', y :: b' =>
      match (code x ?= code y)%Z with Eq => str_cmp a' b' | c => c end
  end.

Definition str_ltb (a b : gostring) : bool :=
  match str_cmp a b with Lt => true | _ => false end.

Definition str_lt (a b : gostring) : Prop := str_cmp a b = Lt.
Definition str_le (a b : gostring) : Prop := str_cmp a b <> Gt.

#[global] Instance str_lt_dec : RelDecision str_lt.
Proof. intros a b. unfold str_lt. destruct (str_cmp a b); solve_decision. Defined.
#[global] Instance str_le_dec : RelDecision str_le.
Proof. intros a b. unfold str_le. destruct (str_cmp a b); solve_decision. Defined.

(** [sort.Strings]: the ascending permutation of the slice (equal strings are
    indistinguishable, so the result does not depend on the algorithm). *)
Definition sort_Strings (l : list gostring) : list gostring := merge_sort str_le l.

(** ** Case and space *)

Definition lower_byte (c : ascii) : ascii :=
  let z := code c in if (65 <=? z)%Z && (z <=? 90)%Z then chr (z + 32) else c.
Definition upper_byte (c : ascii) : ascii :=
  let z := code c in if (97 <=? z)%Z && (z <=? 122)%Z then chr (z - 32) else c.

Definition ToLower (s : gostring) : gostring := map lower_byte s.
Definition ToUpper (s : gostring) : gostring := map upper_byte s.
Definition EqualFold (a b : gostring) : bool := bytes_eqb (ToLower a) (ToLower b).

(** Tab, newline, vertical tab, form feed, carriage return, space. *)
Definition is_space_byte (c : ascii) : bool :=
  let z := code c in ((9 <=? z)%Z && (z <=? 13)%Z) || (z =? 32)%Z.

Fixpoint trim_left (s : gostring) : gostring :=
  match s with
  | c :: s' => if is_space_byte c then trim_left s' else s
  | [] => []
  end.
Definition TrimSpace (s : gostring) : gostring :=
  reverse (trim_left (reverse (trim_left s))).

(** [strings.Fields]: the maximal runs of non-space bytes. *)
Fixpoint fields_aux (s cur : gostring) : list gostring :=
  match s with
  | [] => match cur with [] => [] | _ => [reverse cur] end
  | c :: s' =>
      if is_space_byte c
      then match cur with [] => fields_aux s' [] | _ => reverse cur :: fields_aux s' [] end
      else fields_aux s' (c :: cur)
  end.
Definition Fields (s : gostring) : list gostring := fields_aux s [].

(** ** Prefixes, suffixes, substrings *)

Definition HasPrefix (s p : gostring) : bool :=
  (length p <=? length s) && bytes_eqb (take (length p) s) p.
Definition HasSuffix (s p : gostring) : bool :=
  (length p <=? length s) && bytes_eqb (drop (length s - length p) s) p.
Definition TrimPrefix (s p : gostring) : gostring :=
  if HasPrefix s p then drop (length p) s else s.
Definition TrimSuffix (s p : gostring) : gostring :=
  if HasSuffix s p then take (length s - length p) s else s.

(** [strings.Index]: the position of the first occurrence; [None] for -1. *)
Fixpoint Index (s p : gostring) : option nat :=
  if HasPrefix s p then Some 0
  else match s with [] => None | _ :: s' => S <$> Index s' p end.
Definition Contains (s p : gostring) : bool := bool_decide (is_Some (Index s p)).
Definition IndexByte (s : gostring) (c : ascii) : option nat := Index s [c].

Fixpoint LastIndexByte (s : gostring) (c : ascii) : option nat :=
  match s with
  | [] => None
  | x :: s' =>
      match LastIndexByte s' c with
      | Some i => Some (S i)
      | None => if bool_decide (x = c) then Some 0 else None
      end
  end.

(** [strings.Count] and [strings.Split] for a one-byte separator. *)
Definition CountByte (s : gostring) (c : ascii) : nat :=
  length (filter (fun x => x = c) s).

Fixpoint SplitByte (s : gostring) (c : ascii) : list gostring :=
  match s with
  | [] => [[]]
  | x :: s' =>
      if bool_decide (x = c) then [] :: SplitByte s' c
      else match SplitByte s' c with
           | p :: ps => (x :: p) :: ps
           | [] => [[x]]
           end
  end.

Fixpoint Join (l : list gostring) (sep : gostring) : gostring :=
  match l with
  | [] => []
  | [x] => x
  | x :: l' => x ++ sep ++ Join l' sep
  end.

(** ** Laws of the comparison *)

Lemma code_inj a b : code a = code b -> a = b.
Proof.
  unfold code. intros H%N2Z.inj.
  rewrite <- (ascii_N_embedding a), <- (ascii_N_embedding b). by f_equal.
Qed.

Lemma code_range c : (0 <= code c < 256)%Z.
Proof.
  unfold code. pose proof (N_ascii_bounded c). lia.
Qed.

Lemma str_cmp_refl a : str_cmp a a = Eq.
Proof. induction a as [|x a IH]; cbn; [done|]. by rewrite Z.compare_refl. Qed.

Lemma str_cmp_eq a b : str_cmp a b = Eq <-> a = b.
Proof.
  split; [|intros ->; apply str_cmp_refl].
  revert b. induction a as [|x a IH]; intros [|y b]; cbn; try done.
  destruct (Z.compare_spec (code x) (code y)) as [E%code_inj|?|?]; try done.
  intros H. f_equal; auto.
Qed.

Lemma str_cmp_antisym a b : str_cmp b a = CompOpp (str_cmp a b).
Proof.
  revert b. induction a as [|x a IH]; intros [|y b]; cbn; try done.
  rewrite (Z.compare_antisym (code x) (code y)).
  destruct (Z.compare (code x) (code y)); cbn; auto.
Qed.

Lemma str_cmp_lt_trans a b c : str_cmp a b = Lt -> str_cmp b c = Lt -> str_cmp a c = Lt.
Proof.
  revert b c. induction a as [|x a IH]; intros [|y b] [|z c]; cbn; try done.
  destruct (Z.compare_spec (code x) (code y)) as [E|?|?];
    destruct (Z.compare_spec (code y) (code z)) as [E'|?|?]; try done; intros H1 H2.
  - rewrite E, E', Z.compare_refl. eauto.
  - assert (code x < code z)%Z as ->%Z.compare_lt_iff by lia. done.
  - assert (code x < code z)%Z as ->%Z.compare_lt_iff by lia. done.
  - assert (code x < code z)%Z as ->%Z.compare_lt_iff by lia. done.
Qed.

Lemma str_lt_gt a b : str_cmp a b = Gt <-> str_lt b a.
Proof. unfold str_lt. rewrite (str_cmp_antisym a b). by destruct (str_cmp a b). Qed.

Lemma str_ltb_spec a b : str_ltb a b = true <-> str_lt a b.
Proof. unfold str_ltb, str_lt. by destruct (str_cmp a b). Qed.

Lemma str_le_lt_eq a b : str_le a b <-> str_lt a b \/ a = b.
Proof.
  unfold str_le, str_lt. rewrite <- str_cmp_eq. destruct (str_cmp a b); intuition congruence.
Qed.

#[global] Instance str_lt_strict : StrictOrder str_lt.
Proof.
  split.
  - intros a H. unfold str_lt in H. by rewrite str_cmp_refl in H.
  - intros a b c. apply str_cmp_lt_trans.
Qed.

#[global] Instance str_le_trans : Transitive str_le.
Proof.
  intros a b c. rewrite !str_le_lt_eq.
  intros [H| ->] [H'| ->]; auto. left. by etrans.
Qed.

#[global] Instance str_le_antisym : AntiSymm (=) str_le.
Proof.
  intros a b. rewrite !str_le_lt_eq. intros [H|?] [H'|?]; try done.
  exfalso. by apply (irreflexivity str_lt a), (transitivity H).
Qed.

#[global] Instance str_le_total : Total str_le.
Proof.
  intros a b. unfold str_le. rewrite (str_cmp_antisym a b).
  destruct (str_cmp a b); cbn; naive_solver.
Qed.

Lemma sort_Strings_sorted l : StronglySorted str_le (sort_Strings l).
Proof. apply StronglySorted_merge_sort; apply _. Qed.

Lemma sort_Strings_perm l : sort_Strings l ≡ₚ l.
Proof. apply merge_sort_Permutation. Qed.

(** Two sorted slices with the same elements are the same slice. *)
Lemma sort_Strings_unique l1 l2 :
  StronglySorted str_le l1 -> l1 ≡ₚ l2 -> l1 = sort_Strings l2.
Proof.
  intros Hs Hp. apply (StronglySorted_unique str_le); [done|apply sort_Strings_sorted|].
  by rewrite sort_Strings_perm.
Qed.

Lemma NoDup_sorted_lt l : NoDup l -> StronglySorted str_le l -> StronglySorted str_lt l.
Proof.
  induction l as [|x l IH]; intros Hnd Hs; [constructor|].
  apply NoDup_cons in Hnd as [Hx Hnd]. apply StronglySorted_inv in Hs as [Hs Hf].
  constructor; [auto|]. rewrite Forall_forall in *. intros y Hy.
  specialize (Hf y Hy). apply str_le_lt_eq in Hf as [?| ->]; [done|].
  destruct Hx. done.
Qed.

Lemma sorted_lt_NoDup l : StronglySorted str_lt l -> NoDup l.
Proof.
  induction 1 as [|x l Hs IH Hf]; constructor; [|done].
  intros Hx. rewrite Forall_forall in Hf.
  by apply (irreflexivity str_lt x), Hf.
Qed.

(** ** Laws of prefixes, suffixes and substrings *)

Lemma bytes_eqb_eq a b : bytes_eqb a b = true <-> a = b.
Proof. apply bool_decide_eq_true. Qed.

Lemma bytes_eqb_refl a : bytes_eqb a a = true.
Proof. by apply bytes_eqb_eq. Qed.

Lemma HasPrefix_spec s p : HasPrefix s p = true <-> exists k, s = p ++ k.
Proof.
  unfold HasPrefix. rewrite andb_true_iff, Nat.leb_le, bytes_eqb_eq. split.
  - intros [_ H]. exists (drop (length p) s). rewrite <- H at 1. by rewrite take_drop.
  - intros [k ->]. rewrite length_app, take_app_length. split; [lia|done].
Qed.

Lemma HasSuffix_spec s p : HasSuffix s p = true <-> exists k, s = k ++ p.
Proof.
  unfold HasSuffix. rewrite andb_true_iff, Nat.leb_le, bytes_eqb_eq. split.
  - intros [_ H]. exists (take (length s - length p) s). rewrite <- H at 2.
    by rewrite take_drop.
  - intros [k ->]. rewrite length_app. split; [lia|].
    replace (length k + length p - length p) with (length k) by lia.
    by rewrite drop_app_length.
Qed.

Lemma HasPrefix_app p k : HasPrefix (p ++ k) p = true.
Proof. apply HasPrefix_spec. eauto. Qed.
Lemma HasSuffix_app k p : HasSuffix (k ++ p) p = true.
Proof. apply HasSuffix_spec. eauto. Qed.

Lemma TrimPrefix_app p k : TrimPrefix (p ++ k) p = k.
Proof. unfold TrimPrefix. by rewrite HasPrefix_app, drop_app_length. Qed.
Lemma TrimSuffix_app k p : TrimSuffix (k ++ p) p = k.
Proof.
  unfold TrimSuffix. rewrite HasSuffix_app, length_app.
  replace (length k + length p - length p) with (length k) by lia.
  by rewrite take_app_length.
Qed.
Lemma TrimSuffix_none s p : HasSuffix s p = false -> TrimSuffix s p = s.
Proof. unfold TrimSuffix. by intros ->. Qed.

Lemma Index_Some s p i :
  Index s p = Some i ->
  s = take i s ++ p ++ drop (i + length p) s /\ i + length p <= length s /\
  forall j, j < i -> HasPrefix (drop j s) p = false.
Proof.
  revert i. induction s as [|c s IH]; intros i; cbn [Index];
    destruct (HasPrefix _ p) eqn:E; intros H; simplify_eq/=.
  - apply HasPrefix_spec in E as [k E]. apply symmetry, app_eq_nil in E as [-> ->].
    cbn. split; [done|split; [lia|]]. intros; lia.
  - apply HasPrefix_spec in E as [k E]. rewrite E. cbn [take Nat.add app]. rewrite drop_app_length.
    apply (f_equal length) in E. rewrite length_app in E. cbn in E.
    split; [done|split; [lia|]]. intros; lia.
  - apply fmap_Some in H as (i' & Hi & ->). destruct (IH _ Hi) as (H1 & H2 & H3).
    cbn. split; [by f_equal|split; [lia|]].
    intros [|j] Hj; cbn; [done|]. apply H3. lia.
Qed.

Lemma Index_None s p : Index s p = None -> forall j, HasPrefix (drop j s) p = false.
Proof.
  induction s as [|c s IH]; cbn [Index]; destruct (HasPrefix _ p) eqn:E; try done; intros H.
  - intros j. by rewrite drop_nil.
  - apply fmap_None in H. intros [|j]; cbn; auto.
Qed.

Lemma Contains_spec s p : Contains s p = true <-> exists a b, s = a ++ p ++ b.
Proof.
  unfold Contains. rewrite bool_decide_eq_true. split.
  - intros [i H]. apply Index_Some in H as (H & _). eauto.
  - intros (a & b & ->). destruct (Index (a ++ p ++ b) p) eqn:E; [eauto|].
    pose proof (Index_None _ _ E (length a)) as H.
    by rewrite drop_app_length, HasPrefix_app in H.
Qed.

Lemma Contains_byte s c : Contains s [c] = true <-> c ∈ s.
Proof.
  rewrite Contains_spec. rewrite list_elem_of_In. split.
  - intros (a & b & ->). apply in_app_iff. cbn. auto.
  - intros H. apply in_split in H as (a & b & ->). exists a, b. done.
Qed.

Lemma Contains_byte_false s c : Contains s [c] = false <-> c ∉ s.
Proof. rewrite <- Contains_byte. by destruct (Contains s [c]). Qed.

(** ** Laws of the case mapping *)

Lemma ToLower_app a b : ToLower (a ++ b) = ToLower a ++ ToLower b.
Proof. apply map_app. Qed.
Lemma length_ToLower a : length (ToLower a) = length a.
Proof. apply length_map. Qed.

Lemma lower_byte_idem c : lower_byte (lower_byte c) = lower_byte c.
Proof. destruct c as [[] [] [] [] [] [] [] []]; reflexivity. Qed.
Lemma upper_byte_idem c : upper_byte (upper_byte c) = upper_byte c.
Proof. destruct c as [[] [] [] [] [] [] [] []]; reflexivity. Qed.
Lemma lower_byte_dot c : lower_byte c = dot <-> c = dot.
Proof. destruct c as [[] [] [] [] [] [] [] []]; split; intros H; (discriminate H || reflexivity). Qed.
Lemma lower_byte_space c : is_space_byte (lower_byte c) = is_space_byte c.
Proof. destruct c as [[] [] [] [] [] [] [] []]; reflexivity. Qed.

Lemma ToLower_idem s : ToLower (ToLower s) = ToLower s.
Proof. unfold ToLower. rewrite map_map. apply map_ext. apply lower_byte_idem. Qed.
Lemma ToUpper_idem s : ToUpper (ToUpper s) = ToUpper s.
Proof. unfold ToUpper. rewrite map_map. apply map_ext. apply upper_byte_idem. Qed.

Lemma trim_left_lower s : trim_left (ToLower s) = ToLower (trim_left s).
Proof.
  induction s as [|c s IH]; cbn; [done|]. rewrite lower_byte_space.
  by destruct (is_space_byte c).
Qed.

Lemma ToLower_reverse s : ToLower (reverse s) = reverse (ToLower s).
Proof. apply (fmap_reverse lower_byte). Qed.

Lemma TrimSpace_ToLower s : TrimSpace (ToLower s) = ToLower (TrimSpace s).
Proof.
  unfold TrimSpace. by rewrite trim_left_lower, <- ToLower_reverse, trim_left_lower, ToLower_reverse.
Qed.

#[export] Hint Rewrite ToLower_app ToLower_idem length_ToLower ToLower_reverse
  TrimSpace_ToLower bytes_eqb_refl HasPrefix_app HasSuffix_app : gostr.
#[export] Hint Resolve HasPrefix_app HasSuffix_app bytes_eqb_refl : gostr.

(** Splitting at the first separator. *)
Lemma SplitByte_none s c : c ∉ s -> SplitByte s c = [s].
Proof.
  induction s as [|x s IH]; intros H; cbn; [done|]. apply not_elem_of_cons in H as [Hx H].
  rewrite bool_decide_eq_false_2 by congruence. by rewrite IH.
Qed.

Lemma SplitByte_first a b c : c ∉ a -> SplitByte (a ++ c :: b) c = a :: SplitByte b c.
Proof.
  induction a as [|x a IH]; intros H; cbn; [by rewrite bool_decide_eq_true_2|].
  apply not_elem_of_cons in H as [Hx H]. rewrite bool_decide_eq_false_2 by congruence. by rewrite IH.
Qed.

Lemma SplitByte_Join_more es c k : Forall (fun e => c ∉ e) es -> es <> [] -> SplitByte (Join es [c] ++ c :: k) c = es ++ SplitByte k c.
Proof.
  intros H. induction H as [|e es He Hes IH]; [done|]. intros _. destruct es as [|e' es].
  - cbn [Join]. by rewrite SplitByte_first.
  - change (Join (e :: e' :: es) [c]) with (e ++ [c] ++ Join (e' :: es) [c]). rewrite <- !app_assoc. cbn [app].
    rewrite SplitByte_first by done. by rewrite IH.
Qed.

Lemma SplitByte_Join_elems es c : Forall (fun e => c ∉ e) es -> es <> [] -> SplitByte (Join es [c]) c = es.
Proof.
  intros H. induction H as [|e es He Hes IH]; [done|]. intros _. destruct es as [|e' es].
  - cbn [Join]. by rewrite SplitByte_none.
  - change (Join (e :: e' :: es) [c]) with (e ++ [c] ++ Join (e' :: es) [c]). cbn [app].
    rewrite SplitByte_first by done. by rewrite IH.
Qed.
