(* ===== verification/GoNet.v ===== *)
(** * Package [net]: addresses, CIDR blocks, host:port strings

    The parts of Go's standard package [net] (and [net/netip] behind it) that
    the repository calls: [ParseIP], [ParseCIDR], [IP.To4], [IP.To16],
    [IP.Equal], [IP.IsLoopback], [IPNet.Contains], [SplitHostPort] and
    [JoinHostPort].  An [IP] is a slice of 4 or 16 bytes; [nil] is [None]. *)

From Stdlib Require Import Ascii.
From S2P Require Import Prelude GoStrings.
From stdpp Require Import options.
Local Open Scope Z_scope.

Abbreviation IP := (list Z).

(** ** Addresses *)

Definition v4InV6Prefix : list Z := [0; 0; 0; 0; 0; 0; 0; 0; 0; 0; 255; 255].

Definition To4 (ip : IP) : option IP :=
  if (length ip =? 4)%nat then Some ip
  else if (length ip =? 16)%nat && bool_decide (take 12 ip = v4InV6Prefix)
  then Some (drop 12 ip)
  else None.

Definition To16 (ip : IP) : option IP :=
  if (length ip =? 4)%nat then Some (v4InV6Prefix ++ ip)
  else if (length ip =? 16)%nat then Some ip
  else None.

Definition IP_Equal (ip x : IP) : bool :=
  if (length ip =? length x)%nat then bool_decide (ip = x)
  else if (length ip =? 4)%nat && (length x =? 16)%nat then
    bool_decide (take 12 x = v4InV6Prefix) && bool_decide (ip = drop 12 x)
  else if (length ip =? 16)%nat && (length x =? 4)%nat then
    bool_decide (take 12 ip = v4InV6Prefix) && bool_decide (drop 12 ip = x)
  else false.

Definition IsLoopback (ip : IP) : bool :=
  match To4 ip with
  | Some ip4 => match ip4 with b :: _ => b =? 127 | [] => false end
  | None => IP_Equal ip (replicate 15 0 ++ [1])
  end.

(** ** Parsing *)

Definition is_digit (c : ascii) : bool := (48 <=? code c) && (code c <=? 57).

(** [netip.parseIPv4Fields]: [val], [digLen] and the fields read so far; [prev]
    is the byte before, to reject empty fields. *)
Fixpoint parseIPv4Fields (s : gostring) (first : bool) (prevdot : bool) (val digLen : Z)
    (fields : list Z) : option (list Z) :=
  match s with
  | [] => if (length fields <? 3)%nat then None else Some (fields ++ [val])
  | c :: s' =>
      if is_digit c then
        if (digLen =? 1) && (val =? 0) then None
        else
          let val' := val * 10 + (code c - 48) in
          if 255 <? val' then None else parseIPv4Fields s' false false val' (digLen + 1) fields
      else if bool_decide (c = dot) then
        if first || bool_decide (s' = []) || prevdot then None
        else if (length fields =? 3)%nat then None
        else parseIPv4Fields s' false true 0 0 (fields ++ [val])
      else None
  end.

Definition parseIPv4 (s : gostring) : option (list Z) := parseIPv4Fields s true false 0 0 [].

Definition hex_val (c : ascii) : option Z :=
  let z := code c in
  if (48 <=? z) && (z <=? 57) then Some (z - 48)
  else if (97 <=? z) && (z <=? 102) then Some (z - 97 + 10)
  else if (65 <=? z) && (z <=? 70) then Some (z - 65 + 10)
  else None.

(** The hex group at the head of [s]: its value, its length and the rest;
    [None] when it has more than four digits. *)
Fixpoint hex_group (s : gostring) (acc : Z) (off : nat) : option (Z * nat * gostring) :=
  match s with
  | [] => Some (acc, off, [])
  | c :: s' =>
      match hex_val c with
      | None => Some (acc, off, s)
      | Some v => if (3 <? off)%nat then None else hex_group s' (acc * 16 + v) (off + 1)
      end
  end.

(** The group loop of [netip.parseIPv6]: bytes read so far, position of the
    ellipsis; returns the bytes, the ellipsis and what is left of the string.
    Each round adds two bytes, so eight rounds suffice. *)
Fixpoint parseIPv6_loop (fuel : nat) (s : gostring) (ip : list Z) (ellipsis : option nat)
    : option (list Z * option nat * gostring) :=
  match fuel with
  | O => Some (ip, ellipsis, s)
  | S fuel' =>
      match hex_group s 0 0 with
      | None => None
      | Some (_, O, _) => None
      | Some (acc, _, rest) =>
          if HasPrefix rest [dot] then
            if bool_decide (ellipsis = None) && negb (length ip =? 12)%nat then None
            else if (16 <? length ip + 4)%nat then None
            else match parseIPv4 s with
                 | None => None
                 | Some v4 => Some (ip ++ v4, ellipsis, [])
                 end
          else
            let ip' := ip ++ [acc / 256; acc mod 256] in
            match rest with
            | [] => Some (ip', ellipsis, [])
            | c :: rest' =>
                if negb (bool_decide (c = ":"%char)) then None
                else match rest' with
                     | [] => None
                     | c' :: rest'' =>
                         if bool_decide (c' = ":"%char) then
                           match ellipsis with
                           | Some _ => None
                           | None =>
                               match rest'' with
                               | [] => Some (ip', Some (length ip'), [])
                               | _ => parseIPv6_loop fuel' rest'' ip' (Some (length ip'))
                               end
                           end
                         else parseIPv6_loop fuel' rest' ip' ellipsis
                     end
            end
      end
  end.

(** [netip.parseIPv6] for an address without a zone. *)
Definition parseIPv6 (s : gostring) : option (list Z) :=
  let '(s1, ell) := if HasPrefix s (str "::") then (drop 2 s, Some O) else (s, None) in
  if bool_decide (ell = Some O) && bool_decide (s1 = []) then Some (replicate 16 0)
  else match parseIPv6_loop 8 s1 [] ell with
       | None => None
       | Some (ip, ellipsis, rest) =>
           if negb (bool_decide (rest = [])) then None
           else if (length ip <? 16)%nat then
             match ellipsis with
             | None => None
             | Some e => Some (take e ip ++ replicate (16 - length ip) 0 ++ drop e ip)
             end
           else if bool_decide (ellipsis = None) then Some ip else None
       end.

(** [netip.ParseAddr], restricted to addresses without a zone: the first of
    ['.'], [':'] and ['%'] decides; a zone makes [net.ParseIP] fail. *)
Fixpoint parseAddr_kind (s : gostring) : option bool :=
  match s with
  | [] => None
  | c :: s' =>
      if bool_decide (c = dot) then Some true
      else if bool_decide (c = ":"%char) then Some false
      else if bool_decide (c = "%"%char) then None
      else parseAddr_kind s'
  end.

Definition ParseAddr (s : gostring) : option (list Z) :=
  match parseAddr_kind s with
  | None => None
  | Some true => parseIPv4 s
  | Some false => if Contains s (str "%") then None else parseIPv6 s
  end.

(** [net.ParseIP]: the 16-byte form. *)
Definition ParseIP (s : gostring) : option IP :=
  match ParseAddr s with
  | None => None
  | Some ip => To16 ip
  end.

(** ** CIDR blocks *)

Record IPNet := MkIPNet { net_IP : IP; net_Mask : list Z }.

(** [net.CIDRMask]. *)
Fixpoint CIDRMask (ones : Z) (bytes : nat) : list Z :=
  match bytes with
  | O => []
  | S b =>
      if 8 <=? ones then 255 :: CIDRMask (ones - 8) b
      else (255 - (2 ^ (8 - ones) - 1)) :: replicate b 0
  end.

Definition mask_and (ip m : list Z) : list Z := zip_with Z.land ip m.

(** [dtoi] on a whole string of digits; [None] otherwise (16777215 is its
    overflow bound). *)
Fixpoint dtoi_loop (s : gostring) (n : Z) : option Z :=
  match s with
  | [] => Some n
  | c :: s' =>
      if is_digit c then
        let n' := n * 10 + (code c - 48) in
        if 16777215 <=? n' then None else dtoi_loop s' n'
      else None
  end.
Definition dtoi (s : gostring) : option Z := if bool_decide (s = []) then None else dtoi_loop s 0.

Definition ParseCIDR (s : gostring) : option IPNet :=
  match IndexByte s "/"%char with
  | None => None
  | Some i =>
      match ParseAddr (take i s), dtoi (drop (i + 1) s) with
      | Some ip, Some n =>
          if (n <? 0) || (Z.of_nat (length ip) * 8 <? n) then None
          else
            let m := CIDRMask n (length ip) in
            Some (MkIPNet (mask_and ip m) m)
      | _, _ => None
      end
  end.

(** [IPNet.Contains]; the network number of a parsed block and its mask have
    the same length. *)
Definition IPNet_Contains (n : IPNet) (ip : IP) : bool :=
  let x := default ip (To4 ip) in
  let nn := default (net_IP n) (To4 (net_IP n)) in
  let m := if (length (net_Mask n) =? 16)%nat && (length nn =? 4)%nat
           then drop 12 (net_Mask n) else net_Mask n in
  (length x =? length nn)%nat && bool_decide (mask_and nn m = mask_and x m).

(** ** host:port *)

Inductive AddrError := ErrMissingPort | ErrTooManyColons | ErrMissingBracket
  | ErrUnexpectedBracket.

Definition SplitHostPort (hp : gostring) : result AddrError (gostring * gostring) :=
  match LastIndexByte hp ":"%char with
  | None => Err ErrMissingPort
  | Some i =>
      let finish (host : gostring) (j k : nat) :=
        if Contains (drop j hp) (str "[") then Err ErrUnexpectedBracket
        else if Contains (drop k hp) (str "]") then Err ErrUnexpectedBracket
        else Ok (host, drop (i + 1) hp) in
      if HasPrefix hp (str "[") then
        match IndexByte hp "]"%char with
        | None => Err ErrMissingBracket
        | Some e =>
            if (e + 1 =? length hp)%nat then Err ErrMissingPort
            else if (e + 1 =? i)%nat then finish (take (e - 1) (drop 1 hp)) 1%nat (e + 1)%nat
            else if HasPrefix (drop (e + 1) hp) (str ":") then Err ErrTooManyColons
            else Err ErrMissingPort
        end
      else
        let host := take i hp in
        if Contains host (str ":") then Err ErrTooManyColons else finish host 0%nat 0%nat
  end.

Definition JoinHostPort (host port : gostring) : gostring :=
  if Contains host (str ":") then str "[" ++ host ++ str "]:" ++ port
  else host ++ str ":" ++ port.

(** ** Checks on concrete inputs *)

Example ParseIP_v4 : ParseIP (str "192.168.1.10") = Some (v4InV6Prefix ++ [192; 168; 1; 10]).
Proof. vm_compute. reflexivity. Qed.
Example ParseIP_leading_zero : ParseIP (str "192.168.01.10") = None.
Proof. vm_compute. reflexivity. Qed.
Example ParseIP_short : ParseIP (str "192.168.1") = None.
Proof. vm_compute. reflexivity. Qed.
Example ParseIP_v6 : ParseIP (str "fd00::1:2") =
  Some [253; 0; 0; 0; 0; 0; 0; 0; 0; 0; 0; 0; 0; 1; 0; 2].
Proof. vm_compute. reflexivity. Qed.
Example ParseIP_v6_loopback : ParseIP (str "::1") = Some (replicate 15 0 ++ [1]).
Proof. vm_compute. reflexivity. Qed.
Example ParseIP_v6_two_ellipses : ParseIP (str "1::2::3") = None.
Proof. vm_compute. reflexivity. Qed.
Example ParseIP_mapped : ParseIP (str "::ffff:10.0.0.1") = Some (v4InV6Prefix ++ [10; 0; 0; 1]).
Proof. vm_compute. reflexivity. Qed.
Example ParseIP_zone : ParseIP (str "fe80::1%eth0") = None.
Proof. vm_compute. reflexivity. Qed.
Example ParseCIDR_v4 : (fun n => IPNet_Contains n [10; 1; 2; 3]) <$> ParseCIDR (str "10.1.0.0/16") = Some true.
Proof. vm_compute. reflexivity. Qed.
Example ParseCIDR_bad : ParseCIDR (str "10.1.0.0/33") = None.
Proof. vm_compute. reflexivity. Qed.
Example SplitHostPort_v6 : SplitHostPort (str "[::1]:53") = Ok (str "::1", str "53").
Proof. vm_compute. reflexivity. Qed.
Example SplitHostPort_bare_v6 : SplitHostPort (str "::1") = Err ErrTooManyColons.
Proof. vm_compute. reflexivity. Qed.

(** ** Facts used by the components *)

Lemma To16_length ip ip' : To16 ip = Some ip' -> length ip' = 16%nat.
Proof.
  unfold To16. destruct (Nat.eqb_spec (length ip) 4); [|destruct (Nat.eqb_spec (length ip) 16)];
    intros; simplify_eq; [|done]. rewrite length_app. cbn. lia.
Qed.

Lemma ParseIP_length s ip : ParseIP s = Some ip -> length ip = 16%nat.
Proof. unfold ParseIP. destruct (ParseAddr s); [apply To16_length|done]. Qed.

Lemma To4_To16 ip : length ip = 4%nat -> forall ip', To16 ip = Some ip' -> To4 ip' = Some ip.
Proof.
  intros Hl ip'. unfold To16. rewrite Hl. cbn. intros [= <-]. unfold To4. cbn.
  by rewrite Hl.
Qed.
