(* ===== verification/DnsMsg.v ===== *)
(** * DNS messages

    The data of package [github.com/miekg/dns] that the repository reads and
    writes (its public message and record structs), and what the code calls of
    its functions as a class of operations, [DnsLib], with the documented
    behaviour the theorems rely on as a class of laws, [DnsLibOk].  The package
    is not part of the repository: both classes are parameters of the model,
    and [simple_dns] instantiates them for the witnesses.  An [OPT] record is
    given by what its accessors return (UDP size, version, DO bit, options);
    [Msg.Copy], a deep copy, is the identity on values. *)

From Stdlib Require Import Ascii.
From S2P Require Import Prelude GoStrings GoNet.
From stdpp Require Import options.
Local Open Scope Z_scope.

(** ** Records *)

Definition TypeA := 1.
Definition TypeNS := 2.
Definition TypeCNAME := 5.
Definition TypeSOA := 6.
Definition TypePTR := 12.
Definition TypeMX := 15.
Definition TypeTXT := 16.
Definition TypeAAAA := 28.
Definition TypeSRV := 33.
Definition TypeOPT := 41.
Definition TypeCAA := 257.
Definition ClassINET := 1.

Definition RcodeSuccess := 0.
Definition RcodeFormatError := 1.
Definition RcodeServerFailure := 2.
Definition RcodeNameError := 3.

Record RR_Header := MkHdr {
  Hdr_Name : gostring; Hdr_Rrtype : Z; Hdr_Class : Z; Hdr_Ttl : Z
}.

Inductive EDNS0 :=
| EDNS0_EDE (InfoCode : Z) (ExtraText : gostring)
| EDNS0_other (optcode : Z) (raw : gostring).

Record OPT := MkOPT {
  opt_UDPSize : Z; opt_Version : Z; opt_Do : bool; opt_Option : list EDNS0
}.

Inductive RR :=
| RR_A (h : RR_Header) (a : IP)
| RR_AAAA (h : RR_Header) (a : IP)
| RR_CNAME (h : RR_Header) (target : gostring)
| RR_TXT (h : RR_Header) (txt : list gostring)
| RR_MX (h : RR_Header) (preference : Z) (mx : gostring)
| RR_PTR (h : RR_Header) (ptr : gostring)
| RR_SRV (h : RR_Header) (priority weight port : Z) (target : gostring)
| RR_NS (h : RR_Header) (ns : gostring)
| RR_SOA (h : RR_Header) (ns mbox : gostring) (serial refresh retry expire minttl : Z)
| RR_CAA (h : RR_Header) (flag : Z) (tag value : gostring)
| RR_OPT (h : RR_Header) (o : OPT)
| RR_other (h : RR_Header) (rdata : gostring).

(** [RR.Header]. *)
Definition RR_hdr (r : RR) : RR_Header :=
  match r with
  | RR_A h _ | RR_AAAA h _ | RR_CNAME h _ | RR_TXT h _ | RR_MX h _ _ | RR_PTR h _
  | RR_SRV h _ _ _ _ | RR_NS h _ | RR_SOA h _ _ _ _ _ _ _ | RR_CAA h _ _ _ | RR_OPT h _
  | RR_other h _ => h
  end.

Record Question := MkQuestion { q_Name : gostring; q_Qtype : Z; q_Qclass : Z }.

Record Msg := MkMsg {
  Id : Z;
  Response : bool;
  Opcode : Z;
  Authoritative : bool;
  Truncated : bool;
  RecursionDesired : bool;
  RecursionAvailable : bool;
  AuthenticatedData : bool;
  CheckingDisabled : bool;
  Rcode : Z;
  Msg_Question : list Question;
  Answer : list RR;
  Msg_Ns : list RR;
  Extra : list RR
}.

Definition zero_Msg : Msg :=
  MkMsg 0 false 0 false false false false false false 0 [] [] [] [].

(** Field updates. *)
Definition with_Id (i : Z) (m : Msg) : Msg :=
  MkMsg i (Response m) (Opcode m) (Authoritative m) (Truncated m) (RecursionDesired m)
    (RecursionAvailable m) (AuthenticatedData m) (CheckingDisabled m) (Rcode m)
    (Msg_Question m) (Answer m) (Msg_Ns m) (Extra m).
Definition with_Authoritative (b : bool) (m : Msg) : Msg :=
  MkMsg (Id m) (Response m) (Opcode m) b (Truncated m) (RecursionDesired m)
    (RecursionAvailable m) (AuthenticatedData m) (CheckingDisabled m) (Rcode m)
    (Msg_Question m) (Answer m) (Msg_Ns m) (Extra m).
Definition with_RecursionAvailable (b : bool) (m : Msg) : Msg :=
  MkMsg (Id m) (Response m) (Opcode m) (Authoritative m) (Truncated m) (RecursionDesired m)
    b (AuthenticatedData m) (CheckingDisabled m) (Rcode m)
    (Msg_Question m) (Answer m) (Msg_Ns m) (Extra m).
Definition with_Truncated (b : bool) (m : Msg) : Msg :=
  MkMsg (Id m) (Response m) (Opcode m) (Authoritative m) b (RecursionDesired m)
    (RecursionAvailable m) (AuthenticatedData m) (CheckingDisabled m) (Rcode m)
    (Msg_Question m) (Answer m) (Msg_Ns m) (Extra m).
Definition with_Answer (a : list RR) (m : Msg) : Msg :=
  MkMsg (Id m) (Response m) (Opcode m) (Authoritative m) (Truncated m) (RecursionDesired m)
    (RecursionAvailable m) (AuthenticatedData m) (CheckingDisabled m) (Rcode m)
    (Msg_Question m) a (Msg_Ns m) (Extra m).
Definition with_Extra (e : list RR) (m : Msg) : Msg :=
  MkMsg (Id m) (Response m) (Opcode m) (Authoritative m) (Truncated m) (RecursionDesired m)
    (RecursionAvailable m) (AuthenticatedData m) (CheckingDisabled m) (Rcode m)
    (Msg_Question m) (Answer m) (Msg_Ns m) e.
Definition with_Rcode (c : Z) (m : Msg) : Msg :=
  MkMsg (Id m) (Response m) (Opcode m) (Authoritative m) (Truncated m) (RecursionDesired m)
    (RecursionAvailable m) (AuthenticatedData m) (CheckingDisabled m) c
    (Msg_Question m) (Answer m) (Msg_Ns m) (Extra m).

(** [msg.Answer = append(msg.Answer, rr)]. *)
Definition append_Answer (rr : RR) (m : Msg) : Msg := with_Answer (Answer m ++ [rr]) m.

(** ** The library *)

Class DnsLib := {
  (** [Msg.SetReply(request)] *)
  SetReply : Msg -> Msg -> Msg;
  (** [Msg.SetRcode(request, rcode)] *)
  SetRcode : Msg -> Msg -> Z -> Msg;
  (** [Msg.IsEdns0()] *)
  IsEdns0 : Msg -> option OPT;
  (** [Msg.Len()] *)
  Msg_Len : Msg -> Z;
  (** [dns.Fqdn] *)
  Fqdn : gostring -> gostring;
  (** [dns.TypeToString], the empty string for an unknown type *)
  TypeToString : Z -> gostring
}.

(** The documented behaviour the theorems rely on. *)
Class DnsLibOk (DL : DnsLib) : Prop := {
  (** A reply echoes the id and carries no records of its own. *)
  SetReply_Id m r : Id (SetReply m r) = Id r;
  SetReply_Answer m r : Answer (SetReply m r) = Answer m;
  SetReply_Rcode m r : Rcode (SetReply m r) = RcodeSuccess;
  SetReply_Extra m r : Extra (SetReply m r) = Extra m;
  (** [SetRcode] makes an error reply and keeps the records. *)
  SetRcode_Id m r c : Id (SetRcode m r c) = Id r;
  SetRcode_Rcode m r c : Rcode (SetRcode m r c) = c;
  SetRcode_Answer m r c : Answer (SetRcode m r c) = Answer m;
  SetRcode_Extra m r c : Extra (SetRcode m r c) = Extra m;
  (** [IsEdns0] finds an OPT record of the additional section. *)
  IsEdns0_Some m o : IsEdns0 m = Some o -> exists h, RR_OPT h o ∈ Extra m;
  IsEdns0_None m : IsEdns0 m = None -> forall h o, RR_OPT h o ∉ Extra m;
  (** A name without a trailing dot is made fully qualified by adding it. *)
  Fqdn_add s : HasSuffix s [dot] = false -> Fqdn s = s ++ [dot]
}.

(** ** A concrete instance *)

Definition simple_IsEdns0 (m : Msg) : option OPT :=
  foldl (fun acc r => match r with RR_OPT _ o => Some o | _ => acc end) None (Extra m).

Definition simple_dns : DnsLib := {|
  SetReply m r := MkMsg (Id r) true (Opcode r) (Authoritative m) (Truncated m)
    (RecursionDesired r) (RecursionAvailable m) (AuthenticatedData m) (CheckingDisabled r)
    RcodeSuccess (take 1 (Msg_Question r)) (Answer m) (Msg_Ns m) (Extra m);
  SetRcode m r c := MkMsg (Id r) true (Opcode r) (Authoritative m) (Truncated m)
    (RecursionDesired r) (RecursionAvailable m) (AuthenticatedData m) (CheckingDisabled r)
    c (take 1 (Msg_Question r)) (Answer m) (Msg_Ns m) (Extra m);
  IsEdns0 := simple_IsEdns0;
  Msg_Len m := 12 + 16 * Z.of_nat (length (Answer m) + length (Msg_Ns m) + length (Extra m));
  Fqdn s := if HasSuffix s [dot] then s else s ++ [dot];
  TypeToString t := if t =? 1 then str "A" else if t =? 28 then str "AAAA" else []
|}.

Lemma simple_dns_ok : DnsLibOk simple_dns.
Proof.
  assert (forall l acc o, foldl (fun a r => match r with RR_OPT _ o => Some o | _ => a end) acc l = Some o ->
    acc = Some o \/ exists h, RR_OPT h o ∈ l) as Hsome.
  { induction l as [|r l IH]; intros acc o H; cbn in H; [auto|].
    apply IH in H as [H|[h H]]; [|right; exists h; by right].
    destruct r; try (by left). simplify_eq. right. eexists. left. }
  assert (forall l acc, foldl (fun a r => match r with RR_OPT _ o => Some o | _ => a end) acc l = None ->
    acc = None /\ forall h o, RR_OPT h o ∉ l) as Hnone.
  { induction l as [|r l IH]; intros acc H; cbn in H.
    { split; [done|]. intros h o Hin. by apply not_elem_of_nil in Hin. }
    apply IH in H as [H Hl]. destruct r; cbn in H; try done;
      (split; [done|]; intros h' o' Hin; apply elem_of_cons in Hin as [?|Hin]; [done|by eapply Hl]). }
  split; try done.
  - intros m o H. apply Hsome in H as [?|?]; done.
  - intros m H. by apply Hnone in H as [_ H].
  - intros s H. cbn. by rewrite H.
Qed.
