(* ===== verification/Pattern.v ===== *)
(** * Domain patterns (pkg/pattern)

    Exact, wildcard and regex domain patterns, and the three-tier [Matcher].
    Go's [regexp] engine is a parameter of the model (class [RegexpLib]): the
    package only compiles a pattern and runs [MatchString]. *)

From Stdlib Require Import Ascii.
From S2P Require Import Prelude GoStrings.
From stdpp Require Import options.
Local Open Scope nat_scope.

(** What the code uses of package [regexp]. *)
Class RegexpLib := {
  Regexp : Type;
  regexp_Compile : gostring -> option Regexp;
  regexp_MatchString : Regexp -> gostring -> bool
}.

Inductive PatternType := PatternTypeExact | PatternTypeWildcard | PatternTypeRegex.

#[global] Instance PatternType_eq_dec : EqDecision PatternType.
Proof. solve_decision. Defined.

Definition PatternType_String (pt : PatternType) : gostring :=
  match pt with
  | PatternTypeExact => str "exact"
  | PatternTypeWildcard => str "wildcard"
  | PatternTypeRegex => str "regex"
  end.

Inductive PatternError := ErrEmptyPattern | ErrInvalidRegex (p : gostring).

(** The metacharacters that make a pattern a regex. *)
Definition regexChars : list gostring :=
  [ str "("; str ")"; str "["; str "]"; str "{"; str "}"; str "^"; str "$"; str "|";
    str "\"; str "+"; str "?" ].

Definition isRegexPattern (pattern : gostring) : bool :=
  existsb (fun char => Contains pattern char) regexChars
  || Contains pattern (str ".*") || Contains pattern (str ".+").

Section pattern.
Context {RX : RegexpLib}.

Record Pattern := MkPattern {
  p_Compiled : option Regexp;
  p_Raw : gostring;
  p_Type : PatternType
}.

Definition ParsePattern (pattern : gostring) : result PatternError Pattern :=
  if bytes_eqb pattern [] then Err ErrEmptyPattern
  else if HasPrefix pattern (str "*.") then
    Ok (MkPattern None pattern PatternTypeWildcard)
  else if isRegexPattern pattern then
    match regexp_Compile pattern with
    | None => Err (ErrInvalidRegex pattern)
    | Some compiled => Ok (MkPattern (Some compiled) pattern PatternTypeRegex)
    end
  else Ok (MkPattern None pattern PatternTypeExact).

Definition Pattern_Match (p : Pattern) (domain : gostring) : bool :=
  match p_Type p with
  | PatternTypeExact => bytes_eqb domain (p_Raw p)
  | PatternTypeWildcard =>
      let suffix := TrimPrefix (p_Raw p) (str "*.") in
      HasSuffix domain suffix && negb (bytes_eqb domain suffix)
  | PatternTypeRegex =>
      match p_Compiled p with
      | None => false
      | Some re => regexp_MatchString re domain
      end
  end.

Definition Pattern_String (p : Pattern) : gostring :=
  PatternType_String (p_Type p) ++ str "(" ++ p_Raw p ++ str ")".

Record Matcher := MkMatcher {
  exact : gset gostring;
  wildcard : list Pattern;
  regex : list Pattern
}.

Definition empty_Matcher : Matcher := MkMatcher ∅ [] [].

(** The body of [NewMatcher]'s loop. *)
Definition Matcher_add (m : Matcher) (p : Pattern) : Matcher :=
  match p_Type p with
  | PatternTypeExact => MkMatcher ({[p_Raw p]} ∪ exact m) (wildcard m) (regex m)
  | PatternTypeWildcard => MkMatcher (exact m) (wildcard m ++ [p]) (regex m)
  | PatternTypeRegex => MkMatcher (exact m) (wildcard m) (regex m ++ [p])
  end.

Fixpoint NewMatcher_loop (m : Matcher) (patterns : list gostring) : result PatternError Matcher :=
  match patterns with
  | [] => Ok m
  | patternStr :: rest =>
      match ParsePattern patternStr with
      | Err e => Err e
      | Ok pattern => NewMatcher_loop (Matcher_add m pattern) rest
      end
  end.

Definition NewMatcher (patterns : list gostring) : result PatternError Matcher :=
  NewMatcher_loop empty_Matcher patterns.

(** [MatchPattern]: exact map first, then the wildcards in order, then the
    regexes in order. *)
Definition MatchPattern (m : Matcher) (domain : gostring) : option Pattern :=
  if bool_decide (domain ∈ exact m) then Some (MkPattern None domain PatternTypeExact)
  else match List.find (fun p => Pattern_Match p domain) (wildcard m) with
       | Some p => Some p
       | None => List.find (fun p => Pattern_Match p domain) (regex m)
       end.

Definition Matcher_Match (m : Matcher) (domain : gostring) : bool :=
  match MatchPattern m domain with Some _ => true | None => false end.

Record MatcherStats := MkMatcherStats {
  ms_exact : nat; ms_wildcard : nat; ms_regex : nat; ms_total : nat
}.

Definition Matcher_Stats (m : Matcher) : MatcherStats :=
  MkMatcherStats (size (exact m)) (length (wildcard m)) (length (regex m))
    (size (exact m) + length (wildcard m) + length (regex m)).

(** ** What the matcher means *)

(** The reference: parse every pattern and scan the list. *)
Fixpoint parse_all (patterns : list gostring) : result PatternError (list Pattern) :=
  match patterns with
  | [] => Ok []
  | s :: rest =>
      match ParsePattern s with
      | Err e => Err e
      | Ok p => match parse_all rest with Ok ps => Ok (p :: ps) | Err e => Err e end
      end
  end.

Definition any_match (ps : list Pattern) (domain : gostring) : bool :=
  existsb (fun p => Pattern_Match p domain) ps.

Lemma existsb_find {A} (f : A -> bool) l :
  match List.find f l with Some _ => true | None => false end = existsb f l.
Proof. induction l as [|x l IH]; cbn; [done|]. by destruct (f x). Qed.

Lemma Matcher_Match_or m domain :
  Matcher_Match m domain =
  bool_decide (domain ∈ exact m) || any_match (wildcard m) domain || any_match (regex m) domain.
Proof.
  unfold Matcher_Match, MatchPattern, any_match. rewrite <- !existsb_find.
  case_bool_decide; cbn; [done|].
  by destruct (List.find _ (wildcard m)).
Qed.

Lemma Matcher_add_Match m p domain :
  p_Type p <> PatternTypeRegex \/ is_Some (p_Compiled p) ->
  Matcher_Match (Matcher_add m p) domain = Matcher_Match m domain || Pattern_Match p domain.
Proof.
  intros Hp. rewrite !Matcher_Match_or. unfold Matcher_add, any_match.
  destruct p as [c raw []]; unfold Pattern_Match; cbn;
    rewrite ?existsb_app; cbn; rewrite ?orb_false_r.
  - unfold bytes_eqb. rewrite !(orb_comm _ (bool_decide (domain = raw))), !orb_assoc.
    f_equal. f_equal. apply eq_true_iff_eq. rewrite orb_true_iff, !bool_decide_eq_true.
    set_solver.
  - destruct (bool_decide _), (existsb _ (wildcard m)), (existsb _ (regex m)), (_ && _); done.
  - by rewrite orb_assoc.
Qed.

Lemma ParsePattern_compiled s p :
  ParsePattern s = Ok p -> p_Type p <> PatternTypeRegex \/ is_Some (p_Compiled p).
Proof.
  unfold ParsePattern. repeat case_test; intros; simplify_eq/=; auto.
Qed.

Lemma NewMatcher_loop_parse m patterns :
  match NewMatcher_loop m patterns, parse_all patterns with
  | Ok m', Ok ps => forall d, Matcher_Match m' d = Matcher_Match m d || any_match ps d
  | Err e, Err e' => e = e'
  | _, _ => False
  end.
Proof.
  revert m. induction patterns as [|s rest IH]; intros m; cbn.
  - intros d. by rewrite orb_false_r.
  - destruct (ParsePattern s) as [p|e] eqn:Hp; [|done].
    specialize (IH (Matcher_add m p)).
    destruct (NewMatcher_loop _ rest), (parse_all rest); try done.
    intros d. rewrite IH, Matcher_add_Match by eauto using ParsePattern_compiled.
    cbn. by rewrite orb_assoc.
Qed.

(** The three-tier [Matcher] built from a list of patterns accepts a domain
    exactly when some pattern of the list does on its own; the tiers change the
    cost and the reported pattern, never the decision.  [NewMatcher] fails on
    exactly the lists in which a pattern fails to parse, with that pattern's
    error. *)
Theorem matcher_agrees_with_scan (patterns : list gostring) :
  match NewMatcher patterns, parse_all patterns with
  | Ok m, Ok ps => forall d, Matcher_Match m d = any_match ps d
  | Err e, Err e' => e = e'
  | _, _ => False
  end.
Proof.
  pose proof (NewMatcher_loop_parse empty_Matcher patterns) as H.
  unfold NewMatcher. by destruct (NewMatcher_loop _ _), (parse_all _).
Qed.

(** A wildcard pattern [*.suffix] matches exactly the domains that end in
    [suffix] and are longer than it.  No label boundary is required before the
    suffix: besides [foo.example.com], [*.example.com] matches
    [notexample.com]. *)
Theorem wildcard_match_exact (suffix domain : gostring) :
  match ParsePattern (str "*." ++ suffix) with
  | Ok p => Pattern_Match p domain = true <-> exists k, k <> [] /\ domain = k ++ suffix
  | Err _ => False
  end.
Proof.
  unfold ParsePattern. rewrite HasPrefix_app. cbn [bytes_eqb str].
  assert (bytes_eqb (str "*." ++ suffix) [] = false) as -> by done.
  unfold Pattern_Match; cbn [p_Type p_Raw]. rewrite TrimPrefix_app.
  rewrite andb_true_iff, negb_true_iff, HasSuffix_spec.
  split.
  - intros [[k ->] Hne]. exists k. split; [|done]. intros ->. by rewrite bytes_eqb_refl in Hne.
  - intros (k & Hk & ->). split; [eauto|]. apply bool_decide_eq_false. intros H.
    apply (f_equal length) in H. rewrite length_app in H. destruct k; cbn in H; [done|lia].
Qed.

End pattern.

Arguments Pattern {_}.
Arguments Matcher {_}.
