(* ===== verification/FlatBlocklist.v ===== *)
(** * The compact blocklist (pkg/blocklist/flatlist.go)

    All domains NUL-terminated in one byte slice, a sorted slice of [uint32]
    offsets and a parallel slice of 64-bit source masks. *)

From Stdlib Require Import Ascii.
From S2P Require Import Prelude GoStrings.
From stdpp Require Import options.
Local Open Scope nat_scope.

Definition NUL : ascii := Ascii.zero.

Record FlatBlocklist := MkFlat {
  data : gostring;
  offs : list Z;
  masks : list Z
}.

Definition empty_Flat : FlatBlocklist := MkFlat [] [] [].

(** One iteration of the packing loops of [BuildFlatBlocklist] and
    [BuildFromSortedLists]: [offs], [masks] and [data] grow by one domain. *)
Definition append_domain (f : FlatBlocklist) (k : gostring) (mask : Z) : FlatBlocklist :=
  MkFlat (data f ++ k ++ [NUL]) (offs f ++ [wrapu 32 (Z.of_nat (length (data f)))])
    (masks f ++ [mask]).

(** [BuildFlatBlocklist]: collect the keys, sort them, pack them. *)
Definition BuildFlatBlocklist (m : gmap gostring Z) : FlatBlocklist :=
  if size m =? 0 then empty_Flat
  else
    let keys := sort_Strings (map_to_list m).*1 in
    foldl (fun f k => append_domain f k (default 0%Z (m !! k))) empty_Flat keys.

Record sortedList := MkSortedList { domains : list gostring; sl_mask : Z }.

(** The first inner loop of the merge: the smallest domain under a cursor; the
    empty string stands for "none". *)
Definition minStep (acc : gostring) (lc : sortedList * nat) : gostring :=
  match domains lc.1 !! lc.2 with
  | None => acc
  | Some d => if bytes_eqb acc [] || str_ltb d acc then d else acc
  end.

Definition minDomain (lists : list sortedList) (cursors : list nat) : gostring :=
  foldl minStep [] (zip lists cursors).

(** The second inner loop: the union of the masks of the lists whose cursor is
    on [d], and the cursors advanced past it. *)
Definition collectMask (d : gostring) (lists : list sortedList) (cursors : list nat) : Z :=
  foldl (fun mask lc =>
           match domains lc.1 !! lc.2 with
           | Some d' => if bytes_eqb d' d then Z.lor mask (sl_mask lc.1) else mask
           | None => mask
           end) 0%Z (zip lists cursors).

Definition advance (d : gostring) (lists : list sortedList) (cursors : list nat) : list nat :=
  zip_with (fun l c =>
              match domains l !! c with
              | Some d' => if bytes_eqb d' d then c + 1 else c
              | None => c
              end) lists cursors.

Fixpoint merge_loop (fuel : nat) (lists : list sortedList) (cursors : list nat)
    (f : FlatBlocklist) : FlatBlocklist :=
  match fuel with
  | 0 => f
  | S fuel' =>
      let d := minDomain lists cursors in
      if bytes_eqb d [] then f
      else merge_loop fuel' lists (advance d lists cursors)
             (append_domain f d (collectMask d lists cursors))
  end.

Definition totalDomains (lists : list sortedList) : nat :=
  sum_list_with (fun l => length (domains l)) lists.

Definition totalBytes (lists : list sortedList) : nat :=
  sum_list_with (fun l => sum_list_with (fun d => length d + 1) (domains l)) lists.

(** [BuildFromSortedLists].  Every iteration advances a cursor, so
    [totalDomains] iterations exhaust the lists and one more sees it. *)
Definition BuildFromSortedLists (lists : list sortedList) : FlatBlocklist :=
  if totalDomains lists =? 0 then empty_Flat
  else merge_loop (totalDomains lists + 1) lists (replicate (length lists) 0) empty_Flat.

Definition Len (f : FlatBlocklist) : nat := length (offs f).

(** [domainAt]: the bytes from the offset up to the NUL terminator. *)
Definition offAt (f : FlatBlocklist) (i : nat) : nat := Z.to_nat (default 0%Z (offs f !! i)).

Fixpoint until_NUL (s : gostring) : gostring :=
  match s with
  | [] => []
  | c :: s' => if bool_decide (c = NUL) then [] else c :: until_NUL s'
  end.

Definition domainAt (f : FlatBlocklist) (i : nat) : gostring :=
  until_NUL (drop (offAt f i) (data f)).

(** [cmpDomainAt]'s loop, from position [pos] of the data. *)
Fixpoint cmp_from (d : gostring) (pos : nat) (target : gostring) : Z :=
  match target with
  | [] =>
      match d !! pos with
      | Some c => if bool_decide (c = NUL) then 0 else 1
      | None => 0
      end
  | tb :: target' =>
      match d !! pos with
      | None => -1
      | Some db =>
          if bool_decide (db = NUL) then -1
          else if bool_decide (db = tb) then cmp_from d (pos + 1) target'
          else if (code db <? code tb)%Z then -1 else 1
      end
  end%Z.

Definition cmpDomainAt (f : FlatBlocklist) (i : nat) (target : gostring) : Z :=
  cmp_from (data f) (offAt f i) target.

(** [Lookup]: binary search; [None] for [(0, false)]. *)
Definition Lookup (f : FlatBlocklist) (domain : gostring) : option Z :=
  if length (offs f) =? 0 then None
  else
    let idx := sort_Search (length (offs f)) (fun i => (0 <=? cmpDomainAt f i domain)%Z) in
    if (idx <? length (offs f)) && (cmpDomainAt f idx domain =? 0)%Z
    then Some (default 0%Z (masks f !! idx))
    else None.

Definition Flat_Contains (f : FlatBlocklist) (domain : gostring) : bool :=
  bool_decide (is_Some (Lookup f domain)).

(** [ForEach], as the list of the calls it makes. *)
Definition ForEach (f : FlatBlocklist) : list (gostring * Z) :=
  (fun i => (domainAt f i, default 0%Z (masks f !! i))) <$> seq 0 (length (offs f)).

Definition MemoryUsage (f : FlatBlocklist) : nat :=
  length (data f) + length (offs f) * 4 + length (masks f) * 8.

Inductive MatchKind := KindExact | KindSubdomain.

(** The parent walk of [LookupSubdomains]; a step drops the first label, so the
    length of the name bounds the number of steps. *)
Fixpoint walk_parents (fuel : nat) (f : FlatBlocklist) (parent : gostring)
    : option (Z * MatchKind) :=
  match fuel with
  | 0 => None
  | S fuel' =>
      match Index parent [dot] with
      | None => None
      | Some idx =>
          if length parent <=? idx + 1 then None
          else
            let parent' := drop (idx + 1) parent in
            if bytes_eqb parent' [dot] || bytes_eqb parent' [] then None
            else match Lookup f parent' with
                 | Some mask => Some (mask, KindSubdomain)
                 | None => walk_parents fuel' f parent'
                 end
      end
  end.

Definition LookupSubdomains (f : FlatBlocklist) (fqdn : gostring) : option (Z * MatchKind) :=
  if length (offs f) =? 0 then None
  else match Lookup f fqdn with
       | Some mask => Some (mask, KindExact)
       | None => walk_parents (length fqdn) f fqdn
       end.

(** ** The packed layout *)

(** What the packing loops build from the sequence of (domain, mask) pairs. *)
Definition pack (kms : list (gostring * Z)) : FlatBlocklist :=
  foldl (fun f km => append_domain f km.1 km.2) empty_Flat kms.

Definition packed_data (kms : list (gostring * Z)) : gostring :=
  concat ((fun km => km.1 ++ [NUL]) <$> kms).

Arguments packed_data : simpl never.

(** The well-formed contents: strictly sorted, NUL-free, and within the reach
    of the 32-bit offsets. *)
Record flat_ok (kms : list (gostring * Z)) : Prop := {
  fo_sorted : StronglySorted str_lt kms.*1;
  fo_nonul : Forall (fun k => NUL ∉ k) kms.*1;
  fo_size : (Z.of_nat (length (packed_data kms)) < 2 ^ 32)%Z
}.

Lemma packed_data_app a b : packed_data (a ++ b) = packed_data a ++ packed_data b.
Proof. unfold packed_data. by rewrite fmap_app, concat_app. Qed.

Lemma packed_data_cons km b : packed_data (km :: b) = km.1 ++ NUL :: packed_data b.
Proof. unfold packed_data. cbn. by rewrite <- app_assoc. Qed.

Lemma pack_snoc kms km : pack (kms ++ [km]) = append_domain (pack kms) km.1 km.2.
Proof. unfold pack. by rewrite foldl_app. Qed.

Lemma pack_data kms : data (pack kms) = packed_data kms.
Proof.
  induction kms as [|km kms IH] using rev_ind; [done|].
  rewrite pack_snoc, packed_data_app, packed_data_cons. cbn. by rewrite IH.
Qed.

Lemma pack_masks kms : masks (pack kms) = kms.*2.
Proof.
  induction kms as [|km kms IH] using rev_ind; [done|].
  rewrite pack_snoc, fmap_app. cbn. by rewrite IH.
Qed.

Lemma pack_offs kms :
  offs (pack kms) =
  (fun i => wrapu 32 (Z.of_nat (length (packed_data (take i kms))))) <$> seq 0 (length kms).
Proof.
  induction kms as [|km kms IH] using rev_ind; [done|].
  rewrite pack_snoc, length_app, seq_app, fmap_app. cbn. rewrite IH, pack_data. f_equal.
  - apply list_fmap_ext. intros i x [-> Hi]%lookup_seq. by rewrite take_app_le by lia.
  - by rewrite take_app_length.
Qed.

Lemma pack_Len kms : length (offs (pack kms)) = length kms.
Proof. by rewrite pack_offs, length_fmap, length_seq. Qed.

Lemma pack_offAt kms i km :
  (Z.of_nat (length (packed_data kms)) < 2 ^ 32)%Z -> kms !! i = Some km ->
  offAt (pack kms) i = length (packed_data (take i kms)).
Proof.
  intros Hsz Hi. unfold offAt. rewrite pack_offs, list_lookup_fmap.
  rewrite (lookup_seq_lt 0 (length kms) i) by eauto using lookup_lt_Some. cbn.
  rewrite wrapu_small; [apply Nat2Z.id|]. split; [lia|].
  rewrite <- (take_drop i kms), packed_data_app, length_app in Hsz. lia.
Qed.

Lemma packed_at kms i km :
  kms !! i = Some km ->
  packed_data kms =
  packed_data (take i kms) ++ km.1 ++ NUL :: packed_data (drop (S i) kms).
Proof.
  intros Hi. rewrite <- (take_drop_middle kms i km Hi) at 1.
  by rewrite packed_data_app, packed_data_cons.
Qed.

Definition cmp_sgn (c : comparison) : Z :=
  match c with Lt => -1 | Eq => 0 | Gt => 1 end%Z.

Lemma cmp_from_spec pre k rest t :
  NUL ∉ k -> cmp_from (pre ++ k ++ NUL :: rest) (length pre) t = cmp_sgn (str_cmp k t).
Proof.
  revert pre k. induction t as [|tb t IH]; intros pre k Hk; cbn [cmp_from];
    rewrite lookup_app_r, Nat.sub_diag by lia; destruct k as [|x k]; cbn.
  - done.
  - apply not_elem_of_cons in Hk as [Hx _]. by rewrite bool_decide_eq_false_2 by done.
  - done.
  - apply not_elem_of_cons in Hk as [Hx Hk]. rewrite bool_decide_eq_false_2 by done.
    case_bool_decide as Hxb; [subst tb|].
    + rewrite Z.compare_refl. specialize (IH (pre ++ [x]) k Hk).
      rewrite length_app, <- app_assoc in IH. exact IH.
    + destruct (Z.compare_spec (code x) (code tb)) as [E%code_inj|E|E]; [done| |].
      * by rewrite (proj2 (Z.ltb_lt _ _) E).
      * rewrite (proj2 (Z.ltb_ge _ _)) by lia. done.
Qed.

Lemma pack_cmp kms i km t :
  flat_ok kms -> kms !! i = Some km ->
  cmpDomainAt (pack kms) i t = cmp_sgn (str_cmp km.1 t).
Proof.
  intros [_ Hn Hsz] Hi. unfold cmpDomainAt.
  rewrite (pack_offAt _ _ _ Hsz Hi), pack_data, (packed_at _ _ _ Hi).
  apply cmp_from_spec. rewrite Forall_fmap, Forall_lookup in Hn. apply (Hn i km Hi).
Qed.

Lemma until_NUL_app k r : NUL ∉ k -> until_NUL (k ++ NUL :: r) = k.
Proof.
  induction k as [|x k IH]; intros Hk; cbn; [done|].
  apply not_elem_of_cons in Hk as [Hx Hk].
  rewrite bool_decide_eq_false_2 by done. f_equal. auto.
Qed.

Lemma pack_domainAt kms i km :
  flat_ok kms -> kms !! i = Some km -> domainAt (pack kms) i = km.1.
Proof.
  intros [_ Hn Hsz] Hi. unfold domainAt.
  rewrite (pack_offAt _ _ _ Hsz Hi), pack_data, (packed_at _ _ _ Hi), drop_app_length.
  apply until_NUL_app. rewrite Forall_fmap, Forall_lookup in Hn. apply (Hn i km Hi).
Qed.

(** Keys of a strictly sorted list, by position. *)
Lemma sorted_key_lt (kms : list (gostring * Z)) i j a b :
  StronglySorted str_lt kms.*1 -> i < j -> kms !! i = Some a -> kms !! j = Some b ->
  str_lt a.1 b.1.
Proof.
  revert i j. induction kms as [|km kms IH]; intros i j Hs Hij Hi Hj; [done|].
  cbn in Hs. apply StronglySorted_inv in Hs as [Hs Hf].
  destruct j as [|j]; [lia|]. destruct i as [|i]; cbn in *.
  - simplify_eq. rewrite Forall_fmap, Forall_lookup in Hf. apply (Hf j b Hj).
  - apply (IH i j); auto with lia.
Qed.

Lemma flat_ok_NoDup kms : flat_ok kms -> NoDup kms.*1.
Proof. intros [Hs _ _]. by apply sorted_lt_NoDup. Qed.

(** Binary search over the packed layout is association-list lookup. *)
Lemma Lookup_pack kms d :
  flat_ok kms -> Lookup (pack kms) d = (list_to_map kms : gmap gostring Z) !! d.
Proof.
  intros Hok. pose proof (flat_ok_NoDup _ Hok) as Hnd. unfold Lookup. rewrite pack_Len.
  destruct (Nat.eqb_spec (length kms) 0) as [->%nil_length_inv|Hlen].
  { symmetry; apply lookup_empty. }
  pose proof (sort_Search_spec (length kms) (fun i => 0 <=? cmpDomainAt (pack kms) i d)%Z) as Hsearch.
  cbn zeta in Hsearch. destruct Hsearch as (Hk & Hlo & Hhi).
  { intros a b Hab. destruct (lookup_lt_is_Some_2 kms a) as [ka Ha]; [lia|].
    destruct (lookup_lt_is_Some_2 kms b) as [kb Hb]; [lia|].
    rewrite (pack_cmp _ _ _ _ Hok Ha), (pack_cmp _ _ _ _ Hok Hb).
    destruct (decide (a = b)) as [->|]; [by simplify_eq|].
    assert (str_lt ka.1 kb.1) as Hlt
      by (apply (sorted_key_lt kms a b); auto using fo_sorted with lia).
    intros H. destruct (str_cmp kb.1 d) eqn:E; [done| |done].
    pose proof (str_cmp_lt_trans _ _ _ Hlt E) as E'. by rewrite E' in H. }
  set (k := sort_Search (length kms) _) in *.
  destruct (Nat.ltb_spec k (length kms)) as [Hlt|Hge]; cbn [andb].
  - destruct (lookup_lt_is_Some_2 kms k Hlt) as [km Hkm].
    rewrite (pack_cmp _ _ _ _ Hok Hkm), pack_masks, list_lookup_fmap, Hkm. cbn.
    destruct (str_cmp km.1 d) eqn:E; cbn.
    + apply str_cmp_eq in E as <-. symmetry. apply elem_of_list_to_map; [done|].
      apply list_elem_of_lookup. exists k. by destruct km.
    + specialize (Hhi k ltac:(lia)). by rewrite (pack_cmp _ _ _ _ Hok Hkm), E in Hhi.
    + symmetry. apply not_elem_of_list_to_map. intros Hin.
      apply list_elem_of_fmap in Hin as (km' & -> & [j Hj]%list_elem_of_lookup).
      destruct (Nat.lt_trichotomy j k) as [Hjk|[->|Hjk]].
      * specialize (Hlo j Hjk). by rewrite (pack_cmp _ _ _ _ Hok Hj), str_cmp_refl in Hlo.
      * simplify_eq. by rewrite str_cmp_refl in E.
      * pose proof (sorted_key_lt kms k j _ _ (fo_sorted _ Hok) Hjk Hkm Hj) as Hl.
        unfold str_lt in Hl. congruence.
  - symmetry. apply not_elem_of_list_to_map. intros Hin.
    apply list_elem_of_fmap in Hin as (km' & -> & [j Hj]%list_elem_of_lookup).
    pose proof (lookup_lt_Some _ _ _ Hj).
    specialize (Hlo j ltac:(lia)). by rewrite (pack_cmp _ _ _ _ Hok Hj), str_cmp_refl in Hlo.
Qed.

Lemma ForEach_pack kms : flat_ok kms -> ForEach (pack kms) = kms.
Proof.
  intros Hok. unfold ForEach. rewrite pack_Len. apply list_eq. intros i.
  rewrite list_lookup_fmap. destruct (kms !! i) as [km|] eqn:Hi.
  - rewrite lookup_seq_lt by eauto using lookup_lt_Some. cbn.
    rewrite (pack_domainAt _ _ _ Hok Hi), pack_masks, list_lookup_fmap, Hi. by destruct km.
  - rewrite lookup_seq_ge by (by apply lookup_ge_None). done.
Qed.

(** ** [BuildFlatBlocklist] *)

Definition map_kms (m : gmap gostring Z) : list (gostring * Z) :=
  (fun k => (k, default 0%Z (m !! k))) <$> sort_Strings (map_to_list m).*1.

Definition map_bytes (m : gmap gostring Z) : nat :=
  sum_list_with (fun k => length k + 1) (map_to_list m).*1.

Lemma BuildFlatBlocklist_pack m : BuildFlatBlocklist m = pack (map_kms m).
Proof.
  unfold BuildFlatBlocklist, pack, map_kms.
  destruct (Nat.eqb_spec (size m) 0) as [Hm|Hm].
  - apply map_size_empty_inv in Hm as ->. by rewrite map_to_list_empty.
  - by rewrite foldl_fmap.
Qed.

Lemma map_kms_fst m : (map_kms m).*1 = sort_Strings (map_to_list m).*1.
Proof. unfold map_kms. rewrite <- list_fmap_compose. apply list_fmap_id. Qed.

Lemma map_kms_sorted m : StronglySorted str_lt (map_kms m).*1.
Proof.
  rewrite map_kms_fst. apply NoDup_sorted_lt, sort_Strings_sorted.
  rewrite sort_Strings_perm. apply NoDup_fst_map_to_list.
Qed.

Lemma elem_of_map_kms m k v : (k, v) ∈ map_kms m <-> m !! k = Some v.
Proof.
  unfold map_kms. rewrite list_elem_of_fmap. split.
  - intros (k' & [= -> ->] & Hk). rewrite sort_Strings_perm in Hk.
    apply list_elem_of_fmap in Hk as ([k'' v'] & -> & H). cbn.
    apply elem_of_map_to_list in H. by rewrite H.
  - intros H. exists k. rewrite H. split; [done|]. rewrite sort_Strings_perm.
    apply list_elem_of_fmap. exists (k, v). by rewrite elem_of_map_to_list.
Qed.

Lemma packed_data_length kms :
  length (packed_data kms) = sum_list_with (fun k => length k + 1) kms.*1.
Proof.
  induction kms as [|km kms IH]; [done|].
  rewrite packed_data_cons, length_app. cbn. rewrite IH. lia.
Qed.

Lemma sum_list_with_perm {A} (f : A -> nat) l1 l2 :
  l1 ≡ₚ l2 -> sum_list_with f l1 = sum_list_with f l2.
Proof. induction 1; cbn; lia. Qed.

Lemma map_kms_bytes m : length (packed_data (map_kms m)) = map_bytes m.
Proof.
  rewrite packed_data_length, map_kms_fst. apply sum_list_with_perm, sort_Strings_perm.
Qed.

Lemma map_kms_ok m :
  (forall k, is_Some (m !! k) -> NUL ∉ k) -> (Z.of_nat (map_bytes m) < 2 ^ 32)%Z ->
  flat_ok (map_kms m).
Proof.
  intros Hn Hsz. split; [apply map_kms_sorted| |by rewrite map_kms_bytes].
  rewrite Forall_forall. intros k Hk. apply list_elem_of_fmap in Hk as ([k' v] & -> & H).
  apply elem_of_map_kms in H. eauto.
Qed.

Lemma list_to_map_kms m : (list_to_map (map_kms m) : gmap gostring Z) = m.
Proof.
  apply map_eq. intros k.
  assert (NoDup (map_kms m).*1) as Hnd by (apply sorted_lt_NoDup, map_kms_sorted).
  destruct (m !! k) as [v|] eqn:E.
  - apply elem_of_list_to_map; [done|]. by apply elem_of_map_kms.
  - apply not_elem_of_list_to_map. intros ([k' v] & -> & H)%list_elem_of_fmap.
    apply elem_of_map_kms in H. cbn in E; congruence.
Qed.

Lemma Lookup_BuildFlat m d :
  (forall k, is_Some (m !! k) -> NUL ∉ k) -> (Z.of_nat (map_bytes m) < 2 ^ 32)%Z ->
  Lookup (BuildFlatBlocklist m) d = m !! d.
Proof.
  intros Hn Hs. rewrite BuildFlatBlocklist_pack.
  rewrite Lookup_pack by (by apply map_kms_ok). by rewrite list_to_map_kms.
Qed.

(** C13: a blocklist built from a map answers every lookup as the map does: the
    packed bytes, the 32-bit offsets and the binary search lose nothing and
    invent nothing, and [ForEach] enumerates the map in sorted order.  The
    domains must be free of NUL, and the packed bytes below 4 GiB. *)
Theorem flat_build_lookup (m : gmap gostring Z)
    (Hnul : forall k, is_Some (m !! k) -> NUL ∉ k)
    (Hsize : (Z.of_nat (map_bytes m) < 2 ^ 32)%Z) :
  (forall d, Lookup (BuildFlatBlocklist m) d = m !! d) /\
  list_to_map (ForEach (BuildFlatBlocklist m)) = m /\
  StronglySorted str_lt (ForEach (BuildFlatBlocklist m)).*1.
Proof.
  pose proof (map_kms_ok m Hnul Hsize) as Hok. rewrite BuildFlatBlocklist_pack.
  rewrite (ForEach_pack _ Hok). split; [|split].
  - intros d. rewrite <- BuildFlatBlocklist_pack. by apply Lookup_BuildFlat.
  - apply list_to_map_kms.
  - apply map_kms_sorted.
Qed.

(** ** The k-way merge *)

(** What is left of each list: its domains from the cursor on. *)
Definition rems (lists : list sortedList) (cursors : list nat) : list (list gostring * Z) :=
  zip_with (fun l c => (drop c (domains l), sl_mask l)) lists cursors.

Definition pick (acc : gostring) (r : list gostring * Z) : gostring :=
  match head r.1 with
  | None => acc
  | Some d => if bytes_eqb acc [] || str_ltb d acc then d else acc
  end.

Definition rmin (rs : list (list gostring * Z)) : gostring := foldl pick [] rs.

Definition rcollect (d : gostring) (rs : list (list gostring * Z)) : Z :=
  foldl (fun mask r =>
           match head r.1 with
           | Some d' => if bytes_eqb d' d then Z.lor mask r.2 else mask
           | None => mask
           end) 0%Z rs.

Definition radvance1 (d : gostring) (r : list gostring * Z) : list gostring * Z :=
  match r.1 with
  | d' :: l => if bytes_eqb d' d then (l, r.2) else r
  | [] => r
  end.

Fixpoint rmerge (fuel : nat) (rs : list (list gostring * Z)) : list (gostring * Z) :=
  match fuel with
  | 0 => []
  | S fuel' =>
      let d := rmin rs in
      if bytes_eqb d [] then []
      else (d, rcollect d rs) :: rmerge fuel' (radvance1 d <$> rs)
  end.

Lemma head_drop {A} (l : list A) c : head (drop c l) = l !! c.
Proof. revert c. induction l as [|x l IH]; intros [|c]; cbn; auto. Qed.

Lemma minDomain_rems lists cursors : minDomain lists cursors = rmin (rems lists cursors).
Proof.
  unfold minDomain, rmin, rems. generalize ([] : gostring) as acc. revert cursors.
  induction lists as [|l lists IH]; intros [|c cursors] acc; cbn; [done..|].
  rewrite <- IH. unfold pick. cbn. by rewrite head_drop.
Qed.

Lemma collectMask_rems d lists cursors :
  collectMask d lists cursors = rcollect d (rems lists cursors).
Proof.
  unfold collectMask, rcollect, rems. generalize 0%Z as acc. revert cursors.
  induction lists as [|l lists IH]; intros [|c cursors] acc; cbn; [done..|].
  rewrite <- IH, head_drop. done.
Qed.

Lemma advance_rems d lists cursors :
  rems lists (advance d lists cursors) = radvance1 d <$> rems lists cursors.
Proof.
  unfold rems, advance. revert cursors.
  induction lists as [|l lists IH]; intros [|c cursors]; cbn; [done..|].
  rewrite IH. f_equal. unfold radvance1. cbn.
  destruct (domains l !! c) as [d'|] eqn:E.
  - rewrite (drop_S _ _ _ E). destruct (bytes_eqb d' d); [by rewrite Nat.add_1_r|].
    by rewrite (drop_S _ _ _ E).
  - apply lookup_ge_None in E. by rewrite drop_ge.
Qed.

Lemma merge_loop_rmerge fuel lists cursors out :
  merge_loop fuel lists cursors (pack out) = pack (out ++ rmerge fuel (rems lists cursors)).
Proof.
  revert cursors out. induction fuel as [|fuel IH]; intros cursors out; cbn.
  { by rewrite app_nil_r. }
  rewrite minDomain_rems. destruct (bytes_eqb _ []); [by rewrite app_nil_r|].
  rewrite collectMask_rems. pose proof (pack_snoc out (rmin (rems lists cursors),
    rcollect (rmin (rems lists cursors)) (rems lists cursors))) as Hs. cbn in Hs.
  rewrite <- Hs, IH, advance_rems, <- app_assoc. done.
Qed.

(** Each list is strictly sorted and holds no empty name. *)
Definition rem_ok (r : list gostring * Z) : Prop :=
  StronglySorted str_lt r.1 /\ Forall (fun d => d <> []) r.1.

Definition list_ok (l : sortedList) : Prop :=
  StronglySorted str_lt (domains l) /\ Forall (fun d => d <> []) (domains l).

(** The reference: the union of the masks of the lists that contain [d]. *)
Definition mask_of (d : gostring) (rs : list (list gostring * Z)) : option Z :=
  foldr (fun r acc => if bool_decide (d ∈ r.1) then Some (Z.lor (default 0%Z acc) r.2) else acc)
    None rs.

Lemma mask_of_cons d r rs :
  mask_of d (r :: rs) =
  if bool_decide (d ∈ r.1) then Some (Z.lor (default 0%Z (mask_of d rs)) r.2) else mask_of d rs.
Proof. done. Qed.
Arguments mask_of : simpl never.

Definition total_rem (rs : list (list gostring * Z)) : nat :=
  sum_list_with (fun r => length r.1) rs.

Lemma pick_spec acc r :
  rem_ok r ->
  (pick acc r = acc \/ head r.1 = Some (pick acc r)) /\
  (acc <> [] -> pick acc r <> [] /\ str_le (pick acc r) acc) /\
  (forall d, head r.1 = Some d -> pick acc r <> [] /\ str_le (pick acc r) d).
Proof.
  intros [_ Hne]. unfold pick. destruct (head r.1) as [d|] eqn:E.
  2: { split; [auto|split; [|done]]. intros. split; [done|]. apply str_le_lt_eq. auto. }
  assert (d <> []) as Hd.
  { destruct (r.1) as [|x l]; [done|]. cbn in E. simplify_eq. by apply Forall_cons in Hne as [? _]. }
  assert (str_le d d) by (apply str_le_lt_eq; auto).
  destruct (bytes_eqb acc [] || str_ltb d acc) eqn:Ea.
  - split; [auto|split]; [|intros ? [= <-]; auto]. intros Hacc. split; [done|].
    apply orb_true_iff in Ea as [Ea%bytes_eqb_eq|Ea]; [done|].
    apply str_ltb_spec in Ea. apply str_le_lt_eq. auto.
  - apply orb_false_iff in Ea as [E1 E2]. apply bool_decide_eq_false in E1.
    split; [auto|split]; [intros; split; [done|apply str_le_lt_eq; auto]|].
    intros ? [= <-]. split; [done|]. unfold str_ltb, str_le in *.
    rewrite (str_cmp_antisym d acc). by destruct (str_cmp d acc).
Qed.

Lemma foldl_pick_spec rs acc :
  Forall rem_ok rs ->
  (foldl pick acc rs = acc \/ exists r, r ∈ rs /\ head r.1 = Some (foldl pick acc rs)) /\
  (acc <> [] -> foldl pick acc rs <> [] /\ str_le (foldl pick acc rs) acc) /\
  (forall r d, r ∈ rs -> head r.1 = Some d ->
    foldl pick acc rs <> [] /\ str_le (foldl pick acc rs) d).
Proof.
  revert acc. induction rs as [|r rs IH]; intros acc Hok; cbn.
  { split; [auto|split].
    - intros; split; [done|apply str_le_lt_eq; auto].
    - intros r d H. by apply not_elem_of_nil in H. }
  apply Forall_cons in Hok as [Hr Hok].
  destruct (pick_spec acc r Hr) as (P1 & P2 & P3).
  destruct (IH (pick acc r) Hok) as (I1 & I2 & I3). split; [|split].
  - destruct I1 as [I1|(r' & Hin & I1)]; [|right; exists r'; split; [by right|done]].
    destruct P1 as [P1|P1]; [left; congruence|].
    right. exists r. split; [left|congruence].
  - intros Ha. destruct (P2 Ha) as [Hp Hle]. destruct (I2 Hp) as [? ?].
    split; [done|]. by etrans.
  - intros r' d [->|Hin]%elem_of_cons Hd; [|by eapply I3].
    destruct (P3 d Hd) as [Hp Hle]. destruct (I2 Hp) as [? ?]. split; [done|]. by etrans.
Qed.

Lemma rmin_nil rs : Forall rem_ok rs -> rmin rs = [] -> forall r, r ∈ rs -> r.1 = [].
Proof.
  intros Hok Hm r Hr. destruct (foldl_pick_spec rs [] Hok) as (_ & _ & H).
  destruct (r.1) as [|d l] eqn:E; [done|].
  destruct (H r d Hr) as [H' _]; [by rewrite E|]. done.
Qed.

Lemma rmin_le rs r d : Forall rem_ok rs -> r ∈ rs -> d ∈ r.1 -> str_le (rmin rs) d.
Proof.
  intros Hok Hr Hd. destruct (foldl_pick_spec rs [] Hok) as (_ & _ & H).
  rewrite Forall_forall in Hok. destruct (Hok r Hr) as [Hs _].
  destruct (r.1) as [|x l] eqn:E; [by apply not_elem_of_nil in Hd|].
  destruct (H r x Hr) as [_ H']; [by rewrite E|].
  apply elem_of_cons in Hd as [->|Hd]; [done|].
  apply StronglySorted_inv in Hs as [_ Hf]. rewrite Forall_forall in Hf.
  etrans; [done|]. apply str_le_lt_eq. auto.
Qed.

(** A list holds the minimum only at its head. *)
Lemma head_iff_elem rs r :
  Forall rem_ok rs -> r ∈ rs -> (rmin rs ∈ r.1 <-> head r.1 = Some (rmin rs)).
Proof.
  intros Hok Hr. split.
  - intros Hd. destruct (r.1) as [|x l] eqn:E; [by apply not_elem_of_nil in Hd|]. cbn. f_equal.
    apply (anti_symm str_le); [|apply (rmin_le rs r); [done|done|rewrite E; left]].
    apply elem_of_cons in Hd as [->|Hd]; [apply str_le_lt_eq; auto|].
    rewrite Forall_forall in Hok. destruct (Hok r Hr) as [Hs _]. rewrite E in Hs.
    apply StronglySorted_inv in Hs as [_ Hf]. rewrite Forall_forall in Hf.
    apply str_le_lt_eq. auto.
  - destruct (r.1) as [|x l]; [done|]. cbn. intros [= ->]. left.
Qed.

Lemma rmin_elem rs : rmin rs <> [] -> Forall rem_ok rs -> exists r, r ∈ rs /\ rmin rs ∈ r.1.
Proof.
  intros Hne Hok. destruct (foldl_pick_spec rs [] Hok) as ([H|(r & Hr & H)] & _); [done|].
  exists r. split; [done|]. by apply head_iff_elem.
Qed.

Lemma radvance1_ok d r : rem_ok r -> rem_ok (radvance1 d r).
Proof.
  intros [Hs Hn]. unfold radvance1. destruct r as [[|x l] mk]; cbn in *; [done|].
  destruct (bytes_eqb x d); [|done].
  apply StronglySorted_inv in Hs as [Hs _]. apply Forall_cons in Hn as [_ Hn]. done.
Qed.

Lemma radvance_ok d rs : Forall rem_ok rs -> Forall rem_ok (radvance1 d <$> rs).
Proof.
  rewrite Forall_fmap. intros H. eapply Forall_impl; [done|]. intros r. apply radvance1_ok.
Qed.

(** Advancing past the minimum removes it from every list, and nothing else. *)
Lemma elem_radvance1 rs r e :
  Forall rem_ok rs -> r ∈ rs -> (e ∈ (radvance1 (rmin rs) r).1 <-> e ∈ r.1 /\ e <> rmin rs).
Proof.
  intros Hok Hr. pose proof (head_iff_elem rs r Hok Hr) as Hh.
  rewrite Forall_forall in Hok. destruct (Hok r Hr) as [Hs _].
  unfold radvance1. destruct r as [[|x l] mk]; cbn in *.
  { rewrite elem_of_nil. tauto. }
  destruct (bytes_eqb x (rmin rs)) eqn:E; cbn.
  - apply bytes_eqb_eq in E. rewrite <- E, elem_of_cons.
    apply sorted_lt_NoDup, NoDup_cons in Hs as [Hs _].
    split; [intros He; split; [by right|intros ->; done]|]. intros [[?|?] ?]; done.
  - apply bool_decide_eq_false in E. split; [|tauto]. intros He. split; [done|].
    intros ->. apply Hh in He. simplify_eq.
Qed.

Lemma sum_list_with_lt {A} (f g : A -> nat) l x :
  (forall y, y ∈ l -> g y <= f y) -> x ∈ l -> g x < f x ->
  sum_list_with g l < sum_list_with f l.
Proof.
  induction l as [|y l IH]; intros Hle Hx Hlt; [by apply not_elem_of_nil in Hx|]. cbn.
  pose proof (Hle y ltac:(left)).
  assert (sum_list_with g l <= sum_list_with f l).
  { clear -Hle. induction l as [|z l IH]; cbn; [lia|].
    pose proof (Hle z ltac:(right; left)). enough (sum_list_with g l <= sum_list_with f l) by lia.
    apply IH. intros w Hw. apply Hle. apply elem_of_cons in Hw as [->|Hw]; [left|right; by right]. }
  apply elem_of_cons in Hx as [<-|Hx]; [lia|].
  specialize (IH (fun y Hy => Hle y ltac:(by right)) Hx Hlt). lia.
Qed.

Lemma sum_list_with_fmap {A B} (f : B -> nat) (g : A -> B) l :
  sum_list_with f (g <$> l) = sum_list_with (fun x => f (g x)) l.
Proof. induction l; cbn; auto. Qed.

Lemma radvance1_length d r : length (radvance1 d r).1 <= length r.1.
Proof. unfold radvance1. destruct r as [[|x l] mk]; cbn; [lia|]. destruct (bytes_eqb x d); cbn; lia. Qed.

Lemma radvance_total rs :
  Forall rem_ok rs -> rmin rs <> [] -> total_rem (radvance1 (rmin rs) <$> rs) < total_rem rs.
Proof.
  intros Hok Hne. destruct (rmin_elem rs Hne Hok) as (r & Hr & He).
  unfold total_rem. rewrite sum_list_with_fmap.
  apply (sum_list_with_lt _ _ _ r); [intros; apply radvance1_length|done|].
  apply head_iff_elem in He; [|done..]. unfold radvance1.
  destruct r as [[|x l] mk]; cbn in *; [done|]. simplify_eq. rewrite bytes_eqb_refl. cbn. lia.
Qed.

Lemma mask_of_Some d rs : is_Some (mask_of d rs) <-> exists r, r ∈ rs /\ d ∈ r.1.
Proof.
  induction rs as [|r rs IH]; rewrite ?mask_of_cons.
  - split; [by intros [? ?]|]. intros (r & H & _). by apply not_elem_of_nil in H.
  - case_bool_decide as Hd.
    + split; [|eauto]. intros _. exists r. split; [left|done].
    + rewrite IH. split; intros (r' & Hr & He); exists r'; (split; [|done]); [by right|].
      by apply elem_of_cons in Hr as [->|Hr].
Qed.

(** The head-based union of masks is the union over all lists holding [d]. *)
Lemma rcollect_mask_of rs d :
  (forall r, r ∈ rs -> (d ∈ r.1 <-> head r.1 = Some d)) ->
  (exists r, r ∈ rs /\ d ∈ r.1) -> mask_of d rs = Some (rcollect d rs).
Proof.
  intros Hh Hex. unfold rcollect.
  assert (forall acc, foldl (fun mask r => match head r.1 with
            | Some d' => if bytes_eqb d' d then Z.lor mask r.2 else mask
            | None => mask end) acc rs = Z.lor acc (default 0%Z (mask_of d rs))) as Hf.
  { clear Hex. induction rs as [|r rs IH]; intros acc; rewrite ?mask_of_cons; cbn;
      [by rewrite Z.lor_0_r|].
    rewrite IH by (intros r' Hr'; apply Hh; by right). pose proof (Hh r ltac:(left)) as Hr.
    case_bool_decide as Hd.
    - apply Hr in Hd as ->. rewrite bytes_eqb_refl. cbn.
      by rewrite <- Z.lor_assoc, (Z.lor_comm r.2).
    - destruct (head r.1) as [d'|]; [|done].
      unfold bytes_eqb. case_bool_decide; [|done]. subst. tauto. }
  rewrite Hf, Z.lor_0_l. apply mask_of_Some in Hex as [mk ->]. done.
Qed.

Lemma mask_of_radvance rs e :
  Forall rem_ok rs ->
  mask_of e (radvance1 (rmin rs) <$> rs) = if bool_decide (e = rmin rs) then None else mask_of e rs.
Proof.
  intros Hok.
  assert (forall rs', rs' ⊆ rs -> mask_of e (radvance1 (rmin rs) <$> rs') =
    if bool_decide (e = rmin rs) then None else mask_of e rs') as H; [|by apply H].
  induction rs' as [|r rs' IH]; intros Hsub; rewrite ?fmap_cons, ?mask_of_cons.
  { by case_bool_decide. }
  rewrite IH by set_solver.
  pose proof (elem_radvance1 rs r e Hok ltac:(set_solver)) as He.
  rewrite (bool_decide_ext _ _ He).
  replace (radvance1 (rmin rs) r).2 with r.2
    by (unfold radvance1; destruct r as [[|x l] mk]; cbn; [done|]; by destruct (bytes_eqb x _)).
  repeat case_bool_decide; try tauto; done.
Qed.

(** The merge lists the union of the inputs, strictly sorted, each domain with
    the union of its masks, whenever the fuel exceeds what is left. *)
Lemma rmerge_spec fuel rs :
  Forall rem_ok rs -> total_rem rs < fuel ->
  StronglySorted str_lt (rmerge fuel rs).*1 /\
  (forall d mk, (d, mk) ∈ rmerge fuel rs <-> mask_of d rs = Some mk).
Proof.
  revert rs. induction fuel as [|fuel IH]; intros rs Hok Hf; [lia|]. cbn [rmerge].
  destruct (bytes_eqb (rmin rs) []) eqn:E.
  - apply bytes_eqb_eq in E. split; [constructor|]. intros d mk. rewrite elem_of_nil.
    split; [done|]. intros H. destruct (proj1 (mask_of_Some d rs)) as (r & Hr & Hd); [eauto|].
    rewrite (rmin_nil rs Hok E r Hr) in Hd. by apply not_elem_of_nil in Hd.
  - apply bool_decide_eq_false in E.
    pose proof (radvance_total rs Hok E) as Ht.
    destruct (IH (radvance1 (rmin rs) <$> rs)) as [Hs Hm]; [by apply radvance_ok|lia|].
    pose proof (rcollect_mask_of rs (rmin rs) (fun r Hr => head_iff_elem rs r Hok Hr)
      (rmin_elem rs E Hok)) as Hmin.
    split.
    + cbn. constructor; [done|]. rewrite Forall_fmap, Forall_forall. intros [d mk] Hd. cbn.
      apply Hm in Hd. rewrite mask_of_radvance in Hd by done. case_bool_decide; [done|].
      destruct (proj1 (mask_of_Some d rs)) as (r & Hr & He); [eauto|].
      pose proof (rmin_le rs r d Hok Hr He) as Hle. apply str_le_lt_eq in Hle as [?|?]; [done|].
      by subst.
    + intros d mk. rewrite elem_of_cons, Hm, mask_of_radvance by done. case_bool_decide as Hd.
      * subst. rewrite Hmin. split; [intros [?|?]; simplify_eq; done|]. intros [= ->]. auto.
      * split; [intros [?|?]; simplify_eq; done|auto].
Qed.

(** The reference for the merge: the map the sources would be collected into,
    each domain under the union of its sources' masks. *)
Definition add_source (l : sortedList) (m : gmap gostring Z) : gmap gostring Z :=
  foldr (fun d m => <[d := Z.lor (default 0%Z (m !! d)) (sl_mask l)]> m) m (domains l).

Definition merge_map (lists : list sortedList) : gmap gostring Z := foldr add_source ∅ lists.

Lemma add_source_lookup l m d :
  add_source l m !! d =
  if bool_decide (d ∈ domains l) then Some (Z.lor (default 0%Z (m !! d)) (sl_mask l)) else m !! d.
Proof.
  unfold add_source. induction (domains l) as [|x ds IH]; cbn; [done|].
  destruct (decide (x = d)) as [->|Hne].
  - rewrite lookup_insert_eq, bool_decide_eq_true_2 by left. rewrite IH.
    case_bool_decide; [|done]. cbn. by rewrite <- Z.lor_assoc, Z.lor_diag.
  - rewrite lookup_insert_ne by done. rewrite IH.
    apply (f_equal (fun b : bool => if b then _ else _)), bool_decide_ext.
    rewrite elem_of_cons. intuition congruence.
Qed.

Definition source_pairs (lists : list sortedList) : list (list gostring * Z) :=
  (fun l => (domains l, sl_mask l)) <$> lists.

Lemma rems_zero lists :
  rems lists (replicate (length lists) 0) = source_pairs lists.
Proof. unfold rems, source_pairs. induction lists as [|l lists IH]; cbn; [done|]. by f_equal. Qed.

Lemma merge_map_lookup lists d :
  merge_map lists !! d = mask_of d (source_pairs lists).
Proof.
  induction lists as [|l lists IH]; [apply lookup_empty|].
  unfold source_pairs. rewrite fmap_cons, mask_of_cons.
  change (merge_map (l :: lists)) with (add_source l (merge_map lists)).
  by rewrite add_source_lookup, IH.
Qed.

Lemma sorted_kms_unique (a b : list (gostring * Z)) :
  StronglySorted str_lt a.*1 -> StronglySorted str_lt b.*1 ->
  (forall x, x ∈ a <-> x ∈ b) -> a = b.
Proof.
  intros Ha Hb Hab.
  assert (forall l : list (gostring * Z), StronglySorted str_lt l.*1 ->
    StronglySorted (fun x y => str_lt x.1 y.1) l) as Hpair.
  { induction l as [|x l IH]; intros H; [constructor|]. cbn in H.
    apply StronglySorted_inv in H as [H Hf]. constructor; [auto|]. by rewrite Forall_fmap in Hf. }
  assert (AntiSymm (=) (fun x y : gostring * Z => str_lt x.1 y.1)).
  { intros x y H1 H2. exfalso. apply (irreflexivity str_lt x.1). by etrans. }
  apply (StronglySorted_unique (fun x y => str_lt x.1 y.1)); [by apply Hpair..|].
  apply NoDup_Permutation; [| |done]; eapply NoDup_fmap_1, sorted_lt_NoDup; done.
Qed.

Lemma rem_ok_lists lists :
  Forall list_ok lists -> Forall rem_ok (source_pairs lists).
Proof. intros H. unfold source_pairs. rewrite Forall_fmap. exact H. Qed.

Lemma total_rem_zero rs r : total_rem rs = 0 -> r ∈ rs -> r.1 = [].
Proof.
  unfold total_rem. intros H Hr. apply nil_length_inv.
  apply list_elem_of_In, in_split in Hr as (a & b & ->).
  rewrite sum_list_with_app in H. cbn in H. lia.
Qed.

Lemma total_rem_sources lists : total_rem (source_pairs lists) = totalDomains lists.
Proof. unfold total_rem, totalDomains, source_pairs. by rewrite sum_list_with_fmap. Qed.

Lemma BuildFromSortedLists_map (lists : list sortedList) (Hok : Forall list_ok lists) :
  BuildFromSortedLists lists = BuildFlatBlocklist (merge_map lists).
Proof.
  pose proof (rem_ok_lists lists Hok) as Hr. pose proof (total_rem_sources lists) as Ht.
  destruct (rmerge_spec (totalDomains lists + 1) _ Hr ltac:(lia)) as [Hs Hm].
  rewrite BuildFlatBlocklist_pack. unfold BuildFromSortedLists.
  destruct (Nat.eqb_spec (totalDomains lists) 0) as [H0|_].
  - assert (map_kms (merge_map lists) = []) as ->; [|done].
    apply elem_of_nil_inv. intros [d mk] H%elem_of_map_kms. rewrite merge_map_lookup in H.
    destruct (proj1 (mask_of_Some d (source_pairs lists))) as (r & Hin & Hd); [eauto|].
    rewrite (total_rem_zero (source_pairs lists) r ltac:(lia) Hin) in Hd. by apply not_elem_of_nil in Hd.
  - change empty_Flat with (pack []). rewrite merge_loop_rmerge, rems_zero. cbn. f_equal.
    apply sorted_kms_unique; [done|apply map_kms_sorted|]. intros [d mk].
    by rewrite Hm, elem_of_map_kms, merge_map_lookup.
Qed.

(** C3: the k-way merge of sorted source lists produces, byte for byte, the
    structure that collecting all sources into a map and packing the map would
    produce: same data, same offsets, same masks.  The merge loop terminates
    within [totalDomains + 1] iterations.  Each list must be strictly sorted
    and hold no empty name, which [DownloadSorted] guarantees. *)
Theorem merge_equals_map_build (lists : list sortedList) (Hok : Forall list_ok lists) :
  BuildFromSortedLists lists = BuildFlatBlocklist (merge_map lists).
Proof. by apply BuildFromSortedLists_map. Qed.

(** ** The parent walk *)

(** A proper parent of a name: what follows one of its dots, other than the
    empty string and the root. *)
Definition proper_parent (q s : gostring) : Prop :=
  (exists k, q = k ++ dot :: s) /\ s <> [] /\ s <> [dot].

(** The proper parents, longest first. *)
Fixpoint parents (q : gostring) : list gostring :=
  match q with
  | [] => []
  | c :: q' =>
      if bool_decide (c = dot)
      then (if bytes_eqb q' [dot] || bytes_eqb q' [] then [] else [q']) ++ parents q'
      else parents q'
  end.

Lemma elem_of_parents q s : s ∈ parents q <-> proper_parent q s.
Proof.
  unfold proper_parent. induction q as [|c q IH]; cbn.
  - rewrite elem_of_nil. split; [done|]. intros [[[|] H] _]; done.
  - assert ((exists k, c :: q = k ++ dot :: s) <->
            (c = dot /\ q = s) \/ (exists k, q = k ++ dot :: s)) as ->.
    { split.
      - intros [[|x k] H]; cbn in H; simplify_eq; [auto|]. right. eauto.
      - intros [[-> ->]|[k ->]]; [by exists []|by exists (c :: k)]. }
    case_bool_decide as Hc; [|rewrite IH; tauto].
    rewrite elem_of_app, IH. destruct (bytes_eqb q [dot] || bytes_eqb q []) eqn:E.
    + rewrite elem_of_nil. apply orb_true_iff in E as [->%bytes_eqb_eq| ->%bytes_eqb_eq];
        naive_solver.
    + apply orb_false_iff in E as [E1%bool_decide_eq_false E2%bool_decide_eq_false].
      rewrite list_elem_of_singleton. naive_solver.
Qed.

Lemma parents_length q s : s ∈ parents q -> length s < length q.
Proof.
  intros [[k ->] _]%elem_of_parents. rewrite length_app. cbn. lia.
Qed.

Lemma parents_decreasing q : StronglySorted (fun a b => length b < length a) (parents q).
Proof.
  induction q as [|c q IH]; cbn; [constructor|]. case_bool_decide; [|done].
  destruct (_ || _); [done|]. cbn. constructor; [done|].
  rewrite Forall_forall. intros s Hs. by apply parents_length.
Qed.

Fixpoint first_found (f : FlatBlocklist) (l : list gostring) : option (Z * MatchKind) :=
  match l with
  | [] => None
  | s :: l' =>
      match Lookup f s with Some mk => Some (mk, KindSubdomain) | None => first_found f l' end
  end.

Lemma parents_index q :
  parents q =
  match Index q [dot] with
  | None => []
  | Some idx =>
      if length q <=? idx + 1 then []
      else let q' := drop (idx + 1) q in
           (if bytes_eqb q' [dot] || bytes_eqb q' [] then [] else [q']) ++ parents q'
  end.
Proof.
  induction q as [|c q IH]; [done|]. cbn [parents Index].
  assert (HasPrefix (c :: q) [dot] = bool_decide (c = dot)) as ->.
  { apply eq_true_iff_eq. rewrite HasPrefix_spec, bool_decide_eq_true. split.
    - intros [k [= -> ->]]. done.
    - intros ->. by exists q. }
  case_bool_decide as Hc.
  - cbn. destruct q as [|x q]; [done|]. done.
  - rewrite IH. destruct (Index q [dot]) as [i|]; [|done]. cbn. done.
Qed.

Lemma walk_parents_first fuel f q :
  length q <= fuel -> walk_parents fuel f q = first_found f (parents q).
Proof.
  revert q. induction fuel as [|fuel IH]; intros q Hf.
  { destruct q; [done|cbn in Hf; lia]. }
  rewrite parents_index. cbn [walk_parents].
  destruct (Index q [dot]) as [i|] eqn:Ei; [|done].
  destruct (Nat.leb_spec (length q) (i + 1)) as [|Hl]; [done|]. cbn zeta.
  destruct (bytes_eqb (drop (i + 1) q) [dot] || bytes_eqb (drop (i + 1) q) []) eqn:E; cbn.
  - apply orb_true_iff in E as [->%bytes_eqb_eq| ->%bytes_eqb_eq]; done.
  - rewrite IH; [done|]. rewrite length_drop. lia.
Qed.

Lemma first_found_spec f l :
  StronglySorted (fun a b => length b < length a) l ->
  match first_found f l with
  | None => forall s, s ∈ l -> Lookup f s = None
  | Some (mk, kind) => kind = KindSubdomain /\ exists s, s ∈ l /\ Lookup f s = Some mk /\
      forall s', s' ∈ l -> length s < length s' -> Lookup f s' = None
  end.
Proof.
  induction l as [|s l IH]; intros Hs; cbn.
  { intros s H. by apply not_elem_of_nil in H. }
  apply StronglySorted_inv in Hs as [Hs Hf]. rewrite Forall_forall in Hf.
  destruct (Lookup f s) as [mk|] eqn:E.
  - split; [done|]. exists s. split; [left|split; [done|]].
    intros s' [->|Hs']%elem_of_cons Hl; [lia|]. specialize (Hf s' Hs'). lia.
  - specialize (IH Hs). destruct (first_found f l) as [[mk kind]|].
    + destruct IH as (-> & s0 & H1 & H2 & H3). split; [done|]. exists s0.
      split; [by right|split; [done|]]. intros s' [->|Hs']%elem_of_cons Hl; auto.
    + intros s' [->|Hs']%elem_of_cons; auto.
Qed.

Lemma LookupSubdomains_spec (f : FlatBlocklist) (q : gostring) :
  match LookupSubdomains f q with
  | Some (mk, KindExact) => Lookup f q = Some mk
  | Some (mk, KindSubdomain) =>
      Lookup f q = None /\
      exists s, proper_parent q s /\ Lookup f s = Some mk /\
        forall s', proper_parent q s' -> length s < length s' -> Lookup f s' = None
  | None => Lookup f q = None /\ forall s, proper_parent q s -> Lookup f s = None
  end.
Proof.
  unfold LookupSubdomains. destruct (length (offs f) =? 0) eqn:E0.
  { assert (forall s, Lookup f s = None) as H by (intros s; unfold Lookup; by rewrite E0). auto. }
  destruct (Lookup f q) as [mk|] eqn:Eq; [done|].
  rewrite walk_parents_first by done.
  pose proof (first_found_spec f (parents q) (parents_decreasing q)) as H.
  destruct (first_found f (parents q)) as [[mk kind]|].
  - destruct H as (-> & s & H1 & H2 & H3). split; [done|]. exists s.
    rewrite <- elem_of_parents. split; [done|split; [done|]].
    intros s' Hs'%elem_of_parents. by apply H3.
  - split; [done|]. intros s Hs%elem_of_parents. by apply H.
Qed.

(** [LookupSubdomains] finds the most specific listed name among the query
    and its proper parents: an "exact" answer when the query itself is listed,
    a "subdomain" answer with the mask of the longest listed parent otherwise,
    and no answer exactly when neither the query nor any parent is listed.  The
    walk terminates for every name. *)
Theorem lookup_subdomains_most_specific (f : FlatBlocklist) (q : gostring) :
  match LookupSubdomains f q with
  | Some (mk, KindExact) => Lookup f q = Some mk
  | Some (mk, KindSubdomain) =>
      Lookup f q = None /\
      exists s, proper_parent q s /\ Lookup f s = Some mk /\
        forall s', proper_parent q s' -> length s < length s' -> Lookup f s' = None
  | None => Lookup f q = None /\ forall s, proper_parent q s -> Lookup f s = None
  end.
Proof. apply LookupSubdomains_spec. Qed.

(** ** Witnesses *)

Definition sample_map : gmap gostring Z :=
  {[ str "ads.example.com." := 1%Z; str "tracker.net." := 3%Z; str "com." := 4%Z ]}.

Lemma flat_build_lookup_witness :
  Lookup (BuildFlatBlocklist sample_map) (str "tracker.net.") = Some 3%Z /\
  Lookup (BuildFlatBlocklist sample_map) (str "tracker.net") = None.
Proof.
  assert (map_Forall (fun k (_ : Z) => NUL ∉ k) sample_map) as Hn
    by (apply (bool_decide_unpack _); vm_compute; exact I).
  destruct (flat_build_lookup sample_map) as [H _].
  - intros k [v Hk]. exact (Hn k v Hk).
  - vm_compute. reflexivity.
  - rewrite !H. split; vm_compute; reflexivity.
Defined.

Definition sample_lists : list sortedList :=
  [ MkSortedList [str "a.com."; str "b.com."] 1; MkSortedList [str "b.com."; str "c.com."] 2 ].

Lemma merge_equals_map_build_witness :
  Lookup (BuildFromSortedLists sample_lists) (str "b.com.") = Some 3%Z /\
  BuildFromSortedLists sample_lists = BuildFlatBlocklist (merge_map sample_lists).
Proof.
  split; [vm_compute; reflexivity|]. apply merge_equals_map_build.
  repeat constructor; try (vm_compute; congruence).
Defined.
