(* ===== verification/BlocklistSource.v ===== *)
(** * Blocklist sources (pkg/blocklist/blocklist.go)

    Downloading and parsing one blocklist.  The HTTP transport is a parameter:
    [HttpGet] gives, for a URL, an error or a status, the bytes of the body and
    whether reading it ends in an error.  [bufio.Scanner] is modelled with its
    64 KiB token limit, [io.LimitedReader] with the 100 MB limit. *)

From Stdlib Require Import Ascii.
From S2P Require Import Prelude GoStrings GoNet DnsMsg FlatBlocklist.
From stdpp Require Import options.
Local Open Scope nat_scope.

(** ** Reading *)

Record HttpResponse := MkResp { StatusCode : Z; Body : gostring; BodyErr : bool }.

Inductive DownloadError := ErrRequest | ErrStatus (code : Z) | ErrRead.

Definition maxBlocklistSize : Z := (100 * 1024 * 1024)%Z.

(** [io.LimitedReader]: at most [n] bytes. *)
Fixpoint limited (n : Z) (s : gostring) : gostring :=
  match s with
  | [] => []
  | c :: s' => if (n <=? 0)%Z then [] else c :: limited (n - 1)%Z s'
  end.

Definition MaxScanTokenSize : Z := 65536%Z.
Definition newline : ascii := chr 10.
Definition carriage_return : ascii := chr 13.

(** [bufio.ScanLines]: the lines, without the terminators; a final line needs no
    newline, and an empty final line is no line. *)
Definition dropCR (l : gostring) : gostring := TrimSuffix l [carriage_return].

Definition raw_lines (s : gostring) : list gostring :=
  let l := SplitByte s newline in
  if bool_decide (last l = Some []) then take (length l - 1) l else l.

(** The scan stops with an error at a line that does not fit the buffer. *)
Fixpoint scan_tokens (ls : list gostring) : list gostring * bool :=
  match ls with
  | [] => ([], false)
  | l :: ls' =>
      if (MaxScanTokenSize <=? Z.of_nat (length l))%Z then ([], true)
      else let '(ts, e) := scan_tokens ls' in (dropCR l :: ts, e)
  end.

(** The tokens [scanner.Scan] delivers and whether [scanner.Err] is set. *)
Definition scan (body : gostring) (readErr : bool) : list gostring * bool :=
  let '(ts, tooLong) := scan_tokens (raw_lines body) in (ts, tooLong || readErr).

(** ** [extractDomain] *)

Definition hash : gostring := str "#".
Definition isLocalhost (d : gostring) : bool :=
  bytes_eqb d (str "localhost") || bytes_eqb d (str "localhost.localdomain").

Definition checked_domain (domain : gostring) : gostring :=
  if isLocalhost domain then []
  else if Contains domain hash then [] else domain.

(** The part after the comment has been cut off: adblock format, then hosts
    format, then a plain domain. *)
Definition extract_line (line : gostring) : gostring :=
  if HasPrefix line (str "||") && Contains line (str "^") then
    let domain := TrimPrefix line (str "||") in
    let domain := default [] (head (SplitByte domain "^"%char)) in
    let domain := TrimSpace domain in
    if Contains domain hash then [] else domain
  else
    let line := TrimPrefix line (str "*.") in
    match Fields line with
    | [domain] => checked_domain domain
    | f0 :: domain :: _ =>
        if Contains f0 (str ".") || Contains f0 (str ":") then checked_domain domain else []
    | [] => []
    end.

Definition extractDomain (line : gostring) : gostring :=
  match Index line hash with
  | Some 0 => []
  | Some idx => extract_line (take idx line)
  | None => extract_line line
  end.

Section download.
Context {DL : DnsLib}.

(** The domain a token contributes, if any: the body shared by the scan loops
    of [parseToSlice] and [parseHostsFile]. *)
Definition line_domain (token : gostring) : option gostring :=
  let line := TrimSpace token in
  if bytes_eqb line [] || HasPrefix line hash then None
  else
    let domain := extractDomain line in
    if bytes_eqb domain [] then None
    else Some (if HasSuffix domain [dot] then domain else Fqdn domain).

(** [parseToSlice]: every domain, in order, duplicates included. *)
Fixpoint parse_tokens (ts : list gostring) : list gostring :=
  match ts with
  | [] => []
  | t :: ts' =>
      match line_domain t with
      | None => parse_tokens ts'
      | Some d => d :: parse_tokens ts'
      end
  end.

Definition parseToSlice (body : gostring) (readErr : bool) : result DownloadError (list gostring) :=
  let '(ts, e) := scan body readErr in
  if e then Err ErrRead else Ok (parse_tokens ts).

(** [parseHostsFile]: the set of the domains. *)
Fixpoint hosts_tokens (ts : list gostring) (domains : gset gostring) : gset gostring :=
  match ts with
  | [] => domains
  | t :: ts' =>
      match line_domain t with
      | None => hosts_tokens ts' domains
      | Some d => hosts_tokens ts' ({[d]} ∪ domains)
      end
  end.

Definition parseHostsFile (body : gostring) (readErr : bool) : result DownloadError (gset gostring) :=
  let '(ts, e) := scan body readErr in
  if e then Err ErrRead else Ok (hosts_tokens ts ∅).

(** The in-place deduplication of [DownloadSorted]: [r] reads, [w] writes. *)
Fixpoint dedup_loop (fuel r w : nat) (a : list gostring) : list gostring :=
  match fuel with
  | 0 => take w a
  | S fuel' =>
      if r <? length a then
        if bool_decide (a !! r = a !! (r - 1)) then dedup_loop fuel' (r + 1) w a
        else dedup_loop fuel' (r + 1) (w + 1) (<[w := default [] (a !! r)]> a)
      else take w a
  end.

Definition dedup (domains : list gostring) : list gostring :=
  if 1 <? length domains then dedup_loop (length domains) 1 1 domains else domains.

Context (HttpGet : gostring -> option HttpResponse).

(** The reader the parsers see: the body, cut at the size limit (a read error
    beyond the limit is never reached). *)
Definition limited_body (r : HttpResponse) : gostring * bool :=
  (limited maxBlocklistSize (Body r),
   BodyErr r && (Z.of_nat (length (Body r)) <? maxBlocklistSize)%Z).

Definition Download (url : gostring) : result DownloadError (gset gostring) :=
  match HttpGet url with
  | None => Err ErrRequest
  | Some resp =>
      if negb (StatusCode resp =? 200)%Z then Err (ErrStatus (StatusCode resp))
      else let '(body, e) := limited_body resp in parseHostsFile body e
  end.

Definition DownloadSorted (url : gostring) : result DownloadError (list gostring) :=
  match HttpGet url with
  | None => Err ErrRequest
  | Some resp =>
      if negb (StatusCode resp =? 200)%Z then Err (ErrStatus (StatusCode resp))
      else let '(body, e) := limited_body resp in
           match parseToSlice body e with
           | Err e => Err e
           | Ok domains => Ok (dedup (sort_Strings domains))
           end
  end.

(** [DownloadAll]: failed sources are skipped. *)
Definition DownloadAll (urls : list gostring) : gset gostring :=
  foldl (fun merged url =>
           match Download url with Err _ => merged | Ok domains => merged ∪ domains end) ∅ urls.

End download.

(** ** Deduplication *)

(** The reference: drop every element equal to its predecessor. *)
Fixpoint uniq_from (prev : gostring) (l : list gostring) : list gostring :=
  match l with
  | [] => []
  | x :: l' => if bool_decide (x = prev) then uniq_from x l' else x :: uniq_from x l'
  end.

Lemma dedup_loop_uniq fuel r w a prev :
  1 <= w <= r -> r <= length a -> length a - r <= fuel -> a !! (r - 1) = Some prev ->
  dedup_loop fuel r w a = take w a ++ uniq_from prev (drop r a).
Proof.
  revert r w a prev. induction fuel as [|fuel IH]; intros r w a prev Hw Hr Hf Hp; cbn [dedup_loop].
  { rewrite drop_ge by lia. cbn. by rewrite app_nil_r. }
  destruct (Nat.ltb_spec r (length a)) as [Hlt|Hge].
  2: { rewrite drop_ge by lia. cbn. by rewrite app_nil_r. }
  destruct (lookup_lt_is_Some_2 a r Hlt) as [x Hx].
  rewrite (drop_S a x r Hx), Hp, Hx. cbn.
  case_bool_decide as Heq.
  - injection Heq as ->. rewrite bool_decide_eq_true_2 by done.
    rewrite (IH (r + 1) w a prev); [|lia|lia|lia|by replace (r + 1 - 1) with r by lia].
    by rewrite Nat.add_1_r.
  - rewrite bool_decide_eq_false_2 by congruence.
    rewrite (IH (r + 1) (w + 1) _ x); [|lia|rewrite length_insert; lia..|].
    + rewrite drop_insert_lt by lia. rewrite (Nat.add_1_r r), (Nat.add_1_r w).
      rewrite (take_S_r _ _ x) by (apply list_lookup_insert_eq; lia).
      rewrite take_insert_ge by lia. by rewrite <- app_assoc.
    + replace (r + 1 - 1) with r by lia.
      destruct (decide (w = r)) as [->|]; [by apply list_lookup_insert_eq|].
      by rewrite list_lookup_insert_ne.
Qed.

Lemma uniq_from_sorted prev l :
  StronglySorted str_le (prev :: l) ->
  StronglySorted str_lt (prev :: uniq_from prev l) /\
  (forall x, x ∈ prev :: uniq_from prev l <-> x ∈ prev :: l).
Proof.
  revert prev. induction l as [|y l IH]; intros prev Hs; cbn.
  { split; [repeat constructor|done]. }
  apply StronglySorted_inv in Hs as [Hs Hf]. case_bool_decide as Hy.
  - subst. destruct (IH prev Hs) as [H1 H2]. split; [done|]. intros x. rewrite H2, !elem_of_cons.
    tauto.
  - destruct (IH y Hs) as [H1 H2]. split.
    + constructor; [done|]. rewrite Forall_forall. intros x Hx. apply H2 in Hx.
      rewrite Forall_forall in Hf. assert (str_le prev y) as Hpy by (apply Hf; left).
      apply str_le_lt_eq in Hpy as [Hpy|]; [|done].
      apply elem_of_cons in Hx as [->|Hx]; [done|].
      apply StronglySorted_inv in Hs as [_ Hf']. rewrite Forall_forall in Hf'.
      specialize (Hf' x Hx). apply str_le_lt_eq in Hf' as [? | ->]; [by etrans|done].
    + intros x. rewrite (elem_of_cons _ x prev), H2, (elem_of_cons (y :: l) x prev). done.
Qed.

Lemma dedup_spec l :
  StronglySorted str_le l ->
  StronglySorted str_lt (dedup l) /\ (forall x, x ∈ dedup l <-> x ∈ l).
Proof.
  intros Hs. unfold dedup. destruct l as [|x [|y l]].
  - split; [constructor|done].
  - split; [repeat constructor|done].
  - cbn [length Nat.ltb Nat.leb].
    rewrite (dedup_loop_uniq _ 1 1 _ x) by (cbn; lia || done). cbn [take drop app].
    by apply uniq_from_sorted.
Qed.

(** ** Bytes of the parsed domains

    Every byte of a parsed domain is a byte of the line it came from or the
    final dot. *)

Definition bytes_of (d s : gostring) : Prop := forall c, c ∈ d -> c ∈ s.

#[global] Instance bytes_of_refl : Reflexive bytes_of.
Proof. intros s c. done. Qed.
#[global] Instance bytes_of_trans : Transitive bytes_of.
Proof. intros a b d Hab Hbd c Hc. auto. Qed.

Lemma bytes_of_nil s : bytes_of [] s.
Proof. intros c Hc. by apply not_elem_of_nil in Hc. Qed.

Lemma bytes_of_take n s : bytes_of (take n s) s.
Proof. intros c Hc. by eapply elem_of_take in Hc as (i & ? & _); eapply list_elem_of_lookup_2. Qed.

Lemma bytes_of_drop n s : bytes_of (drop n s) s.
Proof. intros c. rewrite <- (take_drop n s) at 2. rewrite elem_of_app. auto. Qed.

Lemma bytes_of_trim_left s : bytes_of (trim_left s) s.
Proof.
  induction s as [|c s IH]; [done|]. cbn. destruct (is_space_byte c); [|done].
  intros x Hx. right. by apply IH.
Qed.

Lemma bytes_of_TrimSpace s : bytes_of (TrimSpace s) s.
Proof.
  intros c Hc. unfold TrimSpace in Hc. apply elem_of_reverse, bytes_of_trim_left in Hc.
  apply elem_of_reverse, bytes_of_trim_left in Hc. done.
Qed.

Lemma bytes_of_TrimPrefix s p : bytes_of (TrimPrefix s p) s.
Proof. unfold TrimPrefix. destruct (HasPrefix s p); [apply bytes_of_drop|done]. Qed.

Lemma bytes_of_TrimSuffix s p : bytes_of (TrimSuffix s p) s.
Proof. unfold TrimSuffix. destruct (HasSuffix s p); [apply bytes_of_take|done]. Qed.

Lemma bytes_of_SplitByte s b d : d ∈ SplitByte s b -> bytes_of d s.
Proof.
  revert d. induction s as [|c s IH]; cbn; intros d Hd.
  { by apply list_elem_of_singleton in Hd as ->. }
  case_bool_decide.
  - apply elem_of_cons in Hd as [->|Hd]; [apply bytes_of_nil|].
    intros x Hx. right. by apply (IH d).
  - destruct (SplitByte s b) as [|p r] eqn:E.
    + apply list_elem_of_singleton in Hd as ->. intros x Hx.
      apply list_elem_of_singleton in Hx as ->. by left.
    + apply elem_of_cons in Hd as [->|Hd].
      * intros x [->|Hx]%elem_of_cons; [by left|]. right. apply (IH p); [by left|done].
      * intros x Hx. right. apply (IH d); [by right|done].
Qed.

Lemma bytes_of_fields_aux s cur d c :
  d ∈ fields_aux s cur -> c ∈ d -> c ∈ cur \/ c ∈ s.
Proof.
  revert cur. induction s as [|x s IH]; intros cur Hd Hc; cbn in Hd.
  - destruct cur; [by apply not_elem_of_nil in Hd|].
    apply list_elem_of_singleton in Hd as ->. left. by apply elem_of_reverse.
  - rewrite elem_of_cons. destruct (is_space_byte x).
    + destruct cur as [|y cur]; [destruct (IH [] Hd Hc) as [?%not_elem_of_nil|]; auto; done|].
      apply elem_of_cons in Hd as [->|Hd]; [left; by apply elem_of_reverse|].
      destruct (IH [] Hd Hc) as [?%not_elem_of_nil|]; auto; done.
    + destruct (IH _ Hd Hc) as [[->|?]%elem_of_cons|?]; auto.
Qed.

Lemma bytes_of_Fields s d : d ∈ Fields s -> bytes_of d s.
Proof.
  intros Hd c Hc. destruct (bytes_of_fields_aux _ _ _ _ Hd Hc) as [?%not_elem_of_nil|?]; done.
Qed.

Lemma bytes_of_checked d s : bytes_of d s -> bytes_of (checked_domain d) s.
Proof.
  intros H. unfold checked_domain.
  destruct (isLocalhost d), (Contains d hash); auto using bytes_of_nil.
Qed.

Lemma bytes_of_extract_line line : bytes_of (extract_line line) line.
Proof.
  unfold extract_line. cbv zeta. destruct (_ && _).
  - destruct (Contains _ hash); [apply bytes_of_nil|]. etrans; [apply bytes_of_TrimSpace|].
    etrans; [|apply (bytes_of_TrimPrefix _ (str "||"))].
    destruct (SplitByte _ _) as [|d ds] eqn:E; [apply bytes_of_nil|].
    apply (bytes_of_SplitByte _ "^"%char). rewrite E. left.
  - pose proof (bytes_of_Fields (TrimPrefix line (str "*."))) as HF.
    pose proof (bytes_of_TrimPrefix line (str "*.")) as HT.
    destruct (Fields _) as [|d [|d' ds]]; [apply bytes_of_nil| |].
    + apply bytes_of_checked. etrans; [apply HF; left|done].
    + destruct (_ || _); [|apply bytes_of_nil].
      apply bytes_of_checked. etrans; [apply HF; right; left|done].
Qed.

Lemma bytes_of_extractDomain line : bytes_of (extractDomain line) line.
Proof.
  unfold extractDomain. destruct (Index line hash) as [[|i]|].
  - apply bytes_of_nil.
  - etrans; [apply bytes_of_extract_line|apply bytes_of_take].
  - apply bytes_of_extract_line.
Qed.

Lemma bytes_of_limited n s : bytes_of (limited n s) s.
Proof.
  revert n. induction s as [|c s IH]; intros n; cbn; [done|].
  destruct (n <=? 0)%Z; [apply bytes_of_nil|].
  intros x [->|Hx]%elem_of_cons; [left|right]. by eapply IH.
Qed.

Lemma bytes_of_scan_tokens ls t :
  t ∈ (scan_tokens ls).1 -> exists l, l ∈ ls /\ bytes_of t l.
Proof.
  induction ls as [|l ls IH]; cbn; [by intros ?%not_elem_of_nil|].
  destruct (_ <=? _)%Z; cbn; [by intros ?%not_elem_of_nil|].
  destruct (scan_tokens ls) as [ts e]. cbn in *. intros [->|Ht]%elem_of_cons.
  - exists l. split; [left|apply bytes_of_TrimSuffix].
  - destruct (IH Ht) as (l' & ? & ?). exists l'. split; [by right|done].
Qed.

Lemma bytes_of_scan body e t : t ∈ (scan body e).1 -> bytes_of t body.
Proof.
  unfold scan. destruct (scan_tokens _) as [ts tl] eqn:E. cbn. intros Ht.
  destruct (bytes_of_scan_tokens (raw_lines body) t) as (l & Hl & Htl); [by rewrite E|].
  etrans; [done|]. apply (bytes_of_SplitByte _ newline). unfold raw_lines in Hl.
  case_bool_decide; [|done]. by eapply elem_of_take in Hl as (i & ? & _); eapply list_elem_of_lookup_2.
Qed.

(** ** The two parsers *)

Section download_facts.
Context {DL : DnsLib}.

Lemma elem_parse_tokens ts d :
  d ∈ parse_tokens ts <-> exists t, t ∈ ts /\ line_domain t = Some d.
Proof.
  induction ts as [|t ts IH]; cbn.
  { split; [by intros ?%not_elem_of_nil|by intros (t & ?%not_elem_of_nil & _)]. }
  destruct (line_domain t) as [d'|] eqn:E; [rewrite elem_of_cons, IH|rewrite IH];
    setoid_rewrite elem_of_cons; naive_solver.
Qed.

Lemma hosts_tokens_union ts s : hosts_tokens ts s = list_to_set (parse_tokens ts) ∪ s.
Proof.
  revert s. induction ts as [|t ts IH]; intros s; cbn; [set_solver|].
  destruct (line_domain t); rewrite IH; cbn; set_solver.
Qed.

(** What the rest of the system relies on for a parsed name. *)
Definition good_name (d : gostring) : Prop :=
  HasSuffix d [dot] = true /\ 1 <= length d.

Context {DLok : DnsLibOk DL}.

Lemma line_domain_good t d :
  line_domain t = Some d ->
  good_name d /\ (forall c, c ∈ d -> c = dot \/ c ∈ t).
Proof using DLok.
  unfold line_domain. set (line := TrimSpace t). intros H.
  destruct (_ || _); [done|]. destruct (bytes_eqb _ []) eqn:E; [done|].
  assert (forall c, c ∈ extractDomain line -> c ∈ t) as Hb.
  { intros c Hc. eapply bytes_of_TrimSpace, bytes_of_extractDomain, Hc. }
  destruct (HasSuffix _ _) eqn:Es; simplify_eq.
  - split; [split; [done|]|auto]. destruct (extractDomain line); cbn; [done|lia].
  - rewrite Fqdn_add by done. split.
    + split; [apply HasSuffix_app|rewrite length_app; cbn; lia].
    + intros c [?|Hc%list_elem_of_singleton]%elem_of_app; auto.
Qed.

Context (HttpGet : gostring -> option HttpResponse).

(** A list that was downloaded for [url]: strictly sorted, well-formed names,
    and only bytes of the response. *)
Lemma DownloadSorted_good url l :
  DownloadSorted HttpGet url = Ok l ->
  StronglySorted str_lt l /\ Forall good_name l /\
  exists resp, HttpGet url = Some resp /\
    forall d c, d ∈ l -> c ∈ d -> c = dot \/ c ∈ Body resp.
Proof using DLok.
  unfold DownloadSorted, parseToSlice. destruct (HttpGet url) as [resp|]; [|done].
  destruct (negb _); [done|]. cbn. destruct (scan _ _) as [ts e] eqn:Es.
  destruct e; [done|]. intros ?; simplify_eq.
  destruct (dedup_spec (sort_Strings (parse_tokens ts))) as [Hs Hin]; [apply sort_Strings_sorted|].
  assert (forall d, d ∈ dedup (sort_Strings (parse_tokens ts)) ->
    exists t, t ∈ ts /\ line_domain t = Some d) as Hd.
  { intros d. rewrite Hin, sort_Strings_perm. apply elem_parse_tokens. }
  split; [done|]. split.
  - apply Forall_forall. intros d (t & _ & Ht)%Hd. by eapply line_domain_good.
  - exists resp. split; [done|]. intros d c (t & Ht & Hl)%Hd Hc.
    destruct (line_domain_good _ _ Hl) as [_ Hb]. destruct (Hb c Hc) as [?|?]; [by left|]. right.
    eapply bytes_of_limited, bytes_of_scan; [|done]. by rewrite Es.
Qed.

(** [DownloadSorted], which sorts a slice and removes duplicates in place,
    agrees with [Download], which collects a map: for every server behaviour
    they fail on the same responses with the same error, and otherwise the
    sorted slice is strictly increasing, has exactly the domains of the map,
    and every domain is non-empty and fully qualified. *)
Theorem download_sorted_agrees url :
  match DownloadSorted HttpGet url, Download HttpGet url with
  | Ok l, Ok s =>
      StronglySorted str_lt l /\ (forall d, d ∈ l <-> d ∈ s) /\
      Forall (fun d => d <> [] /\ HasSuffix d [dot] = true) l
  | Err e, Err e' => e = e'
  | _, _ => False
  end.
Proof using DLok.
  destruct (DownloadSorted HttpGet url) as [l|e] eqn:E.
  - destruct (DownloadSorted_good _ _ E) as (Hs & Hg & _). revert E.
    unfold DownloadSorted, Download, parseToSlice, parseHostsFile.
    destruct (HttpGet url) as [resp|]; [|done]. destruct (negb _); [done|]. cbn.
    destruct (scan _ _) as [ts [|]]; [done|]. intros ?; simplify_eq. split; [done|]. split.
    + intros d. rewrite hosts_tokens_union, (proj2 (dedup_spec _ (sort_Strings_sorted _))).
      rewrite sort_Strings_perm. set_solver.
    + eapply Forall_impl; [done|]. intros d [Hd Hl]. split; [by destruct d; cbn in *; [lia|]|done].
  - revert E. unfold DownloadSorted, Download, parseToSlice, parseHostsFile.
    destruct (HttpGet url) as [resp|]; [|by intros; simplify_eq].
    destruct (negb _); [by intros; simplify_eq|]. cbn.
    destruct (scan _ _) as [ts [|]]; [by intros; simplify_eq|done].
Qed.

End download_facts.

Definition sample_get (url : gostring) : option HttpResponse :=
  if bytes_eqb url (str "http://l/hosts")
  then Some (MkResp 200 (str "# hosts" ++ [newline] ++ str "0.0.0.0 ads.example.com" ++ [newline]
         ++ str "||tracker.net^" ++ [carriage_return; newline] ++ str "*.ads.example.com # dup") false)
  else None.

Lemma download_sorted_agrees_witness :
  DnsLibOk simple_dns /\
  @DownloadSorted simple_dns sample_get (str "http://l/hosts")
    = Ok [str "ads.example.com."; str "tracker.net."] /\
  is_ok (@Download simple_dns sample_get (str "http://l/hosts")) = true.
Proof.
  split; [apply simple_dns_ok|]. split; [by vm_compute|].
  pose proof (@download_sorted_agrees simple_dns simple_dns_ok sample_get (str "http://l/hosts")) as H.
  by destruct (DownloadSorted _ _) eqn:E, (Download _ _).
Defined.
