(* ===== verification/BlocklistManager.v ===== *)
(** * The blocklist manager (pkg/blocklist/manager.go)

    The state the manager keeps behind its atomics and locks, the update cycle
    (download every source, merge, swap) and the match the DNS handler calls.
    HTTP, the clock and the regexp engine are parameters.  The configuration is
    read once per call: a concurrent [UpdateConfig] between the reads of one
    [Update] is not modelled. *)

From Stdlib Require Import Ascii.
From S2P Require Import Prelude GoStrings Pattern FlatBlocklist DnsMsg BlocklistSource.
From stdpp Require Import options.
Local Open Scope nat_scope.

Definition maxTrackedSources : nat := 64.

Record BlockEntry := MkBlockEntry { SourceMask : Z; Overflow : bool }.

Record MatchResult := MkMatch {
  Blocked : bool;
  Kind : gostring;
  MatchedPattern : gostring;
  Sources : list gostring
}.

Definition no_match : MatchResult := MkMatch false [] [] [].

Definition kind_string (k : MatchKind) : gostring :=
  match k with KindExact => str "exact" | KindSubdomain => str "subdomain" end.

Definition additional_sources : gostring := str "additional sources".

(** The part of the configuration the manager reads. *)
Record BlocklistConfig := MkBlocklistConfig {
  Blocklists : list gostring;
  AutoUpdateBlocklists : bool;
  UpdateInterval : Z
}.

Section manager.
Context {RX : RegexpLib} {DL : DnsLib}.
Context (HttpGet : gostring -> option HttpResponse).

Record Manager := MkManager {
  cfg : BlocklistConfig;
  current : FlatBlocklist;
  m_patterns : option Matcher;
  lastUpdated : option Z;         (** [None] is the zero time *)
  sourceNames : list gostring;
  updateLocked : bool;            (** [updateMu] *)
  lastSize : Z;
  BlocklistSize : option Z;       (** the gauge, when there are metrics *)
  started : bool;
  stopClosed : bool;              (** [stopChan] has been closed *)
  tickerRunning : bool;
  loopRunning : bool              (** the goroutine of [updateLoop] *)
}.

Definition NewManager (c : BlocklistConfig) (metrics : option Z) : Manager :=
  MkManager c (BuildFlatBlocklist ∅) None None [] false 0 metrics false false false false.

(** ** Updating *)

Definition source_mask (idx : nat) : Z :=
  if idx <? maxTrackedSources then Z.shiftl 1 (Z.of_nat idx) else 0%Z.

(** The download loop of [downloadAndMerge]: a failed source is skipped. *)
Fixpoint download_lists (idx : nat) (urls : list gostring) : list sortedList :=
  match urls with
  | [] => []
  | url :: urls' =>
      match DownloadSorted HttpGet url with
      | Err _ => download_lists (idx + 1) urls'
      | Ok sorted => MkSortedList sorted (source_mask idx) :: download_lists (idx + 1) urls'
      end
  end.

Definition downloadAndMerge (m : Manager) : FlatBlocklist :=
  let urls := Blocklists (cfg m) in
  if length urls =? 0 then empty_Flat
  else BuildFromSortedLists (download_lists 0 urls).

(** [Update] never reports an error: a failed download only shortens the list. *)
Definition Update (now : Z) (m : Manager) : Manager :=
  if length (Blocklists (cfg m)) =? 0 then m
  else if updateLocked m then m
  else
    let oldSize := lastSize m in
    let flat := downloadAndMerge m in
    let newSize := Z.of_nat (Len flat) in
    let delta := (newSize - oldSize)%Z in
    let sourceCopy := Blocklists (cfg m) in
    let sourceCopy :=
      if maxTrackedSources <? length sourceCopy then take maxTrackedSources sourceCopy
      else sourceCopy in
    MkManager (cfg m) flat (m_patterns m) (Some now) sourceCopy false newSize
      ((fun g => (g + delta)%Z) <$> BlocklistSize m)
      (started m) (stopClosed m) (tickerRunning m) (loopRunning m).

Definition UpdateConfig (c : BlocklistConfig) (m : Manager) : Manager :=
  MkManager c (current m) (m_patterns m) (lastUpdated m) (sourceNames m) (updateLocked m)
    (lastSize m) (BlocklistSize m) (started m) (stopClosed m) (tickerRunning m) (loopRunning m).

Definition SetDomainsForTest (ds : list gostring) (m : Manager) : Manager :=
  let tmp : gmap gostring Z := foldl (fun t d => <[d := 1%Z]> t) ∅ ds in
  let flat := BuildFlatBlocklist tmp in
  MkManager (cfg m) flat (m_patterns m) (lastUpdated m) (sourceNames m) (updateLocked m)
    (Z.of_nat (Len flat)) (BlocklistSize m) (started m) (stopClosed m) (tickerRunning m)
    (loopRunning m).

Definition with_patterns (p : option Matcher) (m : Manager) : Manager :=
  MkManager (cfg m) (current m) p (lastUpdated m) (sourceNames m) (updateLocked m)
    (lastSize m) (BlocklistSize m) (started m) (stopClosed m) (tickerRunning m) (loopRunning m).

Definition SetPatterns (patternList : list gostring) (m : Manager) : Manager * option PatternError :=
  if length patternList =? 0 then (with_patterns None m, None)
  else match NewMatcher patternList with
       | Err e => (m, Some e)
       | Ok matcher => (with_patterns (Some matcher) m, None)
       end.

(** ** Queries *)

Definition Size (m : Manager) : nat := Len (current m).

(** The loop of [sourcesFromMask] over the names, from index [idx]. *)
Fixpoint mask_names (mask : Z) (idx : nat) (names : list gostring) : list gostring :=
  match names with
  | [] => []
  | name :: names' =>
      if idx <? maxTrackedSources then
        if negb (Z.land mask (Z.shiftl 1 (Z.of_nat idx)) =? 0)%Z
        then name :: mask_names mask (idx + 1) names'
        else mask_names mask (idx + 1) names'
      else []
  end.

Definition sourcesFromMask (m : Manager) (mask : Z) : list gostring :=
  let names := sourceNames m in
  let overflow := (mask =? 0)%Z && (0 <? length names) in
  if (length names =? 0) && negb overflow then []
  else
    let result := mask_names mask 0 names in
    if overflow then result ++ [additional_sources] else result.

(** The name [Match] looks up: lower case, with a final dot. *)
Definition match_fqdn (domain : gostring) : gostring :=
  let fqdn := ToLower domain in
  if bool_decide (last fqdn = Some dot) then fqdn else fqdn ++ [dot].

Definition pattern_match (m : Manager) (short : gostring) : MatchResult :=
  match m_patterns m with
  | None => no_match
  | Some patterns =>
      match MatchPattern patterns short with
      | Some matched =>
          MkMatch true (PatternType_String (p_Type matched)) (p_Raw matched) [str "pattern"]
      | None => no_match
      end
  end.

Definition Match (m : Manager) (domain : gostring) : MatchResult :=
  if bytes_eqb domain [] then no_match
  else
    let fqdn := match_fqdn domain in
    let short := take (length fqdn - 1) fqdn in
    if 0 <? Len (current m) then
      match LookupSubdomains (current m) fqdn with
      | Some (mask, kind) => MkMatch true (kind_string kind) [] (sourcesFromMask m mask)
      | None => pattern_match m short
      end
    else pattern_match m short.

Definition IsBlocked (m : Manager) (domain : gostring) : bool := Blocked (Match m domain).

Definition Get (m : Manager) : gmap gostring BlockEntry :=
  if Len (current m) =? 0 then ∅
  else foldl (fun r dm => <[dm.1 := MkBlockEntry dm.2 (dm.2 =? 0)%Z]> r) ∅ (ForEach (current m)).

Record ManagerStats := MkManagerStats {
  st_exact : nat; st_pattern_exact : nat; st_pattern_wildcard : nat; st_pattern_regex : nat;
  st_total : nat
}.

Definition Stats (m : Manager) : ManagerStats :=
  match m_patterns m with
  | Some p =>
      let ps := Matcher_Stats p in
      MkManagerStats (Size m) (ms_exact ps) (ms_wildcard ps) (ms_regex ps) (Size m + ms_total ps)
  | None => MkManagerStats (Size m) 0 0 0 (Size m)
  end.

(** ** Lifecycle *)

Definition with_lifecycle (m : Manager) (s c t l : bool) : Manager :=
  MkManager (cfg m) (current m) (m_patterns m) (lastUpdated m) (sourceNames m) (updateLocked m)
    (lastSize m) (BlocklistSize m) s c t l.

Definition Start (now : Z) (m : Manager) : Manager :=
  if started m then m
  else
    let m := with_lifecycle m true false (tickerRunning m) (loopRunning m) in
    let m := Update now m in
    if AutoUpdateBlocklists (cfg m) && (0 <? UpdateInterval (cfg m))%Z
    then with_lifecycle m (started m) (stopClosed m) true true
    else m.

(** [Stop] returns when the loop has: [None] would be the panic of closing a
    closed channel. *)
Definition Stop (m : Manager) : option Manager :=
  if negb (started m) then Some m
  else if stopClosed m then None
  else Some (with_lifecycle m false true false false).

(** One wake-up of [updateLoop]: the ticker fired. *)
Definition updateLoop_tick (now : Z) (m : Manager) : Manager :=
  if loopRunning m && tickerRunning m then Update now m else m.

Inductive Op :=
| OpUpdate (now : Z) | OpUpdateConfig (c : BlocklistConfig) | OpSetPatterns (ps : list gostring)
| OpStart (now : Z) | OpStop | OpTick (now : Z).

Definition run_op (o : Op) (m : Manager) : option Manager :=
  match o with
  | OpUpdate now => Some (Update now m)
  | OpUpdateConfig c => Some (UpdateConfig c m)
  | OpSetPatterns ps => Some (SetPatterns ps m).1
  | OpStart now => Some (Start now m)
  | OpStop => Stop m
  | OpTick now => Some (updateLoop_tick now m)
  end.

Fixpoint run_ops (os : list Op) (m : Manager) : option Manager :=
  match os with
  | [] => Some m
  | o :: os' => match run_op o m with Some m' => run_ops os' m' | None => None end
  end.

End manager.

(** ** Source masks *)

Lemma land_bit m j : (0 <= j)%Z -> (Z.land m (Z.shiftl 1 j) =? 0)%Z = negb (Z.testbit m j).
Proof.
  intros Hj. rewrite Z.shiftl_1_l. destruct (Z.testbit m j) eqn:E; cbn.
  - apply Z.eqb_neq. intros H. apply (f_equal (fun z => Z.testbit z j)) in H.
    by rewrite Z.land_spec, E, Z.pow2_bits_true, Z.bits_0 in H.
  - apply Z.eqb_eq, Z.bits_inj'. intros n Hn. rewrite Z.land_spec, Z.bits_0.
    destruct (decide (j = n)) as [<-|]; [by rewrite E|].
    rewrite Z.pow2_bits_false by done. apply andb_false_r.
Qed.

Lemma source_mask_bit idx j :
  Z.testbit (source_mask idx) (Z.of_nat j) = bool_decide (j = idx /\ idx < maxTrackedSources).
Proof.
  unfold source_mask. destruct (Nat.ltb_spec idx maxTrackedSources).
  - rewrite Z.shiftl_1_l. destruct (decide (j = idx)) as [->|].
    + rewrite Z.pow2_bits_true by lia. by rewrite bool_decide_eq_true_2.
    + rewrite Z.pow2_bits_false by lia. by rewrite bool_decide_eq_false_2 by naive_solver.
  - rewrite Z.bits_0, bool_decide_eq_false_2; [done|]. intros [_ ?]. lia.
Qed.

Lemma mask_names_filter mask idx names (P : gostring -> bool) :
  (forall k n, names !! k = Some n -> Z.testbit mask (Z.of_nat (idx + k)) = P n) ->
  idx + length names <= maxTrackedSources ->
  mask_names mask idx names = filter (fun n => P n = true) names.
Proof.
  revert idx. induction names as [|n names IH]; intros idx HP Hlen; [done|].
  cbn [mask_names length] in *. rewrite (proj2 (Nat.ltb_lt _ _)) by lia.
  rewrite land_bit, negb_involutive by lia. rewrite filter_cons.
  rewrite (IH (idx + 1)); [|intros k n' Hk; rewrite <- (HP (S k) n' Hk); do 2 f_equal; lia|lia].
  specialize (HP 0 n eq_refl). rewrite Nat.add_0_r in HP. rewrite HP.
  destruct (P n) eqn:E; [by rewrite decide_True|by rewrite decide_False].
Qed.

Section attribution.
Context {RX : RegexpLib} {DL : DnsLib}.
Context (HttpGet : gostring -> option HttpResponse).

(** The reference the update cycle is compared with: does the source at [url]
    list [d]? *)
Definition listed (d url : gostring) : bool :=
  match DownloadSorted HttpGet url with
  | Ok l => bool_decide (d ∈ l)
  | Err _ => false
  end.

(** The names reported for [d]: the tracked sources that list it, in their
    configured order, or a catch-all. *)
Definition attribution (urls : list gostring) (d : gostring) : list gostring :=
  match filter (fun url => listed d url = true) (take maxTrackedSources urls) with
  | [] => [additional_sources]
  | l => l
  end.

Definition bit_ok (d : gostring) (urls : list gostring) (i : nat) (mk : Z) : Prop :=
  forall j, Z.testbit mk (Z.of_nat j) = true <->
    j < maxTrackedSources /\ i <= j /\ exists url, urls !! (j - i) = Some url /\ listed d url = true.

Lemma bit_ok_cons d url urls i mk :
  bit_ok d urls (i + 1) mk ->
  bit_ok d (url :: urls) i (if listed d url then Z.lor mk (source_mask i) else mk).
Proof.
  intros H j. assert ((i <= j /\ exists u, (url :: urls) !! (j - i) = Some u /\ listed d u = true) <->
    (j = i /\ listed d url = true) \/
    (i + 1 <= j /\ exists u, urls !! (j - (i + 1)) = Some u /\ listed d u = true)) as Hc.
  { destruct (decide (j = i)) as [->|Hne].
    - rewrite Nat.sub_diag. cbn. split; [intros (_ & u & ? & ?); simplify_eq; auto|].
      intros [[_ ?]|[? _]]; [split; eauto|lia].
    - split.
      + intros (Hij & u & Hu & Hl). right. split; [lia|]. exists u.
        replace (j - i) with (S (j - (i + 1))) in Hu by lia. done.
      + intros [[? _]|(Hij & u & Hu & Hl)]; [done|]. split; [lia|]. exists u.
        by replace (j - i) with (S (j - (i + 1))) by lia. }
  rewrite Hc. destruct (listed d url) eqn:El.
  - rewrite Z.lor_spec, orb_true_iff, (H j), source_mask_bit, bool_decide_eq_true.
    intuition (subst; auto).
  - rewrite (H j). intuition congruence.
Qed.

(** The merged mask of [d] has exactly the bits of the tracked sources listing
    it; [d] is absent when no source lists it. *)
Lemma download_mask d urls i :
  match mask_of d (source_pairs (download_lists HttpGet i urls)) with
  | None => forall url, url ∈ urls -> listed d url = false
  | Some mk => (exists url, url ∈ urls /\ listed d url = true) /\ (0 <= mk)%Z /\ bit_ok d urls i mk
  end.
Proof.
  revert i. induction urls as [|url urls IH]; intros i.
  { intros url Hu. by apply not_elem_of_nil in Hu. }
  specialize (IH (i + 1)). pose proof (bit_ok_cons d url urls i) as Hcons. cbn [download_lists].
  assert (0 <= source_mask i)%Z as Hsm.
  { unfold source_mask. destruct (_ <? _); [apply Z.shiftl_nonneg|]; lia. }
  assert (listed d url = match DownloadSorted HttpGet url with
    Ok l => bool_decide (d ∈ l) | Err _ => false end) as El by done.
  destruct (DownloadSorted HttpGet url) as [l|e].
  - change (source_pairs (?a :: ?r)) with ((domains a, sl_mask a) :: source_pairs r).
    rewrite mask_of_cons. cbn [domains sl_mask fst snd].
    rewrite <- El. destruct (listed d url) eqn:Eb.
    + split; [exists url; split; [left|done]|].
      destruct (mask_of d _) as [mk|]; cbn.
      * destruct IH as (_ & H0 & Hb). split; [by apply Z.lor_nonneg|]. by apply Hcons.
      * split; [done|]. apply (Hcons 0%Z). intros j. rewrite Z.bits_0. split; [done|].
        intros (_ & _ & u & Hu%list_elem_of_lookup_2%IH & Hl). congruence.
    + destruct (mask_of d _) as [mk|].
      * destruct IH as ((u & Hu & Hl) & H0 & Hb). split; [exists u; split; [by right|done]|]. auto.
      * intros u [->|Hu]%elem_of_cons; auto.
  - destruct (mask_of d _) as [mk|] eqn:Em.
    + destruct IH as ((u & Hu & Hl) & H0 & Hb). split; [exists u; split; [by right|done]|].
      split; [done|]. rewrite El in Hcons. auto.
    + intros u [->|Hu]%elem_of_cons; auto.
Qed.

Lemma mask_attribution (m : Manager) urls d mk :
  urls <> [] -> sourceNames m = take maxTrackedSources urls ->
  (0 <= mk)%Z -> bit_ok d urls 0 mk -> sourcesFromMask m mk = attribution urls d.
Proof.
  intros Hne Hn Hmk Hb. unfold sourcesFromMask, attribution. rewrite Hn.
  assert (length (take maxTrackedSources urls) <> 0) as Hlen.
  { rewrite length_take. destruct urls; cbn; [done|]. unfold maxTrackedSources. lia. }
  rewrite (proj2 (Nat.eqb_neq _ _) Hlen). rewrite (proj2 (Nat.ltb_lt 0 _)) by lia.
  cbn [andb]. rewrite andb_true_r.
  assert (mask_names mk 0 (take maxTrackedSources urls) =
          filter (fun n => listed d n = true) (take maxTrackedSources urls)) as ->.
  { apply mask_names_filter; [|rewrite length_take; lia].
    intros k n [Hk Hlt]%lookup_take_Some. cbn. apply eq_bool_prop_intro.
    rewrite !Is_true_true, (Hb k), Nat.sub_0_r. naive_solver lia. }
  destruct (Z.eqb_spec mk 0) as [->|Hnz].
  - destruct (filter _ _) as [|n ns] eqn:E; [done|].
    assert (n ∈ filter (fun n => listed d n = true) (take maxTrackedSources urls)) as Hin
      by (rewrite E; left).
    apply list_elem_of_filter in Hin as [Hl [k [Hk Hlt]%lookup_take_Some]%list_elem_of_lookup].
    specialize (Hb k). rewrite Z.bits_0, Nat.sub_0_r in Hb. exfalso.
    assert (false = true) by (apply Hb; naive_solver lia). done.
  - destruct (filter _ _) as [|n ns] eqn:E; [|done]. exfalso. apply Hnz, Z.bits_inj'.
    intros j Hj. rewrite Z.bits_0. destruct (Z.testbit mk j) eqn:Ej; [|done].
    rewrite <- (Z2Nat.id j Hj) in Ej. apply Hb in Ej as (Hlt & _ & u & Hu & Hl).
    rewrite Nat.sub_0_r in Hu. destruct (not_elem_of_nil u). rewrite <- E.
    apply list_elem_of_filter. split; [done|].
    apply list_elem_of_lookup. exists (Z.to_nat j). by apply lookup_take_Some.
Qed.

Context {DLok : DnsLibOk DL}.

(** The assumptions on what the servers send: no NUL byte, and packed names
    that fit the 32-bit offsets. *)
Definition sources_fit (urls : list gostring) : Prop :=
  (forall url resp, url ∈ urls -> HttpGet url = Some resp -> NUL ∉ Body resp) /\
  (Z.of_nat (map_bytes (merge_map (download_lists HttpGet 0 urls))) < 2 ^ 32)%Z.

Lemma download_lists_elem urls i l :
  l ∈ download_lists HttpGet i urls ->
  exists url, url ∈ urls /\ DownloadSorted HttpGet url = Ok (domains l).
Proof.
  revert i. induction urls as [|url urls IH]; intros i; cbn; [by intros ?%not_elem_of_nil|].
  destruct (DownloadSorted HttpGet url) as [ds|] eqn:E.
  - intros [->|H]%elem_of_cons; [exists url; split; [left|done]|].
    destruct (IH _ H) as (u & ? & ?). exists u. split; [by right|done].
  - intros H. destruct (IH _ H) as (u & ? & ?). exists u. split; [by right|done].
Qed.

Lemma download_lists_ok urls i : Forall list_ok (download_lists HttpGet i urls).
Proof using DLok.
  apply Forall_forall. intros l (url & _ & H)%download_lists_elem.
  apply DownloadSorted_good in H as (Hs & Hg & _). split; [done|].
  eapply Forall_impl; [done|]. intros [|] [_ ?]; cbn in *; [lia|done].
Qed.

(** A lookup in the merged structure is the union of the listing sources. *)
Lemma Lookup_download urls d :
  sources_fit urls ->
  Lookup (BuildFromSortedLists (download_lists HttpGet 0 urls)) d =
  mask_of d (source_pairs (download_lists HttpGet 0 urls)).
Proof using DLok.
  intros [Hnul Hsz]. rewrite BuildFromSortedLists_map by apply download_lists_ok.
  rewrite Lookup_BuildFlat, merge_map_lookup; [done| |done].
  intros k. rewrite merge_map_lookup, mask_of_Some. intros (r & Hr & Hk) H0.
  apply list_elem_of_fmap in Hr as (l & -> & Hl). cbn in Hk.
  apply download_lists_elem in Hl as (url & Hu & Hd).
  apply DownloadSorted_good in Hd as (_ & _ & resp & Hresp & Hb).
  destruct (Hb k NUL Hk H0) as [?|?]; [done|]. by eapply Hnul.
Qed.

Lemma Len_zero_Lookup f d : Len f = 0 -> Lookup f d = None.
Proof. unfold Len, Lookup. by intros ->. Qed.

(** [Match] in terms of lookups, whatever the blocklist. *)
Lemma Match_lookup (m : Manager) domain :
  domain <> [] ->
  Match m domain =
  match LookupSubdomains (current m) (match_fqdn domain) with
  | Some (mask, kind) => MkMatch true (kind_string kind) [] (sourcesFromMask m mask)
  | None => pattern_match m (take (length (match_fqdn domain) - 1) (match_fqdn domain))
  end.
Proof.
  intros Hd. unfold Match. unfold bytes_eqb. rewrite bool_decide_eq_false_2 by done.
  destruct (Nat.ltb_spec 0 (Len (current m))); [done|].
  unfold LookupSubdomains. unfold Len in *. by replace (length (offs (current m))) with 0 by lia.
Qed.

Lemma Update_names now (m : Manager) :
  Blocklists (cfg m) <> [] -> updateLocked m = false ->
  current (Update HttpGet now m) = BuildFromSortedLists (download_lists HttpGet 0 (Blocklists (cfg m))) /\
  sourceNames (Update HttpGet now m) = take maxTrackedSources (Blocklists (cfg m)).
Proof.
  intros Hne Hl. unfold Update, downloadAndMerge.
  destruct (Blocklists (cfg m)) as [|u us] eqn:E; [done|]. cbn [length Nat.eqb]. rewrite Hl.
  cbn [current sourceNames]. split; [done|].
  change (S (length us)) with (length (u :: us)).
  destruct (Nat.ltb_spec maxTrackedSources (length (u :: us))); [done|].
  by rewrite take_ge by lia.
Qed.

(** C2: end to end: after an update, [Match] blocks a name as [exact] exactly
    when some configured source lists it (after the update's lower-casing of
    the query), attributing it to precisely the tracked sources that list it;
    as [subdomain] when only a parent is listed, attributing the most specific
    one; and otherwise answers from the patterns. *)
Theorem manager_match_spec (now : Z) (m : Manager) (domain : gostring)
    (Hne : Blocklists (cfg m) <> []) (Hlock : updateLocked m = false)
    (Hfit : sources_fit (Blocklists (cfg m))) (Hd : domain <> []) :
  let m' := Update HttpGet now m in
  let urls := Blocklists (cfg m) in
  let q := match_fqdn domain in
  let is_listed d := exists url, url ∈ urls /\ listed d url = true in
  (is_listed q /\ Match m' domain = MkMatch true (str "exact") [] (attribution urls q)) \/
  (~ is_listed q /\ exists s, proper_parent q s /\ is_listed s /\
     (forall s', proper_parent q s' -> length s < length s' -> ~ is_listed s') /\
     Match m' domain = MkMatch true (str "subdomain") [] (attribution urls s)) \/
  (~ is_listed q /\ (forall s, proper_parent q s -> ~ is_listed s) /\
     Match m' domain = pattern_match m (take (length q - 1) q)).
Proof using DLok.
  intros m' urls q is_listed. destruct (Update_names now m Hne Hlock) as [Hcur Hnames].
  assert (forall d, match Lookup (current m') d with
    | None => ~ is_listed d
    | Some mk => is_listed d /\ sourcesFromMask m' mk = attribution urls d end) as HL.
  { intros d. unfold m'. rewrite Hcur, Lookup_download by done.
    pose proof (download_mask d urls 0) as Hm. unfold urls in *. destruct (mask_of d _).
    - destruct Hm as (Hex & H0 & Hb). split; [done|]. by apply mask_attribution.
    - intros (url & Hu%Hm & Hl). congruence. }
  assert (forall d, Lookup (current m') d = None -> ~ is_listed d) as HN.
  { intros d E. specialize (HL d). by rewrite E in HL. }
  rewrite Match_lookup by done. fold q.
  pose proof (LookupSubdomains_spec (current m') q) as Hs.
  destruct (LookupSubdomains (current m') q) as [[mk [|]]|].
  - left. specialize (HL q). rewrite Hs in HL. destruct HL as [? ->]. done.
  - right; left. destruct Hs as (Hq & s & Hp & Hl & Hmax). split; [auto|].
    specialize (HL s). rewrite Hl in HL. destruct HL as [? ->]. exists s. eauto 10.
  - right; right. destruct Hs as [Hq Hp]. split; [auto|]. split; [eauto|].
    unfold pattern_match. unfold m', Update. by destruct (_ =? _), (updateLocked m).
Qed.

End attribution.

(** ** Case of the list entries *)

Lemma match_fqdn_lower domain : ToLower (match_fqdn domain) = match_fqdn domain.
Proof.
  unfold match_fqdn. case_bool_decide; rewrite ?ToLower_app, ToLower_idem; done.
Qed.

(** An entry with an upper-case letter is never the listed name a query is
    matched against, neither itself nor as a parent: the sources are stored as
    downloaded and only the query is lower-cased. *)
Lemma uppercase_entry_unreachable (d domain : gostring) (Hup : ToLower d <> d) :
  match_fqdn domain <> d /\ ~ proper_parent (match_fqdn domain) d.
Proof.
  pose proof (match_fqdn_lower domain) as H. split.
  - intros E. by rewrite E in H.
  - intros [[k E] _]. rewrite E, ToLower_app in H.
    apply app_inj_1 in H as [_ H]; [|apply length_ToLower]. by injection H.
Qed.

Lemma uppercase_entry_unreachable_witness :
  ToLower (str "Ads.Example.com.") <> str "Ads.Example.com." /\
  match_fqdn (str "Ads.Example.com") <> str "Ads.Example.com.".
Proof.
  split; [by vm_compute|].
  apply (uppercase_entry_unreachable (str "Ads.Example.com.") (str "Ads.Example.com")).
  by vm_compute.
Defined.

(** ** Sequences of operations *)

Section operations.
Context {RX : RegexpLib} {DL : DnsLib}.
Context (HttpGet : gostring -> option HttpResponse).

(** The state invariant: the recorded size is the size of the list in use, the
    gauge moved by as much since the start, the update lock is free between
    operations, a started manager has an open stop channel, and the update loop
    runs only while started. *)
Record manager_ok (g : option Z) (m : Manager) : Prop := {
  ok_size : lastSize m = Z.of_nat (Len (current m));
  ok_gauge : BlocklistSize m = (fun g0 => (g0 + lastSize m)%Z) <$> g;
  ok_lock : updateLocked m = false;
  ok_stop : started m = true -> stopClosed m = false;
  ok_loop : loopRunning m = true -> started m = true
}.

Lemma NewManager_ok c g : manager_ok g (NewManager c g).
Proof. split; try done. destruct g; cbn; f_equal. lia. Qed.

Lemma Update_ok now g m : manager_ok g m -> manager_ok g (Update HttpGet now m).
Proof.
  intros [H1 H2 H3 H4 H5]. unfold Update. destruct (_ =? _); [done|]. rewrite H3.
  split; cbn; try done. rewrite H2. destruct g; cbn; f_equal. lia.
Qed.

Lemma with_lifecycle_ok g m s c t l :
  manager_ok g m -> (s = true -> c = false) -> (l = true -> s = true) ->
  manager_ok g (with_lifecycle m s c t l).
Proof. intros [] ??. by split. Qed.

Lemma Update_lifecycle now m :
  started (Update HttpGet now m) = started m /\ stopClosed (Update HttpGet now m) = stopClosed m.
Proof. unfold Update. by destruct (_ =? _), (updateLocked m). Qed.

Lemma run_op_ok o g m :
  manager_ok g m -> exists m', run_op HttpGet o m = Some m' /\ manager_ok g m'.
Proof.
  intros Hok. destruct o; cbn.
  - eexists. split; [done|]. by apply Update_ok.
  - eexists. split; [done|]. destruct Hok. by split.
  - eexists. split; [done|]. unfold SetPatterns. destruct (_ =? _); [destruct Hok; by split|].
    destruct (NewMatcher ps); [|done]. destruct Hok. by split.
  - eexists. split; [done|]. unfold Start. destruct (started m) eqn:Es; [done|].
    set (m0 := with_lifecycle m _ _ _ _).
    assert (manager_ok g (Update HttpGet now m0)) as Hm.
    { apply Update_ok, with_lifecycle_ok; [done..|]. intros H. by apply (ok_loop _ _ Hok) in H. }
    destruct (Update_lifecycle now m0) as [E1 E2]. cbn in E1, E2.
    destruct (_ && _); [|done]. apply with_lifecycle_ok; [done| |]; by rewrite ?E1, ?E2.
  - unfold Stop. destruct (started m) eqn:Es; cbn; [|by eexists].
    rewrite (ok_stop _ _ Hok Es). eexists. split; [done|]. by apply with_lifecycle_ok.
  - eexists. split; [done|]. unfold updateLoop_tick. destruct (_ && _); [by apply Update_ok|done].
Qed.

(** No sequence of operations on a new manager panics (the stop channel is
    never closed twice), and after any of them the recorded size is that of the
    list in use, the exported gauge has moved by exactly that size, the update
    lock is free, and the update loop runs only while the manager is started. *)
Theorem manager_ops_safe (c : BlocklistConfig) (g : option Z) (os : list Op) :
  exists m, run_ops HttpGet os (NewManager c g) = Some m /\
    lastSize m = Z.of_nat (Size m) /\
    BlocklistSize m = (fun g0 => (g0 + Z.of_nat (Size m))%Z) <$> g /\
    updateLocked m = false /\
    (loopRunning m = true -> started m = true /\ stopClosed m = false).
Proof.
  assert (forall m, manager_ok g m -> exists m', run_ops HttpGet os m = Some m' /\ manager_ok g m') as H.
  { induction os as [|o os IH]; intros m Hm; cbn; [by eexists|].
    destruct (run_op_ok o g m Hm) as (m' & -> & Hm'). by apply IH. }
  destruct (H _ (NewManager_ok c g)) as (m & -> & []). exists m. unfold Size.
  rewrite <- ok_size0. naive_solver.
Qed.

End operations.

(** ** A concrete update *)

Definition no_regexp : RegexpLib := {|
  Regexp := unit; regexp_Compile _ := None; regexp_MatchString _ _ := false
|}.

Definition sample_config : BlocklistConfig :=
  MkBlocklistConfig [str "http://l/none"; str "http://l/hosts"] false 0.

Lemma manager_match_spec_witness :
  DnsLibOk simple_dns /\
  Match (@Update no_regexp simple_dns sample_get 7 (@NewManager no_regexp sample_config None))
    (str "X.Ads.example.COM")
  = MkMatch true (str "subdomain") [] [str "http://l/hosts"].
Proof.
  split; [apply simple_dns_ok|].
  assert (@sources_fit simple_dns sample_get (Blocklists sample_config)) as Hfit.
  { split.
    - intros url resp _ H. unfold sample_get in H. destruct (bytes_eqb _ _); simplify_eq.
      apply (bool_decide_unpack _). by vm_compute.
    - by vm_compute. }
  destruct (@manager_match_spec no_regexp simple_dns sample_get simple_dns_ok 7
    (@NewManager no_regexp sample_config None) (str "X.Ads.example.COM")
    ltac:(done) eq_refl Hfit ltac:(done)) as [[_ H]|[(_ & s & _ & _ & _ & H)|(_ & _ & H)]].
  - exfalso. revert H. by vm_compute.
  - by vm_compute.
  - exfalso. revert H. by vm_compute.
Defined.
