(* ===== verification/CacheCore.v ===== *)
(** * The response cache: entries, keys, lifetimes and the interface
    (pkg/cache/cache.go, pkg/cache/interface.go)

    What the two cache implementations share, and the contract the DNS handler
    relies on: the class [CacheImpl] of operations with its laws, and the
    theorem that every implementation only ever serves what an unbounded ideal
    cache would serve.  Times and durations are nanoseconds in [Z]; the order
    in which Go iterates over a map is an argument of the operations that
    iterate ([MapOrder]). *)

From Stdlib Require Import Ascii.
From S2P Require Import Prelude GoStrings DnsMsg.
From stdpp Require Import options.
Local Open Scope Z_scope.

Record BlockTraceEntry := MkTrace {
  Stage : gostring; Action : gostring; Rule : gostring; Source : gostring;
  Detail : gostring; Metadata : gmap gostring gostring
}.

Record CacheConfig := MkCacheConfig {
  Enabled : bool; MaxEntries : Z; MinTTL : Z; MaxTTL : Z; NegativeTTL : Z; BlockedTTL : Z;
  ShardCount : Z
}.

Record cacheEntry := MkEntry {
  blockTrace : list BlockTraceEntry;
  expiresAt : Z;
  e_msg : Msg;
  e_size : Z;
  lastAccessNano : Z
}.

Definition touch (now : Z) (e : cacheEntry) : cacheEntry :=
  MkEntry (blockTrace e) (expiresAt e) (e_msg e) (e_size e) now.

Definition cloneBlockTrace (entries : list BlockTraceEntry) : list BlockTraceEntry := entries.

Definition hasBlocklistTrace (traces : list BlockTraceEntry) : bool :=
  existsb (fun t => bytes_eqb (Stage t) (str "blocklist")) traces.

(** ** Keys *)

(** The digit loop of [cacheKey]: the decimal digits of a [uint16], written
    from the end of a five-byte buffer. *)
Definition digit (n : Z) : ascii := chr (48 + n).

Fixpoint qtype_digits (fuel : nat) (q : Z) (buf : gostring) : gostring :=
  match fuel with
  | 0%nat => buf
  | S fuel' =>
      let buf := digit (q mod 10) :: buf in
      if q / 10 =? 0 then buf else qtype_digits fuel' (q / 10) buf
  end.

Definition cacheKey (domain : gostring) (qtype : Z) (do cd : bool) : gostring :=
  let key := domain ++ str ":" ++ qtype_digits 5 qtype [] in
  let key := if do then key ++ str ":D" else key in
  if cd then key ++ str ":C" else key.

Section keys.
Context {DL : DnsLib}.

(** [makeMsgKey] and [makeMsgKeySharded]. *)
Definition makeMsgKey (r : Msg) : gostring :=
  match Msg_Question r with
  | [] => []
  | q :: _ =>
      let do := match IsEdns0 r with Some opt => opt_Do opt | None => false end in
      cacheKey (q_Name q) (q_Qtype q) do (CheckingDisabled r)
  end.

End keys.

(** ** Lifetimes *)

Definition second : Z := 1000000000.

Definition min_ttl_loop (answers : list RR) : Z :=
  foldl (fun minTTL rr =>
           let ttl := Hdr_Ttl (RR_hdr rr) in
           if (minTTL =? 0) || (ttl <? minTTL) then ttl else minTTL) 0 answers.

Definition determineTTL (cfg : CacheConfig) (resp : Msg) : Z :=
  if (Rcode resp =? RcodeNameError) || bool_decide (Answer resp = []) then NegativeTTL cfg
  else
    let minTTL := min_ttl_loop (Answer resp) in
    if minTTL =? 0 then NegativeTTL cfg
    else
      let ttl := minTTL * second in
      let ttl := if ttl <? MinTTL cfg then MinTTL cfg else ttl in
      if MaxTTL cfg <? ttl then MaxTTL cfg else ttl.

(** ** Eviction *)

Notation Entries := (gmap gostring cacheEntry).

(** The order of one [range] over the map: some enumeration of it. *)
Record MapOrder := {
  iterate : Entries -> list (gostring * cacheEntry);
  iterate_perm : forall m, iterate m ≡ₚ map_to_list m
}.

Definition default_order : MapOrder := {| iterate := map_to_list; iterate_perm m := reflexivity _ |}.

Definition sampleSize : nat := 5.

(** The loop over the candidates: the first strict minimum. *)
Definition oldest_step (best c : gostring * cacheEntry) : gostring * cacheEntry :=
  if lastAccessNano c.2 <? lastAccessNano best.2 then c else best.

(** The key the sampled eviction deletes; [None] on an empty map. *)
Definition lru_victim (ord : MapOrder) (m : Entries) : option gostring :=
  match take sampleSize (iterate ord m) with
  | [] => None
  | c :: cs => Some (foldl oldest_step c cs).1
  end.

Definition expired (now : Z) (e : cacheEntry) : bool := expiresAt e <? now.

Definition live (now : Z) (m : Entries) : Entries := filter (fun ke => expired now ke.2 = false) m.

(** ** The interface

    [stored] is what the handler can observe of an entry. *)

Notation Stored := (Msg * list BlockTraceEntry * Z)%type.
Definition stored (e : cacheEntry) : Stored := (e_msg e, blockTrace e, expiresAt e).

Class CacheImpl (C : Type) := {
  c_cfg : C -> CacheConfig;
  c_GetWithTrace : Z -> Msg -> C -> C * option (Msg * list BlockTraceEntry);
  c_Set : MapOrder -> Z -> Msg -> Msg -> C -> C;
  c_SetWithTrace : MapOrder -> Z -> Msg -> Msg -> list BlockTraceEntry -> C -> C;
  c_SetBlocked : MapOrder -> Z -> Msg -> Msg -> list BlockTraceEntry -> C -> C;
  c_cleanup : Z -> C -> C;
  c_Clear : C -> C;
  c_ClearBlocklistDecisions : C -> C
}.

(** The ideal cache: an unbounded map that never loses an entry. *)
Notation Ideal := (gmap gostring Stored).

Section ideal.
Context {DL : DnsLib}.

Definition ideal_store (ttl now : Z) (r resp : Msg) (tr : list BlockTraceEntry) (m : Ideal) : Ideal :=
  if bool_decide (Msg_Question r = []) || (ttl <=? 0) then m
  else <[makeMsgKey r := (resp, tr, now + ttl)]> m.

Definition ideal_get (now : Z) (r : Msg) (m : Ideal) : option (Msg * list BlockTraceEntry) :=
  if bool_decide (Msg_Question r = []) then None
  else match m !! makeMsgKey r with
       | Some (msg, tr, x) => if x <? now then None else Some (msg, tr)
       | None => None
       end.

Inductive CacheOp :=
| OpGet (now : Z) (r : Msg)
| OpSet (ord : MapOrder) (now : Z) (r resp : Msg)
| OpSetWithTrace (ord : MapOrder) (now : Z) (r resp : Msg) (tr : list BlockTraceEntry)
| OpSetBlocked (ord : MapOrder) (now : Z) (r resp : Msg) (tr : list BlockTraceEntry)
| OpCleanup (now : Z)
| OpClear
| OpClearBlocklistDecisions.

Definition ideal_op (cfg : CacheConfig) (o : CacheOp) (m : Ideal)
    : Ideal * option (Msg * list BlockTraceEntry) :=
  match o with
  | OpGet now r => (m, ideal_get now r m)
  | OpSet _ now r resp => (ideal_store (determineTTL cfg resp) now r resp [] m, None)
  | OpSetWithTrace _ now r resp tr => (ideal_store (determineTTL cfg resp) now r resp tr m, None)
  | OpSetBlocked _ now r resp tr => (ideal_store (BlockedTTL cfg) now r resp tr m, None)
  | OpCleanup _ => (m, None)
  | OpClear | OpClearBlocklistDecisions => (∅, None)
  end.

(** What an implementation promises: its contents, seen as an ideal map, never
    exceed what the ideal operation gives; a get answers exactly from them; and
    when the cache is on, a store is visible. *)
Class CacheImplOk (C : Type) `{CI : CacheImpl C} := {
  c_inv : C -> Prop;
  c_abs : C -> Ideal;
  c_on : C -> bool;
  c_get_ok now r c : c_inv c ->
    let '(c', res) := c_GetWithTrace now r c in
    c_inv c' /\ c_cfg c' = c_cfg c /\ c_on c' = c_on c /\ c_abs c' ⊆ c_abs c /\
    res = if c_on c then ideal_get now r (c_abs c) else None;
  c_SetWithTrace_ok ord now r resp tr c : c_inv c ->
    let c' := c_SetWithTrace ord now r resp tr c in
    let ttl := determineTTL (c_cfg c) resp in
    c_inv c' /\ c_cfg c' = c_cfg c /\ c_on c' = c_on c /\
    c_abs c' ⊆ ideal_store ttl now r resp tr (c_abs c) /\
    (c_on c = true -> Msg_Question r <> [] -> 0 < ttl ->
     c_abs c' !! makeMsgKey r = Some (resp, tr, now + ttl));
  c_Set_ok ord now r resp c : c_Set ord now r resp c = c_SetWithTrace ord now r resp [] c;
  c_SetBlocked_ok ord now r resp tr c : c_inv c ->
    let c' := c_SetBlocked ord now r resp tr c in
    let ttl := BlockedTTL (c_cfg c) in
    c_inv c' /\ c_cfg c' = c_cfg c /\ c_on c' = c_on c /\
    c_abs c' ⊆ ideal_store ttl now r resp tr (c_abs c) /\
    (c_on c = true -> Msg_Question r <> [] -> 0 < ttl ->
     c_abs c' !! makeMsgKey r = Some (resp, tr, now + ttl));
  c_cleanup_ok now c : c_inv c ->
    c_inv (c_cleanup now c) /\ c_cfg (c_cleanup now c) = c_cfg c /\
    c_on (c_cleanup now c) = c_on c /\ c_abs (c_cleanup now c) ⊆ c_abs c;
  c_Clear_ok c : c_inv c ->
    c_inv (c_Clear c) /\ c_cfg (c_Clear c) = c_cfg c /\ c_on (c_Clear c) = c_on c /\
    c_abs (c_Clear c) = ∅;
  c_ClearBlocklistDecisions_ok c : c_inv c ->
    c_inv (c_ClearBlocklistDecisions c) /\ c_cfg (c_ClearBlocklistDecisions c) = c_cfg c /\
    c_on (c_ClearBlocklistDecisions c) = c_on c /\ c_abs (c_ClearBlocklistDecisions c) = ∅
}.

(** ** Clients of the interface *)

Section client.
Context {C : Type} {CI : CacheImpl C}.

Definition cache_op (o : CacheOp) (c : C) : C * option (Msg * list BlockTraceEntry) :=
  match o with
  | OpGet now r => c_GetWithTrace now r c
  | OpSet ord now r resp => (c_Set ord now r resp c, None)
  | OpSetWithTrace ord now r resp tr => (c_SetWithTrace ord now r resp tr c, None)
  | OpSetBlocked ord now r resp tr => (c_SetBlocked ord now r resp tr c, None)
  | OpCleanup now => (c_cleanup now c, None)
  | OpClear => (c_Clear c, None)
  | OpClearBlocklistDecisions => (c_ClearBlocklistDecisions c, None)
  end.

Fixpoint run_cache (os : list CacheOp) (c : C) : C * list (option (Msg * list BlockTraceEntry)) :=
  match os with
  | [] => (c, [])
  | o :: os' =>
      let '(c, x) := cache_op o c in
      let '(c, xs) := run_cache os' c in (c, x :: xs)
  end.

Fixpoint run_ideal (cfg : CacheConfig) (os : list CacheOp) (m : Ideal)
    : Ideal * list (option (Msg * list BlockTraceEntry)) :=
  match os with
  | [] => (m, [])
  | o :: os' =>
      let '(m, x) := ideal_op cfg o m in
      let '(m, xs) := run_ideal cfg os' m in (m, x :: xs)
  end.

(** A real answer is a miss or the ideal answer. *)
Definition served_ok (real ideal : option (Msg * list BlockTraceEntry)) : Prop :=
  real = None \/ real = ideal.

Lemma ideal_store_mono (ttl now : Z) (r resp : Msg) (tr : list BlockTraceEntry) (m1 m2 : Ideal) :
  m1 ⊆ m2 -> ideal_store ttl now r resp tr m1 ⊆ ideal_store ttl now r resp tr m2.
Proof. intros H. unfold ideal_store. destruct (_ || _); [done|]. by apply insert_mono. Qed.

Lemma ideal_get_mono (now : Z) (r : Msg) (m1 m2 : Ideal) :
  m1 ⊆ m2 -> served_ok (ideal_get now r m1) (ideal_get now r m2).
Proof.
  intros H. unfold served_ok, ideal_get. destruct (bool_decide _); [by left|].
  destruct (m1 !! _) as [[[msg tr] x]|] eqn:E; [|by left].
  rewrite (lookup_weaken _ _ _ _ E H). auto.
Qed.

Context {COK : CacheImplOk C}.

Lemma cache_op_sim (o : CacheOp) (c : C) (m : Ideal) :
  c_inv c -> c_abs c ⊆ m ->
  let '(c', x) := cache_op o c in
  let '(m', y) := ideal_op (c_cfg c) o m in
  c_inv c' /\ c_cfg c' = c_cfg c /\ c_on c' = c_on c /\ c_abs c' ⊆ m' /\ served_ok x y.
Proof.
  intros Hi Hs. destruct o as [now r|ord now r resp|ord now r resp tr|ord now r resp tr|now| |]; cbn.
  - pose proof (c_get_ok now r c Hi) as H. destruct (c_GetWithTrace now r c) as [c' res].
    destruct H as (? & ? & ? & ? & ->). repeat split; try done; [by etrans|].
    destruct (c_on c); [by apply ideal_get_mono|by left].
  - rewrite c_Set_ok. destruct (c_SetWithTrace_ok ord now r resp [] c Hi) as (? & ? & ? & H & _).
    repeat split; try done; [|by left]. etrans; [exact H|by apply ideal_store_mono].
  - destruct (c_SetWithTrace_ok ord now r resp tr c Hi) as (? & ? & ? & H & _).
    repeat split; try done; [|by left]. etrans; [exact H|by apply ideal_store_mono].
  - destruct (c_SetBlocked_ok ord now r resp tr c Hi) as (? & ? & ? & H & _).
    repeat split; try done; [|by left]. etrans; [exact H|by apply ideal_store_mono].
  - destruct (c_cleanup_ok now c Hi) as (? & ? & ? & ?).
    repeat split; try done; [by etrans|by left].
  - destruct (c_Clear_ok c Hi) as (? & ? & ? & ->). repeat split; try done. by left.
  - destruct (c_ClearBlocklistDecisions_ok c Hi) as (? & ? & ? & ->). repeat split; try done. by left.
Qed.

Lemma run_cache_sim (os : list CacheOp) (c : C) (m : Ideal) :
  c_inv c -> c_abs c ⊆ m ->
  c_inv (run_cache os c).1 /\ c_cfg (run_cache os c).1 = c_cfg c /\
  c_on (run_cache os c).1 = c_on c /\
  c_abs (run_cache os c).1 ⊆ (run_ideal (c_cfg c) os m).1 /\
  Forall2 served_ok (run_cache os c).2 (run_ideal (c_cfg c) os m).2.
Proof.
  revert c m. induction os as [|o os IH]; intros c m Hi Hs; cbn; [by repeat split|].
  pose proof (cache_op_sim o c m Hi Hs) as H.
  destruct (cache_op o c) as [c' x], (ideal_op (c_cfg c) o m) as [m' y].
  destruct H as (Hi' & Hcfg & Hon & Hs' & Hxy). specialize (IH c' m' Hi' Hs'). rewrite Hcfg in IH.
  destruct (run_cache os c') as [c'' xs], (run_ideal (c_cfg c) os m') as [m'' ys]. cbn in *.
  destruct IH as (? & ? & ? & ? & ?). repeat split; try done; [congruence|by constructor].
Qed.

End client.
End ideal.

(** ** Keys determine the request *)

Definition is_digit_byte (c : ascii) : Prop := 48 <= code c <= 57.

Lemma code_digit n : 0 <= n < 10 -> code (digit n) = 48 + n.
Proof. intros H. unfold digit, code, chr. rewrite N_ascii_embedding; lia. Qed.

Definition decode_step (acc : Z) (c : ascii) : Z := acc * 10 + (code c - 48).

Lemma qtype_digits_value fuel q buf :
  0 <= q < 10 ^ Z.of_nat fuel ->
  foldl decode_step 0 (qtype_digits fuel q buf) = foldl decode_step q buf.
Proof.
  revert q buf. induction fuel as [|fuel IH]; intros q buf Hq.
  { replace q with 0 by (cbn in Hq; lia). done. }
  cbn [qtype_digits]. pose proof (Z.mod_pos_bound q 10 ltac:(lia)) as Hm.
  pose proof (Z.div_mod q 10 ltac:(lia)) as Hd.
  destruct (Z.eqb_spec (q / 10) 0) as [E|E].
  - cbn. unfold decode_step at 2. rewrite code_digit by done. f_equal. lia.
  - rewrite IH. { cbn. unfold decode_step at 2. rewrite code_digit by done. f_equal. lia. }
    split; [apply Z.div_pos; lia|]. apply Z.div_lt_upper_bound; [lia|].
    rewrite Nat2Z.inj_succ, Z.pow_succ_r in Hq by lia. lia.
Qed.

Lemma qtype_digits_digits fuel q buf :
  Forall is_digit_byte buf -> Forall is_digit_byte (qtype_digits fuel q buf).
Proof.
  revert q buf. induction fuel as [|fuel IH]; intros q buf Hb; cbn; [done|].
  pose proof (Z.mod_pos_bound q 10 ltac:(lia)) as Hm.
  assert (Forall is_digit_byte (digit (q mod 10) :: buf)) as H.
  { constructor; [|done]. unfold is_digit_byte. rewrite code_digit by done. lia. }
  destruct (q / 10 =? 0); [done|]. by apply IH.
Qed.

Lemma qtype_digits_nonempty fuel q buf : qtype_digits (S fuel) q buf <> [].
Proof.
  revert q buf. induction fuel as [|fuel IH]; intros q buf; cbn [qtype_digits].
  - by destruct (q / 10 =? 0).
  - destruct (q / 10 =? 0); [done|]. apply (IH (q / 10)).
Qed.

Lemma last_app_ne {A} (a b : list A) : b <> [] -> last (a ++ b) = last b.
Proof. intros Hb. rewrite last_app. destruct (last b) eqn:E; [done|]. by apply last_None in E. Qed.

Definition key_tail (q : Z) : gostring := str ":" ++ qtype_digits 5 q [].

Lemma key_tail_last q : exists c, last (key_tail q) = Some c /\ is_digit_byte c.
Proof.
  unfold key_tail. rewrite last_app_ne by apply qtype_digits_nonempty.
  pose proof (qtype_digits_digits 5 q [] (Forall_nil_2 _)) as Hd.
  destruct (last (qtype_digits 5 q [])) as [c|] eqn:E.
  - exists c. split; [done|]. rewrite Forall_forall in Hd. apply Hd. by apply last_Some_elem_of.
  - apply last_None in E. by apply qtype_digits_nonempty in E.
Qed.

Lemma cacheKey_base_inj d1 d2 q1 q2 :
  0 <= q1 < 2 ^ 16 -> 0 <= q2 < 2 ^ 16 ->
  d1 ++ key_tail q1 = d2 ++ key_tail q2 -> d1 = d2 /\ q1 = q2.
Proof.
  intros H1 H2 H. unfold key_tail in H. cbn [app str] in H.
  assert (forall q, ":"%char ∉ qtype_digits 5 q []) as Hno.
  { intros q Hin. pose proof (qtype_digits_digits 5 q [] (Forall_nil_2 _)) as Hd.
    rewrite Forall_forall in Hd. specialize (Hd _ Hin). destruct Hd as [_ Hd].
    vm_compute in Hd. exact (Hd eq_refl). }
  apply not_elem_of_app_cons_inv_r in H as (-> & _ & H); [|done..]. split; [done|].
  apply (f_equal (foldl decode_step 0)) in H. by rewrite !qtype_digits_value in H by lia.
Qed.

Lemma cacheKey_shape d q do cd :
  cacheKey d q do cd =
  d ++ key_tail q ++ (if do then str ":D" else []) ++ (if cd then str ":C" else []).
Proof. unfold cacheKey, key_tail. destruct do, cd; cbn; rewrite ?app_nil_r, <- ?app_assoc; done. Qed.

(** A flag suffix can be read off the last byte. *)
Lemma flag_strip (a b : gostring) (f1 f2 : bool) (c x : ascii) :
  last a <> Some x -> last b <> Some x ->
  a ++ (if f1 then [c; x] else []) = b ++ (if f2 then [c; x] else []) -> f1 = f2 /\ a = b.
Proof.
  intros Ha Hb H. pose proof (f_equal last H) as HL. destruct f1, f2.
  - by apply app_inj_2 in H as [-> _].
  - rewrite app_nil_r, last_app in HL. cbn in HL. congruence.
  - rewrite app_nil_r, last_app in HL. cbn in HL. congruence.
  - by rewrite !app_nil_r in H.
Qed.

Lemma key_base_last d q x :
  code x < 48 \/ 57 < code x -> last (d ++ key_tail q) <> Some x.
Proof.
  intros Hx H. destruct (key_tail_last q) as (c & L & Hd).
  rewrite last_app, L in H. unfold is_digit_byte in Hd. simplify_eq. lia.
Qed.

(** The cache key determines the request: two keys coincide exactly when
    the names, the query types and both DNSSEC flags do, whatever bytes (colons
    and digits included) the names contain. *)
Theorem cache_key_injective (d1 d2 : gostring) (q1 q2 : Z) (do1 do2 cd1 cd2 : bool)
    (H1 : 0 <= q1 < 2 ^ 16) (H2 : 0 <= q2 < 2 ^ 16) :
  cacheKey d1 q1 do1 cd1 = cacheKey d2 q2 do2 cd2 <->
  d1 = d2 /\ q1 = q2 /\ do1 = do2 /\ cd1 = cd2.
Proof.
  split; [|by intros (-> & -> & -> & ->)]. rewrite !cacheKey_shape, !app_assoc. intros H.
  assert (code "C" = 67 /\ code "D" = 68) as [EC ED] by done.
  assert (forall d q f, last ((d ++ key_tail q) ++ (if f : bool then str ":D" else [])) <> Some "C"%char) as HC.
  { intros d q [|]; [by rewrite last_app|]. rewrite app_nil_r. apply key_base_last. lia. }
  apply (flag_strip _ _ cd1 cd2 ":" "C") in H as [-> H]; [|apply HC..].
  apply (flag_strip _ _ do1 do2 ":" "D") in H as [-> H]; [|apply key_base_last; lia..].
  by apply cacheKey_base_inj in H as [-> ->].
Qed.

Lemma cache_key_injective_witness :
  (0 <= 1 < 2 ^ 16) /\ (0 <= 28 < 2 ^ 16) /\
  cacheKey (str "a:1") 28 true false <> cacheKey (str "a") 1 true false.
Proof.
  split; [lia|]. split; [lia|]. intros H.
  apply (cache_key_injective (str "a:1") (str "a") 28 1 true true false false ltac:(lia) ltac:(lia)) in H.
  by destruct H as (_ & ? & _).
Defined.

(** ** Lifetimes *)

(** The smallest of a non-empty list of TTLs. *)
Definition smallest (ttls : list Z) (n : Z) : Prop := n ∈ ttls /\ Forall (fun t => n <= t) ttls.

Lemma min_ttl_loop_smallest l :
  l <> [] -> Forall (fun rr => 0 < Hdr_Ttl (RR_hdr rr)) l ->
  smallest (Hdr_Ttl ∘ RR_hdr <$> l) (min_ttl_loop l).
Proof.
  unfold min_ttl_loop. intros Hne Hpos. destruct l as [|rr l]; [done|]. clear Hne.
  apply Forall_cons in Hpos as [H0 Hpos]. cbn [foldl].
  change (0 =? 0) with true. cbn [orb]. rewrite fmap_cons.
  change ((Hdr_Ttl ∘ RR_hdr) rr) with (Hdr_Ttl (RR_hdr rr)).
  set (a := Hdr_Ttl (RR_hdr rr)) in *. clearbody a. revert a H0.
  induction Hpos as [|x l Hx Hpos IH]; intros a H0; cbn [foldl].
  { split; [left|by repeat constructor]. }
  rewrite fmap_cons. change ((Hdr_Ttl ∘ RR_hdr) x) with (Hdr_Ttl (RR_hdr x)).
  destruct (Z.eqb_spec a 0); [lia|]. cbn [orb].
  destruct (Z.ltb_spec (Hdr_Ttl (RR_hdr x)) a) as [Hlt|Hge].
  - destruct (IH _ Hx) as [Hin Hall]. split; [by right|]. constructor; [|done].
    apply Forall_cons in Hall as [? _]. lia.
  - destruct (IH a H0) as [Hin Hall]. apply Forall_cons in Hall as [Ha Hall].
    split; [|by constructor; [|constructor; [lia|]]].
    apply elem_of_cons in Hin as [->|Hin]; [left|right; by right].
Qed.

(** The lifetime of a response: the negative TTL for NXDOMAIN and for an
    empty answer; for a response whose records all have a positive TTL, the
    smallest of them in nanoseconds, raised to [MinTTL] and then cut at
    [MaxTTL]; so with [MinTTL <= MaxTTL] it lies between them. *)
Theorem determine_ttl_spec (cfg : CacheConfig) (resp : Msg)
    (Hpos : Forall (fun rr => 0 < Hdr_Ttl (RR_hdr rr)) (Answer resp)) :
  (Rcode resp = RcodeNameError \/ Answer resp = [] -> determineTTL cfg resp = NegativeTTL cfg) /\
  (Rcode resp <> RcodeNameError -> Answer resp <> [] -> exists n,
     smallest (Hdr_Ttl ∘ RR_hdr <$> Answer resp) n /\
     determineTTL cfg resp = Z.min (MaxTTL cfg) (Z.max (MinTTL cfg) (n * second))).
Proof.
  unfold determineTTL. split.
  - intros [H|H]; [by rewrite (proj2 (Z.eqb_eq _ _) H)|].
    by rewrite (bool_decide_eq_true_2 _ H), orb_true_r.
  - intros Hr Ha. rewrite (proj2 (Z.eqb_neq _ _) Hr), bool_decide_eq_false_2 by done. cbn [orb].
    pose proof (min_ttl_loop_smallest _ Ha Hpos) as Hs. exists (min_ttl_loop (Answer resp)).
    split; [done|]. destruct (Z.eqb_spec (min_ttl_loop (Answer resp)) 0) as [E|E].
    + destruct Hs as [(rr & E' & Hin)%list_elem_of_fmap _].
      rewrite Forall_forall in Hpos. specialize (Hpos _ Hin). cbn in E'. lia.
    + destruct (Z.ltb_spec (min_ttl_loop (Answer resp) * second) (MinTTL cfg));
        match goal with |- context [MaxTTL cfg <? ?x] => destruct (Z.ltb_spec (MaxTTL cfg) x) end; lia.
Qed.

Definition sample_cache_config : CacheConfig :=
  MkCacheConfig true 2 (60 * second) (3600 * second) (30 * second) (5 * second) 0.

Definition sample_A (ttl : Z) : RR := RR_A (MkHdr (str "h.lan.") TypeA ClassINET ttl) [192; 0; 2; 1].

Definition sample_query : Msg :=
  MkMsg 7 false 0 false false true false false false 0 [MkQuestion (str "h.lan.") TypeA ClassINET] [] [] [].

Definition sample_resp (ttls : list Z) : Msg :=
  MkMsg 7 true 0 false false true true false false 0 [MkQuestion (str "h.lan.") TypeA ClassINET]
    (sample_A <$> ttls) [] [].

Lemma determine_ttl_spec_witness :
  determineTTL sample_cache_config (sample_resp [300; 90; 7200]) = 90 * second.
Proof.
  destruct (determine_ttl_spec sample_cache_config (sample_resp [300; 90; 7200])) as [_ H].
  - repeat constructor.
  - destruct H as (n & [Hin Hall] & ->); [done|done|]. cbn in Hin, Hall.
    apply elem_of_cons in Hin as [->|[->|[->|[]%not_elem_of_nil]%elem_of_cons]%elem_of_cons];
      [by repeat (apply Forall_cons in Hall as [? Hall])|done|
       by repeat (apply Forall_cons in Hall as [? Hall])].
Defined.

(** A zero TTL is taken for "none seen yet": the same two records give the
    negative TTL or the other record's TTL, depending on their order. *)
Lemma determine_ttl_zero_order cfg resp rr0 rr :
  Rcode resp <> RcodeNameError -> Hdr_Ttl (RR_hdr rr0) = 0 -> 0 < Hdr_Ttl (RR_hdr rr) ->
  determineTTL cfg (with_Answer [rr; rr0] resp) = NegativeTTL cfg /\
  determineTTL cfg (with_Answer [rr0; rr] resp) =
    Z.min (MaxTTL cfg) (Z.max (MinTTL cfg) (Hdr_Ttl (RR_hdr rr) * second)).
Proof.
  intros Hr H0 Hp. unfold determineTTL, min_ttl_loop. cbn.
  rewrite (proj2 (Z.eqb_neq _ _) Hr), H0. cbn. split.
  - destruct (_ || _) eqn:E; [done|].
    apply orb_false_iff in E as [_ E%Z.ltb_ge]. lia.
  - destruct (Z.eqb_spec (Hdr_Ttl (RR_hdr rr)) 0); [lia|].
    destruct (Z.ltb_spec (Hdr_Ttl (RR_hdr rr) * second) (MinTTL cfg));
      match goal with |- context [MaxTTL cfg <? ?x] => destruct (Z.ltb_spec (MaxTTL cfg) x) end; lia.
Qed.

(** ** The evicted key *)

Lemma foldl_oldest_elem cs c : foldl oldest_step c cs ∈ c :: cs.
Proof.
  revert c. induction cs as [|d cs IH]; intros c; cbn; [left|].
  specialize (IH (oldest_step c d)). unfold oldest_step in *.
  destruct (_ <? _); rewrite !elem_of_cons in *; naive_solver.
Qed.

Lemma foldl_oldest_le cs c x :
  x ∈ c :: cs -> lastAccessNano (foldl oldest_step c cs).2 <= lastAccessNano x.2.
Proof.
  revert c x. induction cs as [|d cs IH]; intros c x Hx; cbn.
  { by apply list_elem_of_singleton in Hx as ->. }
  assert (lastAccessNano (oldest_step c d).2 <= lastAccessNano c.2 /\
          lastAccessNano (oldest_step c d).2 <= lastAccessNano d.2) as [H1 H2].
  { unfold oldest_step. destruct (Z.ltb_spec (lastAccessNano d.2) (lastAccessNano c.2)); lia. }
  assert (lastAccessNano (foldl oldest_step (oldest_step c d) cs).2
          <= lastAccessNano (oldest_step c d).2) as H3 by (apply IH; left).
  apply elem_of_cons in Hx as [->|[->|Hx]%elem_of_cons]; [lia|lia|].
  apply IH. by right.
Qed.

(** The victim is in the map, and no sampled entry is older. *)
Lemma lru_victim_spec (ord : MapOrder) (m : Entries) (key : gostring) :
  lru_victim ord m = Some key ->
  exists e, m !! key = Some e /\ (key, e) ∈ take sampleSize (iterate ord m) /\
    forall k' e', (k', e') ∈ take sampleSize (iterate ord m) -> lastAccessNano e <= lastAccessNano e'.
Proof.
  unfold lru_victim. destruct (take sampleSize _) as [|c cs] eqn:E; [done|].
  intros [= <-]. pose proof (foldl_oldest_elem cs c) as Hin.
  destruct (foldl oldest_step c cs) as [key e] eqn:Ef. exists e. cbn. split; [|split; [done|]].
  - apply elem_of_map_to_list. rewrite <- iterate_perm.
    rewrite <- (take_drop sampleSize (iterate ord m)), E. rewrite elem_of_app. by left.
  - intros k' e' He'. pose proof (foldl_oldest_le cs c (k', e') He') as H. by rewrite Ef in H.
Qed.

Lemma lru_victim_None (ord : MapOrder) (m : Entries) : lru_victim ord m = None <-> m = ∅.
Proof.
  unfold lru_victim. pose proof (iterate_perm ord m) as Hp. split.
  - destruct (iterate ord m) as [|c cs]; [|done]. intros _.
    apply Permutation_nil_l in Hp. symmetry in Hp. by apply map_to_list_empty_iff in Hp.
  - intros ->. rewrite map_to_list_empty in Hp. by apply Permutation_nil_r in Hp as ->.
Qed.
