(* ===== verification/Cache.v ===== *)
(** * The single-lock cache (pkg/cache/cache.go)

    The map, the statistics and the exported gauge, with one definition per
    operation.  [GetWithTrace] releases the read lock between the lookup and
    the rest: it is the composition of [get_lookup] and [get_finish], so that
    what happens when another goroutine runs in between can be stated. *)

From Stdlib Require Import Ascii.
From S2P Require Import Prelude GoStrings DnsMsg CacheCore.
From stdpp Require Import options.
Local Open Scope Z_scope.

Record cacheStats := MkStats { hits : Z; misses : Z; evictions : Z; sets : Z; st_entries : Z }.

Record Metrics := MkMetrics { CacheSize : Z; DNSCacheHits : Z; DNSCacheMisses : Z }.

Record Cache := MkCache {
  cfg : CacheConfig;
  metrics : option Metrics;
  entries : Entries;
  stats : cacheStats;
  maxEntries : Z;
  stopClosed : bool
}.

(** The counters are [uint64]. *)
Definition add64 (a b : Z) : Z := wrapu 64 (a + b).

Definition add_CacheSize (d : Z) (m : option Metrics) : option Metrics :=
  (fun m => MkMetrics (CacheSize m + d) (DNSCacheHits m) (DNSCacheMisses m)) <$> m.

Inductive CacheError := ErrMaxEntries.

(** The single-lock branch of [New]; the metrics start from the given values. *)
Definition New_Cache (c : CacheConfig) (m : option Metrics) : result CacheError Cache :=
  if MaxEntries c <=? 0 then Err ErrMaxEntries
  else Ok (MkCache c m ∅ (MkStats 0 0 0 0 0) (MaxEntries c) false).

Definition recordHit (c : Cache) : Cache :=
  MkCache (cfg c)
    ((fun m => MkMetrics (CacheSize m) (DNSCacheHits m + 1) (DNSCacheMisses m)) <$> metrics c)
    (entries c)
    (MkStats (add64 (hits (stats c)) 1) (misses (stats c)) (evictions (stats c)) (sets (stats c))
       (st_entries (stats c)))
    (maxEntries c) (stopClosed c).

Definition recordMiss (c : Cache) : Cache :=
  MkCache (cfg c)
    ((fun m => MkMetrics (CacheSize m) (DNSCacheHits m) (DNSCacheMisses m + 1)) <$> metrics c)
    (entries c)
    (MkStats (hits (stats c)) (add64 (misses (stats c)) 1) (evictions (stats c)) (sets (stats c))
       (st_entries (stats c)))
    (maxEntries c) (stopClosed c).

Definition with_entries (m : Entries) (n : Z) (g : option Metrics) (c : Cache) : Cache :=
  MkCache (cfg c) g m
    (MkStats (hits (stats c)) (misses (stats c)) (evictions (stats c)) (sets (stats c)) n)
    (maxEntries c) (stopClosed c).

Definition add_evictions (n : Z) (c : Cache) : Cache :=
  MkCache (cfg c) (metrics c) (entries c)
    (MkStats (hits (stats c)) (misses (stats c)) (add64 (evictions (stats c)) n) (sets (stats c))
       (st_entries (stats c)))
    (maxEntries c) (stopClosed c).

Definition add_sets (c : Cache) : Cache :=
  MkCache (cfg c) (metrics c) (entries c)
    (MkStats (hits (stats c)) (misses (stats c)) (evictions (stats c)) (add64 (sets (stats c)) 1)
       (st_entries (stats c)))
    (maxEntries c) (stopClosed c).

(** [evictLRU]: the entry count in [stats] is left to the caller. *)
Definition evictLRU (ord : MapOrder) (c : Cache) : Cache :=
  match lru_victim ord (entries c) with
  | None => c
  | Some key =>
      add_evictions 1
        (with_entries (delete key (entries c)) (st_entries (stats c))
           (add_CacheSize (-1) (metrics c)) c)
  end.

(** The critical section of the three setters, and the counters after it. *)
Definition store_entry (ord : MapOrder) (key : gostring) (e : cacheEntry) (c : Cache) : Cache :=
  let c := if maxEntries c <=? Z.of_nat (size (entries c)) then evictLRU ord c else c in
  let exists_ := bool_decide (is_Some (entries c !! key)) in
  let m := <[key := e]> (entries c) in
  let c := with_entries m (Z.of_nat (size m)) (metrics c) c in
  let c := add_sets c in
  if exists_ then c
  else with_entries (entries c) (st_entries (stats c)) (add_CacheSize 1 (metrics c)) c.

Section cache.
Context {DL : DnsLib}.

Definition mk_entry (now ttl : Z) (resp : Msg) (tr : list BlockTraceEntry) : cacheEntry :=
  MkEntry (cloneBlockTrace tr) (now + ttl) resp (Msg_Len resp) now.

Definition SetWithTrace (ord : MapOrder) (now : Z) (r resp : Msg) (tr : list BlockTraceEntry)
    (c : Cache) : Cache :=
  if negb (Enabled (cfg c)) then c
  else if bool_decide (Msg_Question r = []) then c
  else
    let key := makeMsgKey r in
    let ttl := determineTTL (cfg c) resp in
    if ttl <=? 0 then c
    else store_entry ord key (mk_entry now ttl resp tr) c.

(** [Set] differs only in storing no trace. *)
Definition Set_ (ord : MapOrder) (now : Z) (r resp : Msg) (c : Cache) : Cache :=
  if negb (Enabled (cfg c)) then c
  else if bool_decide (Msg_Question r = []) then c
  else
    let key := makeMsgKey r in
    let ttl := determineTTL (cfg c) resp in
    if ttl <=? 0 then c
    else store_entry ord key (mk_entry now ttl resp []) c.

Definition SetBlocked (ord : MapOrder) (now : Z) (r resp : Msg) (tr : list BlockTraceEntry)
    (c : Cache) : Cache :=
  if negb (Enabled (cfg c)) then c
  else if bool_decide (Msg_Question r = []) then c
  else
    let key := makeMsgKey r in
    let ttl := BlockedTTL (cfg c) in
    if ttl <=? 0 then c
    else store_entry ord key (mk_entry now ttl resp tr) c.

(** Under the read lock. *)
Definition get_lookup (key : gostring) (c : Cache) : option cacheEntry := entries c !! key.

(** After it: the miss, the removal of an expired entry under the write lock,
    or the hit with its access time. *)
Definition get_finish (key : gostring) (found : option cacheEntry) (now : Z) (c : Cache)
    : Cache * option (Msg * list BlockTraceEntry) :=
  match found with
  | None => (recordMiss c, None)
  | Some entry =>
      if expired now entry then
        let c := recordMiss c in
        (with_entries (delete key (entries c)) (st_entries (stats c) - 1)
           (add_CacheSize (-1) (metrics c)) c, None)
      else
        (recordHit (with_entries (alter (touch now) key (entries c)) (st_entries (stats c))
           (metrics c) c),
         Some (e_msg entry, cloneBlockTrace (blockTrace entry)))
  end.

Definition GetWithTrace (now : Z) (r : Msg) (c : Cache)
    : Cache * option (Msg * list BlockTraceEntry) :=
  if negb (Enabled (cfg c)) then (c, None)
  else if bool_decide (Msg_Question r = []) then (c, None)
  else
    let key := makeMsgKey r in
    get_finish key (get_lookup key c) now c.

Definition Get (now : Z) (r : Msg) (c : Cache) : Cache * option Msg :=
  let '(c, res) := GetWithTrace now r c in (c, fst <$> res).

End cache.

(** [cleanup] deletes the expired entries, whatever the order of iteration. *)
Definition cleanup (now : Z) (c : Cache) : Cache :=
  let m := live now (entries c) in
  let removed := Z.of_nat (size (entries c)) - Z.of_nat (size m) in
  if 0 <? removed
  then with_entries m (Z.of_nat (size m)) (add_CacheSize (- removed) (metrics c))
         (add_evictions removed c)
  else c.

Definition Clear (c : Cache) : Cache :=
  let oldSize := Z.of_nat (size (entries c)) in
  with_entries ∅ 0
    (if 0 <? oldSize then add_CacheSize (- oldSize) (metrics c) else metrics c) c.

Definition ClearBlocklistDecisions (c : Cache) : Cache :=
  let removed := Z.of_nat (size (entries c)) in
  with_entries ∅ 0
    (if 0 <? removed then add_CacheSize (- removed) (metrics c) else metrics c) c.

(** [None] is the panic of closing a closed channel. *)
Definition Close (c : Cache) : option Cache :=
  if stopClosed c then None
  else Some (MkCache (cfg c) (metrics c) (entries c) (stats c) (maxEntries c) true).

(** ** The invariant *)

(** The map is within its capacity, and the entry count of the statistics and
    the exported gauge agree with it. *)
Record cache_inv (g0 : Z) (c : Cache) : Prop := {
  ci_max : 0 < maxEntries c;
  ci_size : Z.of_nat (size (entries c)) <= maxEntries c;
  ci_count : st_entries (stats c) = Z.of_nat (size (entries c));
  ci_gauge : forall m, metrics c = Some m -> CacheSize m = g0 + Z.of_nat (size (entries c))
}.

(** A cache that is switched off is empty. *)
Definition cache_ok (g0 : Z) (c : Cache) : Prop :=
  cache_inv g0 c /\ (Enabled (cfg c) = false -> entries c = ∅).

Lemma size_delete_elem (m : Entries) (k : gostring) :
  is_Some (m !! k) -> Z.of_nat (size (delete k m)) = Z.of_nat (size m) - 1.
Proof.
  intros Hk. rewrite (map_size_delete_Some k) by done.
  assert (size m <> 0%nat); [|lia]. intros H0. apply map_size_empty_inv in H0 as ->.
  by rewrite lookup_empty in Hk; destruct Hk.
Qed.

Lemma store_entry_entries (ord : MapOrder) (k : gostring) (e : cacheEntry) (c : Cache) :
  entries (store_entry ord k e c) =
  <[k := e]> (if maxEntries c <=? Z.of_nat (size (entries c))
              then entries (evictLRU ord c) else entries c).
Proof. unfold store_entry. by destruct (_ <=? _); destruct (bool_decide _). Qed.

Lemma evictLRU_entries (ord : MapOrder) (c : Cache) :
  entries (evictLRU ord c) =
  match lru_victim ord (entries c) with Some k => delete k (entries c) | None => entries c end.
Proof. unfold evictLRU. by destruct (lru_victim _ _). Qed.

Lemma gauge_add g0 n d om :
  (forall m, om = Some m -> CacheSize m = g0 + n) ->
  forall m, add_CacheSize d om = Some m -> CacheSize m = g0 + (n + d).
Proof. intros H m. destruct om as [m0|]; [|done]. cbn. intros [= <-]. cbn. rewrite (H m0); [lia|done]. Qed.

(** After the eviction of the critical section there is room for one entry,
    and the gauge agrees. *)
Lemma evict_room (ord : MapOrder) (g0 : Z) (c : Cache) :
  cache_inv g0 c ->
  let c' := if maxEntries c <=? Z.of_nat (size (entries c)) then evictLRU ord c else c in
  Z.of_nat (size (entries c')) < maxEntries c /\ maxEntries c' = maxEntries c /\ cfg c' = cfg c /\
  entries c' ⊆ entries c /\
  (forall m, metrics c' = Some m -> CacheSize m = g0 + Z.of_nat (size (entries c'))).
Proof.
  intros [Hm Hs Hc Hg]. destruct (Z.leb_spec (maxEntries c) (Z.of_nat (size (entries c)))); [|done].
  cbv zeta. unfold evictLRU. destruct (lru_victim ord (entries c)) as [k|] eqn:Ev.
  - apply lru_victim_spec in Ev as (e & Hk & _). pose proof (size_delete_elem (entries c) k ltac:(eauto)) as Hd.
    cbn. rewrite Hd. repeat split; [lia|apply delete_subseteq|].
    replace (Z.of_nat (size (entries c)) - 1) with (Z.of_nat (size (entries c)) + -1) by lia.
    by apply gauge_add.
  - apply lru_victim_None in Ev. rewrite Ev in *. rewrite map_size_empty in *. cbn in *. lia.
Qed.

Lemma store_entry_inv (ord : MapOrder) (k : gostring) (e : cacheEntry) (g0 : Z) (c : Cache) :
  cache_inv g0 c -> cache_inv g0 (store_entry ord k e c) /\ cfg (store_entry ord k e c) = cfg c.
Proof.
  intros Hc. destruct (evict_room ord g0 c Hc) as (Hroom & Hmax & Hcfg & _ & Hg).
  unfold store_entry. set (c' := if _ <=? _ then _ else _) in *. clearbody c'.
  pose proof (ci_max _ _ Hc) as Hpos. case_bool_decide as Hex.
  - assert (size (<[k:=e]> (entries c')) = size (entries c')) as Hs by by apply map_size_insert_Some.
    split; [|done]. split; cbn; rewrite ?Hs, ?Hmax; try lia. done.
  - assert (size (<[k:=e]> (entries c')) = S (size (entries c'))) as Hs.
    { apply map_size_insert_None. by apply eq_None_not_Some. }
    split; [|done]. split; cbn; rewrite ?Hs, ?Hmax; try lia.
    replace (Z.of_nat (S (size (entries c')))) with (Z.of_nat (size (entries c')) + 1) by lia.
    by apply gauge_add.
Qed.

Definition abs (m : Entries) : Ideal := stored <$> m.

Lemma abs_alter_touch (m : Entries) (k : gostring) (now : Z) : abs (alter (touch now) k m) = abs m.
Proof.
  apply map_eq. intros i. unfold abs. rewrite !lookup_fmap.
  destruct (decide (i = k)) as [->|]; [|by rewrite lookup_alter_ne].
  rewrite lookup_alter_eq. by destruct (m !! k).
Qed.

Lemma abs_subseteq (m1 m2 : Entries) : m1 ⊆ m2 -> abs m1 ⊆ abs m2.
Proof. apply map_fmap_mono. Qed.

Lemma with_entries_inv (g0 : Z) (m : Entries) (c : Cache) :
  cache_inv g0 c -> (size m <= size (entries c))%nat ->
  let d := Z.of_nat (size m) - Z.of_nat (size (entries c)) in
  cache_inv g0 (with_entries m (Z.of_nat (size m)) (add_CacheSize d (metrics c)) c).
Proof.
  intros [Hm Hs Hc Hg] Hle d. split; cbn; [done|lia|done|].
  replace (Z.of_nat (size m)) with (Z.of_nat (size (entries c)) + d) by lia. by apply gauge_add.
Qed.

Lemma add_CacheSize_0 om : add_CacheSize 0 om = om.
Proof. destruct om as [[]|]; cbn; [|done]. by rewrite Z.add_0_r. Qed.

Lemma recordMiss_inv g0 c : cache_inv g0 c -> cache_inv g0 (recordMiss c).
Proof.
  intros [Hm Hs Hc Hg]. split; cbn; try done. intros m. destruct (metrics c) as [m0|]; [|done].
  intros [= <-]. cbn. by apply (Hg m0).
Qed.

Lemma recordHit_inv g0 c : cache_inv g0 c -> cache_inv g0 (recordHit c).
Proof.
  intros [Hm Hs Hc Hg]. split; cbn; try done. intros m. destruct (metrics c) as [m0|]; [|done].
  intros [= <-]. cbn. by apply (Hg m0).
Qed.

(** The sequential [Get]: invariant, contents and answer. *)
Lemma get_finish_spec (g0 : Z) (k : gostring) (now : Z) (c : Cache) :
  cache_inv g0 c ->
  let '(c', res) := get_finish k (get_lookup k c) now c in
  cache_inv g0 c' /\ cfg c' = cfg c /\ abs (entries c') ⊆ abs (entries c) /\
  res = match abs (entries c) !! k with
        | Some (msg, tr, x) => if x <? now then None else Some (msg, tr)
        | None => None
        end.
Proof.
  intros Hc. unfold get_finish, get_lookup.
  assert (abs (entries c) !! k = stored <$> entries c !! k) as -> by apply lookup_fmap.
  destruct (entries c !! k) as [e|] eqn:E; cbn.
  - unfold expired. destruct (expiresAt e <? now) eqn:Ex; cbn.
    + pose proof (size_delete_elem (entries c) k ltac:(eauto)) as Hd.
      pose proof (with_entries_inv g0 (delete k (entries c)) (recordMiss c)
        (recordMiss_inv _ _ Hc) ltac:(cbn; lia)) as Hi.
      cbn in Hi. rewrite (ci_count _ _ Hc).
      replace (Z.of_nat (size (entries c)) - 1) with (Z.of_nat (size (delete k (entries c)))) by lia.
      replace (-1) with (Z.of_nat (size (delete k (entries c))) - Z.of_nat (size (entries c))) by lia.
      split; [exact Hi|]. split; [done|]. split; [|done].
      apply abs_subseteq, delete_subseteq.
    + split; [|split; [done|split; [by rewrite <- (abs_alter_touch (entries c) k now)|done]]].
      apply recordHit_inv. destruct Hc as [Hm Hs Hcn Hg].
      assert (size (alter (touch now) k (entries c)) = size (entries c)) as Hsz.
      { rewrite <- !(size_dom (D := gset gostring)), dom_alter_L. done. }
      split; cbn; rewrite ?Hsz; done.
  - split; [by apply recordMiss_inv|]. done.
Qed.

Lemma store_entry_abs (ord : MapOrder) (k : gostring) (e : cacheEntry) (g0 : Z) (c : Cache) :
  cache_inv g0 c ->
  abs (entries (store_entry ord k e c)) ⊆ <[k := stored e]> (abs (entries c)) /\
  abs (entries (store_entry ord k e c)) !! k = Some (stored e).
Proof.
  intros Hc. destruct (evict_room ord g0 c Hc) as (_ & _ & _ & Hsub & _).
  rewrite store_entry_entries. unfold abs. rewrite fmap_insert. split; [|apply lookup_insert_eq].
  apply insert_mono, map_fmap_mono. by destruct (_ <=? _).
Qed.

Section implementation.
Context {DL : DnsLib}.

#[export] Instance Cache_impl : CacheImpl Cache := {|
  c_cfg := cfg;
  c_GetWithTrace := GetWithTrace;
  c_Set := Set_;
  c_SetWithTrace := SetWithTrace;
  c_SetBlocked := SetBlocked;
  c_cleanup := cleanup;
  c_Clear := Clear;
  c_ClearBlocklistDecisions := ClearBlocklistDecisions
|}.

(** The common body of the setters. *)
Lemma setter_ok (ord : MapOrder) (now ttl : Z) (r resp : Msg) (tr : list BlockTraceEntry) (g0 : Z)
    (c : Cache) :
  cache_ok g0 c ->
  let c' := if negb (Enabled (cfg c)) then c
            else if bool_decide (Msg_Question r = []) then c
            else if ttl <=? 0 then c
            else store_entry ord (makeMsgKey r) (mk_entry now ttl resp tr) c in
  cache_ok g0 c' /\ cfg c' = cfg c /\ Enabled (cfg c') = Enabled (cfg c) /\
  abs (entries c') ⊆ ideal_store ttl now r resp tr (abs (entries c)) /\
  (Enabled (cfg c) = true -> Msg_Question r <> [] -> 0 < ttl ->
   abs (entries c') !! makeMsgKey r = Some (resp, tr, now + ttl)).
Proof.
  intros [Hc Hoff]. unfold ideal_store. destruct (Enabled (cfg c)) eqn:En; cbn.
  - case_bool_decide; cbn; [unfold cache_ok; rewrite En; split_and!; done|].
    destruct (Z.leb_spec ttl 0); cbn; [unfold cache_ok; rewrite En; split_and!; done || lia|].
    destruct (store_entry_inv ord (makeMsgKey r) (mk_entry now ttl resp tr) g0 c Hc) as [? E].
    destruct (store_entry_abs ord (makeMsgKey r) (mk_entry now ttl resp tr) g0 c Hc) as [? ?].
    unfold cache_ok. rewrite E, En. done.
  - unfold cache_ok. rewrite En. split_and!; try done. rewrite (Hoff eq_refl). unfold abs.
    rewrite fmap_empty. apply map_empty_subseteq.
Qed.

Lemma live_size (now : Z) (m : Entries) : (size (live now m) <= size m)%nat.
Proof. apply map_subseteq_size, map_filter_subseteq. Qed.

Lemma cleanup_spec (g0 now : Z) (c : Cache) :
  cache_inv g0 c ->
  cache_inv g0 (cleanup now c) /\ cfg (cleanup now c) = cfg c /\
  entries (cleanup now c) = live now (entries c).
Proof.
  intros Hc. unfold cleanup. pose proof (live_size now (entries c)) as Hle.
  destruct (Z.ltb_spec 0 (Z.of_nat (size (entries c)) - Z.of_nat (size (live now (entries c))))).
  - split; [|done].
    assert (cache_inv g0 (add_evictions (Z.of_nat (size (entries c)) - Z.of_nat (size (live now (entries c)))) c))
      as He by (destruct Hc; by split).
    pose proof (with_entries_inv g0 (live now (entries c)) _ He Hle) as Hw. cbn in Hw.
    by replace (- (Z.of_nat (size (entries c)) - Z.of_nat (size (live now (entries c)))))
      with (Z.of_nat (size (live now (entries c))) - Z.of_nat (size (entries c))) by lia.
  - split; [done|]. split; [done|]. symmetry.
    apply map_subseteq_size_eq; [apply map_filter_subseteq|unfold live in *; lia].
Qed.

Lemma Clear_spec (g0 : Z) (c : Cache) :
  cache_inv g0 c -> cache_inv g0 (Clear c) /\ cfg (Clear c) = cfg c /\ entries (Clear c) = ∅.
Proof.
  intros Hc. pose proof (with_entries_inv g0 ∅ c Hc) as H. rewrite map_size_empty in H.
  specialize (H ltac:(lia)). unfold Clear. cbn in H.
  destruct (Z.ltb_spec 0 (Z.of_nat (size (entries c)))); [done|].
  replace (Z.of_nat (size (entries c))) with 0 in H by lia. cbn in H.
  by rewrite add_CacheSize_0 in H.
Qed.

#[export] Instance Cache_impl_ok (g0 : Z) : CacheImplOk Cache.
Proof.
  apply (Build_CacheImplOk _ _ (cache_ok g0) (fun c => abs (entries c)) (fun c => Enabled (cfg c))).
  - intros now r c [Hc Hoff]. cbn. unfold GetWithTrace, ideal_get.
    destruct (Enabled (cfg c)) eqn:En; cbn; [|unfold cache_ok; rewrite En; split_and!; auto].
    case_bool_decide; cbn; [unfold cache_ok; rewrite En; split_and!; done|].
    pose proof (get_finish_spec g0 (makeMsgKey r) now c Hc) as Hf.
    destruct (get_finish _ _ now c) as [c' res]. destruct Hf as (? & E & ? & ?).
    unfold cache_ok. rewrite E, En. done.
  - intros. by apply setter_ok.
  - done.
  - intros. by apply setter_ok.
  - intros now c [Hc Hoff]. cbn. destruct (cleanup_spec g0 now c Hc) as (? & E & Ee).
    unfold cache_ok. rewrite E, Ee. split_and!; try done.
    + intros H0. by rewrite (Hoff H0).
    + apply abs_subseteq, map_filter_subseteq.
  - intros c [Hc Hoff]. cbn. destruct (Clear_spec g0 c Hc) as (? & E & Ee). unfold cache_ok.
    rewrite E, Ee. split_and!; done.
  - intros c [Hc Hoff]. cbn. destruct (Clear_spec g0 c Hc) as (? & E & Ee). unfold cache_ok.
    change (ClearBlocklistDecisions c) with (Clear c).
    rewrite E, Ee. split_and!; done.
Defined.

End implementation.

(** ** Theorems *)

Section theorems.
Context {DL : DnsLib}.

Lemma New_Cache_ok cf m c :
  New_Cache cf m = Ok c -> cache_ok (match m with Some m => CacheSize m | None => 0 end) c /\
  entries c = ∅ /\ cfg c = cf /\ maxEntries c = MaxEntries cf.
Proof.
  unfold New_Cache. destruct (Z.leb_spec (MaxEntries cf) 0); [done|]. intros [= <-].
  split; [|done]. split; [|done]. split; cbn; try rewrite map_size_empty; try lia.
  intros m' ->. lia.
Qed.

Lemma cache_op_maxEntries o (c : Cache) : maxEntries (cache_op o c).1 = maxEntries c.
Proof.
  assert (forall ord k e c, maxEntries (store_entry ord k e c) = maxEntries c) as Hst.
  { intros ord k e c'. unfold store_entry, evictLRU.
    destruct (_ <=? _); [destruct (lru_victim _ _)|]; by destruct (bool_decide _). }
  destruct o; cbn; unfold GetWithTrace, Set_, SetWithTrace, SetBlocked, cleanup, Clear.
  1: destruct (negb _); [done|]; destruct (bool_decide _); [done|]; unfold get_finish;
     destruct (get_lookup _ _); [destruct (expired _ _)|]; done.
  4: by destruct (_ <? _).
  4,5: done.
  all: destruct (negb _); [done|]; destruct (bool_decide _); [done|];
       destruct (_ <=? _); [done|]; apply Hst.
Qed.

(** Whatever is done to a new cache, in whatever order Go iterates over
    its map, it never holds more than [MaxEntries] entries, the entry count of
    [Stats] is the number of entries, and the exported [CacheSize] gauge has
    moved by exactly that number. *)
Theorem cache_accounting (cf : CacheConfig) (m0 : option Metrics) (c : Cache) (os : list CacheOp)
    (Hnew : New_Cache cf m0 = Ok c) :
  let c' := (run_cache os c).1 in
  let n := Z.of_nat (size (entries c')) in
  n <= MaxEntries cf /\ st_entries (stats c') = n /\
  forall m m', m0 = Some m -> metrics c' = Some m' -> CacheSize m' = CacheSize m + n.
Proof.
  destruct (New_Cache_ok _ _ _ Hnew) as (Hok & He & Hcfg & Hmax).
  set (g0 := match m0 with Some m => CacheSize m | None => 0 end) in *.
  destruct (run_cache_sim (COK := Cache_impl_ok g0) os c (abs (entries c)) Hok) as (Hi & _); [done|].
  assert (maxEntries (run_cache os c).1 = maxEntries c) as Hm.
  { clear Hi. generalize c. induction os as [|o os IH]; intros c0; [done|]. cbn.
    pose proof (cache_op_maxEntries o c0) as H. destruct (cache_op o c0) as [c1 x]. cbn in H.
    specialize (IH c1). destruct (run_cache os c1) as [c2 xs]. cbn in *. congruence. }
  intros c' n. destruct Hi as [[H1 H2 H3 H4] _]. fold c' in H1, H2, H3, H4, Hm. fold n in H2, H3, H4.
  split; [lia|]. split; [done|]. intros m m' -> Hm'. by apply H4.
Qed.

(** C6: refinement: every answer of a new cache, in any sequence of operations,
    is a miss or the answer of an ideal cache that never evicts: no stale,
    expired or foreign response is ever served, and none after a flush. *)
Theorem cache_refines_ideal (cf : CacheConfig) (m0 : option Metrics) (c : Cache) (os : list CacheOp)
    (Hnew : New_Cache cf m0 = Ok c) :
  Forall2 served_ok (run_cache os c).2 (run_ideal cf os ∅).2.
Proof.
  destruct (New_Cache_ok _ _ _ Hnew) as (Hok & He & Hcfg & _).
  destruct (run_cache_sim (COK := Cache_impl_ok _) os c ∅ Hok) as (_ & _ & _ & _ & H).
  - cbn. by rewrite He.
  - cbn in H. by rewrite Hcfg in H.
Qed.

(** The round trip: once a cache that is on has stored a response with a
    positive lifetime, a get for the same request within the lifetime returns
    it with its trace and counts a hit, whatever had to be evicted. *)
Theorem cache_set_get (g0 : Z) (c : Cache) (ord : MapOrder) (t t' : Z) (r resp : Msg)
    (tr : list BlockTraceEntry)
    (Hok : cache_ok g0 c) (Hon : Enabled (cfg c) = true) (Hq : Msg_Question r <> [])
    (Httl : 0 < determineTTL (cfg c) resp) (Ht : t' <= t + determineTTL (cfg c) resp) :
  let c1 := SetWithTrace ord t r resp tr c in
  let '(c2, res) := GetWithTrace t' r c1 in
  res = Some (resp, tr) /\ hits (stats c2) = add64 (hits (stats c1)) 1.
Proof.
  destruct (c_SetWithTrace_ok (CacheImplOk := Cache_impl_ok g0) ord t r resp tr c Hok)
    as (Hok1 & _ & Hon1 & _ & Hset).
  cbn in *. specialize (Hset Hon Hq Httl). set (c1 := SetWithTrace ord t r resp tr c) in *.
  unfold GetWithTrace. rewrite Hon1, Hon. cbn [negb]. rewrite bool_decide_eq_false_2 by done.
  unfold get_finish, get_lookup. unfold abs in Hset. rewrite lookup_fmap in Hset.
  destruct (entries c1 !! makeMsgKey r) as [e|]; cbn in Hset; [|done].
  injection Hset as Em Et Ex. unfold expired. rewrite Ex, (proj2 (Z.ltb_ge _ _)) by lia.
  rewrite Em. unfold cloneBlockTrace. by rewrite Et.
Qed.

(** Eviction deletes one entry, and of the sampled entries none was used
    less recently; with at most five entries it is exactly least-recently-used. *)
Theorem eviction_is_sampled_lru (ord : MapOrder) (c : Cache) (Hne : entries c <> ∅) :
  exists k e, entries c !! k = Some e /\ entries (evictLRU ord c) = delete k (entries c) /\
    evictions (stats (evictLRU ord c)) = add64 (evictions (stats c)) 1 /\
    (forall k' e', (k', e') ∈ take sampleSize (iterate ord (entries c)) ->
       lastAccessNano e <= lastAccessNano e') /\
    ((size (entries c) <= sampleSize)%nat -> forall k' e', entries c !! k' = Some e' ->
       lastAccessNano e <= lastAccessNano e').
Proof.
  unfold evictLRU. destruct (lru_victim ord (entries c)) as [k|] eqn:Ev.
  2: { by apply lru_victim_None in Ev. }
  apply lru_victim_spec in Ev as (e & Hk & _ & Hmin). exists k, e. repeat split; try done.
  intros Hsz k' e' Hk'. apply (Hmin k' e'). rewrite take_ge.
  - rewrite iterate_perm. by apply elem_of_map_to_list.
  - rewrite iterate_perm. by rewrite length_map_to_list.
Qed.

(** The race of an expired get: between the read lock and the write lock
    another goroutine can store a fresh response under the same key; the
    finishing get deletes it, and decrements the count although its own entry
    was already gone. *)
Theorem expired_get_race (c : Cache) (ord : MapOrder) (now ttl : Z) (k : gostring) (resp : Msg)
    (tr : list BlockTraceEntry) (old : cacheEntry)
    (Hold : get_lookup k c = Some old) (Hexp : expired now old = true) :
  let c1 := store_entry ord k (mk_entry now ttl resp tr) c in
  let c2 := (get_finish k (get_lookup k c) now c1).1 in
  get_lookup k c1 = Some (mk_entry now ttl resp tr) /\ get_lookup k c2 = None /\
  let c3 := (get_finish k (get_lookup k c) now c2).1 in
  st_entries (stats c3) = Z.of_nat (size (entries c3)) - 1.
Proof.
  cbv zeta. rewrite Hold. unfold get_finish. rewrite Hexp.
  set (c1 := store_entry ord k (mk_entry now ttl resp tr) c).
  assert (entries c1 !! k = Some (mk_entry now ttl resp tr)) as H1.
  { unfold c1. rewrite store_entry_entries. apply lookup_insert_eq. }
  split; [done|]. split; [apply lookup_delete_eq|]. cbn.
  assert (st_entries (stats c1) = Z.of_nat (size (entries c1))) as ->.
  { unfold c1, store_entry. by destruct (_ <=? _); destruct (bool_decide _). }
  rewrite delete_delete_eq.
  pose proof (size_delete_elem (entries c1) k ltac:(eauto)). lia.
Qed.

End theorems.

(** ** Concrete runs *)

Definition sample_metrics : option Metrics := Some (MkMetrics 10 0 0).

Definition sample_cache : Cache :=
  MkCache sample_cache_config sample_metrics ∅ (MkStats 0 0 0 0 0) 2 false.

Definition query_for (name : gostring) : Msg :=
  MkMsg 7 false 0 false false true false false false 0 [MkQuestion name TypeA ClassINET] [] [] [].

(** Three stores into a cache of two entries, a get of the last, a flush. *)
Definition sample_ops : list CacheOp :=
  [ OpSet default_order 100 (query_for (str "a.")) (sample_resp [300]);
    OpSet default_order 200 (query_for (str "b.")) (sample_resp [300]);
    OpSetBlocked default_order 300 (query_for (str "c.")) (sample_resp [300]) [];
    OpGet 400 (query_for (str "c.")); OpClear; OpGet 500 (query_for (str "c.")) ].

Lemma cache_accounting_witness :
  @New_Cache sample_cache_config sample_metrics = Ok sample_cache /\
  st_entries (stats (run_cache (CI := @Cache_impl simple_dns) (take 4 sample_ops) sample_cache).1) = 2.
Proof.
  split; [done|].
  pose proof (@cache_accounting simple_dns sample_cache_config sample_metrics sample_cache
    (take 4 sample_ops) eq_refl) as (_ & -> & _).
  by vm_compute.
Defined.

Lemma cache_refines_ideal_witness :
  New_Cache sample_cache_config sample_metrics = Ok sample_cache /\
  last (run_cache (CI := @Cache_impl simple_dns) sample_ops sample_cache).2 = Some None /\
  Forall2 served_ok (run_cache (CI := @Cache_impl simple_dns) sample_ops sample_cache).2
    (@run_ideal simple_dns sample_cache_config sample_ops ∅).2.
Proof.
  split; [done|]. split; [by vm_compute|].
  by apply (@cache_refines_ideal simple_dns sample_cache_config sample_metrics sample_cache).
Defined.

Lemma cache_set_get_witness :
  (@GetWithTrace simple_dns 90000000000 sample_query
    (@SetWithTrace simple_dns default_order 5 sample_query (sample_resp [300; 90]) [] sample_cache)).2
  = Some (sample_resp [300; 90], []).
Proof.
  pose proof (@cache_set_get simple_dns 10 sample_cache default_order 5 90000000000 sample_query
    (sample_resp [300; 90]) []) as H.
  assert (cache_ok 10 sample_cache) as Hok.
  { split; [|done]. split; [done|by vm_compute|by vm_compute|].
    intros m [= <-]. by vm_compute. }
  specialize (H Hok eq_refl ltac:(done) ltac:(by vm_compute) ltac:(by vm_compute)).
  cbv zeta in H. destruct (GetWithTrace _ _ _) as [c2 res]. by destruct H as [-> _].
Defined.

Definition two_entries : Cache :=
  (run_cache (CI := @Cache_impl simple_dns) (take 2 sample_ops) sample_cache).1.

Lemma eviction_is_sampled_lru_witness :
  entries two_entries <> ∅ /\ evictions (stats (evictLRU default_order two_entries)) = 1.
Proof.
  assert (entries two_entries <> ∅) as Hne.
  { intros H. apply (f_equal size) in H. vm_compute in H. done. }
  split; [done|].
  destruct (eviction_is_sampled_lru default_order two_entries Hne) as (k & e & _ & _ & -> & _).
  by vm_compute.
Defined.

Definition expired_cache : Cache :=
  @SetBlocked simple_dns default_order 5 sample_query (sample_resp [300]) [] sample_cache.

Lemma expired_get_race_witness :
  let k := @makeMsgKey simple_dns sample_query in
  let now := 10 * second in
  exists old, get_lookup k expired_cache = Some old /\ expired now old = true /\
    get_lookup k (get_finish k (Some old) now
      (store_entry default_order k (@mk_entry simple_dns now 7 (sample_resp [60]) []) expired_cache)).1
    = None.
Proof.
  intros k now. destruct (get_lookup k expired_cache) as [old|] eqn:E.
  - exists old. split; [done|]. assert (expired now old = true) as Hx.
    { vm_compute in E. injection E as <-. by vm_compute. }
    split; [done|].
    destruct (@expired_get_race simple_dns expired_cache default_order now 7 k (sample_resp [60]) [] old E Hx)
      as (_ & H & _).
    by rewrite E in H.
  - vm_compute in E. done.
Defined.
