(* ===== verification/ShardedCache.v ===== *)
(** * The sharded cache (pkg/cache/sharded_cache.go)

    A fixed number of independently locked shards; a key lives in the shard its
    FNV-1a hash selects.  The shards are a list, updated at the selected index;
    the metrics object they all point to is one field.  The goroutines of
    [cleanup] touch disjoint shards and are a map over the list. *)

From Stdlib Require Import Ascii.
From S2P Require Import Prelude GoStrings DnsMsg CacheCore Cache.
From stdpp Require Import options.
Local Open Scope Z_scope.

(** ** The hash *)

Definition offset32 : Z := 2166136261.
Definition prime32 : Z := 16777619.

Definition fnv1a_step (hash : Z) (b : ascii) : Z := wrapu 32 (Z.lxor hash (code b) * prime32).

Definition fnv1aHashString (s : gostring) : Z := foldl fnv1a_step offset32 s.

Definition shard_index (shardCount : Z) (key : gostring) : nat :=
  Z.to_nat (fnv1aHashString key mod wrapu 32 shardCount).

(** ** Shards *)

Record CacheShard := MkShard {
  sh_entries : Entries;
  statsHits : Z; statsMisses : Z; statsEvicts : Z; statsSets : Z;
  sh_maxEntries : Z
}.

Record ShardedCache := MkSharded {
  sc_cfg : CacheConfig;
  shards : list CacheShard;
  shardCount : Z;
  sc_metrics : option Metrics;
  sc_stopClosed : bool
}.

Definition with_shards (l : list CacheShard) (m : option Metrics) (sc : ShardedCache) : ShardedCache :=
  MkSharded (sc_cfg sc) l (shardCount sc) m (sc_stopClosed sc).

Inductive ShardedError := ErrInvalidConfig.

Definition entriesPerShard (c : CacheConfig) (n : Z) : Z :=
  let per := Z.quot (MaxEntries c) n in if per <? 10 then 10 else per.

Definition NewSharded (c : CacheConfig) (m : option Metrics) (count : Z)
    : result ShardedError ShardedCache :=
  let count := if count <=? 0 then 4 else count in
  if MaxEntries c <=? 0 then Err ErrInvalidConfig
  else Ok (MkSharded c
             (replicate (Z.to_nat count) (MkShard ∅ 0 0 0 0 (entriesPerShard c count)))
             count m false).

(** [evictLRU], on the shard and the gauge. *)
Definition shard_evictLRU (ord : MapOrder) (sh : CacheShard) (m : option Metrics)
    : CacheShard * option Metrics :=
  match lru_victim ord (sh_entries sh) with
  | None => (sh, m)
  | Some key =>
      (MkShard (delete key (sh_entries sh)) (statsHits sh) (statsMisses sh)
         (add64 (statsEvicts sh) 1) (statsSets sh) (sh_maxEntries sh),
       add_CacheSize (-1) m)
  end.

(** The critical section of the setters. *)
Definition shard_store (ord : MapOrder) (key : gostring) (e : cacheEntry) (sh : CacheShard)
    (m : option Metrics) : CacheShard * option Metrics :=
  let '(sh, m) :=
    if sh_maxEntries sh <=? Z.of_nat (size (sh_entries sh)) then shard_evictLRU ord sh m
    else (sh, m) in
  let exists_ := bool_decide (is_Some (sh_entries sh !! key)) in
  (MkShard (<[key := e]> (sh_entries sh)) (statsHits sh) (statsMisses sh) (statsEvicts sh)
     (add64 (statsSets sh) 1) (sh_maxEntries sh),
   if exists_ then m else add_CacheSize 1 m).

Section sharded.
Context {DL : DnsLib}.

(** Run a shard operation on the shard [getShard] selects. *)
Definition on_shard {A} (key : gostring) (sc : ShardedCache) (dflt : A)
    (f : CacheShard -> option Metrics -> CacheShard * option Metrics * A) : ShardedCache * A :=
  let i := shard_index (shardCount sc) key in
  match shards sc !! i with
  | None => (sc, dflt)
  | Some sh => let '(sh, m, a) := f sh (sc_metrics sc) in (with_shards (<[i := sh]> (shards sc)) m sc, a)
  end.

Definition Sharded_store (ord : MapOrder) (r : Msg) (e : cacheEntry) (sc : ShardedCache) : ShardedCache :=
  let key := makeMsgKey r in
  (on_shard key sc tt (fun sh m => (shard_store ord key e sh m, tt))).1.

Definition Sharded_SetWithTrace (ord : MapOrder) (now : Z) (r resp : Msg)
    (tr : list BlockTraceEntry) (sc : ShardedCache) : ShardedCache :=
  if bool_decide (Msg_Question r = []) then sc
  else
    let ttl := determineTTL (sc_cfg sc) resp in
    if ttl <=? 0 then sc else Sharded_store ord r (mk_entry now ttl resp tr) sc.

Definition Sharded_Set (ord : MapOrder) (now : Z) (r resp : Msg) (sc : ShardedCache) : ShardedCache :=
  if bool_decide (Msg_Question r = []) then sc
  else
    let ttl := determineTTL (sc_cfg sc) resp in
    if ttl <=? 0 then sc else Sharded_store ord r (mk_entry now ttl resp []) sc.

Definition Sharded_SetBlocked (ord : MapOrder) (now : Z) (r resp : Msg)
    (tr : list BlockTraceEntry) (sc : ShardedCache) : ShardedCache :=
  if bool_decide (Msg_Question r = []) then sc
  else
    let ttl := BlockedTTL (sc_cfg sc) in
    if ttl <=? 0 then sc else Sharded_store ord r (mk_entry now ttl resp tr) sc.

Definition add_hit (m : Metrics) : Metrics := MkMetrics (CacheSize m) (DNSCacheHits m + 1) (DNSCacheMisses m).
Definition add_miss (m : Metrics) : Metrics := MkMetrics (CacheSize m) (DNSCacheHits m) (DNSCacheMisses m + 1).

(** The body of [GetWithTrace] on the selected shard. *)
Definition shard_get (now : Z) (key : gostring) (sh : CacheShard) (m : option Metrics)
    : CacheShard * option Metrics * option (Msg * list BlockTraceEntry) :=
  let missed es :=
    MkShard es (statsHits sh) (add64 (statsMisses sh) 1) (statsEvicts sh) (statsSets sh)
      (sh_maxEntries sh) in
  match sh_entries sh !! key with
  | None => (missed (sh_entries sh), add_miss <$> m, None)
  | Some entry =>
      if expired now entry then
        (missed (delete key (sh_entries sh)), add_CacheSize (-1) (add_miss <$> m), None)
      else
        (MkShard (alter (touch now) key (sh_entries sh)) (add64 (statsHits sh) 1) (statsMisses sh)
           (statsEvicts sh) (statsSets sh) (sh_maxEntries sh),
         add_hit <$> m, Some (e_msg entry, cloneBlockTrace (blockTrace entry)))
  end.

Definition Sharded_GetWithTrace (now : Z) (r : Msg) (sc : ShardedCache)
    : ShardedCache * option (Msg * list BlockTraceEntry) :=
  if bool_decide (Msg_Question r = []) then (sc, None)
  else
    let key := makeMsgKey r in
    on_shard key sc None (fun sh m => shard_get now key sh m).

End sharded.

(** [cleanup]: every shard drops its expired entries; the gauge moves once. *)
Definition shard_cleanup (now : Z) (sh : CacheShard) : CacheShard :=
  let m := live now (sh_entries sh) in
  let removed := Z.of_nat (size (sh_entries sh)) - Z.of_nat (size m) in
  MkShard m (statsHits sh) (statsMisses sh)
    (if 0 <? removed then add64 (statsEvicts sh) removed else statsEvicts sh) (statsSets sh)
    (sh_maxEntries sh).

Fixpoint total_entries (l : list CacheShard) : Z :=
  match l with
  | [] => 0
  | sh :: l' => Z.of_nat (size (sh_entries sh)) + total_entries l'
  end.

Definition Sharded_cleanup (now : Z) (sc : ShardedCache) : ShardedCache :=
  let l := shard_cleanup now <$> shards sc in
  let removed := total_entries (shards sc) - total_entries l in
  with_shards l (if 0 <? removed then add_CacheSize (- removed) (sc_metrics sc) else sc_metrics sc) sc.

(** [Clear] and [ClearBlocklistDecisions]: the same loop over the shards. *)
Definition shard_clear (sh : CacheShard) : CacheShard :=
  MkShard ∅ (statsHits sh) (statsMisses sh) (statsEvicts sh) (statsSets sh) (sh_maxEntries sh).

Fixpoint clear_loop (l : list CacheShard) (m : option Metrics) : list CacheShard * option Metrics :=
  match l with
  | [] => ([], m)
  | sh :: l' =>
      let n := Z.of_nat (size (sh_entries sh)) in
      let m := if 0 <? n then add_CacheSize (- n) m else m in
      let '(l', m) := clear_loop l' m in (shard_clear sh :: l', m)
  end.

Definition Sharded_Clear (sc : ShardedCache) : ShardedCache :=
  let '(l, m) := clear_loop (shards sc) (sc_metrics sc) in with_shards l m sc.

Definition Sharded_ClearBlocklistDecisions (sc : ShardedCache) : ShardedCache :=
  let '(l, m) := clear_loop (shards sc) (sc_metrics sc) in with_shards l m sc.

(** [Stats]: the sums over the shards ([uint64], the entry count an [int]). *)
Definition Sharded_Stats (sc : ShardedCache) : cacheStats :=
  foldl (fun a sh =>
           MkStats (add64 (hits a) (statsHits sh)) (add64 (misses a) (statsMisses sh))
             (add64 (evictions a) (statsEvicts sh)) (add64 (sets a) (statsSets sh))
             (st_entries a + Z.of_nat (size (sh_entries sh))))
    (MkStats 0 0 0 0 0) (shards sc).

Definition Sharded_Close (sc : ShardedCache) : option ShardedCache :=
  if sc_stopClosed sc then None
  else Some (MkSharded (sc_cfg sc) (shards sc) (shardCount sc) (sc_metrics sc) true).

(** ** Placement *)

Lemma fnv1a_range s : 0 <= fnv1aHashString s < 2 ^ 32.
Proof.
  unfold fnv1aHashString. assert (0 <= offset32 < 2 ^ 32) as H by done. revert H.
  generalize offset32. induction s as [|c s IH]; intros h Hh; cbn [foldl]; [done|].
  apply IH. unfold fnv1a_step. apply wrapu_range. lia.
Qed.

Lemma shard_index_lt n k : 0 < n < 2 ^ 32 -> (shard_index n k < Z.to_nat n)%nat.
Proof.
  intros Hn. unfold shard_index. rewrite wrapu_small by lia.
  pose proof (Z.mod_pos_bound (fnv1aHashString k) n ltac:(lia)). lia.
Qed.

(** The union of the shards: the cache as one map. *)
Definition all_entries (l : list CacheShard) : Entries :=
  foldr (fun sh m => sh_entries sh ∪ m) ∅ l.

Record sharded_ok (g0 : Z) (sc : ShardedCache) : Prop := {
  so_count : 0 < shardCount sc < 2 ^ 32;
  so_len : length (shards sc) = Z.to_nat (shardCount sc);
  so_placed : forall i sh k, shards sc !! i = Some sh -> is_Some (sh_entries sh !! k) ->
    shard_index (shardCount sc) k = i;
  so_max : Forall (fun sh => 0 < sh_maxEntries sh /\
      Z.of_nat (size (sh_entries sh)) <= sh_maxEntries sh) (shards sc);
  so_gauge : forall m, sc_metrics sc = Some m -> CacheSize m = g0 + total_entries (shards sc)
}.

Lemma all_entries_lookup_None l (k : gostring) :
  (forall sh, sh ∈ l -> sh_entries sh !! k = None) -> all_entries l !! k = None.
Proof.
  induction l as [|sh l IH]; intros H; cbn; [apply lookup_empty|].
  apply lookup_union_None. split; [apply H; left|]. apply IH. intros sh' ?. apply H. by right.
Qed.

(** A key is looked up in its own shard only. *)
Lemma all_entries_lookup n l i sh (k : gostring) :
  (forall j sh k, l !! j = Some sh -> is_Some (sh_entries sh !! k) -> shard_index n k = j) ->
  shard_index n k = i -> l !! i = Some sh -> all_entries l !! k = sh_entries sh !! k.
Proof.
  intros Hp Hi Hsh. assert (forall j s, l !! j = Some s -> j <> i -> sh_entries s !! k = None) as Hno.
  { intros j s Hj Hne. apply eq_None_not_Some. intros Hk. apply (Hp j s k Hj) in Hk. congruence. }
  clear Hp Hi. revert i Hsh Hno. induction l as [|s l IH]; intros i Hsh Hno; [done|]. cbn.
  destruct i as [|i]; cbn in Hsh.
  - simplify_eq. rewrite lookup_union_l; [done|]. apply all_entries_lookup_None.
    intros s' [j Hj]%list_elem_of_lookup. by apply (Hno (S j)).
  - rewrite lookup_union_r by (by apply (Hno 0%nat)). apply (IH i Hsh).
    intros j s' Hj Hne. apply (Hno (S j) s' Hj). lia.
Qed.

Lemma total_entries_insert l i sh sh' :
  l !! i = Some sh ->
  total_entries (<[i := sh']> l) =
  total_entries l + (Z.of_nat (size (sh_entries sh')) - Z.of_nat (size (sh_entries sh))).
Proof.
  revert i. induction l as [|s l IH]; intros [|i] H; cbn in H; simplify_eq; [cbn; lia|].
  change (<[S i := sh']> (s :: l)) with (s :: <[i := sh']> l). cbn [total_entries].
  rewrite (IH i H). lia.
Qed.

(** ** One shard changes *)

(** What an operation on the shard of [key] may do: keep the capacity, add no
    other key, and move the gauge by the change of the size. *)
Record shard_step (key : gostring) (sh sh' : CacheShard) (m m' : option Metrics) : Prop := {
  ss_max : sh_maxEntries sh' = sh_maxEntries sh;
  ss_size : Z.of_nat (size (sh_entries sh')) <= sh_maxEntries sh;
  ss_keys : forall k, is_Some (sh_entries sh' !! k) -> k = key \/ is_Some (sh_entries sh !! k);
  ss_gauge : forall g n, (forall x, m = Some x -> CacheSize x = g + n) ->
    forall x, m' = Some x ->
      CacheSize x = g + (n + (Z.of_nat (size (sh_entries sh')) - Z.of_nat (size (sh_entries sh))))
}.

Definition room (sh : CacheShard) : Prop :=
  0 < sh_maxEntries sh /\ Z.of_nat (size (sh_entries sh)) <= sh_maxEntries sh.

Lemma get_shard g0 sc k :
  sharded_ok g0 sc ->
  exists sh, shards sc !! shard_index (shardCount sc) k = Some sh /\ room sh /\
    all_entries (shards sc) !! k = sh_entries sh !! k.
Proof.
  intros [Hc Hl Hp Hm _]. destruct (lookup_lt_is_Some_2 (shards sc) (shard_index (shardCount sc) k)) as [sh Hsh].
  { rewrite Hl. by apply shard_index_lt. }
  exists sh. split; [done|]. split.
  - rewrite Forall_forall in Hm. by eapply Hm, list_elem_of_lookup_2.
  - by eapply all_entries_lookup.
Qed.

Lemma shard_step_ok g0 sc key sh sh' m' :
  sharded_ok g0 sc -> shards sc !! shard_index (shardCount sc) key = Some sh ->
  shard_step key sh sh' (sc_metrics sc) m' ->
  sharded_ok g0 (with_shards (<[shard_index (shardCount sc) key := sh']> (shards sc)) m' sc).
Proof.
  intros [Hc Hl Hp Hm Hg] Hsh [S1 S2 S3 S4]. pose proof (lookup_lt_Some _ _ _ Hsh) as Hlt.
  split; cbn; [done|by rewrite length_insert| | |].
  - intros i s k Hi Hk. destruct (decide (i = shard_index (shardCount sc) key)) as [->|Hne].
    + rewrite list_lookup_insert_eq in Hi by done. simplify_eq.
      destruct (S3 k Hk) as [->|Hk']; [done|]. by eapply Hp.
    + rewrite list_lookup_insert_ne in Hi by done. by eapply Hp.
  - apply Forall_insert; [done|]. rewrite S1. rewrite Forall_forall in Hm.
    destruct (Hm sh) as [? _]; [by eapply list_elem_of_lookup_2|]. done.
  - rewrite (total_entries_insert _ _ sh) by done. by apply S4.
Qed.

Lemma all_entries_insert g0 sc key sh' m' k :
  sharded_ok g0 sc ->
  sharded_ok g0 (with_shards (<[shard_index (shardCount sc) key := sh']> (shards sc)) m' sc) ->
  all_entries (<[shard_index (shardCount sc) key := sh']> (shards sc)) !! k =
  if decide (shard_index (shardCount sc) k = shard_index (shardCount sc) key)
  then sh_entries sh' !! k else all_entries (shards sc) !! k.
Proof.
  intros H1 H2. destruct (get_shard g0 sc k H1) as (s1 & Hs1 & _ & E1).
  destruct (get_shard g0 _ k H2) as (s2 & Hs2 & _ & E2).
  cbn [with_shards shards shardCount] in *. rewrite E2, E1.
  destruct (decide _) as [E|Hne].
  - rewrite E in Hs1, Hs2. rewrite list_lookup_insert_eq in Hs2 by (by eapply lookup_lt_Some). by simplify_eq.
  - rewrite list_lookup_insert_ne in Hs2 by done. by simplify_eq.
Qed.

Lemma gauge_same (g n : Z) (f : Metrics -> Metrics) m :
  (forall x, CacheSize (f x) = CacheSize x) ->
  (forall x, m = Some x -> CacheSize x = g + n) -> forall x, f <$> m = Some x -> CacheSize x = g + n.
Proof. intros Hf H x. destruct m as [m|]; [|done]. cbn. intros [= <-]. rewrite Hf. by apply H. Qed.

Lemma size_alter_touch (m : Entries) (k : gostring) (now : Z) :
  size (alter (touch now) k m) = size m.
Proof. by rewrite <- !(size_dom (D := gset gostring)), dom_alter_L. Qed.

Lemma shard_get_step now key sh m :
  room sh ->
  let '(sh', m', res) := shard_get now key sh m in
  shard_step key sh sh' m m' /\ abs (sh_entries sh') ⊆ abs (sh_entries sh) /\
  res = match abs (sh_entries sh) !! key with
        | Some (msg, tr, x) => if x <? now then None else Some (msg, tr)
        | None => None
        end.
Proof.
  intros [Hpos Hsz]. unfold shard_get.
  assert (abs (sh_entries sh) !! key = stored <$> sh_entries sh !! key) as -> by apply lookup_fmap.
  destruct (sh_entries sh !! key) as [e|] eqn:E; cbn.
  - unfold expired. destruct (expiresAt e <? now) eqn:Ex; cbn.
    + pose proof (size_delete_elem (sh_entries sh) key ltac:(eauto)) as Hd. split; [split|].
      * done.
      * cbn. lia.
      * cbn. intros k [e' H]. apply lookup_delete_Some in H as [_ H]. eauto.
      * cbn. intros g n Hg. rewrite Hd. replace (_ - 1 - _) with (-1) by lia.
        apply gauge_add, gauge_same; done.
      * split; [apply abs_subseteq, delete_subseteq|done].
    + split; [split|].
      * done.
      * cbn. by rewrite size_alter_touch.
      * cbn. intros k Hk. right. by apply lookup_alter_is_Some in Hk.
      * cbn. intros g n Hg. rewrite size_alter_touch, Z.sub_diag, Z.add_0_r. by apply gauge_same.
      * split; [by rewrite <- (abs_alter_touch (sh_entries sh) key now)|done].
  - split; [split|done]; cbn; try done; [auto|].
    intros g n Hg. rewrite Z.sub_diag, Z.add_0_r. by apply gauge_same.
Qed.

Lemma shard_evictLRU_room ord sh m :
  room sh -> sh_maxEntries sh <= Z.of_nat (size (sh_entries sh)) ->
  let '(sh', m') := shard_evictLRU ord sh m in
  exists k, is_Some (sh_entries sh !! k) /\ sh_entries sh' = delete k (sh_entries sh) /\
    sh_maxEntries sh' = sh_maxEntries sh /\ m' = add_CacheSize (-1) m.
Proof.
  intros [Hpos Hsz] Hfull. unfold shard_evictLRU. destruct (lru_victim _ _) as [k|] eqn:Ev.
  - apply lru_victim_spec in Ev as (e & Hk & _). exists k. split; [by eexists|done].
  - apply lru_victim_None in Ev. rewrite Ev, map_size_empty in Hfull. lia.
Qed.

Lemma shard_store_step ord key e sh m :
  room sh ->
  let '(sh', m') := shard_store ord key e sh m in
  shard_step key sh sh' m m' /\
  abs (sh_entries sh') ⊆ <[key := stored e]> (abs (sh_entries sh)) /\
  abs (sh_entries sh') !! key = Some (stored e).
Proof.
  intros Hroom. unfold shard_store.
  set (p := if sh_maxEntries sh <=? _ then _ else _).
  assert (Z.of_nat (size (sh_entries p.1)) < sh_maxEntries sh /\
    sh_maxEntries p.1 = sh_maxEntries sh /\ sh_entries p.1 ⊆ sh_entries sh /\
    forall g n, (forall x, m = Some x -> CacheSize x = g + n) -> forall x, p.2 = Some x ->
      CacheSize x = g + (n + (Z.of_nat (size (sh_entries p.1)) - Z.of_nat (size (sh_entries sh)))))
    as (Hlt & Hmax & Hsub & Hg).
  { unfold p. destruct (Z.leb_spec (sh_maxEntries sh) (Z.of_nat (size (sh_entries sh)))) as [Hf|Hf]; cbn [fst snd].
    - pose proof (shard_evictLRU_room ord sh m Hroom Hf) as H. destruct Hroom as [Hpos Hsz].
      destruct (shard_evictLRU ord sh m) as [sh1 m1]. destruct H as (k & Hk & E1 & E2 & E3).
      pose proof (size_delete_elem _ k Hk) as Hd. cbn [fst snd]. rewrite E1, E2, E3. split_and!; [lia|done|apply delete_subseteq|].
      intros g n Hgn. rewrite Hd. replace (_ - 1 - _) with (-1) by lia. by apply gauge_add.
    - split_and!; [done..|]. intros g n Hgn. by rewrite Z.sub_diag, Z.add_0_r. }
  clearbody p. destruct p as [s1 m1]. cbn [fst snd] in *. destruct Hroom as [Hpos Hsz].
  split; [split|].
  - done.
  - cbn. rewrite map_size_insert. destruct (sh_entries s1 !! key); cbn; lia.
  - cbn. intros k Hk. destruct (decide (k = key)) as [|Hne]; [by left|right].
    rewrite lookup_insert_ne in Hk by done. destruct Hk as [x Hx]. exists x. by eapply lookup_weaken.
  - cbn. intros g n Hgn. specialize (Hg g n Hgn). case_bool_decide as Hex.
    + by rewrite map_size_insert_Some by done.
    + rewrite map_size_insert_None by (by apply eq_None_not_Some).
      replace (n + _) with ((n + (Z.of_nat (size (sh_entries s1)) - Z.of_nat (size (sh_entries sh)))) + 1) by lia.
      by apply gauge_add.
  - cbn. unfold abs. rewrite fmap_insert. split; [|apply lookup_insert_eq].
    by apply insert_mono, map_fmap_mono.
Qed.

Definition put (key : gostring) (o : option Stored) (m : Ideal) : Ideal :=
  match o with Some s => <[key := s]> m | None => m end.

Lemma abs_lookup (m : Entries) (k : gostring) : abs m !! k = stored <$> m !! k.
Proof. apply lookup_fmap. Qed.

(** A change bounded in its shard is bounded in the whole. *)
Lemma all_entries_bound (g0 : Z) (sc : ShardedCache) (key : gostring) (sh sh' : CacheShard)
    (m' : option Metrics) (o : option Stored) :
  sharded_ok g0 sc -> shards sc !! shard_index (shardCount sc) key = Some sh ->
  sharded_ok g0 (with_shards (<[shard_index (shardCount sc) key := sh']> (shards sc)) m' sc) ->
  abs (sh_entries sh') ⊆ put key o (abs (sh_entries sh)) ->
  abs (all_entries (<[shard_index (shardCount sc) key := sh']> (shards sc))) ⊆
  put key o (abs (all_entries (shards sc))).
Proof.
  intros H1 Hsh H2 Hsub. apply map_subseteq_spec. intros k v Hk. rewrite abs_lookup in Hk.
  rewrite (all_entries_insert g0 sc key sh' m' k H1 H2) in Hk. destruct (decide _) as [Hi|Hne].
  - rewrite <- abs_lookup in Hk. eapply lookup_weaken in Hk; [|exact Hsub].
    assert (abs (all_entries (shards sc)) !! k = abs (sh_entries sh) !! k) as E.
    { rewrite !abs_lookup. f_equal. apply (all_entries_lookup (shardCount sc) _ _ sh k (so_placed _ _ H1) eq_refl).
      by rewrite Hi. }
    destruct o as [s|]; cbn in *; [|by rewrite E].
    destruct (decide (key = k)) as [->|]; [by rewrite lookup_insert_eq in *|].
    rewrite lookup_insert_ne in * by done. by rewrite E.
  - destruct o as [s|]; cbn; [|by rewrite abs_lookup].
    rewrite lookup_insert_ne by (intros ->; done). by rewrite abs_lookup.
Qed.

Lemma shards_map_ok (g0 : Z) (sc : ShardedCache) (f : CacheShard -> CacheShard) (m' : option Metrics) :
  (forall sh, sh_entries (f sh) ⊆ sh_entries sh /\ sh_maxEntries (f sh) = sh_maxEntries sh) ->
  sharded_ok g0 sc ->
  (forall m, m' = Some m -> CacheSize m = g0 + total_entries (f <$> shards sc)) ->
  sharded_ok g0 (with_shards (f <$> shards sc) m' sc) /\
  abs (all_entries (f <$> shards sc)) ⊆ abs (all_entries (shards sc)).
Proof.
  intros Hf Hok Hg.
  assert (sharded_ok g0 (with_shards (f <$> shards sc) m' sc)) as Hok'.
  { destruct Hok as [Hc Hl Hp Hm _]. split; cbn; [done|by rewrite length_fmap| | |done].
    - intros i sh k Hi [e He]. rewrite list_lookup_fmap in Hi.
      destruct (shards sc !! i) as [sh0|] eqn:E0; [|done]. injection Hi as <-.
      apply (Hp i sh0 k E0). exists e. eapply lookup_weaken; [done|apply Hf].
    - apply Forall_fmap. eapply Forall_impl; [done|]. intros sh [H1 H2]. cbn.
      destruct (Hf sh) as [Hsub ->]. apply map_subseteq_size in Hsub. lia. }
  split; [done|]. apply abs_subseteq, map_subseteq_spec. intros k e He.
  destruct (get_shard g0 sc k Hok) as (s1 & Hs1 & _ & E1).
  destruct (get_shard g0 _ k Hok') as (s2 & Hs2 & _ & E2).
  cbn [with_shards shards shardCount] in *. rewrite list_lookup_fmap, Hs1 in Hs2.
  injection Hs2 as <-. rewrite E2 in He. rewrite E1. eapply lookup_weaken; [done|apply Hf].
Qed.

Lemma clear_loop_spec l m :
  (clear_loop l m).1 = shard_clear <$> l /\
  forall g n, (forall x, m = Some x -> CacheSize x = g + n) ->
    forall x, (clear_loop l m).2 = Some x -> CacheSize x = g + (n - total_entries l).
Proof.
  revert m. induction l as [|sh l IH]; intros m; cbn.
  { split; [done|]. intros g n H x Hx. rewrite Z.sub_0_r. auto. }
  set (m1 := if _ <? _ then _ else _). destruct (IH m1) as [E H].
  destruct (clear_loop l m1) as [l' m2]. cbn in *. split; [by rewrite E|].
  intros g n Hgn x Hx. rewrite (H g (n - Z.of_nat (size (sh_entries sh)))) with (x := x); [lia| |done].
  unfold m1. destruct (Z.ltb_spec 0 (Z.of_nat (size (sh_entries sh)))).
  - by apply gauge_add.
  - replace (n - _) with n by lia. done.
Qed.

Lemma total_entries_clear l : total_entries (shard_clear <$> l) = 0.
Proof. induction l as [|sh l IH]; [done|]. cbn. rewrite map_size_empty. exact IH. Qed.

Lemma all_entries_clear l : all_entries (shard_clear <$> l) = ∅.
Proof. induction l as [|sh l IH]; [done|]. cbn. rewrite (left_id_L ∅ _). exact IH. Qed.

Lemma Sharded_Clear_ok g0 sc :
  sharded_ok g0 sc ->
  sharded_ok g0 (Sharded_Clear sc) /\ sc_cfg (Sharded_Clear sc) = sc_cfg sc /\
  abs (all_entries (shards (Sharded_Clear sc))) = ∅.
Proof.
  intros Hok. unfold Sharded_Clear. destruct (clear_loop_spec (shards sc) (sc_metrics sc)) as [E H].
  destruct (clear_loop _ _) as [l m]. cbn in E, H. subst l. split; [|split; [done|]].
  - apply shards_map_ok; [|done|].
    + intros sh. split; [apply map_empty_subseteq|done].
    + intros x Hx. rewrite total_entries_clear.
      rewrite (H g0 _ (so_gauge _ _ Hok) x Hx). lia.
  - cbn [with_shards shards]. rewrite all_entries_clear. apply fmap_empty.
Qed.

Lemma total_entries_cleanup now l : total_entries (shard_cleanup now <$> l) <= total_entries l.
Proof.
  induction l as [|sh l IH]; cbn; [done|]. pose proof (live_size now (sh_entries sh)).
  cbn in *. lia.
Qed.

Section implementation.
Context {DL : DnsLib}.

#[export] Instance Sharded_impl : CacheImpl ShardedCache := {|
  c_cfg := sc_cfg;
  c_GetWithTrace := Sharded_GetWithTrace;
  c_Set := Sharded_Set;
  c_SetWithTrace := Sharded_SetWithTrace;
  c_SetBlocked := Sharded_SetBlocked;
  c_cleanup := Sharded_cleanup;
  c_Clear := Sharded_Clear;
  c_ClearBlocklistDecisions := Sharded_ClearBlocklistDecisions
|}.

Lemma Sharded_store_ok (ord : MapOrder) (now ttl : Z) (r resp : Msg) (tr : list BlockTraceEntry)
    (g0 : Z) (sc : ShardedCache) :
  sharded_ok g0 sc ->
  let sc' := if bool_decide (Msg_Question r = []) then sc
             else if ttl <=? 0 then sc else Sharded_store ord r (mk_entry now ttl resp tr) sc in
  sharded_ok g0 sc' /\ sc_cfg sc' = sc_cfg sc /\ true = true /\
  abs (all_entries (shards sc')) ⊆ ideal_store ttl now r resp tr (abs (all_entries (shards sc))) /\
  (true = true -> Msg_Question r <> [] -> 0 < ttl ->
   abs (all_entries (shards sc')) !! makeMsgKey r = Some (resp, tr, now + ttl)).
Proof.
  intros Hok. unfold ideal_store. case_bool_decide; cbn [orb]; [split_and!; done|].
  destruct (Z.leb_spec ttl 0); cbv zeta; [split_and!; done || lia|].
  unfold Sharded_store, on_shard. set (key := makeMsgKey r).
  destruct (get_shard g0 sc key Hok) as (sh & Hsh & Hroom & Hall). rewrite Hsh.
  pose proof (shard_store_step ord key (mk_entry now ttl resp tr) sh (sc_metrics sc) Hroom) as Hst.
  destruct (shard_store _ _ _ _ _) as [sh' m']. destruct Hst as (Hstep & Hsub & Hnew).
  pose proof (shard_step_ok _ _ _ _ _ _ Hok Hsh Hstep) as Hok'. cbn [fst].
  split_and!; [done..| |].
  - by apply (all_entries_bound g0 sc key sh sh' m' (Some (stored (mk_entry now ttl resp tr)))).
  - intros _ _ _. cbn [with_shards shards]. rewrite abs_lookup, (all_entries_insert g0 sc key sh' m' key Hok Hok').
    rewrite decide_True by done. by rewrite <- abs_lookup, Hnew.
Qed.

#[export] Instance Sharded_impl_ok (g0 : Z) : CacheImplOk ShardedCache.
Proof.
  apply (Build_CacheImplOk _ _ (sharded_ok g0) (fun sc => abs (all_entries (shards sc))) (fun _ => true)).
  - intros now r sc Hok. cbn [c_GetWithTrace Sharded_impl]. unfold Sharded_GetWithTrace, ideal_get.
    case_bool_decide; [split_and!; done|]. set (key := makeMsgKey r). unfold on_shard.
    destruct (get_shard g0 sc key Hok) as (sh & Hsh & Hroom & Hall). rewrite Hsh.
    pose proof (shard_get_step now key sh (sc_metrics sc) Hroom) as Hst.
    destruct (shard_get _ _ _ _) as [[sh' m'] res]. destruct Hst as (Hstep & Hsub & ->).
    pose proof (shard_step_ok _ _ _ _ _ _ Hok Hsh Hstep) as Hok'.
    split_and!; [done..| |].
    + by apply (all_entries_bound g0 sc key sh sh' m' None).
    + by rewrite !abs_lookup, Hall.
  - intros. by apply Sharded_store_ok.
  - done.
  - intros. by apply Sharded_store_ok.
  - intros now sc Hok. cbn [c_cleanup Sharded_impl]. unfold Sharded_cleanup.
    assert (forall sh, sh_entries (shard_cleanup now sh) ⊆ sh_entries sh /\
      sh_maxEntries (shard_cleanup now sh) = sh_maxEntries sh) as Hf
      by (intros sh; split; [apply map_filter_subseteq|done]).
    edestruct (shards_map_ok g0 sc (shard_cleanup now)) as [Ho Hs]; [done|done| |split_and!; done].
    intros m. pose proof (total_entries_cleanup now (shards sc)) as Hle.
    destruct (Z.ltb_spec 0 (total_entries (shards sc) - total_entries (shard_cleanup now <$> shards sc))).
    + intros Hm. replace (total_entries (shard_cleanup now <$> shards sc)) with
        (total_entries (shards sc) + - (total_entries (shards sc) - total_entries (shard_cleanup now <$> shards sc)))
        by lia.
      by eapply gauge_add; [apply so_gauge|].
    + intros Hm. rewrite (so_gauge _ _ Hok m Hm). lia.
  - intros sc Hok. destruct (Sharded_Clear_ok g0 sc Hok) as (? & ? & ?). split_and!; done.
  - intros sc Hok. destruct (Sharded_Clear_ok g0 sc Hok) as (? & ? & ?). split_and!; done.
Defined.

End implementation.

(** ** Theorems *)

Section theorems.
Context {DL : DnsLib}.

Lemma all_entries_new n per : all_entries (replicate n (MkShard ∅ 0 0 0 0 per)) = ∅.
Proof. induction n as [|n IH]; [done|]. cbn. rewrite (left_id_L ∅ _). exact IH. Qed.

Lemma total_entries_new n per : total_entries (replicate n (MkShard ∅ 0 0 0 0 per)) = 0.
Proof. induction n as [|n IH]; [done|]. cbn. exact IH. Qed.

Lemma entriesPerShard_ge c n : 10 <= entriesPerShard c n.
Proof. unfold entriesPerShard. destruct (Z.ltb_spec (Z.quot (MaxEntries c) n) 10); lia. Qed.

Definition gauge_of (m : option Metrics) : Z := match m with Some m => CacheSize m | None => 0 end.

Lemma NewSharded_ok cf m n sc :
  NewSharded cf m n = Ok sc -> 0 < n < 2 ^ 32 ->
  sharded_ok (gauge_of m) sc /\ abs (all_entries (shards sc)) = ∅ /\ sc_cfg sc = cf /\
  length (shards sc) = Z.to_nat n /\
  Forall (fun sh => sh_maxEntries sh = entriesPerShard cf n) (shards sc).
Proof.
  unfold NewSharded. intros H Hn. rewrite (proj2 (Z.leb_gt n 0)) in H by lia.
  destruct (_ <=? 0); [done|]. injection H as <-. cbn [shards sc_cfg].
  rewrite all_entries_new, length_replicate. pose proof (entriesPerShard_ge cf n) as Hper.
  split_and!; [|by apply fmap_empty|done|done|by apply Forall_replicate].
  split; cbn [shards shardCount sc_metrics]; [done|by rewrite length_replicate| | |].
  - intros i sh k [-> _]%lookup_replicate [e He]. cbn in He. by rewrite lookup_empty in He.
  - apply Forall_replicate. cbn. rewrite map_size_empty. lia.
  - intros x ->. rewrite total_entries_new. cbn. lia.
Qed.

(** The capacities never change. *)
Lemma cache_op_capacity o (sc : ShardedCache) :
  sh_maxEntries <$> shards (cache_op o sc).1 = sh_maxEntries <$> shards sc.
Proof.
  assert (forall (i : nat) sh sh' (l : list CacheShard), l !! i = Some sh -> sh_maxEntries sh' = sh_maxEntries sh ->
    sh_maxEntries <$> <[i := sh']> l = sh_maxEntries <$> l) as Hins.
  { intros i sh sh' l Hi E. rewrite list_fmap_insert, E. apply list_insert_id.
    by rewrite list_lookup_fmap, Hi. }
  assert (forall ord k e sh m, sh_maxEntries (shard_store ord k e sh m).1 = sh_maxEntries sh) as Hst.
  { intros ord k e sh m. unfold shard_store, shard_evictLRU.
    destruct (_ <=? _); [destruct (lru_victim _ _)|]; done. }
  assert (forall ord r e, sh_maxEntries <$> shards (Sharded_store ord r e sc) = sh_maxEntries <$> shards sc) as Hss.
  { intros ord r e. unfold Sharded_store, on_shard. destruct (shards sc !! _) as [sh|] eqn:E; [|done].
    specialize (Hst ord (makeMsgKey r) e sh (sc_metrics sc)). destruct (shard_store _ _ _ _ _) as [sh' m'].
    by eapply Hins. }
  assert (forall l m, sh_maxEntries <$> (clear_loop l m).1 = sh_maxEntries <$> l) as Hcl.
  { intros l m. destruct (clear_loop_spec l m) as [-> _]. by rewrite <- list_fmap_compose. }
  assert (sh_maxEntries <$> shards (Sharded_Clear sc) = sh_maxEntries <$> shards sc) as Hc.
  { unfold Sharded_Clear. specialize (Hcl (shards sc) (sc_metrics sc)). by destruct (clear_loop _ _). }
  destruct o; cbn; unfold Sharded_GetWithTrace, Sharded_Set, Sharded_SetWithTrace, Sharded_SetBlocked,
    Sharded_cleanup; try done.
  2-4: destruct (bool_decide _); [done|]; destruct (_ <=? _); [done|]; apply Hss.
  - destruct (bool_decide _); [done|]. unfold on_shard. destruct (shards sc !! _) as [sh|] eqn:E; [|done].
    destruct (shard_get _ _ _ _) as [[sh' m'] res] eqn:Eg. cbn. eapply Hins; [done|].
    unfold shard_get in Eg. destruct (sh_entries sh !! _); [destruct (expired _ _)|]; by simplify_eq.
  - cbn. by rewrite <- list_fmap_compose.
Qed.

Lemma total_entries_bound l per :
  Forall room l -> Forall (fun sh => sh_maxEntries sh = per) l ->
  total_entries l <= Z.of_nat (length l) * per.
Proof.
  intros H1. induction H1 as [|sh l [_ Hs] _ IH]; intros H2; cbn; [lia|].
  apply Forall_cons in H2 as [E H2]. specialize (IH H2). lia.
Qed.

Lemma run_cache_capacity os (sc : ShardedCache) :
  sh_maxEntries <$> shards (run_cache os sc).1 = sh_maxEntries <$> shards sc.
Proof.
  revert sc. induction os as [|o os IH]; intros sc; [done|]. cbn.
  pose proof (cache_op_capacity o sc) as H. destruct (cache_op o sc) as [c1 x]. cbn in H.
  specialize (IH c1). destruct (run_cache os c1) as [c2 xs]. cbn in *. congruence.
Qed.

(** C14: the sharded cache, too, only serves what the ideal cache would serve;
    it holds at most [shards * max(10, MaxEntries / shards)] entries, a key
    being found in the one shard its hash selects; and the shared gauge has
    moved by the number of entries. *)
Theorem sharded_refines_ideal (cf : CacheConfig) (m0 : option Metrics) (n : Z) (sc : ShardedCache)
    (os : list CacheOp) (Hnew : NewSharded cf m0 n = Ok sc) (Hn : 0 < n < 2 ^ 32) :
  let sc' := (run_cache os sc).1 in
  Forall2 served_ok (run_cache os sc).2 (run_ideal cf os ∅).2 /\
  total_entries (shards sc') <= n * entriesPerShard cf n /\
  (forall m, m0 <> None -> sc_metrics sc' = Some m -> CacheSize m = gauge_of m0 + total_entries (shards sc')) /\
  (forall k i sh, shards sc' !! i = Some sh -> is_Some (sh_entries sh !! k) ->
     i = shard_index (shardCount sc') k).
Proof.
  destruct (NewSharded_ok _ _ _ _ Hnew Hn) as (Hok & He & Hcfg & Hlen & Hmax).
  destruct (run_cache_sim (COK := Sharded_impl_ok (gauge_of m0)) os sc ∅ Hok) as (Hi & _ & _ & _ & H).
  { cbn. by rewrite He. }
  cbn in H. rewrite Hcfg in H. intros sc'. pose proof (run_cache_capacity os sc) as Hcap. fold sc' in Hcap.
  destruct Hi as [Hc Hl Hp Hm Hg]. split; [done|]. split; [|split; [intros; by apply Hg|]].
  - assert (length (shards sc') = Z.to_nat n) as Hl'.
    { apply (f_equal length) in Hcap. rewrite !length_fmap in Hcap. by rewrite Hcap. }
    replace n with (Z.of_nat (length (shards sc'))) at 1 by lia.
    apply total_entries_bound; [exact Hm|]. apply Forall_forall. intros sh Hsh.
    apply (list_elem_of_fmap_2 sh_maxEntries) in Hsh. rewrite Hcap in Hsh.
    apply list_elem_of_fmap in Hsh as (sh0 & -> & Hin). rewrite Forall_forall in Hmax. by apply Hmax.
  - intros k i sh Hi' Hk. symmetry. by eapply Hp.
Qed.

(** The round trip through the shards: a stored response with a positive
    lifetime is returned within it; unlike the single-lock cache this does not
    depend on [Enabled], which the sharded cache never reads. *)
Theorem sharded_set_get (g0 : Z) (sc : ShardedCache) (ord : MapOrder) (t t' : Z) (r resp : Msg)
    (tr : list BlockTraceEntry)
    (Hok : sharded_ok g0 sc) (Hq : Msg_Question r <> [])
    (Httl : 0 < determineTTL (sc_cfg sc) resp) (Ht : t' <= t + determineTTL (sc_cfg sc) resp) :
  (Sharded_GetWithTrace t' r (Sharded_SetWithTrace ord t r resp tr sc)).2 = Some (resp, tr).
Proof.
  destruct (c_SetWithTrace_ok (CacheImplOk := Sharded_impl_ok g0) ord t r resp tr sc Hok)
    as (Hok1 & _ & _ & _ & Hset).
  cbn in Hset, Hok1. specialize (Hset eq_refl Hq Httl).
  pose proof (c_get_ok (CacheImplOk := Sharded_impl_ok g0) t' r _ Hok1) as Hget.
  cbn [c_GetWithTrace Sharded_impl] in Hget. destruct (Sharded_GetWithTrace t' r _) as [c2 res].
  destruct Hget as (_ & _ & _ & _ & ->). cbn [c_on c_abs Sharded_impl_ok snd]. unfold ideal_get.
  rewrite bool_decide_eq_false_2 by done. rewrite Hset, (proj2 (Z.ltb_ge _ _)) by lia. done.
Qed.

End theorems.

Definition off_config : CacheConfig :=
  MkCacheConfig false 2 (60 * second) (3600 * second) (30 * second) (5 * second) 4.

Definition sample_sharded : ShardedCache :=
  MkSharded off_config (replicate 4 (MkShard ∅ 0 0 0 0 10)) 4 sample_metrics false.

Lemma sharded_refines_ideal_witness :
  NewSharded off_config sample_metrics 4 = Ok sample_sharded /\
  total_entries (shards (run_cache (CI := @Sharded_impl simple_dns) (take 4 sample_ops) sample_sharded).1) = 3 /\
  Forall2 served_ok (run_cache (CI := @Sharded_impl simple_dns) sample_ops sample_sharded).2
    (@run_ideal simple_dns off_config sample_ops ∅).2.
Proof.
  split; [by vm_compute|]. split; [by vm_compute|].
  apply (@sharded_refines_ideal simple_dns off_config sample_metrics 4 sample_sharded sample_ops);
    [by vm_compute|lia].
Defined.

Lemma sharded_set_get_witness :
  Enabled (sc_cfg sample_sharded) = false /\
  (@Sharded_GetWithTrace simple_dns 90000000000 sample_query
    (@Sharded_SetWithTrace simple_dns default_order 5 sample_query (sample_resp [300; 90]) [] sample_sharded)).2
  = Some (sample_resp [300; 90], []).
Proof.
  split; [done|].
  destruct (NewSharded_ok off_config sample_metrics 4 sample_sharded ltac:(by vm_compute) ltac:(lia)) as [Hok _].
  by apply (@sharded_set_get simple_dns _ sample_sharded default_order 5 90000000000 sample_query
    (sample_resp [300; 90]) [] Hok); vm_compute.
Defined.
