(* ===== verification/CircuitBreaker.v ===== *)
(** * The circuit breaker (pkg/forwarder/circuit_breaker.go)

    The breaker's atomics as one record, and [Call] in two parts, before and
    after the wrapped function: [call_enter] and [call_exit].  The clock
    readings are arguments.  Here [Call] runs alone; the interleavings of
    concurrent calls are the subject of [BreakerConc]. *)

From S2P Require Import Prelude GoStrings.
From stdpp Require Import options.
Local Open Scope Z_scope.

Inductive CircuitState := StateClosed | StateOpen | StateHalfOpen.

#[global] Instance CircuitState_eq_dec : EqDecision CircuitState.
Proof. solve_decision. Defined.

Definition CircuitState_String (s : CircuitState) : gostring :=
  match s with
  | StateClosed => str "closed"
  | StateOpen => str "open"
  | StateHalfOpen => str "half-open"
  end.

Record CircuitBreaker := MkBreaker {
  state : CircuitState;
  failures : Z;             (** int64 *)
  successes : Z;            (** int64 *)
  lastFailTime : Z;
  lastStateChange : Z;
  halfOpenReqs : Z;         (** int32 *)
  failureThreshold : Z;
  successThreshold : Z;
  timeout : Z;
  halfOpenMax : Z
}.

Definition NewCircuitBreaker (fthr sthr tmo now : Z) : CircuitBreaker :=
  MkBreaker StateClosed 0 0 0 now 0 fthr sthr tmo 3.

(** Field updates: each is one atomic store, add or compare-and-swap. *)
Definition set_state (s : CircuitState) (cb : CircuitBreaker) : CircuitBreaker :=
  MkBreaker s (failures cb) (successes cb) (lastFailTime cb) (lastStateChange cb)
    (halfOpenReqs cb) (failureThreshold cb) (successThreshold cb) (timeout cb) (halfOpenMax cb).
Definition set_failures (n : Z) (cb : CircuitBreaker) : CircuitBreaker :=
  MkBreaker (state cb) n (successes cb) (lastFailTime cb) (lastStateChange cb)
    (halfOpenReqs cb) (failureThreshold cb) (successThreshold cb) (timeout cb) (halfOpenMax cb).
Definition set_successes (n : Z) (cb : CircuitBreaker) : CircuitBreaker :=
  MkBreaker (state cb) (failures cb) n (lastFailTime cb) (lastStateChange cb)
    (halfOpenReqs cb) (failureThreshold cb) (successThreshold cb) (timeout cb) (halfOpenMax cb).
Definition set_lastFailTime (t : Z) (cb : CircuitBreaker) : CircuitBreaker :=
  MkBreaker (state cb) (failures cb) (successes cb) t (lastStateChange cb)
    (halfOpenReqs cb) (failureThreshold cb) (successThreshold cb) (timeout cb) (halfOpenMax cb).
Definition set_lastStateChange (t : Z) (cb : CircuitBreaker) : CircuitBreaker :=
  MkBreaker (state cb) (failures cb) (successes cb) (lastFailTime cb) t
    (halfOpenReqs cb) (failureThreshold cb) (successThreshold cb) (timeout cb) (halfOpenMax cb).
Definition set_halfOpenReqs (n : Z) (cb : CircuitBreaker) : CircuitBreaker :=
  MkBreaker (state cb) (failures cb) (successes cb) (lastFailTime cb) (lastStateChange cb)
    n (failureThreshold cb) (successThreshold cb) (timeout cb) (halfOpenMax cb).

Definition add_failures (cb : CircuitBreaker) : CircuitBreaker :=
  set_failures (wraps 64 (failures cb + 1)) cb.
Definition add_successes (cb : CircuitBreaker) : CircuitBreaker :=
  set_successes (wraps 64 (successes cb + 1)) cb.
Definition add_halfOpenReqs (d : Z) (cb : CircuitBreaker) : CircuitBreaker :=
  set_halfOpenReqs (wraps 32 (halfOpenReqs cb + d)) cb.

(** [onFailure]; [tf] and [tc] are the readings for the two time stores. *)
Definition onFailure (tf tc : Z) (cb : CircuitBreaker) : CircuitBreaker :=
  let cb := add_failures cb in
  let n := failures cb in
  let cb := set_lastFailTime tf cb in
  match state cb with
  | StateClosed =>
      if failureThreshold cb <=? n then set_lastStateChange tc (set_state StateOpen cb) else cb
  | StateHalfOpen =>
      set_successes 0 (set_failures 0 (set_lastStateChange tc (set_state StateOpen cb)))
  | StateOpen => cb
  end.

Definition onSuccess (tc : Z) (cb : CircuitBreaker) : CircuitBreaker :=
  let cb := add_successes cb in
  let n := successes cb in
  let cb := set_failures 0 cb in
  match state cb with
  | StateHalfOpen =>
      if successThreshold cb <=? n then set_lastStateChange tc (set_state StateClosed cb) else cb
  | _ => cb
  end.

(** What the first half of [Call] decides: run the function, with or without
    the deferred decrement, or fail fast. *)
Inductive Entry := Proceed (deferred : bool) | Reject.

Definition call_enter (t1 t2 : Z) (cb : CircuitBreaker) : CircuitBreaker * Entry :=
  match state cb with
  | StateOpen =>
      if timeout cb <? t1 - lastStateChange cb then
        (set_halfOpenReqs 0 (set_failures 0 (set_successes 0
           (set_lastStateChange t2 (set_state StateHalfOpen cb)))), Proceed false)
      else (cb, Reject)
  | StateHalfOpen =>
      let cb := add_halfOpenReqs 1 cb in
      if halfOpenMax cb <? halfOpenReqs cb then (add_halfOpenReqs (-1) cb, Reject)
      else (cb, Proceed true)
  | StateClosed => (cb, Proceed false)
  end.

Definition call_exit (ok deferred : bool) (tf tc : Z) (cb : CircuitBreaker) : CircuitBreaker :=
  let cb := if ok then onSuccess tc cb else onFailure tf tc cb in
  if deferred then add_halfOpenReqs (-1) cb else cb.

(** [Call] with the outcome of the function given; the result says whether the
    function ran. *)
Definition Call (t1 t2 tf tc : Z) (ok : bool) (cb : CircuitBreaker) : CircuitBreaker * bool :=
  match call_enter t1 t2 cb with
  | (cb, Reject) => (cb, false)
  | (cb, Proceed d) => (call_exit ok d tf tc cb, true)
  end.

Definition IsHealthy (cb : CircuitBreaker) : bool := negb (bool_decide (state cb = StateOpen)).

Definition GetStats (cb : CircuitBreaker) : Z * Z * CircuitState :=
  (failures cb, successes cb, state cb).

Definition Reset (now : Z) (cb : CircuitBreaker) : CircuitBreaker :=
  set_lastStateChange now (set_successes 0 (set_failures 0 (set_state StateClosed cb))).

(** ** The automaton *)

(** What a breaker is meant to be: closed with a number of consecutive
    failures, open since some time, or half-open with a number of successes. *)
Inductive Spec := SpClosed (fails : Z) | SpOpen (since : Z) | SpHalf (succ : Z).

Definition spec_run (fthr sthr tc : Z) (ok : bool) (s : Spec) : Spec :=
  match s with
  | SpClosed n => if ok then SpClosed 0 else if fthr <=? n + 1 then SpOpen tc else SpClosed (n + 1)
  | SpHalf n => if ok then (if sthr <=? n + 1 then SpClosed 0 else SpHalf (n + 1)) else SpOpen tc
  | SpOpen t => SpOpen t
  end.

Definition spec_call (fthr sthr tmo t1 tc : Z) (ok : bool) (s : Spec) : Spec * bool :=
  match s with
  | SpOpen since =>
      if tmo <? t1 - since then (spec_run fthr sthr tc ok (SpHalf 0), true) else (s, false)
  | _ => (spec_run fthr sthr tc ok s, true)
  end.

(** One call: the clock readings and the outcome of the function. *)
Record Invocation := MkInv { i_t1 : Z; i_t2 : Z; i_tf : Z; i_tc : Z; i_ok : bool }.

Fixpoint run_calls (calls : list Invocation) (cb : CircuitBreaker) : CircuitBreaker * list bool :=
  match calls with
  | [] => (cb, [])
  | i :: calls' =>
      let '(cb, b) := Call (i_t1 i) (i_t2 i) (i_tf i) (i_tc i) (i_ok i) cb in
      let '(cb, bs) := run_calls calls' cb in (cb, b :: bs)
  end.

Fixpoint run_spec (fthr sthr tmo : Z) (calls : list Invocation) (s : Spec) : Spec * list bool :=
  match calls with
  | [] => (s, [])
  | i :: calls' =>
      let '(s, b) := spec_call fthr sthr tmo (i_t1 i) (i_tc i) (i_ok i) s in
      let '(s, bs) := run_spec fthr sthr tmo calls' s in (s, b :: bs)
  end.

(** The breaker implements the automaton. *)
Definition implements (fthr sthr tmo : Z) (cb : CircuitBreaker) (s : Spec) : Prop :=
  failureThreshold cb = fthr /\ successThreshold cb = sthr /\ timeout cb = tmo /\
  halfOpenMax cb = 3 /\ halfOpenReqs cb = 0 /\
  match s with
  | SpClosed n => state cb = StateClosed /\ failures cb = n /\ 0 <= n < 2 ^ 63 - 1
  | SpOpen t => state cb = StateOpen /\ lastStateChange cb = t
  | SpHalf n => state cb = StateHalfOpen /\ successes cb = n /\ 0 <= n < 2 ^ 63 - 1
  end.

Lemma wraps_small w z : 1 <= w -> - 2 ^ (w - 1) <= z < 2 ^ (w - 1) -> wraps w z = z.
Proof.
  intros Hw Hz. unfold wraps. assert (2 ^ w = 2 * 2 ^ (w - 1)) as E.
  { rewrite <- Z.pow_succ_r by lia. f_equal. lia. }
  destruct (decide (0 <= z)) as [H|H].
  - rewrite Z.mod_small by lia. rewrite (proj2 (Z.ltb_lt _ _)) by lia. done.
  - rewrite <- (Z.mod_unique z (2 ^ w) (-1) (z + 2 ^ w)) by lia.
    rewrite (proj2 (Z.ltb_ge _ _)) by lia. lia.
Qed.

Lemma wraps64_succ n : 0 <= n < 2 ^ 63 - 1 -> wraps 64 (n + 1) = n + 1.
Proof. intros H. apply wraps_small; [lia|]. change (64 - 1) with 63. lia. Qed.

Lemma call_exit_implements fthr sthr tmo cb s ok tf tc :
  fthr <= 2 ^ 63 - 1 -> sthr <= 2 ^ 63 - 1 ->
  implements fthr sthr tmo cb s -> (forall t, s <> SpOpen t) ->
  implements fthr sthr tmo (call_exit ok false tf tc cb) (spec_run fthr sthr tc ok s).
Proof.
  intros Hf Hs (E1 & E2 & E3 & E4 & E5 & E6) Hno. unfold call_exit.
  destruct s as [n|t|n]; [|by destruct (Hno t)|]; destruct E6 as (Est & En & Hn).
  - destruct ok; unfold onSuccess, onFailure; cbn; rewrite Est; [by repeat split|].
    rewrite E1, En, wraps64_succ by done. destruct (Z.leb_spec fthr (n + 1)); unfold implements; cbn; rewrite ?wraps64_succ by lia; split_and!; done || lia.
  - destruct ok; unfold onSuccess, onFailure; cbn; rewrite Est; [|by repeat split].
    rewrite E2, En, wraps64_succ by done. destruct (Z.leb_spec sthr (n + 1)); unfold implements; cbn; rewrite ?wraps64_succ by lia; split_and!; done || lia.
Qed.

Lemma call_exit_deferred ok tf tc cb :
  halfOpenReqs cb = 0 ->
  call_exit ok true tf tc (add_halfOpenReqs 1 cb) = call_exit ok false tf tc cb.
Proof.
  intros H. destruct cb as [st f su lf lc ho ft sts tm hm]. cbn in H. subst.
  unfold call_exit, onSuccess, onFailure, add_halfOpenReqs. cbn.
  destruct ok, st; cbn; try done; destruct (_ <=? _); done.
Qed.

Lemma Call_implements fthr sthr tmo cb s i :
  fthr <= 2 ^ 63 - 1 -> sthr <= 2 ^ 63 - 1 -> implements fthr sthr tmo cb s ->
  let '(cb', b) := Call (i_t1 i) (i_t2 i) (i_tf i) (i_tc i) (i_ok i) cb in
  let '(s', b') := spec_call fthr sthr tmo (i_t1 i) (i_tc i) (i_ok i) s in
  implements fthr sthr tmo cb' s' /\ b = b'.
Proof.
  intros Hf Hs H. pose proof H as (E1 & E2 & E3 & E4 & E5 & E6). unfold Call, call_enter.
  destruct s as [n|t|n]; cbn [spec_call].
  - destruct E6 as (-> & _). split; [|done]. by apply call_exit_implements.
  - destruct E6 as (-> & Et). rewrite E3, Et. destruct (tmo <? _); [|done]. split; [|done].
    apply call_exit_implements; [done|done| |done]. repeat split; cbn; done || lia.
  - destruct E6 as (Est & E6). rewrite Est. cbv zeta.
    assert ((halfOpenMax (add_halfOpenReqs 1 cb) <? halfOpenReqs (add_halfOpenReqs 1 cb)) = false) as ->
      by (cbn; by rewrite E5, E4).
    split; [|done].
    rewrite call_exit_deferred by done. by apply call_exit_implements.
Qed.

(** C7: run by one caller at a time, the breaker is exactly the three-state
    automaton: it opens at the configured number of consecutive failures, fails
    fast until the timeout has passed, then probes, closes after the configured
    number of successes and reopens on the first failure.  Which calls are let
    through, and the state after them, agree for every sequence of calls. *)
Theorem breaker_refines_automaton (fthr sthr tmo now : Z) (calls : list Invocation)
    (Hf : fthr <= 2 ^ 63 - 1) (Hs : sthr <= 2 ^ 63 - 1) :
  let '(cb, bs) := run_calls calls (NewCircuitBreaker fthr sthr tmo now) in
  let '(s, bs') := run_spec fthr sthr tmo calls (SpClosed 0) in
  bs = bs' /\ implements fthr sthr tmo cb s.
Proof.
  assert (implements fthr sthr tmo (NewCircuitBreaker fthr sthr tmo now) (SpClosed 0)) as H
    by (repeat split; cbn; lia).
  revert H. generalize (NewCircuitBreaker fthr sthr tmo now), (SpClosed 0).
  induction calls as [|i calls IH]; intros cb s H; cbn; [done|].
  pose proof (Call_implements fthr sthr tmo cb s i Hf Hs H) as Hc.
  destruct (Call _ _ _ _ _ _) as [cb1 b], (spec_call _ _ _ _ _ _ _) as [s1 b'].
  destruct Hc as [Hi ->]. specialize (IH cb1 s1 Hi).
  destruct (run_calls calls cb1) as [cb2 bs], (run_spec fthr sthr tmo calls s1) as [s2 bs'].
  destruct IH as [-> ?]. done.
Qed.

(** Two failures open it; the third call is rejected; after the timeout a
    success is a probe, the second closes it. *)
Definition sample_calls : list Invocation :=
  [MkInv 1 1 1 1 false; MkInv 2 2 2 2 false; MkInv 10 10 10 10 true;
   MkInv 40 40 40 40 true; MkInv 41 41 41 41 true].

Lemma breaker_refines_automaton_witness :
  2 <= 2 ^ 63 - 1 /\
  (run_calls sample_calls (NewCircuitBreaker 2 2 30 0)).2 = [true; true; false; true; true] /\
  implements 2 2 30 (run_calls sample_calls (NewCircuitBreaker 2 2 30 0)).1 (SpClosed 0).
Proof.
  split; [lia|].
  pose proof (breaker_refines_automaton 2 2 30 0 sample_calls ltac:(lia) ltac:(lia)) as H.
  destruct (run_calls sample_calls _) as [cb bs], (run_spec 2 2 30 sample_calls _) as [s bs'] eqn:E.
  vm_compute in E. injection E as <- <-. destruct H as [-> H]. split; [done|exact H].
Defined.
