(* ===== verification/BreakerConc.v ===== *)
(** * Concurrent calls of one circuit breaker

    [Call], [onFailure] and [onSuccess] of pkg/forwarder/circuit_breaker.go as
    sequences of atomic operations: a goroutine is a program counter with its
    local variables, a step is one load, store, add or compare-and-swap, and a
    schedule is an arbitrary interleaving of the steps of the goroutines. *)

From S2P Require Import Prelude CircuitBreaker.
From stdpp Require Import options.
Local Open Scope Z_scope.

(** [d]: the deferred decrement is pending.  [n], [e]: local variables. *)
Inductive PC :=
| PStart                        (** load the state *)
| POpen                         (** open: read the clock and [lastStateChange] *)
| PCas (e : Z)                  (** timeout passed: compare-and-swap to half-open *)
| PHalf1 | PHalf2 | PHalf3 | PHalf4  (** the four stores after winning *)
| PInc                          (** half-open: count the request *)
| PExec (d : bool)              (** the function is running *)
| PFail1 (d : bool)             (** [failures.Add(1)] *)
| PFail2 (d : bool) (n : Z)     (** store [lastFailTime] *)
| PFail3 (d : bool) (n : Z)     (** load the state *)
| PFailC (d : bool) (n : Z)     (** compare-and-swap closed to open *)
| PFailT (d : bool)             (** store [lastStateChange] *)
| PFailH (d : bool)             (** compare-and-swap half-open to open *)
| PFailH1 (d : bool) | PFailH2 (d : bool) | PFailH3 (d : bool)
| PSucc1 (d : bool)             (** [successes.Add(1)] *)
| PSucc2 (d : bool) (n : Z)     (** store [failures] *)
| PSucc3 (d : bool) (n : Z)     (** load the state *)
| PSuccC (d : bool) (n : Z)     (** compare-and-swap half-open to closed *)
| PSuccT (d : bool)             (** store [lastStateChange] *)
| PDefer (d : bool)             (** the deferred decrement, if any *)
| PDone.

Definition state_eqb (a b : CircuitState) : bool :=
  match a, b with
  | StateClosed, StateClosed | StateOpen, StateOpen | StateHalfOpen, StateHalfOpen => true
  | _, _ => false
  end.

Definition cas (a b : CircuitState) (cb : CircuitBreaker) : option CircuitBreaker :=
  if state_eqb (state cb) a then Some (set_state b cb) else None.

(** One atomic step at time [now]; [ok] is the outcome when the function ends. *)
Definition step (now : Z) (ok : bool) (pc : PC) (cb : CircuitBreaker) : PC * CircuitBreaker :=
  match pc with
  | PStart =>
      match state cb with
      | StateOpen => (POpen, cb)
      | StateHalfOpen => (PInc, cb)
      | StateClosed => (PExec false, cb)
      end
  | POpen =>
      let e := now - lastStateChange cb in
      if timeout cb <? e then (PCas e, cb) else (PDone, cb)
  | PCas e =>
      match cas StateOpen StateHalfOpen cb with
      | Some cb => (PHalf1, cb)
      | None => (PExec false, cb)
      end
  | PHalf1 => (PHalf2, set_lastStateChange now cb)
  | PHalf2 => (PHalf3, set_successes 0 cb)
  | PHalf3 => (PHalf4, set_failures 0 cb)
  | PHalf4 => (PExec false, set_halfOpenReqs 0 cb)
  | PInc =>
      let cb := add_halfOpenReqs 1 cb in
      if halfOpenMax cb <? halfOpenReqs cb then (PDefer true, cb) else (PExec true, cb)
  | PExec d => ((if ok then PSucc1 d else PFail1 d), cb)
  | PFail1 d => let cb := add_failures cb in (PFail2 d (failures cb), cb)
  | PFail2 d n => (PFail3 d n, set_lastFailTime now cb)
  | PFail3 d n =>
      match state cb with
      | StateClosed => if failureThreshold cb <=? n then (PFailC d n, cb) else (PDefer d, cb)
      | StateHalfOpen => (PFailH d, cb)
      | StateOpen => (PDefer d, cb)
      end
  | PFailC d n =>
      match cas StateClosed StateOpen cb with
      | Some cb => (PFailT d, cb)
      | None => (PDefer d, cb)
      end
  | PFailT d => (PDefer d, set_lastStateChange now cb)
  | PFailH d =>
      match cas StateHalfOpen StateOpen cb with
      | Some cb => (PFailH1 d, cb)
      | None => (PDefer d, cb)
      end
  | PFailH1 d => (PFailH2 d, set_lastStateChange now cb)
  | PFailH2 d => (PFailH3 d, set_failures 0 cb)
  | PFailH3 d => (PDefer d, set_successes 0 cb)
  | PSucc1 d => let cb := add_successes cb in (PSucc2 d (successes cb), cb)
  | PSucc2 d n => (PSucc3 d n, set_failures 0 cb)
  | PSucc3 d n =>
      match state cb with
      | StateHalfOpen => if successThreshold cb <=? n then (PSuccC d n, cb) else (PDefer d, cb)
      | _ => (PDefer d, cb)
      end
  | PSuccC d n =>
      match cas StateHalfOpen StateClosed cb with
      | Some cb => (PSuccT d, cb)
      | None => (PDefer d, cb)
      end
  | PSuccT d => (PDefer d, set_lastStateChange now cb)
  | PDefer d => (PDone, if d then add_halfOpenReqs (-1) cb else cb)
  | PDone => (PDone, cb)
  end.

(** A schedule: which goroutine steps, when, and with which outcome. *)
Record Tick := MkTick { tid : nat; at_ : Z; outcome : bool }.

Definition Conf : Type := list PC * CircuitBreaker.

Definition conf_step (t : Tick) (c : Conf) : Conf :=
  match c.1 !! tid t with
  | None => c
  | Some pc => let '(pc, cb) := step (at_ t) (outcome t) pc c.2 in (<[tid t := pc]> c.1, cb)
  end.

Definition run_schedule (ts : list Tick) (c : Conf) : Conf := foldl (fun c t => conf_step t c) c ts.

Definition init (n : nat) (cb : CircuitBreaker) : Conf := (replicate n PStart, cb).

(** A goroutine running alone takes the steps of [CircuitBreaker.Call]. *)
Fixpoint run_alone (fuel : nat) (now : Z) (ok : bool) (pc : PC) (cb : CircuitBreaker) : PC * CircuitBreaker :=
  match fuel with
  | 0%nat => (pc, cb)
  | S fuel' => let '(pc, cb) := step now ok pc cb in run_alone fuel' now ok pc cb
  end.

(** The step semantics and the sequential [Call] agree: a goroutine that is
    not interrupted ends, within eighteen steps, in the state [Call] computes. *)
Theorem alone_is_Call (now : Z) (ok : bool) (cb : CircuitBreaker) :
  run_alone 18 now ok PStart cb = (PDone, (Call now now now now ok cb).1).
Proof.
  destruct cb as [st f su lf lc ho ft sts tm hm]. unfold Call, call_enter.
  destruct st; cbn [run_alone step state].
  - destruct ok; cbn -[wraps]; [done|].
    destruct (ft <=? _) eqn:E; cbn -[wraps]; unfold onFailure; cbn -[wraps]; rewrite ?E; done.
  - cbn -[wraps]. destruct (tm <? now - lc); cbn -[wraps]; [|done].
    destruct ok; cbn -[wraps]; [|done].
    destruct (sts <=? _) eqn:E; cbn -[wraps]; unfold onSuccess; cbn -[wraps]; rewrite ?E; done.
  - cbn -[wraps]. destruct (hm <? wraps 32 (ho + 1)); cbn -[wraps]; [done|].
    destruct ok; cbn -[wraps]; [|done].
    destruct (sts <=? _) eqn:E; cbn -[wraps]; unfold onSuccess; cbn -[wraps]; rewrite ?E; done.
Qed.

(** ** All interleavings *)

(** A goroutine about to change the state has seen what entitles it to. *)
Definition pc_ok (cb : CircuitBreaker) (pc : PC) : Prop :=
  match pc with
  | PCas e => timeout cb < e
  | PFailC _ n => failureThreshold cb <= n
  | PSuccC _ n => successThreshold cb <= n
  | _ => True
  end.

Definition same_config (a b : CircuitBreaker) : Prop :=
  failureThreshold b = failureThreshold a /\ successThreshold b = successThreshold a /\
  timeout b = timeout a /\ halfOpenMax b = halfOpenMax a.

Lemma cas_Some a b cb cb' :
  cas a b cb = Some cb' -> state cb = a /\ cb' = set_state b cb.
Proof. unfold cas. destruct (state cb) eqn:E, a; cbn; intros; simplify_eq; done. Qed.

Lemma step_ok now ok pc cb :
  pc_ok cb pc ->
  let '(pc', cb') := step now ok pc cb in
  same_config cb cb' /\ pc_ok cb' pc'.
Proof.
  intros H. destruct pc; cbn; try done.
  - by destruct (state cb).
  - destruct (Z.ltb_spec (timeout cb) (now - lastStateChange cb)); cbn; done.
  - destruct (cas _ _ cb) eqn:E; [|done]. by apply cas_Some in E as [_ ->].
  - by destruct (_ <? _).
  - by destruct ok.
  - destruct (state cb); cbn; try done. destruct (Z.leb_spec (failureThreshold cb) n); cbn; done.
  - destruct (cas _ _ cb) eqn:E; [|done]. by apply cas_Some in E as [_ ->].
  - destruct (cas _ _ cb) eqn:E; [|done]. by apply cas_Some in E as [_ ->].
  - destruct (state cb); cbn; try done. destruct (Z.leb_spec (successThreshold cb) n); cbn; done.
  - destruct (cas _ _ cb) eqn:E; [|done]. by apply cas_Some in E as [_ ->].
  - by destruct d.
Qed.

(** The legal transitions, with what the goroutine that makes them has seen. *)
Inductive edge (cb : CircuitBreaker) : PC -> CircuitState -> CircuitState -> Prop :=
| edge_stay pc s : edge cb pc s s
| edge_open d n : failureThreshold cb <= n -> edge cb (PFailC d n) StateClosed StateOpen
| edge_half e : timeout cb < e -> edge cb (PCas e) StateOpen StateHalfOpen
| edge_reopen d : edge cb (PFailH d) StateHalfOpen StateOpen
| edge_close d n : successThreshold cb <= n -> edge cb (PSuccC d n) StateHalfOpen StateClosed.

Lemma step_edge now ok pc cb :
  pc_ok cb pc -> edge cb pc (state cb) (state (step now ok pc cb).2).
Proof.
  intros H. destruct pc; cbn; try apply edge_stay.
  - destruct (state cb) eqn:E; cbn; rewrite E; apply edge_stay.
  - destruct (_ <? _); apply edge_stay.
  - destruct (cas _ _ cb) eqn:E; [|apply edge_stay]. apply cas_Some in E as [-> ->]. by apply edge_half.
  - destruct (_ <? _); apply edge_stay.
  - destruct (state cb) eqn:E; cbn; rewrite ?E; try apply edge_stay.
    destruct (_ <=? _); cbn; rewrite ?E; apply edge_stay.
  - destruct (cas _ _ cb) eqn:E; [|apply edge_stay]. apply cas_Some in E as [-> ->]. by apply edge_open.
  - destruct (cas _ _ cb) eqn:E; [|apply edge_stay]. apply cas_Some in E as [-> ->]. apply edge_reopen.
  - destruct (state cb) eqn:E; cbn; rewrite ?E; try apply edge_stay.
    destruct (_ <=? _); cbn; rewrite ?E; apply edge_stay.
  - destruct (cas _ _ cb) eqn:E; [|apply edge_stay]. apply cas_Some in E as [-> ->]. by apply edge_close.
  - destruct d; apply edge_stay.
Qed.

Definition conf_ok (cb0 : CircuitBreaker) (c : Conf) : Prop :=
  same_config cb0 c.2 /\ Forall (pc_ok c.2) c.1.

Lemma pc_ok_config a b pc : same_config a b -> pc_ok a pc -> pc_ok b pc.
Proof. intros (E1 & E2 & E3 & _). destruct pc; cbn; rewrite ?E1, ?E2, ?E3; done. Qed.

Lemma conf_step_ok cb0 t c : conf_ok cb0 c -> conf_ok cb0 (conf_step t c).
Proof.
  intros [Hc Hp]. unfold conf_step. destruct (c.1 !! tid t) as [pc|] eqn:E; [|done].
  pose proof (Forall_lookup_1 _ _ _ _ Hp E) as Hpc. pose proof (step_ok (at_ t) (outcome t) pc c.2 Hpc) as Hs.
  destruct (step _ _ _ _) as [pc' cb']. destruct Hs as [Hc' Hpc']. split; cbn.
  - destruct Hc as (? & ? & ? & ?), Hc' as (? & ? & ? & ?). repeat split; congruence.
  - apply Forall_insert; [|done]. eapply Forall_impl; [done|]. intros p. by apply pc_ok_config.
Qed.

Lemma run_schedule_ok cb0 ts c : conf_ok cb0 c -> conf_ok cb0 (run_schedule ts c).
Proof. revert c. induction ts as [|t ts IH]; intros c H; cbn; [done|]. by apply IH, conf_step_ok. Qed.

(** In every interleaving of any number of concurrent calls, the state
    moves only along the four edges of the automaton, and only by a goroutine
    entitled to it: closed to open after counting at least [failureThreshold]
    failures, open to half-open after seeing more than [timeout] elapse, half-
    open to closed after counting [successThreshold] successes. *)
Theorem interleaved_edges (n : nat) (cb0 : CircuitBreaker) (ts : list Tick) (t : Tick) (pc : PC) :
  let c := run_schedule ts (init n cb0) in
  c.1 !! tid t = Some pc -> edge cb0 pc (state c.2) (state (conf_step t c).2).
Proof.
  intros c Hpc. assert (conf_ok cb0 c) as [(E1 & E2 & E3 & E4) Hok].
  { apply run_schedule_ok. split; [done|]. apply Forall_replicate. done. }
  pose proof (Forall_lookup_1 _ _ _ _ Hok Hpc) as Hp.
  pose proof (step_edge (at_ t) (outcome t) pc c.2 Hp) as He.
  unfold conf_step. rewrite Hpc. destruct (step _ _ _ _) as [pc' cb']. cbn in *.
  destruct He; constructor; rewrite <- ?E1, <- ?E2, <- ?E3; done.
Qed.

(** ** What the interleavings allow *)

(** The calls whose function is running. *)
Definition is_running (pc : PC) : bool := match pc with PExec _ => true | _ => false end.
Definition running (c : Conf) : nat := length (List.filter is_running c.1).

Definition ticks (i k : nat) (now : Z) : list Tick := replicate k (MkTick i now true).

(** Goroutine 0 wins the transition; 1 to 3 are counted; 0 then resets the
    counter, and 4 to 6 are counted again. *)
Definition seven_probes (now : Z) : list Tick :=
  ticks 0 3 now ++ ticks 1 2 now ++ ticks 2 2 now ++ ticks 3 2 now ++
  ticks 0 4 now ++ ticks 4 2 now ++ ticks 5 2 now ++ ticks 6 2 now.

(** The half-open limit does not bound the concurrent probes: from any
    open breaker whose timeout has passed and whose counter is zero, there is an
    interleaving in which seven requests are in flight in the half-open state,
    although [halfOpenMax] is three.  The request that makes the transition is
    not counted, and its reset of the counter forgets those counted before. *)
Theorem half_open_limit_exceeded (cb : CircuitBreaker) (now : Z)
    (Hopen : state cb = StateOpen) (Hmax : halfOpenMax cb = 3) (Hzero : halfOpenReqs cb = 0)
    (Htime : timeout cb < now - lastStateChange cb) :
  let c := run_schedule (seven_probes now) (init 7 cb) in
  state c.2 = StateHalfOpen /\ running c = 7%nat /\ halfOpenReqs c.2 = 3.
Proof.
  destruct cb as [st f su lf lc ho ft sts tm hm]. cbn in *. subst.
  apply Z.ltb_lt in Htime. unfold run_schedule, seven_probes, ticks. cbn [replicate app foldl].
  unfold conf_step at 20; cbn. unfold conf_step at 19; cbn. rewrite Htime. cbn. done.
Qed.

Definition opens_then_probes (now : Z) : list Tick * list Tick :=
  (replicate 6 (MkTick 0 now false), ticks 1 3 now).

(** The fail-fast period can be skipped: the state is opened before its
    time stamp is written, so a call that arrives in between measures the
    timeout from the previous state change and starts probing at the very
    instant the breaker opened. *)
Lemma open_period_skipped (cb : CircuitBreaker) (now : Z)
    (Hclosed : state cb = StateClosed) (Hrange : 0 <= failures cb < 2 ^ 63 - 1)
    (Hthr : failureThreshold cb <= failures cb + 1)
    (Htime : timeout cb < now - lastStateChange cb) :
  let c1 := run_schedule (opens_then_probes now).1 (init 2 cb) in
  let c2 := run_schedule (opens_then_probes now).2 c1 in
  state c1.2 = StateOpen /\ state c2.2 = StateHalfOpen.
Proof.
  destruct cb as [st f su lf lc ho ft sts tm hm]. cbn -[Z.pow] in *. subst.
  apply Z.ltb_lt in Htime. apply Z.leb_le in Hthr.
  unfold run_schedule. cbn [replicate foldl]. unfold conf_step. cbn -[wraps].
  rewrite wraps64_succ by done. rewrite Hthr. cbn -[wraps]. rewrite Htime. done.
Qed.

Definition open_breaker : CircuitBreaker := (Call 5 5 5 5 false (NewCircuitBreaker 1 2 30 0)).1.

Lemma interleaved_edges_witness :
  (run_schedule (ticks 0 2 40) (init 2 open_breaker)).1 !! 0%nat = Some (PCas 35) /\
  edge open_breaker (PCas 35) StateOpen
    (state (conf_step (MkTick 0 41 true) (run_schedule (ticks 0 2 40) (init 2 open_breaker))).2).
Proof.
  split; [by vm_compute|].
  apply (interleaved_edges 2 open_breaker (ticks 0 2 40) (MkTick 0 41 true) (PCas 35)). by vm_compute.
Defined.

Lemma half_open_limit_exceeded_witness :
  halfOpenMax open_breaker = 3 /\ running (run_schedule (seven_probes 40) (init 7 open_breaker)) = 7%nat.
Proof.
  split; [done|].
  by destruct (half_open_limit_exceeded open_breaker 40) as (_ & H & _); try by vm_compute.
Defined.

Lemma open_period_skipped_witness :
  let cb := NewCircuitBreaker 1 2 30 0 in
  state (run_schedule (opens_then_probes 100).2
           (run_schedule (opens_then_probes 100).1 (init 2 cb))).2 = StateHalfOpen.
Proof.
  by destruct (open_period_skipped (NewCircuitBreaker 1 2 30 0) 100) as [_ H]; try (vm_compute; done).
Defined.
