(* ===== verification/Forwarder.v ===== *)
(** * Upstream forwarding (pkg/forwarder/forwarder.go, health.go)

    The forwarder with its round-robin index and its map of circuit breakers.
    The network, the request context and the clock are a parameter, the class
    [World]: state-passing functions of an arbitrary state [W].  The run state
    also records every exchange with an upstream, so that the theorems can say
    what was sent. *)

From Stdlib Require Import Ascii.
From S2P Require Import Prelude GoStrings GoNet DnsMsg CircuitBreaker.
From stdpp Require Import options.
Local Open Scope Z_scope.

(** ** UpstreamHealth (health.go) *)

Record CircuitBreakerConfig := MkCBConfig {
  cb_Enabled : bool; FailureThreshold : Z; SuccessThreshold : Z; TimeoutSeconds : Z
}.

Definition DefaultCircuitBreakerConfig : CircuitBreakerConfig := MkCBConfig true 5 2 30.

Record UpstreamHealth := MkHealth {
  breakers : gmap gostring CircuitBreaker;
  uh_config : CircuitBreakerConfig
}.

Definition second_ns : Z := 1000000000.

Definition config_breaker (c : CircuitBreakerConfig) (now : Z) : CircuitBreaker :=
  NewCircuitBreaker (FailureThreshold c) (SuccessThreshold c) (TimeoutSeconds c * second_ns) now.

Definition NewUpstreamHealth (upstreams : list gostring) (c : CircuitBreakerConfig) (now : Z)
    : UpstreamHealth :=
  MkHealth (foldl (fun m u => <[u := config_breaker c now]> m) ∅ upstreams) c.

Definition GetBreaker (uh : UpstreamHealth) (u : gostring) : option CircuitBreaker := breakers uh !! u.

Definition Health_IsHealthy (uh : UpstreamHealth) (u : gostring) : bool :=
  match breakers uh !! u with None => true | Some b => IsHealthy b end.

Definition set_breaker (u : gostring) (b : CircuitBreaker) (uh : UpstreamHealth) : UpstreamHealth :=
  MkHealth (<[u := b]> (breakers uh)) (uh_config uh).

Definition RecordResult (u : gostring) (ok : bool) (tf tc : Z) (uh : UpstreamHealth) : UpstreamHealth :=
  match breakers uh !! u with
  | None => uh
  | Some b => set_breaker u (if ok then onSuccess tc b else onFailure tf tc b) uh
  end.

Definition GetHealthyUpstreams (uh : UpstreamHealth) (upstreams : list gostring) : list gostring :=
  List.filter (Health_IsHealthy uh) upstreams.

Definition Health_GetStats (uh : UpstreamHealth) (u : gostring) : Z * Z * CircuitState :=
  match breakers uh !! u with None => (0, 0, StateClosed) | Some b => GetStats b end.

Definition GetAllStats (uh : UpstreamHealth) : gmap gostring CircuitState := state <$> breakers uh.

Definition ResetAll (now : Z) (uh : UpstreamHealth) : UpstreamHealth :=
  MkHealth (Reset now <$> breakers uh) (uh_config uh).

Definition AddUpstream (u : gostring) (now : Z) (uh : UpstreamHealth) : UpstreamHealth :=
  match breakers uh !! u with
  | Some _ => uh
  | None => set_breaker u (config_breaker (uh_config uh) now) uh
  end.

Definition RemoveUpstream (u : gostring) (uh : UpstreamHealth) : UpstreamHealth :=
  MkHealth (delete u (breakers uh)) (uh_config uh).

(** ** The world *)

Inductive Transport := UDP | TCP.
Inductive NetError := NetErr (what : gostring).
Inductive CtxError := Canceled | DeadlineExceeded.

Class World (W : Type) := {
  (** [dns.Client.ExchangeContext] *)
  w_exchange : Transport -> Msg -> gostring -> W -> result NetError (option Msg) * W;
  (** [ctx.Err()] *)
  w_ctxErr : W -> option CtxError * W;
  (** [time.Now()] *)
  w_now : W -> Z * W
}.

(** ** The forwarder *)

Record Forwarder := MkForwarder {
  upstreams : list gostring;
  health : option UpstreamHealth;
  f_timeout : Z;
  retries : Z;
  index : Z;                 (** uint32 *)
  servfailTCPRetry : bool
}.

Definition set_health (h : option UpstreamHealth) (f : Forwarder) : Forwarder :=
  MkForwarder (upstreams f) h (f_timeout f) (retries f) (index f) (servfailTCPRetry f).
Definition set_index (i : Z) (f : Forwarder) : Forwarder :=
  MkForwarder (upstreams f) (health f) (f_timeout f) (retries f) i (servfailTCPRetry f).
Definition SetTimeout (t : Z) (f : Forwarder) : Forwarder :=
  MkForwarder (upstreams f) (health f) t (retries f) (index f) (servfailTCPRetry f).
Definition SetRetries (n : Z) (f : Forwarder) : Forwarder :=
  MkForwarder (upstreams f) (health f) (f_timeout f) n (index f) (servfailTCPRetry f).

Record ForwarderConfig := MkForwarderConfig {
  UpstreamDNSServers : list gostring;
  CircuitBreakerCfg : CircuitBreakerConfig;
  ServfailTCPRetry : option bool
}.

Definition ServfailTCPRetryEnabled (c : ForwarderConfig) : bool :=
  match ServfailTCPRetry c with None => true | Some b => b end.

Definition isLocalUpstream (addr : gostring) : bool :=
  match SplitHostPort addr with
  | Err _ => false
  | Ok (host, _) => match ParseIP host with Some ip => IsLoopback ip | None => false end
  end.

Definition normalize_upstream (u : gostring) : gostring :=
  match SplitHostPort u with
  | Err _ => JoinHostPort u (str "53")
  | Ok _ => u
  end.

Definition NewForwarder (c : ForwarderConfig) (now : Z) : Forwarder :=
  let rawUpstreams :=
    if bool_decide (UpstreamDNSServers c = []) then [str "1.1.1.1:53"; str "8.8.8.8:53"]
    else UpstreamDNSServers c in
  let ups := map normalize_upstream rawUpstreams in
  let b := CircuitBreakerCfg c in
  let dflt z d := if z =? 0 then d else z in
  let b := MkCBConfig (cb_Enabled b) (dflt (FailureThreshold b) 5) (dflt (SuccessThreshold b) 2)
             (dflt (TimeoutSeconds b) 30) in
  let enabled :=
    match ups with
    | [u] => if isLocalUpstream u then false else cb_Enabled b
    | _ => cb_Enabled b
    end in
  MkForwarder ups
    (if enabled
     then Some (NewUpstreamHealth ups
            (MkCBConfig enabled (FailureThreshold b) (SuccessThreshold b) (TimeoutSeconds b)) now)
     else None)
    (2 * second_ns) 2 0 (ServfailTCPRetryEnabled c).

(** ** Runs *)

Record Exchange := MkExchange {
  x_net : Transport; x_upstream : gostring; x_result : result NetError (option Msg)
}.

Inductive QueryError := QNet (e : NetError) | QCircuitOpen | QNilResponse (u : gostring).

Inductive ForwardError :=
| ErrNoUpstreamsConfigured
| ErrNoHealthyUpstreams
| ErrCtx (e : CtxError)
| ErrAllFailed (last : option QueryError)
| PanicNoQuestion.          (** the log lines index [r.Question[0]] *)

Section forwarder.
Context {W : Type} {WW : World W}.

Record Run := MkRun { fw : Forwarder; world : W; sent : list Exchange }.

Definition with_fw (f : Forwarder) (s : Run) : Run := MkRun f (world s) (sent s).

Definition exchange (net : Transport) (r : Msg) (u : gostring) (s : Run)
    : result NetError (option Msg) * Run :=
  let '(res, w) := w_exchange net r u (world s) in
  (res, MkRun (fw s) w (sent s ++ [MkExchange net u res])).

Definition ctxErr (s : Run) : option CtxError * Run :=
  let '(e, w) := w_ctxErr (world s) in (e, MkRun (fw s) w (sent s)).

Definition now (s : Run) : Z * Run :=
  let '(t, w) := w_now (world s) in (t, MkRun (fw s) w (sent s)).

Definition update_breaker (u : gostring) (b : CircuitBreaker) (s : Run) : Run :=
  match health (fw s) with
  | None => s
  | Some uh => with_fw (set_health (Some (set_breaker u b uh)) (fw s)) s
  end.

(** The guarded exchange of the three forwarding functions: through the
    breaker when there is one for the upstream. *)
Definition guarded_exchange (net : Transport) (r : Msg) (u : gostring) (s : Run)
    : result QueryError (option Msg) * Run :=
  let plain s :=
    match exchange net r u s with
    | (Ok m, s) => (Ok m, s)
    | (Err e, s) => (Err (QNet e), s)
    end in
  match health (fw s) with
  | None => plain s
  | Some uh =>
      match GetBreaker uh u with
      | None => plain s
      | Some b =>
          let '(t1, s) := now s in
          let '(t2, s) := now s in
          match call_enter t1 t2 b with
          | (b, Reject) => (Err QCircuitOpen, update_breaker u b s)
          | (b, Proceed d) =>
              let '(res, s) := exchange net r u (update_breaker u b s) in
              let '(tf, s) := now s in
              let '(tc, s) := now s in
              match res with
              | Ok m => (Ok m, update_breaker u (call_exit true d tf tc b) s)
              | Err e => (Err (QNet e), update_breaker u (call_exit false d tf tc b) s)
              end
          end
      end
  end.

(** [retryOverTCP]: the answer when TCP gives one that is not SERVFAIL. *)
Definition retryOverTCP (r : Msg) (u : gostring) (s : Run) : option Msg * Run :=
  match exchange TCP r u s with
  | (Ok (Some m), s) => (if Rcode m =? RcodeServerFailure then None else Some m, s)
  | (_, s) => (None, s)
  end.

Definition selectUpstream (s : Run) : result ForwardError gostring * Run :=
  let f := fw s in
  let ups := match health f with
             | None => upstreams f
             | Some uh => GetHealthyUpstreams uh (upstreams f)
             end in
  match ups with
  | [] => (Err ErrNoHealthyUpstreams, s)
  | _ =>
      let i := wrapu 32 (index f + 1) in
      (Ok (default [] (ups !! Z.to_nat (i mod Z.of_nat (length ups)))), with_fw (set_index i f) s)
  end.

(** [f.health.RecordResult] after a nil response. *)
Definition record_nil (u : gostring) (s : Run) : Run :=
  match health (fw s) with
  | None => s
  | Some uh =>
      let '(tf, s) := now s in
      let '(tc, s) := now s in
      with_fw (set_health (Some (RecordResult u false tf tc uh)) (fw s)) s
  end.

(** The outcome of one attempt: return, or go on with a last error. *)
Inductive Attempt := Return (res : result ForwardError Msg) | Continue (e : QueryError).

(** What happens after the guarded UDP exchange of [Forward] and
    [ForwardWithUpstreams]; [Forward] also records a nil response. *)
Definition after_exchange (record : bool) (r : Msg) (u : gostring)
    (res : result QueryError (option Msg)) (s : Run) : Attempt * Run :=
  match res with
  | Err e =>
      if servfailTCPRetry (fw s) then
        match retryOverTCP r u s with
        | (Some m, s) => (Return (Ok m), s)
        | (None, s) => (Continue e, s)
        end
      else (Continue e, s)
  | Ok None => (Continue (QNilResponse u), if record then record_nil u s else s)
  | Ok (Some resp) =>
      if (Rcode resp =? RcodeServerFailure) && servfailTCPRetry (fw s) then
        match retryOverTCP r u s with
        | (Some m, s) => (Return (Ok m), s)
        | (None, s) => (Return (Ok resp), s)
        end
      else (Return (Ok resp), s)
  end.

(** One iteration of [Forward]'s loop. *)
Definition forward_attempt (r : Msg) (s : Run) : Attempt * Run :=
  match ctxErr s with
  | (Some e, s) => (Return (Err (ErrCtx e)), s)
  | (None, s) =>
      match selectUpstream s with
      | (Err e, s) => (Return (Err e), s)
      | (Ok u, s) =>
          if bool_decide (Msg_Question r = []) then (Return (Err PanicNoQuestion), s)
          else let '(res, s) := guarded_exchange UDP r u s in after_exchange true r u res s
      end
  end.

(** One iteration of [ForwardTCP]'s loop. *)
Definition forward_tcp_attempt (r : Msg) (s : Run) : Attempt * Run :=
  match ctxErr s with
  | (Some e, s) => (Return (Err (ErrCtx e)), s)
  | (None, s) =>
      match selectUpstream s with
      | (Err e, s) => (Return (Err e), s)
      | (Ok u, s) =>
          if bool_decide (Msg_Question r = []) then (Return (Err PanicNoQuestion), s)
          else
            let '(res, s) := guarded_exchange TCP r u s in
            match res with
            | Err e => (Continue e, s)
            | Ok None => (Continue (QNilResponse u), record_nil u s)
            | Ok (Some resp) => (Return (Ok resp), s)
            end
      end
  end.

(** One iteration of [ForwardWithUpstreams]' loop, for the upstream at [i]. *)
Definition forward_to_attempt (r : Msg) (u : gostring) (s : Run) : Attempt * Run :=
  match ctxErr s with
  | (Some e, s) => (Return (Err (ErrCtx e)), s)
  | (None, s) =>
      if bool_decide (Msg_Question r = []) then (Return (Err PanicNoQuestion), s)
      else let '(res, s) := guarded_exchange UDP r u s in after_exchange false r u res s
  end.

Fixpoint attempt_loop (n : nat) (attempt : Run -> Attempt * Run) (lastErr : option QueryError)
    (s : Run) : result ForwardError Msg * Run :=
  match n with
  | 0%nat => (Err (ErrAllFailed lastErr), s)
  | S n' =>
      match attempt s with
      | (Return res, s) => (res, s)
      | (Continue e, s) => attempt_loop n' attempt (Some e) s
      end
  end.

(** The number of attempts, [min(retries, len(upstreams))]. *)
Definition attempts (f : Forwarder) (ups : list gostring) : nat :=
  Z.to_nat (Z.min (retries f) (Z.of_nat (length ups))).

Definition Forward (r : Msg) (s : Run) : result ForwardError Msg * Run :=
  if bool_decide (upstreams (fw s) = []) then (Err ErrNoUpstreamsConfigured, s)
  else attempt_loop (attempts (fw s) (upstreams (fw s))) (forward_attempt r) None s.

Definition ForwardTCP (r : Msg) (s : Run) : result ForwardError Msg * Run :=
  if bool_decide (upstreams (fw s) = []) then (Err ErrNoUpstreamsConfigured, s)
  else attempt_loop (attempts (fw s) (upstreams (fw s))) (forward_tcp_attempt r) None s.

(** The loop over the given upstreams: [upstreams[i % len(upstreams)]], and [i]
    stays below their number. *)
Fixpoint to_loop (r : Msg) (us : list gostring) (lastErr : option QueryError) (s : Run)
    : result ForwardError Msg * Run :=
  match us with
  | [] => (Err (ErrAllFailed lastErr), s)
  | u :: us' =>
      match forward_to_attempt r u s with
      | (Return res, s) => (res, s)
      | (Continue e, s) => to_loop r us' (Some e) s
      end
  end.

Definition ForwardWithUpstreams (r : Msg) (us : list gostring) (s : Run)
    : result ForwardError Msg * Run :=
  if bool_decide (us = []) then (Err ErrNoUpstreamsConfigured, s)
  else to_loop r (take (attempts (fw s) us) us) None s.

(** ** What a run does *)

Definition breaker_of (s : Run) (v : gostring) : option CircuitBreaker :=
  match health (fw s) with Some uh => breakers uh !! v | None => None end.

(** From [s] to [s'] at most [n] exchanges took place, all with upstreams
    satisfying [P]; the configuration is unchanged; and only breakers of such
    upstreams changed. *)
Record progress (P : gostring -> Prop) (n : nat) (new : list Exchange) (s s' : Run) : Prop := {
  pr_sent : sent s' = sent s ++ new;
  pr_len : (length new <= n)%nat;
  pr_ups : Forall (fun x => P (x_upstream x)) new;
  pr_upstreams : upstreams (fw s') = upstreams (fw s);
  pr_retries : retries (fw s') = retries (fw s);
  pr_tcp : servfailTCPRetry (fw s') = servfailTCPRetry (fw s);
  pr_health : health (fw s') = None <-> health (fw s) = None;
  pr_breakers : forall v, ~ P v -> breaker_of s' v = breaker_of s v
}.

Lemma progress_nil P s s' :
  sent s' = sent s -> upstreams (fw s') = upstreams (fw s) -> retries (fw s') = retries (fw s) ->
  servfailTCPRetry (fw s') = servfailTCPRetry (fw s) -> health (fw s') = health (fw s) ->
  progress P 0 [] s s'.
Proof.
  intros E1 E2 E3 E4 E5. split; rewrite ?app_nil_r; try done; [by rewrite E5|].
  intros v _. unfold breaker_of. by rewrite E5.
Qed.

Lemma progress_trans P n1 n2 a b s1 s2 s3 :
  progress P n1 a s1 s2 -> progress P n2 b s2 s3 -> progress P (n1 + n2) (a ++ b) s1 s3.
Proof.
  intros [A1 A2 A3 A4 A5 A6 A7 A8] [B1 B2 B3 B4 B5 B6 B7 B8]. split; try congruence.
  - by rewrite B1, A1, app_assoc.
  - rewrite length_app. lia.
  - by apply Forall_app.
  - by rewrite B7.
  - intros v Hv. by rewrite B8, A8.
Qed.

Lemma progress_weaken P (Q : gostring -> Prop) n m a s s' :
  (forall v, P v -> Q v) -> (n <= m)%nat -> progress P n a s s' -> progress Q m a s s'.
Proof.
  intros HPQ Hnm [A1 A2 A3 A4 A5 A6 A7 A8]. split; try done; [lia| |].
  - eapply Forall_impl; [done|]. intros x. apply HPQ.
  - intros v Hv. apply A8. auto.
Qed.

Lemma exchange_progress net r u s :
  let '(res, s') := exchange net r u s in
  progress (eq u) 1 [MkExchange net u res] s s' /\ fw s' = fw s.
Proof. unfold exchange. destruct (w_exchange net r u (world s)) as [res w]. split; [by split; auto|done]. Qed.

Lemma now_progress P s : let '(t, s') := now s in progress P 0 [] s s' /\ fw s' = fw s.
Proof. unfold now. destruct (w_now (world s)) as [t w]. split; [by apply progress_nil|done]. Qed.

Lemma ctxErr_progress P s : let '(e, s') := ctxErr s in progress P 0 [] s s' /\ fw s' = fw s.
Proof. unfold ctxErr. destruct (w_ctxErr (world s)) as [e w]. split; [by apply progress_nil|done]. Qed.

Lemma set_health_progress (u : gostring) (uh : UpstreamHealth) (b : CircuitBreaker) s :
  health (fw s) = Some uh ->
  progress (eq u) 0 [] s (with_fw (set_health (Some (set_breaker u b uh)) (fw s)) s).
Proof.
  intros E. split; cbn; rewrite ?app_nil_r, ?E; try done.
  intros v Hv. unfold breaker_of. cbn. rewrite E. by rewrite lookup_insert_ne.
Qed.

Lemma update_breaker_progress u b s : progress (eq u) 0 [] s (update_breaker u b s).
Proof.
  unfold update_breaker. destruct (health (fw s)) as [uh|] eqn:E; [|by apply progress_nil].
  by apply set_health_progress.
Qed.

(** Reading the clock twice. *)
Lemma now2_progress P s :
  let '(t, s1) := now s in let '(t', s2) := now s1 in progress P 0 [] s s2 /\ fw s2 = fw s.
Proof.
  pose proof (now_progress P s) as H1. destruct (now s) as [t s1]. destruct H1 as [H1 E1].
  pose proof (now_progress P s1) as H2. destruct (now s1) as [t' s2]. destruct H2 as [H2 E2].
  split; [apply (progress_trans P 0 0 [] [] _ _ _ H1 H2)|congruence].
Qed.

Definition answered (m : Msg) (new : list Exchange) : Prop :=
  exists x, x ∈ new /\ x_result x = Ok (Some m).

Lemma guarded_exchange_progress net r u s :
  let '(res, s') := guarded_exchange net r u s in
  exists new, progress (eq u) 1 new s s' /\ (forall m, res = Ok (Some m) -> answered m new).
Proof.
  assert (forall s, let '(res, s') := match exchange net r u s with
      | (Ok m, s) => (Ok m, s) | (Err e, s) => (Err (QNet e), s) end in
    exists new, progress (eq u) 1 new s s' /\ (forall m, res = Ok (Some m) -> answered m new)) as Hplain.
  { intros s0. pose proof (exchange_progress net r u s0) as H. destruct (exchange net r u s0) as [res s1].
    destruct H as [H _]. destruct res as [m|e]; eexists; (split; [exact H|]); intros m' Hm'; [|done].
    injection Hm' as ->. eexists. split; [left|done]. }
  unfold guarded_exchange. destruct (health (fw s)) as [uh|]; [|apply Hplain].
  destruct (GetBreaker uh u) as [b|]; [|apply Hplain].
  pose proof (now2_progress (eq u) s) as H1. destruct (now s) as [t1 s1]. destruct (now s1) as [t2 s2].
  destruct H1 as [H1 _]. destruct (call_enter t1 t2 b) as [b' [d|]].
  - pose proof (update_breaker_progress u b' s2) as H2.
    pose proof (exchange_progress net r u (update_breaker u b' s2)) as H3.
    destruct (exchange net r u (update_breaker u b' s2)) as [res s3]. destruct H3 as [H3 _].
    pose proof (now2_progress (eq u) s3) as H4. destruct (now s3) as [tf s4].
    destruct (now s4) as [tc s5]. destruct H4 as [H4 _].
    pose proof (progress_trans _ _ _ _ _ _ _ _ H1 (progress_trans _ _ _ _ _ _ _ _ H2
      (progress_trans _ _ _ _ _ _ _ _ H3 H4))) as H.
    destruct res as [m|e]; eexists; (split;
      [exact (progress_trans _ _ _ _ _ _ _ _ H (update_breaker_progress u _ s5))|]); intros m' Hm'; [|done].
    injection Hm' as ->. eexists. split; [left|done].
  - exists []. split; [|done]. eapply progress_weaken; [| |
      exact (progress_trans _ _ _ _ _ _ _ _ H1 (update_breaker_progress u b' s2))]; auto.
Qed.

Lemma retryOverTCP_progress r u s :
  let '(o, s') := retryOverTCP r u s in
  exists new, progress (eq u) 1 new s s' /\ (forall m, o = Some m -> answered m new).
Proof.
  unfold retryOverTCP. pose proof (exchange_progress TCP r u s) as H.
  destruct (exchange TCP r u s) as [res s1]. destruct H as [H _].
  destruct res as [[m|]|e]; (eexists; split; [exact H|]); intros m' Hm'; try done.
  destruct (Rcode m =? _); [done|]. injection Hm' as ->. eexists. split; [left|done].
Qed.

Lemma record_nil_progress u s : progress (eq u) 0 [] s (record_nil u s).
Proof.
  unfold record_nil. destruct (health (fw s)) as [uh|] eqn:E; [|by apply progress_nil].
  pose proof (now2_progress (eq u) s) as H1. destruct (now s) as [t1 s1]. destruct (now s1) as [t2 s2].
  destruct H1 as [H1 E1]. unfold RecordResult. destruct (breakers uh !! u) as [b|] eqn:Eb.
  - apply (progress_trans _ _ _ _ _ _ _ _ H1). apply set_health_progress. by rewrite E1.
  - apply (progress_trans _ _ _ _ _ _ _ _ H1). apply progress_nil; try done. cbn. by rewrite E1.
Qed.

(** The progress of one attempt, and where its answer comes from. *)
Definition attempt_ok (P : gostring -> Prop) (n : nat) (s : Run) (o : Attempt * Run) : Prop :=
  exists new, progress P n new s o.2 /\ (forall m, o.1 = Return (Ok m) -> answered m new).

Lemma after_exchange_ok record r u res s new0 s0 :
  progress (eq u) 1 new0 s0 s -> (forall m, res = Ok (Some m) -> answered m new0) ->
  attempt_ok (eq u) 2 s0 (after_exchange record r u res s).
Proof.
  intros H0 Ha. unfold after_exchange.
  assert (forall k (o : option Msg * Run -> Attempt * Run),
    (forall x, (o x).2 = x.2) ->
    (forall x m, (o x).1 = Return (Ok m) -> x.1 = Some m \/ (x.1 = None /\ k = Some m)) ->
    (forall m, k = Some m -> answered m new0) ->
    attempt_ok (eq u) 2 s0 (o (retryOverTCP r u s))) as Htcp.
  { intros k o Ho1 Ho2 Hk. pose proof (retryOverTCP_progress r u s) as H.
    destruct (retryOverTCP r u s) as [x s1] eqn:E. destruct H as (new & Hp & Hm).
    exists (new0 ++ new). rewrite Ho1. split; [exact (progress_trans _ _ _ _ _ _ _ _ H0 Hp)|].
    intros m Hr. apply Ho2 in Hr as [Hx|[_ Hx]].
    - destruct (Hm m Hx) as (y & Hy & ?). exists y. split; [apply elem_of_app; by right|done].
    - destruct (Hk m Hx) as (y & Hy & ?). exists y. split; [apply elem_of_app; by left|done]. }
  assert (attempt_ok (eq u) 2 s0 (Continue (QNilResponse u), s)) as Hcont.
  { exists new0. split; [eapply progress_weaken; [..|exact H0]; auto|done]. }
  destruct res as [[resp|]|e].
  - destruct (_ && _).
    + apply (Htcp (Some resp) (fun x => match x with (Some m, s) => (Return (Ok m), s)
        | (None, s) => (Return (Ok resp), s) end)); [by intros [[|] ?]| |].
      * intros [[m'|] s1] m Hm; cbn in *; [left; congruence|right; split; [done|congruence]].
      * intros m [= ->]. by apply Ha.
    + exists new0. split; [eapply progress_weaken; [..|exact H0]; auto|].
      intros m Hm. apply Ha. cbn in Hm. congruence.
  - destruct record; [|done]. exists (new0 ++ []). split; [|done].
    eapply progress_weaken; [| |exact (progress_trans _ _ _ _ _ _ _ _ H0 (record_nil_progress u s))]; auto.
  - destruct (servfailTCPRetry (fw s)).
    + apply (Htcp None (fun x => match x with (Some m, s) => (Return (Ok m), s)
        | (None, s) => (Continue e, s) end)); [by intros [[|] ?]| |done].
      intros [[m'|] s1] m Hm; cbn in *; [left; congruence|done].
    + exists new0. split; [eapply progress_weaken; [..|exact H0]; auto|done].
Qed.

Lemma attempt_ok_weaken P (Q : gostring -> Prop) n s o :
  (forall v, P v -> Q v) -> attempt_ok P n s o -> attempt_ok Q n s o.
Proof. intros H (new & Hp & Hm). exists new. split; [by eapply progress_weaken|done]. Qed.

Lemma attempt_ok_return P n e s s' :
  progress P 0 [] s s' -> attempt_ok P n s (Return (Err e), s').
Proof. intros H. exists []. split; [eapply progress_weaken; [..|exact H]; auto; lia|done]. Qed.

(** A selected upstream is configured, and its breaker is not open. *)
Definition selectable (s : Run) (u : gostring) : Prop :=
  u ∈ upstreams (fw s) /\ forall b, breaker_of s u = Some b -> state b <> StateOpen.

Lemma selectUpstream_spec s :
  match selectUpstream s with
  | (Err _, s') => s' = s
  | (Ok u, s') => progress (eq u) 0 [] s s' /\ selectable s u
  end.
Proof.
  unfold selectUpstream.
  set (ups := match health (fw s) with Some uh => _ | None => _ end).
  assert (forall u, u ∈ ups -> selectable s u) as Hsel.
  { intros u Hu. unfold ups, selectable, breaker_of in *. destruct (health (fw s)) as [uh|]; [|done].
    unfold GetHealthyUpstreams in Hu. apply list_elem_of_In, filter_In in Hu as [Hin Hh].
    split; [by apply list_elem_of_In|]. intros b Hb. unfold Health_IsHealthy, IsHealthy in Hh.
    rewrite Hb in Hh. bsimpl. done. }
  destruct ups as [|u0 us]; [done|]. set (i := wrapu 32 (index (fw s) + 1)).
  pose proof (Z.mod_pos_bound i (Z.of_nat (length (u0 :: us))) ltac:(cbn; lia)) as Hi.
  destruct (lookup_lt_is_Some_2 (u0 :: us) (Z.to_nat (i mod Z.of_nat (length (u0 :: us))))) as [u Hu]; [lia|].
  rewrite Hu. cbn [default]. split; [by apply progress_nil|].
  apply Hsel. by eapply list_elem_of_lookup_2.
Qed.

Lemma guarded_attempt (net : Transport) (r : Msg) (u : gostring) (s : Run)
    (k : result QueryError (option Msg) -> Run -> Attempt * Run) :
  (forall res s' new0, progress (eq u) 1 new0 s s' -> (forall m, res = Ok (Some m) -> answered m new0) ->
     attempt_ok (eq u) 2 s (k res s')) ->
  attempt_ok (eq u) 2 s (let '(res, s') := guarded_exchange net r u s in k res s').
Proof.
  intros Hk. pose proof (guarded_exchange_progress net r u s) as H.
  destruct (guarded_exchange net r u s) as [res s']. destruct H as (new & Hp & Hm). by eapply Hk.
Qed.

Lemma attempt_ok_after P n s s1 o :
  progress P 0 [] s s1 -> attempt_ok P n s1 o -> attempt_ok P n s o.
Proof.
  intros H (new & Hp & Hm). exists new. split; [|done].
  exact (progress_trans _ _ _ _ _ _ _ _ H Hp).
Qed.

(** Select, then run an attempt on the selected upstream. *)
Lemma selected_attempt_ok (s : Run) (r : Msg) (body : gostring -> Run -> Attempt * Run) :
  (forall u s, attempt_ok (eq u) 2 s (body u s)) ->
  attempt_ok (selectable s) 2 s
    (match ctxErr s with
     | (Some e, s) => (Return (Err (ErrCtx e)), s)
     | (None, s) =>
         match selectUpstream s with
         | (Err e, s) => (Return (Err e), s)
         | (Ok u, s) =>
             if bool_decide (Msg_Question r = []) then (Return (Err PanicNoQuestion), s) else body u s
         end
     end).
Proof.
  intros Hbody. pose proof (ctxErr_progress (selectable s) s) as Hc. destruct (ctxErr s) as [[e|] s1];
    destruct Hc as [Hc Ec]; [by apply attempt_ok_return|].
  pose proof (selectUpstream_spec s1) as Hs. destruct (selectUpstream s1) as [[u|e] s2].
  2: { subst s2. by apply attempt_ok_return. }
  destruct Hs as [Hp Hsel].
  assert (selectable s u) as Hsel'.
  { unfold selectable, breaker_of in *. by rewrite Ec in Hsel. }
  apply (progress_weaken _ (selectable s) 0 0) in Hp; [|by intros ? <-|done].
  pose proof (progress_trans _ _ _ _ _ _ _ _ Hc Hp) as H02.
  case_bool_decide; [by apply attempt_ok_return|].
  eapply attempt_ok_after; [exact H02|]. eapply attempt_ok_weaken; [|apply Hbody]. by intros ? <-.
Qed.

Lemma forward_attempt_ok r s : attempt_ok (selectable s) 2 s (forward_attempt r s).
Proof.
  apply (selected_attempt_ok s r (fun u s => let '(res, s) := guarded_exchange UDP r u s in
    after_exchange true r u res s)).
  intros u s1. apply (guarded_attempt UDP r u s1 (fun res s => after_exchange true r u res s)).
  intros res s' new0. apply after_exchange_ok.
Qed.

Lemma forward_tcp_attempt_ok r s : attempt_ok (selectable s) 2 s (forward_tcp_attempt r s).
Proof.
  apply (selected_attempt_ok s r (fun u s => let '(res, s) := guarded_exchange TCP r u s in
    match res with
    | Err e => (Continue e, s)
    | Ok None => (Continue (QNilResponse u), record_nil u s)
    | Ok (Some resp) => (Return (Ok resp), s)
    end)).
  intros u s1. apply (guarded_attempt TCP r u s1 (fun res s => match res with
    | Err e => (Continue e, s)
    | Ok None => (Continue (QNilResponse u), record_nil u s)
    | Ok (Some resp) => (Return (Ok resp), s)
    end)).
  intros res s' new0 H0 Ha.
  assert (progress (eq u) 2 new0 s1 s') as H0' by (eapply progress_weaken; [..|exact H0]; auto).
  destruct res as [[resp|]|e]; cbn.
  - exists new0. split; [done|]. intros m Hm. apply Ha. cbn in Hm. congruence.
  - exists (new0 ++ []). split; [|done].
    eapply progress_weaken; [| |exact (progress_trans _ _ _ _ _ _ _ _ H0 (record_nil_progress u s'))]; auto.
  - exists new0. by split.
Qed.

(** What the theorems say of a whole call: the exchanges it made, the answer's
    origin, and the breakers that were open when it started. *)
Definition call_sound (n : nat) (s : Run) (o : result ForwardError Msg * Run) : Prop :=
  exists new, sent o.2 = sent s ++ new /\ (length new <= 2 * n)%nat /\
    Forall (fun x => x_upstream x ∈ upstreams (fw s)) new /\
    (forall m, o.1 = Ok m -> answered m new) /\
    (forall v b, breaker_of s v = Some b -> state b = StateOpen ->
       breaker_of o.2 v = Some b /\ Forall (fun x => x_upstream x <> v) new).

Lemma attempt_loop_sound n attempt lastErr s :
  (forall s, attempt_ok (selectable s) 2 s (attempt s)) ->
  call_sound n s (attempt_loop n attempt lastErr s).
Proof.
  intros Hat. revert lastErr s. induction n as [|n IH]; intros lastErr s; cbn [attempt_loop].
  { exists []. cbn. rewrite app_nil_r. split_and!; done || auto. }
  pose proof (Hat s) as (new & Hp & Hm). destruct (attempt s) as [a s1]. cbn in Hp, Hm.
  assert (forall v b, breaker_of s v = Some b -> state b = StateOpen ->
    breaker_of s1 v = Some b /\ Forall (fun x => x_upstream x <> v) new) as Hopen.
  { intros v b Hb Ho. assert (~ selectable s v) as Hno by (intros [_ H]; by apply (H b)).
    split; [by rewrite (pr_breakers _ _ _ _ _ Hp)|].
    eapply Forall_impl; [apply (pr_ups _ _ _ _ _ Hp)|]. intros x Hx <-. done. }
  assert (Forall (fun x => x_upstream x ∈ upstreams (fw s)) new) as Hups.
  { eapply Forall_impl; [apply (pr_ups _ _ _ _ _ Hp)|]. by intros x [? _]. }
  pose proof (pr_sent _ _ _ _ _ Hp) as Hsent. pose proof (pr_len _ _ _ _ _ Hp) as Hlen.
  destruct a as [res|e].
  - exists new. split_and!; [done|lia|done| |done]. intros m Hr. apply Hm. cbn in Hr. congruence.
  - destruct (IH (Some e) s1) as (new' & Hs' & Hl' & Hu' & Hm' & Ho').
    exists (new ++ new'). rewrite Hs', Hsent, app_assoc, length_app. split_and!; [done|lia| | |].
    + apply Forall_app. split; [done|]. by rewrite (pr_upstreams _ _ _ _ _ Hp) in Hu'.
    + intros m Hr. destruct (Hm' m Hr) as (x & Hx & ?). exists x. split; [apply elem_of_app; by right|done].
    + intros v b Hb Ho. destruct (Hopen v b Hb Ho) as [Hb1 Hf1]. destruct (Ho' v b Hb1 Ho) as [Hb2 Hf2].
      split; [done|by apply Forall_app].
Qed.

Lemma Forward_call_sound r s :
  call_sound (attempts (fw s) (upstreams (fw s))) s (Forward r s).
Proof.
  unfold Forward. case_bool_decide.
  - exists []. cbn [fst snd]. rewrite app_nil_r. split_and!; [done|cbn; lia|done|done|auto].
  - apply attempt_loop_sound, forward_attempt_ok.
Qed.

Lemma ForwardTCP_call_sound r s :
  call_sound (attempts (fw s) (upstreams (fw s))) s (ForwardTCP r s).
Proof.
  unfold ForwardTCP. case_bool_decide.
  - exists []. cbn [fst snd]. rewrite app_nil_r. split_and!; [done|cbn; lia|done|done|auto].
  - apply attempt_loop_sound, forward_tcp_attempt_ok.
Qed.

(** C8: [Forward] and [ForwardTCP], against any network: at most two exchanges
    per attempt and [min(retries, upstreams)] attempts, only with configured
    upstreams; an answer is one that an exchange of this call returned; and an
    upstream whose breaker is open is not contacted and its breaker not touched,
    so that no sequence of such calls lets it probe again. *)
Theorem forward_sound (r : Msg) (s : Run) :
  let n := attempts (fw s) (upstreams (fw s)) in
  call_sound n s (Forward r s) /\ call_sound n s (ForwardTCP r s).
Proof. split; [apply Forward_call_sound|apply ForwardTCP_call_sound]. Qed.

Lemma forward_to_attempt_ok r u s : attempt_ok (eq u) 2 s (forward_to_attempt r u s).
Proof.
  unfold forward_to_attempt. pose proof (ctxErr_progress (eq u) s) as Hc.
  destruct (ctxErr s) as [[e|] s1]; destruct Hc as [Hc _]; [by apply attempt_ok_return|].
  case_bool_decide; [by apply attempt_ok_return|]. eapply attempt_ok_after; [exact Hc|].
  apply (guarded_attempt UDP r u s1 (fun res s => after_exchange false r u res s)).
  intros res s' new0. apply after_exchange_ok.
Qed.

Lemma to_loop_sound r us lastErr s :
  exists new, progress (fun v => v ∈ us) (2 * length us) new s (to_loop r us lastErr s).2 /\
    (forall m, (to_loop r us lastErr s).1 = Ok m -> answered m new).
Proof.
  revert lastErr s. induction us as [|u us IH]; intros lastErr s; cbn [to_loop].
  { exists []. split; [by apply progress_nil|done]. }
  pose proof (forward_to_attempt_ok r u s) as (new & Hp & Hm).
  apply (progress_weaken _ (fun v => v ∈ u :: us) 2 2) in Hp; [|intros ? <-; left|done].
  destruct (forward_to_attempt r u s) as [[res|e] s1]; cbn in *.
  - exists new. split; [eapply progress_weaken; [..|exact Hp]; auto; lia|]. intros m Hr. apply Hm. congruence.
  - destruct (IH (Some e) s1) as (new' & Hp' & Hm'). exists (new ++ new'). split.
    + apply (progress_weaken _ (fun v => v ∈ u :: us) _ (2 * length us)) in Hp';
        [|intros v Hv; by right|lia].
      eapply progress_weaken; [| |exact (progress_trans _ _ _ _ _ _ _ _ Hp Hp')]; [done|lia].
    + intros m Hr. destruct (Hm' m Hr) as (x & Hx & ?). exists x. split; [apply elem_of_app; by right|done].
Qed.

Lemma ForwardWithUpstreams_ok r us s :
  let first := take (attempts (fw s) us) us in
  let '(res, s') := ForwardWithUpstreams r us s in
  exists new, progress (fun v => v ∈ first) (2 * length first) new s s' /\
    (forall m, res = Ok m -> answered m new).
Proof.
  unfold ForwardWithUpstreams. cbv zeta. case_bool_decide as E.
  - exists []. split; [|done]. eapply (progress_weaken (fun v => v ∈ take (attempts (fw s) us) us));
      [done| |by apply progress_nil]. lia.
  - pose proof (to_loop_sound r (take (attempts (fw s) us) us) None s) as (new & Hp & Hm).
    destruct (to_loop r _ None s) as [res s']. eauto.
Qed.

(** Conditional forwarding contacts only the first [min(retries, given)] of
    the given upstreams, at most twice each, changes no other breaker, and
    answers with what one of these exchanges returned. *)
Theorem forward_with_upstreams_sound (r : Msg) (us : list gostring) (s : Run) :
  let first := take (attempts (fw s) us) us in
  let '(res, s') := ForwardWithUpstreams r us s in
  exists new, progress (fun v => v ∈ first) (2 * length first) new s s' /\
    (forall m, res = Ok m -> answered m new).
Proof. apply ForwardWithUpstreams_ok. Qed.

(** A query with a question never makes the log lines panic. *)
Definition no_panic (a : Attempt) : Prop := a <> Return (Err PanicNoQuestion).

Lemma after_exchange_no_panic rec r u res s : no_panic (after_exchange rec r u res s).1.
Proof. unfold after_exchange, no_panic. destruct res as [[m|]|e]; repeat case_match; done. Qed.

Lemma selectUpstream_no_panic s s' : selectUpstream s <> (Err PanicNoQuestion, s').
Proof. unfold selectUpstream. repeat case_match; congruence. Qed.

Lemma attempt_loop_no_panic n attempt lastErr s :
  (forall s, no_panic (attempt s).1) -> (attempt_loop n attempt lastErr s).1 <> Err PanicNoQuestion.
Proof.
  intros Hat. revert lastErr s. induction n as [|n IH]; intros lastErr s; cbn [attempt_loop]; [done|].
  specialize (Hat s). destruct (attempt s) as [[res|e] s1]; [|apply IH].
  cbn in *. intros ->. by apply Hat.
Qed.

Lemma Forward_no_panic r s : Msg_Question r <> [] -> (Forward r s).1 <> Err PanicNoQuestion.
Proof.
  intros Hq. unfold Forward. case_bool_decide; [done|]. apply attempt_loop_no_panic. clear s H. intros s.
  unfold forward_attempt, no_panic. destruct (ctxErr s) as [[e|] s1]; [done|].
  destruct (selectUpstream s1) as [[u|e] s2] eqn:E.
  - rewrite bool_decide_eq_false_2 by done. destruct (guarded_exchange UDP r u s2) as [res s3].
    apply after_exchange_no_panic.
  - cbn. intros [= ->]. by eapply selectUpstream_no_panic.
Qed.

Lemma ForwardWithUpstreams_no_panic r us s :
  Msg_Question r <> [] -> (ForwardWithUpstreams r us s).1 <> Err PanicNoQuestion.
Proof.
  intros Hq. unfold ForwardWithUpstreams. case_bool_decide; [done|]. generalize (@None QueryError).
  generalize (take (attempts (fw s) us) us). intros l. revert s H. induction l as [|u l IH]; intros s H o; [done|].
  cbn [to_loop]. assert (no_panic (forward_to_attempt r u s).1) as Hn.
  { unfold forward_to_attempt, no_panic. destruct (ctxErr s) as [[e|] s1]; [done|].
    rewrite bool_decide_eq_false_2 by done. destruct (guarded_exchange UDP r u s1) as [res s2].
    apply after_exchange_no_panic. }
  destruct (forward_to_attempt r u s) as [[res|e] s1]; [|by apply IH].
  cbn in *. intros ->. by apply Hn.
Qed.


(** ** Availability *)

Lemma exchange_answers net r u s m :
  (w_exchange net r u (world s)).1 = Ok (Some m) -> (exchange net r u s).1 = Ok (Some m).
Proof. unfold exchange. by destruct (w_exchange net r u (world s)). Qed.

(** The breaker lets a call through: it is closed, or half-open with room for one. *)
Definition has_room (b : CircuitBreaker) : Prop :=
  match state b with
  | StateClosed => True
  | StateHalfOpen => halfOpenReqs (add_halfOpenReqs 1 b) <= halfOpenMax b
  | StateOpen => False
  end.

Lemma has_room_enters t1 t2 b : has_room b -> exists b' d, call_enter t1 t2 b = (b', Proceed d).
Proof.
  unfold has_room, call_enter. destruct (state b); [by eauto|done|]. intros H. rewrite (proj2 (Z.ltb_ge _ _)); [by eauto|done].
Qed.

Lemma guarded_exchange_answers net r u s :
  (forall w, exists m, (w_exchange net r u w).1 = Ok (Some m)) ->
  (forall b, breaker_of s u = Some b -> has_room b) ->
  exists m s', guarded_exchange net r u s = (Ok (Some m), s').
Proof.
  intros Hw Hb. unfold guarded_exchange.
  assert (forall s, exists m s', exchange net r u s = (Ok (Some m), s')) as Hx.
  { intros s0. destruct (Hw (world s0)) as [m Hm]. apply exchange_answers in Hm.
    destruct (exchange net r u s0) as [res s1]. cbn in Hm. subst. eauto. }
  unfold breaker_of, GetBreaker in *. destruct (health (fw s)) as [uh|].
  2: { destruct (Hx s) as (m & s' & ->). eauto. }
  destruct (breakers uh !! u) as [b|].
  2: { destruct (Hx s) as (m & s' & ->). eauto. }
  destruct (now s) as [t1 s1], (now s1) as [t2 s2]. destruct (has_room_enters t1 t2 b (Hb b eq_refl)) as (b' & d & ->).
  destruct (Hx (update_breaker u b' s2)) as (m & s3 & ->).
  destruct (now s3) as [tf s4], (now s4) as [tc s5]. eauto.
Qed.

(** C40: with a live context, a question, at least one attempt, a configured
    upstream that is not open, no half-open breaker without room for another call,
    and a network in which every UDP exchange is answered, [Forward] answers. *)
Theorem forward_available (r : Msg) (s : Run)
    (Hctx : forall w, (w_ctxErr w).1 = None) (Hq : Msg_Question r <> [])
    (Hretries : 0 < retries (fw s))
    (Hup : exists u, selectable s u)
    (Hroom : forall u b, breaker_of s u = Some b -> state b = StateHalfOpen -> has_room b)
    (Hnet : forall u w, exists m, (w_exchange UDP r u w).1 = Ok (Some m)) :
  exists m s', Forward r s = (Ok m, s').
Proof.
  destruct Hup as (u0 & Hu0 & Hb0). unfold Forward.
  rewrite bool_decide_eq_false_2 by (intros E; rewrite E in Hu0; by apply not_elem_of_nil in Hu0).
  assert (exists n, attempts (fw s) (upstreams (fw s)) = S n) as [n ->].
  { unfold attempts. assert (length (upstreams (fw s)) <> 0%nat).
    { intros E%nil_length_inv. rewrite E in Hu0. by apply not_elem_of_nil in Hu0. }
    exists (Z.to_nat (Z.min (retries (fw s)) (Z.of_nat (length (upstreams (fw s)))) - 1)). lia. }
  cbn [attempt_loop]. unfold forward_attempt.
  pose proof (ctxErr_progress (eq u0) s) as Hc. unfold ctxErr in *. pose proof (Hctx (world s)) as Hw.
  destruct (w_ctxErr (world s)) as [e w]. cbn in Hw. subst e. set (s1 := MkRun (fw s) w (sent s)) in *.
  pose proof (selectUpstream_spec s1) as Hs. destruct (selectUpstream s1) as [[u|e] s2] eqn:Esel.
  2: { exfalso. unfold selectUpstream in Esel. revert Esel. cbn [s1 fw].
    destruct (health (fw s)) as [uh|] eqn:Eh.
    - destruct (GetHealthyUpstreams uh (upstreams (fw s))) as [|x xs] eqn:Eg; [|done]. intros _.
      apply (not_elem_of_nil u0). rewrite <- Eg. unfold GetHealthyUpstreams.
      apply list_elem_of_In, filter_In. split; [by apply list_elem_of_In|].
      unfold Health_IsHealthy, IsHealthy, breaker_of in *. rewrite Eh in Hb0.
      destruct (breakers uh !! u0) as [b|]; [|done]. apply negb_true_iff, bool_decide_eq_false.
      by apply Hb0.
    - destruct (upstreams (fw s)) as [|x xs]; [|done]. by apply not_elem_of_nil in Hu0. }
  destruct Hs as [Hp [_ Hb]]. rewrite bool_decide_eq_false_2 by done.
  destruct (guarded_exchange_answers UDP r u s2) as (m & s3 & ->).
  - apply Hnet.
  - intros b Hb2. assert (breaker_of s u = Some b) as Hbs.
    { revert Hb2. unfold selectUpstream in Esel. unfold breaker_of.
      destruct (match health (fw s1) with Some _ => _ | None => _ end); [done|].
      injection Esel as _ <-. done. }
    destruct (state b) eqn:Es; [by unfold has_room; rewrite Es|by destruct (Hb b)|by apply (Hroom u b)].
  - unfold after_exchange. destruct (_ && _); [|eauto].
    destruct (retryOverTCP r u s3) as [[m'|] s4]; eauto.
Qed.

(** Failing fast is undone by the TCP retry: conditional forwarding to an
    upstream whose breaker is open and not timed out sends no UDP query, but,
    with the retry enabled as it is by default, still sends it one over TCP,
    outside the breaker. *)
Theorem open_breaker_tcp_retry (r : Msg) (u : gostring) (b : CircuitBreaker) (s : Run)
    (Hctx : forall w, (w_ctxErr w).1 = None) (Hq : Msg_Question r <> [])
    (Hretries : 0 < retries (fw s)) (Htcp : servfailTCPRetry (fw s) = true)
    (Hb : breaker_of s u = Some b) (Hopen : state b = StateOpen)
    (Htime : forall w, (w_now w).1 - lastStateChange b <= timeout b) :
  let '(res, s') := ForwardWithUpstreams r [u] s in
  exists x, sent s' = sent s ++ [MkExchange TCP u x] /\
    (forall m, res = Ok m -> x = Ok (Some m)).
Proof.
  unfold ForwardWithUpstreams. rewrite bool_decide_eq_false_2 by done.
  replace (attempts (fw s) [u]) with 1%nat by (unfold attempts; cbn; lia).
  change (take 1 [u]) with [u]. cbn [to_loop]. unfold forward_to_attempt, ctxErr.
  pose proof (Hctx (world s)) as Hc. destruct (w_ctxErr (world s)) as [e w0]. cbn in Hc. subst e.
  rewrite bool_decide_eq_false_2 by done. unfold guarded_exchange, breaker_of, GetBreaker in *. cbn [fw].
  destruct (health (fw s)) as [uh|] eqn:Eh; [|done]. rewrite Hb. unfold now. cbn [world].
  pose proof (Htime w0) as Ht. destruct (w_now w0) as [t1 w1]. cbn in Ht. cbn [world fw sent].
  destruct (w_now w1) as [t2 w2]. unfold call_enter. rewrite Hopen.
  rewrite (proj2 (Z.ltb_ge _ _)) by lia. unfold update_breaker. cbn [fw]. rewrite Eh.
  unfold after_exchange, with_fw. cbn [fw set_health servfailTCPRetry]. rewrite Htcp.
  unfold retryOverTCP, exchange. cbn [world sent fw].
  destruct (w_exchange TCP r u w2) as [[[m|]|e] w3]; [destruct (Rcode m =? _)|..];
    eexists; (split; [done|]); intros ? ?; simplify_eq; done.
Qed.

End forwarder.
Arguments Run W : clear implicits.

(** ** A concrete network

    Every UDP query is answered; the world is the clock. *)

Definition reply_to (r : Msg) (u : gostring) : Msg :=
  MkMsg (Id r) true 0 false false true true false false 0 (Msg_Question r) [] [] [].

Definition answering_world : World Z := {|
  w_exchange net r u w :=
    (match net with UDP => Ok (Some (reply_to r u)) | TCP => Err (NetErr []) end, w);
  w_ctxErr w := (None, w);
  w_now w := (w, w)
|}.

Definition two_upstreams : Forwarder :=
  NewForwarder (MkForwarderConfig [str "9.9.9.9"; str "[::1]:5353"] DefaultCircuitBreakerConfig None) 0.

Definition some_query : Msg :=
  MkMsg 7 false 0 false false true false false false 0 [MkQuestion (str "h.lan.") TypeA ClassINET] [] [] [].

Lemma forward_available_witness :
  upstreams two_upstreams = [str "9.9.9.9:53"; str "[::1]:5353"] /\
  is_ok (@Forward Z answering_world some_query (MkRun two_upstreams 5 [])).1 = true.
Proof.
  split; [by vm_compute|].
  assert (forall u b, breaker_of (MkRun two_upstreams 5 []) u = Some b -> state b = StateClosed) as Hb.
  { intros u b H. assert (map_Forall (fun _ b => state b = StateClosed)
      (breakers (default (MkHealth ∅ DefaultCircuitBreakerConfig) (health two_upstreams)))) as Hall
      by (apply (bool_decide_unpack _); by vm_compute).
    apply (Hall u b). exact H. }
  destruct (@forward_available Z answering_world some_query (MkRun two_upstreams 5 [])) as (m & s' & ->).
  - done.
  - done.
  - done.
  - exists (str "9.9.9.9:53"). split; [apply (bool_decide_unpack _); by vm_compute|].
    intros b H. by rewrite (Hb _ _ H).
  - intros u b H. by rewrite (Hb _ _ H).
  - intros u w. by eexists.
  - done.
Defined.

Definition tripped : Forwarder :=
  set_health (Some (MkHealth {[ str "9.9.9.9:53" :=
    (Call 5 5 5 5 false (NewCircuitBreaker 1 2 (30 * second_ns) 0)).1 ]} DefaultCircuitBreakerConfig))
    two_upstreams.

Definition frozen_world : World unit := {|
  w_exchange net r u w := (Ok (Some (reply_to r u)), w);
  w_ctxErr w := (None, w);
  w_now w := (6, w)
|}.

Lemma open_breaker_tcp_retry_witness :
  exists x, sent (@ForwardWithUpstreams unit frozen_world some_query [str "9.9.9.9:53"] (MkRun tripped tt [])).2
            = [MkExchange TCP (str "9.9.9.9:53") x].
Proof.
  pose proof (@open_breaker_tcp_retry unit frozen_world some_query (str "9.9.9.9:53")
    (Call 5 5 5 5 false (NewCircuitBreaker 1 2 (30 * second_ns) 0)).1 (MkRun tripped tt [])
    ltac:(done) ltac:(done) ltac:(done) eq_refl eq_refl eq_refl ltac:(done)) as H.
  destruct (ForwardWithUpstreams _ _ _) as [res s']. destruct H as (x & H & _). by exists x.
Defined.
