(* ===== verification/LocalRecords.v ===== *)
(** * Local DNS records (pkg/localrecords)

    The authoritative records that bypass the upstreams: validation, the exact
    map and the wildcard list, the lookups of every record type, and CNAME
    resolution.  Records are values: the code stores pointers, but no record is
    modified after [AddRecord] has normalized its name. *)

From Stdlib Require Import Ascii.
From S2P Require Import Prelude GoStrings GoNet.
From stdpp Require Import options.
Local Open Scope Z_scope.

Inductive RecordType :=
| RecordTypeA | RecordTypeAAAA | RecordTypeCNAME | RecordTypeMX | RecordTypeTXT
| RecordTypeSRV | RecordTypePTR | RecordTypeNS | RecordTypeSOA | RecordTypeCAA
| RecordTypeOther (s : gostring).      (** any other string *)

#[global] Instance RecordType_eq_dec : EqDecision RecordType.
Proof. solve_decision. Defined.

Record LocalRecord := MkLocalRecord {
  Domain : gostring; Type_ : RecordType; Target : gostring; Ns : gostring; Mbox : gostring;
  CaaTag : gostring; CaaValue : gostring; IPs : list IP; TxtRecords : list gostring;
  Serial : Z; TTL : Z; Refresh : Z; Retry : Z; Expire : Z; Minttl : Z;
  Priority : Z; Weight : Z; Port : Z; CaaFlag : Z; Wildcard : bool; Enabled : bool
}.

Definition with_Domain (d : gostring) (r : LocalRecord) : LocalRecord :=
  MkLocalRecord d (Type_ r) (Target r) (Ns r) (Mbox r) (CaaTag r) (CaaValue r) (IPs r)
    (TxtRecords r) (Serial r) (TTL r) (Refresh r) (Retry r) (Expire r) (Minttl r)
    (Priority r) (Weight r) (Port r) (CaaFlag r) (Wildcard r) (Enabled r).

Inductive RecordError :=
| ErrInvalidRecord | ErrRecordNotFound | ErrInvalidDomain | ErrInvalidIP | ErrEmptyTarget
| ErrNoIPs | ErrNoTxtData | ErrTxtTooLong | ErrInvalidSOA | ErrInvalidCAA.

(** ** util.go *)

Definition normalizeDomain (domain : gostring) : gostring :=
  let domain := ToLower (TrimSpace domain) in
  if negb (HasSuffix domain [dot]) then domain ++ [dot] else domain.

Definition matchesWildcard (domain pattern : gostring) : bool :=
  if HasPrefix pattern (str "*.") then
    let suffix := drop 2 pattern in
    if negb (HasSuffix domain suffix) || bytes_eqb domain suffix then false
    else
      let prefix := take (length domain - length suffix) domain in
      let prefix := TrimSuffix prefix [dot] in
      negb (Contains prefix [dot])
  else bytes_eqb domain pattern.

Definition empty (s : gostring) : bool := bytes_eqb s [].

(** [validateRecord]: [None] when the record is valid. *)
Definition validateRecord (r : LocalRecord) : option RecordError :=
  if empty (Domain r) then Some ErrInvalidDomain
  else match Type_ r with
  | RecordTypeA =>
      if bool_decide (IPs r = []) then Some ErrNoIPs
      else if forallb (fun ip => bool_decide (is_Some (To4 ip))) (IPs r) then None
      else Some ErrInvalidIP
  | RecordTypeAAAA =>
      if bool_decide (IPs r = []) then Some ErrNoIPs
      else if forallb (fun ip => negb (bool_decide (is_Some (To4 ip)))) (IPs r) then None
      else Some ErrInvalidIP
  | RecordTypeCNAME | RecordTypeMX | RecordTypePTR | RecordTypeNS =>
      if empty (Target r) then Some ErrEmptyTarget else None
  | RecordTypeSRV =>
      if empty (Target r) then Some ErrEmptyTarget
      else if Port r =? 0 then Some ErrInvalidRecord else None
  | RecordTypeTXT =>
      if bool_decide (TxtRecords r = []) then Some ErrNoTxtData
      else if existsb (fun txt => 255 <? Z.of_nat (length txt)) (TxtRecords r) then Some ErrTxtTooLong
      else None
  | RecordTypeSOA => if empty (Ns r) || empty (Mbox r) then Some ErrInvalidSOA else None
  | RecordTypeCAA =>
      if empty (CaaTag r) then Some ErrInvalidCAA
      else if empty (CaaValue r) then Some ErrInvalidCAA
      else if existsb (bytes_eqb (CaaTag r)) [str "issue"; str "issuewild"; str "iodef"] then None
      else Some ErrInvalidCAA
  | RecordTypeOther _ => Some ErrInvalidRecord
  end.

Definition isAlphanumeric (c : ascii) : bool :=
  let z := code c in
  ((97 <=? z) && (z <=? 122)) || ((65 <=? z) && (z <=? 90)) || ((48 <=? z) && (z <=? 57)).

(** The inner loop of [isValidDomain] over the bytes of a label (the names are
    ASCII, so runes are bytes). *)
Fixpoint valid_label_bytes (i len : nat) (label : gostring) : bool :=
  match label with
  | [] => true
  | c :: rest =>
      if negb (isAlphanumeric c) && negb (bool_decide (c = "-"%char)) && negb (bool_decide (c = "*"%char))
      then false
      else if bool_decide (c = "-"%char) && ((i =? 0)%nat || (i =? len - 1)%nat) then false
      else valid_label_bytes (i + 1) len rest
  end.

Definition valid_label (label : gostring) : bool :=
  if (length label =? 0)%nat || (63 <? length label)%nat then false
  else match label with
       | [] => false
       | c :: _ =>
           if negb (isAlphanumeric c) && negb (bool_decide (c = "*"%char)) then false
           else valid_label_bytes 0 (length label) label
       end.

Definition isValidDomain (domain : gostring) : bool :=
  if empty domain || (253 <? length domain)%nat then false
  else
    let domain := TrimSuffix domain [dot] in
    if HasPrefix domain [dot] then false
    else forallb valid_label (SplitByte domain dot).

Definition parseIPs (ips : list gostring) : result RecordError (list IP) :=
  foldr (fun s acc =>
           match ParseIP s with
           | None => Err ErrInvalidIP
           | Some ip => match acc with Ok l => Ok (ip :: l) | Err e => Err e end
           end) (Ok []) ips.

(** ** The manager *)

Record Manager := MkManager {
  records : gmap gostring (list LocalRecord);
  wildcards : list LocalRecord
}.

Definition NewManager : Manager := MkManager ∅ [].

Definition AddRecord (r : LocalRecord) (m : Manager) : Manager * option RecordError :=
  match validateRecord r with
  | Some e => (m, Some e)
  | None =>
      let r := with_Domain (normalizeDomain (Domain r)) r in
      if Wildcard r then (MkManager (records m) (wildcards m ++ [r]), None)
      else (MkManager (<[Domain r := default [] (records m !! Domain r) ++ [r]]> (records m)) (wildcards m), None)
  end.

Definition RemoveRecord (domain : gostring) (t : RecordType) (m : Manager) : Manager * option RecordError :=
  let domain := normalizeDomain domain in
  match records m !! domain with
  | None => (m, Some ErrRecordNotFound)
  | Some rs =>
      let filtered := List.filter (fun r => negb (bool_decide (Type_ r = t))) rs in
      let found := existsb (fun r => bool_decide (Type_ r = t)) rs in
      if negb found then (m, Some ErrRecordNotFound)
      else if bool_decide (filtered = []) then (MkManager (delete domain (records m)) (wildcards m), None)
      else (MkManager (<[domain := filtered]> (records m)) (wildcards m), None)
  end.

Definition is_live (t : RecordType) (r : LocalRecord) : bool := bool_decide (Type_ r = t) && Enabled r.

(** The body of the loop of [extractIPs]. *)
Definition ip_step (t : RecordType) (a : list IP * Z) (r : LocalRecord) : list IP * Z :=
  let '(ips, ttl) := a in
  if is_live t r then (ips ++ IPs r, if 0 <? TTL r then TTL r else ttl) else (ips, ttl).

(** [extractIPs]: the addresses and the last positive TTL. *)
Definition extractIPs (rs : list LocalRecord) (t : RecordType) : list IP * Z * bool :=
  let '(ips, ttl) := foldl (ip_step t) ([], 300) rs in
  (ips, ttl, negb (bool_decide (ips = []))).

Definition matchWildcard (m : Manager) (domain : gostring) (t : RecordType) : list IP * Z * bool :=
  match List.find (fun wc => is_live t wc && matchesWildcard domain (Domain wc)) (wildcards m) with
  | Some wc => (IPs wc, TTL wc, negb (bool_decide (IPs wc = [])))
  | None => ([], 0, false)
  end.

(** [LookupA] and [LookupAAAA]. *)
Definition lookup_ips (t : RecordType) (domain : gostring) (m : Manager) : list IP * Z * bool :=
  let domain := normalizeDomain domain in
  match records m !! domain with
  | Some rs => extractIPs rs t
  | None => matchWildcard m domain t
  end.

Definition LookupA := lookup_ips RecordTypeA.
Definition LookupAAAA := lookup_ips RecordTypeAAAA.

Definition LookupCNAME (domain : gostring) (m : Manager) : option (gostring * Z) :=
  let domain := normalizeDomain domain in
  match List.find (is_live RecordTypeCNAME) (default [] (records m !! domain)) with
  | Some r => Some (Target r, TTL r)
  | None =>
      match List.find (fun wc => is_live RecordTypeCNAME wc && matchesWildcard domain (Domain wc))
              (wildcards m) with
      | Some wc => Some (Target wc, TTL wc)
      | None => None
      end
  end.

(** The records of a type, exact then wildcard, in insertion order: the body of
    [LookupTXT], [LookupPTR], [LookupNS], [LookupSOA] and [LookupCAA], and the
    first half of [LookupMX] and [LookupSRV]. *)
Definition matching (t : RecordType) (domain : gostring) (m : Manager) : list LocalRecord :=
  let domain := normalizeDomain domain in
  List.filter (is_live t) (default [] (records m !! domain)) ++
  List.filter (fun wc => is_live t wc && matchesWildcard domain (Domain wc)) (wildcards m).

Definition LookupTXT := matching RecordTypeTXT.
Definition LookupPTR := matching RecordTypePTR.
Definition LookupNS := matching RecordTypeNS.
Definition LookupSOA := matching RecordTypeSOA.
Definition LookupCAA := matching RecordTypeCAA.

(** *** The exchange sort *)

Section exchange_sort.
Context {A : Type} (out_of_order : A -> A -> bool).

(** [result[i], result[j] = result[j], result[i]]. *)
Definition swap (i j : nat) (l : list A) : list A :=
  match l !! i, l !! j with
  | Some a, Some b => <[j := a]> (<[i := b]> l)
  | _, _ => l
  end.

Definition compare_swap (i j : nat) (l : list A) : list A :=
  match l !! i, l !! j with
  | Some a, Some b => if out_of_order a b then swap i j l else l
  | _, _ => l
  end.

(** [for j := i + 1; j < len(result); j++]. *)
Definition inner_loop (i : nat) (l : list A) : list A :=
  foldl (fun l j => compare_swap i j l) l (seq (i + 1) (length l - (i + 1))).

(** [for i := 0; i < len(result); i++]. *)
Definition exchange_sort (l : list A) : list A :=
  foldl (fun l i => inner_loop i l) l (seq 0 (length l)).

End exchange_sort.

Definition mx_out_of_order (a b : LocalRecord) : bool := Priority b <? Priority a.

Definition srv_out_of_order (a b : LocalRecord) : bool :=
  if Priority b <? Priority a then true
  else if Priority a =? Priority b then Weight a <? Weight b else false.

Definition LookupMX (domain : gostring) (m : Manager) : list LocalRecord :=
  exchange_sort mx_out_of_order (matching RecordTypeMX domain m).

Definition LookupSRV (domain : gostring) (m : Manager) : list LocalRecord :=
  exchange_sort srv_out_of_order (matching RecordTypeSRV domain m).

(** *** CNAME chains *)

(** The loop of [ResolveCNAME]: [fuel] is [maxDepth - depth]. *)
Fixpoint resolve_loop (fuel : nat) (m : Manager) (domain : gostring) (visited : gset gostring)
    (minTTL : Z) : option (list IP * Z) :=
  match fuel with
  | 0%nat => None
  | S fuel' =>
      if bool_decide (domain ∈ visited) then None
      else
        let visited := {[domain]} ∪ visited in
        match LookupCNAME domain m with
        | Some (target, ttl) => resolve_loop fuel' m target visited (if ttl <? minTTL then ttl else minTTL)
        | None =>
            match LookupA domain m with
            | (ips, ttl, true) => Some (ips, if ttl <? minTTL then ttl else minTTL)
            | (_, _, false) =>
                match LookupAAAA domain m with
                | (ips, ttl, true) => Some (ips, if ttl <? minTTL then ttl else minTTL)
                | (_, _, false) => None
                end
            end
        end
  end.

Definition ResolveCNAME (domain : gostring) (maxDepth : Z) (m : Manager) : option (list IP * Z) :=
  let maxDepth := if maxDepth <=? 0 then 10 else maxDepth in
  resolve_loop (Z.to_nat maxDepth) m (normalizeDomain domain) ∅ 300.

(** *** The rest *)

Definition HasRecord (domain : gostring) (m : Manager) : bool :=
  let domain := normalizeDomain domain in
  bool_decide (is_Some (records m !! domain)) ||
  existsb (fun wc => Enabled wc && matchesWildcard domain (Domain wc)) (wildcards m).

(** In the order in which Go iterates over the map. *)
Definition GetAllRecords (order : list (gostring * list LocalRecord)) (m : Manager) : list LocalRecord :=
  concat order.*2 ++ wildcards m.

Definition Count (m : Manager) : nat :=
  map_fold (fun _ rs n => length rs + n)%nat 0%nat (records m) + length (wildcards m).

Definition Clear (m : Manager) : Manager := NewManager.

(** The constructors. *)
Definition NewLocalRecord (domain : gostring) (t : RecordType) : LocalRecord :=
  MkLocalRecord (normalizeDomain domain) t [] [] [] [] [] [] [] 0 300 0 0 0 0 0 0 0 0 false true.

Definition with_target (tg : gostring) (prio weight port : Z) (r : LocalRecord) : LocalRecord :=
  MkLocalRecord (Domain r) (Type_ r) tg (Ns r) (Mbox r) (CaaTag r) (CaaValue r) (IPs r)
    (TxtRecords r) (Serial r) (TTL r) (Refresh r) (Retry r) (Expire r) (Minttl r)
    prio weight port (CaaFlag r) (Wildcard r) (Enabled r).

Definition with_data (ips : list IP) (txt : list gostring) (tag value : gostring) (flag : Z)
    (r : LocalRecord) : LocalRecord :=
  MkLocalRecord (Domain r) (Type_ r) (Target r) (Ns r) (Mbox r) tag value ips
    txt (Serial r) (TTL r) (Refresh r) (Retry r) (Expire r) (Minttl r)
    (Priority r) (Weight r) (Port r) flag (Wildcard r) (Enabled r).

Definition NewARecord (d : gostring) (ip : IP) : LocalRecord :=
  with_data [ip] [] [] [] 0 (NewLocalRecord d RecordTypeA).
Definition NewAAAARecord (d : gostring) (ip : IP) : LocalRecord :=
  with_data [ip] [] [] [] 0 (NewLocalRecord d RecordTypeAAAA).
Definition NewTXTRecord (d : gostring) (txt : list gostring) : LocalRecord :=
  with_data [] txt [] [] 0 (NewLocalRecord d RecordTypeTXT).
Definition NewCAARecord (d tag value : gostring) (flag : Z) : LocalRecord :=
  with_data [] [] tag value flag (NewLocalRecord d RecordTypeCAA).
Definition NewCNAMERecord (d target : gostring) : LocalRecord :=
  with_target (normalizeDomain target) 0 0 0 (NewLocalRecord d RecordTypeCNAME).
Definition NewMXRecord (d target : gostring) (priority : Z) : LocalRecord :=
  with_target (normalizeDomain target) priority 0 0 (NewLocalRecord d RecordTypeMX).
Definition NewPTRRecord (d target : gostring) : LocalRecord :=
  with_target (normalizeDomain target) 0 0 0 (NewLocalRecord d RecordTypePTR).
Definition NewNSRecord (d target : gostring) : LocalRecord :=
  with_target (normalizeDomain target) 0 0 0 (NewLocalRecord d RecordTypeNS).
Definition NewSRVRecord (d target : gostring) (priority weight port : Z) : LocalRecord :=
  with_target (normalizeDomain target) priority weight port (NewLocalRecord d RecordTypeSRV).
Definition NewSOARecord (d ns mbox : gostring) (serial refresh retry expire minttl : Z) : LocalRecord :=
  let r := NewLocalRecord d RecordTypeSOA in
  MkLocalRecord (Domain r) (Type_ r) (Target r) (normalizeDomain ns) mbox (CaaTag r) (CaaValue r) (IPs r)
    (TxtRecords r) serial (TTL r) refresh retry expire minttl
    (Priority r) (Weight r) (Port r) (CaaFlag r) (Wildcard r) (Enabled r).

(** [Clone] copies every field. *)
Definition Clone (r : LocalRecord) : LocalRecord :=
  MkLocalRecord (Domain r) (Type_ r) (Target r) (Ns r) (Mbox r) (CaaTag r) (CaaValue r) (IPs r)
    (TxtRecords r) (Serial r) (TTL r) (Refresh r) (Retry r) (Expire r) (Minttl r)
    (Priority r) (Weight r) (Port r) (CaaFlag r) (Wildcard r) (Enabled r).

(** ** Sorting *)

Section sort_facts.
Local Open Scope nat_scope.
Context {A : Type} (out_of_order : A -> A -> bool).
Context (asym : forall a b, out_of_order a b = true -> out_of_order b a = false).
Context (trans : forall a b c, out_of_order a b = false -> out_of_order b c = false -> out_of_order a c = false).

Definition in_order (a b : A) : Prop := out_of_order a b = false.

(** What the inner loop does to the tail: the element at [i] is carried along. *)
Fixpoint pass (x : A) (l : list A) : A * list A :=
  match l with
  | [] => (x, [])
  | y :: l' =>
      if out_of_order x y then let '(x', r) := pass y l' in (x', x :: r)
      else let '(x', r) := pass x l' in (x', y :: r)
  end.

Lemma pass_spec x l :
  let '(x', r) := pass x l in
  x' :: r ≡ₚ x :: l /\ in_order x' x /\ Forall (in_order x') r.
Proof using asym trans.
  revert x. induction l as [|y l IH]; intros x; cbn.
  { split; [done|]. split; [|done]. unfold in_order. destruct (out_of_order x x) eqn:E; [|done].
    by rewrite (asym x x E) in E. }
  destruct (out_of_order x y) eqn:E.
  - specialize (IH y). destruct (pass y l) as [x' r]. destruct IH as (Hp & Hxy & Hf).
    assert (in_order x' x) as Hx by (apply (trans x' y x); [done|by apply asym]).
    split; [|split; [done|by constructor]]. rewrite (Permutation_swap x x' r), Hp. by rewrite Permutation_swap.
  - specialize (IH x). destruct (pass x l) as [x' r]. destruct IH as (Hp & Hxy & Hf).
    split; [|split; [done|]]. 
    + rewrite (Permutation_swap y x' r), Hp. by rewrite Permutation_swap.
    + constructor; [|done]. by apply (trans x' x y).
Qed.

Lemma compare_swap_at pre x mid y rest :
  compare_swap out_of_order (length pre) (length pre + 1 + length mid) (pre ++ x :: mid ++ y :: rest) =
  if out_of_order x y then pre ++ y :: mid ++ x :: rest else pre ++ x :: mid ++ y :: rest.
Proof using Type.
  unfold compare_swap, swap.
  assert ((pre ++ x :: mid ++ y :: rest) !! length pre = Some x) as E1
    by (rewrite lookup_app_r, Nat.sub_diag by lia; done).
  assert ((pre ++ x :: mid ++ y :: rest) !! (length pre + 1 + length mid) = Some y) as E2.
  { rewrite lookup_app_r by lia. replace (length pre + 1 + length mid - length pre) with (S (length mid)) by lia.
    change ((mid ++ y :: rest) !! length mid = Some y).
    rewrite lookup_app_r, Nat.sub_diag by lia. done. }
  rewrite E1, E2. destruct (out_of_order x y); [|done].
  rewrite insert_app_r_alt, Nat.sub_diag by lia.
  change (<[0 := y]> (x :: mid ++ y :: rest)) with (y :: mid ++ y :: rest).
  rewrite insert_app_r_alt by lia.
  replace (length pre + 1 + length mid - length pre) with (S (length mid)) by lia.
  change (<[S (length mid) := x]> (y :: mid ++ y :: rest)) with (y :: <[length mid := x]> (mid ++ y :: rest)).
  rewrite insert_app_r_alt, Nat.sub_diag by lia. done.
Qed.

Lemma inner_loop_pass pre x mid rest :
  foldl (fun l j => compare_swap out_of_order (length pre) j l) (pre ++ x :: mid ++ rest)
    (seq (length pre + 1 + length mid) (length rest)) =
  pre ++ (pass x rest).1 :: mid ++ (pass x rest).2.
Proof using Type.
  revert x mid. induction rest as [|y rest IH]; intros x mid; [done|].
  cbn [length seq foldl pass]. rewrite compare_swap_at.
  replace (S (length pre + 1 + length mid)) with (length pre + 1 + length (mid ++ [x]))
    by (rewrite length_app; cbn; lia).
  destruct (out_of_order x y) eqn:E.
  - specialize (IH y (mid ++ [x])). rewrite <- app_assoc in IH. cbn in IH. rewrite IH.
    destruct (pass y rest) as [x' r]. cbn. by rewrite <- app_assoc.
  - specialize (IH x (mid ++ [y])). rewrite <- app_assoc in IH. cbn in IH.
    rewrite length_app in IH |- *. cbn in IH |- *. rewrite IH.
    destruct (pass x rest) as [x' r]. cbn. by rewrite <- app_assoc.
Qed.

Lemma exchange_sort_from pre suf :
  exists suf', foldl (fun l i => inner_loop out_of_order i l) (pre ++ suf) (seq (length pre) (length suf))
    = pre ++ suf' /\ suf' ≡ₚ suf /\ StronglySorted in_order suf'.
Proof using asym trans.
  remember (length suf) as n eqn:Hn. revert pre suf Hn. induction n as [|n IH]; intros pre suf Hn.
  { exists []. destruct suf; [|done]. split; [done|]. split; [done|constructor]. }
  destruct suf as [|x rest]; [done|]. cbn [seq foldl].
  assert (inner_loop out_of_order (length pre) (pre ++ x :: rest) =
          pre ++ (pass x rest).1 :: (pass x rest).2) as ->.
  { unfold inner_loop. rewrite length_app. cbn [length].
    replace (length pre + S (length rest) - (length pre + 1)) with (length rest) by lia.
    pose proof (inner_loop_pass pre x [] rest) as H. cbn [length app] in H.
    by rewrite Nat.add_0_r in H. }
  pose proof (pass_spec x rest) as Hs. destruct (pass x rest) as [x' r]. destruct Hs as (Hp & _ & Hf).
  cbn [fst snd]. injection Hn as Hn.
  destruct (IH (pre ++ [x']) r) as (suf' & E & Hp' & Hss).
  { apply Permutation_length in Hp. cbn in Hp. lia. }
  rewrite <- app_assoc, length_app, Nat.add_1_r in E. cbn in E. rewrite E.
  exists (x' :: suf'). rewrite <- app_assoc. split; [done|]. split.
  - by rewrite Hp', Hp.
  - constructor; [done|]. by rewrite Hp'.
Qed.

Lemma exchange_sort_spec l :
  exchange_sort out_of_order l ≡ₚ l /\ StronglySorted in_order (exchange_sort out_of_order l).
Proof using asym trans.
  destruct (exchange_sort_from [] l) as (l' & E & ? & ?). unfold exchange_sort.
  cbn in E. by rewrite E.
Qed.

End sort_facts.

(** MX answers come in ascending priority and SRV answers in ascending
    priority and, within one priority, descending weight; in both cases they
    are exactly the enabled records that match, each as often as it was added. *)
Theorem mx_srv_order (domain : gostring) (m : Manager) :
  LookupMX domain m ≡ₚ matching RecordTypeMX domain m /\
  StronglySorted (fun a b => Priority a <= Priority b) (LookupMX domain m) /\
  LookupSRV domain m ≡ₚ matching RecordTypeSRV domain m /\
  StronglySorted (fun a b => Priority a < Priority b \/
    (Priority a = Priority b /\ Weight b <= Weight a)) (LookupSRV domain m).
Proof.
  destruct (exchange_sort_spec mx_out_of_order) with (l := matching RecordTypeMX domain m) as [P1 S1].
  { unfold mx_out_of_order. intros a b. rewrite Z.ltb_lt, Z.ltb_ge. lia. }
  { unfold mx_out_of_order. intros a b c. rewrite !Z.ltb_ge. lia. }
  assert (forall a b, srv_out_of_order a b = false <->
    Priority a < Priority b \/ (Priority a = Priority b /\ Weight b <= Weight a)) as Hsrv.
  { intros a b. unfold srv_out_of_order. destruct (Z.ltb_spec (Priority b) (Priority a)); [split; [done|lia]|].
    destruct (Z.eqb_spec (Priority a) (Priority b)); [|split; [lia|done]].
    rewrite Z.ltb_ge. lia. }
  destruct (exchange_sort_spec srv_out_of_order) with (l := matching RecordTypeSRV domain m) as [P2 S2].
  { intros a b H. apply Hsrv. destruct (srv_out_of_order a b) eqn:E; [|done].
    assert (~ (Priority a < Priority b \/ (Priority a = Priority b /\ Weight b <= Weight a))) as Hn
      by (rewrite <- Hsrv; congruence).
    lia. }
  { intros a b c H1%Hsrv H2%Hsrv. apply Hsrv. lia. }
  split_and!; [done| |done|].
  - eapply StronglySorted_weaken; [|exact S1]. intros a b. unfold in_order, mx_out_of_order. rewrite Z.ltb_ge. done.
  - eapply StronglySorted_weaken; [|exact S2]. intros a b. apply Hsrv.
Qed.

(** ** CNAME chains *)

(** [cname_chain m d p e n]: following CNAMEs from [d] through the owners [p]
    ends at [e], which has none; [n] is the smallest TTL on the way, at most
    300. *)
Inductive cname_chain (m : Manager) : gostring -> list gostring -> gostring -> Z -> Prop :=
| chain_end d : LookupCNAME d m = None -> cname_chain m d [] d 300
| chain_step d t ttl p e n :
    LookupCNAME d m = Some (t, ttl) -> cname_chain m t p e n ->
    cname_chain m d (d :: p) e (Z.min ttl n).

(** The addresses at the end: A records if there are any, AAAA otherwise. *)
Definition addresses (m : Manager) (e : gostring) : option (list IP * Z) :=
  match LookupA e m with
  | (ips, ttl, true) => Some (ips, ttl)
  | (_, _, false) =>
      match LookupAAAA e m with (ips, ttl, true) => Some (ips, ttl) | (_, _, false) => None end
  end.

Lemma min_if a b : (if a <? b then a else b) = Z.min a b.
Proof. destruct (Z.ltb_spec a b); lia. Qed.

Lemma resolve_loop_spec (m : Manager) (fuel : nat) (d : gostring) (V : gset gostring) (t0 : Z)
    (ips : list IP) (ttl : Z) :
  t0 <= 300 ->
  resolve_loop fuel m d V t0 = Some (ips, ttl) <->
  exists p e n attl, cname_chain m d p e n /\ (length p < fuel)%nat /\ NoDup (p ++ [e]) /\
    (forall x, x ∈ p ++ [e] -> x ∉ V) /\ addresses m e = Some (ips, attl) /\
    ttl = Z.min attl (Z.min t0 n).
Proof.
  revert d V t0. induction fuel as [|fuel IH]; intros d V t0 Ht0; cbn [resolve_loop].
  { split; [done|]. intros (p & e & n & attl & _ & H & _). lia. }
  case_bool_decide as Hv.
  { split; [done|]. intros (p & e & n & attl & Hc & _ & _ & Hno & _). exfalso.
    apply (Hno d); [|done]. destruct Hc; [left|rewrite <- app_comm_cons; left]. }
  destruct (LookupCNAME d m) as [[t cttl]|] eqn:Ec.
  - rewrite min_if, (IH t ({[d]} ∪ V) (Z.min cttl t0)) by lia. split.
    + intros (p & e & n & attl & Hc & Hl & Hnd & Hno & Ha & ->).
      exists (d :: p), e, (Z.min cttl n), attl. rewrite <- app_comm_cons.
      split_and!; [by econstructor|cbn; lia| | |done|lia].
      * constructor; [|done]. intros Hin. apply (Hno d Hin). set_solver.
      * intros x [->|Hx]%elem_of_cons; [done|]. intros HxV. apply (Hno x Hx). set_solver.
    + intros (p & e & n & attl & Hc & Hl & Hnd & Hno & Ha & ->).
      inversion Hc as [? E|? t' ttl' p' ? n' E Hc']; subst; [congruence|].
      rewrite Ec in E. injection E as <- <-. rewrite <- app_comm_cons in *.
      apply NoDup_cons in Hnd as [Hd Hnd]. exists p', e, n', attl.
      split_and!; [done|cbn in Hl; lia|done| |done|lia].
      intros x Hx. assert (x ∉ V) by (apply Hno; by right).
      assert (x <> d) by (intros ->; done). set_solver.
  - transitivity (exists attl, addresses m d = Some (ips, attl) /\ ttl = Z.min attl t0).
    + unfold addresses. destruct (LookupA d m) as [[i1 t1] [|]]; [|destruct (LookupAAAA d m) as [[i2 t2] [|]]];
        rewrite ?min_if; naive_solver.
    + split.
      * intros (attl & Ha & ->). exists [], d, 300, attl. cbn.
        split_and!; [by constructor|lia|apply NoDup_singleton| |done|lia].
        by intros x ->%list_elem_of_singleton.
      * intros (p & e & n & attl & Hc & _ & _ & _ & Ha & ->).
        inversion Hc as [? E|? t' ttl' p' ? n' E Hc']; subst; [|congruence].
        exists attl. split; [done|lia].
Qed.

(** CNAME resolution terminates on every record set and is exact: it
    succeeds precisely when the chain from the name ends, within the depth
    limit and without passing a name twice, at a name with addresses; it then
    returns them with the smallest TTL of the chain, at most 300. *)
Theorem resolve_cname_spec (m : Manager) (domain : gostring) (maxDepth : Z) (ips : list IP) (ttl : Z) :
  let limit := if maxDepth <=? 0 then 10 else maxDepth in
  ResolveCNAME domain maxDepth m = Some (ips, ttl) <->
  exists p e n attl, cname_chain m (normalizeDomain domain) p e n /\ Z.of_nat (length p) < limit /\
    NoDup (p ++ [e]) /\ addresses m e = Some (ips, attl) /\ ttl = Z.min attl (Z.min 300 n).
Proof.
  intros limit. assert (0 < limit) as Hlim by (unfold limit; destruct (Z.leb_spec maxDepth 0); lia).
  unfold ResolveCNAME. fold limit. rewrite resolve_loop_spec by lia. split.
  - intros (p & e & n & attl & ? & ? & ? & _ & ? & ?). exists p, e, n, attl. split_and!; done || lia.
  - intros (p & e & n & attl & ? & ? & ? & ? & ?). exists p, e, n, attl.
    split_and!; try done. lia.
Qed.

(** ** Adding and looking up *)

Lemma extractIPs_snoc t rs r :
  extractIPs (rs ++ [r]) t =
  (let '(ips, ttl) := ip_step t (foldl (ip_step t) ([], 300) rs) r in
   (ips, ttl, negb (bool_decide (ips = [])))).
Proof. unfold extractIPs. rewrite foldl_app. done. Qed.

Lemma validate_ips r t :
  validateRecord r = None -> Type_ r = t -> t = RecordTypeA \/ t = RecordTypeAAAA -> IPs r <> [].
Proof.
  unfold validateRecord. intros H <- Ht. destruct (empty (Domain r)); [done|].
  intros E. rewrite E in H. destruct Ht as [Ht|Ht]; rewrite Ht in H; cbn in H; done.
Qed.

(** Adding an address record makes it found: an accepted, enabled A or AAAA
    record is returned, after the addresses already there, by every spelling of
    its name (case, surrounding blanks, final dot), with its TTL; lookups of all
    other names are unchanged. *)
Theorem add_lookup_address (r : LocalRecord) (m m' : Manager) (t : RecordType) (d : gostring)
    (Hadd : AddRecord r m = (m', None)) (Htype : Type_ r = t)
    (Ht : t = RecordTypeA \/ t = RecordTypeAAAA)
    (Hon : Enabled r = true) (Hwc : Wildcard r = false)
    (Hd : normalizeDomain d = normalizeDomain (Domain r)) :
  (exists before ttl, lookup_ips t d m' = (before ++ IPs r, ttl, true) /\ (0 < TTL r -> ttl = TTL r)) /\
  (forall t' d', normalizeDomain d' <> normalizeDomain d -> lookup_ips t' d' m' = lookup_ips t' d' m).
Proof.
  unfold AddRecord in Hadd. destruct (validateRecord r) as [e|] eqn:Hv; [done|].
  cbn [Wildcard with_Domain Domain] in Hadd. rewrite Hwc in Hadd. injection Hadd as <-. split.
  - unfold lookup_ips. cbn [records]. rewrite Hd, lookup_insert_eq, extractIPs_snoc.
    destruct (foldl (ip_step t) _ _) as [before ttl0]. unfold ip_step at 1.
    assert (is_live t (with_Domain (normalizeDomain (Domain r)) r) = true) as ->.
    { unfold is_live. cbn. rewrite Hon, bool_decide_eq_true_2 by done. done. }
    cbn [IPs TTL with_Domain]. exists before, (if 0 <? TTL r then TTL r else ttl0). split.
    + f_equal. rewrite bool_decide_eq_false_2; [done|].
      intros [_ E]%app_nil. by apply (validate_ips r t) in E.
    + intros Hp. by rewrite (proj2 (Z.ltb_lt _ _) Hp).
  - intros t' d' Hne. unfold lookup_ips. cbn [records wildcards].
    rewrite lookup_insert_ne by congruence. done.
Qed.

Definition nas : LocalRecord := NewARecord (str " NAS.Lan ") [192; 0; 2; 7].

Lemma add_lookup_address_witness :
  exists before ttl, lookup_ips RecordTypeA (str "nas.LAN.") (AddRecord nas NewManager).1
    = (before ++ [[192; 0; 2; 7]], ttl, true).
Proof.
  destruct (add_lookup_address nas NewManager (AddRecord nas NewManager).1 RecordTypeA (str "nas.LAN.")
    eq_refl eq_refl (or_introl eq_refl) eq_refl eq_refl eq_refl) as [(before & ttl & H & _) _].
  exists before, ttl. exact H.
Defined.

(** A wildcard covers one label, but the label boundary is not checked. *)
Lemma wildcard_boundary :
  matchesWildcard (str "nas.local.") (str "*.local.") = true /\
  matchesWildcard (str "a.b.local.") (str "*.local.") = false /\
  matchesWildcard (str "mylocal.") (str "*.local.") = true.
Proof. by vm_compute. Qed.

(** Equal priorities are not kept in insertion order. *)
Lemma mx_not_stable :
  let mx d p := NewMXRecord (str "lan.") d p in
  let m := foldl (fun m r => (AddRecord r m).1) NewManager
             [mx (str "a.") 20; mx (str "b.") 20; mx (str "c.") 10] in
  Target <$> LookupMX (str "lan.") m = [str "c."; str "b."; str "a."].
Proof. by vm_compute. Qed.
