(* ===== verification/Policy.v ===== *)
(** * The policy engine (pkg/policy/engine.go, clientgroups.go)

    Rules with compiled expressions, evaluated in order.  The expression
    language (github.com/expr-lang/expr) is a parameter, the class [ExprLib]:
    compiling a text against a table of helper functions and running the result
    in a context.  The helper functions themselves are modelled, with the type
    checks of their wrappers, and the process-wide caches of parsed regexps and
    CIDRs as explicit state. *)

From Stdlib Require Import Ascii.
From S2P Require Import Prelude GoStrings GoNet Pattern.
From stdpp Require Import options.
Local Open Scope Z_scope.

(** ** Helper functions *)

Definition DomainMatches (domain0 pattern0 : gostring) : bool :=
  let domain := ToLower (TrimSuffix domain0 [dot]) in
  let pattern := ToLower (TrimSuffix pattern0 [dot]) in
  if bytes_eqb domain pattern then true
  else if HasPrefix pattern [dot] then
    let suffix := drop 1 pattern in
    bytes_eqb domain suffix || HasSuffix domain pattern
  else if HasSuffix domain (dot :: pattern) then true
  else if negb (Contains pattern [dot]) then
    bytes_eqb domain pattern || HasPrefix domain (pattern ++ [dot])
    || Contains domain (dot :: pattern ++ [dot]) || HasSuffix domain (dot :: pattern)
  else false.

Definition DomainEndsWith (domain suffix : gostring) : bool := HasSuffix (ToLower domain) (ToLower suffix).
Definition DomainStartsWith (domain prefix : gostring) : bool := HasPrefix (ToLower domain) (ToLower prefix).

Definition DomainLevelCount (domain : gostring) : Z :=
  if bytes_eqb domain [] then 0
  else Z.of_nat (CountByte (TrimSuffix domain [dot]) dot) + 1.

Definition IPEquals (a b : gostring) : bool :=
  match ParseIP a, ParseIP b with
  | Some ip1, Some ip2 => IP_Equal ip1 ip2
  | _, _ => false
  end.

Definition QueryTypeIn (queryType : gostring) (types : list gostring) : bool :=
  existsb (fun t => bytes_eqb (ToUpper t) (ToUpper queryType)) types.

Definition IsWeekend (weekday : Z) : bool := (weekday =? 0) || (weekday =? 6).

Definition InTimeRange (hour minute startHour startMinute endHour endMinute : Z) : bool :=
  let currentMinutes := hour * 60 + minute in
  let startMinutes := startHour * 60 + startMinute in
  let endMinutes := endHour * 60 + endMinute in
  if startMinutes <=? endMinutes
  then (startMinutes <=? currentMinutes) && (currentMinutes <=? endMinutes)
  else (startMinutes <=? currentMinutes) || (currentMinutes <=? endMinutes).

(** *** The caches *)

Definition maxCIDRCacheSize : Z := 256.
Definition maxRegexCacheSize : Z := 1024.

(** A [sync.Map] with its approximate length. *)
Record BoundedCache (V : Type) := MkBC { bc_map : gmap gostring V; bc_len : Z }.
Arguments MkBC {V}.
Arguments bc_map {V}.
Arguments bc_len {V}.

(** [LoadOrStore] below the cap. *)
Definition cache_store {V} (cap : Z) (k : gostring) (v : V) (c : BoundedCache V) : BoundedCache V :=
  if bc_len c <? cap then
    match bc_map c !! k with
    | Some _ => c
    | None => MkBC (<[k := v]> (bc_map c)) (bc_len c + 1)
    end
  else c.

Definition IPInCIDR (ipStr cidrStr : gostring) (c : BoundedCache IPNet) : bool * BoundedCache IPNet :=
  match ParseIP ipStr with
  | None => (false, c)
  | Some ip =>
      match bc_map c !! cidrStr with
      | Some ipNet => (IPNet_Contains ipNet ip, c)
      | None =>
          match ParseCIDR cidrStr with
          | None => (false, c)
          | Some ipNet => (IPNet_Contains ipNet ip, cache_store maxCIDRCacheSize cidrStr ipNet c)
          end
      end
  end.

(** ** Client groups (clientgroups.go) *)

Record ClientProfile := MkProfile { ClientIP_ : gostring; GroupName : gostring }.

(** The membership cache of [SQLiteResolver]; [None] before the first [Reload]. *)
Definition GroupCache : Type := option (gmap gostring (gset gostring)).

(** [Reload]: [profiles] is what the storage returns, [None] an error; nil
    pointers in the list are [None]. *)
Definition reload_step (m : gmap gostring (gset gostring)) (p : option ClientProfile) : gmap gostring (gset gostring) :=
  match p with
  | None => m
  | Some p =>
      if bytes_eqb (GroupName p) [] then m
      else <[ClientIP_ p := {[GroupName p]} ∪ default ∅ (m !! ClientIP_ p)]> m
  end.

Definition Reload (storage : option (option (list (option ClientProfile)))) (c : GroupCache) : GroupCache * bool :=
  match storage with
  | None => (Some ∅, true)                       (** no storage *)
  | Some None => (c, false)                      (** the query failed *)
  | Some (Some profiles) => (Some (foldl reload_step ∅ profiles), true)
  end.

Definition IsInGroup (c : GroupCache) (clientIP groupName : gostring) : bool :=
  match c with
  | None => false
  | Some m =>
      match m !! clientIP with
      | None => false
      | Some groups => bool_decide (groupName ∈ groups)
      end
  end.

(** ** The expression language *)

(** Go's [any], as far as the helpers distinguish it. *)
Inductive Any := AString (s : gostring) | AInt (z : Z) | ABool (b : bool) | AOther.

Inductive HelperError := ErrType | ErrMissing | ErrRegex.

Definition asString (p : option Any) : result HelperError gostring :=
  match p with Some (AString s) => Ok s | Some _ => Err ErrType | None => Err ErrMissing end.
Definition asInt (p : option Any) : result HelperError Z :=
  match p with Some (AInt z) => Ok z | Some _ => Err ErrType | None => Err ErrMissing end.

Definition two_strings (f : gostring -> gostring -> bool) (params : list Any) : result HelperError Any :=
  a ← asString (params !! 0%nat); b ← asString (params !! 1%nat); Ok (ABool (f a b)).

Record Context := MkContext {
  Domain : gostring; ClientIP : gostring; QueryType : gostring;
  Hour : Z; Minute : Z; Day : Z; Month : Z; Weekday : Z; Time : Z
}.

(** A wall-clock reading, as [NewContext] takes it apart. *)
Record WallClock := MkClock { wc_hour : Z; wc_minute : Z; wc_day : Z; wc_month : Z; wc_weekday : Z; wc_time : Z }.

Definition NewContext (domain clientIP queryType : gostring) (now : WallClock) : Context :=
  MkContext domain clientIP queryType (wc_hour now) (wc_minute now) (wc_day now) (wc_month now)
    (wc_weekday now) (wc_time now).

Section helpers.
Context {RX : RegexpLib}.

(** [DomainRegex] with its cache of compiled expressions. *)
Definition DomainRegex (domain pattern : gostring) (c : BoundedCache Regexp)
    : result HelperError bool * BoundedCache Regexp :=
  match bc_map c !! pattern with
  | Some re => (Ok (regexp_MatchString re (ToLower domain)), c)
  | None =>
      match regexp_Compile pattern with
      | None => (Err ErrRegex, c)
      | Some re => (Ok (regexp_MatchString re (ToLower domain)), cache_store maxRegexCacheSize pattern re c)
      end
  end.

(** The two cached helpers, as functions of their arguments: the caches do not
    change the answers ([IPInCIDR_transparent], [DomainRegex_transparent]). *)
Definition IPInCIDR_pure (ip cidr : gostring) : bool := (IPInCIDR ip cidr (MkBC ∅ 0)).1.
Definition DomainRegex_pure (d p : gostring) : result HelperError bool := (DomainRegex d p (MkBC ∅ 0)).1.

(** The function table of [compileRuleLogic]. *)
Definition helpers (groups : GroupCache) : list (gostring * (list Any -> result HelperError Any)) :=
  [ (str "DomainMatches", two_strings DomainMatches);
    (str "DomainEndsWith", two_strings DomainEndsWith);
    (str "DomainStartsWith", two_strings DomainStartsWith);
    (str "DomainRegex", fun params =>
       a ← asString (params !! 0%nat); b ← asString (params !! 1%nat);
       r ← DomainRegex_pure a b; Ok (ABool r));
    (str "DomainLevelCount", fun params =>
       a ← asString (params !! 0%nat); Ok (AInt (DomainLevelCount a)));
    (str "IPInCIDR", two_strings IPInCIDR_pure);
    (str "IPEquals", two_strings IPEquals);
    (str "InClientGroup", two_strings (IsInGroup groups));
    (str "QueryTypeIn", fun params =>
       qt ← asString (params !! 0%nat);
       types ← foldr (fun p acc => t ← asString (Some p); l ← acc; Ok (t :: l)) (Ok []) (drop 1 params);
       Ok (ABool (QueryTypeIn qt types)));
    (str "IsWeekend", fun params => a ← asInt (params !! 0%nat); Ok (ABool (IsWeekend a)));
    (str "InTimeRange", fun params =>
       h ← asInt (params !! 0%nat); m ← asInt (params !! 1%nat); sh ← asInt (params !! 2%nat);
       sm ← asInt (params !! 3%nat); eh ← asInt (params !! 4%nat); em ← asInt (params !! 5%nat);
       Ok (ABool (InTimeRange h m sh sm eh em))) ].

(** What the code uses of package [expr]. *)
Class ExprLib := {
  Program : Type;
  expr_Compile : list gostring -> gostring -> option Program;
  vm_Run : list (gostring * (list Any -> result HelperError Any)) -> Program -> Context -> option Any
}.

End helpers.

(** ** Rules and the engine *)

Definition ActionBlock := str "BLOCK".
Definition ActionAllow := str "ALLOW".
Definition ActionRedirect := str "REDIRECT".
Definition ActionForward := str "FORWARD".
Definition ActionRateLimit := str "RATE_LIMIT".

Inductive PolicyError :=
| ErrRedirectNoData | ErrRedirectBadIP | ErrForwardNoData | ErrForwardBad | ErrForwardEmpty
| ErrRateLimit | ErrUnknownAction | ErrCompile | ErrIndex.

(** [ParseUpstreams]; blank parts are skipped, a part without a colon gets the
    default port. *)
Fixpoint parse_parts (parts : list gostring) : result PolicyError (list gostring) :=
  match parts with
  | [] => Ok []
  | part0 :: rest =>
      let part := TrimSpace part0 in
      if bytes_eqb part [] then parse_parts rest
      else if Contains part (str ":") then
        match SplitHostPort part with
        | Err _ => Err ErrForwardBad
        | Ok (host, port) =>
            if bytes_eqb host [] || bytes_eqb port [] then Err ErrForwardBad
            else us ← parse_parts rest; Ok (part :: us)
        end
      else us ← parse_parts rest; Ok ((part ++ str ":53") :: us)
  end.

Definition ParseUpstreams (actionData : gostring) : result PolicyError (list gostring) :=
  if bytes_eqb actionData [] then Err ErrForwardNoData
  else parse_parts (SplitByte actionData ","%char).

Section engine.
Context {RX : RegexpLib} {EL : ExprLib}.

Record Rule := MkRule {
  program : option Program; Name : gostring; Logic : gostring; Action : gostring;
  ActionData : gostring; Enabled : bool
}.

(** [validateAction] also writes the action back in upper case. *)
Definition upper_action (r : Rule) : Rule :=
  MkRule (program r) (Name r) (Logic r) (ToUpper (Action r)) (ActionData r) (Enabled r).

Definition validateAction (r : Rule) : option PolicyError :=
  let action := ToUpper (Action r) in
  if bytes_eqb action ActionBlock || bytes_eqb action ActionAllow then None
  else if bytes_eqb action ActionRedirect then
    if bytes_eqb (ActionData r) [] then Some ErrRedirectNoData
    else match ParseIP (ActionData r) with None => Some ErrRedirectBadIP | Some _ => None end
  else if bytes_eqb action ActionForward then
    if bytes_eqb (ActionData r) [] then Some ErrForwardNoData
    else match ParseUpstreams (ActionData r) with
         | Err _ => Some ErrForwardBad
         | Ok [] => Some ErrForwardEmpty
         | Ok _ => None
         end
  else if bytes_eqb action ActionRateLimit then Some ErrRateLimit
  else Some ErrUnknownAction.

Definition helper_names : list gostring := (helpers None).*1.

Definition compileRuleLogic (logic : gostring) : option Program := expr_Compile helper_names logic.

(** [Rule.Compile], also the first half of [AddRule] and [UpdateRule]. *)
Definition Compile (r : Rule) : result PolicyError Rule :=
  match validateAction r with
  | Some e => Err e
  | None =>
      match compileRuleLogic (Logic r) with
      | None => Err ErrCompile
      | Some p => Ok (MkRule (Some p) (Name r) (Logic r) (ToUpper (Action r)) (ActionData r) (Enabled r))
      end
  end.

(** [count] is the [int32] shadow of the number of rules. *)
Record Engine := MkEngine { rules : list Rule; count : Z }.

Definition NewEngine : Engine := MkEngine [] 0.

Definition with_rules (rs : list Rule) : Engine := MkEngine rs (wraps 32 (Z.of_nat (length rs))).

Definition HasAction (e : Engine) (action : gostring) : bool :=
  existsb (fun r => EqualFold (Action r) action) (rules e).

Definition AddRule (r : Rule) (e : Engine) : Engine * option PolicyError :=
  match Compile r with
  | Err err => (e, Some err)
  | Ok r => (with_rules (rules e ++ [r]), None)
  end.

Definition rule_true (groups : GroupCache) (ctx : Context) (r : Rule) : bool :=
  match program r with
  | None => false
  | Some p => match vm_Run (helpers groups) p ctx with Some (ABool b) => b | _ => false end
  end.

Definition Evaluate (groups : GroupCache) (ctx : Context) (e : Engine) : option Rule :=
  List.find (fun r => Enabled r && rule_true groups ctx r) (rules e).

Fixpoint remove_first (name : gostring) (rs : list Rule) : option (list Rule) :=
  match rs with
  | [] => None
  | r :: rs' => if bytes_eqb (Name r) name then Some rs' else cons r <$> remove_first name rs'
  end.

Definition RemoveRule (name : gostring) (e : Engine) : Engine * bool :=
  match remove_first name (rules e) with
  | None => (e, false)
  | Some rs => (with_rules rs, true)
  end.

Definition UpdateRule (index : Z) (r : Rule) (e : Engine) : Engine * option PolicyError :=
  match Compile r with
  | Err err => (e, Some err)
  | Ok r =>
      if (index <? 0) || (Z.of_nat (length (rules e)) <=? index) then (e, Some ErrIndex)
      else (MkEngine (<[Z.to_nat index := r]> (rules e)) (count e), None)
  end.

Definition GetRules (e : Engine) : list Rule := rules e.

Definition Count (e : Engine) : Z := count e.

Definition ReplaceRules (rs : list Rule) (e : Engine) : Engine := with_rules rs.

Definition Clear (e : Engine) : Engine := MkEngine [] 0.

(** [Rule.GetUpstreams]. *)
Definition GetUpstreams (r : Rule) : list gostring :=
  if bytes_eqb (Action r) ActionForward
  then match ParseUpstreams (ActionData r) with Ok us => us | Err _ => [] end
  else [].

(** ** The engine invariant *)

(** A rule that went through [Compile]. *)
Definition rule_ok (r : Rule) : Prop :=
  validateAction r = None /\ ToUpper (Action r) = Action r /\
  program r = compileRuleLogic (Logic r) /\ is_Some (program r).

Definition engine_ok (e : Engine) : Prop :=
  count e = wraps 32 (Z.of_nat (length (rules e))) /\ Forall rule_ok (rules e).

Lemma Compile_ok r r' : Compile r = Ok r' -> rule_ok r'.
Proof.
  unfold Compile. destruct (validateAction r) eqn:Ev; [done|].
  destruct (compileRuleLogic (Logic r)) eqn:Ec; [|done]. intros [= <-].
  split_and!; cbn; [|apply ToUpper_idem|done|by eexists].
  unfold validateAction in *. cbn. by rewrite ToUpper_idem.
Qed.

(** An operation that changes the rules; a replacement consists of rules that
    were compiled first. *)
Inductive PolicyOp :=
| PAdd (r : Rule) | PRemove (name : gostring) | PUpdate (i : Z) (r : Rule)
| PReplace (rs : list Rule) | PClear.

Fixpoint compile_all (rs : list Rule) : result PolicyError (list Rule) :=
  match rs with
  | [] => Ok []
  | r :: rs' => r ← Compile r; rs' ← compile_all rs'; Ok (r :: rs')
  end.

Definition policy_op (o : PolicyOp) (e : Engine) : Engine :=
  match o with
  | PAdd r => (AddRule r e).1
  | PRemove name => (RemoveRule name e).1
  | PUpdate i r => (UpdateRule i r e).1
  | PReplace rs => match compile_all rs with Ok rs => ReplaceRules rs e | Err _ => e end
  | PClear => Clear e
  end.

Lemma compile_all_ok rs rs' : compile_all rs = Ok rs' -> Forall rule_ok rs'.
Proof.
  revert rs'. induction rs as [|r rs IH]; intros rs'; cbn; [by intros [= <-]; constructor|].
  destruct (Compile r) as [r'|] eqn:Ec; cbn; [|done].
  destruct (compile_all rs) as [l|]; cbn; [|done]. intros [= <-].
  constructor; [by eapply Compile_ok|by apply IH].
Qed.

Lemma remove_first_Forall P name rs rs' :
  remove_first name rs = Some rs' -> Forall P rs -> Forall P rs'.
Proof.
  revert rs'. induction rs as [|r rs IH]; intros rs' H Hf; cbn in H; [done|].
  apply Forall_cons in Hf as [Hr Hf]. destruct (bytes_eqb _ _); [by simplify_eq|].
  destruct (remove_first name rs) as [l|]; [|done]. cbn in H. simplify_eq. constructor; auto.
Qed.

Lemma policy_op_ok o e : engine_ok e -> engine_ok (policy_op o e).
Proof.
  intros [Hc Hf]. destruct o as [r|name|i r|rs|]; cbn.
  - unfold AddRule. destruct (Compile r) as [r'|] eqn:Ec; [|done]. split; [done|]. cbn.
    apply Forall_app. split; [done|]. constructor; [by eapply Compile_ok|constructor].
  - unfold RemoveRule. destruct (remove_first name (rules e)) as [rs|] eqn:Er; [|done].
    split; [done|]. by eapply remove_first_Forall.
  - unfold UpdateRule. destruct (Compile r) as [r'|] eqn:Ec; [|done]. destruct (_ || _); [done|].
    split; cbn; [by rewrite length_insert|]. apply Forall_insert; [done|by eapply Compile_ok].
  - destruct (compile_all rs) as [rs'|] eqn:Ec; [|done]. split; [done|]. by eapply compile_all_ok.
  - split; [done|constructor].
Qed.

Lemma find_first {A} (f : A -> bool) l x :
  List.find f l = Some x <->
  exists pre post, l = pre ++ x :: post /\ f x = true /\ Forall (fun y => f y = false) pre.
Proof.
  induction l as [|y l IH]; cbn.
  { split; [done|]. by intros ([|] & post & E & _). }
  destruct (f y) eqn:Ey.
  - split.
    + intros [= <-]. exists [], l. by repeat constructor.
    + intros ([|z pre] & post & E & Hx & Hp); cbn in E; simplify_eq; [done|].
      apply Forall_cons in Hp as [? _]. congruence.
  - rewrite IH. split.
    + intros (pre & post & -> & Hx & Hp). exists (y :: pre), post. by repeat constructor.
    + intros ([|z pre] & post & E & Hx & Hp); cbn in E; simplify_eq; [congruence|].
      apply Forall_cons in Hp as [_ ?]. by exists pre, post.
Qed.

(** C12: whatever was done to an engine, the lock-free rule count is the number
    of rules and every rule is compiled and valid (a REDIRECT has an address, a
    FORWARD at least one upstream); and evaluation returns the first enabled
    rule, in order, whose expression is true, treating an evaluation error as
    false. *)
Theorem engine_first_match (os : list PolicyOp) (groups : GroupCache) (ctx : Context) :
  let e := foldl (fun e o => policy_op o e) NewEngine os in
  Count e = wraps 32 (Z.of_nat (length (rules e))) /\
  (forall r, r ∈ rules e -> is_Some (program r) /\
     (Action r = ActionBlock \/ Action r = ActionAllow \/
      (Action r = ActionRedirect /\ is_Some (ParseIP (ActionData r))) \/
      (Action r = ActionForward /\ GetUpstreams r <> []))) /\
  (forall r, Evaluate groups ctx e = Some r <->
     exists pre post, rules e = pre ++ r :: post /\ Enabled r = true /\ rule_true groups ctx r = true /\
       Forall (fun r' => Enabled r' = false \/ rule_true groups ctx r' = false) pre).
Proof.
  intros e. assert (engine_ok e) as [Hc Hf].
  { unfold e. assert (engine_ok NewEngine) as H0 by (split; [done|constructor]). revert H0.
    generalize NewEngine. induction os as [|o os IH]; intros e0 H0; cbn; [done|]. by apply IH, policy_op_ok. }
  split; [done|]. split.
  - intros r Hr. rewrite Forall_forall in Hf. destruct (Hf r Hr) as (Hv & Hu & _ & Hp). split; [done|].
    unfold validateAction in Hv. rewrite Hu in Hv. unfold GetUpstreams.
    destruct (bytes_eqb (Action r) ActionBlock) eqn:E1; [apply bytes_eqb_eq in E1; auto|].
    destruct (bytes_eqb (Action r) ActionAllow) eqn:E2; [apply bytes_eqb_eq in E2; auto|].
    destruct (bytes_eqb (Action r) ActionRedirect) eqn:E3; cbn [orb] in Hv.
    { apply bytes_eqb_eq in E3. right; right; left. split; [done|].
      destruct (bytes_eqb (ActionData r) []); [done|]. by destruct (ParseIP (ActionData r)). }
    destruct (bytes_eqb (Action r) ActionForward) eqn:E4; cbn [orb] in Hv.
    { apply bytes_eqb_eq in E4. right; right; right. split; [done|].
      destruct (bytes_eqb (ActionData r) []); [done|]. by destruct (ParseUpstreams (ActionData r)) as [[|]|]. }
    by destruct (bytes_eqb (Action r) ActionRateLimit).
  - intros r. unfold Evaluate. rewrite find_first. setoid_rewrite andb_true_iff. setoid_rewrite andb_false_iff.
    naive_solver.
Qed.

End engine.

(** ** Labels *)

(** A part of a split string stands between two separators or ends. *)
Lemma elem_of_SplitByte s c p :
  p ∈ SplitByte s c <->
  c ∉ p /\ exists l r, s = l ++ p ++ r /\ (l = [] \/ exists l', l = l' ++ [c]) /\
    (r = [] \/ exists r', r = c :: r').
Proof.
  induction s as [s IH] using (induction_ltof1 _ (@length ascii)). unfold ltof in IH.
  destruct (decide (c ∈ s)) as [Hin|Hno].
  - apply list_elem_of_split_l in Hin as (a & b & -> & Ha). rewrite SplitByte_first by done.
    rewrite elem_of_cons, (IH b) by (rewrite length_app; cbn; lia). split.
    + intros [->|(Hp & l & r & -> & Hl & Hr)].
      * split; [done|]. exists [], (c :: b). split_and!; [done|by left|right; by eexists].
      * split; [done|]. exists (a ++ c :: l), r. split; [by rewrite <- app_assoc|]. split; [|done].
        right. destruct Hl as [->|[l' ->]]; [by exists a|]. exists (a ++ c :: l'). by rewrite <- app_assoc.
    + intros (Hp & l & r & E & Hl & Hr). destruct Hl as [->|[l' ->]].
      * left. destruct Hr as [->|[r' ->]]; cbn in E.
        -- rewrite app_nil_r in E. subst p. set_solver.
        -- apply not_elem_of_app_cons_inv_l in E as (-> & _ & _); done.
      * right. split; [done|]. rewrite <- app_assoc in E. cbn in E.
        destruct (decide (c ∈ l')) as [Hin|Hno].
        -- apply list_elem_of_split_l in Hin as (l1 & l2 & -> & Hl1). rewrite <- app_assoc in E. cbn in E.
           apply not_elem_of_app_cons_inv_l in E as (_ & _ & ->); [|done..].
           exists (l2 ++ [c]), r. split; [by rewrite <- app_assoc|]. split; [right; by eexists|done].
        -- apply not_elem_of_app_cons_inv_l in E as (_ & _ & ->); [|done..]. exists [], r. split_and!; [done|by left|done].
  - rewrite SplitByte_none by done. rewrite list_elem_of_singleton. split.
    + intros ->. split; [done|]. exists [], []. rewrite app_nil_r. auto.
    + intros (Hp & l & r & -> & Hl & Hr).
      destruct Hl as [->|[l' ->]]; [|set_solver]. destruct Hr as [->|[r' ->]]; [|set_solver].
      by rewrite app_nil_r.
Qed.

(** [DomainMatches] respects label boundaries: with case and one final dot
    ignored, a pattern matches the name itself and its subdomains; a pattern
    with a leading dot likewise; and a pattern without dots also matches every
    name of which it is a whole label. *)
Theorem domain_matches_spec (domain pattern : gostring) :
  let D := ToLower (TrimSuffix domain [dot]) in
  let P := ToLower (TrimSuffix pattern [dot]) in
  DomainMatches domain pattern = true <->
  if HasPrefix P [dot] then D = drop 1 P \/ exists k, D = k ++ P
  else D = P \/ (exists k, D = k ++ dot :: P) \/ (dot ∉ P /\ P ∈ SplitByte D dot).
Proof.
  intros D P. unfold DomainMatches. fold D P.
  destruct (bytes_eqb D P) eqn:E0.
  { apply bytes_eqb_eq in E0. destruct (HasPrefix P [dot]); [|tauto].
    split; [|done]. intros _. right. exists []. done. }
  assert (D <> P) as Hne by (intros E; apply bytes_eqb_eq in E; congruence).
  destruct (HasPrefix P [dot]).
  { rewrite orb_true_iff, bytes_eqb_eq, HasSuffix_spec. done. }
  destruct (HasSuffix D (dot :: P)) eqn:E1.
  { apply HasSuffix_spec in E1. tauto. }
  assert (~ exists k, D = k ++ dot :: P) as Hns by (rewrite <- HasSuffix_spec; congruence).
  destruct (Contains P [dot]) eqn:E2; cbn [negb].
  { apply Contains_byte in E2. split; [done|]. tauto. }
  apply Contains_byte_false in E2. cbn [orb]. rewrite orb_false_r, orb_true_iff.
  rewrite HasPrefix_spec, Contains_spec, elem_of_SplitByte. split.
  - intros [[k H]|(a & b & H)]; right; right; (split; [done|]); (split; [done|]).
    + exists [], (dot :: k). rewrite H, <- app_assoc. split_and!; [done|by left|right; by eexists].
    + exists (a ++ [dot]), (dot :: b). rewrite H. cbn. rewrite <- !app_assoc.
      split_and!; [done|right; by eexists|right; by eexists].
  - intros [?|[?|(_ & _ & l & r & H & Hl & Hr)]]; [done..|].
    destruct Hl as [->|[l' ->]], Hr as [->|[r' ->]].
    + rewrite app_nil_r in H. done.
    + left. exists r'. rewrite H, <- app_assoc. done.
    + exfalso. apply Hns. exists l'. by rewrite H, app_nil_r, <- app_assoc.
    + right. exists l', r'. rewrite H. cbn. by rewrite <- !app_assoc.
Qed.

(** ** Times *)

Definition valid_time (h m : Z) : Prop := 0 <= h < 24 /\ 0 <= m < 60.

Lemma mod_day a b : 0 <= a < 1440 -> 0 <= b < 1440 ->
  (a - b) mod 1440 = if b <=? a then a - b else a - b + 1440.
Proof.
  intros Ha Hb. destruct (Z.leb_spec b a).
  - apply Z.mod_small. lia.
  - symmetry. apply (Z.mod_unique _ _ (-1)); lia.
Qed.

(** A time range is the minutes from its start up to its end going forward
    on the clock, across midnight if need be: a time is in it exactly when it is
    no further, modulo a day, from the start than the end is. *)
Theorem in_time_range_cyclic (h m sh sm eh em : Z)
    (H0 : valid_time h m) (H1 : valid_time sh sm) (H2 : valid_time eh em) :
  let at_ h m := h * 60 + m in
  InTimeRange h m sh sm eh em = true <->
  (at_ h m - at_ sh sm) mod 1440 <= (at_ eh em - at_ sh sm) mod 1440.
Proof.
  unfold valid_time in *. cbv zeta. rewrite !mod_day by lia. unfold InTimeRange.
  destruct (Z.leb_spec (sh * 60 + sm) (eh * 60 + em));
    rewrite ?andb_true_iff, ?orb_true_iff, ?Z.leb_le;
    destruct (Z.leb_spec (sh * 60 + sm) (h * 60 + m)); lia.
Qed.

Lemma in_time_range_cyclic_witness :
  valid_time 23 30 /\ valid_time 22 0 /\ valid_time 6 15 /\ InTimeRange 23 30 22 0 6 15 = true.
Proof.
  assert (valid_time 23 30 /\ valid_time 22 0 /\ valid_time 6 15) as (H0 & H1 & H2)
    by (unfold valid_time; lia).
  split_and!; [done..|]. apply (in_time_range_cyclic 23 30 22 0 6 15 H0 H1 H2). by vm_compute.
Defined.

(** ** The caches *)

(** Every entry is what parsing its key gives, and the counter is the size. *)
Record bc_ok {V} (parse : gostring -> option V) (cap : Z) (c : BoundedCache V) : Prop := {
  bc_sound : forall k v, bc_map c !! k = Some v -> parse k = Some v;
  bc_count : bc_len c = Z.of_nat (size (bc_map c));
  bc_cap : bc_len c <= cap
}.

Lemma cache_store_ok {V} (parse : gostring -> option V) cap k v c :
  bc_ok parse cap c -> parse k = Some v -> bc_ok parse cap (cache_store cap k v c).
Proof.
  intros [H1 H2 H3] Hp. unfold cache_store. destruct (Z.ltb_spec (bc_len c) cap); [|done].
  destruct (bc_map c !! k) eqn:E; [done|]. split; cbn; [|rewrite map_size_insert_None by done; lia|lia].
  intros k' v'. destruct (decide (k = k')) as [<-|]; [rewrite lookup_insert_eq; congruence|].
  rewrite lookup_insert_ne by done. apply H1.
Qed.

Lemma IPInCIDR_transparent ip cidr c :
  bc_ok ParseCIDR maxCIDRCacheSize c ->
  let '(b, c') := IPInCIDR ip cidr c in b = IPInCIDR_pure ip cidr /\ bc_ok ParseCIDR maxCIDRCacheSize c'.
Proof.
  intros Hok. unfold IPInCIDR_pure, IPInCIDR. destruct (ParseIP ip) as [a|]; [|done].
  cbn [bc_map]. rewrite lookup_empty. destruct (bc_map c !! cidr) as [n|] eqn:E.
  - rewrite (bc_sound _ _ _ Hok _ _ E). done.
  - destruct (ParseCIDR cidr) as [n|] eqn:Ep; [|done]. split; [done|]. by apply cache_store_ok.
Qed.

Section caches.
Context {RX : RegexpLib}.

Lemma DomainRegex_transparent d p (c : BoundedCache Regexp) :
  bc_ok regexp_Compile maxRegexCacheSize c ->
  let '(b, c') := DomainRegex d p c in
  b = DomainRegex_pure d p /\ bc_ok regexp_Compile maxRegexCacheSize c'.
Proof.
  intros Hok. unfold DomainRegex_pure, DomainRegex. cbn [bc_map]. rewrite lookup_empty.
  destruct (bc_map c !! p) as [re|] eqn:E.
  - rewrite (bc_sound _ _ _ Hok _ _ E). done.
  - destruct (regexp_Compile p) as [re|] eqn:Ep; [|done]. split; [done|]. by apply cache_store_ok.
Qed.

(** A run of helper calls through the shared caches. *)
Inductive HelperCall := CallCIDR (ip cidr : gostring) | CallRegex (d p : gostring).

Fixpoint run_helpers (cs : list HelperCall) (c : BoundedCache IPNet) (x : BoundedCache Regexp)
    : list (result HelperError bool) * BoundedCache IPNet * BoundedCache Regexp :=
  match cs with
  | [] => ([], c, x)
  | CallCIDR ip cidr :: cs' =>
      let '(b, c) := IPInCIDR ip cidr c in
      let '(bs, c, x) := run_helpers cs' c x in (Ok b :: bs, c, x)
  | CallRegex d p :: cs' =>
      let '(b, x) := DomainRegex d p x in
      let '(bs, c, x) := run_helpers cs' c x in (b :: bs, c, x)
  end.

(** The process-wide caches are transparent and bounded: starting empty, any
    sequence of CIDR and regexp checks gives the answers of parsing every
    argument anew, and leaves at most 256 networks and 1024 expressions. *)
Theorem helper_caches_transparent (cs : list HelperCall) :
  let '(bs, c, x) := run_helpers cs (MkBC ∅ 0) (MkBC ∅ 0) in
  bs = map (fun h => match h with
                     | CallCIDR ip cidr => Ok (IPInCIDR_pure ip cidr)
                     | CallRegex d p => DomainRegex_pure d p end) cs /\
  Z.of_nat (size (bc_map c)) <= 256 /\ Z.of_nat (size (bc_map x)) <= 1024.
Proof.
  assert (forall c x, bc_ok ParseCIDR maxCIDRCacheSize c -> bc_ok regexp_Compile maxRegexCacheSize x ->
    let '(bs, c', x') := run_helpers cs c x in
    bs = map (fun h => match h with
                       | CallCIDR ip cidr => Ok (IPInCIDR_pure ip cidr)
                       | CallRegex d p => DomainRegex_pure d p end) cs /\
    bc_ok ParseCIDR maxCIDRCacheSize c' /\ bc_ok regexp_Compile maxRegexCacheSize x') as H.
  { induction cs as [|[ip cidr|d p] cs IH]; intros c x Hc Hx; cbn; [done|..].
    - pose proof (IPInCIDR_transparent ip cidr c Hc) as H. destruct (IPInCIDR ip cidr c) as [b c1].
      destruct H as [-> Hc1]. specialize (IH c1 x Hc1 Hx). destruct (run_helpers cs c1 x) as [[bs c2] x2].
      destruct IH as (-> & ? & ?). done.
    - pose proof (DomainRegex_transparent d p x Hx) as H. destruct (DomainRegex d p x) as [b x1].
      destruct H as [-> Hx1]. specialize (IH c x1 Hc Hx1). destruct (run_helpers cs c x1) as [[bs c2] x2].
      destruct IH as (-> & ? & ?). done. }
  assert (forall V (parse : gostring -> option V) cap, 0 <= cap -> bc_ok parse cap (MkBC ∅ 0)) as H0.
  { intros V parse cap Hcap. split; cbn; [intros k v; by rewrite lookup_empty|by rewrite map_size_empty|done]. }
  specialize (H _ _ (H0 _ _ maxCIDRCacheSize ltac:(done)) (H0 _ _ maxRegexCacheSize ltac:(done))).
  destruct (run_helpers cs _ _) as [[bs c] x]. destruct H as (-> & [_ H1 H2] & [_ H3 H4]).
  split; [done|]. unfold maxCIDRCacheSize, maxRegexCacheSize in *. lia.
Qed.

End caches.
