(* ===== verification/ReplyBuffer.v ===== *)
(** * The dnstap reply buffer (pkg/unbound/replybuffer.go)

    A fixed-size ring of recent [CLIENT_RESPONSE] entries, searched backward
    from the newest one.  An out-of-range index and a division by zero are
    panics, [None]; the clock is an argument.  A [float64] is only copied and
    is represented by its bits.  The file shows that the ring implements the
    list of the most recent entries. *)

From S2P Require Import Prelude GoStrings.
From stdpp Require Import options.
Local Open Scope Z_scope.

(** ** Model *)

Record UnboundQueryLog := MkUnboundQueryLog {
  l_ID : Z;
  Timestamp : Z;
  MessageType : gostring;
  l_Domain : gostring;
  l_QueryType : gostring;
  l_ResponseCode : gostring;
  l_DurationMs : Z;
  l_DNSSECValidated : bool;
  l_AnswerCount : Z;
  l_ResponseSize : Z;
  l_ClientIP : gostring;
  l_ServerIP : gostring;
  l_CachedInUnbound : bool
}.

Record replyEntry := MkReplyEntry {
  timestamp : Z;
  r_domain : gostring;
  r_queryType : gostring;
  r_cachedInUnbound : bool;
  r_durationMs : Z;
  r_dnssecValidated : bool;
  r_responseSize : Z
}.

Definition zero_entry : replyEntry := MkReplyEntry 0 [] [] false 0 false 0.

Record ReplyMatch := MkReplyMatch {
  CachedInUnbound : bool; DurationMs : Z; DNSSECValidated : bool; ResponseSize : Z
}.

Record ReplyBuffer := MkReplyBuffer { entries : list replyEntry; head : Z; size : Z }.

(** [make] panics on a negative length. *)
Definition NewReplyBuffer (capacity : Z) : option ReplyBuffer :=
  if capacity <? 0 then None else Some (MkReplyBuffer (replicate (Z.to_nat capacity) zero_entry) 0 0).

Definition len (b : ReplyBuffer) : Z := Z.of_nat (length (entries b)).

(** Slice indexing, a panic out of range. *)
Definition slice_get {A} (l : list A) (i : Z) : option A :=
  if i <? 0 then None else l !! Z.to_nat i.

Definition slice_set {A} (l : list A) (i : Z) (x : A) : option (list A) :=
  if (0 <=? i) && (i <? Z.of_nat (length l)) then Some (<[Z.to_nat i := x]> l) else None.

Definition CLIENT_RESPONSE : gostring := str "CLIENT_RESPONSE".

Definition to_reply (e : UnboundQueryLog) : replyEntry :=
  MkReplyEntry (Timestamp e) (ToLower (l_Domain e)) (l_QueryType e) (l_CachedInUnbound e)
    (l_DurationMs e) (l_DNSSECValidated e) (l_ResponseSize e).

(** [Add]; [nil] is [None]. *)
Definition Add (entry : option UnboundQueryLog) (b : ReplyBuffer) : option ReplyBuffer :=
  match entry with
  | None => Some b
  | Some e =>
      if negb (bytes_eqb (MessageType e) CLIENT_RESPONSE) then Some b
      else
        es ← slice_set (entries b) (head b) (to_reply e);
        if Z.of_nat (length es) =? 0 then None
        else Some (MkReplyBuffer es (Z.rem (head b + 1) (Z.of_nat (length es)))
                     (if size b <? Z.of_nat (length es) then size b + 1 else size b))
  end.

Definition to_match (e : replyEntry) : ReplyMatch :=
  MkReplyMatch (r_cachedInUnbound e) (r_durationMs e) (r_dnssecValidated e) (r_responseSize e).

Definition reply_matches (domainLower queryType : gostring) (e : replyEntry) : bool :=
  bytes_eqb (r_domain e) domainLower && bytes_eqb (r_queryType e) queryType.

(** The backward scan, [todo] steps from offset [i]; the outer [None] is a
    panic. *)
Fixpoint find_loop (todo : nat) (i : Z) (cutoff : Z) (domainLower queryType : gostring) (b : ReplyBuffer)
  : option (option ReplyMatch) :=
  match todo with
  | O => Some None
  | S todo' =>
      if len b =? 0 then None
      else
        e ← slice_get (entries b) (Z.rem (head b - 1 - i + len b) (len b));
        if timestamp e <? cutoff then Some None
        else if reply_matches domainLower queryType e then Some (Some (to_match e))
        else find_loop todo' (i + 1) cutoff domainLower queryType b
  end.

(** [time.Now().Add(-maxAge)]; a [Duration] is an [int64]. *)
Definition cutoff_of (now maxAge : Z) : Z := now + wraps 64 (- maxAge).

Definition FindReply (now : Z) (domain queryType : gostring) (maxAge : Z) (b : ReplyBuffer)
  : option (option ReplyMatch) :=
  if size b =? 0 then Some None
  else find_loop (Z.to_nat (size b)) 0 (cutoff_of now maxAge) (ToLower domain) queryType b.

(** A sequence of [Add] calls. *)
Fixpoint add_all (es : list (option UnboundQueryLog)) (b : ReplyBuffer) : option ReplyBuffer :=
  match es with
  | [] => Some b
  | e :: es' => b' ← Add e b; add_all es' b'
  end.

(** ** Specification: the client responses, newest first *)

Definition client_response (e : option UnboundQueryLog) : option replyEntry :=
  match e with
  | Some e => if bytes_eqb (MessageType e) CLIENT_RESPONSE then Some (to_reply e) else None
  | None => None
  end.

Definition history (es : list (option UnboundQueryLog)) : list replyEntry :=
  reverse (omap client_response es).

(** The entries before the first one older than the cutoff. *)
Fixpoint fresh_prefix (cutoff : Z) (h : list replyEntry) : list replyEntry :=
  match h with
  | [] => []
  | e :: h' => if timestamp e <? cutoff then [] else e :: fresh_prefix cutoff h'
  end.

Definition spec_find (cutoff : Z) (d q : gostring) (h : list replyEntry) : option ReplyMatch :=
  to_match <$> List.hd_error (filter (fun e => reply_matches d q e = true) (fresh_prefix cutoff h)).

(** The ring [b] of capacity [n] holds the newest [n] entries of [h]. *)
Record holds (n : nat) (b : ReplyBuffer) (h : list replyEntry) : Prop := {
  holds_len : length (entries b) = n;
  holds_head : 0 <= head b < Z.of_nat n;
  holds_size : size b = Z.of_nat (Nat.min (length h) n);
  holds_at (i : nat) : (i < Nat.min (length h) n)%nat ->
    entries b !! Z.to_nat ((head b - 1 - Z.of_nat i + Z.of_nat n) mod Z.of_nat n) = h !! i
}.

Lemma new_holds n : (0 < n)%nat -> exists b, NewReplyBuffer (Z.of_nat n) = Some b /\ holds n b [].
Proof.
  intros Hn. unfold NewReplyBuffer. destruct (Z.ltb_spec (Z.of_nat n) 0); [lia|].
  eexists. split; [done|]. split; cbn [entries head size length]; try lia.
  by rewrite length_replicate, Nat2Z.id.
Qed.

(** Going one step back from the advanced head, and then [i] more, is going
    [i] back from the old head. *)
Lemma ring_step (hd i n : Z) :
  0 < n -> ((hd + 1) mod n - 1 - i + n) mod n = (hd - i + n) mod n.
Proof.
  intros Hn. replace ((hd + 1) mod n - 1 - i + n) with ((hd + 1) mod n + (n - 1 - i)) by lia.
  rewrite Z.add_mod_idemp_l by lia. f_equal. lia.
Qed.

Lemma ring_distinct (hd i n : Z) : 0 <= hd < n -> 0 < i < n -> (hd - i + n) mod n <> hd.
Proof.
  intros Hh Hi Heq. destruct (Z_lt_le_dec hd i).
  - rewrite Z.mod_small in Heq by lia. lia.
  - replace (hd - i + n) with (hd - i + 1 * n) in Heq by lia.
    rewrite Z.mod_add, Z.mod_small in Heq by lia. lia.
Qed.

Lemma Add_holds n b h e :
  holds n b h -> exists b', Add e b = Some b' /\ holds n b' (option_list (client_response e) ++ h).
Proof.
  intros [Hl Hh Hs Hat]. unfold Add, client_response.
  destruct e as [e|]; [|by exists b].
  destruct (bytes_eqb (MessageType e) CLIENT_RESPONSE); cbn [negb]; [|by exists b].
  unfold slice_set. rewrite Hl.
  rewrite (proj2 (Z.leb_le 0 (head b))), (proj2 (Z.ltb_lt (head b) (Z.of_nat n))) by lia. cbn [andb].
  cbn [mbind option_bind]. rewrite length_insert, Hl.
  destruct (Z.eqb_spec (Z.of_nat n) 0); [lia|].
  eexists. split; [done|]. rewrite Z.rem_mod_nonneg by lia.
  change (option_list (Some (to_reply e)) ++ h) with (to_reply e :: h).
  split; cbn [entries head size length].
  - by rewrite length_insert.
  - apply Z.mod_pos_bound. lia.
  - rewrite Hs. destruct (Z.ltb_spec (Z.of_nat (Nat.min (length h) n)) (Z.of_nat n)); lia.
  - intros i Hi. rewrite ring_step by lia. destruct i as [|i].
    + replace ((head b - Z.of_nat 0 + Z.of_nat n) mod Z.of_nat n) with (head b).
      * apply list_lookup_insert_eq. lia.
      * replace (head b - Z.of_nat 0 + Z.of_nat n) with (head b + 1 * Z.of_nat n) by lia.
        rewrite Z.mod_add, Z.mod_small; lia.
    + rewrite list_lookup_insert_ne.
      * cbn. rewrite <- Hat by lia. do 3 f_equal. lia.
      * intros Heq. apply (ring_distinct (head b) (Z.of_nat (S i)) (Z.of_nat n)); [lia..|].
        pose proof (Z.mod_pos_bound (head b - Z.of_nat (S i) + Z.of_nat n) (Z.of_nat n)). apply Z2Nat.inj; lia.
Qed.

Lemma add_all_holds n es b h :
  holds n b h -> exists b', add_all es b = Some b' /\ holds n b' (history es ++ h).
Proof.
  revert b h. induction es as [|e es IH]; intros b h Hb; cbn [add_all].
  { by exists b. }
  destruct (Add_holds n b h e Hb) as (b1 & -> & Hb1). cbn [mbind option_bind].
  destruct (IH b1 _ Hb1) as (b2 & -> & Hb2). exists b2. split; [done|].
  unfold history in *. rewrite omap_cons_eq.
  destruct (client_response e) as [x|]; [|done].
  by rewrite reverse_cons, <- app_assoc.
Qed.

Lemma find_loop_spec n b h cutoff d q (todo i : nat) :
  holds n b h -> (i + todo = Nat.min (length h) n)%nat ->
  find_loop todo (Z.of_nat i) cutoff d q b = Some (spec_find cutoff d q (take todo (drop i h))).
Proof.
  intros Hb. pose proof Hb as [Hl Hh Hs Hat]. revert i.
  induction todo as [|todo IH]; intros i Hi; cbn [find_loop]; [done|].
  unfold len. rewrite Hl. destruct (Z.eqb_spec (Z.of_nat n) 0); [lia|].
  rewrite Z.rem_mod_nonneg by lia. unfold slice_get.
  pose proof (Z.mod_pos_bound (head b - 1 - Z.of_nat i + Z.of_nat n) (Z.of_nat n)).
  destruct (Z.ltb_spec ((head b - 1 - Z.of_nat i + Z.of_nat n) mod Z.of_nat n) 0); [lia|].
  rewrite Hat by lia. destruct (h !! i) as [e|] eqn:E.
  2: { apply lookup_ge_None in E. lia. }
  rewrite (drop_S h e i E). cbn [take mbind option_bind]. unfold spec_find. cbn [fresh_prefix].
  destruct (timestamp e <? cutoff); [done|].
  rewrite filter_cons. destruct (reply_matches d q e) eqn:Em; [by rewrite decide_True|].
  rewrite decide_False by congruence. replace (Z.of_nat i + 1) with (Z.of_nat (S i)) by lia.
  apply IH. lia.
Qed.

Lemma FindReply_spec n b h now d q maxAge :
  holds n b h ->
  FindReply now d q maxAge b = Some (spec_find (cutoff_of now maxAge) (ToLower d) q (take n h)).
Proof.
  intros Hb. pose proof Hb as [Hl Hh Hs Hat]. unfold FindReply.
  destruct (Z.eqb_spec (size b) 0) as [H0|H0].
  { destruct h; cbn [length] in *; [by rewrite take_nil|lia]. }
  rewrite Hs, Nat2Z.id, (find_loop_spec n b h _ _ _ _ 0) by (done || lia). rewrite drop_0.
  f_equal. f_equal. destruct (Nat.min_spec (length h) n) as [[? ->]|[? ->]]; [|done].
  rewrite take_ge, take_ge; [done|lia|done].
Qed.

(** Where the entries arrive in the order of their timestamps, the early exit
    of the scan loses nothing. *)
Lemma fresh_prefix_filter cutoff h :
  StronglySorted (fun a b => timestamp b <= timestamp a) h ->
  fresh_prefix cutoff h = filter (fun e => cutoff <= timestamp e) h.
Proof.
  induction 1 as [|e h Hs IH Hf]; cbn [fresh_prefix]; [done|]. rewrite filter_cons.
  destruct (Z.ltb_spec (timestamp e) cutoff) as [Hlt|Hge].
  - rewrite decide_False by lia. symmetry.
    clear IH Hs. induction Hf as [|x h Hx Hf IH]; [done|]. rewrite filter_cons, decide_False by lia. done.
  - by rewrite decide_True, IH by lia.
Qed.

(** The ring buffer of positive capacity [n] never panics and implements
    the list of the newest [n] client responses: after any sequence of [Add]
    calls [FindReply] returns the newest of them that has the given name (up to
    case) and type and is not preceded, from the newest on, by one older than
    the cutoff; where the entries were added in the order of their timestamps
    this is the newest matching one that is not older than the cutoff. *)
Theorem reply_buffer_refines (n : nat) (es : list (option UnboundQueryLog)) (Hn : (0 < n)%nat) :
  exists b0 b, NewReplyBuffer (Z.of_nat n) = Some b0 /\ add_all es b0 = Some b /\
    forall now d q maxAge,
      let recent := take n (history es) in
      let cutoff := cutoff_of now maxAge in
      FindReply now d q maxAge b = Some (spec_find cutoff (ToLower d) q recent) /\
      (StronglySorted (fun x y => timestamp y <= timestamp x) recent ->
       FindReply now d q maxAge b =
         Some (to_match <$> List.hd_error
           (filter (fun e => reply_matches (ToLower d) q e = true)
             (filter (fun e => cutoff <= timestamp e) recent)))).
Proof.
  destruct (new_holds n Hn) as (b0 & Hb0 & H0).
  destruct (add_all_holds n es b0 [] H0) as (b & Hb & Hh). rewrite app_nil_r in Hh.
  exists b0, b. split_and!; [done..|]. intros now d q maxAge recent cutoff.
  rewrite (FindReply_spec n b (history es)) by done. split; [done|]. intros Hs.
  unfold spec_find. by rewrite fresh_prefix_filter.
Qed.

Definition sample_log (ts : Z) (d : string) (size : Z) : option UnboundQueryLog :=
  Some (MkUnboundQueryLog 0 ts CLIENT_RESPONSE (str d) (str "A") (str "NOERROR") 0 false 1 size
          (str "127.0.0.1") [] true).

Lemma reply_buffer_refines_witness :
  (0 < 2)%nat /\
  exists b0 b, NewReplyBuffer 2 = Some b0 /\
    add_all [sample_log 1 "a.lan." 10; sample_log 2 "A.lan." 20; sample_log 3 "b.lan." 30] b0 = Some b /\
    FindReply 4 (str "a.LAN.") (str "A") 100 b = Some (Some (MkReplyMatch true 0 false 20)).
Proof.
  split; [lia|].
  destruct (reply_buffer_refines 2
    [sample_log 1 "a.lan." 10; sample_log 2 "A.lan." 20; sample_log 3 "b.lan." 30]) as (b0 & b & H0 & Hb & H);
    [lia|].
  exists b0, b. split_and!; [exact H0|exact Hb|].
  destruct (H 4 (str "a.LAN.") (str "A") 100) as [-> _]. vm_compute. reflexivity.
Defined.
