(* ===== verification/KillSwitch.v ===== *)
(** * The temporary kill switches (pkg/api/killswitch.go)

    A time is the number of nanoseconds since 1970, so the zero [time.Time]
    (the first of January of year 1) is [zero_time].  The clock is an argument
    of every operation that reads it.  Every critical section of the manager's
    lock is one definition; a tick of the monitor goroutine enters the lock up
    to three times and takes the state it finds each time as an argument, so
    operations of other goroutines may run in between.  The callback is
    represented by an identity; running it is an event. *)

From S2P Require Import Prelude.
From stdpp Require Import options.
Local Open Scope Z_scope.

(** ** Model *)

Definition zero_time : Z := -62135596800000000000.
Definition IsZero (t : Z) : bool := t =? zero_time.
Definition Before (t u : Z) : bool := t <? u.

Abbreviation Callback := nat.

Record KillSwitchManager := MkKillSwitch {
  onReEnable : option Callback;
  blocklistDisabledUntil : Z;
  policiesDisabledUntil : Z;
  stopClosed : bool
}.

Definition NewKillSwitchManager : KillSwitchManager := MkKillSwitch None zero_time zero_time false.

Definition SetOnReEnable (fn : option Callback) (k : KillSwitchManager) : KillSwitchManager :=
  MkKillSwitch fn (blocklistDisabledUntil k) (policiesDisabledUntil k) (stopClosed k).

Definition set_blocklist (t : Z) (k : KillSwitchManager) : KillSwitchManager :=
  MkKillSwitch (onReEnable k) t (policiesDisabledUntil k) (stopClosed k).

Definition set_policies (t : Z) (k : KillSwitchManager) : KillSwitchManager :=
  MkKillSwitch (onReEnable k) (blocklistDisabledUntil k) t (stopClosed k).

(** [Stop] closes the channel once and waits for the monitor. *)
Definition Stop (k : KillSwitchManager) : KillSwitchManager :=
  if stopClosed k then k
  else MkKillSwitch (onReEnable k) (blocklistDisabledUntil k) (policiesDisabledUntil k) true.

Definition DisableBlocklistFor (now duration : Z) (k : KillSwitchManager) : KillSwitchManager * Z :=
  let until := now + duration in (set_blocklist until k, until).

Definition DisablePoliciesFor (now duration : Z) (k : KillSwitchManager) : KillSwitchManager * Z :=
  let until := now + duration in (set_policies until k, until).

(** The boolean tells whether the cancellation is logged. *)
Definition EnableBlocklist (now : Z) (k : KillSwitchManager) : KillSwitchManager * bool :=
  let wasDisabled := Before now (blocklistDisabledUntil k) in (set_blocklist zero_time k, wasDisabled).

Definition EnablePolicies (now : Z) (k : KillSwitchManager) : KillSwitchManager * bool :=
  let wasDisabled := Before now (policiesDisabledUntil k) in (set_policies zero_time k, wasDisabled).

Definition IsBlocklistDisabled (now : Z) (k : KillSwitchManager) : bool * Z :=
  if Before now (blocklistDisabledUntil k) then (true, blocklistDisabledUntil k) else (false, zero_time).

Definition IsPoliciesDisabled (now : Z) (k : KillSwitchManager) : bool * Z :=
  if Before now (policiesDisabledUntil k) then (true, policiesDisabledUntil k) else (false, zero_time).

(** [GetStatus]: two critical sections, each reading the clock. *)
Definition GetStatus (now1 : Z) (k1 : KillSwitchManager) (now2 : Z) (k2 : KillSwitchManager)
  : (bool * Z) * (bool * Z) :=
  (IsBlocklistDisabled now1 k1, IsPoliciesDisabled now2 k2).

(** ** The monitor goroutine *)

Inductive Feature := Blocklist | Policies.
#[global] Instance Feature_dec : EqDecision Feature.
Proof. solve_decision. Defined.

(** "auto-re-enabled" is logged for a feature and the callback, if any, run. *)
Inductive Event := ReEnabled (f : Feature) (called : option Callback).

Record Flags := MkFlags { blocklistLogged : bool; policiesLogged : bool }.

(** One of the two blocks of the tick: it is entered with what the tick read
    first ([disabled]) and re-reads [until] and the callback. *)
Definition tick_feature (f : Feature) (disabled logged : bool) (until : Z) (cb : option Callback)
  : bool * list Event :=
  if negb disabled && negb logged then
    let wasDisabled := negb (IsZero until) in
    if wasDisabled then (true, [ReEnabled f cb]) else (logged, [])
  else (logged, []).

(** A tick that finds the states [k1], [k2] and [k3] at its critical
    sections. *)
Definition tick (now : Z) (k1 k2 k3 : KillSwitchManager) (fl : Flags) : Flags * list Event :=
  let blocklistDisabled := Before now (blocklistDisabledUntil k1) in
  let policiesDisabled := Before now (policiesDisabledUntil k1) in
  let (bl, ev1) := tick_feature Blocklist blocklistDisabled (blocklistLogged fl)
                     (blocklistDisabledUntil k2) (onReEnable k2) in
  let (pl, ev2) := tick_feature Policies policiesDisabled (policiesLogged fl)
                     (policiesDisabledUntil k3) (onReEnable k3) in
  (MkFlags (if blocklistDisabled then false else bl) (if policiesDisabled then false else pl), ev1 ++ ev2).

(** What the monitor's [select] receives. *)
Inductive Signal := CtxDone | StopChan | Tick (now : Z) (k1 k2 k3 : KillSwitchManager).

Fixpoint monitor_loop (sigs : list Signal) (fl : Flags) : list Event :=
  match sigs with
  | [] => []
  | CtxDone :: _ | StopChan :: _ => []
  | Tick now k1 k2 k3 :: sigs' => let (fl', ev) := tick now k1 k2 k3 fl in ev ++ monitor_loop sigs' fl'
  end.

Definition monitorExpiration (sigs : list Signal) : list Event := monitor_loop sigs (MkFlags false false).

(** ** The switches follow the last operation *)

Inductive KillOp :=
| ODisableBlocklist (now d : Z) | ODisablePolicies (now d : Z)
| OEnableBlocklist (now : Z) | OEnablePolicies (now : Z)
| OSetCallback (cb : option Callback) | OStop.

Definition kill_op (k : KillSwitchManager) (o : KillOp) : KillSwitchManager :=
  match o with
  | ODisableBlocklist now d => (DisableBlocklistFor now d k).1
  | ODisablePolicies now d => (DisablePoliciesFor now d k).1
  | OEnableBlocklist now => (EnableBlocklist now k).1
  | OEnablePolicies now => (EnablePolicies now k).1
  | OSetCallback cb => SetOnReEnable cb k
  | OStop => Stop k
  end.

(** The abstract switch: off, or disabled until a time; only the operations
    on its own feature matter, and the last one wins. *)
Definition switch_op (f : Feature) (s : option Z) (o : KillOp) : option Z :=
  match f, o with
  | Blocklist, ODisableBlocklist now d | Policies, ODisablePolicies now d => Some (now + d)
  | Blocklist, OEnableBlocklist _ | Policies, OEnablePolicies _ => None
  | _, _ => s
  end.

Definition switch_status (now : Z) (s : option Z) : bool * Z :=
  match s with
  | Some until => if now <? until then (true, until) else (false, zero_time)
  | None => (false, zero_time)
  end.

Definition until_of (f : Feature) (k : KillSwitchManager) : Z :=
  match f with Blocklist => blocklistDisabledUntil k | Policies => policiesDisabledUntil k end.

Lemma kill_op_until f o k s :
  until_of f k = default zero_time s -> until_of f (kill_op k o) = default zero_time (switch_op f s o).
Proof. destruct f, o; cbn; unfold Stop; try done; destruct (stopClosed k); done. Qed.

Lemma kill_ops_until f os k s :
  until_of f k = default zero_time s ->
  until_of f (foldl kill_op k os) = default zero_time (foldl (switch_op f) s os).
Proof.
  revert k s. induction os as [|o os IH]; intros k s H; cbn; [done|]. by apply IH, kill_op_until.
Qed.

(** After any sequence of operations, and at any time, each switch reports
    what the last operation on its own feature says: disabled, with its end,
    while a [Disable...For] has not run out; not disabled otherwise.  Disabling
    again replaces the previous period, and the two switches never influence
    one another. *)
Theorem kill_switch_status (os : list KillOp) (now : Z) (Hnow : zero_time <= now) :
  let k := foldl kill_op NewKillSwitchManager os in
  IsBlocklistDisabled now k = switch_status now (foldl (switch_op Blocklist) None os) /\
  IsPoliciesDisabled now k = switch_status now (foldl (switch_op Policies) None os).
Proof.
  assert (forall s, (if Before now (default zero_time s) then (true, default zero_time s) else (false, zero_time))
    = switch_status now s) as H.
  { intros [u|]; cbn; [done|]. unfold Before. by rewrite (proj2 (Z.ltb_ge now zero_time)). }
  pose proof (kill_ops_until Blocklist os NewKillSwitchManager None eq_refl) as Hb.
  pose proof (kill_ops_until Policies os NewKillSwitchManager None eq_refl) as Hp.
  cbn [until_of] in Hb, Hp. cbn zeta. unfold IsBlocklistDisabled, IsPoliciesDisabled.
  by rewrite Hb, Hp, !H.
Qed.

Lemma kill_switch_status_witness :
  zero_time <= 70 /\
  let k := foldl kill_op NewKillSwitchManager [ODisableBlocklist 10 100; ODisablePolicies 20 30; OEnableBlocklist 60;
    ODisableBlocklist 61 300] in
  IsBlocklistDisabled 70 k = (true, 361) /\ IsPoliciesDisabled 70 k = (false, zero_time).
Proof.
  split; [by vm_compute|].
  exact (kill_switch_status [ODisableBlocklist 10 100; ODisablePolicies 20 30; OEnableBlocklist 60;
    ODisableBlocklist 61 300] 70 ltac:(by vm_compute)).
Defined.

(** ** The re-enable callback *)

Definition of_feature (f : Feature) (e : Event) : Prop := match e with ReEnabled g _ => g = f end.
#[global] Instance of_feature_dec f : (forall e, Decision (of_feature f e)).
Proof. intros [g c]. cbn. apply _. Defined.

Definition logged_of (f : Feature) (fl : Flags) : bool :=
  match f with Blocklist => blocklistLogged fl | Policies => policiesLogged fl end.

(** Ticks at the times [ts] while nobody changes the switches. *)
Definition quiet (k : KillSwitchManager) (ts : list Z) : list Signal := (fun t => Tick t k k k) <$> ts.

Definition feature_step (k : KillSwitchManager) (f : Feature) (t : Z) (logged : bool) : bool * list Event :=
  let d := Before t (until_of f k) in
  let (l, ev) := tick_feature f d logged (until_of f k) (onReEnable k) in
  (if d then false else l, ev).

Lemma tick_by_feature k f t fl :
  let r := tick t k k k fl in
  logged_of f r.1 = (feature_step k f t (logged_of f fl)).1 /\
  filter (of_feature f) r.2 = (feature_step k f t (logged_of f fl)).2.
Proof.
  unfold tick, feature_step, tick_feature. destruct fl as [bl pl].
  destruct f; cbn [logged_of until_of blocklistLogged policiesLogged];
    destruct (Before t (blocklistDisabledUntil k)), (Before t (policiesDisabledUntil k)), bl, pl,
      (IsZero (blocklistDisabledUntil k)), (IsZero (policiesDisabledUntil k)); done.
Qed.

(** Once the period is over and logged, nothing more is logged. *)
Lemma quiet_after k f ts fl :
  logged_of f fl = true -> Forall (fun t => until_of f k <= t) ts ->
  filter (of_feature f) (monitor_loop (quiet k ts) fl) = [].
Proof.
  intros Hl Hts. revert fl Hl. induction Hts as [|t ts Ht Hts IH]; intros fl Hl; [done|].
  cbn [quiet fmap list_fmap monitor_loop].
  destruct (tick t k k k fl) as [fl' ev] eqn:E. pose proof (tick_by_feature k f t fl) as [H1 H2].
  rewrite E in H1, H2. cbn [fst snd] in H1, H2. unfold feature_step, tick_feature, Before in H1, H2.
  rewrite (proj2 (Z.ltb_ge t (until_of f k))), Hl in H1, H2 by lia. cbn in H1, H2.
  rewrite filter_app, H2. by apply IH.
Qed.

(** While nobody touches the switches, the monitor announces the end of a
    temporary disable of a feature at the first tick at or after its end, with
    the registered callback, and exactly once however long it goes on -
    provided the previous announcement was reset, that is, the flag is clear or
    some tick saw the feature disabled.  A period that begins and ends between
    two ticks after an earlier announcement is never announced and its callback
    never runs. *)
Theorem reenable_announced_once (k : KillSwitchManager) (f : Feature) (ts : list Z) (fl : Flags)
    (Hset : until_of f k <> zero_time) (Hts : StronglySorted Z.le ts) :
  filter (of_feature f) (monitor_loop (quiet k ts) fl) =
    if existsb (fun t => until_of f k <=? t) ts &&
       (negb (logged_of f fl) || existsb (fun t => t <? until_of f k) ts)
    then [ReEnabled f (onReEnable k)] else [].
Proof.
  revert fl. induction Hts as [|t ts Hs IH Hf]; intros fl; [done|].
  cbn [quiet fmap list_fmap monitor_loop existsb].
  destruct (tick t k k k fl) as [fl' ev] eqn:E. pose proof (tick_by_feature k f t fl) as [H1 H2].
  rewrite E in H1, H2. cbn [fst snd] in H1, H2. unfold feature_step, tick_feature, Before, IsZero in H1, H2.
  rewrite (proj2 (Z.eqb_neq _ _) Hset) in H1, H2. cbn [negb] in H1, H2. rewrite filter_app, H2.
  destruct (Z.ltb_spec t (until_of f k)) as [Hlt|Hge]; cbn [negb andb] in H1, H2 |- *.
  - rewrite (proj2 (Z.leb_gt (until_of f k) t)) by lia. cbn [orb]. rewrite IH, H1.
    by rewrite !orb_true_r, !andb_true_r.
  - rewrite (proj2 (Z.leb_le (until_of f k) t)) by lia. cbn [orb andb].
    assert (Forall (fun u => until_of f k <= u) ts) as Hall.
    { eapply Forall_impl; [exact Hf|]. cbn. lia. }
    assert (existsb (fun u => u <? until_of f k) ts = false) as ->.
    { clear -Hall. induction Hall; cbn; [done|]. by rewrite (proj2 (Z.ltb_ge _ _)). }
    rewrite orb_false_r.
    assert (logged_of f fl' = true) as Hl by (destruct (logged_of f fl); done).
    pose proof (quiet_after k f ts fl' Hl Hall) as Hq. unfold quiet in Hq. rewrite Hq, app_nil_r.
    by destruct (logged_of f fl).
Qed.

Lemma reenable_announced_once_witness :
  let k := (DisableBlocklistFor 0 50 (SetOnReEnable (Some 7%nat) NewKillSwitchManager)).1 in
  until_of Blocklist k <> zero_time /\ StronglySorted Z.le [10; 60; 70; 80] /\
  filter (of_feature Blocklist) (monitor_loop (quiet k [10; 60; 70; 80]) (MkFlags true false))
    = [ReEnabled Blocklist (Some 7%nat)] /\
  filter (of_feature Blocklist) (monitor_loop (quiet k [60; 70; 80]) (MkFlags true false)) = [].
Proof.
  split; [done|]. assert (StronglySorted Z.le [10; 60; 70; 80]) as Hs by repeat (constructor; try lia).
  split; [exact Hs|]. split.
  - exact (reenable_announced_once (MkKillSwitch (Some 7%nat) 50 zero_time false) Blocklist [10; 60; 70; 80]
      (MkFlags true false) ltac:(done) Hs).
  - exact (reenable_announced_once (MkKillSwitch (Some 7%nat) 50 zero_time false) Blocklist [60; 70; 80]
      (MkFlags true false) ltac:(done) ltac:(by inversion Hs)).
Defined.
