(* ===== verification/ClientAcl.v ===== *)
(** * The client allowlist (pkg/dns/acl.go)

    [NewClientACL], [IsAllowed], [Update] and [IsOpen]; a lock-protected
    structure whose critical sections are the operations.  CIDR containment is
    characterised by the leading bits of the addresses. *)

From Stdlib Require Import Ascii.
From S2P Require Import Prelude GoStrings GoNet.
From stdpp Require Import options.
Local Open Scope Z_scope.

(** ** Model *)

Record ClientACL := MkACL { nets : list IPNet; singles : list IP; acl_empty : bool }.

(** One entry: a CIDR block, else an address, else skipped. *)
Definition add_entry (acl : list IPNet * list IP) (entry : gostring) : list IPNet * list IP :=
  match ParseCIDR entry with
  | Some n => (acl.1 ++ [n], acl.2)
  | None =>
      match ParseIP entry with
      | Some ip => (acl.1, acl.2 ++ [ip])
      | None => acl
      end
  end.

Definition is_nil {A} (l : list A) : bool := match l with [] => true | _ => false end.

Definition NewClientACL (entries : list gostring) : ClientACL :=
  match entries with
  | [] => MkACL [] [] true
  | _ => let (ns, ss) := foldl add_entry ([], []) entries in MkACL ns ss (is_nil ns && is_nil ss)
  end.

Definition IsAllowed (clientIP : gostring) (a : ClientACL) : bool :=
  if acl_empty a then true
  else match ParseIP clientIP with
       | None => false
       | Some ip =>
           existsb (fun n => IPNet_Contains n ip) (nets a) || existsb (fun s => IP_Equal s ip) (singles a)
       end.

Definition Update (entries : list gostring) (a : ClientACL) : ClientACL := NewClientACL entries.

Definition IsOpen (a : ClientACL) : bool := acl_empty a.

(** ** Containment in a block is agreement of the leading bits *)

Definition byte_bits (b : Z) : list bool :=
  [Z.testbit b 7; Z.testbit b 6; Z.testbit b 5; Z.testbit b 4;
   Z.testbit b 3; Z.testbit b 2; Z.testbit b 1; Z.testbit b 0].

Definition bits (ip : IP) : list bool := concat (byte_bits <$> ip).

(** The four-byte form of an address that has one. *)
Definition canonical (ip : IP) : IP := default ip (To4 ip).

(** The number of leading one bits of a mask. *)
Definition ones (m : list Z) : nat := length (filter (fun b => b = true) (bits m)).

(** [ip] is of the family of the block's network number and agrees with it on
    the prefix; the prefix of an IPv4-mapped block is counted after its twelve
    leading bytes. *)
Definition covers (n : IPNet) (ip : IP) : Prop :=
  let b := canonical (net_IP n) in
  let len := (ones (net_Mask n) - 8 * (length (net_IP n) - length b))%nat in
  length (canonical ip) = length b /\ take len (bits (canonical ip)) = take len (bits b).

Lemma land_mask_bits (k : nat) (a b : Z) :
  (k <= 8)%nat ->
  Z.land a (255 - (2 ^ (8 - Z.of_nat k) - 1)) = Z.land b (255 - (2 ^ (8 - Z.of_nat k) - 1)) <->
  take k (byte_bits a) = take k (byte_bits b).
Proof.
  intros Hk. set (m := 255 - (2 ^ (8 - Z.of_nat k) - 1)).
  assert (forall i, Z.testbit m i = (8 - Z.of_nat k <=? i) && (i <? 8)) as Hm.
  { intros i. destruct (Z_lt_le_dec i 0) as [Hi|Hi].
    { rewrite Z.testbit_neg_r by lia. destruct (Z.leb_spec (8 - Z.of_nat k) i); [lia|done]. }
    destruct (Z_lt_le_dec i 8) as [Hi8|Hi8].
    - assert (i = 0 \/ i = 1 \/ i = 2 \/ i = 3 \/ i = 4 \/ i = 5 \/ i = 6 \/ i = 7) as Hc by lia.
      do 9 (destruct k as [|k]; [repeat destruct Hc as [->|Hc]; try subst i; vm_compute; reflexivity|]). lia.
    - rewrite (proj2 (Z.ltb_ge i 8)), andb_false_r by lia.
      assert (0 <= m < 2 ^ 8) as Hr.
      { subst m. assert (2 ^ (8 - Z.of_nat k) <= 2 ^ 8) by (apply Z.pow_le_mono_r; lia).
        assert (0 < 2 ^ (8 - Z.of_nat k)) by (apply Z.pow_pos_nonneg; lia). lia. }
      rewrite <- (Z.mod_small m (2 ^ 8)) by lia. by apply Z.mod_pow2_bits_high. }
  assert (Z.land a m = Z.land b m <-> forall i, 8 - Z.of_nat k <= i < 8 -> Z.testbit a i = Z.testbit b i) as ->.
  { split.
    - intros H i Hi. apply (f_equal (fun z => Z.testbit z i)) in H. rewrite !Z.land_spec, Hm in H.
      rewrite (proj2 (Z.leb_le _ _)), (proj2 (Z.ltb_lt _ _)), !andb_true_r in H by lia. done.
    - intros H. apply Z.bits_inj'. intros i Hi. rewrite !Z.land_spec, Hm.
      destruct (Z.leb_spec (8 - Z.of_nat k) i), (Z.ltb_spec i 8); cbn [andb];
        rewrite ?andb_true_r, ?andb_false_r; try done. apply H. lia. }
  clear Hm m. unfold byte_bits.
  do 9 (destruct k as [|k]; [split;
    [intros H; cbn [take]; repeat (rewrite H by lia); done
    |intros H i Hi; cbn [take] in H; simplify_eq;
     assert (i = 0 \/ i = 1 \/ i = 2 \/ i = 3 \/ i = 4 \/ i = 5 \/ i = 6 \/ i = 7) as Hc by lia;
     repeat destruct Hc as [->|Hc]; try subst i; first [assumption|lia]]|]). lia.
Qed.

Lemma length_byte_bits b : length (byte_bits b) = 8%nat.
Proof. done. Qed.

Lemma mask_zero (x : list Z) (b : nat) : mask_and x (replicate b 0) = replicate (Nat.min (length x) b) 0.
Proof.
  revert b. induction x as [|a x IH]; intros [|b]; [done..|]. cbn. rewrite Z.land_0_r. f_equal. apply IH.
Qed.

Lemma mask_and_bits (x y : list Z) (k : nat) :
  length x = length y -> (k <= 8 * length x)%nat ->
  mask_and x (CIDRMask (Z.of_nat k) (length x)) = mask_and y (CIDRMask (Z.of_nat k) (length x)) <->
  take k (bits x) = take k (bits y).
Proof.
  revert y k. induction x as [|a x IH]; intros [|b y] k Hl Hk; try done.
  cbn [length] in *. cbn [CIDRMask]. unfold bits. cbn [fmap list_fmap concat].
  change (concat (byte_bits <$> x)) with (bits x). change (concat (byte_bits <$> y)) with (bits y).
  destruct (Z.leb_spec 8 (Z.of_nat k)) as [H8|H8].
  - replace (Z.of_nat k - 8) with (Z.of_nat (k - 8)) by lia. cbn [mask_and zip_with].
    change (zip_with Z.land) with mask_and.
    assert (forall c l, take k (byte_bits c ++ l) = byte_bits c ++ take (k - 8) l) as Ht.
    { intros c l. rewrite take_app, length_byte_bits, take_ge by (rewrite length_byte_bits; lia). done. }
    rewrite !Ht. pose proof (land_mask_bits 8 a b ltac:(lia)) as Hab. cbn [take] in Hab.
    rewrite (take_ge (byte_bits a)), (take_ge (byte_bits b)) in Hab by done.
    change (255 - (2 ^ (8 - Z.of_nat 8) - 1)) with 255 in Hab.
    specialize (IH y (k - 8)%nat ltac:(lia) ltac:(lia)). split.
    + intros [= H1 H2]. f_equal; [by apply Hab|by apply IH].
    + intros H. apply app_inj_1 in H as [H1 H2]; [|done]. f_equal; [by apply Hab|by apply IH].
  - cbn [mask_and zip_with]. change (zip_with Z.land) with mask_and. rewrite !mask_zero.
    rewrite !take_app_le by (rewrite length_byte_bits; lia).
    rewrite <- (land_mask_bits k a b) by lia. replace (length y) with (length x) by lia. split.
    + by intros [= H].
    + intros ->. done.
Qed.

Lemma CIDRMask_zero l : CIDRMask 0 l = replicate l 0.
Proof. by destruct l. Qed.

Lemma length_CIDRMask k l : length (CIDRMask k l) = l.
Proof.
  revert k. induction l as [|l IH]; intros k; cbn [CIDRMask]; [done|].
  destruct (8 <=? k); cbn [length]; [by rewrite IH|by rewrite length_replicate].
Qed.

Lemma drop_CIDRMask j l (k : nat) :
  drop j (CIDRMask (Z.of_nat k) (j + l)) = CIDRMask (Z.of_nat (k - 8 * j)) l.
Proof.
  revert k. induction j as [|j IH]; intros k.
  { rewrite drop_0. do 2 f_equal. lia. }
  cbn [Nat.add CIDRMask]. destruct (Z.leb_spec 8 (Z.of_nat k)); cbn [drop].
  - replace (Z.of_nat k - 8) with (Z.of_nat (k - 8)) by lia.
    rewrite IH. do 2 f_equal. lia.
  - replace (k - 8 * S j)%nat with 0%nat by lia. rewrite CIDRMask_zero.
    rewrite drop_replicate. f_equal. lia.
Qed.

Lemma ones_cons b m : ones (b :: m) = (ones [b] + ones m)%nat.
Proof.
  unfold ones, bits. cbn [fmap list_fmap concat]. by rewrite app_nil_r, filter_app, length_app.
Qed.

Lemma ones_zero l : ones (replicate l 0) = 0%nat.
Proof. induction l as [|l IH]; [done|]. cbn [replicate]. by rewrite ones_cons, IH. Qed.

Lemma ones_CIDRMask (k l : nat) : (k <= 8 * l)%nat -> ones (CIDRMask (Z.of_nat k) l) = k.
Proof.
  revert k. induction l as [|l IH]; intros k Hk; cbn [CIDRMask].
  { destruct k; [done|lia]. }
  destruct (Z.leb_spec 8 (Z.of_nat k)); rewrite ones_cons.
  - replace (Z.of_nat k - 8) with (Z.of_nat (k - 8)) by lia. rewrite IH by lia.
    change (ones [255]) with 8%nat. lia.
  - rewrite ones_zero. do 8 (destruct k as [|k]; [by vm_compute|]). lia.
Qed.

Lemma length_mask_and x m : length x = length m -> length (mask_and x m) = length x.
Proof. intros H. unfold mask_and. rewrite length_zip_with. lia. Qed.

Lemma Contains_mask (a ip : IP) (k : nat) :
  (k <= 8 * length a)%nat ->
  let m := CIDRMask (Z.of_nat k) (length a) in
  IPNet_Contains (MkIPNet (mask_and a m) m) ip = true <-> covers (MkIPNet (mask_and a m) m) ip.
Proof.
  intros Hk m. unfold IPNet_Contains, covers. cbn [net_IP net_Mask].
  change (default ip (To4 ip)) with (canonical ip).
  change (default (mask_and a m) (To4 (mask_and a m))) with (canonical (mask_and a m)).
  subst m. rewrite ones_CIDRMask, length_CIDRMask by done.
  assert (length (mask_and a (CIDRMask (Z.of_nat k) (length a))) = length a) as Hl.
  { apply length_mask_and. by rewrite length_CIDRMask. }
  rewrite Hl. revert Hl. generalize (mask_and a (CIDRMask (Z.of_nat k) (length a))). intros b Hl.
  assert ((canonical b = b) \/ (length a = 16%nat /\ length (canonical b) = 4%nat)) as [Hb|[H16 H4]].
  { unfold canonical, To4. destruct (Nat.eqb_spec (length b) 4); [by left|].
    destruct (Nat.eqb_spec (length b) 16); cbn [andb]; [|by left].
    destruct (bool_decide _); cbn [default]; [|by left]. right. split; [lia|]. change (length (drop 12 b) = 4%nat). rewrite length_drop. lia. }
  - rewrite Hb, Hl. destruct ((length a =? 16)%nat && (length a =? 4)%nat) eqn:E.
    { bsimpl. lia. }
    rewrite andb_true_iff, Nat.eqb_eq, bool_decide_eq_true.
    replace (k - 8 * (length a - length a))%nat with k by lia.
    split; intros [H1 H2]; (split; [done|]); rewrite <- Hl in *.
    + symmetry. apply mask_and_bits; [lia..|done].
    + apply mask_and_bits; [lia..|done].
  - rewrite H16, H4. cbn [Nat.eqb andb].
    pose proof (drop_CIDRMask 12 4 k) as Hd. change (12 + 4)%nat with 16%nat in Hd. rewrite Hd.
    change (16 - 4)%nat with 12%nat.
    rewrite andb_true_iff, Nat.eqb_eq, bool_decide_eq_true.
    assert (k - 8 * 12 <= 8 * length (canonical b))%nat by lia.
    rewrite <- H4. split; intros [H1 H2]; (split; [done|]).
    + symmetry. apply mask_and_bits; [lia..|done].
    + apply mask_and_bits; [lia..|done].
Qed.

Lemma Contains_covers (e : gostring) (n : IPNet) (ip : IP) :
  ParseCIDR e = Some n -> IPNet_Contains n ip = true <-> covers n ip.
Proof.
  unfold ParseCIDR. destruct (IndexByte e "/"%char); [|done].
  destruct (ParseAddr _) as [a|]; [|done]. destruct (dtoi _) as [k|]; [|done].
  destruct (Z.ltb_spec k 0); [done|]. destruct (Z.ltb_spec (Z.of_nat (length a) * 8) k); [done|].
  cbn [orb]. intros [= <-]. rewrite <- (Z2Nat.id k) by lia. apply Contains_mask. lia.
Qed.

(** ** The decision *)

Lemma add_entries ns ss entries :
  foldl add_entry (ns, ss) entries =
    (ns ++ omap ParseCIDR entries,
     ss ++ omap (fun e => match ParseCIDR e with Some _ => None | None => ParseIP e end) entries).
Proof.
  revert ns ss. induction entries as [|e es IH]; intros ns ss; cbn [foldl].
  { by rewrite !app_nil_r. }
  unfold add_entry at 2. rewrite !omap_cons_eq. cbn [fst snd]. destruct (ParseCIDR e); [|destruct (ParseIP e)];
    rewrite IH; by rewrite <- ?app_assoc.
Qed.

Definition unparseable (e : gostring) : Prop := ParseCIDR e = None /\ ParseIP e = None.

(** What an entry of the list allows. *)
Definition entry_allows (e : gostring) (ip : IP) : Prop :=
  match ParseCIDR e with
  | Some n => covers n ip
  | None => ParseIP e = Some ip
  end.

(** A client is allowed exactly when no entry of the list in force (the one
    of the last update) can be parsed, or its address parses and some entry is
    a CIDR block whose prefix bits it has, or the same address: an empty list
    is open, and so is a list of nothing but malformed entries. *)
Theorem acl_allows_spec (updates : list (list gostring)) (entries : list gostring) (client : gostring) :
  let acl := foldl (fun a es => Update es a) (NewClientACL entries) updates in
  let list := List.last updates entries in
  (IsAllowed client acl = true <->
     Forall unparseable list \/ exists ip, ParseIP client = Some ip /\ Exists (fun e => entry_allows e ip) list) /\
  (IsOpen acl = true <-> Forall unparseable list).
Proof.
  intros acl es.
  assert (acl = NewClientACL es) as ->.
  { subst acl es. revert entries. induction updates as [|u us IH]; intros entries; [done|].
    cbn [foldl]. unfold Update at 2. rewrite IH. f_equal. symmetry. apply last_default. }
  assert (NewClientACL es = let ns := omap ParseCIDR es in
    let ss := omap (fun e => match ParseCIDR e with Some _ => None | None => ParseIP e end) es in
    MkACL ns ss (is_nil ns && is_nil ss)) as ->.
  { unfold NewClientACL. destruct es; [done|]. by rewrite add_entries. }
  cbn zeta. set (ns := omap ParseCIDR es). set (ss := omap _ es).
  assert (is_nil ns && is_nil ss = true <-> Forall unparseable es) as Hopen.
  { subst ns ss. clear. induction es as [|e es IH]; [split; done|].
    rewrite !omap_cons_eq, Forall_cons, <- IH. unfold unparseable. destruct (ParseCIDR e), (ParseIP e);
      cbn [is_nil andb]; rewrite ?andb_false_r; intuition congruence. }
  split; [|exact Hopen]. unfold IsAllowed. cbn [acl_empty nets singles].
  destruct (is_nil ns && is_nil ss); [split; [by left; apply Hopen|done]|].
  assert (~ Forall unparseable es) as Hno by (intros H; apply Hopen in H; done).
  destruct (ParseIP client) as [ip|] eqn:Eip; [|split; [done|naive_solver]].
  assert (existsb (fun n => IPNet_Contains n ip) ns || existsb (fun s => IP_Equal s ip) ss = true <->
    Exists (fun e => entry_allows e ip) es) as ->; [|naive_solver].
  subst ns ss. clear -Eip. apply ParseIP_length in Eip.
  induction es as [|e es IH].
  { split; [done|]. by intros ?%Exists_nil. }
  rewrite !omap_cons_eq, Exists_cons, <- IH. unfold entry_allows. destruct (ParseCIDR e) as [n|] eqn:En.
  - cbn [existsb]. rewrite <- (Contains_covers e n ip En), !orb_true_iff. tauto.
  - destruct (ParseIP e) as [a|] eqn:Ea; [|naive_solver].
    cbn [existsb]. unfold IP_Equal. rewrite (ParseIP_length _ _ Ea), Eip. cbn [Nat.eqb].
    rewrite !orb_true_iff, bool_decide_eq_true. naive_solver.
Qed.
