(* ===== verification/Response.v ===== *)
(** * Building and describing responses (pkg/dns/edns.go, response.go, trace.go,
    metrics.go)

    EDNS0 negotiation, extended DNS errors, the address records of overrides,
    the decision-trace recorder and the trace entries of a blocklist match.
    The recorder's pooled slice is a value: [Entries] and [Append] copy. *)

From Stdlib Require Import Ascii.
From S2P Require Import Prelude GoStrings GoNet DnsMsg CacheCore Pattern FlatBlocklist BlocklistSource.
From S2P Require Import BlocklistManager.
From stdpp Require Import options.
Local Open Scope Z_scope.

(** ** EDNS0 *)

Definition DefaultEDNSBufferSize : Z := 4096.
Definition MaxEDNSBufferSize : Z := 4096.
Definition MinEDNSBufferSize : Z := 512.

Record EDNSInfo := MkEDNSInfo { Present : bool; Version : Z; BufferSize : Z; DO : bool }.

Definition negotiateBufferSize (requested : Z) : Z :=
  if requested =? 0 then DefaultEDNSBufferSize
  else if requested <? MinEDNSBufferSize then MinEDNSBufferSize
  else if MaxEDNSBufferSize <? requested then MaxEDNSBufferSize
  else requested.

Section edns.
Context {DL : DnsLib}.

Definition GetEDNSInfo (req : Msg) : EDNSInfo :=
  match IsEdns0 req with
  | Some opt => MkEDNSInfo true (opt_Version opt) (opt_UDPSize opt) (opt_Do opt)
  | None => MkEDNSInfo false 0 0 false
  end.

(** The OPT record [SetEDNS0] appends; its class is the payload size, bit 15 of its
    TTL the DO bit. *)
Definition new_opt (size : Z) (do : bool) : RR :=
  RR_OPT (MkHdr [dot] TypeOPT size (if do then 32768 else 0)) (MkOPT size 0 do []).

Definition SetEDNS0 (resp : Msg) (reqInfo : EDNSInfo) : Msg :=
  if negb (Present reqInfo) then resp
  else
    let bufferSize := negotiateBufferSize (BufferSize reqInfo) in
    match IsEdns0 resp with
    | Some _ => resp
    | None => with_Extra (Extra resp ++ [new_opt bufferSize (DO reqInfo)]) resp
    end.

Definition HandleEDNS0 (req resp : Msg) : Msg := SetEDNS0 resp (GetEDNSInfo req).

Fixpoint find_ede (os : list EDNS0) : option (Z * gostring) :=
  match os with
  | [] => None
  | EDNS0_EDE c t :: _ => Some (c, t)
  | EDNS0_other _ _ :: os' => find_ede os'
  end.

Definition ExtractEDE (resp : Msg) : option (Z * gostring) :=
  match IsEdns0 resp with
  | None => None
  | Some opt => find_ede (opt_Option opt)
  end.

End edns.

Definition EDE_names : list string :=
  ["Other"; "Unsupported DNSKEY Algorithm"; "Unsupported DS Digest Type"; "Stale Answer"; "Forged Answer";
   "DNSSEC Indeterminate"; "DNSSEC Bogus"; "Signature Expired"; "Signature Not Yet Valid"; "DNSKEY Missing";
   "RRSIGs Missing"; "No Zone Key Bit Set"; "NSEC Missing"; "Cached Error"; "Not Ready"; "Blocked"; "Censored";
   "Filtered"; "Prohibited"; "Stale NXDOMAIN Answer"; "Not Authoritative"; "Not Supported";
   "No Reachable Authority"; "Network Error"; "Invalid Data"]%string.

(** [code] is a [uint16]. *)
Definition EDECodeToString (code : Z) : gostring :=
  str (default "Unknown"%string (EDE_names !! Z.to_nat code)).

(** ** Records of overrides *)

Definition addARecord (msg : Msg) (domain : gostring) (ip : IP) (ttl : Z) : Msg :=
  match To4 ip with
  | None => msg
  | Some a => append_Answer (RR_A (MkHdr domain TypeA ClassINET ttl) a) msg
  end.

Definition addAAAARecord (msg : Msg) (domain : gostring) (ip : IP) (ttl : Z) : Msg :=
  match To16 ip, To4 ip with
  | Some a, None => append_Answer (RR_AAAA (MkHdr domain TypeAAAA ClassINET ttl) a) msg
  | _, _ => msg
  end.

Definition addCNAMERecord (msg : Msg) (domain target : gostring) (ttl : Z) : Msg :=
  append_Answer (RR_CNAME (MkHdr domain TypeCNAME ClassINET ttl) target) msg.

(** ** The trace recorder *)

Definition traceStagePolicy := str "policy".
Definition traceStageBlocklist := str "blocklist".
Definition traceStageCache := str "cache".

Record blockTraceRecorder := MkRecorder { rec_enabled : bool; rec_entries : list BlockTraceEntry }.

Definition newBlockTraceRecorder (enabled : bool) : blockTraceRecorder := MkRecorder enabled [].

Definition Record_ (stage action : gostring) (mutate : BlockTraceEntry -> BlockTraceEntry)
    (r : blockTraceRecorder) : blockTraceRecorder :=
  if negb (rec_enabled r) then r
  else MkRecorder true (rec_entries r ++ [mutate (MkTrace stage action [] [] [] ∅)]).

Definition Entries_ (r : blockTraceRecorder) : list BlockTraceEntry :=
  if negb (rec_enabled r) then [] else rec_entries r.

Definition Append (es : list BlockTraceEntry) (r : blockTraceRecorder) : blockTraceRecorder :=
  if negb (rec_enabled r) then r else MkRecorder true (rec_entries r ++ es).

(** The fields the callbacks of [Record] set. *)
Definition trace_fields (rule source detail : gostring) (meta : gmap gostring gostring) (e : BlockTraceEntry)
    : BlockTraceEntry :=
  MkTrace (Stage e) (CacheCore.Action e) rule source detail meta.

(** ** Describing a blocklist match *)

Definition titleCase (value : gostring) : gostring :=
  match value with
  | [] => []
  | [c] => ToUpper [c]
  | c :: rest => ToUpper [c] ++ ToLower rest
  end.

Definition blocklistTraceSource (match_ : MatchResult) : gostring :=
  match Sources match_ with
  | s :: _ => s
  | [] => Kind match_
  end.

Definition nonempty (s : gostring) : bool := negb (bytes_eqb s []).

Definition describeBlockMatch (match_ : MatchResult) : gostring :=
  if negb (Blocked match_) then []
  else
    let kind := titleCase (Kind match_) in
    if nonempty (MatchedPattern match_) && nonempty kind
    then str "Matched " ++ ToLower kind ++ str " pattern " ++ MatchedPattern match_
    else if nonempty (MatchedPattern match_) then str "Matched pattern " ++ MatchedPattern match_
    else if nonempty kind then str "Matched " ++ ToLower kind ++ str " entry"
    else match Sources match_ with
         | s :: _ => str "Blocked by " ++ s
         | [] => []
         end.

(** The metadata map; the empty one is [nil]. *)
Definition applyBlockMatchMetadata (meta : gmap gostring gostring) (match_ : MatchResult)
    : gmap gostring gostring :=
  if negb (Blocked match_) then meta
  else
    let meta := if bool_decide (Sources match_ = []) then meta
                else <[str "lists" := Join (Sources match_) (str ", ")]> meta in
    let meta := if nonempty (Kind match_) then <[str "match_kind" := titleCase (Kind match_)]> meta else meta in
    if nonempty (MatchedPattern match_) then <[str "pattern" := MatchedPattern match_]> meta else meta.

(** ** Metrics *)

Record blockMetadata := MkBlockMetadata {
  bm_reason : gostring; bm_qtypeLabel : gostring; bm_stage : gostring; bm_rule : gostring; bm_source : gostring
}.

(** A counter increment with its attributes. *)
Inductive MetricEvent :=
| DNSBlockedQueries (attrs : list (gostring * gostring))
| DNSForwardedQueries (attrs : list (gostring * gostring)).

Definition attributes (kvs : list (gostring * gostring)) : list (gostring * gostring) :=
  List.filter (fun kv => nonempty kv.2) kvs.

Definition recordBlockedQuery (meta : blockMetadata) : MetricEvent :=
  DNSBlockedQueries (attributes [(str "reason", bm_reason meta); (str "type", bm_qtypeLabel meta);
    (str "stage", bm_stage meta); (str "rule", bm_rule meta); (str "source", bm_source meta)]).

Definition recordForwardedQuery (path qtypeLabel upstream : gostring) : MetricEvent :=
  DNSForwardedQueries (attributes [(str "path", path); (str "type", qtypeLabel); (str "upstream", upstream)]).

(** ** EDNS0 facts *)

Section edns_facts.
Context {DL : DnsLib} {DLok : DnsLibOk DL}.

Lemma negotiate_range n : MinEDNSBufferSize <= negotiateBufferSize n <= MaxEDNSBufferSize.
Proof.
  unfold negotiateBufferSize, DefaultEDNSBufferSize, MaxEDNSBufferSize, MinEDNSBufferSize.
  repeat case_test; bsimpl; lia.
Qed.

Lemma HandleEDNS0_fields req resp :
  let m := HandleEDNS0 req resp in
  Id m = Id resp /\ Rcode m = Rcode resp /\ Answer m = Answer resp /\ Msg_Question m = Msg_Question resp /\
  Truncated m = Truncated resp.
Proof using Type. unfold HandleEDNS0, SetEDNS0. repeat case_test; done. Qed.

(** A response gets an OPT record exactly when the request has one and the
    response has not; the record then carries the request's DO bit and a size
    within the limits. *)
Lemma HandleEDNS0_opt req resp :
  (exists o, IsEdns0 req = Some o /\ IsEdns0 resp = None /\
     Extra (HandleEDNS0 req resp) =
       Extra resp ++ [new_opt (negotiateBufferSize (opt_UDPSize o)) (opt_Do o)]) \/
  ((IsEdns0 req = None \/ is_Some (IsEdns0 resp)) /\ HandleEDNS0 req resp = resp).
Proof using Type.
  unfold HandleEDNS0, SetEDNS0, GetEDNSInfo. destruct (IsEdns0 req) as [o|] eqn:E; cbn.
  - destruct (IsEdns0 resp) eqn:E2; [right|left]; eauto.
  - right. auto.
Qed.

End edns_facts.
