(* ===== verification/Handler.v ===== *)
(** * The DNS handler (pkg/dns/handler*.go)

    [ServeDNS] and everything it calls, over the models of the components it
    combines: local records, the policy engine, the blocklist manager, a cache
    (any implementation of the interface [CacheImpl]), the forwarder and its
    network ([World]), the kill switches (any [KillSwitchChecker]) and the
    dnstap reply buffer.

    The handler's state [H] holds the dependencies (the code's [handlerDeps],
    with the state of the objects it points to), the network and the clock, the
    messages handed to the response writer, the decision trace and the outcome
    of the request being served, and the metrics and log entries emitted.  A
    computation is [M A]: it returns, or panics ([None]).  Setters of the
    dependencies do not run during a request.  The logger's lines are not
    modelled; [asyncLogQuery] hands its entry to the query logger or to the
    legacy channel. *)

From Stdlib Require Import Ascii.
From S2P Require Import Prelude GoStrings GoNet DnsMsg Pattern FlatBlocklist BlocklistSource BlocklistManager.
From S2P Require Import CacheCore CircuitBreaker Forwarder LocalRecords Policy KillSwitch ReplyBuffer Response.
From stdpp Require Import options.
Local Open Scope Z_scope.

(** ** Answers from the local records (handler_local_records.go) *)

Section local_answers.
Context (lr : LocalRecords.Manager).

Definition append_A (domain : gostring) (ttl : Z) (msg : Msg) (ip : IP) : Msg :=
  match To4 ip with
  | None => msg
  | Some a => append_Answer (RR_A (MkHdr domain TypeA ClassINET ttl) a) msg
  end.

(** [ip.To16()] is nil for a slice of another length. *)
Definition append_AAAA (domain : gostring) (ttl : Z) (msg : Msg) (ip : IP) : Msg :=
  match To4 ip with
  | Some _ => msg
  | None => append_Answer (RR_AAAA (MkHdr domain TypeAAAA ClassINET ttl) (default [] (To16 ip))) msg
  end.

Definition has_answers (msg : Msg) : bool := negb (bool_decide (length (Answer msg) = 0%nat)).

Definition appendLocalARecords (domain : gostring) (msg : Msg) : bool * Msg :=
  match LookupA domain lr with
  | (_, _, false) => (false, msg)
  | (ips, ttl, true) => let msg := foldl (append_A domain ttl) msg ips in (has_answers msg, msg)
  end.

Definition resolveLocalCNAMEAsA (domain : gostring) (msg : Msg) : bool * Msg :=
  match ResolveCNAME domain 10 lr with
  | None => (false, msg)
  | Some (ips, ttl) => let msg := foldl (append_A domain ttl) msg ips in (has_answers msg, msg)
  end.

Definition appendLocalAAAARecords (domain : gostring) (msg : Msg) : bool * Msg :=
  match LookupAAAA domain lr with
  | (_, _, false) => (false, msg)
  | (ips, ttl, true) => let msg := foldl (append_AAAA domain ttl) msg ips in (has_answers msg, msg)
  end.

Definition resolveLocalCNAMEAsAAAA (domain : gostring) (msg : Msg) : bool * Msg :=
  match ResolveCNAME domain 10 lr with
  | None => (false, msg)
  | Some (ips, ttl) => let msg := foldl (append_AAAA domain ttl) msg ips in (has_answers msg, msg)
  end.

(** The loop over the records of one type. *)
Definition append_records (mk : LocalRecord -> RR) (recs : list LocalRecord) (msg : Msg) : bool * Msg :=
  match recs with
  | [] => (false, msg)
  | _ => (true, foldl (fun m rec => append_Answer (mk rec) m) msg recs)
  end.

Definition or_else (a : bool * Msg) (f : Msg -> bool * Msg) : bool * Msg :=
  if a.1 then a else f a.2.

(** The [switch] of [serveFromLocalRecords]: whether it answers, and the
    message it has built. *)
Definition local_answer (domain : gostring) (qtype : Z) (msg : Msg) : bool * Msg :=
  let hdr t ttl := MkHdr domain t ClassINET ttl in
  if qtype =? TypeA then or_else (appendLocalARecords domain msg) (resolveLocalCNAMEAsA domain)
  else if qtype =? TypeAAAA then or_else (appendLocalAAAARecords domain msg) (resolveLocalCNAMEAsAAAA domain)
  else if qtype =? TypeCNAME then
    match LookupCNAME domain lr with
    | Some (target, ttl) => (true, append_Answer (RR_CNAME (hdr TypeCNAME ttl) target) msg)
    | None => (false, msg)
    end
  else if qtype =? TypeTXT then
    append_records (fun rec => RR_TXT (hdr TypeTXT (TTL rec)) (TxtRecords rec)) (LookupTXT domain lr) msg
  else if qtype =? TypeMX then
    append_records (fun rec => RR_MX (hdr TypeMX (TTL rec)) (Priority rec) (Target rec)) (LookupMX domain lr) msg
  else if qtype =? TypePTR then
    append_records (fun rec => RR_PTR (hdr TypePTR (TTL rec)) (Target rec)) (LookupPTR domain lr) msg
  else if qtype =? TypeSRV then
    append_records (fun rec => RR_SRV (hdr TypeSRV (TTL rec)) (Priority rec) (Weight rec) (Port rec) (Target rec))
      (LookupSRV domain lr) msg
  else if qtype =? TypeNS then
    append_records (fun rec => RR_NS (hdr TypeNS (TTL rec)) (Target rec)) (LookupNS domain lr) msg
  else if qtype =? TypeSOA then
    match LookupSOA domain lr with
    | rec :: _ =>
        (true, append_Answer (RR_SOA (hdr TypeSOA (TTL rec)) (Ns rec) (Mbox rec) (Serial rec) (Refresh rec)
                                (Retry rec) (Expire rec) (Minttl rec)) msg)
    | [] => (false, msg)
    end
  else if qtype =? TypeCAA then
    append_records (fun rec => RR_CAA (hdr TypeCAA (TTL rec)) (CaaFlag rec) (CaaTag rec) (CaaValue rec))
      (LookupCAA domain lr) msg
  else (false, msg).

End local_answers.

(** ** The handler's data *)

(** The interface of the kill switches. *)
Class KillSwitchChecker (K : Type) := {
  ks_IsBlocklistDisabled : Z -> K -> bool * Z;
  ks_IsPoliciesDisabled : Z -> K -> bool * Z
}.

#[global] Instance KillSwitchManager_checker : KillSwitchChecker KillSwitchManager := {|
  ks_IsBlocklistDisabled := IsBlocklistDisabled;
  ks_IsPoliciesDisabled := IsPoliciesDisabled
|}.

Record serveDNSOutcome := MkOutcome {
  o_blocked : bool;
  o_cached : bool;
  o_dnssecValidated : bool;
  o_upstream : gostring;
  o_upstreamError : gostring;
  o_responseCode : Z;
  o_upstreamDuration : Z;
  o_unbound : option (bool * Z * Z)       (** cached, duration, response size *)
}.

(** [getOutcome]: the pooled object zeroed. *)
Definition getOutcome : serveDNSOutcome := MkOutcome false false false [] [] 0 0 None.

Definition set_blocked (b : bool) (o : serveDNSOutcome) : serveDNSOutcome :=
  MkOutcome b (o_cached o) (o_dnssecValidated o) (o_upstream o) (o_upstreamError o) (o_responseCode o)
    (o_upstreamDuration o) (o_unbound o).
Definition set_responseCode (c : Z) (o : serveDNSOutcome) : serveDNSOutcome :=
  MkOutcome (o_blocked o) (o_cached o) (o_dnssecValidated o) (o_upstream o) (o_upstreamError o) c
    (o_upstreamDuration o) (o_unbound o).
Definition set_cached (c : bool) (o : serveDNSOutcome) : serveDNSOutcome :=
  MkOutcome (o_blocked o) c (o_dnssecValidated o) (o_upstream o) (o_upstreamError o) (o_responseCode o)
    (o_upstreamDuration o) (o_unbound o).
Definition set_dnssec (b : bool) (o : serveDNSOutcome) : serveDNSOutcome :=
  MkOutcome (o_blocked o) (o_cached o) b (o_upstream o) (o_upstreamError o) (o_responseCode o)
    (o_upstreamDuration o) (o_unbound o).
Definition set_upstream (u : gostring) (o : serveDNSOutcome) : serveDNSOutcome :=
  MkOutcome (o_blocked o) (o_cached o) (o_dnssecValidated o) u (o_upstreamError o) (o_responseCode o)
    (o_upstreamDuration o) (o_unbound o).
Definition set_upstreamError (e : gostring) (o : serveDNSOutcome) : serveDNSOutcome :=
  MkOutcome (o_blocked o) (o_cached o) (o_dnssecValidated o) (o_upstream o) e (o_responseCode o)
    (o_upstreamDuration o) (o_unbound o).
Definition set_upstreamDuration (d : Z) (o : serveDNSOutcome) : serveDNSOutcome :=
  MkOutcome (o_blocked o) (o_cached o) (o_dnssecValidated o) (o_upstream o) (o_upstreamError o)
    (o_responseCode o) d (o_unbound o).
Definition set_unbound (m : ReplyMatch) (o : serveDNSOutcome) : serveDNSOutcome :=
  MkOutcome (o_blocked o) (o_cached o) (o_dnssecValidated o) (o_upstream o) (o_upstreamError o)
    (o_responseCode o) (o_upstreamDuration o)
    (Some (ReplyBuffer.CachedInUnbound m, DurationMs m, ResponseSize m)).

(** The entry of the query log; the durations are in nanoseconds. *)
Record QueryLog := MkQueryLog {
  ql_Timestamp : Z; ql_ClientIP : gostring; ql_Domain : gostring; ql_QueryType : gostring;
  ql_outcome : serveDNSOutcome; ql_ResponseTime : Z; ql_BlockTrace : list BlockTraceEntry
}.

(** Where an entry goes. *)
Inductive LogSink := ToQueryLogger | ToLegacyChannel.

(** What the handler asks of a [dns.ResponseWriter] besides [WriteMsg]: the
    network of the local address and the text of the remote one. *)
Record Writer := MkWriter { LocalNetwork : option gostring; RemoteAddr : option gostring }.

Definition isUDP (w : Writer) : bool :=
  match LocalNetwork w with Some n => bytes_eqb n (str "udp") | None => false end.

Definition getClientIP (w : Writer) : gostring :=
  match RemoteAddr w with
  | Some a => match SplitHostPort a with Ok (host, _) => host | Err _ => a end
  | None => str "unknown"
  end.

Section handler.
Context {DL : DnsLib} {RX : RegexpLib} {EL : ExprLib}.
Context {W : Type} {WW : World W}.
Context {C : Type} {CI : CacheImpl C}.
Context {K : Type} {KS : KillSwitchChecker K}.

(** The orders in which map iterations run, the breakdown of a time in the
    local zone, and the client groups behind the policy helpers. *)
Context (ord : MapOrder) (wall : Z -> WallClock) (groups : GroupCache).

Definition dnsTypeLabel (qtype : Z) : gostring :=
  let label := TypeToString qtype in
  if nonempty label then label else str "TYPE" ++ qtype_digits 5 qtype [].

Record handlerDeps := MkDeps {
  d_storage : bool;
  d_queryLogger : bool;
  d_blocklistManager : option BlocklistManager.Manager;
  d_localRecords : option LocalRecords.Manager;
  d_policyEngine : option Engine;
  d_fwd : option Forwarder;
  d_cache : option C;
  d_configWatcher : option (bool * bool);   (** EnablePolicies, EnableBlocklist *)
  d_killSwitch : option K;
  d_decisionTrace : bool;
  d_blockPageIP : gostring;
  d_unboundBuffer : option ReplyBuffer;
  d_metrics : bool
}.

Definition zero_deps : handlerDeps :=
  MkDeps false false None None None None None None None false [] None false.

Record H := MkH {
  deps : handlerDeps;
  Blocklist_ : option (gset gostring);       (** the legacy map *)
  h_world : W;
  h_sent : list Exchange;
  written : list Msg;
  h_trace : blockTraceRecorder;
  h_outcome : serveDNSOutcome;
  h_events : list MetricEvent;
  h_logs : list (LogSink * QueryLog)
}.

Definition NewHandler (w : W) : H :=
  MkH zero_deps (Some ∅) w [] [] (newBlockTraceRecorder false) getOutcome [] [].

(** *** State updates *)

Definition set_deps (d : handlerDeps) (h : H) : H :=
  MkH d (Blocklist_ h) (h_world h) (h_sent h) (written h) (h_trace h) (h_outcome h) (h_events h) (h_logs h).
Definition set_net (f : Forwarder) (w : W) (xs : list Exchange) (h : H) : H :=
  let d := deps h in
  MkH (MkDeps (d_storage d) (d_queryLogger d) (d_blocklistManager d) (d_localRecords d) (d_policyEngine d)
         (Some f) (d_cache d) (d_configWatcher d) (d_killSwitch d) (d_decisionTrace d) (d_blockPageIP d)
         (d_unboundBuffer d) (d_metrics d))
    (Blocklist_ h) w xs (written h) (h_trace h) (h_outcome h) (h_events h) (h_logs h).
Definition set_cache (c : C) (h : H) : H :=
  let d := deps h in
  set_deps (MkDeps (d_storage d) (d_queryLogger d) (d_blocklistManager d) (d_localRecords d) (d_policyEngine d)
              (d_fwd d) (Some c) (d_configWatcher d) (d_killSwitch d) (d_decisionTrace d) (d_blockPageIP d)
              (d_unboundBuffer d) (d_metrics d)) h.
Definition set_world (w : W) (h : H) : H :=
  MkH (deps h) (Blocklist_ h) w (h_sent h) (written h) (h_trace h) (h_outcome h) (h_events h) (h_logs h).
Definition set_written (ms : list Msg) (h : H) : H :=
  MkH (deps h) (Blocklist_ h) (h_world h) (h_sent h) ms (h_trace h) (h_outcome h) (h_events h) (h_logs h).
Definition set_trace (t : blockTraceRecorder) (h : H) : H :=
  MkH (deps h) (Blocklist_ h) (h_world h) (h_sent h) (written h) t (h_outcome h) (h_events h) (h_logs h).
Definition set_outcome (o : serveDNSOutcome) (h : H) : H :=
  MkH (deps h) (Blocklist_ h) (h_world h) (h_sent h) (written h) (h_trace h) o (h_events h) (h_logs h).
Definition add_event (e : MetricEvent) (h : H) : H :=
  MkH (deps h) (Blocklist_ h) (h_world h) (h_sent h) (written h) (h_trace h) (h_outcome h)
    (h_events h ++ [e]) (h_logs h).
Definition add_log (l : LogSink * QueryLog) (h : H) : H :=
  MkH (deps h) (Blocklist_ h) (h_world h) (h_sent h) (written h) (h_trace h) (h_outcome h) (h_events h)
    (h_logs h ++ [l]).

(** *** The setters: clone, change one field, swap *)

Definition SetForwarder (f : option Forwarder) (h : H) : H :=
  let '(MkDeps st ql bm lr pe _ c cw ks dt bp ub mt) := deps h in
  set_deps (MkDeps st ql bm lr pe f c cw ks dt bp ub mt) h.
Definition SetCache (c : option C) (h : H) : H :=
  let '(MkDeps st ql bm lr pe f _ cw ks dt bp ub mt) := deps h in
  set_deps (MkDeps st ql bm lr pe f c cw ks dt bp ub mt) h.
Definition SetBlocklistManager (bm : option BlocklistManager.Manager) (h : H) : H :=
  let '(MkDeps st ql _ lr pe f c cw ks dt bp ub mt) := deps h in
  set_deps (MkDeps st ql bm lr pe f c cw ks dt bp ub mt) h.
Definition SetStorage (st : bool) (h : H) : H :=
  let '(MkDeps _ ql bm lr pe f c cw ks dt bp ub mt) := deps h in
  set_deps (MkDeps st ql bm lr pe f c cw ks dt bp ub mt) h.
Definition SetQueryLogger (ql : bool) (h : H) : H :=
  let '(MkDeps st _ bm lr pe f c cw ks dt bp ub mt) := deps h in
  set_deps (MkDeps st ql bm lr pe f c cw ks dt bp ub mt) h.
Definition SetLocalRecords (lr : option LocalRecords.Manager) (h : H) : H :=
  let '(MkDeps st ql bm _ pe f c cw ks dt bp ub mt) := deps h in
  set_deps (MkDeps st ql bm lr pe f c cw ks dt bp ub mt) h.
Definition SetPolicyEngine (pe : option Engine) (h : H) : H :=
  let '(MkDeps st ql bm lr _ f c cw ks dt bp ub mt) := deps h in
  set_deps (MkDeps st ql bm lr pe f c cw ks dt bp ub mt) h.
Definition SetMetrics (mt : bool) (h : H) : H :=
  let '(MkDeps st ql bm lr pe f c cw ks dt bp ub _) := deps h in
  set_deps (MkDeps st ql bm lr pe f c cw ks dt bp ub mt) h.
Definition SetKillSwitch (ks : option K) (h : H) : H :=
  let '(MkDeps st ql bm lr pe f c cw _ dt bp ub mt) := deps h in
  set_deps (MkDeps st ql bm lr pe f c cw ks dt bp ub mt) h.
Definition SetDecisionTrace (dt : bool) (h : H) : H :=
  let '(MkDeps st ql bm lr pe f c cw ks _ bp ub mt) := deps h in
  set_deps (MkDeps st ql bm lr pe f c cw ks dt bp ub mt) h.
Definition SetConfigWatcher (cw : option (bool * bool)) (h : H) : H :=
  let '(MkDeps st ql bm lr pe f c _ ks dt bp ub mt) := deps h in
  set_deps (MkDeps st ql bm lr pe f c cw ks dt bp ub mt) h.
Definition SetBlockPageIP (bp : gostring) (h : H) : H :=
  let '(MkDeps st ql bm lr pe f c cw ks dt _ ub mt) := deps h in
  set_deps (MkDeps st ql bm lr pe f c cw ks dt bp ub mt) h.
Definition SetUnboundReplyBuffer (ub : option ReplyBuffer) (h : H) : H :=
  let '(MkDeps st ql bm lr pe f c cw ks dt bp _ mt) := deps h in
  set_deps (MkDeps st ql bm lr pe f c cw ks dt bp ub mt) h.

(** *** Computations *)

Definition M (A : Type) : Type := H -> option (A * H).
#[global] Instance M_ret : MRet M := fun A a h => Some (a, h).
#[global] Instance M_bind : MBind M := fun A B f m h =>
  match m h with Some (a, h') => f a h' | None => None end.

Definition get : M H := fun h => Some (h, h).
Definition modify (f : H -> H) : M () := fun h => Some ((), f h).
Definition panic {A} : M A := fun _ => None.

Definition time_Now : M Z := fun h => let '(t, w) := w_now (h_world h) in Some (t, set_world w h).
Definition outcome_ (f : serveDNSOutcome -> serveDNSOutcome) : M () :=
  modify (fun h => set_outcome (f (h_outcome h)) h).
Definition trace_ (f : blockTraceRecorder -> blockTraceRecorder) : M () :=
  modify (fun h => set_trace (f (h_trace h)) h).

(** The counters, when there are metrics. *)
Definition metric (e : MetricEvent) : M () := modify (fun h => if d_metrics (deps h) then add_event e h else h).

(** *** Writing a response (handler.go) *)

(** The message [writeMsg] hands to the writer. *)
Definition fit (w : Writer) (msg : Msg) : Msg :=
  if isUDP w then
    let maxSize := match IsEdns0 msg with Some opt => opt_UDPSize opt | None => 512 end in
    if maxSize <? Msg_Len msg then with_Answer [] (with_Truncated true msg) else msg
  else msg.

Definition writeMsg (w : Writer) (msg : Msg) : M () :=
  modify (fun h => set_written (written h ++ [fit w msg]) h).

Definition enrichFromUnbound (r : Msg) : M () :=
  h ← get;
  match d_unboundBuffer (deps h), Msg_Question r with
  | Some buf, q :: _ =>
      now ← time_Now;
      match FindReply now (q_Name q) (TypeToString (q_Qtype q)) 500000000 buf with
      | None => panic
      | Some None => mret ()
      | Some (Some m) => outcome_ (set_unbound m)
      end
  | _, _ => mret ()
  end.

Definition cache_Set (r resp : Msg) : M () :=
  h ← get;
  match d_cache (deps h) with
  | None => mret ()
  | Some _ => now ← time_Now;
      modify (fun h => match d_cache (deps h) with Some c => set_cache (c_Set ord now r resp c) h | None => h end)
  end.

Definition cache_SetBlocked (r msg : Msg) : M () :=
  h ← get;
  match d_cache (deps h) with
  | None => mret ()
  | Some _ => now ← time_Now;
      modify (fun h => match d_cache (deps h) with
                       | Some c => set_cache (c_SetBlocked ord now r msg (Entries_ (h_trace h)) c) h
                       | None => h
                       end)
  end.

(** *** Answering a failure *)

(** [outcome.responseCode = code; msg.SetRcode(r, code); h.writeMsg(w, msg)]. *)
Definition fail_with (code : Z) (w : Writer) (r msg : Msg) : M () :=
  outcome_ (set_responseCode code);; writeMsg w (SetRcode msg r code).

(** *** The block page *)

(** The answer to a blocked query and its response code: the block page's
    address for an address query when one is configured, NXDOMAIN otherwise. *)
Definition block_answer (blockPageIP : gostring) (r : Msg) (domain : gostring) (qtype : Z) (msg : Msg) : Z * Msg :=
  if nonempty blockPageIP then
    match ParseIP blockPageIP with
    | Some blockIP =>
        if (qtype =? TypeA) || (qtype =? TypeAAAA) then
          (RcodeSuccess,
           if (qtype =? TypeA) && bool_decide (is_Some (To4 blockIP)) then addARecord msg domain blockIP 60
           else if (qtype =? TypeAAAA) && bool_decide (To4 blockIP = None) then addAAAARecord msg domain blockIP 60
           else msg)
        else (RcodeNameError, SetRcode msg r RcodeNameError)
    | None => (RcodeNameError, SetRcode msg r RcodeNameError)
    end
  else (RcodeNameError, SetRcode msg r RcodeNameError).

(** *** Upstream answers *)

(** A call of the forwarder [f] that is in place. *)
Definition call_forwarder (f : Forwarder) (call : Run W -> result ForwardError Msg * Run W)
    : M (result ForwardError Msg) :=
  fun h =>
    let '(res, s) := call (MkRun f (h_world h) (h_sent h)) in
    match res with
    | Err PanicNoQuestion => None
    | _ => Some (res, set_net (fw s) (world s) (sent s) h)
    end.

Definition ede_text (resp : Msg) : option gostring :=
  match ExtractEDE resp with
  | None => None
  | Some (code, text) =>
      Some (if nonempty text then EDECodeToString code ++ str ": " ++ text else EDECodeToString code)
  end.

(** What the three forwarding paths do with an answer: the bookkeeping, the
    store in the cache and the response. *)
Definition serve_answer (used : list gostring) (path : gostring) (w : Writer) (r resp : Msg) (qtypeLabel : gostring)
    : M () :=
  (match used with u :: _ => outcome_ (set_upstream u) | [] => mret () end);;
  h ← get;
  metric (recordForwardedQuery path qtypeLabel (o_upstream (h_outcome h)));;
  outcome_ (set_dnssec (AuthenticatedData resp));;
  (match ede_text resp with Some t => outcome_ (set_upstreamError t) | None => mret () end);;
  enrichFromUnbound r;;
  cache_Set r resp;;
  outcome_ (set_responseCode (Rcode resp));;
  writeMsg w resp.

(** The call itself, timed, and SERVFAIL on an error; [used] are the upstreams
    the path reports. *)
Definition forward_and_serve (f : Forwarder) (call : Run W -> result ForwardError Msg * Run W)
    (used : list gostring) (path : gostring) (w : Writer) (r msg : Msg) (qtypeLabel : gostring) : M () :=
  forwardStart ← time_Now;
  res ← call_forwarder f call;
  end_ ← time_Now;
  outcome_ (set_upstreamDuration (end_ - forwardStart));;
  match res with
  | Err _ => fail_with RcodeServerFailure w r msg
  | Ok resp => serve_answer used path w r resp qtypeLabel
  end.

Definition forwardToUpstream (w : Writer) (r msg : Msg) (qtypeLabel : gostring) : M bool :=
  h ← get;
  match d_fwd (deps h) with
  | None => mret false
  | Some f =>
      forward_and_serve f (Forward r) (upstreams f) (str "default_forward") w r msg qtypeLabel;;
      mret true
  end.

(** *** Policies (handler_policy.go) *)

Definition policy_trace (rule : Policy.Rule) (suffix : gostring) (meta : gmap gostring gostring) : M () :=
  trace_ (Record_ traceStagePolicy (Policy.Action rule)
    (trace_fields (Name rule) (str "policy_engine") (str "policy rule matched: " ++ Logic rule ++ suffix) meta)).

Definition question_type (r : Msg) : Z := match Msg_Question r with q :: _ => q_Qtype q | [] => 0 end.

Definition handlePolicyBlock (w : Writer) (r msg : Msg) (rule : Policy.Rule) (domain qtypeLabel : gostring) : M bool :=
  outcome_ (set_blocked true);;
  h ← get;
  let (code, msg) := block_answer (d_blockPageIP (deps h)) r domain (question_type r) msg in
  outcome_ (set_responseCode code);;
  policy_trace rule [] ∅;;
  metric (recordBlockedQuery (MkBlockMetadata (str "policy_block") qtypeLabel traceStagePolicy (Name rule)
    (str "policy_engine")));;
  writeMsg w msg;;
  mret true.

Definition handlePolicyAllow (w : Writer) (r msg : Msg) (rule : Policy.Rule) (qtypeLabel : gostring) : M bool :=
  policy_trace rule (str " (bypassing blocklist)") {[str "bypasses_blocklist" := str "true"]};;
  h ← get;
  match d_fwd (deps h) with
  | None => fail_with RcodeNameError w r msg;; mret true
  | Some f =>
      forward_and_serve f (Forward r) (upstreams f) (str "policy_allow") w r msg qtypeLabel;;
      mret true
  end.

(** The [switch] of [handlePolicyRedirect]: the record of the address family
    asked for, or none. *)
Definition redirect_answer (targetIP : IP) (domain : gostring) (qtype : Z) (msg : Msg) : Msg :=
  if (qtype =? TypeA) && bool_decide (is_Some (To4 targetIP)) then addARecord msg domain targetIP 300
  else if (qtype =? TypeAAAA) && bool_decide (To4 targetIP = None) then addAAAARecord msg domain targetIP 300
  else msg.

Definition handlePolicyRedirect (w : Writer) (r msg : Msg) (rule : Policy.Rule) (domain : gostring) (qtype : Z)
    (qtypeLabel : gostring) : M bool :=
  match ParseIP (ActionData rule) with
  | None => fail_with RcodeNameError w r msg;; mret true
  | Some targetIP =>
      policy_trace rule []
        (<[str "target" := ActionData rule]> {[str "query_type" := qtypeLabel]});;
      outcome_ (set_responseCode RcodeSuccess);;
      writeMsg w (redirect_answer targetIP domain qtype msg);;
      mret true
  end.

Definition handlePolicyForward (w : Writer) (r msg : Msg) (rule : Policy.Rule) (qtypeLabel : gostring) : M bool :=
  let ups := GetUpstreams rule in
  h ← get;
  match ups, d_fwd (deps h) with
  | _ :: _, Some f =>
      policy_trace rule (str " (custom upstream)") {[str "upstreams" := ActionData rule]};;
      forward_and_serve f (ForwardWithUpstreams r ups) ups (str "conditional_rule") w r msg qtypeLabel;;
      mret true
  | _, _ => fail_with RcodeServerFailure w r msg;; mret true
  end.

Definition handlePolicies (w : Writer) (r msg : Msg) (domain clientIP : gostring) (qtype : Z) (qtypeLabel : gostring)
    : M bool :=
  now ← time_Now;
  h ← get;
  let policyCtx := NewContext (TrimSuffix domain [dot]) clientIP qtypeLabel (wall now) in
  match d_policyEngine (deps h) with
  | None => panic
  | Some pe =>
      match Evaluate groups policyCtx pe with
      | None => mret false
      | Some rule =>
          if bytes_eqb (Policy.Action rule) ActionBlock then handlePolicyBlock w r msg rule domain qtypeLabel
          else if bytes_eqb (Policy.Action rule) ActionAllow then handlePolicyAllow w r msg rule qtypeLabel
          else if bytes_eqb (Policy.Action rule) ActionRedirect
          then handlePolicyRedirect w r msg rule domain qtype qtypeLabel
          else if bytes_eqb (Policy.Action rule) ActionForward then handlePolicyForward w r msg rule qtypeLabel
          else mret false
      end
  end.

(** *** Blocklist (handler_blocklist.go) *)

Definition handleBlockedDomain (w : Writer) (r msg : Msg) (qtypeLabel : gostring) (m : MatchResult) : M bool :=
  outcome_ (set_blocked true);;
  h ← get;
  let (code, msg) :=
    match Msg_Question r with
    | q :: _ => block_answer (d_blockPageIP (deps h)) r (q_Name q) (q_Qtype q) msg
    | [] => (RcodeNameError, SetRcode msg r RcodeNameError)
    end in
  outcome_ (set_responseCode code);;
  let sourceLabel := if nonempty (blocklistTraceSource m) then blocklistTraceSource m else str "blocklist" in
  trace_ (Record_ traceStageBlocklist (str "block")
    (trace_fields [] sourceLabel (describeBlockMatch m) (applyBlockMatchMetadata ∅ m)));;
  metric (recordBlockedQuery (MkBlockMetadata (str "blocklist_manager") qtypeLabel traceStageBlocklist [] sourceLabel));;
  cache_SetBlocked r msg;;
  writeMsg w msg;;
  mret true.

Definition handleFastBlocklistPath (w : Writer) (r msg : Msg) (domain : gostring) (qtypeLabel : gostring)
    (bm : BlocklistManager.Manager) : M bool :=
  let blockMatch := Match bm domain in
  if Blocked blockMatch then handleBlockedDomain w r msg qtypeLabel blockMatch else mret false.

Definition handleLegacyBlocklistPath (w : Writer) (r msg : Msg) (domain : gostring) (qtype : Z) (qtypeLabel : gostring)
    : M bool :=
  h ← get;
  match Blocklist_ h with
  | None => mret false
  | Some bl =>
      if bool_decide (domain ∈ bl) then
        trace_ (Record_ traceStageBlocklist (str "block")
          (trace_fields [] (str "legacy") (str "Matched legacy blocklist entry") ∅));;
        metric (recordBlockedQuery (MkBlockMetadata (str "blocklist_legacy") qtypeLabel traceStageBlocklist []
          (str "legacy")));;
        outcome_ (set_blocked true);;
        let (code, msg) := block_answer (d_blockPageIP (deps h)) r domain qtype msg in
        outcome_ (set_responseCode code);;
        cache_SetBlocked r msg;;
        writeMsg w msg;;
        mret true
      else mret false
  end.

Definition handleBlocklistAndOverrides (w : Writer) (r msg : Msg) (domain : gostring) (qtype : Z)
    (qtypeLabel : gostring) : M bool :=
  h ← get;
  match d_blocklistManager (deps h) with
  | Some bm => handleFastBlocklistPath w r msg domain qtypeLabel bm
  | None => handleLegacyBlocklistPath w r msg domain qtype qtypeLabel
  end.

(** *** The request (handler.go) *)

Definition serveFromLocalRecords (w : Writer) (msg : Msg) (domain : gostring) (qtype : Z) : M (bool * Msg) :=
  h ← get;
  match d_localRecords (deps h) with
  | None => mret (false, msg)
  | Some lr =>
      match local_answer lr domain qtype msg with
      | (true, msg) => outcome_ (set_responseCode RcodeSuccess);; writeMsg w msg;; mret (true, msg)
      | (false, msg) => mret (false, msg)
      end
  end.

Definition cache_get_at (now : Z) (r : Msg) : M (option (Msg * list BlockTraceEntry)) := fun h =>
  match d_cache (deps h) with
  | Some c => let '(c', res) := c_GetWithTrace now r c in Some (res, set_cache c' h)
  | None => Some (None, h)
  end.

Definition cache_Get (r : Msg) : M (option (Msg * list BlockTraceEntry)) :=
  h ← get;
  match d_cache (deps h) with
  | None => mret None
  | Some _ => now ← time_Now; cache_get_at now r
  end.

Definition serveFromCache (w : Writer) (r : Msg) : M bool :=
  hit ← cache_Get r;
  match hit with
  | None => mret false
  | Some (cachedResp, cachedTrace) =>
      let cachedResp := HandleEDNS0 r (with_Id (Id r) cachedResp) in
      outcome_ (set_cached true);;
      outcome_ (set_responseCode (Rcode cachedResp));;
      outcome_ (set_dnssec (AuthenticatedData cachedResp));;
      trace_ (Append cachedTrace);;
      trace_ (Record_ traceStageCache (str "upstream_hit")
        (trace_fields [] (str "response_cache") (str "cached upstream response") ∅));;
      writeMsg w cachedResp;;
      mret true
  end.

Definition resolveFeatureToggles (d : handlerDeps) : bool * bool :=
  match d_configWatcher d with None => (true, true) | Some cfg => cfg end.

(** The toggles after the kill switches; the clock is read twice. *)
Definition effectiveToggles : M (bool * bool) :=
  h ← get;
  let (enablePolicies, enableBlocklist) := resolveFeatureToggles (deps h) in
  match d_killSwitch (deps h) with
  | None => mret (enablePolicies, enableBlocklist)
  | Some ks =>
      now1 ← time_Now;
      now2 ← time_Now;
      mret (if (ks_IsPoliciesDisabled now2 ks).1 then false else enablePolicies,
            if (ks_IsBlocklistDisabled now1 ks).1 then false else enableBlocklist)
  end.

Definition asyncLogQuery (startTime : Z) (r : Msg) (clientIP : gostring) : M () :=
  h ← get;
  if negb (d_queryLogger (deps h)) && negb (d_storage (deps h)) then mret ()
  else
    end_ ← time_Now;
    let (domain, queryType) :=
      match Msg_Question r with
      | q :: _ => (TrimSuffix (q_Name q) [dot], dnsTypeLabel (q_Qtype q))
      | [] => ([], [])
      end in
    let log := MkQueryLog startTime clientIP domain queryType (h_outcome h) (end_ - startTime) (Entries_ (h_trace h)) in
    modify (add_log (if d_queryLogger (deps h) then ToQueryLogger else ToLegacyChannel, log)).

(** The reply the request starts from. *)
Definition initial_reply (r : Msg) : Msg :=
  HandleEDNS0 r (with_RecursionAvailable true (with_Authoritative true (SetReply zero_Msg r))).

(** The stages after the local records. *)
Definition serve_stages (w : Writer) (r msg : Msg) (clientIP domain : gostring) (qtype : Z) : M () :=
  let qtypeLabel := dnsTypeLabel qtype in
  toggles ← effectiveToggles;
  let (enablePolicies, enableBlocklist) := (toggles : bool * bool) in
  h ← get;
  let usePolicies :=
    enablePolicies && match d_policyEngine (deps h) with Some pe => 0 <? Policy.Count pe | None => false end in
  done ← (if usePolicies then handlePolicies w r msg domain clientIP qtype qtypeLabel else (mret false : M bool));
  if (done : bool) then mret ()
  else
    done ← (if enableBlocklist then handleBlocklistAndOverrides w r msg domain qtype qtypeLabel else (mret false : M bool));
    if (done : bool) then mret ()
    else
      done ← serveFromCache w r;
      if (done : bool) then mret ()
      else
        done ← forwardToUpstream w r msg qtypeLabel;
        if (done : bool) then mret ()
        else fail_with RcodeNameError w r msg.

Definition serve_body (w : Writer) (r : Msg) (clientIP : gostring) : M () :=
  let msg := initial_reply r in
  match Msg_Question r with
  | [] => fail_with RcodeFormatError w r msg
  | question :: _ =>
      let domain := q_Name question in
      let qtype := q_Qtype question in
      res ← serveFromLocalRecords w msg domain qtype;
      let (done, msg) := (res : bool * Msg) in
      if done then mret () else serve_stages w r msg clientIP domain qtype
  end.

Definition ServeDNS (w : Writer) (r : Msg) : M () :=
  startTime ← time_Now;
  h ← get;
  outcome_ (fun _ => getOutcome);;
  trace_ (fun _ => newBlockTraceRecorder (d_decisionTrace (deps h)));;
  let clientIP := getClientIP w in
  serve_body w r clientIP;;
  asyncLogQuery startTime r clientIP.

End handler.

Arguments handlerDeps {_ _} C K.
Arguments H {_ _} W C K.
