(* ===== verification/HandlerProps.v ===== *)
(** * Theorems about the DNS handler

    What [ServeDNS] does with a request, for every cache implementation, every
    network and every clock: exactly one response, chosen by a fixed order of
    precedence, with traffic only where the order allows it, and a query log
    that agrees with the response. *)

From Stdlib Require Import Ascii.
From S2P Require Import Prelude Cache.
From S2P Require Import GoStrings GoNet DnsMsg Pattern FlatBlocklist BlocklistSource BlocklistManager.
From S2P Require Import CacheCore CircuitBreaker Forwarder LocalRecords Policy KillSwitch ReplyBuffer Response Handler.
From stdpp Require Import options.
Local Open Scope Z_scope.

(** ** Local answers *)

Lemma foldl_append_none {A} (f : Msg -> A -> Msg) l msg :
  (forall m x, f m x = m \/ exists rr, f m x = append_Answer rr m) ->
  length (Answer (foldl f msg l)) = 0%nat -> foldl f msg l = msg.
Proof.
  intros Hf.
  assert (forall l m, (length (Answer m) <= length (Answer (foldl f m l)))%nat) as Hle.
  { clear l. induction l as [|x l IH]; intros m; cbn [foldl]; [done|]. specialize (IH (f m x)).
    destruct (Hf m x) as [E|[rr E]]; rewrite E in *; [exact IH|].
    cbn in IH. rewrite length_app in IH. cbn in IH. lia. }
  revert msg. induction l as [|x l IH]; intros msg H; cbn [foldl] in *; [done|].
  destruct (Hf msg x) as [E|[rr E]]; rewrite E in *; [by apply IH|].
  pose proof (Hle l (append_Answer rr msg)). cbn in *. rewrite length_app in *. cbn in *. lia.
Qed.

(** A stage that does not answer leaves the message alone. *)
Lemma local_answer_false lr domain qtype msg msg' :
  local_answer lr domain qtype msg = (false, msg') -> msg' = msg.
Proof.
  assert (forall d ttl l m, has_answers (foldl (append_A d ttl) m l) = false -> foldl (append_A d ttl) m l = m) as HA.
  { intros d ttl l m Hn. apply foldl_append_none.
    - intros m0 x. unfold append_A. destruct (To4 x); eauto.
    - unfold has_answers in Hn. bsimpl. done. }
  assert (forall d ttl l m, has_answers (foldl (append_AAAA d ttl) m l) = false ->
    foldl (append_AAAA d ttl) m l = m) as H6.
  { intros d ttl l m Hn. apply foldl_append_none.
    - intros m0 x. unfold append_AAAA. destruct (To4 x); eauto.
    - unfold has_answers in Hn. bsimpl. done. }
  assert (forall a f, (forall m, a = (false, m) -> m = msg) -> (forall m, f msg = (false, m) -> m = msg) ->
    or_else a f = (false, msg') -> msg' = msg) as Hor.
  { intros [[] m] f Ha Hf E; cbn in E; [done|]. rewrite (Ha m eq_refl) in E. auto. }
  assert (forall mk recs, append_records mk recs msg = (false, msg') -> msg' = msg) as Hrec.
  { intros mk [|r recs]; cbn; congruence. }
  unfold local_answer. repeat case_match; try apply Hrec; try congruence; apply Hor.
  - intros m. unfold appendLocalARecords. destruct (LookupA domain lr) as [[ips ttl] []]; intros E; simplify_eq; auto.
  - intros m. unfold resolveLocalCNAMEAsA. destruct (ResolveCNAME domain 10 lr) as [[ips ttl]|]; intros E; simplify_eq; auto.
  - intros m. unfold appendLocalAAAARecords. destruct (LookupAAAA domain lr) as [[ips ttl] []]; intros E; simplify_eq; auto.
  - intros m. unfold resolveLocalCNAMEAsAAAA. destruct (ResolveCNAME domain 10 lr) as [[ips ttl]|]; intros E; simplify_eq; auto.
Qed.

(** ** Weakest preconditions of handler computations *)

Section props.
Context {DL : DnsLib} {RX : RegexpLib} {EL : ExprLib}.
Context {W : Type} {WW : World W}.
Context {C : Type} {CI : CacheImpl C}.
Context {K : Type} {KS : KillSwitchChecker K}.
Context (ord : MapOrder) (wall : Z -> WallClock) (groups : GroupCache).

Notation St := (H W C K).

(** [m] returns from [h], with a result and a state that satisfy [Q]. *)
Definition wp {A} (m : M A) (h : St) (Q : A -> St -> Prop) : Prop :=
  match m h with Some (a, h') => Q a h' | None => False end.

Lemma wp_bind {A B} (m : M A) (f : A -> M B) h Q :
  wp m h (fun a h' => wp (f a) h' Q) -> wp (m ≫= f) h Q.
Proof. unfold wp, mbind, M_bind. by destruct (m h) as [[a h']|]. Qed.

Lemma wp_ret {A} (a : A) h (Q : A -> St -> Prop) : Q a h -> wp (mret a) h Q.
Proof. done. Qed.

Lemma wp_get h (Q : St -> St -> Prop) : Q h h -> wp get h Q.
Proof. done. Qed.

Lemma wp_modify f h (Q : () -> St -> Prop) : Q () (f h) -> wp (modify f) h Q.
Proof. done. Qed.

Lemma wp_mono {A} (m : M A) h (P Q : A -> St -> Prop) :
  (forall a h', P a h' -> Q a h') -> wp m h P -> wp m h Q.
Proof. unfold wp. destruct (m h) as [[a h']|]; auto. Qed.

(** A time the clock can show. *)
Definition reading (t : Z) : Prop := exists wd : W, t = (w_now wd).1.

Lemma wp_now h (Q : Z -> St -> Prop) : (forall t w, reading t -> Q t (set_world w h)) -> wp time_Now h Q.
Proof.
  intros HQ. unfold wp, time_Now. destruct (w_now (h_world h)) as [t w] eqn:E. apply HQ.
  exists (h_world h). by rewrite E.
Qed.

Lemma now_reading (h : St) : reading (w_now (h_world h)).1.
Proof. by eexists. Qed.

(** ** What a step may change *)

(** The dependencies without the state of the forwarder and the cache. *)
Definition static (d : handlerDeps C K) : handlerDeps C K :=
  MkDeps (d_storage d) (d_queryLogger d) (d_blocklistManager d) (d_localRecords d) (d_policyEngine d)
    None None (d_configWatcher d) (d_killSwitch d) (d_decisionTrace d) (d_blockPageIP d) (d_unboundBuffer d)
    (d_metrics d).

(** Nothing but the forwarder, the cache, the network, the responses and the
    request's trace and outcome (and metrics). *)
Record evolves (h h' : St) : Prop := {
  ev_static : static (deps h') = static (deps h);
  ev_legacy : Blocklist_ h' = Blocklist_ h;
  ev_logs : h_logs h' = h_logs h
}.

(** No response, no traffic and no verdict. *)
Record calm (h h' : St) : Prop := {
  calm_evolves : evolves h h';
  calm_written : written h' = written h;
  calm_sent : h_sent h' = h_sent h;
  calm_fwd : d_fwd (deps h') = d_fwd (deps h);
  calm_blocked : o_blocked (h_outcome h') = o_blocked (h_outcome h)
}.

#[local] Instance evolves_preorder : PreOrder evolves.
Proof. split; [done|]. intros h1 h2 h3 [] []. split; congruence. Qed.

#[local] Instance calm_preorder : PreOrder calm.
Proof. split; [by split|]. intros h1 h2 h3 [] []. split; [by etrans|congruence..]. Qed.

Lemma static_fields (d d' : handlerDeps C K) :
  static d' = static d ->
  d_storage d' = d_storage d /\ d_queryLogger d' = d_queryLogger d /\
  d_blocklistManager d' = d_blocklistManager d /\ d_localRecords d' = d_localRecords d /\
  d_policyEngine d' = d_policyEngine d /\ d_configWatcher d' = d_configWatcher d /\
  d_killSwitch d' = d_killSwitch d /\ d_blockPageIP d' = d_blockPageIP d /\
  d_unboundBuffer d' = d_unboundBuffer d.
Proof. intros E. inversion E. by split_and!. Qed.

(** A response [m] was written, and the outcome carries its code; [b] tells
    whether this step marks the query as blocked. *)
Record responded (w : Writer) (b : bool) (m : Msg) (h h' : St) : Prop := {
  re_evolves : evolves h h';
  re_written : written h' = written h ++ [fit w m];
  re_code : o_responseCode (h_outcome h') = Rcode m;
  re_blocked : o_blocked (h_outcome h') = b || o_blocked (h_outcome h)
}.

Lemma calm_responded w b m h1 h2 h3 : calm h1 h2 -> responded w b m h2 h3 -> responded w b m h1 h3.
Proof. intros [? E ? ? ?] []. split; [by etrans|congruence|done|congruence]. Qed.

Lemma wp_fail code w r msg h (Q : () -> St -> Prop) :
  DnsLibOk DL ->
  (forall h', responded w false (SetRcode msg r code) h h' -> h_sent h' = h_sent h ->
     d_cache (deps h') = d_cache (deps h) -> h_outcome h' = set_responseCode code (h_outcome h) -> Q () h') ->
  wp (fail_with code w r msg) h Q.
Proof.
  intros Hok HQ. apply HQ; [|done..]. split; [done..| |done]. cbn. by rewrite SetRcode_Rcode.
Qed.

Lemma wp_metric e h (Q : () -> St -> Prop) :
  (forall h', calm h h' -> h_outcome h' = h_outcome h -> h_trace h' = h_trace h ->
     d_cache (deps h') = d_cache (deps h) -> Q () h') -> wp (metric e) h Q.
Proof. intros HQ. apply HQ; cbn; by destruct (d_metrics (deps h)). Qed.

Lemma wp_cache_Set r resp h (Q : () -> St -> Prop) :
  (forall h', calm h h' -> h_outcome h' = h_outcome h -> Q () h') -> wp (cache_Set ord r resp) h Q.
Proof.
  intros HQ. unfold cache_Set. apply wp_bind, wp_get. destruct (d_cache (deps h)) as [c|] eqn:E; [|by apply HQ].
  apply wp_bind, wp_now. intros t wd _. apply wp_modify. cbn. rewrite E. by apply HQ.
Qed.

(** The entry a blocked answer leaves in the cache. *)
Lemma wp_cache_SetBlocked r msg h (Q : () -> St -> Prop) :
  (forall h' t, reading t -> calm h h' -> h_outcome h' = h_outcome h ->
     d_cache (deps h') = c_SetBlocked ord t r msg (Entries_ (h_trace h)) <$> d_cache (deps h) -> Q () h') ->
  wp (cache_SetBlocked ord r msg) h Q.
Proof.
  intros HQ. unfold cache_SetBlocked. apply wp_bind, wp_get.
  destruct (d_cache (deps h)) as [c|] eqn:E; [|by apply (HQ h _ (now_reading h)); try rewrite E].
  apply wp_bind, wp_now. intros t wd Ht. apply wp_modify. cbn. rewrite E. by apply (HQ _ t).
Qed.

Definition buffer_ok (d : handlerDeps C K) : Prop :=
  forall b, d_unboundBuffer d = Some b -> exists n hist, holds n b hist.

Lemma buffer_ok_calm h h' : buffer_ok (deps h) -> calm h h' -> buffer_ok (deps h').
Proof.
  intros Hb [[Hst _ _] _ _ _ _]. apply static_fields in Hst as (_ & _ & _ & _ & _ & _ & _ & _ & Hub).
  unfold buffer_ok. by rewrite Hub.
Qed.

Definition no_traffic (h h' : St) : Prop := h_sent h' = h_sent h.

Lemma wp_enrich r h (Q : () -> St -> Prop) :
  buffer_ok (deps h) -> (forall h', calm h h' -> Q () h') -> wp (enrichFromUnbound r) h Q.
Proof.
  intros Hb HQ. unfold enrichFromUnbound. apply wp_bind, wp_get.
  destruct (d_unboundBuffer (deps h)) as [b|] eqn:E; [|by apply HQ].
  destruct (Msg_Question r) as [|q qs]; [by apply HQ|]. apply wp_bind, wp_now. intros t wd _.
  destruct (Hb b E) as (n & hist & Hh). rewrite (FindReply_spec n b hist) by done.
  destruct (spec_find _ _ _ _); by apply HQ.
Qed.

(** ** The forwarding paths *)

(** A call of the forwarder [f] that contacts only [ups] and answers with what
    it received. *)
Definition sound_call (f : Forwarder) (ups : list gostring) (call : Run W -> result ForwardError Msg * Run W) : Prop :=
  forall wd xs, let o := call (MkRun f wd xs) in
    o.1 <> Err PanicNoQuestion /\
    exists new, sent o.2 = xs ++ new /\ Forall (fun x => x_upstream x ∈ ups) new /\
      (forall m, o.1 = Ok m -> answered m new).

Lemma Forward_sound_call f r : Msg_Question r <> [] -> sound_call f (upstreams f) (Forward r).
Proof.
  intros Hq wd xs. split; [by apply Forward_no_panic|].
  destruct (Forward_call_sound r (MkRun f wd xs)) as (new & ? & _ & ? & ? & _). eauto.
Qed.

Lemma ForwardWithUpstreams_sound_call f r us :
  Msg_Question r <> [] -> sound_call f us (ForwardWithUpstreams r us).
Proof.
  intros Hq wd xs. split; [by apply ForwardWithUpstreams_no_panic|].
  pose proof (ForwardWithUpstreams_ok r us (MkRun f wd xs)) as Hf. cbv zeta in Hf.
  destruct (ForwardWithUpstreams r us (MkRun f wd xs)) as [res s']. destruct Hf as (new & Hp & Hm).
  exists new. split; [apply Hp|]. split; [|done]. eapply Forall_impl; [apply Hp|].
  cbn. intros x Hx. eapply elem_of_subseteq; [|exact Hx]. apply subseteq_take.
Qed.

(** [m] is an answer received from one of [ups], or SERVFAIL, and the only
    traffic is with [ups]. *)
Definition from_upstreams (ups : list gostring) (r : Msg) (h h' : St) (m : Msg) : Prop :=
  exists new, h_sent h' = h_sent h ++ new /\ Forall (fun x => x_upstream x ∈ ups) new /\
    (answered m new \/ m = SetRcode (initial_reply r) r RcodeServerFailure).

Context {DLok : DnsLibOk DL}.

Lemma wp_serve_answer used path w r resp label h :
  buffer_ok (deps h) ->
  wp (serve_answer ord used path w r resp label) h
    (fun _ h' => responded w false resp h h' /\ no_traffic h h').
Proof using Type.
  intros Hb. unfold serve_answer. apply wp_bind.
  apply (wp_mono _ _ (fun _ h1 => calm h h1)); [|by destruct used; [apply wp_ret|apply wp_modify]].
  intros _ h1 Hc1. apply wp_bind, wp_get, wp_bind, wp_metric. intros h2 Hc2 _ _ _.
  assert (calm h h2) as Hc by (by etrans). clear Hc1 Hc2. apply wp_bind, wp_modify, wp_bind.
  apply (wp_mono _ _ (fun _ h3 => calm h h3)).
  2: { destruct (ede_text resp); [apply wp_modify|apply wp_ret]; (split; [by split; apply Hc|apply Hc..]). }
  intros _ h3 Hc3. apply wp_bind, wp_enrich; [by eapply buffer_ok_calm|].
  intros h4 Hc4. apply wp_bind, wp_cache_Set. intros h5 Hc5 _. apply wp_bind, wp_modify, wp_modify.
  assert (calm h h5) as Hc' by (etrans; [exact Hc3|]; by etrans).
  split; [split; [by split; apply Hc'|cbn; by rewrite (calm_written _ _ Hc')|done|apply Hc']|].
  exact (calm_sent _ _ Hc').
Qed.

Lemma wp_forward f ups call used path w r label h :
  buffer_ok (deps h) -> sound_call f ups call ->
  wp (forward_and_serve ord f call used path w r (initial_reply r) label) h
    (fun _ h' => exists m, responded w false m h h' /\ from_upstreams ups r h h' m).
Proof using DLok.
  intros Hb Hcall. unfold forward_and_serve. apply wp_bind, wp_now. intros t0 w0 _. apply wp_bind.
  unfold wp at 1, call_forwarder. cbn [h_world h_sent set_world].
  destruct (Hcall w0 (h_sent h)) as (Hnp & new & Hs & Hu & Hm).
  destruct (call (MkRun f w0 (h_sent h))) as [res s]. cbn [fst snd] in *.
  set (h1 := set_net (fw s) (world s) (sent s) (set_world w0 h)).
  assert (forall m h2 h', calm h1 h2 -> responded w false m h2 h' -> responded w false m h h') as Hre.
  { intros m h2 h' Hc Hr. destruct (calm_responded _ _ _ _ _ _ Hc Hr) as [[] ? ? ?]. by split; [split|..]. }
  assert (buffer_ok (deps h1)) as Hb1 by done. assert (h_sent h1 = h_sent h ++ new) as Hs1 by done. clearbody h1.
  destruct res as [resp|e].
  - apply wp_bind, wp_now. intros t1 w1 _. apply wp_bind, wp_modify.
    eapply wp_mono; [|by apply wp_serve_answer]. intros _ h' [Hr Hn]. exists resp.
    split; [by eapply Hre; [|exact Hr]|]. exists new. split; [by rewrite Hn|]. split; [done|]. left. by apply Hm.
  - assert (e <> PanicNoQuestion) as He by congruence.
    assert (wp (end_ ← time_Now; outcome_ (set_upstreamDuration (end_ - t0));;
      fail_with RcodeServerFailure w r (initial_reply r)) h1
      (fun _ h' => exists m, responded w false m h h' /\ from_upstreams ups r h h' m)) as Hwp;
      [|destruct e; [exact Hwp..|done]].
    apply wp_bind, wp_now. intros t1 w1 _. apply wp_bind, wp_modify, wp_fail; [done|]. intros h' Hr Hs' _ _. eexists.
    split; [by eapply Hre; [|exact Hr]|]. exists new. split; [by rewrite Hs'|]. split; [done|by right].
Qed.

(** ** The stages and their order *)

Inductive Stage :=
| StFormErr
| StLocal (m : Msg)
| StRule (rule : Policy.Rule)
| StListed
| StPass.

Definition policies_on (d : handlerDeps C K) (t : Z) : bool :=
  (resolveFeatureToggles d).1 &&
  match d_killSwitch d with Some ks => negb (ks_IsPoliciesDisabled t ks).1 | None => true end.

Definition blocklist_on (d : handlerDeps C K) (t : Z) : bool :=
  (resolveFeatureToggles d).2 &&
  match d_killSwitch d with Some ks => negb (ks_IsBlocklistDisabled t ks).1 | None => true end.

Definition known_action (rule : Policy.Rule) : bool :=
  bytes_eqb (Policy.Action rule) ActionBlock || bytes_eqb (Policy.Action rule) ActionAllow ||
  bytes_eqb (Policy.Action rule) ActionRedirect || bytes_eqb (Policy.Action rule) ActionForward.

(** The rule in force for a question asked at the time [t]. *)
Definition matching_rule (d : handlerDeps C K) (q : Question) (client : gostring) (t : Z) : option Policy.Rule :=
  match d_policyEngine d with
  | Some pe =>
      if 0 <? Policy.Count pe then
        match Evaluate groups (NewContext (TrimSuffix (q_Name q) [dot]) client (dnsTypeLabel (q_Qtype q)) (wall t)) pe with
        | Some rule => if known_action rule then Some rule else None
        | None => None
        end
      else None
  | None => None
  end.

Definition is_listed (d : handlerDeps C K) (legacy : option (gset gostring)) (domain : gostring) : bool :=
  match d_blocklistManager d with
  | Some bm => Blocked (Match bm domain)
  | None => match legacy with Some bl => bool_decide (domain ∈ bl) | None => false end
  end.

(** Local records, then policies, then the blocklist, then the rest; [tB] and
    [tP] are the times at which the two switches are read and [tE] the one at
    which the policies are evaluated. *)
Definition stage (d : handlerDeps C K) (legacy : option (gset gostring)) (r : Msg) (client : gostring) (tB tP tE : Z)
    : Stage :=
  match Msg_Question r with
  | [] => StFormErr
  | q :: _ =>
      match (match d_localRecords d with
             | Some lr => local_answer lr (q_Name q) (q_Qtype q) (initial_reply r)
             | None => (false, initial_reply r)
             end) with
      | (true, m) => StLocal m
      | (false, _) =>
          match (if policies_on d tP then matching_rule d q client tE else None) with
          | Some rule => StRule rule
          | None => if blocklist_on d tB && is_listed d legacy (q_Name q) then StListed else StPass
          end
      end
  end.

(** The block answer for the question of [r]. *)
Definition blocked_reply (d : handlerDeps C K) (r : Msg) (q : Question) : Msg :=
  (block_answer (d_blockPageIP d) r (q_Name q) (q_Qtype q) (initial_reply r)).2.

(** What a matched rule does. *)
Definition rule_served (rule : Policy.Rule) (r : Msg) (q : Question) (h h' : St) (m : Msg) : Prop :=
  let reply := initial_reply r in
  if bytes_eqb (Policy.Action rule) ActionBlock then
    m = blocked_reply (deps h) r q /\ no_traffic h h' /\ d_cache (deps h') = d_cache (deps h)
  else if bytes_eqb (Policy.Action rule) ActionAllow then
    match d_fwd (deps h) with
    | None => m = SetRcode reply r RcodeNameError /\ no_traffic h h'
    | Some f => from_upstreams (upstreams f) r h h' m
    end
  else if bytes_eqb (Policy.Action rule) ActionRedirect then
    m = match ParseIP (ActionData rule) with
        | None => SetRcode reply r RcodeNameError
        | Some ip => redirect_answer ip (q_Name q) (q_Qtype q) reply
        end /\ no_traffic h h' /\ d_cache (deps h') = d_cache (deps h)
  else
    match GetUpstreams rule, d_fwd (deps h) with
    | u :: us, Some f => from_upstreams (u :: us) r h h' m
    | _, _ => m = SetRcode reply r RcodeServerFailure /\ no_traffic h h'
    end.

Lemma initial_reply_fields r :
  Id (initial_reply r) = Id r /\ Answer (initial_reply r) = [] /\ Rcode (initial_reply r) = RcodeSuccess.
Proof using DLok.
  unfold initial_reply. pose proof (HandleEDNS0_fields r
    (with_RecursionAvailable true (with_Authoritative true (SetReply zero_Msg r)))) as (H1 & H2 & H3 & _).
  rewrite H1, H2, H3. cbn. by rewrite SetReply_Id, SetReply_Answer, SetReply_Rcode.
Qed.

Lemma block_answer_code bp r domain qtype :
  (block_answer bp r domain qtype (initial_reply r)).1 = Rcode (block_answer bp r domain qtype (initial_reply r)).2.
Proof using DLok.
  destruct (initial_reply_fields r) as (_ & _ & Hr).
  unfold block_answer, addARecord, addAAAARecord. repeat case_match; cbn; by rewrite ?SetRcode_Rcode, ?Hr.
Qed.

Lemma redirect_answer_code ip domain qtype r : Rcode (redirect_answer ip domain qtype (initial_reply r)) = RcodeSuccess.
Proof using DLok.
  destruct (initial_reply_fields r) as (_ & _ & Hr).
  unfold redirect_answer, addARecord, addAAAARecord. repeat case_match; cbn; by rewrite ?Hr.
Qed.

Lemma local_answer_code lr domain qtype msg b m : local_answer lr domain qtype msg = (b, m) -> Rcode m = Rcode msg.
Proof using Type.
  assert (forall A (f : Msg -> A -> Msg) l m0, (forall m x, Rcode (f m x) = Rcode m) ->
    Rcode (foldl f m0 l) = Rcode m0) as Hf.
  { intros A f l. induction l as [|x l IH]; intros m0 H; cbn; [done|]. by rewrite IH, H. }
  assert (forall d ttl l m0, Rcode (foldl (append_A d ttl) m0 l) = Rcode m0) as HA.
  { intros. apply Hf. intros m1 x. unfold append_A. by destruct (To4 x). }
  assert (forall d ttl l m0, Rcode (foldl (append_AAAA d ttl) m0 l) = Rcode m0) as H6.
  { intros. apply Hf. intros m1 x. unfold append_AAAA. by destruct (To4 x). }
  assert (forall mk recs b m, append_records mk recs msg = (b, m) -> Rcode m = Rcode msg) as Hrec.
  { intros mk [|x recs] b' m'; cbn [append_records]; intros [= _ <-]; [done|]. cbn [foldl]. by rewrite Hf. }
  assert (forall a f, Rcode a.2 = Rcode msg -> (forall m, Rcode m = Rcode msg -> Rcode (f m).2 = Rcode msg) ->
    or_else a f = (b, m) -> Rcode m = Rcode msg) as Hor.
  { intros [[] m1] f Ha Hff; cbn in *; [congruence|]. intros E. specialize (Hff m1 Ha). by rewrite E in Hff. }
  unfold local_answer. repeat case_match; try apply Hrec; try (intros; simplify_eq; done); apply Hor.
  - unfold appendLocalARecords. destruct (LookupA domain lr) as [[ips ttl] []]; cbn; rewrite ?HA; done.
  - intros m1 E1. unfold resolveLocalCNAMEAsA. destruct (ResolveCNAME domain 10 lr) as [[ips ttl]|]; cbn; by rewrite ?HA.
  - unfold appendLocalAAAARecords. destruct (LookupAAAA domain lr) as [[ips ttl] []]; cbn; rewrite ?H6; done.
  - intros m1 E1. unfold resolveLocalCNAMEAsAAAA. destruct (ResolveCNAME domain 10 lr) as [[ips ttl]|]; cbn; by rewrite ?H6.
Qed.

(** *** Policies *)

Definition is_block (rule : Policy.Rule) : bool := bytes_eqb (Policy.Action rule) ActionBlock.

(** The postcondition of the handlers of a matched rule. *)
Definition rule_post (w : Writer) (rule : Policy.Rule) (r : Msg) (q : Question) (h : St) (b : bool) (h' : St) : Prop :=
  b = true /\ exists m, responded w (is_block rule) m h h' /\ rule_served rule r q h h' m.

Lemma wp_policy_block w r q qs rule label h :
  Msg_Question r = q :: qs -> is_block rule = true ->
  wp (handlePolicyBlock w r (initial_reply r) rule (q_Name q) label) h (rule_post w rule r q h).
Proof using DLok.
  intros Hq Hb. unfold handlePolicyBlock. apply wp_bind, wp_modify, wp_bind, wp_get.
  unfold question_type. rewrite Hq. cbn [deps set_outcome].
  destruct (block_answer _ _ _ _ _) as [code m] eqn:E.
  pose proof (block_answer_code (d_blockPageIP (deps h)) r (q_Name q) (q_Qtype q)) as Hc. rewrite E in Hc. cbn in Hc.
  do 2 apply wp_bind, wp_modify. apply wp_bind, wp_metric. intros h2 Hc2 Ho2 _ Hca. apply wp_bind, wp_modify, wp_ret.
  split; [done|]. exists m. unfold rule_served, blocked_reply, is_block in *. rewrite Hb, E.
  split; [|split_and!; [done|exact (calm_sent _ _ Hc2)|exact Hca]].
  split; [by split; apply Hc2|cbn; by rewrite (calm_written _ _ Hc2)|cbn; by rewrite Ho2..].
Qed.

Lemma wp_policy_allow w r q qs rule label h :
  buffer_ok (deps h) -> Msg_Question r = q :: qs -> bytes_eqb (Policy.Action rule) ActionAllow = true ->
  wp (handlePolicyAllow ord w r (initial_reply r) rule label) h (rule_post w rule r q h).
Proof using DLok.
  intros Hbuf Hq Ha. unfold handlePolicyAllow. apply wp_bind, wp_modify, wp_bind, wp_get. cbn [deps set_trace].
  assert (is_block rule = false) as Hnb.
  { unfold is_block. apply bytes_eqb_eq in Ha. by rewrite Ha. }
  unfold rule_post, rule_served. rewrite Hnb. unfold is_block in Hnb. rewrite Hnb, Ha.
  set (h1 := set_trace _ h). assert (calm h h1) as Hc by done.
  assert (Hb1 : buffer_ok (deps h1)) by done. clearbody h1.
  destruct (d_fwd (deps h)) as [f|].
  - apply wp_bind. eapply wp_mono; [|apply (wp_forward f (upstreams f)); [done|by apply Forward_sound_call; rewrite Hq]].
    intros _ h2 (m & Hr & Hf). apply wp_ret. split; [done|]. exists m. split; [by eapply calm_responded|].
    unfold from_upstreams in *. by rewrite <- (calm_sent _ _ Hc).
  - apply wp_bind, wp_fail; [done|]. intros h2 Hr Hs _ _. apply wp_ret. split; [done|]. eexists.
    split; [by eapply calm_responded|]. split; [done|]. unfold no_traffic. by rewrite Hs, (calm_sent _ _ Hc).
Qed.

Lemma wp_policy_redirect w r q rule label h :
  bytes_eqb (Policy.Action rule) ActionRedirect = true ->
  wp (handlePolicyRedirect w r (initial_reply r) rule (q_Name q) (q_Qtype q) label) h (rule_post w rule r q h).
Proof using DLok.
  intros Ha. apply bytes_eqb_eq in Ha. unfold handlePolicyRedirect, rule_post, rule_served, is_block. rewrite Ha.
  change (bytes_eqb ActionRedirect ActionBlock) with false. change (bytes_eqb ActionRedirect ActionAllow) with false.
  change (bytes_eqb ActionRedirect ActionRedirect) with true. cbn iota.
  destruct (ParseIP (ActionData rule)) as [ip|].
  - unfold policy_trace. do 3 apply wp_bind, wp_modify. apply wp_ret. split; [done|]. eexists.
    split; [|by split_and!]. split; [by split|done| |done]. cbn. by rewrite redirect_answer_code.
  - apply wp_bind, wp_fail; [done|]. intros h2 Hr Hs Hc _. apply wp_ret. split; [done|]. eexists.
    split; [exact Hr|by split_and!].
Qed.

Lemma wp_policy_forward w r q qs rule label h :
  buffer_ok (deps h) -> Msg_Question r = q :: qs -> bytes_eqb (Policy.Action rule) ActionForward = true ->
  wp (handlePolicyForward ord w r (initial_reply r) rule label) h (rule_post w rule r q h).
Proof using DLok.
  intros Hbuf Hq Ha. apply bytes_eqb_eq in Ha. unfold handlePolicyForward, rule_post, rule_served, is_block. rewrite Ha.
  change (bytes_eqb ActionForward ActionBlock) with false. change (bytes_eqb ActionForward ActionAllow) with false.
  change (bytes_eqb ActionForward ActionRedirect) with false. cbn iota. apply wp_bind, wp_get.
  assert (wp (fail_with RcodeServerFailure w r (initial_reply r);; mret true) h (fun b h' =>
    b = true /\ exists m, responded w false m h h' /\
      m = SetRcode (initial_reply r) r RcodeServerFailure /\ no_traffic h h')) as Hfail.
  { apply wp_bind, wp_fail; [done|]. intros h2 Hr Hs _ _. apply wp_ret. split; [done|]. eexists.
    split; [exact Hr|by split]. }
  destruct (GetUpstreams rule) as [|u us] eqn:Eu; [exact Hfail|].
  destruct (d_fwd (deps h)) as [f|]; [|exact Hfail].
  apply wp_bind, wp_modify, wp_bind. set (h1 := set_trace _ h). assert (calm h h1) as Hc by done.
  eapply wp_mono; [|apply (wp_forward f (u :: us)); [done|by apply ForwardWithUpstreams_sound_call; rewrite Hq]].
  intros _ h2 (m & Hr & Hf). apply wp_ret. split; [done|]. exists m. split; [by eapply calm_responded|].
  unfold from_upstreams in *. by rewrite <- (calm_sent _ _ Hc).
Qed.

(** The policy stage answers exactly when there is a matching rule, and then as
    the rule says; otherwise nothing but the clock moves. *)
Lemma wp_policies w r q qs client h pe :
  buffer_ok (deps h) -> Msg_Question r = q :: qs -> d_policyEngine (deps h) = Some pe -> 0 < Policy.Count pe ->
  wp (handlePolicies ord wall groups w r (initial_reply r) (q_Name q) client (q_Qtype q) (dnsTypeLabel (q_Qtype q))) h
    (fun b h' => exists t, reading t /\
      match matching_rule (deps h) q client t with
      | Some rule => rule_post w rule r q h b h'
      | None => b = false /\ exists wd, h' = set_world wd h
      end).
Proof using DLok.
  intros Hbuf Hq Hpe Hn. unfold handlePolicies. apply wp_bind, wp_now. intros t wd Ht. apply wp_bind, wp_get.
  cbn [deps set_world]. rewrite Hpe. unfold matching_rule.
  assert (calm h (set_world wd h)) as Hc by done.
  assert (forall rule b h', rule_post w rule r q (set_world wd h) b h' -> rule_post w rule r q h b h') as Hpost.
  { intros rule b h' [Hb (m & Hr & Hs)]. split; [done|]. exists m. split; [by eapply calm_responded|done]. }
  eapply wp_mono.
  { intros b h' Hx. exists t. split; [exact Ht|]. rewrite Hpe, (proj2 (Z.ltb_lt 0 (Policy.Count pe))) by done. exact Hx. }
  destruct (Evaluate _ _ pe) as [rule|]; [|by apply wp_ret; eauto].
  unfold known_action.
  destruct (bytes_eqb (Policy.Action rule) ActionBlock) eqn:E1; cbn [orb].
  { eapply wp_mono; [apply Hpost|]. by eapply wp_policy_block. }
  destruct (bytes_eqb (Policy.Action rule) ActionAllow) eqn:E2; cbn [orb].
  { eapply wp_mono; [apply Hpost|]. by eapply wp_policy_allow. }
  destruct (bytes_eqb (Policy.Action rule) ActionRedirect) eqn:E3; cbn [orb].
  { eapply wp_mono; [apply Hpost|]. by eapply wp_policy_redirect. }
  destruct (bytes_eqb (Policy.Action rule) ActionForward) eqn:E4.
  { eapply wp_mono; [apply Hpost|]. by eapply wp_policy_forward. }
  apply wp_ret. eauto.
Qed.

(** *** The blocklist *)

Definition listed_post (w : Writer) (r : Msg) (q : Question) (h : St) (b : bool) (h' : St) : Prop :=
  let m := blocked_reply (deps h) r q in
  b = true /\ responded w true m h h' /\ no_traffic h h' /\
  exists t tr, reading t /\ d_cache (deps h') = c_SetBlocked ord t r m tr <$> d_cache (deps h).

Lemma wp_blocklist w r q qs label h :
  Msg_Question r = q :: qs ->
  wp (handleBlocklistAndOverrides ord w r (initial_reply r) (q_Name q) (q_Qtype q) label) h
    (fun b h' => if is_listed (deps h) (Blocklist_ h) (q_Name q) then listed_post w r q h b h'
                 else b = false /\ h' = h).
Proof using DLok.
  intros Hq. unfold handleBlocklistAndOverrides, is_listed. apply wp_bind, wp_get.
  destruct (block_answer (d_blockPageIP (deps h)) r (q_Name q) (q_Qtype q) (initial_reply r)) as [code m] eqn:E.
  pose proof (block_answer_code (d_blockPageIP (deps h)) r (q_Name q) (q_Qtype q)) as Hcode. rewrite E in Hcode. cbn in Hcode.
  assert (forall h1, evolves h h1 -> written h1 = written h -> h_sent h1 = h_sent h ->
    d_cache (deps h1) = d_cache (deps h) -> o_responseCode (h_outcome h1) = code -> o_blocked (h_outcome h1) = true ->
    wp (cache_SetBlocked ord r m;; writeMsg w m;; mret true) h1 (listed_post w r q h)) as Hend.
  { intros h1 He Hw Hs Hca Hco Hbl. apply wp_bind, wp_cache_SetBlocked. intros h2 t Ht Hc2 Ho2 Hca2.
    apply wp_bind, wp_modify, wp_ret. unfold listed_post, blocked_reply, no_traffic. rewrite E. cbn [snd].
    split_and!; [done| |cbn; by rewrite (calm_sent _ _ Hc2)|exists t; eexists; cbn; rewrite Hca2, Hca; done].
    assert (evolves h h2) as He2 by (etrans; [exact He|apply Hc2]).
    split; [by split; apply He2|cbn; by rewrite (calm_written _ _ Hc2), Hw|cbn; rewrite Ho2; congruence
      |cbn; rewrite Ho2, Hbl; done]. }
  destruct (d_blocklistManager (deps h)) as [bm|].
  - unfold handleFastBlocklistPath. destruct (Blocked (Match bm (q_Name q))); [|by apply wp_ret].
    unfold handleBlockedDomain. apply wp_bind, wp_modify, wp_bind, wp_get. rewrite Hq. cbn [deps set_outcome].
    rewrite E. do 2 apply wp_bind, wp_modify. apply wp_bind, wp_metric. intros h1 Hc1 Ho1 _ Hca1.
    apply Hend; [by split; apply Hc1|apply Hc1|apply Hc1|done|by rewrite Ho1..].
  - unfold handleLegacyBlocklistPath. apply wp_bind, wp_get. destruct (Blocklist_ h) as [bl|]; [|by apply wp_ret].
    case_bool_decide; [|by apply wp_ret].
    apply wp_bind, wp_modify, wp_bind, wp_metric. intros h1 Hc1 Ho1 _ Hca1. apply wp_bind, wp_modify. rewrite E.
    apply wp_bind, wp_modify. apply Hend; [by split; apply Hc1|apply Hc1|apply Hc1|done|done|done].
Qed.

(** *** The cache *)

Context {COK : CacheImplOk C}.

Definition cache_ok (d : handlerDeps C K) : Prop := forall c, d_cache d = Some c -> c_inv c.

(** The answer given to a cached message. *)
Definition cached_reply (r m : Msg) : Msg := HandleEDNS0 r (with_Id (Id r) m).

Definition cached_answer (r : Msg) (t : Z) (d : handlerDeps C K) (m : Msg) : Prop :=
  exists c m0 tr, d_cache d = Some c /\ c_on c = true /\ ideal_get t r (c_abs c) = Some (m0, tr) /\ m = cached_reply r m0.

Lemma wp_cache w r h :
  cache_ok (deps h) ->
  wp (serveFromCache w r) h (fun b h' => exists t, reading t /\
    if b then exists m, responded w false m h h' /\ no_traffic h h' /\ cached_answer r t (deps h) m
    else calm h h' /\ h_outcome h' = h_outcome h /\
         (forall c, d_cache (deps h) = Some c -> c_on c = true -> ideal_get t r (c_abs c) = None)).
Proof using Type.
  intros Hok. unfold serveFromCache, cache_Get. apply wp_bind, wp_bind, wp_get.
  destruct (d_cache (deps h)) as [c|] eqn:Ec.
  2: { do 2 apply wp_ret. exists (w_now (h_world h)).1. split; [apply now_reading|]. split_and!; [done..|]. congruence. }
  apply wp_bind, wp_now. intros t wd Ht. unfold wp at 1, cache_get_at. cbn [deps set_world]. rewrite Ec.
  pose proof (c_get_ok t r c (Hok c Ec)) as Hget.
  destruct (c_GetWithTrace t r c) as [c' res]. destruct Hget as (_ & _ & _ & _ & Hres).
  destruct res as [[m0 tr]|].
  - do 6 apply wp_bind, wp_modify. apply wp_ret. exists t. split; [done|]. exists (cached_reply r m0).
    split; [by split; [split|..]|]. split; [done|]. exists c, m0, tr. destruct (c_on c); [by rewrite <- Hres|done].
  - apply wp_ret. exists t. split; [done|]. split_and!; [done..|]. intros c1 [= <-] Hon. by rewrite Hon in Hres.
Qed.

(** ** The whole request *)

Lemma wp_toggles h :
  wp effectiveToggles h (fun tg h' =>
    exists tB tP wd, reading tB /\ reading tP /\ tg = (policies_on (deps h) tP, blocklist_on (deps h) tB) /\ h' = set_world wd h).
Proof using Type.
  unfold effectiveToggles, policies_on, blocklist_on. apply wp_bind, wp_get.
  destruct (resolveFeatureToggles (deps h)) as [ep eb]. cbn [fst snd].
  destruct (d_killSwitch (deps h)) as [ks|].
  - apply wp_bind, wp_now. intros t1 w1 Ht1. apply wp_bind, wp_now. intros t2 w2 Ht2. apply wp_ret.
    exists t1, t2, w2. split_and!; [done..| |done].
    destruct (ks_IsPoliciesDisabled t2 ks).1, (ks_IsBlocklistDisabled t1 ks).1, ep, eb; done.
  - apply wp_ret. exists (w_now (h_world h)).1, (w_now (h_world h)).1, (h_world h). rewrite !andb_true_r.
    split_and!; [apply now_reading..|done|by destruct h].
Qed.

(** A request that no earlier stage answers: from the cache, else from the
    upstreams. *)
Definition pass_served (r : Msg) (h h' : St) (m : Msg) : Prop :=
  exists t, reading t /\
   ((cached_answer r t (deps h) m /\ no_traffic h h') \/
    ((forall c, d_cache (deps h) = Some c -> c_on c = true -> ideal_get t r (c_abs c) = None) /\
     match d_fwd (deps h) with
     | None => m = SetRcode (initial_reply r) r RcodeNameError /\ no_traffic h h'
     | Some f => from_upstreams (upstreams f) r h h' m
     end)).

Definition served (r : Msg) (s : Stage) (h h' : St) (m : Msg) : Prop :=
  match s, Msg_Question r with
  | StFormErr, _ => m = SetRcode (initial_reply r) r RcodeFormatError /\ no_traffic h h'
  | StLocal m', _ => m = m' /\ no_traffic h h' /\ d_cache (deps h') = d_cache (deps h)
  | StRule rule, q :: _ => rule_served rule r q h h' m
  | StListed, q :: _ =>
      m = blocked_reply (deps h) r q /\ no_traffic h h' /\
      exists t tr, reading t /\ d_cache (deps h') = c_SetBlocked ord t r m tr <$> d_cache (deps h)
  | StPass, _ => pass_served r h h' m
  | _, [] => False
  end.

(** The stages that refuse a query. *)
Definition refuses (s : Stage) : bool :=
  match s with StRule rule => is_block rule | StListed => true | _ => false end.

Lemma wp_pass w r q qs label h :
  buffer_ok (deps h) -> cache_ok (deps h) -> Msg_Question r = q :: qs ->
  wp (done ← serveFromCache w r;
      if (done : bool) then mret ()
      else
        done ← forwardToUpstream ord w r (initial_reply r) label;
        if (done : bool) then mret () else fail_with RcodeNameError w r (initial_reply r)) h
    (fun _ h' => exists m, responded w false m h h' /\ pass_served r h h' m).
Proof using DLok.
  intros Hb Hc Hq. apply wp_bind. eapply wp_mono; [|by apply wp_cache]. intros b h1 (t & Ht & Hpost). destruct b.
  { destruct Hpost as (m & Hr & Hn & Ha). apply wp_ret. exists m. split; [done|]. exists t. split; [done|by left]. }
  destruct Hpost as (Hcalm & _ & Hmiss). apply wp_bind. unfold forwardToUpstream. apply wp_bind, wp_get.
  unfold pass_served. rewrite (calm_fwd _ _ Hcalm). destruct (d_fwd (deps h)) as [f|].
  - apply wp_bind. eapply wp_mono; [|apply (wp_forward f (upstreams f)); [|by apply Forward_sound_call; rewrite Hq]].
    + intros _ h2 (m & Hr & Hf). do 2 apply wp_ret. exists m. split; [by eapply calm_responded|]. exists t.
      split; [done|right]. split; [done|]. unfold from_upstreams in *. by rewrite <- (calm_sent _ _ Hcalm).
    + by eapply buffer_ok_calm.
  - apply wp_ret, wp_fail; [done|]. intros h2 Hr Hs _ _. eexists. split; [by eapply calm_responded|].
    exists t. split; [done|right]. split; [done|]. split; [done|]. unfold no_traffic. by rewrite Hs, (calm_sent _ _ Hcalm).
Qed.

(** The stages after the local records have been asked. *)
Definition later_stage (d : handlerDeps C K) (legacy : option (gset gostring)) (q : Question) (client : gostring)
    (tB tP tE : Z) : Stage :=
  match (if policies_on d tP then matching_rule d q client tE else None) with
  | Some rule => StRule rule
  | None => if blocklist_on d tB && is_listed d legacy (q_Name q) then StListed else StPass
  end.

Lemma wp_after_policies w r q qs label (eb : bool) h :
  buffer_ok (deps h) -> cache_ok (deps h) -> Msg_Question r = q :: qs ->
  wp (done ← (if eb then handleBlocklistAndOverrides ord w r (initial_reply r) (q_Name q) (q_Qtype q) label
              else (mret false : M bool));
      if (done : bool) then mret ()
      else
        done ← serveFromCache w r;
        if (done : bool) then mret ()
        else
          done ← forwardToUpstream ord w r (initial_reply r) label;
          if (done : bool) then mret () else fail_with RcodeNameError w r (initial_reply r)) h
    (fun _ h' => let s := if eb && is_listed (deps h) (Blocklist_ h) (q_Name q) then StListed else StPass in
       exists m, responded w (refuses s) m h h' /\ served r s h h' m).
Proof using DLok.
  intros Hb Hc Hq. apply wp_bind. destruct eb; cbn [andb].
  - eapply wp_mono; [|by eapply wp_blocklist]. intros d h1 Hpost. cbv zeta.
    destruct (is_listed _ _ _).
    + destruct Hpost as (-> & Hr & Hn & Hca). apply wp_ret. eexists. split; [exact Hr|]. cbn. by rewrite Hq.
    + destruct Hpost as [-> ->]. by eapply wp_pass.
  - apply wp_ret. by eapply wp_pass.
Qed.

Lemma wp_stages w r q qs client h :
  buffer_ok (deps h) -> cache_ok (deps h) -> Msg_Question r = q :: qs ->
  wp (serve_stages ord wall groups w r (initial_reply r) client (q_Name q) (q_Qtype q)) h
    (fun _ h' => exists tB tP tE m, let s := later_stage (deps h) (Blocklist_ h) q client tB tP tE in
       (reading tB /\ reading tP /\ reading tE) /\ responded w (refuses s) m h h' /\ served r s h h' m).
Proof using DLok.
  intros Hb Hc Hq. unfold serve_stages. apply wp_bind. eapply wp_mono; [|apply wp_toggles].
  intros tg h1 (tB & tP & wd & HtB & HtP & -> & ->). apply wp_bind, wp_get. cbn [deps set_world].
  assert (calm h (set_world wd h)) as Hcalm by done.
  assert (forall wd' tE (s : Stage), reading tE -> s = later_stage (deps h) (Blocklist_ h) q client tB tP tE ->
    forall (a : ()) h', (exists m, responded w (refuses s) m (set_world wd' h) h' /\ served r s (set_world wd' h) h' m) ->
    exists tB tP tE m, let s := later_stage (deps h) (Blocklist_ h) q client tB tP tE in
      (reading tB /\ reading tP /\ reading tE) /\ responded w (refuses s) m h h' /\ served r s h h' m) as Hfin.
  { intros wd' tE s HtE -> _ h' (m & Hr & Hs). exists tB, tP, tE, m. split; [done|]. split; [|exact Hs].
    eapply calm_responded; [|exact Hr]. done. }
  apply wp_bind. set (use := policies_on (deps h) tP && _). destruct use eqn:Euse; subst use.
  - apply andb_true_iff in Euse as [Hon Hcnt]. destruct (d_policyEngine (deps h)) as [pe|] eqn:Epe; [|done].
    apply Z.ltb_lt in Hcnt. eapply wp_mono; [|by eapply (wp_policies w r q qs client (set_world wd h) pe)].
    intros b h2 (tE & HtE & Hpost). cbn [deps set_world] in Hpost.
    destruct (matching_rule (deps h) q client tE) as [rule|] eqn:Erule.
    + destruct Hpost as (-> & m & Hr & Hs). apply wp_ret. exists tB, tP, tE, m. unfold later_stage.
      rewrite Hon, Erule. cbn [refuses served]. rewrite Hq. split; [done|]. split; [by eapply calm_responded|exact Hs].
    + destruct Hpost as [-> [wd' ->]]. eapply wp_mono; [|by eapply wp_after_policies].
      apply (Hfin wd' tE); [done|]. unfold later_stage. by rewrite Hon, Erule.
  - apply wp_ret. eapply wp_mono; [|by eapply wp_after_policies]. apply (Hfin wd _ _ (now_reading h)).
    unfold later_stage, matching_rule.
    apply andb_false_iff in Euse as [->|Hcnt]; [done|].
    destruct (policies_on (deps h) tP); [|done]. destruct (d_policyEngine (deps h)) as [pe|]; [|done]. by rewrite Hcnt.
Qed.

Lemma wp_body w r client h :
  buffer_ok (deps h) -> cache_ok (deps h) ->
  wp (serve_body ord wall groups w r client) h
    (fun _ h' => exists tB tP tE m, let s := stage (deps h) (Blocklist_ h) r client tB tP tE in
       (reading tB /\ reading tP /\ reading tE) /\ responded w (refuses s) m h h' /\ served r s h h' m).
Proof using DLok.
  intros Hb Hc. unfold serve_body, stage. destruct (Msg_Question r) as [|q qs] eqn:Hq.
  { apply wp_fail; [done|]. intros h' Hr Hs _ _. do 3 exists (w_now (h_world h)).1. eexists.
    split; [by split_and!; apply now_reading|]. split; [exact Hr|]. by cbn. }
  apply wp_bind. unfold serveFromLocalRecords. apply wp_bind, wp_get.
  destruct (d_localRecords (deps h)) as [lr|].
  2: { apply wp_ret. by eapply wp_stages. }
  destruct (local_answer lr (q_Name q) (q_Qtype q) (initial_reply r)) as [[] m] eqn:El.
  - do 2 apply wp_bind, wp_modify. do 2 apply wp_ret. do 3 exists (w_now (h_world h)).1. exists m. cbn [refuses served].
    split; [by split_and!; apply now_reading|]. split; [|by split_and!]. split; [by split|done| |done]. cbn.
    rewrite (local_answer_code _ _ _ _ _ _ El). symmetry. apply initial_reply_fields.
  - apply wp_ret. rewrite (local_answer_false _ _ _ _ _ El). by eapply wp_stages.
Qed.

(** The entry of the query log for a request. *)
Definition log_entry_ok (w : Writer) (r m : Msg) (blocked : bool) (log : QueryLog) : Prop :=
  o_responseCode (ql_outcome log) = Rcode (fit w m) /\ o_blocked (ql_outcome log) = blocked /\
  ql_ClientIP log = getClientIP w /\
  (forall q qs, Msg_Question r = q :: qs ->
     ql_Domain log = TrimSuffix (q_Name q) [dot] /\ ql_QueryType log = dnsTypeLabel (q_Qtype q)).

Lemma fit_Rcode w m : Rcode (fit w m) = Rcode m.
Proof using Type. unfold fit. repeat case_match; done. Qed.

Lemma wp_ServeDNS w r h :
  buffer_ok (deps h) -> cache_ok (deps h) ->
  wp (ServeDNS ord wall groups w r) h (fun _ h' => exists tB tP tE m,
    let s := stage (deps h) (Blocklist_ h) r (getClientIP w) tB tP tE in
    (reading tB /\ reading tP /\ reading tE) /\
    written h' = written h ++ [fit w m] /\ served r s h h' m /\
    static (deps h') = static (deps h) /\
    if d_queryLogger (deps h) || d_storage (deps h)
    then exists log, h_logs h' = h_logs h ++ [(if d_queryLogger (deps h) then ToQueryLogger else ToLegacyChannel, log)] /\
           log_entry_ok w r m (refuses s) log
    else h_logs h' = h_logs h).
Proof using DLok.
  intros Hb Hc. unfold ServeDNS. apply wp_bind, wp_now. intros t0 w0 _. apply wp_bind, wp_get.
  do 2 apply wp_bind, wp_modify. apply wp_bind. set (h0 := set_trace _ _).
  assert (deps h0 = deps h /\ Blocklist_ h0 = Blocklist_ h /\ written h0 = written h /\ h_sent h0 = h_sent h /\
    h_logs h0 = h_logs h /\ o_blocked (h_outcome h0) = false) as (Hd & Hl & Hw & Hs & Hlg & Hbl) by done.
  clearbody h0. eapply wp_mono; [|apply wp_body; by rewrite Hd]. rewrite Hd, Hl.
  intros _ h1 (tB & tP & tE & m & Ht & Hr & Hserved). set (s := stage _ _ _ _ _ _ _) in *.
  destruct Hr as [[Hst _ Hlogs] Hwr Hcode Hblk]. rewrite Hd in Hst. rewrite Hbl, orb_false_r in Hblk.
  assert (served r s h h1 m) as Hserved1.
  { clear -Hserved Hd Hs. unfold served, rule_served, pass_served, from_upstreams, no_traffic in *.
    by rewrite Hd, Hs in Hserved. }
  pose proof (static_fields _ _ Hst) as (Est & Eql & _).
  unfold asyncLogQuery. apply wp_bind, wp_get. rewrite Est, Eql.
  destruct (d_queryLogger (deps h)) eqn:Eq, (d_storage (deps h)) eqn:Eg; cbn [negb andb orb].
  4: { apply wp_ret. exists tB, tP, tE, m. split; [done|]. split_and!; congruence || done. }
  all: apply wp_bind, wp_now; intros t1 w1 _; cbn zeta.
  all: destruct (match Msg_Question r with q :: _ => _ | [] => _ end) as [dom ty] eqn:Ed; apply wp_modify.
  all: exists tB, tP, tE, m; split; [done|]; split_and!; [cbn; congruence|exact Hserved1|exact Hst|].
  all: eexists; split; [cbn; by rewrite Hlogs, Hlg|].
  all: unfold log_entry_ok; cbn; rewrite fit_Rcode; split_and!; [done..|].
  all: intros q qs Hq; rewrite Hq in Ed; by injection Ed as <- <-.
Qed.

(** C1: Whatever the network, the clock, the cache implementation and the
    configuration, [ServeDNS] returns without a panic and writes exactly one
    response, the one of the first stage that applies: FORMERR for a message
    without a question; the local records; the first matching policy rule when
    policies are in force (block, redirect, or forward to the default or the
    rule's upstreams); the block answer when the blocklist is in force and
    lists the name (the answer is then also stored in the cache); else an answer the cache may serve at that time; else one
    received from a configured upstream, or SERVFAIL; NXDOMAIN without a
    forwarder.  Local, blocked, redirected and cached answers cause no upstream
    traffic, and forwarding contacts only the upstreams of its stage. *)
Theorem serve_by_precedence (w : Writer) (r : Msg) (h : St) (Hb : buffer_ok (deps h)) (Hc : cache_ok (deps h)) :
  exists tB tP tE m h', (reading tB /\ reading tP /\ reading tE) /\ ServeDNS ord wall groups w r h = Some ((), h') /\
    written h' = written h ++ [fit w m] /\
    served r (stage (deps h) (Blocklist_ h) r (getClientIP w) tB tP tE) h h' m.
Proof using DLok.
  pose proof (wp_ServeDNS w r h Hb Hc) as Hwp. unfold wp in Hwp.
  destruct (ServeDNS ord wall groups w r h) as [[[] h']|]; [|done].
  destruct Hwp as (tB & tP & tE & m & Ht & Hw & Hs & _). exists tB, tP, tE, m, h'. split; [done|]. by split_and!.
Qed.

(** C15: With a query logger or a storage, every request adds exactly one entry
    to the query log, and the entry tells the truth: its response code is the
    one of the message written, it is marked blocked exactly when the stage that
    answered refuses queries (the blocklist, a BLOCK rule), and it names the
    client and the question. *)
Theorem log_agrees_with_answer (w : Writer) (r : Msg) (h : St) (Hb : buffer_ok (deps h)) (Hc : cache_ok (deps h))
    (Hlog : d_queryLogger (deps h) || d_storage (deps h) = true) :
  exists tB tP tE m h' sink log, (reading tB /\ reading tP /\ reading tE) /\ ServeDNS ord wall groups w r h = Some ((), h') /\
    written h' = written h ++ [fit w m] /\ h_logs h' = h_logs h ++ [(sink, log)] /\
    log_entry_ok w r m (refuses (stage (deps h) (Blocklist_ h) r (getClientIP w) tB tP tE)) log.
Proof using DLok.
  pose proof (wp_ServeDNS w r h Hb Hc) as Hwp. unfold wp in Hwp.
  destruct (ServeDNS ord wall groups w r h) as [[[] h']|]; [|done].
  destruct Hwp as (tB & tP & tE & m & Ht & Hw & _ & _ & Hl). rewrite Hlog in Hl. destruct Hl as (log & Hl & Hok).
  exists tB, tP, tE, m, h'. eexists. exists log. split; [done|]. by split_and!.
Qed.

(** ** Cached block answers *)

(** A block answer outlives the blocklist's being in force: after a name was
    answered from the blocklist, a request for it that no stage would refuse any
    more - the blocklist disabled by its kill switch or by the configuration, or
    the name no longer listed - is still answered, without asking any upstream,
    with the block answer from the cache for as long as [BlockedTTL] lasts. *)
Theorem blocked_answer_outlives_disable (w1 w2 : Writer) (r : Msg) (q : Question) (qs : list Question) (h : St)
    (c : C) (T : Z) (Hq : Msg_Question r = q :: qs) (Hb : buffer_ok (deps h))
    (Hcache : d_cache (deps h) = Some c) (Hinv : c_inv c) (Hon : c_on c = true) (Httl : 0 < BlockedTTL (c_cfg c))
    (Hlisted : forall tB tP tE, reading tB -> reading tP -> reading tE -> stage (deps h) (Blocklist_ h) r (getClientIP w1) tB tP tE = StListed)
    (Hclock : forall wd, T <= (w_now wd).1 <= T + BlockedTTL (c_cfg c)) :
  exists h1, ServeDNS ord wall groups w1 r h = Some ((), h1) /\
    forall h2, d_cache (deps h2) = d_cache (deps h1) -> buffer_ok (deps h2) ->
      (forall tB tP tE, reading tB -> reading tP -> reading tE -> stage (deps h2) (Blocklist_ h2) r (getClientIP w2) tB tP tE = StPass) ->
      exists h3, ServeDNS ord wall groups w2 r h2 = Some ((), h3) /\ h_sent h3 = h_sent h2 /\
        written h3 = written h2 ++ [fit w2 (cached_reply r (blocked_reply (deps h) r q))].
Proof using DLok.
  assert (cache_ok (deps h)) as Hc by (intros c0; rewrite Hcache; by intros [= <-]).
  pose proof (wp_ServeDNS w1 r h Hb Hc) as Hwp. unfold wp in Hwp.
  destruct (ServeDNS ord wall groups w1 r h) as [[[] h1]|]; [|done].
  destruct Hwp as (? & ? & ? & m & (? & ? & ?) & _ & Hs & _). rewrite Hlisted in Hs by done. unfold served in Hs. rewrite Hq, Hcache in Hs.
  destruct Hs as (-> & _ & t & tr & [wt ->] & Hc1). cbn in Hc1.
  destruct (c_SetBlocked_ok ord (w_now wt).1 r (blocked_reply (deps h) r q) tr c Hinv) as (Hi1 & _ & Hon1 & _ & Hget).
  specialize (Hget Hon ltac:(by rewrite Hq) Httl). exists h1. split; [done|]. intros h2 Hc2 Hb2 Hpass.
  rewrite Hc1 in Hc2. assert (cache_ok (deps h2)) as Hok2 by (intros c0; rewrite Hc2; by intros [= <-]).
  pose proof (wp_ServeDNS w2 r h2 Hb2 Hok2) as Hwp. unfold wp in Hwp.
  destruct (ServeDNS ord wall groups w2 r h2) as [[[] h3]|]; [|done].
  destruct Hwp as (? & ? & ? & m & (? & ? & ?) & Hw & Hs & _). rewrite Hpass in Hs by done. unfold served in Hs.
  assert (pass_served r h2 h3 m) as (t' & [wt' ->] & Hps) by (by destruct (Msg_Question r)). clear Hs.
  assert (ideal_get (w_now wt').1 r (c_abs (c_SetBlocked ord (w_now wt).1 r (blocked_reply (deps h) r q) tr c))
    = Some (blocked_reply (deps h) r q, tr)) as Hideal.
  { unfold ideal_get. rewrite Hq, bool_decide_eq_false_2, Hget by done.
    pose proof (Hclock wt). pose proof (Hclock wt').
    by rewrite (proj2 (Z.ltb_ge ((w_now wt).1 + BlockedTTL (c_cfg c)) (w_now wt').1)) by lia. }
  exists h3. destruct Hps as [[(c0 & m0 & tr0 & Hc0 & _ & Hg & ->) Hn]|[Hmiss _]].
  - rewrite Hc2 in Hc0. injection Hc0 as <-. rewrite Hideal in Hg. injection Hg as <- <-. by split_and!.
  - rewrite (Hmiss _ Hc2) in Hideal; [done|]. by rewrite Hon1.
Qed.

(** ** Truncation *)

(** The size [writeMsg] enforces on UDP. *)
Definition udp_limit (m : Msg) : Z := match IsEdns0 m with Some opt => opt_UDPSize opt | None => 512 end.

(** A reply the handler builds carries the negotiated OPT record and no
    other. *)
Lemma initial_reply_limit r m :
  Extra m = Extra (initial_reply r) ->
  udp_limit m = match IsEdns0 r with Some o => negotiateBufferSize (opt_UDPSize o) | None => 512 end.
Proof using DLok.
  intros HE. set (base := with_RecursionAvailable true (with_Authoritative true (SetReply zero_Msg r))).
  assert (Extra base = []) as Hbase by (cbn; by rewrite SetReply_Extra).
  assert (IsEdns0 base = None) as Hnone.
  { destruct (IsEdns0 base) eqn:E; [|done]. apply IsEdns0_Some in E as [hd Hin]. rewrite Hbase in Hin.
    by apply not_elem_of_nil in Hin. }
  unfold udp_limit, initial_reply in *. fold base in HE.
  destruct (HandleEDNS0_opt r base) as [(o & Hr & _ & Hx)|[[Hr|[x Hx]] Hsame]].
  - rewrite Hr. rewrite Hx, Hbase in HE. cbn in HE. destruct (IsEdns0 m) as [o'|] eqn:Em.
    + apply IsEdns0_Some in Em as [hd Hin]. rewrite HE in Hin. apply list_elem_of_singleton in Hin.
      unfold new_opt in Hin. by injection Hin as _ ->.
    + exfalso. eapply (IsEdns0_None m Em). rewrite HE. by left.
  - rewrite Hr, Hsame, Hbase in *. destruct (IsEdns0 m) as [o'|] eqn:Em; [|done].
    apply IsEdns0_Some in Em as [hd Hin]. rewrite HE in Hin. by apply not_elem_of_nil in Hin.
  - by rewrite Hnone in Hx.
Qed.

(** What goes over UDP: a message of at most the limit is written as it is;
    a longer one loses its answer section and gets the TC bit, and nothing else
    changes; other transports never truncate.  For a reply the handler builds
    itself the limit is the client's size, clamped to 512..4096, or 512 without
    EDNS0; for an upstream's or a cached message it is the size in that
    message's own OPT record. *)
Theorem write_limit (w : Writer) (r m : Msg) :
  (isUDP w = false -> fit w m = m) /\
  (isUDP w = true -> Msg_Len m <= udp_limit m -> fit w m = m) /\
  (isUDP w = true -> udp_limit m < Msg_Len m -> fit w m = with_Answer [] (with_Truncated true m)) /\
  (Extra m = Extra (initial_reply r) ->
     MinEDNSBufferSize <= udp_limit m <= MaxEDNSBufferSize /\ (IsEdns0 r = None -> udp_limit m = 512)).
Proof using DLok.
  unfold fit. fold (udp_limit m). split_and!.
  - by intros ->.
  - intros -> Hle. by rewrite (proj2 (Z.ltb_ge _ _)) by done.
  - intros -> Hlt. by rewrite (proj2 (Z.ltb_lt _ _)) by done.
  - intros HE. rewrite (initial_reply_limit r m HE). split; [|by intros ->].
    destruct (IsEdns0 r); [apply negotiate_range|]. unfold MinEDNSBufferSize, MaxEDNSBufferSize. lia.
Qed.

End props.

(** ** A concrete handler

    One name on the legacy list, the single-lock cache, no forwarder, a stopped
    clock. *)

Definition no_expr : ExprLib := {|
  Program := unit; expr_Compile _ _ := None; vm_Run _ _ _ := None
|}.

Definition midnight (t : Z) : WallClock := MkClock 0 0 1 1 0 t.

Definition sample_deps (ks : option KillSwitchManager) : @handlerDeps no_regexp no_expr Cache KillSwitchManager :=
  @MkDeps no_regexp no_expr Cache KillSwitchManager false true None None None None (Some sample_cache) None ks false [] None false.

Definition sample_handler : @H no_regexp no_expr unit Cache KillSwitchManager :=
  MkH (sample_deps None) (Some {[str "h.lan."]}) tt [] [] (newBlockTraceRecorder false) getOutcome [] [].

Definition sample_writer : Writer := MkWriter (Some (str "udp")) (Some (str "192.0.2.9:4242")).

Lemma sample_cache_inv : @c_inv simple_dns Cache (@Cache_impl simple_dns) (@Cache_impl_ok simple_dns 10) sample_cache.
Proof. split; [|done]. split; [done|by vm_compute|by vm_compute|]. intros m [= <-]. by vm_compute. Qed.

Lemma sample_cache_ok : @cache_ok simple_dns _ _ Cache (@Cache_impl simple_dns) KillSwitchManager (@Cache_impl_ok simple_dns 10)
  (deps sample_handler).
Proof. intros c [= <-]. apply sample_cache_inv. Qed.

Lemma serve_by_precedence_witness :
  exists m h', @ServeDNS simple_dns no_regexp no_expr unit frozen_world Cache (@Cache_impl simple_dns) KillSwitchManager _
      default_order midnight None sample_writer sample_query sample_handler = Some ((), h') /\
    written h' = [m] /\ Rcode m = RcodeNameError /\ h_sent h' = [].
Proof.
  destruct (@serve_by_precedence simple_dns no_regexp no_expr unit frozen_world Cache (@Cache_impl simple_dns)
    KillSwitchManager _ default_order midnight None simple_dns_ok (@Cache_impl_ok simple_dns 10)
    sample_writer sample_query sample_handler ltac:(done) sample_cache_ok) as (tB & tP & tE & m & h' & _ & E & Hw & Hs).
  exists (@fit simple_dns sample_writer m), h'.
  change (stage _ _ _ _ _ _ _ _ _) with (@StListed no_expr) in Hs. destruct Hs as (-> & Hn & _).
  split_and!; [exact E|exact Hw|by vm_compute|exact Hn].
Defined.

Lemma log_agrees_with_answer_witness :
  exists h' sink log, @ServeDNS simple_dns no_regexp no_expr unit frozen_world Cache (@Cache_impl simple_dns) KillSwitchManager _
      default_order midnight None sample_writer sample_query sample_handler = Some ((), h') /\
    h_logs h' = [(sink, log)] /\ o_blocked (ql_outcome log) = true /\ ql_ClientIP log = str "192.0.2.9".
Proof.
  destruct (@log_agrees_with_answer simple_dns no_regexp no_expr unit frozen_world Cache (@Cache_impl simple_dns)
    KillSwitchManager _ default_order midnight None simple_dns_ok (@Cache_impl_ok simple_dns 10)
    sample_writer sample_query sample_handler ltac:(done) sample_cache_ok ltac:(done))
    as (tB & tP & tE & m & h' & sink & log & _ & E & _ & Hl & _ & Hb & Hc & _).
  exists h', sink, log. split_and!; [exact E|exact Hl|exact Hb|rewrite Hc; by vm_compute].
Defined.

(** The kill switch has just been pressed for the blocklist. *)
Definition switched_off (h : @H no_regexp no_expr unit Cache KillSwitchManager) : @H no_regexp no_expr unit Cache KillSwitchManager :=
  SetKillSwitch (Some (DisableBlocklistFor 5 95 NewKillSwitchManager).1) h.

Lemma blocked_answer_outlives_disable_witness :
  exists h1 h3, @ServeDNS simple_dns no_regexp no_expr unit frozen_world Cache (@Cache_impl simple_dns) KillSwitchManager _
      default_order midnight None sample_writer sample_query sample_handler = Some ((), h1) /\
    @ServeDNS simple_dns no_regexp no_expr unit frozen_world Cache (@Cache_impl simple_dns) KillSwitchManager _
      default_order midnight None sample_writer sample_query (switched_off h1) = Some ((), h3) /\
    h_sent h3 = h_sent h1 /\ Rcode <$> last (written h3) = Some RcodeNameError.
Proof.
  assert (forall t, @reading unit frozen_world t -> t = 6) as Ht by (by intros t [[] ->]).
  assert (exists h1, @ServeDNS simple_dns no_regexp no_expr unit frozen_world Cache (@Cache_impl simple_dns) KillSwitchManager _
      default_order midnight None sample_writer sample_query sample_handler = Some ((), h1) /\
    static (deps h1) = static (sample_deps None) /\ Blocklist_ h1 = Some {[str "h.lan."]}) as (h1 & E1 & Hst & Hbl)
    by (eexists; split_and!; [by vm_compute|done|done]).
  destruct (@blocked_answer_outlives_disable simple_dns no_regexp no_expr unit frozen_world Cache (@Cache_impl simple_dns)
    KillSwitchManager _ default_order midnight None simple_dns_ok (@Cache_impl_ok simple_dns 10)
    sample_writer sample_writer sample_query (MkQuestion (str "h.lan.") TypeA ClassINET) [] sample_handler sample_cache 6
    eq_refl ltac:(done) eq_refl sample_cache_inv eq_refl ltac:(by vm_compute) ltac:(by intros; vm_compute)
    ltac:(by intros []; vm_compute)) as (h1' & E1' & Hnext).
  rewrite E1 in E1'. injection E1' as <-. exists h1.
  destruct (Hnext (switched_off h1)) as (h3 & E3 & Hs & Hw).
  - unfold switched_off, SetKillSwitch. by destruct (deps h1).
  - apply static_fields in Hst as (_&_&_&_&_&_&_&_&Hub). unfold buffer_ok, switched_off, SetKillSwitch.
    destruct (deps h1). cbn in *. by rewrite Hub.
  - intros tB tP tE ->%Ht ->%Ht ->%Ht. unfold stage, switched_off, SetKillSwitch, static in *. destruct (deps h1).
    cbn in Hst. injection Hst as -> -> -> -> -> -> -> -> -> -> ->. by vm_compute.
  - exists h3. split_and!; [done|exact E3| |].
    + rewrite Hs. unfold switched_off, SetKillSwitch. by destruct (deps h1).
    + rewrite Hw, last_snoc. by vm_compute.
Defined.

Lemma write_limit_witness :
  @udp_limit simple_dns (@initial_reply simple_dns sample_query) = 512.
Proof.
  destruct (@write_limit simple_dns simple_dns_ok sample_writer sample_query (@initial_reply simple_dns sample_query))
    as (_ & _ & _ & Hl).
  apply Hl; by vm_compute.
Defined.

(** ** Where the limit is not the client's *)

Definition large_cached : Msg :=
  MkMsg 7 true 0 false false true true false false 0 [MkQuestion (str "h.lan.") TypeA ClassINET]
    (replicate 40 (sample_A 300)) [] [new_opt 4096 false].

(** A cached answer to an EDNS0 client goes whole, over UDP, to a client that
    did not offer EDNS0. *)
Lemma plain_client_gets_large_answer :
  let m := @cached_reply simple_dns sample_query large_cached in
  @IsEdns0 simple_dns sample_query = None /\ @fit simple_dns sample_writer m = m /\ 512 < @Msg_Len simple_dns m.
Proof. by vm_compute. Qed.

(** Only the answer section is dropped: a message with a large authority
    section stays above the limit. *)
Lemma truncated_still_large :
  let m := MkMsg 7 true 0 false false true true false false 3 [MkQuestion (str "h.lan.") TypeA ClassINET]
    [] (replicate 40 (sample_A 300)) [] in
  Truncated (@fit simple_dns sample_writer m) = true /\
  @udp_limit simple_dns m < @Msg_Len simple_dns (@fit simple_dns sample_writer m).
Proof. by vm_compute. Qed.
