(* ===== verification/GoBase64.v ===== *)
(** * base64.RawURLEncoding

    The part of Go's package [encoding/base64] the API uses: the URL alphabet
    without padding, for session tokens and DNS-over-HTTPS queries. *)

From Stdlib Require Import Ascii.
From S2P Require Import Prelude GoStrings.
From stdpp Require Import options.
Local Open Scope Z_scope.

Definition alphabet : gostring :=
  str "ABCDEFGHIJKLMNOPQRSTUVWXYZabcdefghijklmnopqrstuvwxyz0123456789-_".

(** The byte of a six-bit value, and the value of a byte. *)
Definition sextet (v : Z) : ascii := nth (Z.to_nat v) alphabet "A"%char.

Definition unsextet (c : ascii) : option Z :=
  let z := code c in
  if (65 <=? z) && (z <=? 90) then Some (z - 65)
  else if (97 <=? z) && (z <=? 122) then Some (z - 71)
  else if (48 <=? z) && (z <=? 57) then Some (z + 4)
  else if z =? 45 then Some 62
  else if z =? 95 then Some 63
  else None.

(** [EncodeToString]: three bytes are four digits; one or two left over bytes
    are two or three. *)
Fixpoint Encode (b : list Z) : gostring :=
  match b with
  | x :: y :: z :: b' =>
      sextet (x / 4) :: sextet (x mod 4 * 16 + y / 16) :: sextet (y mod 16 * 4 + z / 64)
        :: sextet (z mod 64) :: Encode b'
  | [x; y] => [sextet (x / 4); sextet (x mod 4 * 16 + y / 16); sextet (y mod 16 * 4)]
  | [x] => [sextet (x / 4); sextet (x mod 4 * 16)]
  | [] => []
  end.

(** The digits of a text: carriage returns and newlines are skipped, any other
    byte outside the alphabet is an error. *)
Fixpoint digits (s : gostring) : option (list Z) :=
  match s with
  | [] => Some []
  | c :: s' =>
      if (code c =? 10) || (code c =? 13) then digits s'
      else v ← unsextet c; vs ← digits s'; Some (v :: vs)
  end.

(** Four digits are three bytes; a single left over digit is an error, the
    unused bits of the last digit are ignored. *)
Fixpoint undigits (v : list Z) : option (list Z) :=
  match v with
  | a :: b :: c :: d :: v' =>
      rest ← undigits v';
      Some (a * 4 + b / 16 :: b mod 16 * 16 + c / 4 :: c mod 4 * 64 + d :: rest)
  | [a; b; c] => Some [a * 4 + b / 16; b mod 16 * 16 + c / 4]
  | [a; b] => Some [a * 4 + b / 16]
  | [_] => None
  | [] => Some []
  end.

Definition Decode (s : gostring) : option (list Z) := v ← digits s; undigits v.

(** [StdEncoding.DecodeString]: '+' and '/' for '-' and '_', with padding. *)
Definition std_byte (c : ascii) : ascii :=
  if bool_decide (c = "+"%char) then "-"%char
  else if bool_decide (c = "/"%char) then "_"%char
  else if bool_decide (c = "-"%char) || bool_decide (c = "_"%char) then "="%char
  else c.

Definition StdDecode (s : gostring) : option (list Z) :=
  let s := filter (fun c => ¬ (code c = 10 \/ code c = 13)) s in
  if (length s mod 4 =? 0)%nat then
    let s1 := TrimSuffix s (str "=") in
    let s2 := TrimSuffix s1 (str "=") in
    Decode (map std_byte s2)
  else None.

(** ** Round trip *)

Definition byte_range (b : list Z) : Prop := Forall (fun x => 0 <= x < 256) b.

Lemma sextet_check :
  forallb (fun n => match unsextet (sextet (Z.of_nat n)) with
                    | Some v => (v =? Z.of_nat n) && negb ((code (sextet (Z.of_nat n)) =? 10) || (code (sextet (Z.of_nat n)) =? 13))
                    | None => false end) (seq 0 64) = true.
Proof. by vm_compute. Qed.

Lemma sextet_spec v :
  0 <= v < 64 -> unsextet (sextet v) = Some v /\ ((code (sextet v) =? 10) || (code (sextet v) =? 13)) = false.
Proof.
  intros Hv. pose proof sextet_check as H. rewrite forallb_forall in H.
  specialize (H (Z.to_nat v)). rewrite Z2Nat.id in H by lia.
  assert (In (Z.to_nat v) (seq 0 64)) as Hin by (apply in_seq; lia). apply H in Hin.
  destruct (unsextet (sextet v)) as [w|]; [|done]. bsimpl. subst w. split; [done|]. apply orb_false_iff. by rewrite !Z.eqb_neq.
Qed.

Lemma digits_sextet v s : 0 <= v < 64 -> digits (sextet v :: s) = vs ← digits s; Some (v :: vs).
Proof. intros Hv. destruct (sextet_spec v Hv) as [H1 H2]. cbn [digits]. by rewrite H2, H1. Qed.

Ltac sextets :=
  repeat (rewrite digits_sextet by (Z.to_euclidean_division_equations; lia)).

Lemma list_ind3 {A} (P : list A -> Prop) :
  P [] -> (forall x, P [x]) -> (forall x y, P [x; y]) ->
  (forall x y z l, P l -> P (x :: y :: z :: l)) -> forall l, P l.
Proof.
  intros H0 H1 H2 H3. fix IH 1. intros [|x [|y [|z l]]]; [done|apply H1|apply H2|]. apply H3, IH.
Qed.

(** Decoding inverts encoding. *)
Lemma Decode_Encode b : byte_range b -> Decode (Encode b) = Some b.
Proof.
  unfold Decode, byte_range. induction b as [|x|x y|x y z b IH] using list_ind3; intros Hb;
    [done| | |]; rewrite ?Forall_cons in Hb; destruct_and?; cbn [Encode].
  - sextets. cbn [digits mbind option_bind undigits]. do 2 f_equal. Z.to_euclidean_division_equations; lia.
  - sextets. cbn [digits mbind option_bind undigits]. do 2 f_equal; [|f_equal]; Z.to_euclidean_division_equations; lia.
  - sextets. specialize (IH ltac:(assumption)).
    destruct (digits (Encode b)) as [vs|]; [|done]. cbn [mbind option_bind undigits] in *. rewrite IH. cbn.
    do 2 f_equal; [Z.to_euclidean_division_equations; lia|]. f_equal; [Z.to_euclidean_division_equations; lia|].
    f_equal. Z.to_euclidean_division_equations; lia.
Qed.

Lemma Encode_inj b1 b2 : byte_range b1 -> byte_range b2 -> Encode b1 = Encode b2 -> b1 = b2.
Proof.
  intros H1 H2 E. apply (f_equal Decode) in E. rewrite !Decode_Encode in E by done. by injection E.
Qed.

Lemma Encode_nonempty b : b <> [] -> Encode b <> [].
Proof. destruct b as [|x [|y [|z b]]]; done. Qed.
