(* ===== verification/GoStrconv.v ===== *)
(** * strconv

    [Itoa] and [Atoi] (ParseInt in base 10 with 64 bits): a decimal text of an
    integer and back, the range error included. *)

From Stdlib Require Import Ascii.
From S2P Require Import Prelude GoStrings.
From stdpp Require Import options.
Local Open Scope Z_scope.

Definition digit (z : Z) : ascii := chr (48 + z).
Definition is_digit (c : ascii) : bool := (48 <=? code c) && (code c <=? 57).

(** The digits of [n], most significant first; [fuel] bounds their number. *)
Fixpoint digits_of (fuel : nat) (n : Z) (acc : gostring) : gostring :=
  match fuel with
  | O => acc
  | S fuel' =>
      let acc := digit (n mod 10) :: acc in
      if n / 10 =? 0 then acc else digits_of fuel' (n / 10) acc
  end.

(** The binary length of [n] bounds the number of its decimal digits. *)
Definition Utoa (n : Z) : gostring := digits_of (S (Z.to_nat (Z.log2 n))) n [].

Definition Itoa (n : Z) : gostring := if n <? 0 then "-"%char :: Utoa (- n) else Utoa n.

Fixpoint value_of (s : gostring) (acc : Z) : option Z :=
  match s with
  | [] => Some acc
  | c :: s' => if is_digit c then value_of s' (10 * acc + (code c - 48)) else None
  end.

Inductive NumError := ErrSyntax | ErrRange.

(** ParseInt(s, 10, bits) and ParseUint(s, 10, bits). *)
Definition ParseInt (bits : Z) (s : gostring) : result NumError Z :=
  let '(neg, t) := match s with
                   | c :: s' => if bool_decide (c = "-"%char) then (true, s')
                                else if bool_decide (c = "+"%char) then (false, s') else (false, s)
                   | [] => (false, [])
                   end in
  match t with
  | [] => Err ErrSyntax
  | _ =>
      match value_of t 0 with
      | None => Err ErrSyntax
      | Some v =>
          let v := if (neg : bool) then - v else v in
          if (v <? - 2 ^ (bits - 1)) || (2 ^ (bits - 1) <=? v) then Err ErrRange else Ok v
      end
  end.

Definition ParseUint (bits : Z) (s : gostring) : result NumError Z :=
  match s with
  | [] => Err ErrSyntax
  | _ => match value_of s 0 with
         | None => Err ErrSyntax
         | Some v => if 2 ^ bits <=? v then Err ErrRange else Ok v
         end
  end.

Definition Atoi (s : gostring) : result NumError Z := ParseInt 64 s.

(** [v, _ := strconv.ParseInt(s, 10, 64)]: on a range error the nearest bound,
    on a syntax error zero. *)
Definition ParseInt_value (s : gostring) : Z :=
  match ParseInt 64 s with
  | Ok v => v
  | Err ErrSyntax => 0
  | Err ErrRange => match s with c :: _ => if bool_decide (c = "-"%char) then - 2 ^ 63 else 2 ^ 63 - 1 | [] => 0 end
  end.

(** ** Laws *)

Lemma code_chr z : 0 <= z < 256 -> code (chr z) = z.
Proof.
  intros H. unfold code, chr. rewrite N_ascii_embedding by lia. rewrite Z2N.id by lia. done.
Qed.

Lemma digit_code z : 0 <= z < 10 -> code (digit z) = 48 + z /\ is_digit (digit z) = true.
Proof.
  intros H. unfold is_digit, digit. rewrite code_chr by lia. split; [done|].
  apply andb_true_iff. rewrite !Z.leb_le. lia.
Qed.

Lemma value_of_app s t acc :
  value_of (s ++ t) acc = match value_of s acc with Some v => value_of t v | None => None end.
Proof.
  revert acc. induction s as [|c s IH]; intros acc; [done|]. cbn. by destruct (is_digit c).
Qed.

Lemma digits_of_spec fuel n acc :
  0 <= n < 2 ^ Z.of_nat fuel -> (0 < fuel)%nat ->
  exists ds, digits_of fuel n acc = ds ++ acc /\ ds <> [] /\ Forall (fun c => is_digit c = true) ds /\
    forall v, value_of ds v = Some (v * 10 ^ Z.of_nat (length ds) + n).
Proof.
  revert n acc. induction fuel as [|fuel IH]; intros n acc Hn Hf; [lia|]. cbn [digits_of].
  assert (0 <= n mod 10 < 10) as Hm by (apply Z.mod_pos_bound; lia).
  destruct (digit_code _ Hm) as [Hc Hd].
  assert (n = 10 * (n / 10) + n mod 10) as Hdm by (apply Z.div_mod; lia).
  destruct (Z.eqb_spec (n / 10) 0) as [E|E].
  - exists [digit (n mod 10)]. split_and!; [done|done|by constructor|].
    intros v. cbn. rewrite Hd, Hc. f_equal. lia.
  - assert (0 <= n / 10) by (apply Z.div_pos; lia).
    assert (2 ^ Z.of_nat (S fuel) = 2 * 2 ^ Z.of_nat fuel) as Hp
      by (rewrite Nat2Z.inj_succ, Z.pow_succ_r by lia; done).
    destruct (IH (n / 10) (digit (n mod 10) :: acc)) as (ds & Hds & Hne & Hfd & Hv).
    { lia. }
    { destruct fuel; [|lia]. cbn in Hp. lia. }
    exists (ds ++ [digit (n mod 10)]). split_and!.
    + by rewrite Hds, <- app_assoc.
    + by destruct ds.
    + apply Forall_app. split; [done|by constructor].
    + intros v. rewrite value_of_app, Hv. cbn. rewrite Hd, Hc, length_app. cbn [length].
      rewrite Nat2Z.inj_add, Z.pow_add_r by lia. f_equal. change (10 ^ Z.of_nat 1) with 10. lia.
Qed.

Lemma Utoa_spec n :
  0 <= n -> Utoa n <> [] /\ Forall (fun c => is_digit c = true) (Utoa n) /\ value_of (Utoa n) 0 = Some n.
Proof.
  intros Hn. unfold Utoa. destruct (digits_of_spec (S (Z.to_nat (Z.log2 n))) n []) as (ds & -> & Hne & Hfd & Hv).
  { rewrite Nat2Z.inj_succ, Z2Nat.id by apply Z.log2_nonneg. split; [done|].
    destruct (Z.eq_dec n 0) as [->|]; [done|]. apply Z.log2_spec. lia. }
  { lia. }
  rewrite app_nil_r. split_and!; [done..|]. by rewrite Hv, Z.mul_0_l.
Qed.

(** A byte of a printed number is a digit or a minus sign. *)
Lemma Itoa_bytes n : Forall (fun c => is_digit c = true \/ c = "-"%char) (Itoa n).
Proof.
  unfold Itoa. destruct (Z.ltb_spec n 0).
  - constructor; [by right|]. destruct (Utoa_spec (- n)) as (_ & Hd & _); [lia|].
    apply (Forall_impl _ _ _ Hd). auto.
  - destruct (Utoa_spec n) as (_ & H' & _); [lia|]. apply (Forall_impl _ _ _ H'). auto.
Qed.

(** Printing and parsing. *)
Lemma Atoi_Itoa n : - 2 ^ 63 <= n < 2 ^ 63 -> Atoi (Itoa n) = Ok n.
Proof.
  intros Hn. unfold Atoi, ParseInt, Itoa. change (64 - 1) with 63. destruct (Z.ltb_spec n 0).
  - rewrite bool_decide_eq_true_2 by done. destruct (Utoa_spec (- n)) as (Hne & _ & Hv); [lia|].
    rewrite Hv. destruct (Utoa (- n)); [done|]. rewrite Z.opp_involutive.
    rewrite (proj2 (Z.ltb_ge _ _)), (proj2 (Z.leb_gt _ _)) by lia. done.
  - destruct (Utoa_spec n) as (Hne & Hd & Hv); [lia|]. destruct (Utoa n) as [|c s] eqn:E; [done|].
    apply Forall_cons in Hd as [Hc _]. rewrite !bool_decide_eq_false_2 by (intros ->; vm_compute in Hc; done).
    rewrite Hv. rewrite (proj2 (Z.ltb_ge _ _)), (proj2 (Z.leb_gt _ _)) by lia. done.
Qed.
