(* ===== verification/QueryLogger.v ===== *)
(** * The query logger (pkg/dns/query_logger.go)

    A bounded channel between the request handlers, which never block on it, and
    a pool of workers that write to the storage.  The calls are decomposed into
    their atomic steps (a channel operation, an atomic counter, the storage
    call, the wait on the workers) and a run is any interleaving of the steps of
    any number of callers, of the workers and of [Close].  [storage.LogQuery] is
    observed through the list of the calls made to it: its result is only
    printed. *)

From S2P Require Import Prelude.
From stdpp Require Import options.
Local Open Scope Z_scope.

Section query_logger.
Context {Entry : Type}.

(** ** State *)

(** A worker is at the head of its loop, has received an entry, has counted it
    out of the buffer, or has left the loop. *)
Inductive Worker := Receiving | Received (e : Entry) | Counted (e : Entry) | Exited.

(** [Close] has not been called, waits for the workers, or has returned. *)
Inductive Closing := NotClosing | Waiting | Finished.

(** [counting] is the number of callers of [LogAsync] between their send and
    their [buffered.Add(1)]; [logged] are the calls made to [LogQuery]. *)
Record QueryLogger := MkQL {
  logCh : list Entry; ch_cap : nat; ch_closed : bool;
  pool : list Worker; buffered : Z; dropped : Z; closeOnce : Closing;
  counting : nat; logged : list Entry }.

Definition set_ch (l : list Entry) (q : QueryLogger) : QueryLogger :=
  MkQL l (ch_cap q) (ch_closed q) (pool q) (buffered q) (dropped q) (closeOnce q) (counting q) (logged q).
Definition set_worker (i : nat) (w : Worker) (q : QueryLogger) : QueryLogger :=
  MkQL (logCh q) (ch_cap q) (ch_closed q) (<[i := w]> (pool q)) (buffered q) (dropped q) (closeOnce q)
    (counting q) (logged q).
Definition set_counts (b d : Z) (n : nat) (q : QueryLogger) : QueryLogger :=
  MkQL (logCh q) (ch_cap q) (ch_closed q) (pool q) b d (closeOnce q) n (logged q).
Definition set_closing (closed : bool) (c : Closing) (q : QueryLogger) : QueryLogger :=
  MkQL (logCh q) (ch_cap q) closed (pool q) (buffered q) (dropped q) c (counting q) (logged q).
Definition set_logged (l : list Entry) (q : QueryLogger) : QueryLogger :=
  MkQL (logCh q) (ch_cap q) (ch_closed q) (pool q) (buffered q) (dropped q) (closeOnce q) (counting q) l.

(** ** Operations *)

(** [make(chan T, bufferSize)] panics for a negative size; a negative number of
    workers starts none. *)
Definition NewQueryLogger (bufferSize workers : Z) : option QueryLogger :=
  if bufferSize <? 0 then None
  else Some (MkQL [] (Z.to_nat bufferSize) false (replicate (Z.to_nat workers) Receiving) 0 0
               NotClosing 0 []).

(** The outcome of a step: not possible now, a panic of the process, the new
    state. *)
Inductive Outcome := Blocked | Panics | Next (q : QueryLogger).

(** [case ql.logCh <- entry]: into the buffer when it has room. *)
Definition LogAsync_send (e : Entry) (q : QueryLogger) : Outcome :=
  if ch_closed q then Panics
  else if (length (logCh q) <? ch_cap q)%nat
       then Next (set_counts (buffered q) (dropped q) (S (counting q)) (set_ch (logCh q ++ [e]) q))
       else Blocked.

(** The same case when the buffer is empty and worker [i] waits to receive: the
    entry is handed over (the only way of an unbuffered channel).  A worker in
    [Receiving] may or may not have reached the receive already, so that with an
    unbuffered channel both this case and the [default] one are possible. *)
Definition LogAsync_handoff (e : Entry) (i : nat) (q : QueryLogger) : Outcome :=
  if ch_closed q then Panics
  else match logCh q, pool q !! i with
       | [], Some Receiving =>
           Next (set_counts (buffered q) (dropped q) (S (counting q)) (set_worker i (Received e) q))
       | _, _ => Blocked
       end.

(** [ql.buffered.Add(1)] after the send. *)
Definition LogAsync_count (q : QueryLogger) : Outcome :=
  match counting q with
  | O => Blocked
  | S n => Next (set_counts (wrapu 64 (buffered q + 1)) (dropped q) n q)
  end.

(** The [default] case: the buffer is full; [storage.ErrBufferFull]. *)
Definition LogAsync_drop (e : Entry) (q : QueryLogger) : Outcome :=
  if ch_closed q then Panics
  else if (length (logCh q) <? ch_cap q)%nat then Blocked
  else Next (set_counts (buffered q) (wrapu 64 (dropped q + 1)) (counting q) q).

(** [for entry := range ql.logCh]: the next entry, or the end of the loop when
    the channel is closed and empty. *)
Definition worker_receive (i : nat) (q : QueryLogger) : Outcome :=
  match pool q !! i with
  | Some Receiving =>
      match logCh q with
      | e :: l => Next (set_ch l (set_worker i (Received e) q))
      | [] => if ch_closed q then Next (set_worker i Exited q) else Blocked
      end
  | _ => Blocked
  end.

(** [ql.buffered.Add(^uint64(0))]. *)
Definition worker_count (i : nat) (q : QueryLogger) : Outcome :=
  match pool q !! i with
  | Some (Received e) =>
      Next (set_counts (wrapu 64 (buffered q + (2 ^ 64 - 1))) (dropped q) (counting q)
              (set_worker i (Counted e) q))
  | _ => Blocked
  end.

(** [ql.storage.LogQuery(logCtx, entry)]; an error is only printed. *)
Definition worker_log (i : nat) (q : QueryLogger) : Outcome :=
  match pool q !! i with
  | Some (Counted e) => Next (set_logged (logged q ++ [e]) (set_worker i Receiving q))
  | _ => Blocked
  end.

(** [Close]: the first call closes the channel; ... *)
Definition Close_close (q : QueryLogger) : Outcome :=
  match closeOnce q with
  | NotClosing => Next (set_closing true Waiting q)
  | _ => Blocked
  end.

Definition is_exited (w : Worker) : bool := match w with Exited => true | _ => false end.

(** ... [ql.wg.Wait()] returns when every worker has left its loop, and with it
    every call of [Close] (the others wait on [closeOnce]). *)
Definition Close_wait (q : QueryLogger) : Outcome :=
  match closeOnce q with
  | Waiting => if forallb is_exited (pool q) then Next (set_closing true Finished q) else Blocked
  | _ => Blocked
  end.

Definition Stats (q : QueryLogger) : Z * Z := (buffered q, dropped q).
Definition BufferSize (q : QueryLogger) : nat := length (logCh q).
Definition BufferCapacity (q : QueryLogger) : nat := ch_cap q.

(** ** Runs *)

Inductive Step :=
| Send (e : Entry) | Handoff (e : Entry) (i : nat) | Count | Drop (e : Entry)
| Receive (i : nat) | Uncount (i : nat) | Log (i : nat)
| CloseChannel | CloseReturn.

Definition run_step (s : Step) : QueryLogger -> Outcome :=
  match s with
  | Send e => LogAsync_send e
  | Handoff e i => LogAsync_handoff e i
  | Count => LogAsync_count
  | Drop e => LogAsync_drop e
  | Receive i => worker_receive i
  | Uncount i => worker_count i
  | Log i => worker_log i
  | CloseChannel => Close_close
  | CloseReturn => Close_wait
  end.

Fixpoint run (tr : list Step) (q : QueryLogger) : Outcome :=
  match tr with
  | [] => Next q
  | s :: tr' => match run_step s q with Next q' => run tr' q' | o => o end
  end.

(** The entries a run accepted and dropped, in order. *)
Definition accepted (tr : list Step) : list Entry :=
  omap (fun s => match s with Send e | Handoff e _ => Some e | _ => None end) tr.
Definition rejected (tr : list Step) : list Entry :=
  omap (fun s => match s with Drop e => Some e | _ => None end) tr.

Definition is_worker_step (s : Step) : bool :=
  match s with Receive _ | Uncount _ | Log _ => true | _ => false end.

(** What a worker holds, what it has taken from the buffer without counting. *)
Definition held (w : Worker) : list Entry :=
  match w with Received e | Counted e => [e] | _ => [] end.
Definition uncounted (w : Worker) : list Entry :=
  match w with Received e => [e] | _ => [] end.
Definition holding (ws : list Worker) : list Entry := flat_map held ws.
Definition unaccounted (ws : list Worker) : list Entry := flat_map uncounted ws.

(** What [buffered] is meant to count: the entries in the buffer or received and
    not yet counted out, less the sends not yet counted in. *)
Definition balance (q : QueryLogger) : Z :=
  Z.of_nat (length (logCh q)) + Z.of_nat (length (unaccounted (pool q))) - Z.of_nat (counting q).

(** ** The invariant of the runs *)

Lemma pool_split (l : list (Worker)) (i : nat) (w : Worker) :
  l !! i = Some w -> exists l1 l2, l = l1 ++ w :: l2 /\ forall w', <[i := w']> l = l1 ++ w' :: l2.
Proof.
  intros H. exists (take i l), (drop (S i) l). split; [by rewrite take_drop_middle|].
  intros w'. apply insert_take_drop. eauto using lookup_lt_Some.
Qed.

(** The effect of moving worker [i] from [w] to [w'] on what the pool holds. *)
Lemma move_worker (l : list Worker) i w :
  l !! i = Some w ->
  exists h1 h2 u1 u2, holding l = h1 ++ held w ++ h2 /\ unaccounted l = u1 ++ uncounted w ++ u2 /\
    forall w', holding (<[i := w']> l) = h1 ++ held w' ++ h2 /\
      unaccounted (<[i := w']> l) = u1 ++ uncounted w' ++ u2.
Proof.
  intros Hi. destruct (pool_split _ _ _ Hi) as (l1 & l2 & Hl & Hins).
  exists (holding l1), (holding l2), (unaccounted l1), (unaccounted l2).
  unfold holding, unaccounted. split_and!.
  - by rewrite Hl, flat_map_app.
  - by rewrite Hl, flat_map_app.
  - intros w'. rewrite Hins. by rewrite !flat_map_app.
Qed.

(** Everything accepted is in the storage, in the hands of a worker or in the
    buffer; the counters say what they count, modulo 2^64. *)
Record inv (tr : list Step) (n c : nat) (q : QueryLogger) : Prop := MkInv {
  inv_entries : logged q ++ holding (pool q) ++ logCh q ≡ₚ accepted tr;
  inv_cap : ch_cap q = c;
  inv_room : (length (logCh q) <= ch_cap q)%nat;
  inv_pool : length (pool q) = n;
  inv_buffered : buffered q = wrapu 64 (balance q);
  inv_dropped : dropped q = wrapu 64 (Z.of_nat (length (rejected tr)));
  inv_open : ch_closed q = false <-> closeOnce q = NotClosing;
  inv_exited : Exited ∈ pool q -> ch_closed q = true /\ logCh q = [];
  inv_finished : closeOnce q = Finished -> forallb is_exited (pool q) = true }.

Lemma wrapu64_step (a b k : Z) : a = wrapu 64 b -> wrapu 64 (a + k) = wrapu 64 (b + k).
Proof. intros ->. unfold wrapu. by rewrite Zplus_mod_idemp_l. Qed.

Lemma wrapu64_pred (a : Z) : wrapu 64 (a + (2 ^ 64 - 1)) = wrapu 64 (a + -1).
Proof.
  unfold wrapu. replace (a + (2 ^ 64 - 1)) with (a + -1 + 1 * 2 ^ 64) by lia. by rewrite Z_mod_plus_full.
Qed.

Lemma wrapu64_same (a b k : Z) : a = wrapu 64 b -> k = 0 -> a = wrapu 64 (a + k).
Proof. intros H ->. by rewrite (wrapu64_step _ _ _ H), Z.add_0_r. Qed.

Lemma accepted_snoc tr s : accepted (tr ++ [s]) = accepted tr ++ accepted [s].
Proof. apply omap_app. Qed.
Lemma rejected_snoc tr s : rejected (tr ++ [s]) = rejected tr ++ rejected [s].
Proof. apply omap_app. Qed.

(** What a step changes, for the conservation laws. *)
Definition moves (s : Step) (q q' : QueryLogger) : Prop :=
  logged q' ++ holding (pool q') ++ logCh q' ≡ₚ (logged q ++ holding (pool q) ++ logCh q) ++ accepted [s] /\
  ch_cap q' = ch_cap q /\ length (pool q') = length (pool q) /\
  ((length (logCh q) <= ch_cap q)%nat -> (length (logCh q') <= ch_cap q)%nat) /\
  buffered q' = wrapu 64 (buffered q + (balance q' - balance q)) /\
  dropped q' = wrapu 64 (dropped q + Z.of_nat (length (rejected [s]))).

Ltac step_inv H :=
  repeat match type of H with
  | (if ?b then _ else _) = _ => let E := fresh "E" in destruct b eqn:E; try discriminate H
  | match ?o with _ => _ end = _ => let E := fresh "E" in destruct o eqn:E; try discriminate H
  end; injection H as <-; bsimpl.

Ltac step_cases s H :=
  destruct s as [e|e i| |e|i|i|i| |]; cbn [run_step] in H;
    unfold LogAsync_send, LogAsync_handoff, LogAsync_count, LogAsync_drop, worker_receive,
      worker_count, worker_log, Close_close, Close_wait in H; step_inv H;
    cbn [set_counts set_ch set_closing set_logged set_worker logged logCh ch_cap ch_closed pool buffered
      dropped counting closeOnce].

Lemma step_moves s q q' b d :
  buffered q = wrapu 64 b -> dropped q = wrapu 64 d -> run_step s q = Next q' -> moves s q q'.
Proof.
  intros Hb Hd Hs. unfold moves, balance. step_cases s Hs;
    try match goal with Hi : pool _ !! _ = Some _ |- _ =>
      destruct (move_worker _ _ _ Hi) as (h1 & h2 & u1 & u2 & Hh & Hu & Hm) end;
    rewrite ?length_insert; cbn [accepted rejected omap list_omap length].
  all: repeat match goal with Hm : forall w', _ |- context [<[_ := ?w]> _] =>
      destruct (Hm w) as [-> ->]; rewrite Hh, Hu end.
  all: repeat match goal with E : logCh _ = _ |- _ => rewrite E | E : counting _ = _ |- _ => rewrite E end.
  all: cbn [held uncounted]; rewrite ?length_app; cbn [length].
  all: split_and!; try done; try lia; try solve_Permutation.
  all: try (apply (wrapu64_same _ _ _ Hb); lia); try (apply (wrapu64_same _ _ _ Hd); lia).
  all: try (f_equal; lia).
  rewrite wrapu64_pred. f_equal. lia.
Qed.

Lemma exited_insert (l : list Worker) i w : Exited ∈ <[i := w]> l -> w = Exited \/ Exited ∈ l.
Proof.
  intros H. apply list_elem_of_lookup in H as [j Hj].
  destruct (decide (i = j)) as [<-|Hne].
  - destruct (decide (i < length l)%nat).
    + rewrite list_lookup_insert_eq in Hj by done. left. congruence.
    + rewrite list_insert_ge in Hj by lia. right. apply list_elem_of_lookup. eauto.
  - rewrite list_lookup_insert_ne in Hj by done. right. apply list_elem_of_lookup. eauto.
Qed.

Lemma all_exited (l : list Worker) : forallb is_exited l = true -> l = replicate (length l) Exited.
Proof.
  induction l as [|w l IH]; [done|]. cbn [forallb length replicate]. intros H. bsimpl.
  destruct w; try done. f_equal. auto.
Qed.

Lemma exited_lookup (l : list Worker) i w :
  forallb is_exited l = true -> l !! i = Some w -> w = Exited.
Proof. intros ->%all_exited H. by apply lookup_replicate in H as [-> _]. Qed.

(** The part of the invariant about the end of the channel and of the workers. *)
Definition ending (q : QueryLogger) : Prop :=
  (ch_closed q = false <-> closeOnce q = NotClosing) /\
  (Exited ∈ pool q -> ch_closed q = true /\ logCh q = []) /\
  (closeOnce q = Finished -> forallb is_exited (pool q) = true).

Lemma step_ending s q q' : ending q -> run_step s q = Next q' -> ending q'.
Proof.
  intros (Ho & Hx & Hf) Hs. unfold ending. step_cases s Hs; split_and!; try done;
    try (intros H; apply exited_insert in H as [?|H]; [done|]); intros;
    try match goal with
    | H : Exited ∈ pool _ |- _ => destruct (Hx H) as [Hcl Hch]
    | H : closeOnce _ = Finished, Hi : pool _ !! _ = Some _ |- _ =>
        by specialize (exited_lookup _ _ _ (Hf H) Hi)
    end; try done; try congruence; naive_solver.
Qed.

Lemma inv_step tr n c s q q' : inv tr n c q -> run_step s q = Next q' -> inv (tr ++ [s]) n c q'.
Proof.
  intros [He Hc Hcl Hn Hb Hd Ho Hx Hf] Hs.
  destruct (step_moves _ _ _ _ _ Hb Hd Hs) as (Me & Mc & Mn & Ml & Mb & Md).
  destruct (step_ending s q q') as (Eo & Ex & Ef); [done..|].
  split; try done; try congruence.
  - by rewrite Me, accepted_snoc, He.
  - rewrite Mc. auto.
  - rewrite Mb, (wrapu64_step _ _ _ Hb). f_equal. lia.
  - rewrite Md, (wrapu64_step _ _ _ Hd), rejected_snoc, length_app. f_equal. lia.
Qed.

Lemma run_app tr1 tr2 q : run (tr1 ++ tr2) q = match run tr1 q with Next q' => run tr2 q' | o => o end.
Proof.
  revert q. induction tr1 as [|s tr IH]; intros q; [done|]. cbn. by destruct (run_step s q).
Qed.

Lemma run_inv tr0 tr n c q q' : inv tr0 n c q -> run tr q = Next q' -> inv (tr0 ++ tr) n c q'.
Proof.
  revert tr0 q. induction tr as [|s tr IH]; intros tr0 q Hi Hr.
  - rewrite app_nil_r. by injection Hr as <-.
  - cbn in Hr. destruct (run_step s q) as [| |q1] eqn:Es; try done.
    replace (tr0 ++ s :: tr) with ((tr0 ++ [s]) ++ tr) by (by rewrite <- app_assoc).
    eauto using inv_step.
Qed.

Lemma inv_init b w q : NewQueryLogger b w = Some q -> inv [] (Z.to_nat w) (Z.to_nat b) q.
Proof.
  unfold NewQueryLogger. destruct (b <? 0); [done|]. intros [= <-].
  assert (forall n, holding (replicate n Receiving) = [] /\ unaccounted (replicate n Receiving) = []) as Hr.
  { intros n. induction n; [done|]. naive_solver. }
  specialize (Hr (Z.to_nat w)) as [Hh Hu].
  split; cbn; rewrite ?length_replicate; try done; try lia.
  - by rewrite app_nil_r, (Hh : flat_map held _ = []).
  - change (0 = wrapu 64 (0 + Z.of_nat (length (unaccounted (replicate (Z.to_nat w) Receiving))) - 0)).
    by rewrite Hu.
  - intros H%elem_of_replicate_inv. done.
Qed.

Lemma reachable_inv b w tr q0 q :
  NewQueryLogger b w = Some q0 -> run tr q0 = Next q -> inv tr (Z.to_nat w) (Z.to_nat b) q.
Proof. intros H Hr. apply (run_inv [] tr _ _ q0); [by apply inv_init|done]. Qed.

(** ** Conservation of entries *)

(** With one worker the entries keep their order. *)
Lemma step_fifo s q q' :
  length (pool q) = 1%nat -> run_step s q = Next q' ->
  length (pool q') = 1%nat /\
  logged q' ++ holding (pool q') ++ logCh q' = (logged q ++ holding (pool q) ++ logCh q) ++ accepted [s].
Proof.
  intros Hl Hs. destruct (pool q) as [|w [|]] eqn:Ep; try done. clear Hl.
  step_cases s Hs; rewrite ?Ep, ?length_insert;
    try match goal with
    | Hi : pool _ !! ?i = Some _ |- _ => rewrite Ep in Hi; destruct i; [|done]; injection Hi as ->
    end; cbn; repeat match goal with E : logCh _ = _ |- _ => rewrite E end;
    rewrite ?app_nil_r, <- ?app_assoc; done.
Qed.

Lemma run_fifo tr q q' :
  length (pool q) = 1%nat -> run tr q = Next q' ->
  logged q' ++ holding (pool q') ++ logCh q' = (logged q ++ holding (pool q) ++ logCh q) ++ accepted tr.
Proof.
  revert q. induction tr as [|s tr IH]; intros q Hl Hr.
  { injection Hr as <-. cbn. by rewrite app_nil_r. }
  cbn in Hr. destruct (run_step s q) as [| |q1] eqn:Es; try done.
  destruct (step_fifo s q q1 Hl Es) as [Hl1 E1]. rewrite (IH q1 Hl1 Hr), E1, <- app_assoc. f_equal.
  symmetry. apply (omap_app _ [s] tr).
Qed.

(** No query is lost or logged twice: in every interleaving of callers,
    workers and [Close], the accepted entries are exactly those handed to the
    storage, held by a worker or in the buffer (in their order when there is one
    worker); the buffer keeps its capacity, the drop counter is the number of
    refused entries modulo 2^64; and when [Close] has returned, with at least
    one worker, everything accepted has been handed to the storage. *)
Theorem query_log_conservation (b w : Z) (tr : list Step) (q0 q : QueryLogger) :
  NewQueryLogger b w = Some q0 -> run tr q0 = Next q ->
  logged q ++ holding (pool q) ++ logCh q ≡ₚ accepted tr /\
  (w = 1 -> logged q ++ holding (pool q) ++ logCh q = accepted tr) /\
  (BufferSize q <= BufferCapacity q)%nat /\ Z.of_nat (BufferCapacity q) = b /\
  (Stats q).2 = wrapu 64 (Z.of_nat (length (rejected tr))) /\
  (0 < w -> closeOnce q = Finished -> logged q ≡ₚ accepted tr).
Proof.
  intros H0 Hr. destruct (reachable_inv _ _ _ _ _ H0 Hr) as [He Hc Hcl Hn Hb Hd Ho Hx Hf].
  split_and!; try done.
  - intros ->. unfold NewQueryLogger in H0. destruct (b <? 0); [done|]. injection H0 as <-.
    by apply (run_fifo tr) in Hr.
  - unfold BufferCapacity. rewrite Hc. unfold NewQueryLogger in H0. destruct (Z.ltb_spec b 0); [done|]. lia.
  - intros Hw Hfin. rewrite <- He. specialize (all_exited _ (Hf Hfin)) as Hp. rewrite Hn in Hp.
    assert (logCh q = []) as ->.
    { apply Hx. rewrite Hp. destruct (Z.to_nat w) eqn:E; [lia|]. by left. }
    assert (forall n, holding (replicate n Exited) = []) as Hh by (intros n; by induction n).
    by rewrite Hp, Hh, !app_nil_r.
Qed.

(** ** The counter of buffered entries *)

(** [buffered] is the number of entries in the buffer or received and not
    counted out, less the sends not yet counted in, modulo 2^64: it is right
    when no caller is between its send and its count, and a worker that is
    faster than the caller makes [Stats] report 2^64 - 1 buffered entries. *)
Theorem buffered_counter (b w : Z) (q0 : QueryLogger) :
  NewQueryLogger b w = Some q0 ->
  (forall tr q, run tr q0 = Next q -> counting q = O ->
     Z.of_nat (BufferSize q + length (unaccounted (pool q))) < 2 ^ 64 ->
     (Stats q).1 = Z.of_nat (BufferSize q + length (unaccounted (pool q)))) /\
  (forall e, 0 < b -> 0 < w ->
     exists q, run [Send e; Receive 0; Uncount 0] q0 = Next q /\ (Stats q).1 = 2 ^ 64 - 1 /\ BufferSize q = O).
Proof.
  intros H0. split.
  - intros tr q Hr Hc Hsmall. destruct (reachable_inv _ _ _ _ _ H0 Hr) as [_ _ _ _ Hb _ _ _ _].
    unfold Stats, BufferSize in *. cbn [fst]. rewrite Hb. unfold balance. rewrite Hc.
    rewrite wrapu_small; lia.
  - intros e Hb Hw. unfold NewQueryLogger in H0. destruct (b <? 0); [done|]. injection H0 as <-.
    destruct (Z.to_nat b) as [|nb] eqn:Eb; [lia|]. destruct (Z.to_nat w) as [|nw] eqn:Ew; [lia|].
    eexists. split; [reflexivity|]. done.
Qed.

(** [LogAsync] panics (send on a closed channel) in a state reached by a run
    exactly when [Close] has been called, whatever the room in the buffer; no
    other operation ever panics. *)
Theorem log_after_close_panics (b w : Z) (tr : list Step) (q0 q : QueryLogger) (s : Step) :
  NewQueryLogger b w = Some q0 -> run tr q0 = Next q ->
  run_step s q = Panics <->
  closeOnce q <> NotClosing /\ match s with Send _ | Handoff _ _ | Drop _ => True | _ => False end.
Proof.
  intros H0 Hr. destruct (reachable_inv _ _ _ _ _ H0 Hr) as [_ _ _ _ _ _ Ho _ _].
  destruct s as [e|e i| |e|i|i|i| |]; cbn [run_step];
    unfold LogAsync_send, LogAsync_handoff, LogAsync_count, LogAsync_drop, worker_receive,
      worker_count, worker_log, Close_close, Close_wait;
    destruct (ch_closed q) eqn:Ecl; repeat case_match; naive_solver.
Qed.

(** ** Termination of [Close] *)

(** The steps the workers still have to take once the channel is closed: three
    for an entry in the buffer, and those to the end of the loop for each
    worker. *)
Definition weight (w : Worker) : nat :=
  match w with Receiving => 1 | Received _ => 3 | Counted _ => 2 | Exited => 0 end.
Definition drain (q : QueryLogger) : nat := (3 * length (logCh q) + sum_list_with weight (pool q))%nat.

Lemma weight_insert (l : list Worker) i w w' :
  l !! i = Some w ->
  (sum_list_with weight (<[i := w']> l) + weight w = sum_list_with weight l + weight w')%nat.
Proof.
  intros Hi. destruct (pool_split _ _ _ Hi) as (l1 & l2 & -> & Hins).
  rewrite Hins, !sum_list_with_app. cbn. lia.
Qed.

Lemma drain_step s q q' :
  is_worker_step s = true -> run_step s q = Next q' ->
  drain q = S (drain q') /\ ch_closed q' = ch_closed q /\ closeOnce q' = closeOnce q.
Proof.
  intros Hw Hs. unfold drain. destruct s; try discriminate Hw; cbn [run_step] in Hs;
    unfold worker_receive, worker_count, worker_log in Hs; step_inv Hs;
    cbn [set_counts set_ch set_logged set_worker logCh pool ch_closed closeOnce];
    (split; [|done]);
    match goal with Hi : pool _ !! ?i = Some _ |- context [<[_ := ?w']> _] =>
      pose proof (weight_insert _ _ _ w' Hi) as Hwt; cbn [weight] in Hwt end;
    repeat match goal with E : logCh _ = _ |- _ => rewrite E end; cbn [length]; lia.
Qed.

Lemma drain_run ws q q' :
  Forall (fun s => is_worker_step s = true) ws -> run ws q = Next q' ->
  drain q = (length ws + drain q')%nat /\ ch_closed q' = ch_closed q /\ closeOnce q' = closeOnce q.
Proof.
  revert q. induction ws as [|s ws IH]; intros q Hf Hr; [by injection Hr as <-|].
  apply Forall_cons in Hf as [Hs Hf]. cbn in Hr. destruct (run_step s q) as [| |q1] eqn:Es; try done.
  destruct (drain_step s q q1 Hs Es) as (H1 & H2 & H3). destruct (IH q1 Hf Hr) as (H4 & H5 & H6).
  cbn [length]. split_and!; [lia|congruence..].
Qed.

(** On a closed channel some worker can move as long as one is in its loop. *)
Lemma worker_progress q :
  ch_closed q = true -> forallb is_exited (pool q) = false ->
  exists s q', is_worker_step s = true /\ run_step s q = Next q'.
Proof.
  intros Hcl Hne.
  assert (exists i w, pool q !! i = Some w /\ is_exited w = false) as (i & w & Hi & Hw).
  { revert Hne. induction (pool q) as [|w l IH]; [done|]. cbn [forallb]. intros H.
    destruct (is_exited w) eqn:E; [|exists O, w; done]. destruct (IH H) as (i & w' & ? & ?).
    by exists (S i), w'. }
  destruct w as [|e|e|]; try done.
  - exists (Receive i). cbn [run_step]. unfold worker_receive. rewrite Hi, Hcl.
    destruct (logCh q); eauto.
  - exists (Uncount i). cbn [run_step]. unfold worker_count. rewrite Hi. eauto.
  - exists (Log i). cbn [run_step]. unfold worker_log. rewrite Hi. eauto.
Qed.

Lemma drain_reachable k q :
  drain q = k -> ch_closed q = true ->
  exists ws q', Forall (fun s => is_worker_step s = true) ws /\ run ws q = Next q' /\
    forallb is_exited (pool q') = true.
Proof.
  revert q. induction k as [|k IH]; intros q Hk Hcl;
    (destruct (forallb is_exited (pool q)) eqn:Ex; [by exists [], q|]);
    destruct (worker_progress q Hcl Ex) as (s & q1 & Hs & E1);
    destruct (drain_step s q q1 Hs E1) as (H1 & H2 & H3); [lia|].
  destruct (IH q1 ltac:(lia) ltac:(congruence)) as (ws & q' & Hf & Hr & Hx).
  exists (s :: ws), q'. split_and!; [by constructor|cbn; by rewrite E1|done].
Qed.

(** C18: [Close] returns: once the channel is closed the workers take at most
    [drain q] steps in any schedule; when no worker can move, [Close] returns
    (the workers are never stuck), and the accepted entries are all logged; and
    such a schedule exists. *)
Theorem close_terminates (b w : Z) (tr : list Step) (q0 q : QueryLogger) :
  NewQueryLogger b w = Some q0 -> 0 < w -> run tr q0 = Next q -> closeOnce q = Waiting ->
  (forall ws q', Forall (fun s => is_worker_step s = true) ws -> run ws q = Next q' ->
     (length ws <= drain q)%nat /\
     ((forall s, is_worker_step s = true -> run_step s q' = Blocked) ->
        exists q'', Close_wait q' = Next q'' /\ logged q'' ≡ₚ accepted tr)) /\
  (exists ws q', Forall (fun s => is_worker_step s = true) ws /\ run ws q = Next q' /\
     exists q'', Close_wait q' = Next q'').
Proof.
  intros H0 Hw0 Hr Hwait.
  assert (ch_closed q = true) as Hcl.
  { destruct (reachable_inv _ _ _ _ _ H0 Hr) as [_ _ _ _ _ _ Ho _ _].
    destruct (ch_closed q); [done|]. by rewrite (proj1 Ho eq_refl) in Hwait. }
  split.
  - intros ws q' Hf Hws. destruct (drain_run ws q q' Hf Hws) as (Hd & Hc' & Hw'). split; [lia|].
    intros Hstuck. assert (forallb is_exited (pool q') = true) as Hx.
    { destruct (forallb is_exited (pool q')) eqn:Ex; [done|].
      destruct (worker_progress q' ltac:(congruence) Ex) as (s & q1 & Hs & E1). by rewrite Hstuck in E1. }
    eexists. unfold Close_wait. rewrite Hw', Hwait, Hx. split; [done|]. cbn [set_closing logged].
    assert (run (tr ++ ws) q0 = Next q') as Hr' by (by rewrite run_app, Hr).
    destruct (reachable_inv _ _ _ _ _ H0 Hr') as [He _ _ Hn _ _ _ Hxe _].
    assert (accepted ws = []) as Ha.
    { clear -Hf. induction Hf as [|s ws Hs Hf IH]; [done|]. unfold accepted in *.
      rewrite omap_cons_eq. by destruct s. }
    unfold accepted in He. rewrite omap_app in He. fold (accepted tr) (accepted ws) in He.
    rewrite Ha, app_nil_r in He. rewrite <- He. rewrite (all_exited _ Hx) in Hxe |- *.
    destruct Hxe as [_ ->]; [rewrite Hn; destruct (Z.to_nat w) eqn:E; [lia|by left]|].
    assert (forall n, holding (replicate n Exited) = []) as Hh by (intros n; by induction n).
    by rewrite Hh, !app_nil_r.
  - destruct (drain_reachable _ q eq_refl Hcl) as (ws & q' & Hf & Hws & Hx).
    exists ws, q'. split_and!; [done..|]. destruct (drain_run ws q q' Hf Hws) as (_ & _ & Hw').
    unfold Close_wait. rewrite Hw', Hwait, Hx. eauto.
Qed.

End query_logger.
Arguments QueryLogger : clear implicits.
Arguments Worker : clear implicits.
Arguments Step : clear implicits.
Arguments Outcome : clear implicits.

(** ** Witnesses *)

Lemma query_log_conservation_witness :
  let q0 := MkQL [] 2 false [Receiving] 0 0 NotClosing 0 [] in
  let q := MkQL [2%nat] 2 false [Counted 1%nat] 0 0 NotClosing 1 [] in
  NewQueryLogger 2 1 = Some q0 /\ run [Send 1%nat; Send 2%nat; Receive 0; Uncount 0; Count] q0 = Next q /\
  logged q ++ holding (pool q) ++ logCh q = [1%nat; 2%nat].
Proof.
  intros q0 q. assert (NewQueryLogger 2 1 = Some q0) as H0 by reflexivity.
  assert (run [Send 1%nat; Send 2%nat; Receive 0; Uncount 0; Count] q0 = Next q) as Hr by reflexivity.
  split; [done|]. split; [done|].
  exact (proj1 (proj2 (query_log_conservation 2 1 _ q0 q H0 Hr)) eq_refl).
Defined.

Lemma buffered_counter_witness :
  exists q : QueryLogger nat,
    run [Send 7%nat; Receive 0; Uncount 0] (MkQL [] 5000 false [Receiving; Receiving] 0 0 NotClosing 0 []) = Next q /\
    (Stats q).1 = 2 ^ 64 - 1.
Proof.
  destruct (proj2 (buffered_counter 5000 2 _ eq_refl) 7%nat ltac:(lia) ltac:(lia)) as (q & Hq & Hs & _).
  exists q. split; [exact Hq|exact Hs].
Defined.

Lemma log_after_close_panics_witness :
  run_step (Send 2%nat) (MkQL [] 1 true [Receiving] 0 0 Waiting 0 []) = Panics.
Proof.
  apply (log_after_close_panics 1 1 [CloseChannel] (MkQL [] 1 false [Receiving] 0 0 NotClosing 0 []));
    [reflexivity|reflexivity|]. by split.
Defined.

Lemma close_terminates_witness :
  exists ws (q' : QueryLogger nat), run ws (MkQL [1%nat] 3 true [Receiving] 1 0 Waiting 0 []) = Next q' /\
    exists q'', Close_wait q' = Next q''.
Proof.
  destruct (proj2 (close_terminates 3 1 [Send 1%nat; Count; CloseChannel] _
    (MkQL [1%nat] 3 true [Receiving] 1 0 Waiting 0 []) eq_refl ltac:(lia) eq_refl eq_refl))
    as (ws & q' & _ & Hr & Hc).
  exists ws, q'. split; [exact Hr|exact Hc].
Defined.
