(* ===== verification/RateLimit.v ===== *)
(** * The API rate limiter (pkg/api/middleware_ratelimit.go)

    Token buckets per client: [newRateLimiter], [allow], [cleanup] and the
    limits of [rateLimitMiddleware].  A float64 is the rational number it
    denotes; every arithmetic operation is the exact one followed by the rounding
    [rnd] of IEEE 754, of which only monotonicity, exactness on the small
    integers and the relative error of one unit in 2^53 are used.  Infinities and
    the gradual underflow near zero do not occur at these magnitudes (an elapsed
    time is a whole number of nanoseconds).  A call of [allow] is atomic. *)

From Stdlib Require Import QArith Qabs Lqa.
From S2P Require Import Prelude GoStrings.
From stdpp Require Import options.
Local Open Scope Z_scope.

Definition second : Z := 1000000000.

(** ** Rounding *)

Class Rounding := rnd : Q -> Q.

Definition ulp : Q := 1 # (2 ^ 52).

Class RoundingOk (R : Rounding) : Prop := {
  rnd_mono : forall x y, (x <= y)%Q -> (rnd x <= rnd y)%Q;
  rnd_int : forall n, 0 <= n <= 2 ^ 53 -> (rnd (inject_Z n) == inject_Z n)%Q;
  rnd_up : forall x, (0 <= x)%Q -> (rnd x <= x * (1 + ulp))%Q;
  rnd_down : forall x, (0 <= x)%Q -> (x * (1 - ulp) <= rnd x)%Q }.

(** ** Model *)

Record bucket := MkBucket { tokens : Q; lastTime : Z }.

Record rateLimiter := MkRL {
  buckets : gmap gostring bucket; rate : Q; burst : Z; lastClean : Z }.

Definition Unix (now : Z) : Z := now / second.

Definition newRateLimiter (now : Z) (requestsPerSecond : Q) (b : Z) : rateLimiter :=
  MkRL ∅ requestsPerSecond b (Unix now).

Definition stale_after : Z := 5 * 60 * second.

(** [cleanup]: entries not seen for over five minutes are removed. *)
Definition cleanup (now : Z) (rl : rateLimiter) : rateLimiter :=
  MkRL (filter (fun kv => ¬ (lastTime kv.2 < now - stale_after)) (buckets rl)) (rate rl) (burst rl) (Unix now).

Section limiter.
Context {R : Rounding}.

(** The tokens after [ns] nanoseconds: [elapsed * rate] more, at most [burst]. *)
Definition replenish (rl : rateLimiter) (t : Q) (ns : Z) : Q :=
  let elapsed := rnd (rnd (inject_Z ns) / rnd (inject_Z second)) in
  let t' := rnd (t + rnd (elapsed * rate rl)) in
  if Qle_bool t' (rnd (inject_Z (burst rl))) then t' else rnd (inject_Z (burst rl)).

(** A request at [now] on a bucket: the verdict and the bucket after it. *)
Definition take_token (rl : rateLimiter) (now : Z) (b : bucket) : bool * bucket :=
  let t := replenish rl (tokens b) (now - lastTime b) in
  if Qle_bool 1 t then (true, MkBucket (rnd (t - 1)) now) else (false, MkBucket t now).

Definition lazy_cleanup (now : Z) (rl : rateLimiter) : rateLimiter :=
  if 60 <? Unix now - lastClean rl then cleanup now rl else rl.

Definition load_or_store (key : gostring) (now : Z) (rl : rateLimiter) : bucket :=
  default (MkBucket (rnd (inject_Z (burst rl))) now) (buckets rl !! key).

Definition allow (key : gostring) (now : Z) (rl : rateLimiter) : bool * rateLimiter :=
  let rl := lazy_cleanup now rl in
  let '(ok, b) := take_token rl now (load_or_store key now rl) in
  (ok, MkRL (<[key := b]> (buckets rl)) (rate rl) (burst rl) (lastClean rl)).

(** The two limiters of [rateLimitMiddleware] and its two checks: the verdict is
    [None] to go on, or the [Retry-After] value and message of the 429. *)
Record Limiters := MkLimiters { loginLimiter : rateLimiter; apiLimiter : rateLimiter }.

Definition newLimiters (now : Z) : Limiters :=
  MkLimiters (newRateLimiter now (rnd (5 # 60)) 5) (newRateLimiter now 60 120).

Definition rateLimit (now : Z) (isPost : bool) (path clientIP : gostring) (l : Limiters)
    : option (gostring * gostring) * Limiters :=
  let '(ok1, login) :=
    if bytes_eqb path (str "/login") && isPost then allow clientIP now (loginLimiter l)
    else (true, loginLimiter l) in
  if negb ok1 then (Some (str "60", str "Too many login attempts"), MkLimiters login (apiLimiter l))
  else
    let '(ok2, api) :=
      if (4 <=? length path)%nat && bytes_eqb (take 4 path) (str "/api") then allow clientIP now (apiLimiter l)
      else (true, apiLimiter l) in
    if negb ok2 then (Some (str "1", str "Rate limit exceeded"), MkLimiters login api)
    else (None, MkLimiters login api).

(** ** Runs *)

(** The verdicts on a sequence of requests. *)
Fixpoint serve (reqs : list (gostring * Z)) (rl : rateLimiter) : list bool * rateLimiter :=
  match reqs with
  | [] => ([], rl)
  | (k, now) :: reqs' =>
      let '(ok, rl') := allow k now rl in
      let '(oks, rl'') := serve reqs' rl' in (ok :: oks, rl'')
  end.

(** The limiter without cleanup. *)
Definition allow_ideal (key : gostring) (now : Z) (rl : rateLimiter) : bool * rateLimiter :=
  let '(ok, b) := take_token rl now (load_or_store key now rl) in
  (ok, MkRL (<[key := b]> (buckets rl)) (rate rl) (burst rl) (lastClean rl)).

Fixpoint serve_ideal (reqs : list (gostring * Z)) (rl : rateLimiter) : list bool * rateLimiter :=
  match reqs with
  | [] => ([], rl)
  | (k, now) :: reqs' =>
      let '(ok, rl') := allow_ideal k now rl in
      let '(oks, rl'') := serve_ideal reqs' rl' in (ok :: oks, rl'')
  end.

(** ** Arithmetic of the buckets *)

Context {RO : RoundingOk R}.

#[local] Instance rnd_Proper : Proper (Qeq ==> Qeq) rnd.
Proof using RO.
  intros x y H. apply Qle_antisym; apply rnd_mono; rewrite H; apply Qle_refl.
Qed.

Lemma rnd_zero : (rnd 0 == 0)%Q.
Proof using RO. apply (rnd_int 0). lia. Qed.

Lemma rnd_nonneg x : (0 <= x)%Q -> (0 <= rnd x)%Q.
Proof using RO. intros H. rewrite <- rnd_zero. by apply rnd_mono. Qed.

Lemma rnd_second : (rnd (inject_Z second) == inject_Z second)%Q.
Proof using RO. apply rnd_int. unfold second. lia. Qed.

Lemma inject_nonneg z : 0 <= z -> (0 <= inject_Z z)%Q.
Proof using. intros H. change 0%Q with (inject_Z 0). by rewrite <- Zle_Qle. Qed.

(** The rate and the burst of a usable limiter: an idle bucket is full again
    before it is cleaned up. *)
Definition usable (rl : rateLimiter) : Prop :=
  (0 <= rate rl)%Q /\ 1 <= burst rl <= 2 ^ 53 /\
  (inject_Z (burst rl) <= 300 * rate rl)%Q.

Lemma burst_rnd rl : usable rl -> (rnd (inject_Z (burst rl)) == inject_Z (burst rl))%Q.
Proof using RO. intros (_ & H & _). apply rnd_int. lia. Qed.

Lemma gain_nonneg rl ns :
  usable rl -> 0 <= ns -> (0 <= rnd (rnd (rnd (inject_Z ns) / rnd (inject_Z second)) * rate rl))%Q.
Proof using RO.
  intros (Hr & _ & _) Hns. apply rnd_nonneg, Qmult_le_0_compat; [|done].
  apply rnd_nonneg, Qmult_le_0_compat; [by apply rnd_nonneg, inject_nonneg|].
  apply Qinv_le_0_compat. rewrite rnd_second. by apply inject_nonneg.
Qed.

Lemma replenish_range rl t ns :
  usable rl -> (0 <= t)%Q -> 0 <= ns ->
  (0 <= replenish rl t ns)%Q /\ (replenish rl t ns <= inject_Z (burst rl))%Q.
Proof using RO.
  intros Hu Ht Hns. unfold replenish. pose proof (gain_nonneg rl ns Hu Hns) as Hg.
  pose proof (burst_rnd rl Hu) as Hb.
  destruct (Qle_bool _ _) eqn:E.
  - apply Qle_bool_iff in E. split; [apply rnd_nonneg; lra|lra].
  - rewrite Hb. split; [|lra]. apply inject_nonneg. destruct Hu as (_ & ? & _). lia.
Qed.

(** A bucket that has not been used for five minutes is full. *)
Lemma replenish_full rl t ns :
  usable rl -> (0 <= t)%Q -> stale_after <= ns -> (replenish rl t ns == inject_Z (burst rl))%Q.
Proof using RO.
  intros Hu Ht Hns. pose proof (burst_rnd rl Hu) as Hb. destruct Hu as (Hr & Hbu & H300).
  assert (inject_Z (burst rl) <= rnd (rnd (rnd (inject_Z ns) / rnd (inject_Z second)) * rate rl))%Q as Hgain.
  { rewrite <- Hb. apply rnd_mono. eapply Qle_trans; [exact H300|].
    apply Qmult_le_compat_r; [|done].
    assert (300 == rnd 300)%Q as -> by (symmetry; apply (rnd_int 300); lia).
    apply rnd_mono. rewrite rnd_second. apply Qle_shift_div_l; [reflexivity|].
    change (300 * inject_Z second)%Q with (inject_Z stale_after).
    assert (inject_Z stale_after == rnd (inject_Z stale_after))%Q as ->
      by (symmetry; apply rnd_int; unfold stale_after, second; lia).
    apply rnd_mono. by rewrite <- Zle_Qle. }
  assert (inject_Z (burst rl) <= rnd (t + rnd (rnd (rnd (inject_Z ns) / rnd (inject_Z second)) * rate rl)))%Q
    as Hle by (rewrite <- Hb at 1; apply rnd_mono; lra).
  unfold replenish. destruct (Qle_bool _ _) eqn:E.
  - apply Qle_bool_iff in E. lra.
  - done.
Qed.

(** A new bucket is full. *)
Lemma replenish_new rl :
  usable rl -> (replenish rl (rnd (inject_Z (burst rl))) 0 == inject_Z (burst rl))%Q.
Proof using RO.
  intros Hu. pose proof (burst_rnd rl Hu) as Hb. unfold replenish.
  assert (rnd (rnd (inject_Z (burst rl)) + rnd (rnd (rnd (inject_Z 0) / rnd (inject_Z second)) * rate rl))
          == inject_Z (burst rl))%Q as Heq.
  { rewrite Hb. change (inject_Z 0) with 0%Q. rewrite rnd_zero.
    assert ((0 / rnd (inject_Z second)) == 0)%Q as -> by (unfold Qdiv; ring).
    rewrite rnd_zero. assert ((0 * rate rl) == 0)%Q as -> by ring.
    rewrite rnd_zero. assert ((inject_Z (burst rl) + 0) == (inject_Z (burst rl)))%Q as -> by ring. exact Hb. }
  destruct (Qle_bool _ _) eqn:E; [exact Heq|exact Hb].
Qed.

(** ** Cleanup is invisible *)

Definition same_bucket (b1 b2 : bucket) : Prop :=
  (tokens b1 == tokens b2)%Q /\ lastTime b1 = lastTime b2.

Lemma replenish_same rl1 rl2 t1 t2 ns :
  rate rl1 = rate rl2 -> burst rl1 = burst rl2 -> (t1 == t2)%Q ->
  (replenish rl1 t1 ns == replenish rl2 t2 ns)%Q.
Proof using RO.
  intros Hr Hb Ht. unfold replenish. rewrite Hr, Hb.
  set (g := rnd (rnd (rnd (inject_Z ns) / rnd (inject_Z second)) * rate rl2)).
  assert (rnd (t1 + g) == rnd (t2 + g))%Q as E by (by rewrite Ht).
  rewrite (Qleb_comp _ _ E _ _ (Qeq_refl _)). by destruct (Qle_bool _ _).
Qed.

Lemma take_same rl1 rl2 now b1 b2 :
  (replenish rl1 (tokens b1) (now - lastTime b1) == replenish rl2 (tokens b2) (now - lastTime b2))%Q ->
  (take_token rl1 now b1).1 = (take_token rl2 now b2).1 /\
  same_bucket (take_token rl1 now b1).2 (take_token rl2 now b2).2.
Proof using RO.
  intros E. unfold take_token. rewrite (Qleb_comp _ _ (Qeq_refl 1) _ _ E).
  destruct (Qle_bool _ _); (split; [done|]); split; cbn; try done. by rewrite E.
Qed.

(** Buckets hold no debt and are not from the future. *)
Definition sound (latest : Z) (rl : rateLimiter) : Prop :=
  forall k b, buckets rl !! k = Some b -> (0 <= tokens b)%Q /\ lastTime b <= latest.

(** The limiter and the one without cleanup: a missing bucket is a full one. *)
Record related (latest : Z) (rl id : rateLimiter) : Prop := MkRelated {
  rel_rate : rate rl = rate id;
  rel_burst : burst rl = burst id;
  rel_bucket : forall k,
    match buckets rl !! k, buckets id !! k with
    | Some b, Some b' => same_bucket b b'
    | None, Some b' => lastTime b' < latest - stale_after
    | None, None => True
    | Some _, None => False
    end;
  rel_sound : sound latest id }.

Lemma related_later t t' rl id : t <= t' -> related t rl id -> related t' rl id.
Proof using.
  intros Ht [Hr Hb Hk Hs]. split; try done.
  - intros k. specialize (Hk k). repeat case_match; try done. lia.
  - intros k b H. destruct (Hs k b H). split; [done|lia].
Qed.

Lemma related_cleanup now rl id : related now rl id -> related now (lazy_cleanup now rl) id.
Proof using.
  intros [Hr Hb Hk Hs]. unfold lazy_cleanup. destruct (60 <? _); [|done].
  split; try done. intros k. specialize (Hk k). unfold cleanup. cbn [buckets].
  destruct (buckets rl !! k) as [b|] eqn:Eb.
  - destruct (decide (lastTime b < now - stale_after)) as [Hst|Hst].
    + rewrite (map_lookup_filter_None_2 _ _ k).
      2: { right. intros b' E H. rewrite Eb in E. injection E as <-. by apply H. }
      destruct (buckets id !! k) as [b'|] eqn:Eb'; [|done]. destruct Hk as [_ E]. lia.
    + rewrite (map_lookup_filter_Some_2 _ _ k b); done.
  - rewrite (map_lookup_filter_None_2 _ _ k); [done|]. by left.
Qed.

Lemma take_token_sound rl now b :
  usable rl -> (0 <= tokens b)%Q -> lastTime b <= now ->
  (0 <= tokens (take_token rl now b).2)%Q /\ lastTime (take_token rl now b).2 = now.
Proof using RO.
  intros Hu Ht Hl. unfold take_token.
  destruct (replenish_range rl (tokens b) (now - lastTime b) Hu Ht ltac:(lia)) as [H0 H1].
  destruct (Qle_bool 1 _) eqn:E; cbn; (split; [|done]); [|done].
  apply Qle_bool_iff in E. apply rnd_nonneg. lra.
Qed.

Lemma new_bucket_nonneg rl : usable rl -> (0 <= rnd (inject_Z (burst rl)))%Q.
Proof using RO. intros (_ & H & _). apply rnd_nonneg, inject_nonneg. lia. Qed.

Lemma load_sound rl now k :
  usable rl -> sound now rl ->
  (0 <= tokens (load_or_store k now rl))%Q /\ lastTime (load_or_store k now rl) <= now.
Proof using RO.
  intros Hu Hs. unfold load_or_store. destruct (buckets rl !! k) as [b|] eqn:E; cbn [from_option]; unfold Datatypes.id.
  - by apply Hs in E.
  - cbn. split; [by apply new_bucket_nonneg|lia].
Qed.

Lemma usable_same rl id : rate rl = rate id -> burst rl = burst id -> usable id -> usable rl.
Proof using. unfold usable. by intros -> ->. Qed.

Lemma sound_insert now k b rl :
  sound now rl -> (0 <= tokens b)%Q -> lastTime b <= now ->
  sound now (MkRL (<[k := b]> (buckets rl)) (rate rl) (burst rl) (lastClean rl)).
Proof using.
  intros Hs Ht Hl k' b' H. cbn in H. destruct (decide (k = k')) as [<-|Hne].
  - rewrite lookup_insert_eq in H. by injection H as <-.
  - rewrite lookup_insert_ne in H by done. by apply Hs in H.
Qed.

Lemma allow_related now k rl id :
  usable id -> related now rl id ->
  (allow k now rl).1 = (allow_ideal k now id).1 /\
  related now (allow k now rl).2 (allow_ideal k now id).2.
Proof using RO.
  intros Hu Hrel0. unfold allow, allow_ideal. apply related_cleanup in Hrel0 as Hrel.
  clear Hrel0. revert Hrel. generalize (lazy_cleanup now rl). clear rl. intros rl [Hr Hb Hk Hs].
  assert (usable rl) as Hu' by eauto using usable_same.
  assert (replenish rl (tokens (load_or_store k now rl)) (now - lastTime (load_or_store k now rl)) ==
          replenish id (tokens (load_or_store k now id)) (now - lastTime (load_or_store k now id)))%Q as E.
  { specialize (Hk k). unfold load_or_store.
    destruct (buckets rl !! k) as [b|] eqn:E1, (buckets id !! k) as [b'|] eqn:E2; cbn [from_option]; unfold Datatypes.id; try done.
    - destruct Hk as [Et El]. rewrite El. by apply replenish_same.
    - cbn [tokens lastTime]. rewrite Z.sub_diag, replenish_new by done.
      rewrite (replenish_full id (tokens b') (now - lastTime b')); [rewrite Hb; apply Qeq_refl|done|exact (proj1 (Hs _ _ E2))|lia].
    - cbn [tokens lastTime]. apply replenish_same; [done..|by rewrite Hb]. }
  destruct (take_same _ _ _ _ _ E) as [Ev Es].
  destruct (load_sound id now k Hu Hs) as [Hl0 Hl1].
  destruct (take_token_sound id now _ Hu Hl0 Hl1) as [Ht0 Ht1].
  destruct (take_token rl now _) as [ok b], (take_token id now _) as [ok' b']. cbn [fst snd] in *.
  split; [done|]. split; try done.
  - intros k'. cbn [buckets]. destruct (decide (k = k')) as [<-|Hne].
    + by rewrite !lookup_insert_eq.
    + rewrite !lookup_insert_ne by done. apply Hk.
  - apply sound_insert; [done..|lia].
Qed.

(** Requests in the order of their times. *)
Definition ordered (t0 : Z) (reqs : list (gostring * Z)) : Prop :=
  StronglySorted Z.le (t0 :: reqs.*2).

Lemma ordered_cons t0 k t reqs : ordered t0 ((k, t) :: reqs) -> t0 <= t /\ ordered t reqs.
Proof using.
  unfold ordered. cbn. intros H. apply StronglySorted_inv in H as [H1 H2].
  apply Forall_cons in H2 as [? _]. done.
Qed.

Lemma allow_params k now rl : rate (allow_ideal k now rl).2 = rate rl /\ burst (allow_ideal k now rl).2 = burst rl.
Proof using. unfold allow_ideal. by destruct (take_token _ _ _). Qed.

Lemma serve_related t0 reqs rl id :
  usable id -> ordered t0 reqs -> related t0 rl id -> (serve reqs rl).1 = (serve_ideal reqs id).1.
Proof using RO.
  revert t0 rl id. induction reqs as [|[k t] reqs IH]; intros t0 rl id Hu Ho Hrel; [done|].
  apply ordered_cons in Ho as [Ht Ho]. apply (related_later t0 t) in Hrel; [|done].
  destruct (allow_related t k rl id Hu Hrel) as [Ev Hrel']. cbn [serve serve_ideal].
  destruct (allow_params k t id) as [Hr Hb].
  destruct (allow k t rl) as [ok rl'], (allow_ideal k t id) as [ok' id']. cbn [fst snd] in *.
  specialize (IH t rl' id' (usable_same _ _ Hr Hb Hu) Ho Hrel').
  destruct (serve reqs rl'), (serve_ideal reqs id'). cbn in *. congruence.
Qed.

Lemma sound_new t0 r b : sound t0 (newRateLimiter t0 r b).
Proof using. intros k b' H. cbn in H. by rewrite lookup_empty in H. Qed.

Lemma related_new t0 r b : related t0 (newRateLimiter t0 r b) (newRateLimiter t0 r b).
Proof using. split; done. Qed.

Lemma limiters_usable now :
  usable (loginLimiter (newLimiters now)) /\ usable (apiLimiter (newLimiters now)).
Proof using RO.
  split; [|repeat split; discriminate]. cbn. unfold usable. cbn [rate burst newRateLimiter].
  split_and!; try lia; [by apply rnd_nonneg|].
  assert ((5 # 60) * (1 - ulp) <= rnd (5 # 60))%Q as H by (by apply rnd_down).
  assert (inject_Z 5 <= 300 * ((5 # 60) * (1 - ulp)))%Q as H' by discriminate. lra.
Qed.

(** The removal of buckets that were idle for five minutes changes no
    decision: a limiter whose burst is refilled in that time (both of the
    middleware are) answers every sequence of requests as the limiter that keeps
    every bucket forever. *)
Theorem cleanup_transparent (t0 b : Z) (r : Q) (reqs : list (gostring * Z)) :
  (usable (newRateLimiter t0 r b) -> ordered t0 reqs ->
   (serve reqs (newRateLimiter t0 r b)).1 = (serve_ideal reqs (newRateLimiter t0 r b)).1) /\
  usable (loginLimiter (newLimiters t0)) /\ usable (apiLimiter (newLimiters t0)).
Proof using RO.
  split; [|apply limiters_usable]. intros Hu Ho. apply (serve_related t0); auto using related_new.
Qed.

(** ** The number of requests granted in a window *)

(** The requests of [k] that were allowed, and all of them. *)
Fixpoint granted (k : gostring) (reqs : list (gostring * Z)) (oks : list bool) : Z :=
  match reqs, oks with
  | (k', _) :: reqs', ok :: oks' => (if bool_decide (k' = k) && ok then 1 else 0) + granted k reqs' oks'
  | _, _ => 0
  end.
Fixpoint asked (k : gostring) (reqs : list (gostring * Z)) : Z :=
  match reqs with
  | (k', _) :: reqs' => (if bool_decide (k' = k) then 1 else 0) + asked k reqs'
  | [] => 0
  end.

(** What [ns] nanoseconds give, with the error of four roundings, and the error
    of the two roundings of the stored tokens. *)
Definition allowance (rl : rateLimiter) (ns : Z) : Q :=
  inject_Z ns / inject_Z second * rate rl * ((1 + ulp) * (1 + ulp) * (1 + ulp) * (1 + ulp)).
Definition slack (rl : rateLimiter) : Q := 2 * (inject_Z (burst rl) * ulp).

Lemma allowance_add rl a b : (allowance rl (a + b) == allowance rl a + allowance rl b)%Q.
Proof using. unfold allowance, Qdiv. rewrite inject_Z_plus. ring. Qed.

Lemma allowance_nonneg rl ns : usable rl -> 0 <= ns -> (0 <= allowance rl ns)%Q.
Proof using.
  intros (Hr & _) Hns. unfold allowance. apply Qmult_le_0_compat; [|discriminate].
  apply Qmult_le_0_compat; [|done]. apply Qmult_le_0_compat; [by apply inject_nonneg|discriminate].
Qed.

Lemma slack_nonneg rl : usable rl -> (0 <= slack rl)%Q.
Proof using.
  intros (_ & Hb & _). unfold slack. apply Qmult_le_0_compat; [discriminate|].
  apply Qmult_le_0_compat; [apply inject_nonneg; lia|discriminate].
Qed.

Lemma gain_bound rl ns :
  usable rl -> 0 <= ns ->
  (rnd (rnd (rnd (inject_Z ns) / rnd (inject_Z second)) * rate rl) * (1 + ulp) <= allowance rl ns)%Q.
Proof using RO.
  intros (Hr & _) Hns. pose proof (inject_nonneg ns Hns) as Hn.
  assert (0 <= 1 + ulp)%Q as Hu by discriminate.
  assert (rnd (inject_Z ns) <= inject_Z ns * (1 + ulp))%Q as H1 by (by apply rnd_up).
  pose proof (rnd_nonneg _ Hn) as H1'.
  assert (0 <= / inject_Z second)%Q as Hs by discriminate.
  assert (rnd (rnd (inject_Z ns) / rnd (inject_Z second)) <=
          inject_Z ns * (1 + ulp) / inject_Z second * (1 + ulp))%Q as H2.
  { rewrite rnd_second. eapply Qle_trans; [apply rnd_up; by apply Qmult_le_0_compat|].
    apply Qmult_le_compat_r; [|done]. by apply Qmult_le_compat_r. }
  assert (0 <= rnd (rnd (inject_Z ns) / rnd (inject_Z second)))%Q as H2'.
  { apply rnd_nonneg. rewrite rnd_second. by apply Qmult_le_0_compat. }
  assert (rnd (rnd (rnd (inject_Z ns) / rnd (inject_Z second)) * rate rl) <=
          inject_Z ns * (1 + ulp) / inject_Z second * (1 + ulp) * rate rl * (1 + ulp))%Q as H3.
  { eapply Qle_trans; [apply rnd_up; by apply Qmult_le_0_compat|].
    apply Qmult_le_compat_r; [|done]. by apply Qmult_le_compat_r. }
  eapply Qle_trans; [apply Qmult_le_compat_r; [exact H3|done]|].
  unfold allowance, Qdiv. match goal with |- (?a <= ?b)%Q => assert (a == b)%Q as -> by ring end.
  apply Qle_refl.
Qed.

Lemma replenish_bound rl t ns :
  usable rl -> (0 <= t)%Q -> (t <= inject_Z (burst rl))%Q -> 0 <= ns ->
  (replenish rl t ns <= t + allowance rl ns + inject_Z (burst rl) * ulp)%Q.
Proof using RO.
  intros Hu Ht Htb Hns. pose proof (gain_bound rl ns Hu Hns) as Hg.
  pose proof (gain_nonneg rl ns Hu Hns) as Hg0. unfold replenish.
  set (g := rnd (rnd (rnd (inject_Z ns) / rnd (inject_Z second)) * rate rl)) in *.
  assert (rnd (t + g) <= (t + g) * (1 + ulp))%Q as H1 by (apply rnd_up; lra).
  assert (t * ulp <= inject_Z (burst rl) * ulp)%Q as H2 by (by apply Qmult_le_compat_r).
  assert (rnd (t + g) <= t + allowance rl ns + inject_Z (burst rl) * ulp)%Q as H3.
  { eapply Qle_trans; [exact H1|].
    assert ((t + g) * (1 + ulp) == t + t * ulp + g * (1 + ulp))%Q as -> by ring. lra. }
  destruct (Qle_bool _ _) eqn:E; [done|].
  assert (~ (rnd (t + g) <= rnd (inject_Z (burst rl))))%Q as Hlt.
  { intros H. apply Qle_bool_iff in H. congruence. }
  apply Qnot_le_lt in Hlt. lra.
Qed.

Definition spent (ok : bool) : Q := if ok then 1 else 0.

Lemma take_bound rl now b :
  usable rl -> (0 <= tokens b)%Q -> lastTime b <= now ->
  (tokens (take_token rl now b).2 + spent (take_token rl now b).1 <=
     replenish rl (tokens b) (now - lastTime b) + inject_Z (burst rl) * ulp)%Q /\
  (tokens (take_token rl now b).2 <= inject_Z (burst rl))%Q.
Proof using RO.
  intros Hu Ht Hl. unfold take_token.
  destruct (replenish_range rl (tokens b) (now - lastTime b) Hu Ht ltac:(lia)) as [H0 H1].
  set (t := replenish _ _ _) in *.
  assert (0 <= inject_Z (burst rl) * ulp)%Q as Hbu.
  { apply Qmult_le_0_compat; [lra|discriminate]. }
  destruct (Qle_bool 1 t) eqn:E; cbn [fst snd tokens spent].
  - apply Qle_bool_iff in E.
    assert (rnd (t - 1) <= (t - 1) * (1 + ulp))%Q as H2 by (apply rnd_up; lra).
    assert ((t - 1) * ulp <= inject_Z (burst rl) * ulp)%Q as H3 by (apply Qmult_le_compat_r; [lra|discriminate]).
    assert ((t - 1) * (1 + ulp) == t - 1 + (t - 1) * ulp)%Q as H4 by ring.
    split; [lra|]. rewrite <- (burst_rnd rl Hu). apply rnd_mono. lra.
  - split; lra.
Qed.

Lemma allow_ideal_sound t k rl : usable rl -> sound t rl -> sound t (allow_ideal k t rl).2.
Proof using RO.
  intros Hu Hs. unfold allow_ideal. destruct (load_sound rl t k Hu Hs) as [Hl0 Hl1].
  destruct (take_token_sound rl t _ Hu Hl0 Hl1) as [Ht0 Ht1].
  destruct (take_token rl t _) as [ok b]. cbn [fst snd] in *. apply sound_insert; [done..|lia].
Qed.

Lemma allow_ideal_bucket t k k' rl :
  buckets (allow_ideal k' t rl).2 !! k =
    if bool_decide (k' = k) then Some (take_token rl t (load_or_store k t rl)).2 else buckets rl !! k.
Proof using.
  unfold allow_ideal. case_bool_decide as Hk.
  - subst k'. destruct (take_token rl t _) as [ok b]. cbn. by rewrite lookup_insert_eq.
  - destruct (take_token rl t _) as [ok b]. cbn. by rewrite lookup_insert_ne.
Qed.

Lemma allow_ideal_verdict t k rl : (allow_ideal k t rl).1 = (take_token rl t (load_or_store k t rl)).1.
Proof using. unfold allow_ideal. by destruct (take_token rl t _). Qed.

(** What a request at [t] leaves unchanged. *)
Lemma allow_ideal_next k t0 t rl :
  usable rl -> sound t0 rl -> t0 <= t ->
  let rl' := (allow_ideal k t rl).2 in
  sound t rl /\ sound t rl' /\ usable rl' /\ burst rl' = burst rl /\ slack rl' = slack rl /\
  forall n, allowance rl' n = allowance rl n.
Proof using RO.
  intros Hu Hs Ht rl'.
  assert (sound t rl) as Hst by (intros k1 b1 H1; destruct (Hs _ _ H1); split; [done|lia]).
  destruct (allow_params k t rl) as [Hr Hbu].
  split_and!; [done|by apply allow_ideal_sound|by apply (usable_same _ rl)|done| |].
  - unfold slack. subst rl'. by rewrite Hbu.
  - intros n. unfold allowance. subst rl'. by rewrite Hr.
Qed.

Lemma slack_succ k rl n :
  ((inject_Z 1 + inject_Z (asked k n)) * slack rl == slack rl + inject_Z (asked k n) * slack rl)%Q.
Proof using. change (inject_Z 1) with 1%Q. ring. Qed.

Lemma allowance_split rl a t e : (allowance rl (e - a) == allowance rl (t - a) + allowance rl (e - t))%Q.
Proof using. rewrite <- allowance_add. by replace (t - a + (e - t)) with (e - a) by lia. Qed.

(** The next request: [k] has its bucket changed by its own requests only. *)
Lemma serve_ideal_cons k' t reqs rl :
  (serve_ideal ((k', t) :: reqs) rl).1 =
    (allow_ideal k' t rl).1 :: (serve_ideal reqs (allow_ideal k' t rl).2).1.
Proof using.
  cbn [serve_ideal]. destruct (allow_ideal k' t rl) as [ok rl']. cbn. by destruct (serve_ideal reqs rl').
Qed.

Lemma asked_nonneg k reqs : 0 <= asked k reqs.
Proof using. induction reqs as [|[k' t] reqs IH]; cbn; [lia|]. destruct (bool_decide _); lia. Qed.

Lemma spent_Z ok : (spent ok == inject_Z (if ok then 1 else 0))%Q.
Proof using. by destruct ok. Qed.

Lemma granted_from k reqs rl b t0 e :
  usable rl -> sound t0 rl -> ordered t0 reqs -> Forall (fun t => t <= e) reqs.*2 -> t0 <= e ->
  buckets rl !! k = Some b -> (tokens b <= inject_Z (burst rl))%Q ->
  (inject_Z (granted k reqs (serve_ideal reqs rl).1) <=
     tokens b + allowance rl (e - lastTime b) + inject_Z (asked k reqs) * slack rl)%Q.
Proof using RO.
  revert rl b t0. induction reqs as [|[k' t] reqs IH]; intros rl b t0 Hu Hs Ho Hf He Hb Hcap.
  { cbn [granted asked]. change (inject_Z 0) with 0%Q. destruct (Hs _ _ Hb) as [H0 H1].
    pose proof (allowance_nonneg rl (e - lastTime b) Hu ltac:(lia)).
    assert (0 * slack rl == 0)%Q as -> by ring. lra. }
  apply ordered_cons in Ho as [Ht Ho]. apply Forall_cons in Hf as [Hte Hf].
  destruct (allow_ideal_next k' t0 t rl Hu Hs Ht) as (Hst & Hs' & Hu' & Hbu & Hsl & Hal).
  rewrite serve_ideal_cons. cbn [granted asked].
  destruct (bool_decide (k' = k)) eqn:Ek; cbn [andb]; rewrite !inject_Z_plus.
  - apply bool_decide_eq_true in Ek as ->.
    assert (load_or_store k t rl = b) as Hload by (unfold load_or_store; by rewrite Hb).
    destruct (Hst _ _ Hb) as [Hb0 Hb1].
    destruct (take_bound rl t b Hu Hb0 Hb1) as [HB HC].
    pose proof (replenish_bound rl (tokens b) (t - lastTime b) Hu Hb0 Hcap ltac:(lia)) as HR.
    assert (buckets (allow_ideal k t rl).2 !! k = Some (take_token rl t b).2) as Hb'
      by (rewrite allow_ideal_bucket, bool_decide_eq_true_2, Hload; done).
    specialize (IH _ _ t Hu' Hs' Ho Hf Hte Hb' ltac:(by rewrite Hbu)).
    destruct (take_token_sound rl t b Hu Hb0 Hb1) as [_ Htl]. rewrite Htl, Hsl, Hal in IH.
    rewrite allow_ideal_verdict, Hload, <- spent_Z.
    rewrite (allowance_split rl (lastTime b) t e), slack_succ.
    assert (slack rl == 2 * (inject_Z (burst rl) * ulp))%Q as Es by reflexivity. lra.
  - assert (buckets (allow_ideal k' t rl).2 !! k = Some b) as Hb' by (by rewrite allow_ideal_bucket, Ek).
    specialize (IH _ _ t Hu' Hs' Ho Hf Hte Hb' ltac:(by rewrite Hbu)). rewrite Hsl, Hal in IH.
    change (inject_Z 0) with 0%Q. rewrite !Qplus_0_l. exact IH.
Qed.

Lemma granted_window k reqs rl t0 a e :
  usable rl -> sound t0 rl -> ordered t0 reqs -> Forall (fun t => a <= t <= e) reqs.*2 -> a <= e ->
  (inject_Z (granted k reqs (serve_ideal reqs rl).1) <=
     inject_Z (burst rl) + allowance rl (e - a) + inject_Z (asked k reqs) * slack rl)%Q.
Proof using RO.
  revert rl t0. induction reqs as [|[k' t] reqs IH]; intros rl t0 Hu Hs Ho Hf Hae.
  { cbn [granted asked]. change (inject_Z 0) with 0%Q.
    pose proof (allowance_nonneg rl (e - a) Hu ltac:(lia)).
    destruct Hu as (_ & Hb & _). pose proof (inject_nonneg (burst rl) ltac:(lia)).
    assert (0 * slack rl == 0)%Q as -> by ring. lra. }
  apply ordered_cons in Ho as [Ht Ho]. apply Forall_cons in Hf as [[Hat Hte] Hf]. cbn [snd] in Hat, Hte.
  destruct (allow_ideal_next k' t0 t rl Hu Hs Ht) as (Hst & Hs' & Hu' & Hbu & Hsl & Hal).
  rewrite serve_ideal_cons. cbn [granted asked].
  destruct (bool_decide (k' = k)) eqn:Ek; cbn [andb]; rewrite !inject_Z_plus.
  - apply bool_decide_eq_true in Ek as ->. destruct (load_sound rl t k Hu Hst) as [Hb0 Hb1].
    destruct (take_bound rl t _ Hu Hb0 Hb1) as [HB HC].
    destruct (replenish_range rl _ (t - lastTime (load_or_store k t rl)) Hu Hb0 ltac:(lia)) as [_ HR].
    assert (buckets (allow_ideal k t rl).2 !! k = Some (take_token rl t (load_or_store k t rl)).2) as Hb'
      by (rewrite allow_ideal_bucket, bool_decide_eq_true_2; done).
    assert (Forall (fun t => t <= e) reqs.*2) as Hf' by (eapply Forall_impl; [exact Hf|]; cbn; lia).
    pose proof (granted_from k reqs _ _ t e Hu' Hs' Ho Hf' ltac:(lia) Hb' ltac:(by rewrite Hbu)) as HG.
    destruct (take_token_sound rl t _ Hu Hb0 Hb1) as [_ Htl]. rewrite Htl, Hsl, Hal in HG.
    rewrite allow_ideal_verdict, <- spent_Z.
    rewrite (allowance_split rl a t e), slack_succ.
    pose proof (allowance_nonneg rl (t - a) Hu ltac:(lia)). pose proof (slack_nonneg rl Hu).
    assert (slack rl == 2 * (inject_Z (burst rl) * ulp))%Q as Es by reflexivity. lra.
  - specialize (IH _ t Hu' Hs' Ho Hf Hae). rewrite Hbu, Hsl, Hal in IH.
    change (inject_Z 0) with 0%Q. rewrite !Qplus_0_l. exact IH.
Qed.

Lemma ordered_app t0 pre reqs :
  ordered t0 (pre ++ reqs) -> ordered t0 pre /\ ordered (List.last (pre.*2) t0) reqs.
Proof using.
  revert t0. induction pre as [|[k t] pre IH]; intros t0 H.
  { split; [repeat constructor|exact H]. }
  apply ordered_cons in H as [Ht H]. destruct (IH t H) as [H1 H2]. split.
  - unfold ordered in *. cbn [fmap list_fmap snd]. constructor; [exact H1|].
    apply StronglySorted_inv in H1 as [_ H1]. constructor; [done|].
    eapply Forall_impl; [exact H1|]. intros x Hx. lia.
  - cbn [fmap list_fmap snd]. by rewrite last_default.
Qed.

Lemma serve_ideal_app pre reqs rl :
  (serve_ideal (pre ++ reqs) rl).1 =
    (serve_ideal pre rl).1 ++ (serve_ideal reqs (serve_ideal pre rl).2).1.
Proof using.
  revert rl. induction pre as [|[k t] pre IH]; intros rl; [done|].
  cbn [app serve_ideal]. destruct (allow_ideal k t rl) as [ok rl']. specialize (IH rl').
  destruct (serve_ideal (pre ++ reqs) rl'), (serve_ideal pre rl'). cbn in *. by rewrite IH.
Qed.

Lemma serve_ideal_sound t0 pre rl :
  usable rl -> sound t0 rl -> ordered t0 pre ->
  sound (List.last (pre.*2) t0) (serve_ideal pre rl).2 /\
  rate (serve_ideal pre rl).2 = rate rl /\ burst (serve_ideal pre rl).2 = burst rl.
Proof using RO.
  revert t0 rl. induction pre as [|[k t] pre IH]; intros t0 rl Hu Hs Ho; [done|].
  apply ordered_cons in Ho as [Ht Ho].
  destruct (allow_ideal_next k t0 t rl Hu Hs Ht) as (_ & Hs' & Hu' & Hbu & _ & _).
  destruct (allow_params k t rl) as [Hr _]. destruct (IH t _ Hu' Hs' Ho) as (H1 & H2 & H3).
  cbn [serve_ideal fmap list_fmap snd]. rewrite last_default.
  destruct (allow_ideal k t rl) as [ok rl']. cbn [fst snd] in *.
  destruct (serve_ideal pre rl'). cbn [fst snd] in *. split_and!; [exact H1|congruence..].
Qed.

(** C10: In any window of [e - a] nanoseconds a client is granted at most the
    burst plus what the rate gives in that time (up to the rounding errors: four
    in the allowance, two per request in the stored tokens), whatever the other
    clients do, whatever came before the window, and in spite of the cleanups. *)
Theorem rate_limit_bound (t0 b : Z) (r : Q) (pre reqs : list (gostring * Z)) (k : gostring) (a e : Z) :
  let rl := newRateLimiter t0 r b in
  usable rl -> ordered t0 (pre ++ reqs) -> Forall (fun t => a <= t <= e) reqs.*2 -> a <= e ->
  (inject_Z (granted k reqs (drop (length (serve pre rl).1) (serve (pre ++ reqs) rl).1)) <=
     inject_Z b + allowance rl (e - a) + inject_Z (asked k reqs) * slack rl)%Q.
Proof using RO.
  intros rl Hu Ho Hf Hae. destruct (ordered_app _ _ _ Ho) as [Hp Hq].
  assert (related t0 rl rl) as Hrel by apply related_new.
  rewrite (serve_related t0 (pre ++ reqs) rl rl), (serve_related t0 pre rl rl) by done.
  rewrite serve_ideal_app, drop_app_length.
  destruct (serve_ideal_sound t0 pre rl Hu (sound_new t0 r b) Hp) as (Hs & Hr & Hb).
  pose proof (granted_window k reqs _ _ a e (usable_same _ _ Hr Hb Hu) Hs Hq Hf Hae) as H.
  unfold slack, allowance in *. rewrite Hr, Hb in H. exact H.
Qed.

End limiter.

(** ** Witnesses *)

(** Exact arithmetic is a rounding. *)
Definition exact_rounding : Rounding := fun x => x.

Lemma exact_rounding_ok : RoundingOk exact_rounding.
Proof.
  split; unfold rnd, exact_rounding; [done|done|..];
    intros x Hx; assert (0 <= x * ulp)%Q by (apply Qmult_le_0_compat; [done|discriminate]).
  - assert (x * (1 + ulp) == x + x * ulp)%Q as -> by ring. lra.
  - assert (x * (1 - ulp) == x - x * ulp)%Q as -> by ring. lra.
Qed.

Definition login_at (t : Z) : gostring * Z := (str "192.0.2.1", t * second).

Lemma cleanup_transparent_witness :
  let rl := @newRateLimiter 0 (5 # 60) 5 in
  let reqs := [login_at 1; login_at 400; login_at 401] in
  (@serve exact_rounding reqs rl).1 = (@serve_ideal exact_rounding reqs rl).1.
Proof.
  intros rl reqs. apply (cleanup_transparent (RO := exact_rounding_ok) 0 5 (5 # 60) reqs).
  - repeat split; discriminate.
  - repeat constructor; vm_compute; discriminate.
Defined.

Lemma rate_limit_bound_witness :
  let rl := @newRateLimiter 0 (5 # 60) 5 in
  let reqs := [login_at 1; login_at 1; login_at 1; login_at 1; login_at 1; login_at 1; login_at 1] in
  granted (str "192.0.2.1") reqs (@serve exact_rounding reqs rl).1 = 5 /\
  (inject_Z 5 <= inject_Z 5 + allowance rl 0 + inject_Z 7 * slack rl)%Q.
Proof.
  intros rl reqs. split; [by vm_compute|].
  assert (granted (str "192.0.2.1") reqs (@serve exact_rounding reqs rl).1 = 5) as <- by (by vm_compute).
  apply (rate_limit_bound (RO := exact_rounding_ok) 0 5 (5 # 60) [] reqs (str "192.0.2.1") second second).
  - repeat split; discriminate.
  - repeat constructor; vm_compute; discriminate.
  - repeat constructor; vm_compute; discriminate.
  - reflexivity.
Defined.
