(* ===== verification/Session.v ===== *)
(** * Login sessions (pkg/api/session.go, [sessionManager])

    The store of session tokens.  Randomness is an argument: the bytes read from
    crypto/rand, or [None] for a read error.  Each operation is one critical
    section of the store's lock; an expired session stays in the map until
    [Validate] or [cleanup] meets it, which the refinement theorem shows to be
    invisible. *)

From S2P Require Import Prelude GoStrings GoBase64.
From stdpp Require Import options.
Local Open Scope Z_scope.

(** ** Model *)

Record sessionData := MkSession { subject : gostring; csrfToken : gostring; expires : Z }.

Record sessionManager := MkSM { sessions : gmap gostring sessionData; ttl : Z; stopped : bool }.

Definition hour : Z := 3600 * 1000000000.

Definition newSessionManager (t : Z) : sessionManager :=
  MkSM ∅ (if t <=? 0 then 12 * hour else t) false.

Definition with_sessions (s : gmap gostring sessionData) (m : sessionManager) : sessionManager :=
  MkSM s (ttl m) (stopped m).

(** [generateSessionToken]: 32 random bytes in base64. *)
Definition generateSessionToken (r : option (list Z)) : option gostring := Encode <$> r.

Inductive SessionError := RandFailed | EmptyToken | SessionNotFound.

(** The two random reads of [Create] and [Rotate]. *)
Definition Draws : Type := option (list Z) * option (list Z).

Definition issue (subj : gostring) (now : Z) (d : Draws) (old : gmap gostring sessionData) (m : sessionManager)
    : result SessionError (gostring * gostring * Z) * sessionManager :=
  match generateSessionToken d.1 with
  | None => (Err RandFailed, m)
  | Some token =>
      match generateSessionToken d.2 with
      | None => (Err RandFailed, m)
      | Some csrf =>
          let expiry := now + ttl m in
          (Ok (token, csrf, expiry), with_sessions (<[token := MkSession subj csrf expiry]> old) m)
      end
  end.

Definition Create (subj : gostring) (now : Z) (d : Draws) (m : sessionManager)
    : result SessionError (gostring * gostring * Z) * sessionManager :=
  issue subj now d (sessions m) m.

(** [time.Now().After(session.expires)]. *)
Definition expired (now : Z) (s : sessionData) : bool := expires s <? now.

Definition Validate (token : gostring) (now : Z) (m : sessionManager) : bool * sessionManager :=
  if bool_decide (token = []) then (false, m)
  else match sessions m !! token with
       | None => (false, m)
       | Some s =>
           if expired now s then (false, with_sessions (delete token (sessions m)) m) else (true, m)
       end.

Definition CSRFToken (sessionID : gostring) (now : Z) (m : sessionManager) : gostring :=
  if bool_decide (sessionID = []) then []
  else match sessions m !! sessionID with
       | None => []
       | Some s => if expired now s then [] else csrfToken s
       end.

Definition Revoke (token : gostring) (m : sessionManager) : sessionManager :=
  if bool_decide (token = []) then m else with_sessions (delete token (sessions m)) m.

Definition Rotate (oldToken : gostring) (now : Z) (d : Draws) (m : sessionManager)
    : result SessionError (gostring * gostring * Z) * sessionManager :=
  if bool_decide (oldToken = []) then (Err EmptyToken, m)
  else match sessions m !! oldToken with
       | None => (Err SessionNotFound, m)
       | Some prev => issue (subject prev) now d (delete oldToken (sessions m)) m
       end.

Definition cleanup (now : Z) (m : sessionManager) : sessionManager :=
  with_sessions (filter (fun kv => expired now kv.2 = false) (sessions m)) m.

(** [Stop] closes [stopCh] once. *)
Definition Stop (m : sessionManager) : sessionManager := MkSM (sessions m) (ttl m) true.

(** One turn of [cleanupLoop]: the ticker fires, unless the manager is stopped. *)
Definition cleanupLoop_tick (now : Z) (m : sessionManager) : sessionManager :=
  if stopped m then m else cleanup now m.

(** ** Abstract specification

    A store in which a session exists exactly until it expires: no sweeping, no
    expired entries. *)

Definition live (now : Z) (s : gmap gostring sessionData) : gmap gostring sessionData :=
  filter (fun kv => expired now kv.2 = false) s.

Inductive Op :=
| OCreate (subj : gostring) (d : Draws)
| OValidate (token : gostring)
| OCSRF (token : gostring)
| ORevoke (token : gostring)
| OCleanup.

Inductive Reply :=
| RSession (r : result SessionError (gostring * gostring * Z))
| RValid (b : bool)
| RToken (t : gostring)
| RDone.

Definition exec (now : Z) (o : Op) (m : sessionManager) : Reply * sessionManager :=
  match o with
  | OCreate subj d => let '(r, m') := Create subj now d m in (RSession r, m')
  | OValidate t => let '(b, m') := Validate t now m in (RValid b, m')
  | OCSRF t => (RToken (CSRFToken t now m), m)
  | ORevoke t => (RDone, Revoke t m)
  | OCleanup => (RDone, cleanupLoop_tick now m)
  end.

Definition spec_exec (lifetime now : Z) (o : Op) (s : gmap gostring sessionData)
    : Reply * gmap gostring sessionData :=
  let s := live now s in
  match o with
  | OCreate subj (Some r1, Some r2) =>
      let e := now + lifetime in
      (RSession (Ok (Encode r1, Encode r2, e)), <[Encode r1 := MkSession subj (Encode r2) e]> s)
  | OCreate _ _ => (RSession (Err RandFailed), s)
  | OValidate t => (RValid (bool_decide (t <> [] /\ is_Some (s !! t))), s)
  | OCSRF t => (RToken (if bool_decide (t = []) then [] else default [] (csrfToken <$> s !! t)), s)
  | ORevoke t => (RDone, if bool_decide (t = []) then s else delete t s)
  | OCleanup => (RDone, s)
  end.

Fixpoint run (ops : list (Z * Op)) (m : sessionManager) : list Reply :=
  match ops with
  | [] => []
  | (now, o) :: ops' => let '(r, m') := exec now o m in r :: run ops' m'
  end.

Fixpoint spec_run (lifetime : Z) (ops : list (Z * Op)) (s : gmap gostring sessionData) : list Reply :=
  match ops with
  | [] => []
  | (now, o) :: ops' => let '(r, s') := spec_exec lifetime now o s in r :: spec_run lifetime ops' s'
  end.

(** ** Refinement *)

Lemma live_lookup now s (t : gostring) :
  live now s !! t = match s !! t with Some d => if expired now d then None else Some d | None => None end.
Proof.
  unfold live. destruct (s !! t) as [d|] eqn:E.
  - destruct (expired now d) eqn:Ex.
    + apply map_lookup_filter_None. right. intros d' E' H. cbn in H. congruence.
    + by apply map_lookup_filter_Some.
  - apply map_lookup_filter_None. by left.
Qed.

Lemma live_later t t' s : t <= t' -> live t' (live t s) = live t' s.
Proof.
  intros Ht. apply map_eq. intros k. rewrite !live_lookup. destruct (s !! k) as [d|]; [|done].
  unfold expired. destruct (Z.ltb_spec (expires d) t); [|done].
  by rewrite (proj2 (Z.ltb_lt _ _)) by lia.
Qed.

Lemma live_delete t k s : live t (delete k s) = delete k (live t s).
Proof.
  apply map_eq. intros k'. rewrite live_lookup. destruct (decide (k = k')) as [<-|Hne].
  - by rewrite !lookup_delete_eq.
  - by rewrite !lookup_delete_ne, live_lookup by done.
Qed.

Lemma live_insert t k d s : expired t d = false -> live t (<[k := d]> s) = <[k := d]> (live t s).
Proof.
  intros Hd. apply map_eq. intros k'. rewrite live_lookup. destruct (decide (k = k')) as [<-|Hne].
  - by rewrite !lookup_insert_eq, Hd.
  - by rewrite !lookup_insert_ne, live_lookup by done.
Qed.

Lemma live_none t k s : live t s !! k = None -> delete k (live t s) = live t s.
Proof. apply delete_id. Qed.

(** An operation at [now] on related stores. *)
Lemma exec_refines now o m s :
  0 < ttl m -> stopped m = false -> live now s = live now (sessions m) ->
  (exec now o m).1 = (spec_exec (ttl m) now o s).1 /\
  live now (sessions (exec now o m).2) = live now (spec_exec (ttl m) now o s).2 /\
  ttl (exec now o m).2 = ttl m /\ stopped (exec now o m).2 = false.
Proof.
  intros Httl Hst Hl. unfold spec_exec. rewrite Hl.
  assert (live now (live now (sessions m)) = live now (sessions m)) as Hll by (apply live_later; lia).
  destruct o as [subj [r1 r2]|t|t|t|]; cbn [exec].
  - unfold Create, issue, generateSessionToken. cbn [fst snd].
    destruct r1 as [r1|], r2 as [r2|]; cbn [fmap option_fmap option_map fst snd]; split_and!;
      rewrite ?Hll; try done. cbn [with_sessions sessions].
    assert (expired now (MkSession subj (Encode r2) (now + ttl m)) = false) as He
      by (unfold expired; cbn; apply Z.ltb_ge; lia).
    by rewrite !live_insert, Hll.
  - unfold Validate. rewrite live_lookup. case_bool_decide as Ht; cbn [fst snd].
    { rewrite bool_decide_eq_false_2 by naive_solver. by rewrite Hll. }
    destruct (sessions m !! t) as [d|] eqn:Ed; cbn [fst snd].
    2: { rewrite bool_decide_eq_false_2 by (intros [_ [? ?]]; done). by rewrite Hll. }
    destruct (expired now d) eqn:Ex; cbn [fst snd with_sessions sessions ttl stopped].
    + rewrite bool_decide_eq_false_2 by (intros [_ [? ?]]; done).
      rewrite live_delete, live_none, Hll; [done|]. by rewrite live_lookup, Ed, Ex.
    + rewrite bool_decide_eq_true_2 by eauto. by rewrite Hll.
  - cbn [fst snd]. rewrite Hll. split; [|done]. f_equal. unfold CSRFToken.
    case_bool_decide; [done|]. rewrite live_lookup. destruct (sessions m !! t) as [d|]; [|done].
    by destruct (expired now d).
  - cbn [fst snd]. unfold Revoke. case_bool_decide; cbn [with_sessions sessions ttl stopped].
    + by rewrite Hll.
    + by rewrite !live_delete, Hll.
  - cbn [fst snd]. unfold cleanupLoop_tick. rewrite Hst. cbn [cleanup with_sessions sessions ttl stopped].
    fold (live now (sessions m)). by rewrite Hll.
Qed.

(** C17: The session store behaves as one in which a session exists exactly until
    its expiry or its revocation: on every sequence of operations, at
    non-decreasing times, all replies (tokens issued, validations, CSRF tokens)
    are those of the ideal store; the lazy removal of expired sessions, by
    [Validate] or by the periodic cleanup, is invisible. *)
Theorem session_refinement (t t0 : Z) (ops : list (Z * Op)) :
  StronglySorted Z.le (t0 :: ops.*1) ->
  run ops (newSessionManager t) = spec_run (ttl (newSessionManager t)) ops ∅.
Proof.
  assert (forall m s, 0 < ttl m -> stopped m = false -> StronglySorted Z.le (t0 :: ops.*1) ->
    live t0 s = live t0 (sessions m) -> run ops m = spec_run (ttl m) ops s) as H.
  { revert t0. induction ops as [|[now o] ops IH]; intros t0 m s Httl Hst Hs Hl; [done|].
    cbn [run spec_run]. cbn [fmap list_fmap fst] in Hs. apply StronglySorted_inv in Hs as [Hs Hf].
    apply Forall_cons in Hf as [Ht _].
    assert (live now s = live now (sessions m)) as Hl'.
    { rewrite <- (live_later t0 now s), Hl, (live_later t0 now) by done. done. }
    destruct (exec_refines now o m s Httl Hst Hl') as (E1 & E2 & E3 & E4).
    destruct (exec now o m) as [r m'], (spec_exec (ttl m) now o s) as [r' s']. cbn [fst snd] in *.
    rewrite <- E3, E1. f_equal. apply (IH now); [lia|done|done|]. done. }
  intros Hs. apply H; try done. cbn. destruct (Z.leb_spec t 0); [|done]. unfold hour. lia.
Qed.

(** [Rotate] replaces a token: it succeeds exactly for a token in the store
    (with working randomness), the new token then has the old one's subject and
    a full lifetime, and the old token, if different, is gone.  It does so also
    for a session that has expired and has not been swept: the expiry is not
    checked, and the session lives again. *)
Theorem session_rotate (old : gostring) (now : Z) (r1 r2 : list Z) (m : sessionManager) (s : sessionData) :
  0 < ttl m -> old <> [] -> sessions m !! old = Some s -> Encode r1 <> old -> r1 <> [] ->
  let '(res, m') := Rotate old now (Some r1, Some r2) m in
  res = Ok (Encode r1, Encode r2, now + ttl m) /\
  (Validate old now m').1 = false /\
  (forall now', now' <= now + ttl m ->
     (Validate (Encode r1) now' m').1 = true /\ CSRFToken (Encode r1) now' m' = Encode r2) /\
  (subject <$> sessions m' !! Encode r1) = Some (subject s) /\
  ((Validate old now m).1 = false <-> expires s < now).
Proof.
  intros Httl Hold Hs Hne Hr1. pose proof (Encode_nonempty r1 Hr1) as He.
  unfold Rotate. rewrite bool_decide_eq_false_2, Hs by done. cbn. split_and!.
  - done.
  - unfold Validate. rewrite bool_decide_eq_false_2 by done. cbn.
    by rewrite lookup_insert_ne, lookup_delete_eq.
  - intros now' Hn. unfold Validate, CSRFToken. rewrite !bool_decide_eq_false_2 by done. cbn.
    rewrite lookup_insert_eq. unfold expired. cbn. by rewrite (proj2 (Z.ltb_ge _ _)) by lia.
  - by rewrite lookup_insert_eq.
  - unfold Validate, expired. rewrite bool_decide_eq_false_2, Hs by done.
    destruct (Z.ltb_spec (expires s) now); cbn; split; (done || lia).
Qed.

(** ** Witnesses *)

Definition draws : Draws := (Some [1; 2; 3], Some [4; 5; 6]).

Lemma session_refinement_witness :
  run [(5, OCreate (str "admin") draws); (6, OValidate (Encode [1; 2; 3])); (50, OValidate (Encode [1; 2; 3]))]
    (newSessionManager 10) =
  [RSession (Ok (Encode [1; 2; 3], Encode [4; 5; 6], 15)); RValid true; RValid false].
Proof.
  rewrite (session_refinement 10 0).
  - by vm_compute.
  - repeat constructor; vm_compute; discriminate.
Defined.

Lemma session_rotate_witness :
  let m := MkSM {[ str "tok" := MkSession (str "admin") (str "c") 10 ]} 100 false in
  (Validate (str "tok") 20 m).1 = false /\
  let '(res, m') := Rotate (str "tok") 20 draws m in
  res = Ok (Encode [1; 2; 3], Encode [4; 5; 6], 120) /\ (Validate (str "tok") 20 m').1 = false.
Proof.
  intros m. pose proof (session_rotate (str "tok") 20 [1; 2; 3] [4; 5; 6] m (MkSession (str "admin") (str "c") 10)
    ltac:(reflexivity) ltac:(discriminate) ltac:(reflexivity) ltac:(discriminate) ltac:(discriminate)) as H.
  split; [by vm_compute|]. unfold draws. destruct (Rotate _ _ _ _) as [res m'].
  split; [exact (proj1 H)|exact (proj1 (proj2 H))].
Defined.
