(* ===== verification/Config.v ===== *)
(** * The configuration (pkg/config)

    The configuration structs, [applyDefaults], [applyEnvOverrides],
    [Validate], [Load], [Clone], the legacy conditional forwarding rules and the
    watcher's [reload].  YAML parsing and printing are parameters, as is
    golang.org/x/crypto/bcrypt; the process environment is an argument.
    Durations are nanoseconds. *)

From S2P Require Import Prelude GoStrings.
From stdpp Require Import options.
Local Open Scope Z_scope.

(** ** Data *)

Record UnboundConfig := MkUnboundConfig {
  ub_BinaryPath : gostring; ub_ConfigPath : gostring; ub_ControlSocket : gostring;
  ub_ListenPort : Z; ub_Enabled : bool; ub_Managed : bool }.

Record CircuitBreakerConfig := MkCircuitBreakerConfig {
  cb_Enabled : bool; cb_FailureThreshold : Z; cb_SuccessThreshold : Z; cb_TimeoutSeconds : Z }.

(** [ServfailTCPRetry] is a pointer: [None] for nil. *)
Record ForwarderConfig := MkForwarderConfig {
  CircuitBreaker : CircuitBreakerConfig; ServfailTCPRetry : option bool }.

Definition ServfailTCPRetryEnabled (f : ForwarderConfig) : bool :=
  match ServfailTCPRetry f with None => true | Some b => b end.

Record QueryLoggerConfig := MkQueryLoggerConfig {
  ql_Enabled : bool; ql_BufferSize : Z; ql_Workers : Z }.

Record AutocertConfig := MkAutocertConfig {
  ac_Enabled : bool; ac_Hosts : list gostring; ac_CacheDir : gostring; ac_Email : gostring;
  HTTP01Address : gostring }.

Record CFConfig := MkCFConfig {
  APIToken : gostring; ZoneID : gostring; cf_TTL : Z; PropagationTimeout : Z; PollingInterval : Z;
  InitialDelay : Z; SkipAuthNSCheck : bool }.

Record ACMEConfig := MkACMEConfig {
  acme_Enabled : bool; DNSProvider : gostring; acme_Hosts : list gostring;
  acme_Upstreams : list gostring; acme_CacheDir : gostring; acme_Email : gostring;
  RenewBefore : Z; Cloudflare : CFConfig }.

Record TLSConfig := MkTLSConfig {
  CertFile : gostring; KeyFile : gostring; Autocert : AutocertConfig; ACME : ACMEConfig }.

Record ServerConfig := MkServerConfig {
  ListenAddress : gostring; UDPListenAddress : gostring; TCPListenAddress : gostring;
  WebUIAddress : gostring; TCPEnabled : bool; UDPEnabled : bool; EnableBlocklist : bool;
  EnablePolicies : bool; DecisionTrace : bool; CORSAllowedOrigins : list gostring;
  DotEnabled : bool; DotAddress : gostring; AllowedClients : list gostring; ProxyProtocol : bool;
  TLS : TLSConfig; QueryLogger : QueryLoggerConfig; TrustedProxies : list gostring }.

Record AuthConfig := MkAuthConfig {
  au_Enabled : bool; APIKey : gostring; Header : gostring; Username : gostring;
  Password : gostring; PasswordHash : gostring }.

Record BlockPageConfig := MkBlockPageConfig { bp_Enabled : bool; BlockIP : gostring }.

Record CacheConfig := MkCacheConfig {
  ca_Enabled : bool; ca_MaxEntries : Z; ca_MinTTL : Z; ca_MaxTTL : Z; ca_NegativeTTL : Z;
  ca_BlockedTTL : Z; ca_ShardCount : Z }.

Record LocalRecordEntry := MkLocalRecordEntry {
  le_CaaFlag : option Z; le_Priority : option Z; le_Weight : option Z; le_Port : option Z;
  le_Expire : option Z; le_Minttl : option Z; le_Refresh : option Z; le_Retry : option Z;
  le_Serial : option Z; le_CaaTag : gostring; le_CaaValue : gostring; le_Mbox : gostring;
  le_Ns : gostring; le_Target : gostring; le_Type : gostring; le_Domain : gostring;
  le_TxtRecords : list gostring; le_IPs : list gostring; le_TTL : Z; le_Wildcard : bool }.

Record LocalRecordsConfig := MkLocalRecordsConfig { lr_Records : list LocalRecordEntry; lr_Enabled : bool }.

Record PolicyRuleEntry := MkPolicyRuleEntry {
  pe_Name : gostring; pe_Logic : gostring; pe_Action : gostring; pe_ActionData : gostring;
  pe_Enabled : bool }.

Record PolicyConfig := MkPolicyConfig { po_Rules : list PolicyRuleEntry; po_Enabled : bool }.

Record ForwardingRule := MkForwardingRule {
  fr_Name : gostring; fr_Domains : list gostring; fr_ClientCIDRs : list gostring;
  fr_QueryTypes : list gostring; fr_Upstreams : list gostring; fr_Priority : Z; fr_Enabled : bool }.

Record ConditionalForwardingConfig := MkConditionalForwardingConfig {
  cw_Rules : list ForwardingRule; cw_Enabled : bool }.

Record LoggingConfig := MkLoggingConfig {
  Level : gostring; Format : gostring; Output : gostring; FilePath : gostring; AddSource : bool;
  MaxSize : Z; MaxBackups : Z; MaxAge : Z }.

Record TelemetryConfig := MkTelemetryConfig {
  ServiceName : gostring; ServiceVersion : gostring; TracingEndpoint : gostring; PrometheusPort : Z;
  te_Enabled : bool; PrometheusEnabled : bool; TracingEnabled : bool; MetricsUsername : gostring;
  MetricsPassword : gostring }.

(** storage.Config *)
Record SQLiteConfig := MkSQLiteConfig {
  sq_Path : gostring; BusyTimeout : Z; WALMode : bool; CacheSize : Z; MMapSize : Z }.
Record StatisticsConfig := MkStatisticsConfig { st_Enabled : bool; AggregationInterval : Z }.
Record DatabaseConfig := MkDatabaseConfig {
  Backend : gostring; SQLite : SQLiteConfig; Statistics : StatisticsConfig; db_BufferSize : Z;
  FlushInterval : Z; BatchSize : Z; RetentionDays : Z; db_Enabled : bool }.

Record Config := MkConfig {
  Telemetry : TelemetryConfig; Server : ServerConfig; Policy : PolicyConfig; Auth : AuthConfig;
  LocalRecords : LocalRecordsConfig; ConditionalForwarding : ConditionalForwardingConfig;
  Forwarder : ForwarderConfig; UpstreamDNSServers : list gostring; Blocklists : list gostring;
  Whitelist : list gostring; Logging : LoggingConfig; Database : DatabaseConfig; Cache : CacheConfig;
  BlockPage : BlockPageConfig; Unbound : UnboundConfig; UpdateInterval : Z;
  AutoUpdateBlocklists : bool }.

(** ** Bcrypt *)

(** [GenerateFromPassword] at cost 12 (an error for more than 72 bytes) and
    [CompareHashAndPassword]. *)
Class BcryptLib := {
  bcrypt_Generate : gostring -> option gostring;
  bcrypt_Compare : gostring -> gostring -> bool }.

(** A hash is a non-empty text without spaces that its password matches. *)
Class BcryptLibOk (B : BcryptLib) : Prop := {
  bcrypt_hash : forall p h, bcrypt_Generate p = Some h ->
    h <> [] /\ TrimSpace h = h /\ bcrypt_Compare h p = true }.

(** ** Defaults *)

Definition or_str (s d : gostring) : gostring := match s with [] => d | _ => s end.
Definition or_int (n d : Z) : Z := if n =? 0 then d else n.
Definition or_list {A} (l d : list A) : list A := match l with [] => d | _ => l end.

Definition Second : Z := 1000000000.
Definition Minute : Z := 60 * Second.
Definition Hour : Z := 60 * Minute.

Section config.
Context {B : BcryptLib}.

Definition migratePasswordToHash (a : AuthConfig) : AuthConfig :=
  match bcrypt_Generate (Password a) with
  | None => a
  | Some hash => MkAuthConfig (au_Enabled a) (APIKey a) (Header a) (Username a) [] hash
  end.

Definition normalize (a : AuthConfig) : AuthConfig :=
  let a :=
    match TrimSpace (Header a) with
    | [] => MkAuthConfig (au_Enabled a) (APIKey a) (str "Authorization") (Username a) (Password a) (PasswordHash a)
    | _ => a
    end in
  match Password a, PasswordHash a with
  | _ :: _, [] => migratePasswordToHash a
  | _, _ => a
  end.

Definition cf_defaults (c : CFConfig) : CFConfig :=
  MkCFConfig (APIToken c) (ZoneID c) (or_int (cf_TTL c) 120)
    (or_int (PropagationTimeout c) (2 * Minute)) (or_int (PollingInterval c) (2 * Second))
    (or_int (InitialDelay c) (10 * Second)) (SkipAuthNSCheck c).

(** The ACME upstreams are taken from the configuration as it is before its own
    upstreams get their default. *)
Definition acme_defaults (upstreams : list gostring) (a : ACMEConfig) : ACMEConfig :=
  MkACMEConfig (acme_Enabled a) (DNSProvider a) (acme_Hosts a) (or_list (acme_Upstreams a) upstreams)
    (or_str (acme_CacheDir a) (str "./.cache/acme")) (acme_Email a)
    (or_int (RenewBefore a) (30 * 24 * Hour)) (cf_defaults (Cloudflare a)).

Definition tls_defaults (upstreams : list gostring) (t : TLSConfig) : TLSConfig :=
  let ac := Autocert t in
  MkTLSConfig (CertFile t) (KeyFile t)
    (MkAutocertConfig (ac_Enabled ac) (ac_Hosts ac) (ac_CacheDir ac) (ac_Email ac)
       (or_str (HTTP01Address ac) (str ":80")))
    (acme_defaults upstreams (ACME t)).

Definition server_defaults (upstreams : list gostring) (s : ServerConfig) : ServerConfig :=
  let no_proto := negb (TCPEnabled s) && negb (UDPEnabled s) in
  let no_feature := negb (EnableBlocklist s) && negb (EnablePolicies s) in
  MkServerConfig (or_str (ListenAddress s) (str ":53")) (UDPListenAddress s) (TCPListenAddress s)
    (or_str (WebUIAddress s) (str ":8080")) (TCPEnabled s || no_proto) (UDPEnabled s || no_proto)
    (EnableBlocklist s || no_feature) (EnablePolicies s || no_feature) (DecisionTrace s)
    (CORSAllowedOrigins s) (DotEnabled s) (or_str (DotAddress s) (str ":853")) (AllowedClients s)
    (ProxyProtocol s) (tls_defaults upstreams (TLS s)) (QueryLogger s) (TrustedProxies s).

Definition database_defaults (d : DatabaseConfig) : DatabaseConfig :=
  let q := SQLite d in
  MkDatabaseConfig (or_str (Backend d) (str "sqlite"))
    (MkSQLiteConfig (or_str (sq_Path q) (str "./glory-hole.db")) (or_int (BusyTimeout q) 5000) true
       (or_int (CacheSize q) 4096) (or_int (MMapSize q) 33554432))
    (MkStatisticsConfig (st_Enabled (Statistics d)) (or_int (AggregationInterval (Statistics d)) (1 * Hour)))
    (or_int (db_BufferSize d) 500) (or_int (FlushInterval d) (5 * Second)) (or_int (BatchSize d) 100)
    (or_int (RetentionDays d) 7) (db_Enabled d).

Definition cache_defaults (c : CacheConfig) : CacheConfig :=
  MkCacheConfig (ca_Enabled c) (or_int (ca_MaxEntries c) 10000) (or_int (ca_MinTTL c) (60 * Second))
    (or_int (ca_MaxTTL c) (24 * Hour)) (or_int (ca_NegativeTTL c) (5 * Minute))
    (or_int (ca_BlockedTTL c) (1 * Second)) (ca_ShardCount c).

Definition logging_defaults (l : LoggingConfig) : LoggingConfig :=
  MkLoggingConfig (or_str (Level l) (str "info")) (or_str (Format l) (str "text"))
    (or_str (Output l) (str "stdout")) (FilePath l) (AddSource l) (or_int (MaxSize l) 100)
    (or_int (MaxBackups l) 3) (or_int (MaxAge l) 7).

Definition telemetry_defaults (t : TelemetryConfig) : TelemetryConfig :=
  MkTelemetryConfig (or_str (ServiceName t) (str "glory-hole")) (or_str (ServiceVersion t) (str "dev"))
    (TracingEndpoint t) (or_int (PrometheusPort t) 9090) (te_Enabled t) (PrometheusEnabled t)
    (TracingEnabled t) (MetricsUsername t) (MetricsPassword t).

Definition unbound_defaults (u : UnboundConfig) : UnboundConfig :=
  MkUnboundConfig (ub_BinaryPath u) (or_str (ub_ConfigPath u) (str "/etc/unbound/unbound.conf"))
    (or_str (ub_ControlSocket u) (str "/var/run/unbound/control.sock")) (or_int (ub_ListenPort u) 5353)
    (ub_Enabled u) (ub_Managed u).

Definition default_upstreams : list gostring := [str "1.1.1.1:53"; str "8.8.8.8:53"].

Definition applyDefaults (c : Config) : Config :=
  MkConfig (telemetry_defaults (Telemetry c)) (server_defaults (UpstreamDNSServers c) (Server c))
    (Policy c) (normalize (Auth c)) (LocalRecords c) (ConditionalForwarding c) (Forwarder c)
    (or_list (UpstreamDNSServers c) default_upstreams) (Blocklists c) (Whitelist c)
    (logging_defaults (Logging c)) (database_defaults (Database c)) (cache_defaults (Cache c))
    (BlockPage c) (unbound_defaults (Unbound c)) (or_int (UpdateInterval c) (24 * Hour))
    (AutoUpdateBlocklists c).

(** The zero value, and the other defaults of the package and of pkg/storage. *)
Definition zero_Config : Config :=
  MkConfig (MkTelemetryConfig [] [] [] 0 false false false [] [])
    (MkServerConfig [] [] [] [] false false false false false [] false [] [] false
       (MkTLSConfig [] [] (MkAutocertConfig false [] [] [] [])
          (MkACMEConfig false [] [] [] [] [] 0 (MkCFConfig [] [] 0 0 0 0 false)))
       (MkQueryLoggerConfig false 0 0) [])
    (MkPolicyConfig [] false) (MkAuthConfig false [] [] [] [] []) (MkLocalRecordsConfig [] false)
    (MkConditionalForwardingConfig [] false)
    (MkForwarderConfig (MkCircuitBreakerConfig false 0 0 0) None) [] [] []
    (MkLoggingConfig [] [] [] [] false 0 0 0)
    (MkDatabaseConfig [] (MkSQLiteConfig [] 0 false 0 0) (MkStatisticsConfig false 0) 0 0 0 0 false)
    (MkCacheConfig false 0 0 0 0 0 0) (MkBlockPageConfig false [])
    (MkUnboundConfig [] [] [] 0 false false) 0 false.

Definition DefaultConditionalForwardingConfig : ConditionalForwardingConfig :=
  MkConditionalForwardingConfig [] false.

Definition DefaultConfig : DatabaseConfig :=
  MkDatabaseConfig (str "sqlite") (MkSQLiteConfig (str "./glory-hole.db") 5000 true 4096 268435456)
    (MkStatisticsConfig true (1 * Hour)) 50000 (5 * Second) 100 7 true.

(** [storage.Config.Validate]: the error, or the repaired settings. *)
Definition storage_Validate (d : DatabaseConfig) : option DatabaseConfig :=
  if negb (db_Enabled d) then Some d
  else if negb (bytes_eqb (Backend d) (str "sqlite")) then None
  else
    let q := SQLite d in
    let at_least_1 n d := if n <? 1 then d else n in
    Some (MkDatabaseConfig (Backend d)
            (MkSQLiteConfig (sq_Path q) (BusyTimeout q) (WALMode q) (CacheSize q)
               (if MMapSize q <? 0 then 0 else MMapSize q))
            (Statistics d) (at_least_1 (db_BufferSize d) 100) (FlushInterval d)
            (at_least_1 (BatchSize d) 100) (at_least_1 (RetentionDays d) 7) (db_Enabled d)).

(** ** Environment *)

(** The variables GLORYHOLE_API_KEY, GLORYHOLE_BASIC_USER and
    GLORYHOLE_BASIC_PASS; [None] when unset. *)
Record Env := MkEnv { env_key : option gostring; env_user : option gostring; env_pass : option gostring }.

Definition env_auth (e : Env) (a : AuthConfig) : AuthConfig :=
  let a := match TrimSpace (default [] (env_key e)) with
           | [] => a
           | key => MkAuthConfig true key (Header a) (Username a) (Password a) (PasswordHash a)
           end in
  let a := match TrimSpace (default [] (env_user e)) with
           | [] => a
           | user => MkAuthConfig true (APIKey a) (Header a) user (Password a) (PasswordHash a)
           end in
  let a := match env_pass e with
           | None => a
           | Some pass => MkAuthConfig true (APIKey a) (Header a) (Username a) pass (PasswordHash a)
           end in
  normalize a.

Definition with_auth (a : AuthConfig) (c : Config) : Config :=
  MkConfig (Telemetry c) (Server c) (Policy c) a (LocalRecords c) (ConditionalForwarding c) (Forwarder c)
    (UpstreamDNSServers c) (Blocklists c) (Whitelist c) (Logging c) (Database c) (Cache c) (BlockPage c)
    (Unbound c) (UpdateInterval c) (AutoUpdateBlocklists c).

Definition applyEnvOverrides (e : Env) (c : Config) : Config := with_auth (env_auth e (Auth c)) c.

Definition LoadWithDefaults (e : Env) : Config := applyEnvOverrides e (applyDefaults zero_Config).

(** [UDPAddr] and [TCPAddr]. *)
Definition UDPAddr (s : ServerConfig) : gostring := or_str (UDPListenAddress s) (ListenAddress s).
Definition TCPAddr (s : ServerConfig) : gostring := or_str (TCPListenAddress s) (ListenAddress s).

(** ** Validation *)

Inductive ConfigErr :=
| EmptyListenAddress | NoProtocol | EmptyDotAddress | CertPairIncomplete | AutocertNoHosts
| AutocertNoAddress | DotNeedsTLS | AcmeNoHosts | AcmeBadProvider | AcmeBadTTL | AcmeBadTimeout
| AcmeBadInterval | NoUpstreamServers | BadLogLevel | BadLogFormat | BadLogOutput | NoLogFile
| AuthNoCredentials
| ErrInvalidName | ErrNoUpstreams | ErrInvalidUpstream | ErrInvalidPriority | ErrNoMatchingConditions.

(** A list of guards, the first failing one is the error. *)
Fixpoint first_error (checks : list (bool * ConfigErr)) : result ConfigErr unit :=
  match checks with
  | [] => Ok tt
  | (bad, e) :: checks' => if bad then Err e else first_error checks'
  end.

Definition blank (s : gostring) : bool := bool_decide (TrimSpace s = []).
Definition empty (s : gostring) : bool := bool_decide (s = []).
Definition no_items {A} (l : list A) : bool := match l with [] => true | _ => false end.
Definition one_of (s : gostring) (l : list string) : bool := existsb (fun x => bytes_eqb s (str x)) l.

(** [ForwardingRule.Validate] sets a missing priority on the way. *)
Definition rule_Validate (r : ForwardingRule) : result ConfigErr unit * ForwardingRule :=
  match first_error [(empty (fr_Name r), ErrInvalidName); (no_items (fr_Upstreams r), ErrNoUpstreams);
                     (existsb empty (fr_Upstreams r), ErrInvalidUpstream)] with
  | Err e => (Err e, r)
  | Ok _ =>
      let r := MkForwardingRule (fr_Name r) (fr_Domains r) (fr_ClientCIDRs r) (fr_QueryTypes r)
                 (fr_Upstreams r) (or_int (fr_Priority r) 50) (fr_Enabled r) in
      (first_error [((fr_Priority r <? 1) || (100 <? fr_Priority r), ErrInvalidPriority);
                    (no_items (fr_Domains r) && no_items (fr_ClientCIDRs r) && no_items (fr_QueryTypes r),
                     ErrNoMatchingConditions)], r)
  end.

Fixpoint rules_Validate (rs : list ForwardingRule) : result ConfigErr unit * list ForwardingRule :=
  match rs with
  | [] => (Ok tt, [])
  | r :: rs' =>
      match rule_Validate r with
      | (Err e, r') => (Err e, r' :: rs')
      | (Ok _, r') => let '(res, rs'') := rules_Validate rs' in (res, r' :: rs'')
      end
  end.

Definition cf_Validate (c : ConditionalForwardingConfig)
    : result ConfigErr unit * ConditionalForwardingConfig :=
  if negb (cw_Enabled c) then (Ok tt, c)
  else let '(res, rs) := rules_Validate (cw_Rules c) in (res, MkConditionalForwardingConfig rs (cw_Enabled c)).

Definition dot_checks (s : ServerConfig) : list (bool * ConfigErr) :=
  let t := TLS s in
  let certSet := negb (blank (CertFile t)) || negb (blank (KeyFile t)) in
  let ac := Autocert t in
  let am := ACME t in
  let cf := Cloudflare am in
  [(blank (DotAddress s), EmptyDotAddress);
   (certSet && (blank (CertFile t) || blank (KeyFile t)), CertPairIncomplete);
   (ac_Enabled ac && no_items (ac_Hosts ac), AutocertNoHosts);
   (ac_Enabled ac && blank (HTTP01Address ac), AutocertNoAddress);
   (negb certSet && negb (ac_Enabled ac) && negb (acme_Enabled am), DotNeedsTLS);
   (acme_Enabled am && no_items (acme_Hosts am), AcmeNoHosts);
   (acme_Enabled am && negb (bytes_eqb (DNSProvider am) (str "cloudflare")), AcmeBadProvider);
   (acme_Enabled am && ((0 <? cf_TTL cf) && (cf_TTL cf <? 120)), AcmeBadTTL);
   (acme_Enabled am && (PropagationTimeout cf <? 0), AcmeBadTimeout);
   (acme_Enabled am && (PollingInterval cf <? 0), AcmeBadInterval)].

Definition logging_checks (l : LoggingConfig) : list (bool * ConfigErr) :=
  [(negb (one_of (Level l) ["debug"; "info"; "warn"; "error"]), BadLogLevel);
   (negb (one_of (Format l) ["json"; "text"]), BadLogFormat);
   (negb (one_of (Output l) ["stdout"; "stderr"; "file"]), BadLogOutput);
   (bytes_eqb (Output l) (str "file") && empty (FilePath l), NoLogFile)].

(** The guards before the first mutation. *)
Definition static_checks (c : Config) : list (bool * ConfigErr) :=
  [(empty (ListenAddress (Server c)), EmptyListenAddress);
   (negb (TCPEnabled (Server c)) && negb (UDPEnabled (Server c)), NoProtocol)]
  ++ (if DotEnabled (Server c) then dot_checks (Server c) else [])
  ++ [(no_items (UpstreamDNSServers c), NoUpstreamServers)]
  ++ logging_checks (Logging c).


(** The check of enabled authentication, on the normalized settings. *)
Definition auth_Validate (a : AuthConfig) : result ConfigErr unit * AuthConfig :=
  if au_Enabled a then
    let a := normalize a in
    let hasAPIKey := negb (blank (APIKey a)) in
    let hasCredentials := negb (empty (Username a)) && (negb (empty (Password a)) || negb (empty (PasswordHash a))) in
    (if negb hasAPIKey && negb hasCredentials then Err AuthNoCredentials else Ok tt, a)
  else (Ok tt, a).

Definition with_forwarding (f : ConditionalForwardingConfig) (c : Config) : Config :=
  MkConfig (Telemetry c) (Server c) (Policy c) (Auth c) (LocalRecords c) f (Forwarder c)
    (UpstreamDNSServers c) (Blocklists c) (Whitelist c) (Logging c) (Database c) (Cache c) (BlockPage c)
    (Unbound c) (UpdateInterval c) (AutoUpdateBlocklists c).

(** [Validate] returns the error and the configuration it leaves behind. *)
Definition Validate (c : Config) : result ConfigErr unit * Config :=
  match first_error (static_checks c) with
  | Err e => (Err e, c)
  | Ok _ =>
      let '(res, a) := auth_Validate (Auth c) in
      let c := with_auth a c in
      match res with
      | Err e => (Err e, c)
      | Ok _ => let '(res, f) := cf_Validate (ConditionalForwarding c) in (res, with_forwarding f c)
      end
  end.

(** ** Loading *)

(** yaml.Unmarshal into a zero Config, yaml.Marshal, and the reading of the
    file, as functions of the content. *)
Class YamlLib := {
  yaml_Unmarshal : gostring -> option Config;
  yaml_Marshal : Config -> option gostring }.

Inductive LoadErr := ReadFailed | ParseFailed | ValidationFailed (e : ConfigErr).

Context {Y : YamlLib}.

Definition Load (e : Env) (file : option gostring) : result LoadErr Config :=
  match file with
  | None => Err ReadFailed
  | Some data =>
      match yaml_Unmarshal data with
      | None => Err ParseFailed
      | Some cfg =>
          let cfg := applyEnvOverrides e (applyDefaults cfg) in
          match Validate cfg with
          | (Err err, _) => Err (ValidationFailed err)
          | (Ok _, cfg') => Ok cfg'
          end
      end
  end.

(** [Clone]: through YAML, then the defaults again. *)
Definition Clone (c : Config) : option Config :=
  data ← yaml_Marshal c; clone ← yaml_Unmarshal data;
  let clone := applyDefaults clone in Some (with_auth (normalize (Auth clone)) clone).

(** The watcher holds the last configuration that loaded. *)
Record Watcher := MkWatcher { w_cfg : Config; notified : list Config }.

Definition NewWatcher (e : Env) (file : option gostring) : result LoadErr Watcher :=
  match Load e file with Ok c => Ok (MkWatcher c []) | Err err => Err err end.

Definition reload (e : Env) (file : option gostring) (w : Watcher) : result LoadErr unit * Watcher :=
  match Load e file with
  | Err err => (Err err, w)
  | Ok c => (Ok tt, MkWatcher c (notified w))
  end.

(** The debounced reload of [Start]: the callback runs on success only. *)
Definition on_file_change (e : Env) (file : option gostring) (w : Watcher) : Watcher :=
  match reload e file w with
  | (Err _, w') => w'
  | (Ok _, w') => MkWatcher (w_cfg w') (notified w' ++ [w_cfg w'])
  end.


(** ** Defaults are stable *)

Lemma or_str_idem s d : or_str (or_str s d) d = or_str s d.
Proof. by destruct s, d. Qed.
Lemma or_int_idem n d : or_int (or_int n d) d = or_int n d.
Proof. unfold or_int. destruct (n =? 0) eqn:E; [|by rewrite E]. by destruct (d =? 0). Qed.
Lemma or_list_idem {A} (l d : list A) : or_list (or_list l d) d = or_list l d.
Proof. by destruct l, d. Qed.
Lemma both_off_idem a b : (a || negb a && negb b) || negb (a || negb a && negb b) && negb (b || negb a && negb b)
  = a || negb a && negb b.
Proof. by destruct a, b. Qed.
Lemma both_off_idem' a b : (b || negb a && negb b) || negb (a || negb a && negb b) && negb (b || negb a && negb b)
  = b || negb a && negb b.
Proof. by destruct a, b. Qed.
#[local] Hint Rewrite or_str_idem or_int_idem @or_list_idem both_off_idem both_off_idem' : defaults.

Context {BO : BcryptLibOk B}.

Lemma normalize_idem a : normalize (normalize a) = normalize a.
Proof using BO.
  assert (forall e k h u p q, TrimSpace h <> [] ->
    normalize (normalize (MkAuthConfig e k h u p q)) = normalize (MkAuthConfig e k h u p q)) as H.
  { intros e k h u p q Hh.
    assert (forall p q, normalize (MkAuthConfig e k h u p q) =
      match p, q with _ :: _, [] => migratePasswordToHash (MkAuthConfig e k h u p q)
                    | _, _ => MkAuthConfig e k h u p q end) as Hn.
    { intros p' q'. unfold normalize. cbn [Header]. by destruct (TrimSpace h). }
    rewrite Hn. destruct p as [|c p], q as [|d q]; rewrite ?Hn; try done.
    unfold migratePasswordToHash. cbn [Password au_Enabled APIKey Header Username].
    destruct (bcrypt_Generate (c :: p)) as [hash|] eqn:E; rewrite Hn; [done|].
    unfold migratePasswordToHash. cbn [Password]. by rewrite E. }
  destruct a as [e k h u p q]. destruct (TrimSpace h) as [|c h'] eqn:Eh.
  - assert (normalize (MkAuthConfig e k h u p q) = normalize (MkAuthConfig e k (str "Authorization") u p q)) as ->.
    { unfold normalize. cbn [Header]. by rewrite Eh. }
    by apply H.
  - apply H. by rewrite Eh.
Qed.

Lemma applyDefaults_twice c :
  applyDefaults (applyDefaults c) =
    let c1 := applyDefaults c in
    MkConfig (Telemetry c1) (server_defaults (UpstreamDNSServers c1) (Server c1)) (Policy c1) (Auth c1)
      (LocalRecords c1) (ConditionalForwarding c1) (Forwarder c1) (UpstreamDNSServers c1) (Blocklists c1)
      (Whitelist c1) (Logging c1) (Database c1) (Cache c1) (BlockPage c1) (Unbound c1) (UpdateInterval c1)
      (AutoUpdateBlocklists c1).
Proof using BO.
  unfold applyDefaults at 1. cbn zeta.
  assert (telemetry_defaults (Telemetry (applyDefaults c)) = Telemetry (applyDefaults c)) as ->.
  { cbn. unfold telemetry_defaults. cbn. by autorewrite with defaults. }
  assert (logging_defaults (Logging (applyDefaults c)) = Logging (applyDefaults c)) as ->.
  { cbn. unfold logging_defaults. cbn. by autorewrite with defaults. }
  assert (database_defaults (Database (applyDefaults c)) = Database (applyDefaults c)) as ->.
  { cbn. unfold database_defaults. cbn. by autorewrite with defaults. }
  assert (cache_defaults (Cache (applyDefaults c)) = Cache (applyDefaults c)) as ->.
  { cbn. unfold cache_defaults. cbn. by autorewrite with defaults. }
  assert (unbound_defaults (Unbound (applyDefaults c)) = Unbound (applyDefaults c)) as ->.
  { cbn. unfold unbound_defaults. cbn. by autorewrite with defaults. }
  assert (normalize (Auth (applyDefaults c)) = Auth (applyDefaults c)) as -> by (cbn; apply normalize_idem).
  assert (or_list (UpstreamDNSServers (applyDefaults c)) default_upstreams = UpstreamDNSServers (applyDefaults c))
    as -> by (cbn [applyDefaults UpstreamDNSServers]; apply or_list_idem).
  assert (or_int (UpdateInterval (applyDefaults c)) (24 * Hour) = UpdateInterval (applyDefaults c)) as ->
    by (cbn [applyDefaults UpdateInterval]; apply or_int_idem).
  done.
Qed.

Lemma server_defaults_twice u u' s :
  server_defaults u' (server_defaults u s) = server_defaults (or_list u u') s.
Proof.
  unfold server_defaults, tls_defaults, acme_defaults, cf_defaults. cbn. autorewrite with defaults.
  do 3 f_equal. by destruct (acme_Upstreams (ACME (TLS s))), u.
Qed.

(** Applying the defaults is stable after the second time, and after the
    first one exactly when upstream servers or ACME upstreams are configured:
    otherwise the ACME upstreams stay empty the first time, because they are
    inherited before the upstream servers get their own default, and are filled
    in by the defaults that [Clone] applies again. *)
Theorem defaults_idempotent (c : Config) :
  (applyDefaults (applyDefaults c) = applyDefaults c <->
     UpstreamDNSServers c <> [] \/ acme_Upstreams (ACME (TLS (Server c))) <> []) /\
  applyDefaults (applyDefaults (applyDefaults c)) = applyDefaults (applyDefaults c).
Proof using BO.
  rewrite (applyDefaults_twice (applyDefaults c)), !(applyDefaults_twice c). cbn zeta.
  cbn [applyDefaults Server UpstreamDNSServers Telemetry Policy Auth LocalRecords ConditionalForwarding
    Forwarder Blocklists Whitelist Logging Database Cache BlockPage Unbound UpdateInterval AutoUpdateBlocklists].
  rewrite !server_defaults_twice. split.
  - split.
    + intros H. apply (f_equal (fun c => acme_Upstreams (ACME (TLS (Server c))))) in H. cbn in H.
      destruct (UpstreamDNSServers c), (acme_Upstreams _); try done; by (left + right).
    + intros [H|H].
      * unfold applyDefaults. by destruct (UpstreamDNSServers c).
      * unfold applyDefaults. f_equal. unfold server_defaults, tls_defaults, acme_defaults.
        by destruct (acme_Upstreams (ACME (TLS (Server c)))).
  - by destruct (UpstreamDNSServers c).
Qed.

(** ** Validation *)

(** What a valid configuration is. *)
Definition tls_valid (s : ServerConfig) : Prop :=
  let t := TLS s in
  let manual := ~ (blank (CertFile t) = true /\ blank (KeyFile t) = true) in
  blank (DotAddress s) = false /\
  (manual -> blank (CertFile t) = false /\ blank (KeyFile t) = false) /\
  (ac_Enabled (Autocert t) = true -> ac_Hosts (Autocert t) <> [] /\ blank (HTTP01Address (Autocert t)) = false) /\
  (manual \/ ac_Enabled (Autocert t) = true \/ acme_Enabled (ACME t) = true) /\
  (acme_Enabled (ACME t) = true ->
     acme_Hosts (ACME t) <> [] /\ DNSProvider (ACME t) = str "cloudflare" /\
     (cf_TTL (Cloudflare (ACME t)) <= 0 \/ 120 <= cf_TTL (Cloudflare (ACME t))) /\
     0 <= PropagationTimeout (Cloudflare (ACME t)) /\ 0 <= PollingInterval (Cloudflare (ACME t))).

Definition logging_valid (l : LoggingConfig) : Prop :=
  Level l ∈ [str "debug"; str "info"; str "warn"; str "error"] /\
  Format l ∈ [str "json"; str "text"] /\ Output l ∈ [str "stdout"; str "stderr"; str "file"] /\
  (Output l = str "file" -> FilePath l <> []).

Definition auth_valid (a : AuthConfig) : Prop :=
  au_Enabled a = true ->
  TrimSpace (APIKey a) <> [] \/ (Username a <> [] /\ (Password a <> [] \/ PasswordHash a <> [])).

Definition rule_valid (r : ForwardingRule) : Prop :=
  fr_Name r <> [] /\ fr_Upstreams r <> [] /\ [] ∉ fr_Upstreams r /\
  0 <= fr_Priority r <= 100 /\
  (fr_Domains r <> [] \/ fr_ClientCIDRs r <> [] \/ fr_QueryTypes r <> []).

Definition valid (c : Config) : Prop :=
  ListenAddress (Server c) <> [] /\ (TCPEnabled (Server c) = true \/ UDPEnabled (Server c) = true) /\
  (DotEnabled (Server c) = true -> tls_valid (Server c)) /\ UpstreamDNSServers c <> [] /\
  logging_valid (Logging c) /\ auth_valid (Auth c) /\
  (cw_Enabled (ConditionalForwarding c) = true -> Forall rule_valid (cw_Rules (ConditionalForwarding c))).

Lemma first_error_ok l : first_error l = Ok tt <-> Forall (fun x => x.1 = false) l.
Proof.
  induction l as [|[b e] l IH]; cbn; [split; constructor|]. rewrite Forall_cons, <- IH. cbn.
  destruct b; naive_solver.
Qed.

Lemma empty_false s : empty s = false <-> s <> [].
Proof. unfold empty. by rewrite bool_decide_eq_false. Qed.
Lemma no_items_false {A} (l : list A) : no_items l = false <-> l <> [].
Proof. by destruct l. Qed.
Lemma one_of_spec s l : one_of s l = true <-> s ∈ (str <$> l).
Proof.
  unfold one_of. rewrite existsb_exists, list_elem_of_fmap. split.
  - intros (x & Hx & E). apply bytes_eqb_eq in E. exists x. by rewrite list_elem_of_In.
  - intros (x & -> & Hx). exists x. rewrite <- list_elem_of_In. split; [done|]. apply bytes_eqb_refl.
Qed.

Lemma andb_impl a b : a && b = false <-> (a = true -> b = false).
Proof. destruct a, b; naive_solver. Qed.
Lemma ttl_guard n : (0 < n -> 120 <= n) <-> n <= 0 \/ 120 <= n.
Proof. lia. Qed.

Lemma dot_checks_ok s : Forall (fun x => x.1 = false) (dot_checks s) <-> tls_valid s.
Proof.
  unfold dot_checks, tls_valid. rewrite !Forall_cons. cbn [fst]. rewrite Forall_nil.
  destruct (blank (CertFile (TLS s))), (blank (KeyFile (TLS s))); cbn [negb orb andb];
    rewrite ?andb_impl, ?no_items_false, ?negb_false_iff, ?bytes_eqb_eq, ?Z.ltb_ge, ?Z.ltb_lt, ?ttl_guard.
  - destruct (ac_Enabled (Autocert (TLS s))), (acme_Enabled (ACME (TLS s))); cbn [negb andb]; intuition congruence.
  - intuition congruence.
  - intuition congruence.
  - intuition congruence.
Qed.

Lemma logging_checks_ok l : Forall (fun x => x.1 = false) (logging_checks l) <-> logging_valid l.
Proof.
  unfold logging_checks, logging_valid. rewrite !Forall_cons, Forall_nil. cbn [fst].
  rewrite !negb_false_iff, !one_of_spec, andb_impl, bytes_eqb_eq, empty_false. cbn [fmap list_fmap]. tauto.
Qed.

Lemma static_checks_ok c :
  Forall (fun x => x.1 = false) (static_checks c) <->
  ListenAddress (Server c) <> [] /\ (TCPEnabled (Server c) = true \/ UDPEnabled (Server c) = true) /\
  (DotEnabled (Server c) = true -> tls_valid (Server c)) /\ UpstreamDNSServers c <> [] /\
  logging_valid (Logging c).
Proof.
  unfold static_checks. rewrite !Forall_app, !Forall_cons, Forall_nil, logging_checks_ok. cbn [fst].
  rewrite empty_false, no_items_false.
  assert (Forall (fun x => x.1 = false) (if DotEnabled (Server c) then dot_checks (Server c) else []) <->
          (DotEnabled (Server c) = true -> tls_valid (Server c))) as ->.
  { destruct (DotEnabled (Server c)); [rewrite dot_checks_ok; tauto|]. rewrite Forall_nil. naive_solver. }
  destruct (TCPEnabled (Server c)), (UDPEnabled (Server c)); cbn [negb andb]; intuition congruence.
Qed.

Lemma existsb_empty l : existsb empty l = false <-> [] ∉ l.
Proof.
  induction l as [|x l IH]; cbn [existsb]; [split; [|done]; intros _ H%elem_of_nil; done|].
  rewrite orb_false_iff, empty_false, IH, not_elem_of_cons. intuition congruence.
Qed.

Definition with_priority (r : ForwardingRule) : ForwardingRule :=
  MkForwardingRule (fr_Name r) (fr_Domains r) (fr_ClientCIDRs r) (fr_QueryTypes r) (fr_Upstreams r)
    (or_int (fr_Priority r) 50) (fr_Enabled r).

Lemma rule_Validate_spec r :
  ((rule_Validate r).1 = Ok tt <-> rule_valid r) /\
  ((rule_Validate r).1 = Ok tt -> (rule_Validate r).2 = with_priority r).
Proof.
  unfold rule_Validate, rule_valid. destruct (first_error _) as [[]|e] eqn:E.
  - split; [|done]. cbn [fst snd]. rewrite first_error_ok, !Forall_cons, Forall_nil in *. cbn in E |- *.
    rewrite empty_false, no_items_false, existsb_empty in E.
    rewrite orb_false_iff, !Z.ltb_ge, !andb_impl, no_items_false.
    assert (1 <= or_int (fr_Priority r) 50 <= 100 <-> 0 <= fr_Priority r <= 100) as Hp.
    { unfold or_int. destruct (Z.eqb_spec (fr_Priority r) 0); lia. }
    destruct (fr_Domains r), (fr_ClientCIDRs r); cbn [no_items]; intuition (congruence || lia).
  - split; [|done]. split; [done|]. intros H. exfalso.
    assert (first_error [(empty (fr_Name r), ErrInvalidName); (no_items (fr_Upstreams r), ErrNoUpstreams);
      (existsb empty (fr_Upstreams r), ErrInvalidUpstream)] = Ok tt) as Hok; [|congruence].
    apply first_error_ok. rewrite !Forall_cons, Forall_nil. cbn.
    rewrite empty_false, no_items_false, existsb_empty. tauto.
Qed.

Lemma rules_Validate_spec rs :
  ((rules_Validate rs).1 = Ok tt <-> Forall rule_valid rs) /\
  ((rules_Validate rs).1 = Ok tt -> (rules_Validate rs).2 = with_priority <$> rs).
Proof.
  induction rs as [|r rs [IH1 IH2]]; cbn [rules_Validate]; [split; [split; constructor|done]|].
  destruct (rule_Validate_spec r) as [H1 H2]. rewrite Forall_cons, <- H1, <- IH1.
  destruct (rule_Validate r) as [[[]|e] r']; cbn [fst snd] in *.
  - destruct (rules_Validate rs) as [res rs']. cbn [fst snd] in *. split; [naive_solver|].
    intros Hr. rewrite H2, IH2 by done. done.
  - naive_solver.
Qed.

Lemma normalize_auth a :
  au_Enabled (normalize a) = au_Enabled a /\ APIKey (normalize a) = APIKey a /\
  Username (normalize a) = Username a /\
  (Password (normalize a) <> [] \/ PasswordHash (normalize a) <> [] <-> Password a <> [] \/ PasswordHash a <> []).
Proof using BO.
  unfold normalize, migratePasswordToHash.
  destruct (TrimSpace (Header a)), (Password a) as [|c p] eqn:Ep, (PasswordHash a) as [|d h] eqn:Eh;
    cbn; rewrite ?Ep, ?Eh; try (destruct (bcrypt_Generate _) as [hash|] eqn:E; [destruct (bcrypt_hash _ _ E) as [? _]|]);
    cbn; rewrite ?Ep, ?Eh; naive_solver.
Qed.

Lemma auth_Validate_spec a :
  ((auth_Validate a).1 = Ok tt <-> auth_valid a) /\
  (auth_Validate a).2 = if au_Enabled a then normalize a else a.
Proof using BO.
  unfold auth_Validate, auth_valid. destruct (au_Enabled a); [|naive_solver]. cbn [fst snd]. split; [|done].
  destruct (normalize_auth a) as (_ & -> & -> & Hp). rewrite <- Hp. unfold blank, empty.
  destruct (bool_decide_reflect (TrimSpace (APIKey a) = [])), (bool_decide_reflect (Username a = [])),
    (bool_decide_reflect (Password (normalize a) = [])), (bool_decide_reflect (PasswordHash (normalize a) = []));
    cbn [negb andb orb]; intuition congruence.
Qed.

(** What a successful [Validate] leaves behind. *)
Definition validated (c : Config) : Config :=
  let f := ConditionalForwarding c in
  with_forwarding
    (if cw_Enabled f then MkConditionalForwardingConfig (with_priority <$> cw_Rules f) true else f)
    (with_auth (if au_Enabled (Auth c) then normalize (Auth c) else Auth c) c).

Lemma Validate_spec c :
  ((Validate c).1 = Ok tt <-> valid c) /\ ((Validate c).1 = Ok tt -> (Validate c).2 = validated c).
Proof using BO.
  unfold Validate, valid, validated. pose proof (static_checks_ok c) as Hst. rewrite <- first_error_ok in Hst.
  destruct (first_error (static_checks c)) as [[]|e]; cbn [fst snd].
  2: { split; [|done]. split; [done|]. intros H. enough (Err e = @Ok ConfigErr unit tt) by done. apply Hst. tauto. }
  destruct (auth_Validate_spec (Auth c)) as [Ha Ha'].
  destruct (auth_Validate (Auth c)) as [[[]|e] a]; cbn [fst snd] in *.
  2: { split; [|done]. split; [done|]. intros H. enough (Err e = @Ok ConfigErr unit tt) by done. apply Ha. tauto. }
  subst a. unfold cf_Validate. cbn [with_auth ConditionalForwarding].
  destruct (rules_Validate_spec (cw_Rules (ConditionalForwarding c))) as [Hr Hr'].
  destruct (cw_Enabled (ConditionalForwarding c)); cbn [negb fst snd].
  - destruct (rules_Validate _) as [res rs]. cbn [fst snd] in *. split; [|by intros ->%Hr'].
    rewrite Hr. tauto.
  - split; [|done]. split; [|done]. intros _. split_and!; try tauto. done.
Qed.

Lemma with_priority_idem r : with_priority (with_priority r) = with_priority r.
Proof. unfold with_priority. cbn. by rewrite or_int_idem. Qed.

Lemma with_priority_valid r : rule_valid r -> rule_valid (with_priority r).
Proof.
  unfold rule_valid, with_priority. cbn. intros (?&?&?&?&?). split_and!; try done; unfold or_int;
    destruct (fr_Priority r =? 0); lia.
Qed.

Lemma validated_valid c : valid c -> valid (validated c).
Proof using BO.
  unfold valid, validated. cbn. intros (?&?&?&?&?&Ha&Hf). split_and!; try done.
  - unfold auth_valid in *. destruct (au_Enabled (Auth c)) eqn:E; [|by rewrite E].
    destruct (normalize_auth (Auth c)) as (-> & -> & -> & ->). by rewrite E.
  - destruct (cw_Enabled (ConditionalForwarding c)) eqn:E; cbn; [|by rewrite E]. intros _.
    apply Forall_fmap. eapply Forall_impl; [by apply Hf|]. intros r. apply with_priority_valid.
Qed.

Lemma validated_idem c : validated (validated c) = validated c.
Proof using BO.
  unfold validated. cbn. destruct c as [? ? ? a ? f ? ? ? ? ? ? ? ? ? ? ?]. cbn.
  destruct (au_Enabled a) eqn:Ea.
  - destruct (normalize_auth a) as (-> & _). rewrite Ea, normalize_idem. unfold with_forwarding. cbn. f_equal.
    destruct (cw_Enabled f) eqn:Ef; cbn; [|by rewrite Ef].
    f_equal. rewrite <- list_fmap_compose. apply list_fmap_ext. intros ? ? _. apply with_priority_idem.
  - rewrite Ea. unfold with_forwarding. cbn. f_equal. destruct (cw_Enabled f) eqn:Ef; cbn; [|by rewrite Ef].
    f_equal. rewrite <- list_fmap_compose. apply list_fmap_ext. intros ? ? _. apply with_priority_idem.
Qed.

(** The configuration [Load] validates. *)
Definition effective (e : Env) (c : Config) : Config := applyEnvOverrides e (applyDefaults c).

Lemma effective_basics e c :
  ListenAddress (Server (effective e c)) <> [] /\
  (TCPEnabled (Server (effective e c)) = true \/ UDPEnabled (Server (effective e c)) = true) /\
  UpstreamDNSServers (effective e c) <> [] /\
  EnableBlocklist (Server (effective e c)) || EnablePolicies (Server (effective e c)) = true.
Proof.
  cbn. split_and!.
  - by destruct (ListenAddress (Server c)).
  - destruct (TCPEnabled (Server c)), (UDPEnabled (Server c)); cbn; tauto.
  - by destruct (UpstreamDNSServers c).
  - by destruct (EnableBlocklist (Server c)), (EnablePolicies (Server c)).
Qed.

(** The errors the defaults rule out. *)
Definition preempted (e : ConfigErr) : bool :=
  match e with EmptyListenAddress | NoProtocol | NoUpstreamServers => true | _ => false end.

Lemma first_error_err l e : first_error l = Err e -> exists b, (b, e) ∈ l /\ b = true.
Proof.
  induction l as [|[b e'] l IH]; cbn; [done|]. destruct b.
  - intros [= ->]. exists true. split; [left|done].
  - intros H. destruct (IH H) as (b & ? & ?). exists b. split; [by right|done].
Qed.

Lemma static_not_preempted c e :
  ListenAddress (Server c) <> [] -> (TCPEnabled (Server c) = true \/ UDPEnabled (Server c) = true) ->
  UpstreamDNSServers c <> [] -> first_error (static_checks c) = Err e -> preempted e = false.
Proof.
  intros H1 H2 H3 H. apply first_error_err in H as (b & Hb & ->). revert Hb.
  unfold static_checks. rewrite (proj2 (empty_false _) H1), (proj2 (no_items_false _) H3).
  assert (negb (TCPEnabled (Server c)) && negb (UDPEnabled (Server c)) = false) as ->.
  { destruct H2 as [-> | ->]; [done|apply andb_false_r]. }
  rewrite !elem_of_app, list_elem_of_In. unfold dot_checks, logging_checks. rewrite !list_elem_of_In.
  destruct (DotEnabled (Server c)); cbn [In]; intros H; repeat (destruct H as [H|H]); simplify_eq; done.
Qed.

Lemma rules_not_preempted rs e : (rules_Validate rs).1 = Err e -> preempted e = false.
Proof.
  assert (forall r e, (rule_Validate r).1 = Err e -> preempted e = false) as Hr.
  { intros r e'. unfold rule_Validate. cbn [first_error]. repeat (case_match; simplify_eq/=; try done);
      by intros [= <-]. }
  induction rs as [|r rs IH]; [done|]. cbn [rules_Validate]. specialize (Hr r).
  destruct (rule_Validate r) as [[[]|e1] r1]; cbn [fst] in *.
  - destruct (rules_Validate rs). exact IH.
  - intros [= <-]. by apply Hr.
Qed.

Lemma Validate_not_preempted e c err :
  (Validate (effective e c)).1 = Err err -> preempted err = false.
Proof using BO.
  destruct (effective_basics e c) as (H1 & H2 & H3 & _). unfold Validate.
  destruct (first_error _) as [[]|e'] eqn:E; cbn [fst]; [|intros [= <-]; by eapply static_not_preempted].
  destruct (auth_Validate (Auth (effective e c))) as [[[]|e1] a] eqn:Ea; cbn [fst].
  - unfold cf_Validate. destruct (negb _); [done|].
    match goal with |- context [rules_Validate ?rs] =>
      pose proof (rules_not_preempted rs) as Hrs; destruct (rules_Validate rs) end. apply Hrs.
  - intros [= <-]. unfold auth_Validate in Ea. destruct (au_Enabled _); [|done].
    destruct (_ && _); by simplify_eq.
Qed.

(** Everything that is wrong with a configuration, in the order in which it is checked:
    the server and the logging, the credentials, the forwarding rules one by one. *)
Definition problems (c : Config) : list ConfigErr :=
  let err (r : result ConfigErr unit) := match r with Err e => [e] | Ok _ => [] end in
  map snd (List.filter fst (static_checks c)) ++
  (if au_Enabled (Auth c) && blank (APIKey (normalize (Auth c))) &&
      (empty (Username (normalize (Auth c))) || (empty (Password (normalize (Auth c))) && empty (PasswordHash (normalize (Auth c)))))
   then [AuthNoCredentials] else []) ++
  (if cw_Enabled (ConditionalForwarding c) then concat (map (fun r => err (rule_Validate r).1) (cw_Rules (ConditionalForwarding c))) else []).

Lemma first_error_app l rest :
  match first_error l with Err e => Err e | Ok _ => rest end =
  match map snd (List.filter fst l) with e :: _ => Err e | [] => rest end :> result ConfigErr unit.
Proof. induction l as [|[[] e] l IH]; cbn; [done|done|exact IH]. Qed.

Lemma rules_problems rs : (rules_Validate rs).1 =
  match concat (map (fun r => match (rule_Validate r).1 with Err e => [e] | Ok _ => [] end) rs) with e :: _ => Err e | [] => Ok tt end.
Proof.
  induction rs as [|r rs IH]; [done|]. cbn [rules_Validate map concat]. destruct (rule_Validate r) as [[[]|e] r']; cbn [fst app]; [|done].
  destruct (rules_Validate rs). exact IH.
Qed.

(** [Validate] returns the first of them. *)
Lemma Validate_problems c : (Validate c).1 = match problems c with e :: _ => Err e | [] => Ok tt end.
Proof using BO.
  unfold problems. set (cf := if cw_Enabled _ then _ else _). set (au := if au_Enabled _ && _ && _ then _ else _).
  assert ((Validate c).1 = match first_error (static_checks c) with Err e => Err e | Ok _ =>
    match au with e :: _ => Err e | [] => match cf with e :: _ => Err e | [] => Ok tt end end end) as ->.
  { unfold Validate. destruct (first_error _) as [[]|]; [|done]. subst au. unfold auth_Validate. destruct (au_Enabled (Auth c)); cbn [andb].
    - rewrite negb_involutive, negb_andb, negb_orb, !negb_involutive. destruct (blank _ && _); [done|]. subst cf. unfold cf_Validate.
      cbn [with_auth ConditionalForwarding]. destruct (cw_Enabled _); [|done]. cbn [negb]. rewrite <- rules_problems. by destruct (rules_Validate _).
    - subst cf. unfold cf_Validate. cbn [with_auth ConditionalForwarding]. destruct (cw_Enabled _); [|done]. cbn [negb].
      rewrite <- rules_problems. by destruct (rules_Validate _). }
  rewrite first_error_app. destruct (map snd _); [|done]. cbn [app]. by destruct au.
Qed.

(** C9: The outcome of [Load] in every case.  It fails for an unreadable file, for text
    that does not parse, or with the first thing that is wrong with the configuration
    of the file when the defaults and the environment have been applied, which is never
    a missing address, protocol or upstream.  Otherwise nothing is wrong with it, and
    it is returned with its credentials trimmed and hashed and its rules' priorities
    filled in: a valid configuration that another [Validate] leaves as it is, with the
    blocklist or the policies enabled; a file that turns both off is loaded with both
    on. *)
Theorem load_outcome (e : Env) (file : option gostring) :
  match Load e file with
  | Err ReadFailed => file = None
  | Err ParseFailed => exists data, file = Some data /\ yaml_Unmarshal data = None
  | Err (ValidationFailed err) =>
      exists data c, file = Some data /\ yaml_Unmarshal data = Some c /\ head (problems (effective e c)) = Some err /\
        ~ valid (effective e c) /\ preempted err = false
  | Ok c' =>
      exists data c, file = Some data /\ yaml_Unmarshal data = Some c /\ problems (effective e c) = [] /\ valid (effective e c) /\
        c' = validated (effective e c) /\ valid c' /\ Validate c' = (Ok tt, c') /\
        EnableBlocklist (Server c') || EnablePolicies (Server c') = true /\
        (EnableBlocklist (Server c) = false -> EnablePolicies (Server c) = false ->
         EnableBlocklist (Server c') = true /\ EnablePolicies (Server c') = true)
  end.
Proof using BO.
  unfold Load. destruct file as [data|]; [|done]. destruct (yaml_Unmarshal data) as [c|] eqn:Ey; [|by exists data].
  fold (effective e c). destruct (Validate_spec (effective e c)) as [Hv Hc].
  pose proof (Validate_not_preempted e c) as Hp. pose proof (Validate_problems (effective e c)) as Hpr.
  destruct (Validate (effective e c)) as [[[]|err] c'] eqn:E; cbn [fst snd] in *.
  - exists data, c. assert (valid (effective e c)) as Hval by (by apply Hv).
    assert (problems (effective e c) = []) as Hnil by by destruct (problems (effective e c)).
    rewrite Hc by done. pose proof (validated_valid _ Hval) as Hval'. split_and!; try done.
    + destruct (Validate_spec (validated (effective e c))) as [Hv' Hc'].
      destruct (Validate (validated (effective e c))) as [r c2]; cbn [fst snd] in *.
      assert (r = Ok tt) as -> by (by apply Hv'). by rewrite Hc', validated_idem.
    + apply effective_basics.
    + intros H1 H2. cbn. by rewrite H1, H2.
  - exists data, c. assert (head (problems (effective e c)) = Some err) as Hh by (destruct (problems (effective e c)); [done|]; by injection Hpr as ->).
    split_and!; try done; [|by apply Hp]. intros H. by apply Hv in H.
Qed.

(** After any history of file changes the watcher holds the last
    configuration that loaded (the initial one if none did), and its callback
    has seen exactly those that loaded, in order: a broken file never replaces a
    working configuration. *)
Theorem watcher_history (e : Env) (c0 : Config) (files : list (option gostring)) :
  let w := foldl (fun w f => on_file_change e f w) (MkWatcher c0 []) files in
  let loaded := omap (fun f => match Load e f with Ok c => Some c | Err _ => None end) files in
  notified w = loaded /\ w_cfg w = List.last loaded c0.
Proof.
  assert (forall c n,
    let w := foldl (fun w f => on_file_change e f w) (MkWatcher c n) files in
    let loaded := omap (fun f => match Load e f with Ok c => Some c | Err _ => None end) files in
    notified w = n ++ loaded /\ w_cfg w = List.last loaded c) as H; [|exact (H c0 [])].
  induction files as [|f files IH]; intros c n; cbn zeta; [cbn; by rewrite app_nil_r|].
  cbn [foldl]. rewrite omap_cons_eq. unfold on_file_change at 2 4, reload.
  destruct (Load e f) as [c'|err]; [|apply IH]. cbn [w_cfg notified].
  destruct (IH c' (n ++ [c'])) as [H1 H2]. rewrite last_default. rewrite H1, H2. by rewrite <- app_assoc.
Qed.

End config.

(** ** Witnesses *)

(** A bcrypt of one password. *)
Definition table_bcrypt : BcryptLib := {|
  bcrypt_Generate p := if bool_decide (p = str "secret") then Some (str "$2a$12$hash") else None;
  bcrypt_Compare h p := bool_decide (h = str "$2a$12$hash") && bool_decide (p = str "secret") |}.

Lemma table_bcrypt_ok : BcryptLibOk table_bcrypt.
Proof. split. cbn. intros p h. case_bool_decide; [|done]. intros [= <-]. by subst p. Qed.

(** A parser of the empty file. *)
Definition const_yaml (c : Config) : YamlLib := {|
  yaml_Unmarshal s := if bool_decide (s = []) then Some c else None;
  yaml_Marshal _ := Some [] |}.

Definition no_env : Env := MkEnv None None None.

Lemma defaults_idempotent_witness :
  @applyDefaults table_bcrypt (@applyDefaults table_bcrypt zero_Config) <> @applyDefaults table_bcrypt zero_Config.
Proof.
  intros H. apply (proj1 (@defaults_idempotent table_bcrypt table_bcrypt_ok zero_Config)) in H.
  cbn in H. destruct H as [H|H]; exact (H eq_refl).
Defined.

Lemma load_outcome_witness :
  exists c, @Load table_bcrypt (const_yaml zero_Config) no_env (Some []) = Ok c /\
    EnableBlocklist (Server c) = true /\ EnablePolicies (Server c) = true.
Proof.
  pose proof (@load_outcome table_bcrypt (const_yaml zero_Config) table_bcrypt_ok no_env (Some [])) as H.
  destruct (Load no_env (Some [])) as [c|err] eqn:E; [|vm_compute in E; discriminate E].
  exists c. split; [reflexivity|]. destruct H as (data & c0 & Hd & Hc & _ & _ & _ & _ & _ & _ & Hk).
  injection Hd as <-. vm_compute in Hc. injection Hc as <-. exact (Hk eq_refl eq_refl).
Defined.
