(* ===== verification/Auth.v ===== *)
(** * Authentication of the API (pkg/api/middleware_auth.go, session.go,
    api.go, middleware.go, ui_handlers.go, handlers_csrf.go)

    The request as the handlers see it, the authentication settings, the
    session cookie, API keys and Basic credentials, CSRF, CORS, the client's
    address behind proxies, the login and logout handlers, and the middleware
    chain in front of the routes.  What the standard library parses before the
    handlers run (path, cookies, form) is part of the request.  The routes
    themselves are the continuation [next]. *)

From Stdlib Require Import Ascii.
From S2P Require Import Prelude GoStrings GoNet GoBase64 Config Session RateLimit.
From stdpp Require Import options.
Local Open Scope Z_scope.

(** ** Requests and responses *)

(** [headers]: the first value of each header; names compare without case.
    [cookie]: the value of the gh_session cookie. *)
Record Request := MkRequest {
  Method : gostring; Path : gostring; RequestURI : gostring; Host : gostring; RemoteAddr : gostring;
  headers : list (gostring * gostring); cookie : option gostring; is_tls : bool;
  form : list (gostring * gostring); form_error : bool; query : list (gostring * gostring) }.

Fixpoint get_first (k : gostring) (l : list (gostring * gostring)) : gostring :=
  match l with
  | [] => []
  | (k', v) :: l' => if bytes_eqb k' k then v else get_first k l'
  end.

Fixpoint get_header (k : gostring) (l : list (gostring * gostring)) : gostring :=
  match l with
  | [] => []
  | (k', v) :: l' => if EqualFold k' k then v else get_header k l'
  end.

Definition Get (r : Request) (name : gostring) : gostring := get_header name (headers r).
Definition FormValue (r : Request) (name : gostring) : gostring := get_first name (form r).

(** What the middlewares answer, or the route they let through to. *)
Record Cookie := MkCookie { ck_value : gostring; ck_secure : bool; ck_maxage : Z }.

Inductive Reply :=
| Routed
| Redirect (code : Z) (url : gostring)
| JsonError (code : Z) (message : gostring)
| PlainError (code : Z) (message : gostring)
| Page (path : gostring)
| TokenJson (token : gostring)
| NoContent (code : Z)
| BlockedPage (domain : gostring).

(** The reply with the headers and cookies set before it. *)
Record Response := MkResponse { reply : Reply; set_headers : list (gostring * gostring); set_cookies : list Cookie }.

Definition answer (x : Reply) : Response := MkResponse x [] [].

Definition add_headers (hs : list (gostring * gostring)) (x : Response) : Response :=
  MkResponse (reply x) (hs ++ set_headers x) (set_cookies x).

Definition GET : gostring := str "GET".
Definition POST : gostring := str "POST".
Definition OPTIONS : gostring := str "OPTIONS".
Definition is_method (r : Request) (m : gostring) : bool := bytes_eqb (Method r) m.

(** ** The server's state *)

Record AuthState := MkAuthState {
  authEnabled : bool; authHeader : gostring; apiKey : gostring; basicUser : gostring;
  basicPass : gostring; passwordHash : gostring }.

Record Server := MkServer {
  auth : AuthState; sm : sessionManager; limiters : Limiters; allowedOrigins : list gostring;
  trustedProxies : list IPNet; blockPageEnabled : bool }.

Definition with_sm (m : sessionManager) (s : Server) : Server :=
  MkServer (auth s) m (limiters s) (allowedOrigins s) (trustedProxies s) (blockPageEnabled s).
Definition with_limiters (l : Limiters) (s : Server) : Server :=
  MkServer (auth s) (sm s) l (allowedOrigins s) (trustedProxies s) (blockPageEnabled s).

Definition no_auth : AuthState := MkAuthState false [] [] [] [] [].

Definition applyAuthConfig (a : AuthConfig) : AuthState :=
  let header := or_str (TrimSpace (Header a)) (str "Authorization") in
  let key := TrimSpace (APIKey a) in
  let user := TrimSpace (Username a) in
  let pass := Password a in
  let hash := TrimSpace (PasswordHash a) in
  let hasBasicAuth := negb (empty user) && (negb (empty pass) || negb (empty hash)) in
  if au_Enabled a && (negb (empty key) || hasBasicAuth)
  then MkAuthState true (ToLower header) key user pass hash
  else no_auth.

(** The trusted proxies of [New]: CIDR blocks, or single addresses. *)
Definition trusted_proxy (entry : gostring) : option IPNet :=
  match ParseCIDR entry with
  | Some n => Some n
  | None =>
      ip ← ParseIP entry;
      let bits := match To4 ip with Some _ => 4%nat | None => 16%nat end in
      Some (MkIPNet ip (CIDRMask (Z.of_nat (8 * bits)) bits))
  end.

Section server.
Context {B : BcryptLib} {R : Rounding}.

(** The part of [New] that sets up this state; [None] for no initial
    configuration. *)
Definition New (now : Z) (initial : option Config) : Server :=
  match initial with
  | None => MkServer no_auth (newSessionManager (24 * Hour)) (newLimiters now) [] [] false
  | Some c =>
      MkServer (applyAuthConfig (Auth c)) (newSessionManager (24 * Hour)) (newLimiters now)
        (CORSAllowedOrigins (Config.Server c)) (omap trusted_proxy (TrustedProxies (Config.Server c)))
        (bp_Enabled (BlockPage c) && negb (empty (BlockIP (BlockPage c))))
  end.

Definition SetAuthConfig (a : AuthConfig) (s : Server) : Server :=
  MkServer (applyAuthConfig a) (sm s) (limiters s) (allowedOrigins s) (trustedProxies s) (blockPageEnabled s).

(** ** Client addresses *)

Definition isTrustedProxy (s : Server) (ip : gostring) : bool :=
  match ParseIP ip with
  | None => false
  | Some a => existsb (fun n => IPNet_Contains n a) (trustedProxies s)
  end.

Definition remoteHost (r : Request) : gostring :=
  match SplitHostPort (RemoteAddr r) with Ok (h, _) => h | Err _ => RemoteAddr r end.

Definition getClientIP (s : Server) (r : Request) : gostring :=
  let remote := remoteHost r in
  if isTrustedProxy s remote then
    let first := TrimSpace (default [] (head (SplitByte (Get r (str "X-Forwarded-For")) ","%char))) in
    if negb (empty (Get r (str "X-Forwarded-For"))) && negb (empty first) then first
    else if negb (empty (Get r (str "X-Real-IP"))) then TrimSpace (Get r (str "X-Real-IP"))
    else remote
  else remote.

Definition isBehindTrustedProxy (s : Server) (r : Request) : bool := isTrustedProxy s (remoteHost r).

Definition requestIsHTTPS (s : Server) (r : Request) : bool :=
  is_tls r || (bytes_eqb (Get r (str "X-Forwarded-Proto")) (str "https") && isBehindTrustedProxy s r).

(** ** Credentials *)

Definition sessionTokenFromRequest (r : Request) : gostring := default [] (cookie r).

Definition hasValidSession (r : Request) (now : Z) (s : Server) : bool * Server :=
  let '(ok, m) := Session.Validate (sessionTokenFromRequest r) now (sm s) in (ok, with_sm m s).

Definition extractAPIKey (r : Request) (header : gostring) : gostring :=
  let value := TrimSpace (Get r header) in
  let value := if empty value && negb (EqualFold header (str "Authorization"))
               then TrimSpace (Get r (str "Authorization")) else value in
  match Fields value with
  | [x; y] => if EqualFold x (str "Bearer") then y else []
  | [x] => x
  | _ => []
  end.

(** [r.BasicAuth()]: the credentials of the Authorization header. *)
Definition bytes_string (b : list Z) : gostring := map chr b.
Definition BasicAuth (r : Request) : option (gostring * gostring) :=
  let a := Get r (str "Authorization") in
  if (6 <=? length a)%nat && EqualFold (take 6 a) (str "Basic ") then
    b ← StdDecode (drop 6 a);
    let s := bytes_string b in
    i ← IndexByte s ":"%char; Some (take i s, drop (S i) s)
  else None.

(** [subtle.ConstantTimeCompare] is equality of the texts. *)
Definition matchBasicCredentials (user pass expectedUser expectedPass expectedHash : gostring) : bool :=
  if empty expectedUser then false
  else if negb (bytes_eqb user expectedUser) then false
  else if negb (empty expectedHash) then bcrypt_Compare expectedHash pass
  else if negb (empty expectedPass) then bytes_eqb pass expectedPass
  else false.

Definition authorizeRequest (r : Request) (now : Z) (s : Server) : bool * Server :=
  let a := auth s in
  let '(ok, s) := hasValidSession r now s in
  if ok then (true, s)
  else
    let token := extractAPIKey r (authHeader a) in
    if negb (empty (apiKey a)) && negb (empty token) && bytes_eqb token (apiKey a) then (true, s)
    else if negb (empty (basicUser a)) then
      match BasicAuth r with
      | Some (user, pass) => (matchBasicCredentials user pass (basicUser a) (basicPass a) (passwordHash a), s)
      | None => (false, s)
      end
    else (false, s).

(** ** CSRF *)

Definition requiresCSRFCheck (r : Request) : bool :=
  one_of (Method r) ["POST"; "PUT"; "DELETE"; "PATCH"] && HasPrefix (Path r) (str "/api/")
  && empty (Get r (str "Authorization")).

Definition validateCSRFToken (r : Request) (now : Z) (s : Server) : bool :=
  let sessionToken := sessionTokenFromRequest r in
  let expected := CSRFToken sessionToken now (sm s) in
  let provided := Get r (str "X-CSRF-Token") in
  negb (empty sessionToken) && negb (empty expected) && negb (empty provided) && bytes_eqb expected provided.

Definition handleCSRFToken (r : Request) (now : Z) (s : Server) : Response :=
  if negb (is_method r GET) then answer (JsonError 405 (str "Method not allowed"))
  else
    let token := sessionTokenFromRequest r in
    if empty token then answer (JsonError 401 (str "No active session"))
    else
      let csrf := CSRFToken token now (sm s) in
      if empty csrf then answer (JsonError 401 (str "No active session"))
      else MkResponse (TokenJson csrf) [(str "Cache-Control", str "no-store")] [].

(** ** The authentication middleware *)

Definition authBypassPaths : list string := ["/health"; "/ready"; "/api/health"; "/login"; "/logout"; "/dns-query"].

Definition isAuthRequired (s : Server) (r : Request) : bool :=
  authEnabled (auth s) && negb (is_method r OPTIONS) && negb (one_of (Path r) authBypassPaths)
  && negb (HasPrefix (Path r) (str "/static/") || HasPrefix (Path r) (str "/_astro/")
           || bytes_eqb (Path r) (str "/favicon.svg")).

Definition hasBasicCredentials (s : Server) : bool :=
  negb (empty (basicUser (auth s))) && (negb (empty (basicPass (auth s))) || negb (empty (passwordHash (auth s)))).

Definition hasBasicAttempt (r : Request) : bool :=
  HasPrefix (ToLower (TrimSpace (Get r (str "Authorization")))) (str "basic ").

Definition shouldSendBasicChallenge (r : Request) : bool :=
  negb (Contains (ToLower (Get r (str "Accept"))) (str "text/html"))
  && negb (EqualFold (Get r (str "HX-Request")) (str "true")).

Definition acceptsHTML (r : Request) : bool :=
  let accept := ToLower (Get r (str "Accept")) in
  empty accept || Contains accept (str "text/html") || Contains accept (str "*/*").

Definition shouldRedirectToLogin (r : Request) : bool :=
  negb (HasPrefix (Path r) (str "/api/")) && one_of (Method r) ["GET"; "HEAD"] && acceptsHTML r.

(** [strings.ContainsAny]: a tab, a newline, a carriage return, a percent sign or
    a backslash. *)
Definition forbidden_byte (c : ascii) : bool :=
  bool_decide (code c ∈ [9; 10; 13; 37; 92]).

Definition sanitizeRedirectTarget (next : gostring) : gostring :=
  let next := TrimSpace next in
  if empty next then str "/"
  else if negb (HasPrefix next (str "/")) then str "/"
  else if HasPrefix next (str "//") then str "/"
  else if existsb forbidden_byte next then str "/"
  else next.

(** [url.Values.Encode] of one value: [url.QueryEscape]. *)
Definition unreserved (c : ascii) : bool :=
  let z := code c in
  ((48 <=? z) && (z <=? 57)) || ((65 <=? z) && (z <=? 90)) || ((97 <=? z) && (z <=? 122))
  || bool_decide (c ∈ ["-"%char; "_"%char; "."%char; "~"%char]).
Definition hex_digit (z : Z) : ascii := chr (if z <? 10 then 48 + z else 55 + z).
Definition escape_byte (c : ascii) : gostring :=
  if unreserved c then [c]
  else if bool_decide (c = " "%char) then ["+"%char]
  else ["%"%char; hex_digit (code c / 16); hex_digit (code c mod 16)].
Definition QueryEscape (s : gostring) : gostring := concat (map escape_byte s).

Definition buildLoginRedirectURL (r : Request) : gostring :=
  str "/login?next=" ++ QueryEscape (or_str (sanitizeRedirectTarget (RequestURI r)) (str "/")).

Definition quoted (s : gostring) : gostring := chr 34 :: s ++ [chr 34].

Definition basic_challenge : gostring * gostring :=
  (str "WWW-Authenticate", str "Basic realm=" ++ quoted (str "Glory-Hole") ++ str ", charset=" ++ quoted (str "UTF-8")).

(** [next] is what handles a request that is let through. *)
Definition Handler : Type := Request -> Z -> Server -> Response * Server.

Definition authMiddleware (next : Handler) : Handler := fun r now s =>
  if negb (isAuthRequired s r) then next r now s
  else
    let '(ok, s) := authorizeRequest r now s in
    if ok then
      if requiresCSRFCheck r && negb (validateCSRFToken r now s)
      then (answer (JsonError 403 (str "Invalid or missing CSRF token")), s)
      else next r now s
    else if shouldRedirectToLogin r then (answer (Redirect 302 (buildLoginRedirectURL r)), s)
    else
      let hs := if hasBasicCredentials s && HasPrefix (Path r) (str "/api/") && hasBasicAttempt r
                   && shouldSendBasicChallenge r
                then [basic_challenge] else [] in
      (MkResponse (JsonError 401 (str "Unauthorized")) hs [], s).

(** ** The other middlewares *)

Definition rateLimitMiddleware (next : Handler) : Handler := fun r now s =>
  let '(verdict, l) := rateLimit now (is_method r POST) (Path r) (getClientIP s r) (limiters s) in
  let s := with_limiters l s in
  match verdict with
  | Some (after, msg) => (MkResponse (JsonError 429 msg) [(str "Retry-After", after)] [], s)
  | None => next r now s
  end.

Definition hasWildcardOrigin (s : Server) : bool := existsb (fun o => bytes_eqb o (str "*")) (allowedOrigins s).

Definition isOriginAllowed (s : Server) (origin : gostring) : bool :=
  existsb (fun o => bytes_eqb o (str "*") || bytes_eqb origin o) (allowedOrigins s).

Definition cors_headers (s : Server) (r : Request) : list (gostring * gostring) :=
  let origin := Get r (str "Origin") in
  if negb (empty origin) && isOriginAllowed s origin then
    [(str "Access-Control-Allow-Origin", origin)]
    ++ (if hasWildcardOrigin s then [] else [(str "Access-Control-Allow-Credentials", str "true")])
    ++ [(str "Access-Control-Allow-Methods", str "GET, POST, PUT, DELETE, OPTIONS");
        (str "Access-Control-Allow-Headers", str "Content-Type, Authorization, X-Requested-With, X-CSRF-Token");
        (str "Vary", str "Origin")]
  else [].

Definition corsMiddleware (next : Handler) : Handler := fun r now s =>
  let hs := cors_headers s r in
  if is_method r OPTIONS then (MkResponse (NoContent 200) hs [], s)
  else let '(x, s') := next r now s in (add_headers hs x, s').

Definition content_policy : gostring :=
  str "default-src 'self'; script-src 'self' 'unsafe-inline'; style-src 'self' 'unsafe-inline'; img-src 'self' data:; connect-src 'self'; font-src 'self'; object-src 'none'; base-uri 'self'; form-action 'self'; frame-ancestors 'none'".

Definition security_headers (r : Request) : list (gostring * gostring) :=
  [(str "X-Content-Type-Options", str "nosniff"); (str "X-Frame-Options", str "DENY");
   (str "X-XSS-Protection", str "1; mode=block");
   (str "Referrer-Policy", str "strict-origin-when-cross-origin");
   (str "Content-Security-Policy", content_policy)]
  ++ (if is_tls r || bytes_eqb (Get r (str "X-Forwarded-Proto")) (str "https")
      then [(str "Strict-Transport-Security", str "max-age=63072000; includeSubDomains")] else []).

Definition securityHeadersMiddleware (next : Handler) : Handler := fun r now s =>
  let '(x, s') := next r now s in (add_headers (security_headers r) x, s').

(** [blockPageMiddleware]: [blocked] is the blocklist manager's verdict on a
    name, [None] for no manager. *)
Definition strip_port (h : gostring) : gostring :=
  match LastIndexByte h ":"%char with Some i => take i h | None => h end.

Definition blockPageMiddleware (blocked : option (gostring -> bool)) (next : Handler) : Handler := fun r now s =>
  let host := strip_port (Host r) in
  if negb (blockPageEnabled s) then next r now s
  else if empty host || one_of host ["localhost"; "127.0.0.1"; "::1"] || bool_decide (is_Some (ParseIP host))
  then next r now s
  else match blocked with
       | None => next r now s
       | Some f =>
           if negb (f (host ++ str ".")) then next r now s
           else (MkResponse (BlockedPage host)
                   [(str "Content-Type", str "text/html; charset=utf-8"); (str "X-Content-Type-Options", str "nosniff")]
                   [], s)
       end.

(** The chain of [New], outermost first; logging only observes. *)
Definition chain (blocked : option (gostring -> bool)) (mux : Handler) : Handler :=
  blockPageMiddleware blocked (corsMiddleware (securityHeadersMiddleware (rateLimitMiddleware (authMiddleware mux)))).

(** ** Login and logout *)

Definition createSession (r : Request) (subj : gostring) (now : Z) (d : Draws) (s : Server)
    : result SessionError Cookie * Server :=
  match Create subj now d (sm s) with
  | (Err e, m) => (Err e, with_sm m s)
  | (Ok (token, _, expiry), m) =>
      (Ok (MkCookie token (requestIsHTTPS s r) (Z.max 0 ((expiry - now) / Second))), with_sm m s)
  end.

Definition revokeSession (r : Request) (s : Server) : Cookie * Server :=
  (MkCookie [] (requestIsHTTPS s r) (-1), with_sm (Revoke (sessionTokenFromRequest r) (sm s)) s).

Definition validateAPIKeyInput (candidate : gostring) (s : Server) : bool :=
  let c := TrimSpace candidate in
  negb (empty c) && negb (empty (apiKey (auth s))) && bytes_eqb c (apiKey (auth s)).

Definition validateUserPasswordInput (user pass : gostring) (s : Server) : bool :=
  matchBasicCredentials user pass (basicUser (auth s)) (basicPass (auth s)) (passwordHash (auth s)).

(** Who a login form logs in. *)
Definition login_subject (r : Request) (s : Server) : option gostring :=
  let key := TrimSpace (FormValue r (str "api_key")) in
  let user := TrimSpace (FormValue r (str "username")) in
  let pass := FormValue r (str "password") in
  if negb (empty key) && validateAPIKeyInput key s then Some (str "api-key")
  else if negb (empty user) && negb (empty pass) && validateUserPasswordInput user pass s then Some user
  else None.

Definition handleLoginPost (r : Request) (now : Z) (d : Draws) (s : Server) : Response * Server :=
  if negb (is_method r POST) then (answer (PlainError 405 (str "Method not allowed")), s)
  else if negb (authEnabled (auth s)) then (answer (Redirect 302 (str "/")), s)
  else if form_error r then (answer (Redirect 303 (str "/login?error=form")), s)
  else
    let next := sanitizeRedirectTarget (FormValue r (str "next")) in
    match login_subject r s with
    | None => (answer (Redirect 303 (str "/login?error=invalid&next=" ++ next)), s)
    | Some subj =>
        let '(gone, s) := revokeSession r s in
        match createSession r subj now d s with
        | (Err _, s) => (MkResponse (PlainError 500 (str "Internal server error")) [] [gone], s)
        | (Ok c, s) => (MkResponse (Redirect 303 next) [] [gone; c], s)
        end
    end.

Definition handleLoginPage (r : Request) (now : Z) (s : Server) : Response * Server :=
  if negb (is_method r GET) then (answer (PlainError 405 (str "Method not allowed")), s)
  else if negb (authEnabled (auth s)) then (answer (Redirect 302 (str "/")), s)
  else
    let next := sanitizeRedirectTarget (get_first (str "next") (query r)) in
    let '(ok, s) := hasValidSession r now s in
    if ok then (answer (Redirect 302 next), s) else (answer (Page (str "login/index.html")), s).

Definition handleLogout (r : Request) (s : Server) : Response * Server :=
  if negb (is_method r POST) then (answer (PlainError 405 (str "Method not allowed")), s)
  else
    let '(gone, s) := revokeSession r s in
    let target := sanitizeRedirectTarget (FormValue r (str "next")) in
    (MkResponse (Redirect 303 (if bytes_eqb target (str "/") then str "/login" else target)) [] [gone], s).


(** ** Who gets through *)

(** A request is authenticated by a live session, by the API key, or by the
    Basic credentials. *)
Definition session_live (r : Request) (now : Z) (s : Server) : Prop :=
  exists t d, cookie r = Some t /\ t <> [] /\ sessions (sm s) !! t = Some d /\ now <= expires d.

Definition key_presented (r : Request) (a : AuthState) : Prop :=
  apiKey a <> [] /\ extractAPIKey r (authHeader a) = apiKey a.

Definition basic_presented (r : Request) (a : AuthState) : Prop :=
  exists pass, basicUser a <> [] /\ BasicAuth r = Some (basicUser a, pass) /\
    ((passwordHash a <> [] /\ bcrypt_Compare (passwordHash a) pass = true) \/
     (passwordHash a = [] /\ basicPass a <> [] /\ pass = basicPass a)).

Definition authenticated (r : Request) (now : Z) (s : Server) : Prop :=
  session_live r now s \/ key_presented r (auth s) \/ basic_presented r (auth s).

(** The request carries the CSRF token of its session. *)
Definition csrf_presented (r : Request) (now : Z) (s : Server) : Prop :=
  exists t d, cookie r = Some t /\ t <> [] /\ sessions (sm s) !! t = Some d /\ now <= expires d /\
    csrfToken d <> [] /\ Get r (str "X-CSRF-Token") = csrfToken d.

Lemma empty_true s : empty s = true <-> s = [].
Proof. unfold empty. by rewrite bool_decide_eq_true. Qed.

Lemma hasValidSession_spec r now s :
  ((hasValidSession r now s).1 = true <-> session_live r now s) /\
  auth (hasValidSession r now s).2 = auth s /\
  (forall t, Session.CSRFToken t now (sm (hasValidSession r now s).2) = Session.CSRFToken t now (sm s)).
Proof.
  unfold hasValidSession, session_live, Session.Validate, sessionTokenFromRequest.
  destruct (cookie r) as [t|]; cbn [from_option Datatypes.id].
  2: { cbn. naive_solver. }
  destruct (bool_decide_reflect (t = [])) as [->|Ht]; cbn [fst snd with_sm auth sm].
  { split; [|done]. naive_solver. }
  destruct (sessions (sm s) !! t) as [d|] eqn:Ed; cbn [fst snd].
  2: { split; [|done]. naive_solver. }
  unfold expired. destruct (Z.ltb_spec (expires d) now); cbn [fst snd with_sm auth sm].
  - split; [|split; [done|]].
    + split; [done|]. intros (t' & d' & [= <-] & _ & Hd & Hle). rewrite Ed in Hd. injection Hd as <-. lia.
    + intros t'. unfold Session.CSRFToken. case_bool_decide; [done|]. cbn [with_sessions sessions].
      destruct (decide (t = t')) as [<-|Hne].
      * rewrite lookup_delete_eq, Ed. unfold expired. by rewrite (proj2 (Z.ltb_lt _ _)).
      * by rewrite lookup_delete_ne.
  - split; [|done]. split; [|done]. intros _. exists t, d. split_and!; done.
Qed.

Lemma matchBasicCredentials_spec user pass eu ep eh :
  matchBasicCredentials user pass eu ep eh = true <->
  eu <> [] /\ user = eu /\
    ((eh <> [] /\ bcrypt_Compare eh pass = true) \/ (eh = [] /\ ep <> [] /\ pass = ep)).
Proof.
  unfold matchBasicCredentials, empty.
  destruct (bool_decide_reflect (eu = [])) as [Eu|Eu]; [split; [done|tauto]|].
  destruct (bytes_eqb user eu) eqn:E; cbn [negb].
  - apply bytes_eqb_eq in E.
    destruct (bool_decide_reflect (eh = [])) as [Eh|Eh]; cbn [negb]; [|tauto].
    destruct (bool_decide_reflect (ep = [])) as [Ep|Ep]; cbn [negb]; rewrite ?bytes_eqb_eq; intuition congruence.
  - split; [done|]. intros (_ & -> & _). by rewrite bytes_eqb_refl in E.
Qed.

Lemma authorizeRequest_spec r now s :
  ((authorizeRequest r now s).1 = true <-> authenticated r now s) /\
  auth (authorizeRequest r now s).2 = auth s /\
  (forall t, Session.CSRFToken t now (sm (authorizeRequest r now s).2) = Session.CSRFToken t now (sm s)).
Proof.
  destruct (hasValidSession_spec r now s) as (Hs & Ha & Hc). unfold authorizeRequest, authenticated.
  destruct (hasValidSession r now s) as [ok s1]; cbn [fst snd] in *. destruct ok; cbn [fst snd].
  { split; [|done]. split; [|done]. intros _. left. by apply Hs. }
  assert (~ session_live r now s) as Hn by (intros H; apply Hs in H; done).
  set (tok := extractAPIKey r (authHeader (auth s))).
  assert (negb (empty (apiKey (auth s))) && negb (empty tok) && bytes_eqb tok (apiKey (auth s)) = true <->
          key_presented r (auth s)) as Hk.
  { unfold key_presented. fold tok. rewrite !andb_true_iff, !negb_true_iff, !empty_false, bytes_eqb_eq.
    clear. intuition congruence. }
  destruct (_ && _ && _); cbn [fst snd].
  { split; [|done]. split; [|done]. intros _. right. left. by apply Hk. }
  assert (~ key_presented r (auth s)) as Hn' by (intros H; apply Hk in H; done).
  unfold empty. destruct (bool_decide_reflect (basicUser (auth s) = [])) as [Eu|Eu]; cbn [negb fst snd].
  { split; [|done]. split; [done|]. intros [H|[H|(p & H & _)]]; done. }
  destruct (BasicAuth r) as [[u p]|] eqn:Eb; cbn [fst snd].
  - split; [|done]. rewrite matchBasicCredentials_spec. unfold basic_presented. split.
    + intros (_ & -> & H). right. right. exists p. split_and!; done.
    + intros [H|[H|(p' & _ & H & Hp)]]; try done. simplify_eq. split_and!; done.
  - split; [|done]. split; [done|]. intros [H|[H|(p & _ & H & _)]]; try done. congruence.
Qed.

Lemma validateCSRFToken_spec r now s : validateCSRFToken r now s = true <-> csrf_presented r now s.
Proof.
  unfold validateCSRFToken, csrf_presented, sessionTokenFromRequest.
  rewrite !andb_true_iff, !negb_true_iff, !empty_false, bytes_eqb_eq. unfold Session.CSRFToken.
  destruct (cookie r) as [t|]; cbn [from_option Datatypes.id]; [|naive_solver].
  destruct (bool_decide_reflect (t = [])) as [->|Ht]; [naive_solver|].
  destruct (sessions (sm s) !! t) as [d|] eqn:Ed; [|naive_solver]. unfold expired.
  destruct (Z.ltb_spec (expires d) now).
  - split; [naive_solver|]. intros (t' & d' & [= <-] & _ & Hd & Hle & _). rewrite Ed in Hd. injection Hd as <-. lia.
  - split.
    + intros (((H1 & H2) & H3) & H4). exists t, d. split_and!; done.
    + intros (t' & d' & [= <-] & H1 & Hd & Hle & H2 & H3). rewrite Ed in Hd. injection Hd as <-.
      rewrite H3. split_and!; done.
Qed.

(** The routes: they answer [Routed]. *)
Definition routes : Handler := fun r now s => (answer Routed, s).

Lemma authMiddleware_routed r now s :
  reply (authMiddleware routes r now s).1 = Routed <->
  isAuthRequired s r = false \/
  (authenticated r now s /\ (requiresCSRFCheck r = true -> csrf_presented r now s)).
Proof.
  unfold authMiddleware. destruct (isAuthRequired s r); cbn [negb]; [|by split; [left|]].
  destruct (authorizeRequest_spec r now s) as (Ha & _ & Hc).
  pose proof (validateCSRFToken_spec r now s) as Hv.
  destruct (authorizeRequest r now s) as [ok s1]; cbn [fst snd] in *. destruct ok.
  - assert (authenticated r now s) by (by apply Ha).
    assert (validateCSRFToken r now s1 = validateCSRFToken r now s) as -> by (unfold validateCSRFToken; by rewrite Hc).
    destruct (requiresCSRFCheck r); [destruct (validateCSRFToken r now s)|]; cbn [andb negb fst reply answer routes].
    + split; [|done]. intros _. right. split; [done|]. intros _. by apply Hv.
    + split; [done|]. intros [H1|[_ H1]]; [done|]. by apply Hv in H1.
    + split; [|done]. intros _. by right.
  - assert (~ authenticated r now s) by (intros H; apply Ha in H; done).
    destruct (shouldRedirectToLogin r); cbn [fst reply answer]; (split; [done|]); by intros [H1|[H1 _]].
Qed.

(** The request is answered with the block page. *)
Definition block_page_hit (blocked : option (gostring -> bool)) (s : Server) (r : Request) : Prop :=
  let host := strip_port (Host r) in
  blockPageEnabled s = true /\ host <> [] /\ host <> str "localhost" /\ ParseIP host = None /\
  exists f, blocked = Some f /\ f (host ++ str ".") = true.

Lemma block_page_pass blocked next r now s :
  (block_page_hit blocked s r /\ exists hs, (blockPageMiddleware blocked next r now s) =
     (MkResponse (BlockedPage (strip_port (Host r))) hs [], s)) \/
  (~ block_page_hit blocked s r /\ blockPageMiddleware blocked next r now s = next r now s).
Proof.
  unfold blockPageMiddleware, block_page_hit. set (host := strip_port (Host r)).
  destruct (blockPageEnabled s); cbn [negb]; [|right; split; [naive_solver|done]].
  destruct (empty host || one_of host ["localhost"; "127.0.0.1"; "::1"] || bool_decide (is_Some (ParseIP host))) eqn:E.
  - right. split; [|done]. intros (_ & H1 & H2 & H3 & _). rewrite !orb_true_iff in E.
    destruct E as [[E|E]|E].
    + by apply empty_true in E.
    + apply one_of_spec in E. cbn [fmap list_fmap] in E. rewrite !elem_of_cons, elem_of_nil in E.
      destruct E as [E|[E|[E|[]]]]; [done|rewrite E in H3; vm_compute in H3; discriminate H3..].
    + rewrite bool_decide_eq_true, H3 in E. by destruct E.
  - apply orb_false_iff in E as [E E3]. apply orb_false_iff in E as [E1 E2].
    destruct blocked as [f|]; [|right; split; [naive_solver|done]].
    destruct (f (host ++ str ".")) eqn:Ef; cbn [negb].
    + left. split; [|eauto]. split_and!; try done.
      * by apply empty_false.
      * intros H. assert (one_of host ["localhost"; "127.0.0.1"; "::1"] = true) as H'; [|congruence].
        apply one_of_spec. rewrite H. left.
      * rewrite bool_decide_eq_false in E3. by destruct (ParseIP host); [destruct E3; eauto|].
      * eauto.
    + right. split; [|done]. intros (_ & _ & _ & _ & g & [= <-] & Hg). congruence.
Qed.

Lemma chain_routed (blocked : option (gostring -> bool)) (r : Request) (now : Z) (s : Server) :
  reply (chain blocked routes r now s).1 = Routed <->
  ~ block_page_hit blocked s r /\ Method r <> OPTIONS /\
  (rateLimit now (is_method r POST) (Path r) (getClientIP s r) (limiters s)).1 = None /\
  (isAuthRequired s r = false \/
   (authenticated r now s /\ (requiresCSRFCheck r = true -> csrf_presented r now s))).
Proof.
  unfold chain. destruct (block_page_pass blocked
    (corsMiddleware (securityHeadersMiddleware (rateLimitMiddleware (authMiddleware routes)))) r now s)
    as [[Hb [hs ->]]|[Hb ->]]; [cbn; split; [done|tauto]|].
  assert (forall P, ~ block_page_hit blocked s r /\ P <-> P) as HP by tauto. rewrite HP. clear HP.
  unfold corsMiddleware, is_method. destruct (bytes_eqb (Method r) OPTIONS) eqn:Em.
  { apply bytes_eqb_eq in Em. cbn. split; [done|tauto]. }
  assert (Method r <> OPTIONS) as Hm by (intros H; rewrite H, bytes_eqb_refl in Em; done).
  assert (forall P, Method r <> OPTIONS /\ P <-> P) as HP by tauto. rewrite HP. clear HP.
  unfold securityHeadersMiddleware, rateLimitMiddleware. unfold is_method.
  destruct (rateLimit _ _ _ _ _) as [[[after msg]|] l] eqn:El; cbn [fst].
  { cbn. split; [done|]. by intros [? _]. }
  pose proof (authMiddleware_routed r now (with_limiters l s)) as H.
  destruct (authMiddleware routes r now (with_limiters l s)) as [x s']. cbn [fst reply add_headers] in *.
  rewrite H. unfold isAuthRequired, authenticated, session_live, csrf_presented. cbn [with_limiters auth sm]. tauto.
Qed.

(** C4: The gate in front of the API.  Through the whole middleware chain a
    request reaches its route exactly when it is not for a blocked host (with the
    block page on), is not an OPTIONS request, is within the rate limits, and
    either needs no authentication (none is configured, or a public path) or is
    authenticated by a live session, the API key or the Basic credentials and,
    if it is a mutating API call without Authorization header, carries the CSRF
    token of its live session. *)
Theorem api_gate (blocked : option (gostring -> bool)) (r : Request) (now : Z) (s : Server) :
  reply (chain blocked routes r now s).1 = Routed <->
  ~ block_page_hit blocked s r /\ Method r <> OPTIONS /\
  (rateLimit now (is_method r POST) (Path r) (getClientIP s r) (limiters s)).1 = None /\
  (isAuthRequired s r = false \/
   (authenticated r now s /\ (requiresCSRFCheck r = true -> csrf_presented r now s))).
Proof. apply chain_routed. Qed.

(** An API key sent in a custom header (auth.header other than
    Authorization) authenticates reads, but every mutating API call with it and
    without a session cookie is refused with 403: the CSRF exemption looks only
    at the Authorization header. *)
Theorem custom_header_key_refused (r : Request) (now : Z) (s : Server) :
  isAuthRequired s r = true -> key_presented r (auth s) -> cookie r = None ->
  Get r (str "Authorization") = [] -> HasPrefix (Path r) (str "/api/") = true ->
  one_of (Method r) ["POST"; "PUT"; "DELETE"; "PATCH"] = true ->
  reply (authMiddleware routes r now s).1 = JsonError 403 (str "Invalid or missing CSRF token").
Proof.
  intros Hreq Hkey Hck Hauth Hpath Hm. unfold authMiddleware. rewrite Hreq. cbn [negb].
  destruct (authorizeRequest_spec r now s) as (Ha & _ & _).
  destruct (authorizeRequest r now s) as [ok s1]; cbn [fst] in Ha.
  assert (ok = true) as -> by (apply Ha; right; by left).
  assert (requiresCSRFCheck r = true) as -> by (unfold requiresCSRFCheck; by rewrite Hm, Hpath, Hauth).
  assert (validateCSRFToken r now s1 = false) as ->; [|done].
  unfold validateCSRFToken, sessionTokenFromRequest. by rewrite Hck.
Qed.

(** ** Redirects *)

(** A target on this host: a path whose second byte is no (back)slash. *)
Definition local_url (u : gostring) : Prop :=
  exists rest, u = "/"%char :: rest /\ forall c, head rest = Some c -> code c <> 47 /\ code c <> 92.

Lemma sanitize_local next : local_url (sanitizeRedirectTarget next).
Proof.
  assert (local_url (str "/")) as Hroot by (exists []; split; [reflexivity|]; intros c [=]).
  unfold sanitizeRedirectTarget. generalize (TrimSpace next). clear next. intros u.
  destruct (empty u); [done|]. destruct (HasPrefix u (str "/")) eqn:E1; cbn [negb]; [|done].
  destruct (HasPrefix u (str "//")) eqn:E2; [done|]. destruct (existsb forbidden_byte u) eqn:E3; [done|].
  apply HasPrefix_spec in E1 as [rest ->]. exists rest. split; [reflexivity|]. intros c Hc.
  destruct rest as [|c' rest]; [done|]. injection Hc as ->. split; intros Hz.
  - assert (c = "/"%char) as -> by (apply code_inj; by rewrite Hz).
    assert (HasPrefix (str "//" ++ rest) (str "//") = true) as H by apply HasPrefix_app.
    change (str "//" ++ rest) with (str "/" ++ "/"%char :: rest) in H. congruence.
  - apply not_true_iff_false in E3. apply E3. apply existsb_exists. exists c. split.
    + right. by left.
    + unfold forbidden_byte. rewrite bool_decide_eq_true, Hz. do 4 right. left.
Qed.

Lemma login_url_local q : local_url (str "/login" ++ q).
Proof. eexists. split; [reflexivity|]. intros c [= <-]. split; discriminate. Qed.

(** No open redirect: whatever the request, the login page, the login and
    logout forms and the redirect of unauthenticated browsers send the client to
    a path on this host, never to another site. *)
Theorem redirects_stay_local (r : Request) (now : Z) (d : Draws) (s : Server) (code : Z) (u : gostring) :
  reply (handleLoginPost r now d s).1 = Redirect code u \/ reply (handleLoginPage r now s).1 = Redirect code u \/
  reply (handleLogout r s).1 = Redirect code u \/ reply (authMiddleware routes r now s).1 = Redirect code u ->
  local_url u.
Proof.
  assert (local_url (str "/")) as Hroot by (exists []; split; [reflexivity|]; intros c [=]).
  intros [H|[H|[H|H]]].
  - unfold handleLoginPost in H. destruct (negb _); [done|]. destruct (negb _); [by simplify_eq/=|].
    destruct (form_error r); [injection H as <- <-; apply (login_url_local (str "?error=form"))|].
    destruct (login_subject r s).
    + destruct (revokeSession r s) as [gone s1]. destruct (createSession _ _ _ _ _) as [[c|e] s2]; simplify_eq/=.
      apply sanitize_local.
    + injection H as <- <-. apply (login_url_local (str "?error=invalid&next=" ++ _)).
  - unfold handleLoginPage in H. destruct (negb _); [done|]. destruct (negb _); [by simplify_eq/=|].
    destruct (hasValidSession r now s) as [[] s1]; [|done]. injection H as <- <-. apply sanitize_local.
  - unfold handleLogout in H. destruct (negb _); [done|]. destruct (revokeSession r s) as [gone s1].
    injection H as <- <-. destruct (bytes_eqb _ _); [apply (login_url_local [])|apply sanitize_local].
  - unfold authMiddleware in H. destruct (negb _); [done|]. destruct (authorizeRequest r now s) as [[] s1].
    + destruct (_ && _); done.
    + destruct (shouldRedirectToLogin r); [|done]. injection H as <- <-.
      apply (login_url_local (str "?next=" ++ _)).
Qed.

(** ** Login *)

(** A login form starts a session exactly when it carries the API key or the
    Basic credentials: then the old session of the browser is revoked (no
    session fixation), and the cookie set last holds a new token that is valid
    for the store's lifetime; otherwise no session changes and no cookie is
    set. *)
Theorem login_session (r : Request) (now : Z) (r1 r2 : list Z) (s : Server) :
  Method r = POST -> authEnabled (auth s) = true -> form_error r = false -> 0 < ttl (sm s) -> r1 <> [] ->
  let '(x, s') := handleLoginPost r now (Some r1, Some r2) s in
  match login_subject r s with
  | Some subj =>
      (exists gone, set_cookies x = [gone; MkCookie (Encode r1) (requestIsHTTPS s r) (ttl (sm s) / Second)] /\
                    ck_value gone = [] /\ ck_maxage gone = -1) /\
      reply x = Redirect 303 (sanitizeRedirectTarget (FormValue r (str "next"))) /\
      (forall now', now' <= now + ttl (sm s) -> (Session.Validate (Encode r1) now' (sm s')).1 = true) /\
      (forall t, cookie r = Some t -> t <> Encode r1 -> forall now', (Session.Validate t now' (sm s')).1 = false) /\
      (subject <$> sessions (sm s') !! Encode r1) = Some subj
  | None => s' = s /\ set_cookies x = []
  end.
Proof.
  intros Hm Ha Hf Httl Hr1. unfold handleLoginPost, is_method. rewrite Hm, Ha, Hf, bytes_eqb_refl. cbn [negb].
  destruct (login_subject r s) as [subj|]; [|done].
  pose proof (Encode_nonempty r1 Hr1) as He.
  unfold revokeSession, createSession, Create, issue, generateSessionToken. cbn [fst snd fmap option_fmap option_map].
  cbn [set_cookies reply sm with_sm with_sessions sessions].
  assert (ttl (Revoke (sessionTokenFromRequest r) (sm s)) = ttl (sm s)) as ->
    by (unfold Revoke; by destruct (bool_decide _)).
  split_and!.
  - exists (MkCookie [] (requestIsHTTPS s r) (-1)). split; [|split; reflexivity]. do 3 f_equal.
    replace (now + ttl (sm s) - now) with (ttl (sm s)) by lia.
    rewrite Z.max_r; [done|]. apply Z.div_pos; [lia|]. unfold Second. lia.
  - done.
  - intros now' Hn. unfold Session.Validate. rewrite bool_decide_eq_false_2 by done.
    cbn [sessions with_sessions]. rewrite lookup_insert_eq. unfold expired. cbn [expires].
    by rewrite (proj2 (Z.ltb_ge _ _)) by lia.
  - intros t Ht Hne now'. unfold Session.Validate. case_bool_decide as Hte; [done|].
    cbn [sessions with_sessions]. rewrite lookup_insert_ne by done.
    unfold Revoke, sessionTokenFromRequest. rewrite Ht. cbn [from_option Datatypes.id].
    rewrite bool_decide_eq_false_2 by done. cbn [sessions with_sessions]. by rewrite lookup_delete_eq.
  - by rewrite lookup_insert_eq.
Qed.

(** ** From the configuration to the server *)

(** A configuration with a blank user name. *)
Definition blank_user_config : Config :=
  with_auth (MkAuthConfig true [] [] (str " ") (str "pw") []) (@applyDefaults B zero_Config).

(** A valid configuration that enables authentication leaves the API open in
    one case: no API key, and a user name or a password hash of nothing but
    spaces.  [Validate] compares them untrimmed and accepts; the server trims
    them, finds no credentials, and then lets every request through. *)
Theorem validated_auth_gap (now : Z) :
  (forall c, valid c -> au_Enabled (Config.Auth c) = true ->
     authEnabled (auth (New now (Some c))) = true \/
     (TrimSpace (APIKey (Config.Auth c)) = [] /\
      ((Username (Config.Auth c) <> [] /\ TrimSpace (Username (Config.Auth c)) = []) \/
       (PasswordHash (Config.Auth c) <> [] /\ TrimSpace (PasswordHash (Config.Auth c)) = [] /\
        Password (Config.Auth c) = [])))) /\
  (exists c, valid c /\ au_Enabled (Config.Auth c) = true /\ forall r, isAuthRequired (New now (Some c)) r = false).
Proof using B R.
  split.
  - intros c (_ & _ & _ & _ & _ & Hv & _) He. specialize (Hv He). cbn [New auth]. unfold applyAuthConfig. rewrite He.
    unfold empty. destruct (bool_decide_reflect (TrimSpace (APIKey (Config.Auth c)) = [])) as [Hk|Hk];
      cbn [negb orb andb]; [|by left].
    destruct (bool_decide_reflect (TrimSpace (Username (Config.Auth c)) = [])) as [Hu|Hu]; cbn [negb andb].
    { right. split; [done|]. left. split; [|done]. destruct Hv as [?|[? _]]; done. }
    destruct (bool_decide_reflect (Password (Config.Auth c) = [])) as [Hp|Hp]; cbn [negb orb]; [|by left].
    destruct (bool_decide_reflect (TrimSpace (PasswordHash (Config.Auth c)) = [])) as [Hh|Hh]; cbn [negb]; [|by left].
    right. split; [done|]. right. destruct Hv as [?|[_ [?|?]]]; done.
  - exists blank_user_config. split_and!; [|done|by intros r].
    unfold valid, blank_user_config. cbn. split_and!; try done; [by left| |].
    + split_and!; try (apply (bool_decide_unpack _); by vm_compute).
    + intros _. right. split; [done|]. by left.
Qed.

(** The environment's Basic password does not override a password of the
    configuration file: that one is turned into a hash before the environment is
    read, and the hash wins, so the login accepts the file's password only. *)
Theorem env_password_ignored (e : Env) (c : Config) (now : Z) (h p u : gostring) :
  PasswordHash (Config.Auth (applyDefaults c)) = h -> h <> [] -> TrimSpace h = h -> env_pass e = Some p ->
  let s := New now (Some (effective e c)) in
  validateUserPasswordInput u p s = true ->
  bcrypt_Compare h p = true.
Proof.
  intros Hh Hne Htrim Hp s. subst s. unfold validateUserPasswordInput. rewrite matchBasicCredentials_spec.
  cbn [New auth effective applyEnvOverrides with_auth Config.Auth].
  set (a := env_auth e (Config.Auth (applyDefaults c))).
  assert (PasswordHash a = h) as Ha.
  { subst a. unfold env_auth. rewrite Hp. destruct (Config.Auth (applyDefaults c)) as [en k hd us pw ph] eqn:E.
    cbn in Hh. subst ph. unfold normalize, migratePasswordToHash.
    destruct (TrimSpace (default [] (env_key e))), (TrimSpace (default [] (env_user e)));
      cbn [Header au_Enabled APIKey Username Password PasswordHash];
      destruct (TrimSpace hd), p, h; done. }
  unfold applyAuthConfig. destruct (au_Enabled a && _); cbn [basicUser passwordHash no_auth].
  - rewrite Ha, Htrim. intros (_ & _ & [[_ ?]|[? _]]); done.
  - by intros (? & _).
Qed.
End server.

(** ** Witnesses *)

Definition sample_auth : AuthState :=
  MkAuthState true (str "x-api-key") (str "k3y") (str "admin") [] (str "$2a$12$hash").

Definition sample_server : Server :=
  MkServer sample_auth (newSessionManager (24 * Hour)) (@newLimiters exact_rounding 0) [] [] false.

Definition sample_request (m p : gostring) (hs : list (gostring * gostring)) (f : list (gostring * gostring)) : Request :=
  MkRequest m p p (str "dns.home") (str "192.0.2.7:4711") hs None true f false [].

Lemma custom_header_key_refused_witness :
  reply (@authMiddleware table_bcrypt routes
    (sample_request POST (str "/api/cache/purge") [(str "X-Api-Key", str "k3y")] []) 5 sample_server).1 =
  JsonError 403 (str "Invalid or missing CSRF token").
Proof.
  apply custom_header_key_refused; try reflexivity. split; [discriminate|reflexivity].
Defined.

Lemma redirects_stay_local_witness : local_url (str "/").
Proof.
  apply (@redirects_stay_local table_bcrypt
    (sample_request POST (str "/login") []
       [(str "next", str "//evil.example"); (str "username", str "admin"); (str "password", str "secret")])
    5 draws sample_server 303).
  left. vm_compute. reflexivity.
Defined.

Lemma login_session_witness :
  let r := sample_request POST (str "/login") []
       [(str "next", str "/queries"); (str "username", str "admin"); (str "password", str "secret")] in
  let '(x, s') := @handleLoginPost table_bcrypt r 5 draws sample_server in
  reply x = Redirect 303 (str "/queries") /\ (Session.Validate (Encode [1; 2; 3]) 6 (sm s')).1 = true.
Proof.
  intros r. pose proof (@login_session table_bcrypt r 5 [1; 2; 3] [4; 5; 6] sample_server eq_refl eq_refl eq_refl
    ltac:(reflexivity) ltac:(discriminate)) as H.
  unfold draws. destruct (handleLoginPost r 5 _ sample_server) as [x s'].
  assert (@login_subject table_bcrypt r sample_server = Some (str "admin")) as E by (vm_compute; reflexivity).
  rewrite E in H. destruct H as (_ & Hr & Hv & _). split; [exact Hr|].
  apply Hv. vm_compute. discriminate.
Defined.

Lemma env_password_ignored_witness :
  let c := with_auth (MkAuthConfig true [] [] (str "admin") (str "secret") []) zero_Config in
  let e := MkEnv None None (Some (str "secret")) in
  @bcrypt_Compare table_bcrypt (str "$2a$12$hash") (str "secret") = true.
Proof.
  intros c e. apply (@env_password_ignored table_bcrypt exact_rounding e c 0 (str "$2a$12$hash") (str "secret") (str "admin"));
    try reflexivity; try discriminate.
Defined.
