(* ===== verification/UnboundConf.v ===== *)
(** * The Unbound configuration (pkg/unbound/config.go, defaults.go,
    validator.go, writer.go; pkg/api/handlers_unbound.go)

    The typed configuration, its sanitizer, the rendering of unbound.conf, and
    the API handlers that edit it.  The regular expressions are the predicates
    they denote.  unbound-checkconf, the file system and unbound-control are
    outside: their verdicts are an argument.  The handlers edit the supervisor's
    live configuration in place, and so does the model. *)

From Stdlib Require Import Ascii.
From S2P Require Import Prelude GoStrings GoStrconv.
From stdpp Require Import options.
Local Open Scope Z_scope.

(** ** Data *)

Record ACLEntry := MkACLEntry { Netblock : gostring; Action : gostring }.

Record ServerBlock := MkServerBlock {
  Interface : gostring; Port : Z;
  MsgCacheSize : gostring; RRSetCacheSize : gostring; KeyCacheSize : gostring;
  CacheMaxTTL : Z; CacheMinTTL : Z; CacheMaxNegTTL : Z;
  ModuleConfig : gostring; DomainInsecure : list gostring;
  HardenGlue : bool; HardenDNSSEC : bool; HardenBelowNX : bool; HardenAlgoDown : bool;
  QnameMin : bool; AggressiveNSEC : bool;
  NumThreads : Z; EDNSBufferSize : Z; OutgoingRange : Z; NumQueriesPerThread : Z; SoReusePort : bool;
  ServeExpired : bool; ServeExpiredTTL : Z; ServeExpiredClientTimeout : Z;
  Prefetch : bool; PrefetchKey : bool;
  Verbosity : Z; LogQueries : bool; LogReplies : bool; LogServfail : bool;
  HideIdentity : bool; HideVersion : bool; MinimalResponses : bool;
  ExtendedStatistics : bool; StatisticsCumulative : bool;
  TLSCertBundle : gostring; RootHints : gostring; AutoTrustAnchor : gostring;
  AccessControl : list ACLEntry; PrivateAddress : list gostring }.

Record ForwardZone := MkForwardZone {
  fz_Name : gostring; ForwardAddrs : list gostring; ForwardFirst : bool; ForwardTLS : bool }.

Record StubZone := MkStubZone {
  sz_Name : gostring; StubAddrs : list gostring; StubPrime : bool; StubFirst : bool }.

Record DnstapConfig := MkDnstapConfig {
  dt_Enabled : bool; SocketPath : gostring; SendIdentity : bool; SendVersion : bool;
  LogClientQueryMessages : bool; LogClientResponseMessages : bool;
  LogResolverQueryMessages : bool; LogResolverResponseMessages : bool }.

Record RemoteControl := MkRemoteControl {
  rc_Enabled : bool; ControlInterface : gostring; ControlUseCert : bool }.

Record UnboundServerConfig := MkUSC {
  usc_Server : ServerBlock; Dnstap : DnstapConfig; ForwardZones : list ForwardZone;
  StubZones : list StubZone; usc_RemoteControl : RemoteControl }.

Definition DefaultServerConfig (listenPort : Z) (controlSocket : gostring) : UnboundServerConfig :=
  MkUSC
    (MkServerBlock (str "127.0.0.1") listenPort (str "4m") (str "8m") (str "4m") 0 0 60
       (str "validator iterator") [] true true true true true true 1 1232 512 256 true true 86400 1800
       true true 1 false false true true true true true true
       (str "/etc/ssl/certs/ca-certificates.crt") (str "/etc/unbound/root.hints") (str "/etc/unbound/root.key")
       [MkACLEntry (str "127.0.0.1/32") (str "allow"); MkACLEntry (str "0.0.0.0/0") (str "refuse")]
       [str "192.168.0.0/16"; str "169.254.0.0/16"; str "172.16.0.0/12"; str "10.0.0.0/8"; str "fd00::/8";
        str "fe80::/10"])
    (MkDnstapConfig true (str "/var/run/unbound/dnstap.sock") true true true true true true) [] []
    (MkRemoteControl true controlSocket false).

(** ** The sanitizer *)

(** Character classes of the patterns. *)
Definition in_range (a b : Z) (c : ascii) : bool := (a <=? code c) && (code c <=? b).
Definition is_hex (c : ascii) : bool := in_range 48 57 c || in_range 97 102 c || in_range 65 70 c.
Definition is_alnum (c : ascii) : bool := in_range 48 57 c || in_range 97 122 c || in_range 65 90 c.
Definition one_of_bytes (s : string) (c : ascii) : bool := bool_decide (c ∈ str s).
Definition plus (p : ascii -> bool) (s : gostring) : bool := negb (bool_decide (s = [])) && forallb p s.

Definition validNetblock : gostring -> bool := plus (fun c => is_hex c || one_of_bytes ".:/%" c).
Definition validACLAction (s : gostring) : bool :=
  existsb (fun x => bytes_eqb s (str x))
    ["allow"; "deny"; "refuse"; "allow_snoop"; "allow_setrd"; "allow_cookie"; "deny_non_local"; "refuse_non_local"].
Definition validDomainName : gostring -> bool := plus (fun c => is_alnum c || one_of_bytes "._-" c).
Definition validAddr : gostring -> bool := plus (fun c => is_hex c || one_of_bytes ".:@#%" c).
Definition validCacheSize (s : gostring) : bool :=
  let body := match last s with
              | Some c => if one_of_bytes "kmgKMG" c then take (length s - 1) s else s
              | None => s
              end in
  plus (in_range 48 57) body.
Definition validPrivateAddr : gostring -> bool := validNetblock.

Inductive FieldError := IllegalCharacters | TooLong | InvalidCharacters.

(** [strings.ContainsAny]: a newline, a carriage return, a double quote or a
    backslash. *)
Definition illegal (c : ascii) : bool := bool_decide (code c ∈ [10; 13; 34; 92]).

Definition sanitizeField (name value : gostring) (pattern : gostring -> bool) : result (gostring * FieldError) unit :=
  if existsb illegal value then Err (name, IllegalCharacters)
  else if (512 <? length value)%nat then Err (name, TooLong)
  else if negb (pattern value) then Err (name, InvalidCharacters)
  else Ok tt.

Record Field := MkField { f_name : gostring; f_value : gostring; f_pattern : gostring -> bool }.

Definition indexed (name : string) (i : nat) (rest : string) : gostring :=
  str name ++ str "[" ++ Itoa (Z.of_nat i) ++ str "]" ++ str rest.

Definition acl_fields (i : nat) (a : ACLEntry) : list Field :=
  [MkField (indexed "access_control" i ".netblock") (Netblock a) validNetblock;
   MkField (indexed "access_control" i ".action") (Action a) validACLAction].
Definition forward_fields (i : nat) (z : ForwardZone) : list Field :=
  MkField (indexed "forward_zone" i ".name") (fz_Name z) validDomainName
  :: imap (fun j a => MkField (indexed "forward_zone" i ".forward_addr" ++ indexed EmptyString j EmptyString) a validAddr) (ForwardAddrs z).
Definition stub_fields (i : nat) (z : StubZone) : list Field :=
  MkField (indexed "stub_zone" i ".name") (sz_Name z) validDomainName
  :: imap (fun j a => MkField (indexed "stub_zone" i ".stub_addr" ++ indexed EmptyString j EmptyString) a validAddr) (StubAddrs z).
Definition optional_field (name value : gostring) (p : gostring -> bool) : list Field :=
  if bool_decide (value = []) then [] else [MkField name value p].

(** The fields in the order of the checks. *)
Definition sanitized_fields (cfg : UnboundServerConfig) : list Field :=
  let s := usc_Server cfg in
  concat (imap acl_fields (AccessControl s))
  ++ imap (fun i d => MkField (indexed "domain_insecure" i EmptyString) d validDomainName) (DomainInsecure s)
  ++ imap (fun i p => MkField (indexed "private_address" i EmptyString) p validPrivateAddr) (PrivateAddress s)
  ++ concat (imap forward_fields (ForwardZones cfg))
  ++ concat (imap stub_fields (StubZones cfg))
  ++ optional_field (str "msg_cache_size") (MsgCacheSize s) validCacheSize
  ++ optional_field (str "rrset_cache_size") (RRSetCacheSize s) validCacheSize
  ++ optional_field (str "key_cache_size") (KeyCacheSize s) validCacheSize.

Fixpoint sanitize_all (fs : list Field) : result (gostring * FieldError) unit :=
  match fs with
  | [] => Ok tt
  | f :: fs' => match sanitizeField (f_name f) (f_value f) (f_pattern f) with
                | Err e => Err e
                | Ok _ => sanitize_all fs'
                end
  end.

Definition SanitizeConfig (cfg : UnboundServerConfig) : result (gostring * FieldError) unit :=
  sanitize_all (sanitized_fields cfg).

(** ** Rendering *)

Definition yesno (b : bool) : gostring := if b then str "yes" else str "no".
Definition quote : gostring := [chr 34].
Definition newline : ascii := chr 10.

(** A directive of a block, and one with a quoted value. *)
Definition dir (key : string) (value : gostring) : gostring := str "    " ++ str key ++ str ": " ++ value.
Definition qdir (key : string) (value : gostring) : gostring := dir key (quote ++ value ++ quote).
Definition opt (b : bool) (ls : list gostring) : list gostring := if b then ls else [].
Definition nonempty (s : gostring) : bool := negb (bool_decide (s = [])).

Definition header_lines : list gostring :=
  [str "# Glory-Hole managed unbound.conf"; str "# This file is generated by the Unbound config model.";
   str "# Manual edits will be overwritten on next save."; []; str "server:"; str "    # Process";
   dir "do-daemonize" (str "no"); qdir "username" []; qdir "chroot" []; qdir "directory" (str "/etc/unbound");
   qdir "logfile" []; qdir "pidfile" []; []].

Definition network_lines (s : ServerBlock) : list gostring :=
  [str "    # Network"; dir "interface" (Interface s); dir "port" (Itoa (Port s)); dir "do-ip4" (str "yes");
   dir "do-udp" (str "yes"); dir "do-tcp" (str "yes"); dir "do-ip6" (str "no"); dir "prefer-ip6" (str "no"); [];
   str "    # Access control"]
  ++ map (fun a => dir "access-control" (Netblock a ++ str " " ++ Action a)) (AccessControl s) ++ [[]].

Definition dnssec_lines (s : ServerBlock) : list gostring :=
  [str "    # DNSSEC"; qdir "module-config" (ModuleConfig s)]
  ++ opt (nonempty (AutoTrustAnchor s)) [dir "auto-trust-anchor-file" (AutoTrustAnchor s)]
  ++ [dir "harden-glue" (yesno (HardenGlue s)); dir "harden-dnssec-stripped" (yesno (HardenDNSSEC s));
      dir "harden-below-nxdomain" (yesno (HardenBelowNX s)); dir "harden-algo-downgrade" (yesno (HardenAlgoDown s));
      dir "qname-minimisation" (yesno (QnameMin s)); dir "aggressive-nsec" (yesno (AggressiveNSEC s));
      dir "val-clean-additional" (str "yes"); dir "val-permissive-mode" (str "no"); dir "ede" (str "yes");
      dir "ede-serve-expired" (str "yes")]
  ++ map (qdir "domain-insecure") (DomainInsecure s) ++ [[]].

Definition privacy_lines (s : ServerBlock) : list gostring :=
  [str "    # Privacy"; dir "use-caps-for-id" (str "no"); dir "rrset-roundrobin" (str "yes");
   dir "hide-identity" (yesno (HideIdentity s)); dir "hide-version" (yesno (HideVersion s));
   dir "minimal-responses" (yesno (MinimalResponses s)); []; str "    # Private addresses"]
  ++ map (dir "private-address") (PrivateAddress s) ++ [[]].

Definition cache_lines (s : ServerBlock) : list gostring :=
  [str "    # Cache"; dir "key-cache-size" (KeyCacheSize s); dir "msg-cache-size" (MsgCacheSize s);
   dir "rrset-cache-size" (RRSetCacheSize s); dir "cache-min-ttl" (Itoa (CacheMinTTL s));
   dir "cache-max-negative-ttl" (Itoa (CacheMaxNegTTL s))]
  ++ opt (0 <? CacheMaxTTL s) [dir "cache-max-ttl" (Itoa (CacheMaxTTL s))]
  ++ [[]; str "    # Prefetch"; dir "prefetch" (yesno (Prefetch s)); dir "prefetch-key" (yesno (PrefetchKey s)); [];
      str "    # Serve stale"; dir "serve-expired" (yesno (ServeExpired s));
      dir "serve-expired-ttl" (Itoa (ServeExpiredTTL s))]
  ++ opt (0 <? ServeExpiredClientTimeout s)
       [dir "serve-expired-client-timeout" (Itoa (ServeExpiredClientTimeout s))]
  ++ [[]].

Definition performance_lines (s : ServerBlock) : list gostring :=
  [str "    # Performance"; dir "num-threads" (Itoa (NumThreads s))]
  ++ opt (0 <? EDNSBufferSize s) [dir "edns-buffer-size" (Itoa (EDNSBufferSize s))]
  ++ [dir "so-reuseport" (yesno (SoReusePort s))]
  ++ opt (0 <? OutgoingRange s) [dir "outgoing-range" (Itoa (OutgoingRange s))]
  ++ opt (0 <? NumQueriesPerThread s) [dir "num-queries-per-thread" (Itoa (NumQueriesPerThread s))]
  ++ [qdir "target-fetch-policy" (str "3 2 1 0 0"); dir "so-sndbuf" (str "4m"); dir "so-rcvbuf" (str "4m");
      dir "jostle-timeout" (str "200"); []].

Definition logging_lines (s : ServerBlock) : list gostring :=
  [str "    # Logging"; dir "verbosity" (Itoa (Verbosity s)); dir "log-queries" (yesno (LogQueries s));
   dir "log-replies" (yesno (LogReplies s)); dir "log-servfail" (yesno (LogServfail s));
   dir "log-time-ascii" (str "yes"); []; str "    # Statistics";
   dir "extended-statistics" (yesno (ExtendedStatistics s)); dir "statistics-interval" (str "0");
   dir "statistics-cumulative" (yesno (StatisticsCumulative s))]
  ++ opt (nonempty (TLSCertBundle s)) [str "    # TLS"; dir "tls-cert-bundle" (TLSCertBundle s)]
  ++ opt (nonempty (RootHints s)) [str "    # Root hints"; dir "root-hints" (RootHints s)]
  ++ [[]].

Definition control_lines (c : RemoteControl) : list gostring :=
  [str "# Remote control"; str "remote-control:"; dir "control-enable" (yesno (rc_Enabled c));
   dir "control-interface" (ControlInterface c); dir "control-use-cert" (yesno (ControlUseCert c))].

Definition dnstap_lines (d : DnstapConfig) : list gostring :=
  opt (dt_Enabled d)
    [[]; str "# dnstap (structured binary query/response logging)"; str "dnstap:"; dir "dnstap-enable" (str "yes");
     qdir "dnstap-socket-path" (SocketPath d); dir "dnstap-send-identity" (yesno (SendIdentity d));
     dir "dnstap-send-version" (yesno (SendVersion d));
     dir "dnstap-log-client-query-messages" (yesno (LogClientQueryMessages d));
     dir "dnstap-log-client-response-messages" (yesno (LogClientResponseMessages d));
     dir "dnstap-log-resolver-query-messages" (yesno (LogResolverQueryMessages d));
     dir "dnstap-log-resolver-response-messages" (yesno (LogResolverResponseMessages d))].

Definition forward_lines (z : ForwardZone) : list gostring :=
  [[]; str "forward-zone:"; qdir "name" (fz_Name z)] ++ map (dir "forward-addr") (ForwardAddrs z)
  ++ opt (ForwardFirst z) [dir "forward-first" (str "yes")]
  ++ opt (ForwardTLS z) [dir "forward-tls-upstream" (str "yes")].

Definition stub_lines (z : StubZone) : list gostring :=
  [[]; str "stub-zone:"; qdir "name" (sz_Name z)] ++ map (dir "stub-addr") (StubAddrs z)
  ++ opt (StubPrime z) [dir "stub-prime" (str "yes")] ++ opt (StubFirst z) [dir "stub-first" (str "yes")].

(** The lines of unboundConfTmpl. *)
Definition conf_lines (cfg : UnboundServerConfig) : list gostring :=
  let s := usc_Server cfg in
  header_lines ++ network_lines s ++ dnssec_lines s ++ privacy_lines s ++ cache_lines s ++ performance_lines s
  ++ logging_lines s ++ control_lines (usc_RemoteControl cfg) ++ dnstap_lines (Dnstap cfg)
  ++ concat (map forward_lines (ForwardZones cfg)) ++ concat (map stub_lines (StubZones cfg)).

Definition RenderConfig (cfg : UnboundServerConfig) : gostring :=
  Join (conf_lines cfg) [newline] ++ [newline].

(** What the file system did with the write and the rename. *)
Inductive WriteError := NotSanitized (e : gostring * FieldError) | WriteFailed.

(** [WriteConfig]: the error, or the new content of the file. *)
Definition WriteConfig (cfg : UnboundServerConfig) (fs_ok : bool) : result WriteError gostring :=
  match SanitizeConfig cfg with
  | Err e => Err (NotSanitized e)
  | Ok _ => if fs_ok then Ok (RenderConfig cfg) else Err WriteFailed
  end.

(** ** The API handlers *)

(** [serverConfig] is the live configuration (nil before the first start),
    [conf_file] the file; [defaults] is what the handlers edit without one. *)
Record Sup := MkSup { serverConfig : option UnboundServerConfig; conf_file : option gostring; defaults : UnboundServerConfig }.

(** Verdicts from outside, for one request: unbound-checkconf (absent, or its
    answer on the rendered text), the write of the temporary and of the live
    file, unbound-control reload. *)
Record Outside := MkOutside {
  checkconf : option (gostring -> bool); tmp_ok : bool; file_ok : bool; reload_ok : bool }.

Inductive ApplyError := CheckFailed | ConfWrite (e : WriteError) | ReloadFailed.

Definition applyUnboundConfig (o : Outside) (cfg : UnboundServerConfig) (s : Sup) : result ApplyError unit * Sup :=
  let checked :=
    match checkconf o with
    | None => Ok tt
    | Some check => match WriteConfig cfg (tmp_ok o) with
                    | Err e => Err (ConfWrite e)
                    | Ok text => if check text then Ok tt else Err CheckFailed
                    end
    end in
  match checked with
  | Err e => (Err e, s)
  | Ok _ =>
      match WriteConfig cfg (file_ok o) with
      | Err e => (Err (ConfWrite e), s)
      | Ok text =>
          let s := MkSup (serverConfig s) (Some text) (defaults s) in
          if reload_ok o then (Ok tt, MkSup (Some cfg) (conf_file s) (defaults s)) else (Err ReloadFailed, s)
      end
  end.

(** An edit of the configuration the handlers got from the supervisor: the live
    one, if there is one, is the same object. *)
Definition current (s : Sup) : UnboundServerConfig := default (defaults s) (serverConfig s).
Definition edit (cfg : UnboundServerConfig) (s : Sup) : Sup :=
  match serverConfig s with
  | Some _ => MkSup (Some cfg) (conf_file s) (defaults s)
  | None => s
  end.

Definition with_zones (zs : list ForwardZone) (cfg : UnboundServerConfig) : UnboundServerConfig :=
  MkUSC (usc_Server cfg) (Dnstap cfg) zs (StubZones cfg) (usc_RemoteControl cfg).
Definition with_server (b : ServerBlock) (cfg : UnboundServerConfig) : UnboundServerConfig :=
  MkUSC b (Dnstap cfg) (ForwardZones cfg) (StubZones cfg) (usc_RemoteControl cfg).

Definition sanitizeZoneName (name : gostring) : gostring :=
  if HasSuffix name (str ".") then name else name ++ str ".".

(** The status code of the response, and the supervisor after it. *)
Definition finish (ok : Z) (o : Outside) (cfg : UnboundServerConfig) (s : Sup) : Z * Sup :=
  match applyUnboundConfig o cfg (edit cfg s) with
  | (Ok _, s') => (ok, s')
  | (Err _, s') => (400, s')
  end.

Record forwardZoneRequest := MkZoneReq {
  req_Name : gostring; req_Addrs : list gostring; req_First : bool; req_TLS : bool }.

Definition handleAddForwardZone (o : Outside) (req : option forwardZoneRequest) (s : Sup) : Z * Sup :=
  match req with
  | None => (400, s)
  | Some req =>
      if bool_decide (req_Name req = []) || bool_decide (req_Addrs req = []) then (400, s)
      else
        let name := sanitizeZoneName (req_Name req) in
        let cfg := current s in
        if existsb (fun z => bytes_eqb (fz_Name z) name) (ForwardZones cfg) then (409, s)
        else
          let zone := MkForwardZone name (req_Addrs req) (req_First req) (req_TLS req) in
          finish 201 o (with_zones (ForwardZones cfg ++ [zone]) cfg) s
  end.

(** Replace, or remove, the first zone of that name. *)
Fixpoint edit_first (name : gostring) (by_ : list ForwardZone) (zs : list ForwardZone) : option (list ForwardZone) :=
  match zs with
  | [] => None
  | z :: zs' => if bytes_eqb (fz_Name z) name then Some (by_ ++ zs')
                else (fun l => z :: l) <$> edit_first name by_ zs'
  end.

Definition handleUpdateForwardZone (o : Outside) (path : gostring) (req : option forwardZoneRequest) (s : Sup) : Z * Sup :=
  let name := sanitizeZoneName path in
  match req with
  | None => (400, s)
  | Some req =>
      let cfg := current s in
      let zone := MkForwardZone name (req_Addrs req) (req_First req) (req_TLS req) in
      match edit_first name [zone] (ForwardZones cfg) with
      | None => (404, s)
      | Some zs => finish 200 o (with_zones zs cfg) s
      end
  end.

Definition handleDeleteForwardZone (o : Outside) (name : gostring) (s : Sup) : Z * Sup :=
  let cfg := current s in
  match edit_first name [] (ForwardZones cfg) with
  | None => (404, s)
  | Some zs => finish 204 o (with_zones zs cfg) s
  end.

(** [mergeServerBlock]: [sent] are the keys of the request body. *)
Definition mergeServerBlock (base p : ServerBlock) (sent : list gostring) : ServerBlock :=
  let s (b x : gostring) := match x with [] => b | _ => x end in
  let n (b x : Z) := if x =? 0 then b else x in
  let f (key : string) (b x : bool) := if bool_decide (str key ∈ sent) then x else b in
  MkServerBlock (Interface base) (Port base) (s (MsgCacheSize base) (MsgCacheSize p))
    (s (RRSetCacheSize base) (RRSetCacheSize p)) (s (KeyCacheSize base) (KeyCacheSize p))
    (n (CacheMaxTTL base) (CacheMaxTTL p)) (n (CacheMinTTL base) (CacheMinTTL p))
    (n (CacheMaxNegTTL base) (CacheMaxNegTTL p)) (s (ModuleConfig base) (ModuleConfig p))
    (if bool_decide (str "domain_insecure" ∈ sent) then DomainInsecure p else DomainInsecure base)
    (f "harden_glue" (HardenGlue base) (HardenGlue p)) (f "harden_dnssec_stripped" (HardenDNSSEC base) (HardenDNSSEC p))
    (f "harden_below_nxdomain" (HardenBelowNX base) (HardenBelowNX p))
    (f "harden_algo_downgrade" (HardenAlgoDown base) (HardenAlgoDown p))
    (f "qname_minimisation" (QnameMin base) (QnameMin p)) (f "aggressive_nsec" (AggressiveNSEC base) (AggressiveNSEC p))
    (n (NumThreads base) (NumThreads p)) (EDNSBufferSize base) (OutgoingRange base) (NumQueriesPerThread base)
    (f "so_reuseport" (SoReusePort base) (SoReusePort p)) (f "serve_expired" (ServeExpired base) (ServeExpired p))
    (n (ServeExpiredTTL base) (ServeExpiredTTL p)) (ServeExpiredClientTimeout base)
    (f "prefetch" (Prefetch base) (Prefetch p)) (f "prefetch_key" (PrefetchKey base) (PrefetchKey p))
    (n (Verbosity base) (Verbosity p)) (f "log_queries" (LogQueries base) (LogQueries p))
    (f "log_replies" (LogReplies base) (LogReplies p)) (f "log_servfail" (LogServfail base) (LogServfail p))
    (f "hide_identity" (HideIdentity base) (HideIdentity p)) (f "hide_version" (HideVersion base) (HideVersion p))
    (f "minimal_responses" (MinimalResponses base) (MinimalResponses p))
    (f "extended_statistics" (ExtendedStatistics base) (ExtendedStatistics p))
    (f "statistics_cumulative" (StatisticsCumulative base) (StatisticsCumulative p))
    (TLSCertBundle base) (RootHints base) (AutoTrustAnchor base) (AccessControl base) (PrivateAddress base).

(** The body: [None] if it does not parse, else the typed block and the keys
    sent (a null list is the same as none sent). *)
Definition handleUpdateUnboundServer (o : Outside) (body : option (ServerBlock * list gostring)) (s : Sup) : Z * Sup :=
  match body with
  | None => (400, s)
  | Some (partial, sent) =>
      let cfg := current s in
      finish 200 o (with_server (mergeServerBlock (usc_Server cfg) partial sent) cfg) s
  end.

(** ** The rendered file has the lines it should have *)

Definition one_line (s : gostring) : Prop := newline ∉ s.

#[global] Instance one_line_dec s : Decision (one_line s) := _.

Create HintDb lines.

Lemma one_line_app a b : one_line a -> one_line b -> one_line (a ++ b).
Proof. unfold one_line. rewrite elem_of_app. tauto. Qed.

Lemma one_line_nil : one_line [].
Proof. apply not_elem_of_nil. Qed.

Lemma one_line_yesno b : one_line (yesno b).
Proof. destruct b; by apply (bool_decide_unpack _). Qed.

Lemma one_line_Itoa n : one_line (Itoa n).
Proof.
  intros H. pose proof (Itoa_bytes n) as Hb. rewrite Forall_forall in Hb.
  destruct (Hb _ H) as [Hd|Hd]; vm_compute in Hd; discriminate Hd.
Qed.

Lemma one_line_quote : one_line quote.
Proof. by apply (bool_decide_unpack _). Qed.

(** A directive key has no newline. *)
Lemma one_line_dir key v : one_line (str key) -> one_line v -> one_line (dir key v).
Proof.
  intros Hk Hv. unfold dir. apply one_line_app; [by apply (bool_decide_unpack _)|].
  apply one_line_app; [done|]. apply one_line_app; [by apply (bool_decide_unpack _)|done].
Qed.

Lemma one_line_qdir key v : one_line (str key) -> one_line v -> one_line (qdir key v).
Proof.
  intros Hk Hv. apply one_line_dir; [done|]. apply one_line_app; [apply one_line_quote|].
  apply one_line_app; [done|apply one_line_quote].
Qed.

#[export] Hint Resolve one_line_app one_line_nil one_line_yesno one_line_Itoa one_line_quote one_line_dir
  one_line_qdir : lines.
#[export] Hint Extern 5 (one_line (str _)) => apply (bool_decide_unpack _); reflexivity : lines.

Lemma Forall_opt b (ls : list gostring) : Forall one_line ls -> Forall one_line (opt b ls).
Proof. by destruct b. Qed.

Lemma Forall_map_lines {A} (f : A -> gostring) (l : list A) :
  Forall (fun x => one_line (f x)) l -> Forall one_line (map f l).
Proof. intros H. induction H; constructor; done. Qed.

Lemma Forall_concat_lines {A} (f : A -> list gostring) (l : list A) :
  Forall (fun x => Forall one_line (f x)) l -> Forall one_line (concat (map f l)).
Proof. intros H. induction H; cbn [map concat]; [constructor|]. by apply Forall_app. Qed.

Ltac lines :=
  repeat first
    [ apply Forall_app; split
    | apply Forall_opt
    | apply Forall_cons; split
    | apply Forall_nil; exact I
    | apply Forall_map_lines ];
  eauto 6 with lines.

(** The sanitizer rejects every newline in the fields it sees. *)
Lemma sanitize_all_ok fs : sanitize_all fs = Ok tt -> Forall (fun f => one_line (f_value f) /\ f_pattern f (f_value f) = true) fs.
Proof.
  induction fs as [|f fs IH]; intros H; [constructor|]. cbn in H. unfold sanitizeField in H.
  destruct (existsb illegal (f_value f)) eqn:E1; [done|]. destruct (512 <? _)%nat; [done|].
  destruct (f_pattern f (f_value f)) eqn:E3; [|done]. constructor; [|auto]. split; [|done].
  intros Hn. apply not_true_iff_false in E1. apply E1, existsb_exists. exists newline.
  split; [by apply list_elem_of_In|reflexivity].
Qed.

(** What the sanitizer guarantees, field by field. *)
Record sanitized (cfg : UnboundServerConfig) : Prop := {
  san_acl : Forall (fun a => one_line (Netblock a) /\ one_line (Action a)) (AccessControl (usc_Server cfg));
  san_insecure : Forall one_line (DomainInsecure (usc_Server cfg));
  san_private : Forall one_line (PrivateAddress (usc_Server cfg));
  san_forward : Forall (fun z => one_line (fz_Name z) /\ Forall one_line (ForwardAddrs z)) (ForwardZones cfg);
  san_stub : Forall (fun z => one_line (sz_Name z) /\ Forall one_line (StubAddrs z)) (StubZones cfg);
  san_sizes : one_line (MsgCacheSize (usc_Server cfg)) /\ one_line (RRSetCacheSize (usc_Server cfg)) /\
    one_line (KeyCacheSize (usc_Server cfg)) }.

Lemma Forall_imap_values {A} (g : nat -> A -> Field) (h : A -> gostring) (l : list A) :
  (forall i x, f_value (g i x) = h x) ->
  Forall (fun f => one_line (f_value f)) (imap g l) -> Forall (fun x => one_line (h x)) l.
Proof.
  revert g. induction l as [|x l IH]; intros g Hg H; [constructor|]. cbn in H.
  apply Forall_cons in H as [H1 H2]. rewrite Hg in H1. constructor; [done|].
  apply (IH (g ∘ S)); [intros i y; apply Hg|done].
Qed.

Lemma Forall_concat_imap {A} (g : nat -> A -> list Field) (P : A -> Prop) (l : list A) :
  (forall i x, Forall (fun f => one_line (f_value f)) (g i x) -> P x) ->
  Forall (fun f => one_line (f_value f)) (concat (imap g l)) -> Forall P l.
Proof.
  revert g. induction l as [|x l IH]; intros g Hg H; [constructor|]. cbn in H.
  apply Forall_app in H as [H1 H2]. constructor; [by apply (Hg 0%nat)|].
  apply (IH (g ∘ S)); [intros i y; apply Hg|done].
Qed.

Lemma optional_one_line name v p : Forall (fun f => one_line (f_value f)) (optional_field name v p) -> one_line v.
Proof.
  unfold optional_field. case_bool_decide as E; [intros _; subst; apply one_line_nil|].
  intros H. by apply Forall_cons in H as [H _].
Qed.

Lemma SanitizeConfig_ok cfg : SanitizeConfig cfg = Ok tt -> sanitized cfg.
Proof.
  intros H. apply sanitize_all_ok in H.
  assert (Forall (fun f => one_line (f_value f)) (sanitized_fields cfg)) as H' by (eapply Forall_impl; [exact H|]; cbn; tauto).
  clear H. unfold sanitized_fields in H'. rewrite !Forall_app in H'.
  destruct H' as (H1 & H2 & H3 & H4 & H5 & H6 & H7 & H8). split.
  - revert H1. apply Forall_concat_imap. intros i a Ha. unfold acl_fields in Ha.
    rewrite !Forall_cons in Ha. cbn in Ha. tauto.
  - revert H2. apply (Forall_imap_values _ (fun d => d)). done.
  - revert H3. apply (Forall_imap_values _ (fun d => d)). done.
  - revert H4. apply Forall_concat_imap. intros i z Hz. unfold forward_fields in Hz.
    apply Forall_cons in Hz as [Hn Ha]. split; [done|]. revert Ha. apply (Forall_imap_values _ (fun d => d)). done.
  - revert H5. apply Forall_concat_imap. intros i z Hz. unfold stub_fields in Hz.
    apply Forall_cons in Hz as [Hn Ha]. split; [done|]. revert Ha. apply (Forall_imap_values _ (fun d => d)). done.
  - split_and!; by eapply optional_one_line.
Qed.

(** The fields the sanitizer does not look at. *)
Definition unsanitized_one_line (cfg : UnboundServerConfig) : Prop :=
  let s := usc_Server cfg in
  one_line (Interface s) /\ one_line (ModuleConfig s) /\ one_line (TLSCertBundle s) /\ one_line (RootHints s) /\
  one_line (AutoTrustAnchor s) /\ one_line (ControlInterface (usc_RemoteControl cfg)) /\
  one_line (SocketPath (Dnstap cfg)).

Lemma conf_lines_one_line cfg :
  sanitized cfg -> unsanitized_one_line cfg -> Forall one_line (conf_lines cfg).
Proof.
  intros [Ha Hd Hp Hf Hs (Hm & Hr & Hk)] (U1 & U2 & U3 & U4 & U5 & U6 & U7).
  unfold conf_lines. cbn zeta. rewrite !Forall_app. split_and!.
  - unfold header_lines. lines.
  - unfold network_lines. lines; eapply Forall_impl; [exact Ha|]; cbn beta; intros a [H1 H2]; eauto 8 with lines.
  - unfold dnssec_lines. lines; eapply Forall_impl; [exact Hd|]; cbn beta; eauto 8 with lines.
  - unfold privacy_lines. lines; eapply Forall_impl; [exact Hp|]; cbn beta; eauto 8 with lines.
  - unfold cache_lines. lines.
  - unfold performance_lines. lines.
  - unfold logging_lines. lines.
  - unfold control_lines. lines.
  - unfold dnstap_lines. lines.
  - apply Forall_concat_lines. eapply Forall_impl; [exact Hf|]. cbn beta. intros z [H1 H2]. unfold forward_lines. lines;
      eapply Forall_impl; [exact H2|]; cbn beta; eauto 8 with lines.
  - apply Forall_concat_lines. eapply Forall_impl; [exact Hs|]. cbn beta. intros z [H1 H2]. unfold stub_lines. lines;
      eapply Forall_impl; [exact H2|]; cbn beta; eauto 8 with lines.
Qed.

Lemma SplitByte_Join ls :
  ls <> [] -> Forall one_line ls -> SplitByte (Join ls [newline] ++ [newline]) newline = ls ++ [[]].
Proof.
  intros Hne Hf. induction ls as [|l ls IH]; [done|]. apply Forall_cons in Hf as [Hl Hf].
  destruct ls as [|l' ls].
  - cbn [Join]. by rewrite (SplitByte_first l [] newline).
  - change (Join (l :: l' :: ls) [newline]) with (l ++ [newline] ++ Join (l' :: ls) [newline]).
    rewrite <- !app_assoc. cbn [app]. rewrite SplitByte_first by done. f_equal. by apply IH.
Qed.

(** C16: No injection through the sanitized fields: the file written for a
    configuration that passes the sanitizer has exactly the lines of the
    template, one directive per access rule, address and zone entry, and each
    sanitized value is in the language of its pattern; provided that the seven
    fields the sanitizer does not look at have no newline. *)
Theorem rendered_structure (cfg : UnboundServerConfig) (text : gostring) :
  WriteConfig cfg true = Ok text -> unsanitized_one_line cfg ->
  SplitByte text newline = conf_lines cfg ++ [[]] /\
  Forall (fun f => f_pattern f (f_value f) = true) (sanitized_fields cfg).
Proof.
  unfold WriteConfig. destruct (SanitizeConfig cfg) as [[]|e] eqn:E; [|done]. intros [= <-] Hu. split.
  - unfold RenderConfig. apply SplitByte_Join; [done|]. apply conf_lines_one_line; [by apply SanitizeConfig_ok|done].
  - apply sanitize_all_ok in E. eapply Forall_impl; [exact E|]. cbn. tauto.
Qed.

(** A module-config value with two more lines in it. *)
Definition injected : gostring :=
  str "iterator" ++ quote ++ [newline] ++ dir "interface" (str "0.0.0.0") ++ [newline]
  ++ str "    module-config: " ++ quote ++ str "iterator".

Definition module_config_body (v : gostring) : ServerBlock :=
  MkServerBlock [] 0 [] [] [] 0 0 0 v [] false false false false false false 0 0 0 0 false false 0 0 false false 0
    false false false false false false false false [] [] [] [] [].

(** The sanitizer does not look at module-config, which the API lets callers
    set: a request with line breaks in it is accepted, and the live file gets a
    directive of the caller's choice. *)
Theorem module_config_injection :
  let s := MkSup (Some (DefaultServerConfig 5353 (str "/run/control.sock"))) None (DefaultServerConfig 5353 []) in
  let o := MkOutside None true true true in
  let '(status, s') := handleUpdateUnboundServer o (Some (module_config_body injected, [str "module_config"])) s in
  status = 200 /\
  exists text, conf_file s' = Some text /\ dir "interface" (str "0.0.0.0") ∈ SplitByte text newline /\
    dir "interface" (str "0.0.0.0") ∉ conf_lines (DefaultServerConfig 5353 (str "/run/control.sock")).
Proof.
  intros s o. destruct (handleUpdateUnboundServer o _ s) as [status s'] eqn:E.
  assert (status = 200 /\ is_Some (conf_file s')) as [-> [text Ht]].
  { vm_compute in E. injection E as <- <-. split; [reflexivity|]. eexists. reflexivity. }
  split; [done|]. exists text. split; [done|]. split.
  - assert (match conf_file s' with Some t => bool_decide (dir "interface" (str "0.0.0.0") ∈ SplitByte t newline)
            | None => false end = true) as H by (vm_compute in E; injection E as <-; vm_compute; reflexivity).
    rewrite Ht in H. by apply bool_decide_eq_true in H.
  - apply (bool_decide_unpack _). vm_compute. exact I.
Qed.

(** ** Rejected edits stay *)

Definition bad_zone (z : ForwardZone) : Prop := Exists (fun a => validAddr a = false) (ForwardAddrs z).

Lemma bad_zone_rejected cfg z : z ∈ ForwardZones cfg -> bad_zone z -> SanitizeConfig cfg <> Ok tt.
Proof.
  intros Hz Hb H. apply sanitize_all_ok in H. unfold sanitized_fields in H. rewrite !Forall_app in H.
  destruct H as (_ & _ & _ & H & _). apply list_elem_of_lookup in Hz as [i Hi].
  rewrite Forall_forall in H. apply Exists_exists in Hb as (a & Ha & Hbad).
  apply list_elem_of_lookup in Ha as [j Hj].
  assert (MkField (indexed "forward_zone" i ".forward_addr" ++ indexed EmptyString j EmptyString) a validAddr
          ∈ concat (imap forward_fields (ForwardZones cfg))) as Hin.
  { apply list_elem_of_In, in_concat. exists (forward_fields i z). split; apply list_elem_of_In.
    - apply list_elem_of_lookup. exists i. by rewrite list_lookup_imap, Hi.
    - right. apply list_elem_of_lookup. exists j. by rewrite list_lookup_imap, Hj. }
  destruct (H _ Hin) as [_ Hp]. cbn in Hp. congruence.
Qed.

Lemma finish_rejected ok o cfg s :
  SanitizeConfig cfg <> Ok tt -> finish ok o cfg s = (400, edit cfg s).
Proof.
  intros H. unfold finish, applyUnboundConfig, WriteConfig.
  destruct (SanitizeConfig cfg) as [[]|e]; [done|]. by destruct (checkconf o).
Qed.

Inductive Edit := AddZone (req : option forwardZoneRequest) | MergeServer (body : option (ServerBlock * list gostring)).

Definition run_edit (o : Outside) (e : Edit) (s : Sup) : Z * Sup :=
  match e with
  | AddZone req => handleAddForwardZone o req s
  | MergeServer body => handleUpdateUnboundServer o body s
  end.

Fixpoint run_edits (es : list (Outside * Edit)) (s : Sup) : list Z * Sup :=
  match es with
  | [] => ([], s)
  | (o, e) :: es' => let '(c, s') := run_edit o e s in
                     let '(cs, s'') := run_edits es' s' in (c :: cs, s'')
  end.

Definition holds_bad (z : ForwardZone) (s : Sup) : Prop :=
  exists cfg, serverConfig s = Some cfg /\ z ∈ ForwardZones cfg.

Lemma bad_edit_refused z o e s :
  bad_zone z -> holds_bad z s ->
  (run_edit o e s).1 ∈ [400; 409] /\ holds_bad z (run_edit o e s).2 /\
  conf_file (run_edit o e s).2 = conf_file s.
Proof.
  intros Hb (cfg & Hc & Hz).
  assert (forall ok cfg', z ∈ ForwardZones cfg' -> (finish ok o cfg' s).1 ∈ [400; 409] /\
    holds_bad z (finish ok o cfg' s).2 /\ conf_file (finish ok o cfg' s).2 = conf_file s) as Hfin.
  { intros ok cfg' Hz'. rewrite finish_rejected by (by apply (bad_zone_rejected _ z)). cbn [fst snd].
    unfold edit. rewrite Hc. split; [left|]. split; [|done]. by exists cfg'. }
  assert (current s = cfg) as Hcur by (unfold current; by rewrite Hc).
  assert (forall c : Z, c ∈ [400; 409] -> (c, s).1 ∈ [400; 409] /\ holds_bad z (c, s).2 /\
    conf_file (c, s).2 = conf_file s) as Hstay by (intros c Hin; split; [done|]; split; [by exists cfg|done]).
  destruct e as [[req|]|[[p sent]|]]; cbn [run_edit handleAddForwardZone handleUpdateUnboundServer].
  - destruct (_ || _); [apply Hstay; left|]. rewrite Hcur.
    destruct (existsb _ _); [apply Hstay; right; left|]. apply Hfin. cbn. apply elem_of_app. by left.
  - apply Hstay. left.
  - rewrite Hcur. apply Hfin. done.
  - apply Hstay. left.
Qed.

(** A rejected forward zone is not rolled back: a request that adds a zone
    with a malformed address is answered 400 but stays in the live
    configuration, and from then on every addition of a zone and every change of
    the server settings is refused and the file on disk no longer changes. *)
Theorem rejected_zone_blocks_updates (o : Outside) (req : forwardZoneRequest) (cfg : UnboundServerConfig) (s : Sup)
    (es : list (Outside * Edit)) :
  serverConfig s = Some cfg -> req_Name req <> [] ->
  Exists (fun a => validAddr a = false) (req_Addrs req) ->
  existsb (fun z => bytes_eqb (fz_Name z) (sanitizeZoneName (req_Name req))) (ForwardZones cfg) = false ->
  let '(status, s1) := handleAddForwardZone o (Some req) s in
  status = 400 /\ conf_file s1 = conf_file s /\
  let '(codes, s2) := run_edits es s1 in
  Forall (fun c => c ∈ [400; 409]) codes /\ conf_file s2 = conf_file s.
Proof.
  intros Hs Hname Hbad Hdup.
  set (z := MkForwardZone (sanitizeZoneName (req_Name req)) (req_Addrs req) (req_First req) (req_TLS req)).
  assert (handleAddForwardZone o (Some req) s = (400, edit (with_zones (ForwardZones cfg ++ [z]) cfg) s)) as E.
  { unfold handleAddForwardZone. rewrite bool_decide_eq_false_2 by done.
    rewrite bool_decide_eq_false_2 by (intros E; rewrite E in Hbad; by apply Exists_nil in Hbad).
    unfold current. rewrite Hs. cbn [orb from_option Datatypes.id]. rewrite Hdup. apply finish_rejected.
    apply (bad_zone_rejected _ z); [|done]. cbn. apply elem_of_app. right. left. }
  rewrite E. unfold edit. rewrite Hs. split_and!; [done..|].
  assert (forall s1, holds_bad z s1 -> conf_file s1 = conf_file s ->
    let '(codes, s2) := run_edits es s1 in Forall (fun c => c ∈ [400; 409]) codes /\ conf_file s2 = conf_file s) as H.
  { clear E. induction es as [|[o' e] es IH]; intros s1 Hh Hf; [by split; [constructor|]|]. cbn [run_edits].
    destruct (bad_edit_refused z o' e s1 Hbad Hh) as (H1 & H2 & H3).
    destruct (run_edit o' e s1) as [c s']. cbn [fst snd] in *.
    specialize (IH s' H2 ltac:(congruence)). destruct (run_edits es s') as [cs s'']. destruct IH.
    split; [by constructor|done]. }
  apply H; [|done]. eexists. split; [reflexivity|]. cbn. apply elem_of_app. right. left.
Qed.

(** ** Zone names *)

Definition dotted (s : Sup) : Prop :=
  Forall (fun z => HasSuffix (fz_Name z) (str ".") = true) (ForwardZones (current s)).

Lemma sanitizeZoneName_dotted n : HasSuffix (sanitizeZoneName n) (str ".") = true.
Proof. unfold sanitizeZoneName. destruct (HasSuffix n (str ".")) eqn:E; [done|]. apply HasSuffix_app. Qed.

Lemma edit_first_none name by_ zs :
  edit_first name by_ zs = None <-> Forall (fun z => fz_Name z <> name) zs.
Proof.
  induction zs as [|z zs IH]; cbn; [split; constructor|]. rewrite Forall_cons, <- IH.
  destruct (bytes_eqb (fz_Name z) name) eqn:E.
  - apply bytes_eqb_eq in E. naive_solver.
  - rewrite fmap_None. assert (fz_Name z <> name); [|tauto]. intros H. by rewrite H, bytes_eqb_refl in E.
Qed.

(** Zone names are stored with a trailing dot.  Where they all are, an update
    finds a zone under its name with or without the dot, but a deletion without
    the dot always answers 404 and changes nothing. *)
Theorem delete_needs_dot (o : Outside) (name : gostring) (req : forwardZoneRequest) (s : Sup) :
  dotted s -> HasSuffix name (str ".") = false ->
  Exists (fun z => fz_Name z = name ++ str ".") (ForwardZones (current s)) ->
  handleDeleteForwardZone o name s = (404, s) /\
  (handleUpdateForwardZone o name (Some req) s).1 <> 404.
Proof.
  intros Hd Hn Hex. split.
  - unfold handleDeleteForwardZone. assert (edit_first name [] (ForwardZones (current s)) = None) as ->; [|done].
    apply edit_first_none. eapply Forall_impl; [exact Hd|]. cbn beta. intros z Hz Hzn. rewrite Hzn in Hz. congruence.
  - unfold handleUpdateForwardZone. assert (sanitizeZoneName name = name ++ str ".") as ->
      by (unfold sanitizeZoneName; by rewrite Hn).
    destruct (edit_first _ _ _) as [zs|] eqn:E.
    + unfold finish. by destruct (applyUnboundConfig _ _ _) as [[]].
    + apply edit_first_none in E. apply Exists_exists in Hex as (z & Hz & Hname).
      rewrite Forall_forall in E. by apply E in Hz.
Qed.

(** ** Witnesses *)

Definition sample_conf : UnboundServerConfig := DefaultServerConfig 5353 (str "/run/control.sock").
Definition sample_sup (zs : list ForwardZone) : Sup := MkSup (Some (with_zones zs sample_conf)) None sample_conf.
Definition quiet : Outside := MkOutside None true true true.

Lemma rendered_structure_witness :
  SplitByte (RenderConfig sample_conf) newline = conf_lines sample_conf ++ [[]].
Proof.
  refine (proj1 (rendered_structure sample_conf (RenderConfig sample_conf) _ _)).
  - vm_compute. reflexivity.
  - repeat split; apply (bool_decide_unpack _); vm_compute; exact I.
Defined.

Lemma rejected_zone_blocks_updates_witness :
  let bad := MkZoneReq (str "corp.example") [str "dns.corp.example"] false false in
  let good := MkZoneReq (str "home.example") [str "192.0.2.53"] false false in
  let '(status, s1) := handleAddForwardZone quiet (Some bad) (sample_sup []) in
  status = 400 /\ conf_file s1 = None /\
  let '(codes, s2) := run_edits [(quiet, AddZone (Some good))] s1 in
  Forall (fun c => c ∈ [400; 409]) codes /\ conf_file s2 = None.
Proof.
  intros bad good.
  apply (rejected_zone_blocks_updates quiet bad (with_zones [] sample_conf) (sample_sup [])
           [(quiet, AddZone (Some good))]).
  - reflexivity.
  - discriminate.
  - left. vm_compute. reflexivity.
  - reflexivity.
Defined.

Lemma delete_needs_dot_witness :
  handleDeleteForwardZone quiet (str "corp.example") (sample_sup [MkForwardZone (str "corp.example.") [str "192.0.2.1"] false false])
  = (404, sample_sup [MkForwardZone (str "corp.example.") [str "192.0.2.1"] false false]).
Proof.
  refine (proj1 (delete_needs_dot quiet (str "corp.example") (MkZoneReq [] [str "192.0.2.1"] false false) _ _ _ _)).
  - constructor; [reflexivity|constructor].
  - reflexivity.
  - left. reflexivity.
Defined.
