(* ===== verification/Supervisor.v ===== *)
(** * The Unbound supervisor (pkg/unbound/supervisor.go)

    A child process, the goroutine that waits for its exit, the health loop and
    [handleCrash], which both call and which restarts the process behind a gate
    with a limited number of attempts.  [Start] and [Stop] may overlap with
    everything, but not with themselves: main.go calls them from one goroutine.  The operations are decomposed at the
    points where other goroutines can run (each critical section of the lock,
    each wait, each process operation); a run is any interleaving.  Whether a
    process could be started or answered its probes is part of the label. *)

From S2P Require Import Prelude.
From stdpp Require Import options.
Local Open Scope Z_scope.

(** ** State *)

Inductive State := StateStopped | StateStarting | StateRunning | StateDegraded | StateFailed.

#[global] Instance State_eq_dec : EqDecision State.
Proof. solve_decision. Defined.

(** Where a call of [handleCrash] is: at its entry, or behind the gate waiting
    for its backoff, stopping the old process, starting the new one, waiting for
    it to answer, giving up on it.  [window] is the restart window it counted
    in. *)
Inductive CrashPC :=
| Entered
| Backoff (until window : Z)
| StopOld (window : Z)
| StartNew (window : Z)
| WaitNew
| GiveUp.

Definition past_gate (pc : CrashPC) : bool := match pc with Entered => false | _ => true end.

(** A context: the one [Start] was given ([None]), or that of a health loop,
    which is derived from it. *)
Definition Ctx := option nat.

(** A call of [handleCrash]: made by a health loop, which waits for it to return
    ([by_loop]), or by the goroutine that waited for a process; with its
    context. *)
Record Call := MkCall { by_loop : bool; ctx : Ctx; pc : CrashPC }.

(** A health loop: its context is not cancelled yet, its failures in a row. *)
Record Loop := MkLoop { live : bool; consecutiveFailures : nat }.

(** Where [Start] and [Stop] are. *)
Inductive StartPC := StartIdle | StartProc | StartWait | StartAbort.
Inductive StopPC := StopIdle | StopKill | StopSet.

Record Supervisor := MkSup {
  managed : bool; state : State;
  restartCount : Z; restartWindowAt : option Z; restarting : bool;
  cmd : option nat; alive : gset nat; next_pid : nat;
  monitors : gmap nat Ctx;
  calls : list Call;
  loops : list Loop; cancelHealth : option nat;
  starting : StartPC; stopping : StopPC; ctx_done : bool;
  starts : list Z  (** the window of each restart *) }.

Definition NewSupervisor (m : bool) : Supervisor :=
  MkSup m StateStopped 0 None false None ∅ 0 ∅ [] [] None StartIdle StopIdle false [].

Definition upd_state (st : State) (s : Supervisor) : Supervisor :=
  MkSup (managed s) st (restartCount s) (restartWindowAt s) (restarting s) (cmd s) (alive s) (next_pid s)
    (monitors s) (calls s) (loops s) (cancelHealth s) (starting s) (stopping s) (ctx_done s) (starts s).
Definition upd_gate (n : Z) (w : option Z) (g : bool) (s : Supervisor) : Supervisor :=
  MkSup (managed s) (state s) n w g (cmd s) (alive s) (next_pid s) (monitors s) (calls s) (loops s)
    (cancelHealth s) (starting s) (stopping s) (ctx_done s) (starts s).
Definition upd_proc (c : option nat) (a : gset nat) (p : nat) (m : gmap nat Ctx) (s : Supervisor) : Supervisor :=
  MkSup (managed s) (state s) (restartCount s) (restartWindowAt s) (restarting s) c a p m (calls s) (loops s)
    (cancelHealth s) (starting s) (stopping s) (ctx_done s) (starts s).
Definition upd_calls (l : list Call) (s : Supervisor) : Supervisor :=
  MkSup (managed s) (state s) (restartCount s) (restartWindowAt s) (restarting s) (cmd s) (alive s) (next_pid s)
    (monitors s) l (loops s) (cancelHealth s) (starting s) (stopping s) (ctx_done s) (starts s).
Definition upd_loops (h : list Loop) (n : option nat) (s : Supervisor) : Supervisor :=
  MkSup (managed s) (state s) (restartCount s) (restartWindowAt s) (restarting s) (cmd s) (alive s) (next_pid s)
    (monitors s) (calls s) h n (starting s) (stopping s) (ctx_done s) (starts s).
Definition upd_lifecycle (a : StartPC) (o : StopPC) (d : bool) (s : Supervisor) : Supervisor :=
  MkSup (managed s) (state s) (restartCount s) (restartWindowAt s) (restarting s) (cmd s) (alive s) (next_pid s)
    (monitors s) (calls s) (loops s) (cancelHealth s) a o d (starts s).
Definition upd_starts (l : list Z) (s : Supervisor) : Supervisor :=
  MkSup (managed s) (state s) (restartCount s) (restartWindowAt s) (restarting s) (cmd s) (alive s) (next_pid s)
    (monitors s) (calls s) (loops s) (cancelHealth s) (starting s) (stopping s) (ctx_done s) l.

(** A context is cancelled with the one it is derived from, or by [Stop]. *)
Definition done (c : Ctx) (s : Supervisor) : bool :=
  ctx_done s || match c with None => false | Some k => negb (from_option live false (loops s !! k)) end.

(** ** Processes *)

(** [startProcess]: a new child and a goroutine that waits for it.  A child of a
    cancelled context does not start; a child whose context is cancelled later is
    killed, which is one of the ways for it to exit. *)
Definition startProcess (c : Ctx) (ok : bool) (s : Supervisor) : option Supervisor :=
  if ok && negb (done c s)
  then let p := next_pid s in Some (upd_proc (Some p) ({[p]} ∪ alive s) (S p) (<[p := c]> (monitors s)) s)
  else None.

(** [stopProcess]: cancel, wait for the exit, forget the child. *)
Definition stopProcess (s : Supervisor) : Supervisor :=
  match cmd s with
  | None => s
  | Some p => upd_proc None (alive s ∖ {[p]}) (next_pid s) (monitors s) s
  end.

(** The goroutine of [startProcess], when its process has exited. *)
Definition monitor_exit (p : nat) (s : Supervisor) : option Supervisor :=
  match monitors s !! p with
  | Some c =>
      if bool_decide (p ∈ alive s) then None else
      let s := upd_proc (cmd s) (alive s) (next_pid s) (delete p (monitors s)) s in
      Some (if bool_decide (state s = StateStopped) then s else upd_calls (calls s ++ [MkCall false c Entered]) s)
  | None => None
  end.

(** ** [handleCrash] *)

Definition window_length : Z := 60 * 1000000000.
Definition second : Z := 1000000000.

(** [time.Duration(1<<uint(count-1)) * time.Second], at most 30 seconds. *)
Definition backoff (count : Z) : Z := Z.min (2 ^ (count - 1) * second) (30 * second).

Definition remove_call (i : nat) (s : Supervisor) : Supervisor := upd_calls (delete i (calls s)) s.
Definition set_call (i : nat) (c : Call) (p : CrashPC) (s : Supervisor) : Supervisor :=
  upd_calls (<[i := MkCall (by_loop c) (ctx c) p]> (calls s)) s.

(** Return: the deferred [restarting.Store(false)] of a call behind the gate. *)
Definition return_call (i : nat) (s : Supervisor) : Supervisor :=
  upd_gate (restartCount s) (restartWindowAt s) false (remove_call i s).

(** From the entry to the backoff. *)
Definition handleCrash_enter (i : nat) (now : Z) (s : Supervisor) : option Supervisor :=
  match calls s !! i with
  | Some (MkCall _ _ Entered as c) =>
      if negb (managed s) then Some (remove_call i (upd_state StateDegraded s))
      else if restarting s then Some (remove_call i s)
      else
        let fresh := match restartWindowAt s with None => true | Some w => window_length <? now - w end in
        let count := (if fresh then 0 else restartCount s) + 1 in
        let w := if fresh then now else default now (restartWindowAt s) in
        let s := upd_gate count (Some w) true s in
        if 5 <? count then Some (return_call i (upd_state StateFailed s))
        else Some (set_call i c (Backoff (now + backoff count) w) s)
  | _ => None
  end.

(** The rest, one wait or process operation at a time. *)
Definition handleCrash_step (i : nat) (now : Z) (ok : bool) (s : Supervisor) : option Supervisor :=
  match calls s !! i with
  | Some (MkCall _ _ (Backoff t w) as c) =>
      if done (ctx c) s && negb ok then Some (return_call i s)
      else if now <? t then None else Some (set_call i c (StopOld w) s)
  | Some (MkCall _ _ (StopOld w) as c) => Some (set_call i c (StartNew w) (stopProcess s))
  | Some (MkCall _ _ (StartNew w) as c) =>
      match startProcess (ctx c) ok s with
      | None => Some (return_call i s)
      | Some s' => Some (set_call i c WaitNew (upd_starts (starts s' ++ [w]) s'))
      end
  | Some (MkCall _ _ WaitNew as c) =>
      if ok then Some (return_call i (upd_state StateRunning s)) else Some (set_call i c GiveUp s)
  | Some (MkCall _ _ GiveUp) => Some (return_call i (stopProcess s))
  | _ => None
  end.

(** ** The health loop *)

Definition health_busy (k : nat) (s : Supervisor) : bool :=
  existsb (fun c => by_loop c && bool_decide (ctx c = Some k)) (calls s).

(** [go s.healthLoop(healthCtx)]. *)
Definition spawn_healthLoop (s : Supervisor) : Supervisor :=
  upd_loops (loops s ++ [MkLoop true 0]) (Some (length (loops s))) s.

(** One tick of loop [k]. *)
Definition healthLoop_tick (k : nat) (probe : bool) (s : Supervisor) : option Supervisor :=
  match loops s !! k with
  | Some (MkLoop _ n) =>
      let set n := upd_loops (<[k := MkLoop (from_option live false (loops s !! k)) n]> (loops s)) (cancelHealth s) in
      if done (Some k) s || health_busy k s then None
      else if probe then Some (set 0%nat (if (0 <? n)%nat then upd_state StateRunning s else s))
      else if (3 <=? S n)%nat
      then Some (set 0%nat (upd_calls (calls s ++ [MkCall true (Some k) Entered]) (upd_state StateDegraded s)))
      else Some (set (S n) s)
  | None => None
  end.

(** [cancelHealth()]: the latest loop only. *)
Definition cancel_health (s : Supervisor) : Supervisor :=
  match cancelHealth s with
  | Some k => upd_loops (alter (fun l => MkLoop false (consecutiveFailures l)) k (loops s)) (cancelHealth s) s
  | None => s
  end.

(** ** [Start] and [Stop] *)

(** [Start]: the guard; the binaries were found and the port is free if [ok]. *)
Definition Start_begin (ok probe : bool) (s : Supervisor) : option Supervisor :=
  match starting s with
  | StartIdle =>
      if bool_decide (state s = StateRunning) || bool_decide (state s = StateStarting) then Some s
      else
        let s := upd_state StateStarting s in
        if managed s then
          if ok then Some (upd_lifecycle StartProc (stopping s) (ctx_done s) s) else Some (upd_state StateFailed s)
        else
          Some (spawn_healthLoop (upd_state (if probe then StateRunning else StateDegraded) s))
  | _ => None
  end.

Definition Start_step (ok : bool) (s : Supervisor) : option Supervisor :=
  match starting s with
  | StartProc =>
      match startProcess None ok s with
      | None => Some (upd_lifecycle StartIdle (stopping s) (ctx_done s) (upd_state StateFailed s))
      | Some s' => Some (upd_lifecycle StartWait (stopping s') (ctx_done s') s')
      end
  | StartWait =>
      if ok then Some (spawn_healthLoop (upd_lifecycle StartIdle (stopping s) (ctx_done s) (upd_state StateRunning s)))
      else Some (upd_lifecycle StartAbort (stopping s) (ctx_done s) (stopProcess s))
  | StartAbort => Some (upd_lifecycle StartIdle (stopping s) (ctx_done s) (upd_state StateFailed s))
  | StartIdle => None
  end.

(** [Stop]: end the health loop and cancel the process (killed by now or soon),
    stop it, and only then record the new state. *)
Definition Stop_step (s : Supervisor) : option Supervisor :=
  match stopping s with
  | StopIdle => Some (upd_lifecycle (starting s) StopKill (ctx_done s) (cancel_health s))
  | StopKill => Some (upd_lifecycle (starting s) StopSet (ctx_done s) (stopProcess s))
  | StopSet => Some (upd_lifecycle (starting s) StopIdle (ctx_done s) (upd_state StateStopped s))
  end.

(** ** Runs *)

Inductive Label :=
| Exit (p : nat)                          (** a process exits, by itself or killed *)
| Monitor (p : nat)
| Enter (i : nat) (now : Z)
| Crash (i : nat) (now : Z) (ok : bool)
| Health (k : nat) (probe : bool)
| StartBegin (ok probe : bool)
| StartStep (ok : bool)
| StopStep
| Cancel                                  (** the context is cancelled *).

Definition step (l : Label) (s : Supervisor) : option Supervisor :=
  match l with
  | Exit p => if bool_decide (p ∈ alive s)
              then Some (upd_proc (cmd s) (alive s ∖ {[p]}) (next_pid s) (monitors s) s) else None
  | Monitor p => monitor_exit p s
  | Enter i now => handleCrash_enter i now s
  | Crash i now ok => handleCrash_step i now ok s
  | Health k probe => healthLoop_tick k probe s
  | StartBegin ok probe => Start_begin ok probe s
  | StartStep ok => Start_step ok s
  | StopStep => Stop_step s
  | Cancel => Some (upd_lifecycle (starting s) (stopping s) true s)
  end.

Fixpoint run (tr : list Label) (s : Supervisor) : option Supervisor :=
  match tr with
  | [] => Some s
  | l :: tr' => s' ← step l s; run tr' s'
  end.

(** ** At most one restart at a time *)

Definition behind (s : Supervisor) : nat := length (filter (fun c => past_gate (pc c) = true) (calls s)).

(** The restarts and the pending restart counted in window [w]. *)
Definition tagged (w : Z) (c : Call) : bool :=
  match pc c with Backoff _ w' | StopOld w' | StartNew w' => w' =? w | _ => false end.
Definition in_window (s : Supervisor) (w : Z) : Z :=
  Z.of_nat (length (filter (fun x => x = w) (starts s))) +
  Z.of_nat (length (filter (fun c => tagged w c = true) (calls s))).

(** The windows used so far are at most the current one, and over sixty seconds
    apart. *)
Record inv (s : Supervisor) : Prop := MkInv {
  inv_gate : behind s = if restarting s then 1%nat else 0%nat;
  inv_limit : forall w, in_window s w <= 5;
  inv_count : forall w, restartWindowAt s = Some w -> in_window s w <= restartCount s;
  inv_tags : forall w, 0 < in_window s w -> exists w0, restartWindowAt s = Some w0 /\ w <= w0;
  inv_apart : forall w w', 0 < in_window s w -> (0 < in_window s w' \/ restartWindowAt s = Some w') ->
    w < w' -> window_length < w' - w }.

Lemma filter_delete_one {A} (P : A -> Prop) `{!forall x, Decision (P x)} (l : list A) i x :
  l !! i = Some x ->
  (length (filter P l) = length (filter P (delete i l)) + if decide (P x) then 1 else 0)%nat.
Proof.
  revert i. induction l as [|y l IH]; intros i Hi; [done|]. destruct i as [|i].
  - injection Hi as ->. cbn [delete list_delete]. rewrite filter_cons. destruct (decide (P x)); cbn; lia.
  - change (delete (S i) (y :: l)) with (y :: delete i l). rewrite !filter_cons. specialize (IH i Hi).
    destruct (decide (P y)); cbn; lia.
Qed.

Lemma filter_insert_one {A} (P : A -> Prop) `{!forall x, Decision (P x)} (l : list A) i x y :
  l !! i = Some x ->
  (length (filter P (<[i := y]> l)) + (if decide (P x) then 1 else 0) =
   length (filter P l) + (if decide (P y) then 1 else 0))%nat.
Proof.
  revert i. induction l as [|z l IH]; intros i Hi; [done|]. destruct i as [|i].
  - injection Hi as ->. cbn [insert list_insert]. rewrite !filter_cons.
    destruct (decide (P x)), (decide (P y)); cbn; lia.
  - change (<[S i := y]> (z :: l)) with (z :: <[i := y]> l). rewrite !filter_cons. specialize (IH i Hi).
    destruct (decide (P z)); cbn; lia.
Qed.

(** A step that may return or advance calls, and count further, but starts no
    window. *)
Lemma inv_pointwise s s' :
  inv s -> behind s' = (if restarting s' then 1%nat else 0%nat) ->
  (forall w, in_window s' w <= in_window s w) -> restartWindowAt s' = restartWindowAt s ->
  restartCount s <= restartCount s' -> inv s'.
Proof.
  intros [Hg Hl Hc Ht Ha] E1 E2 E3 E4. split; [done|..].
  - intros w. specialize (Hl w). specialize (E2 w). lia.
  - intros w Hw. rewrite E3 in Hw. specialize (Hc w Hw). specialize (E2 w). lia.
  - intros w Hw. rewrite E3. apply Ht. specialize (E2 w). lia.
  - intros w w' Hw Hw'. rewrite E3 in Hw'. apply Ha; [specialize (E2 w); lia|].
    destruct Hw'; [left; specialize (E2 w'); lia | by right].
Qed.

(** Adding a call at its entry changes nothing. *)
Lemma inv_same s s' :
  inv s -> restarting s' = restarting s -> restartWindowAt s' = restartWindowAt s ->
  restartCount s' = restartCount s -> starts s' = starts s ->
  (calls s' = calls s \/ exists h c, calls s' = calls s ++ [MkCall h c Entered]) -> inv s'.
Proof.
  intros Hi E1 E2 E3 E4 E5. apply (inv_pointwise s); [done|..|done|lia].
  - rewrite E1, <- (inv_gate s Hi). unfold behind. destruct E5 as [->|(h & c & ->)]; [done|].
    by rewrite filter_app, app_nil_r.
  - intros w. unfold in_window. rewrite E4. destruct E5 as [->|(h & c & ->)]; [done|].
    rewrite filter_app. cbn. by rewrite app_nil_r.
Qed.

(** What returning or advancing call [i] changes. *)
Lemma behind_delete s i c l :
  calls s !! i = Some c -> l = delete i (calls s) ->
  behind s = (length (filter (fun c => past_gate (pc c) = true) l) + if past_gate (pc c) then 1 else 0)%nat.
Proof.
  intros Hi ->. unfold behind. rewrite (filter_delete_one _ _ _ _ Hi).
  cbn beta. repeat case_decide; destruct (past_gate (pc c)); congruence || lia.
Qed.

Lemma behind_insert s i c d l :
  calls s !! i = Some c -> l = <[i := d]> (calls s) ->
  (length (filter (fun c => past_gate (pc c) = true) l) + (if past_gate (pc c) then 1 else 0) =
   behind s + if past_gate (pc d) then 1 else 0)%nat.
Proof.
  intros Hi ->. unfold behind. pose proof (filter_insert_one (fun c => past_gate (pc c) = true) _ _ _ d Hi).
  cbn beta in *. repeat case_decide; destruct (past_gate (pc c)), (past_gate (pc d)); congruence || lia.
Qed.

Lemma tagged_delete s i c w :
  calls s !! i = Some c ->
  (length (filter (fun c => tagged w c = true) (delete i (calls s))) <=
   length (filter (fun c => tagged w c = true) (calls s)))%nat.
Proof. intros Hi. rewrite (filter_delete_one _ _ _ _ Hi). lia. Qed.

Lemma tagged_insert s i c d w :
  calls s !! i = Some c ->
  (length (filter (fun c => tagged w c = true) (<[i := d]> (calls s))) + (if tagged w c then 1 else 0) =
   length (filter (fun c => tagged w c = true) (calls s)) + if tagged w d then 1 else 0)%nat.
Proof.
  intros Hi. pose proof (filter_insert_one (fun c => tagged w c = true) _ _ _ d Hi).
  cbn beta in *. repeat case_decide; destruct (tagged w c), (tagged w d); congruence || lia.
Qed.

(** Call [i] leaves, with the gate if it holds it. *)
Lemma inv_return s s' i c :
  inv s -> calls s !! i = Some c -> calls s' = delete i (calls s) -> starts s' = starts s ->
  restartWindowAt s' = restartWindowAt s -> restartCount s <= restartCount s' ->
  restarting s' = (if past_gate (pc c) then false else restarting s) -> inv s'.
Proof.
  intros Hi Hc E1 E2 E3 E4 E5. apply (inv_pointwise s); try done.
  - pose proof (behind_delete s i c _ Hc E1) as Hb. fold (behind s') in Hb. rewrite (inv_gate s Hi) in Hb.
    rewrite E5. destruct (past_gate (pc c)), (restarting s); lia.
  - intros w. unfold in_window. rewrite E1, E2. pose proof (tagged_delete s i c w Hc). lia.
Qed.

(** Call [i] advances behind the gate, keeping its window or having started in
    it. *)
Lemma inv_advance s s' i c d new :
  inv s -> calls s !! i = Some c -> calls s' = <[i := d]> (calls s) -> starts s' = starts s ++ new ->
  restartWindowAt s' = restartWindowAt s -> restartCount s' = restartCount s ->
  restarting s' = restarting s -> past_gate (pc c) = past_gate (pc d) ->
  (forall w, ((if tagged w d then 1 else 0) + length (filter (fun x => x = w) new) <= if tagged w c then 1 else 0)%nat) ->
  inv s'.
Proof.
  intros Hi Hc E1 E2 E3 E4 E5 E6 E7. apply (inv_pointwise s); [done|..|done|lia].
  - pose proof (behind_insert s i c d _ Hc E1) as Hb. fold (behind s') in Hb. rewrite E6 in Hb.
    rewrite E5, <- (inv_gate s Hi). lia.
  - intros w. unfold in_window. rewrite E1, E2, filter_app, length_app.
    pose proof (tagged_insert s i c d w Hc). specialize (E7 w). lia.
Qed.

(** The gate is taken: a new window or a further restart in the current one. *)
Lemma inv_take s i h k t now w count :
  inv s -> calls s !! i = Some (MkCall h k Entered) -> restarting s = false -> count <= 5 ->
  (restartWindowAt s = Some w /\ count = restartCount s + 1 \/
   w = now /\ count = 1 /\ forall w0, restartWindowAt s = Some w0 -> window_length < now - w0) ->
  inv (set_call i (MkCall h k Entered) (Backoff t w) (upd_gate count (Some w) true s)).
Proof.
  intros Hi Hc Hg Hn Hw. set (s' := set_call _ _ _ _).
  assert (forall x, in_window s' x = in_window s x + if w =? x then 1 else 0) as Ew.
  { intros x. unfold in_window. subst s'. cbn [calls starts set_call upd_calls upd_gate].
    pose proof (tagged_insert s i _ (MkCall h k (Backoff t w)) x Hc) as Ht. cbn [tagged pc by_loop ctx] in *.
    destruct (w =? x); lia. }
  assert (forall x, 0 < in_window s x -> x <= w /\ (x = w -> restartWindowAt s = Some w)) as Hle.
  { intros x Hx. destruct (inv_tags s Hi x Hx) as (w0 & E & Hxw). destruct Hw as [[E' _]|(-> & _ & Hf)].
    - rewrite E' in E. injection E as ->. done.
    - specialize (Hf w0 E). unfold window_length in *. lia. }
  assert (forall x, 0 < in_window s x -> x < w -> window_length < w - x) as Hap.
  { intros x Hx Hxw. destruct Hw as [[E' _]|(-> & _ & Hf)]; [apply (inv_apart s Hi x w); auto|].
    destruct (inv_tags s Hi x Hx) as (w0 & E & Hx0). specialize (Hf w0 E). lia. }
  assert (in_window s w + 1 <= count) as Hcount.
  { destruct Hw as [[E' ->]|(-> & -> & Hf)]; [pose proof (inv_count s Hi w E'); lia|].
    destruct (decide (0 < in_window s now)) as [Hp|]; [|lia].
    destruct (Hle now Hp) as [_ E]. specialize (Hf now (E eq_refl)). unfold window_length in Hf. lia. }
  split.
  - pose proof (behind_insert s i _ (MkCall h k (Backoff t w)) (calls s') Hc eq_refl) as Hb.
    fold (behind s') in Hb. rewrite (inv_gate s Hi), Hg in Hb. cbn in Hb. cbn. lia.
  - intros x. rewrite Ew. pose proof (inv_limit s Hi x). destruct (Z.eqb_spec w x) as [<-|]; lia.
  - intros x [= <-]. rewrite Ew, Z.eqb_refl. cbn. lia.
  - intros x Hx. exists w. split; [done|]. rewrite Ew in Hx.
    destruct (Z.eqb_spec w x); [lia|]. apply Hle. lia.
  - intros x y Hx Hy Hxy. rewrite Ew in Hx, Hy. destruct (Z.eqb_spec w x) as [<-|Hn1].
    + destruct Hy as [Hy|[= <-]]; [|lia]. destruct (Z.eqb_spec w y); [lia|].
      destruct (Hle y); lia.
    + destruct (Z.eqb_spec w y) as [<-|Hn2]; [apply Hap; lia|].
      destruct Hy as [Hy|[= <-]]; [|done]. apply (inv_apart s Hi x y); [lia|left; lia|done].
Qed.

Lemma stopProcess_calls s :
  calls (stopProcess s) = calls s /\ starts (stopProcess s) = starts s /\
  restarting (stopProcess s) = restarting s /\ restartCount (stopProcess s) = restartCount s /\
  restartWindowAt (stopProcess s) = restartWindowAt s.
Proof. unfold stopProcess. by destruct (cmd s). Qed.

Lemma inv_enter i now s s' : inv s -> handleCrash_enter i now s = Some s' -> inv s'.
Proof.
  intros Hi H. unfold handleCrash_enter in H. destruct (calls s !! i) as [[h k []]|] eqn:E; try done.
  destruct (managed s); cbn [negb] in H.
  2:{ injection H as <-. by eapply (inv_return s). }
  destruct (restarting s) eqn:Eg.
  { injection H as <-. by eapply (inv_return s). }
  set (f := match restartWindowAt s with None => true | Some w => window_length <? now - w end) in H.
  set (count := (if f then 0 else restartCount s) + 1) in H.
  set (w := if f then now else default now (restartWindowAt s)) in H.
  assert (restartWindowAt s = Some w /\ count = restartCount s + 1 \/
   w = now /\ count = 1 /\ forall w0, restartWindowAt s = Some w0 -> window_length < now - w0) as Hw.
  { subst f count w. destruct (restartWindowAt s) as [w0|]; [|right; naive_solver].
    destruct (Z.ltb_spec window_length (now - w0)); [right|by left].
    split_and!; [done..|]. by intros ? [= <-]. }
  clearbody f count w. destruct (Z.ltb_spec 5 count) as [Hc|Hc]; injection H as <-.
  - destruct Hw as [[E1 ->]|(_ & -> & _)]; [|lia]. eapply (inv_return s); try done; cbn; lia.
  - by eapply inv_take.
Qed.

Lemma inv_crash i now ok s s' : inv s -> handleCrash_step i now ok s = Some s' -> inv s'.
Proof.
  intros Hi H. destruct (stopProcess_calls s) as (P1 & P2 & P3 & P4 & P5).
  unfold handleCrash_step in H. destruct (calls s !! i) as [[h k [|t w|w|w| |]]|] eqn:E; try done.
  - destruct (_ && _); [injection H as <-; eapply (inv_return s); done|].
    destruct (now <? t); [done|]. injection H as <-.
    eapply (inv_advance s _ i _ _ []); try done; cbn; [by rewrite app_nil_r|intros; lia].
  - injection H as <-. unfold set_call. rewrite P1.
    eapply (inv_advance s _ i _ _ []); try done; cbn; [by rewrite P2, app_nil_r|intros; lia].
  - unfold startProcess in H. destruct (_ && _); injection H as <-; [|by eapply (inv_return s)].
    eapply (inv_advance s _ i _ _ [w]); try done. intros x. unfold tagged. cbn [pc]. rewrite filter_cons, filter_nil.
    case_decide; destruct (Z.eqb_spec w x); cbn; congruence || lia.
  - destruct ok; injection H as <-; [by eapply (inv_return s)|].
    eapply (inv_advance s _ i _ _ []); try done; cbn; by rewrite app_nil_r.
  - injection H as <-. eapply (inv_return s); try done; cbn; by rewrite ?P1, ?P4.
Qed.

Ltac inv_other := eapply inv_same; [eassumption|cbn; by auto..].

Lemma sup_step_inv l s s' : inv s -> step l s = Some s' -> inv s'.
Proof.
  intros Hi H. destruct (stopProcess_calls s) as (P1 & P2 & P3 & P4 & P5).
  destruct l as [p|p|i now|i now ok|k pr|ok pr|ok| |]; cbn [step] in H.
  - case_bool_decide; [|done]. injection H as <-. inv_other.
  - unfold monitor_exit in H. destruct (monitors s !! p) as [c|]; [|done]. case_bool_decide; [done|].
    injection H as <-. case_bool_decide; (eapply inv_same; [eassumption|cbn; by eauto..]).
  - by eapply inv_enter.
  - by eapply inv_crash.
  - unfold healthLoop_tick in H. destruct (loops s !! k) as [[b n]|]; [|done]. destruct (_ || _); [done|].
    destruct pr; [|destruct (3 <=? S n)%nat]; injection H as <-; [destruct (0 <? n)%nat|..];
      (eapply inv_same; [eassumption|cbn; eauto..]).
  - unfold Start_begin in H. destruct (starting s); try done. destruct (_ || _); [by injection H as <-|].
    cbn [managed upd_state] in H. destruct (managed s), ok; injection H as <-; inv_other.
  - unfold Start_step, startProcess in H. destruct (starting s); try done.
    + destruct (_ && _); injection H as <-; inv_other.
    + destruct ok; injection H as <-; [inv_other|].
      eapply inv_same; [eassumption|cbn; by rewrite ?P1, ?P2, ?P3, ?P4, ?P5; auto..].
    + injection H as <-; inv_other.
  - unfold Stop_step, cancel_health in H. destruct (stopping s); injection H as <-; [|..|inv_other].
    + destruct (cancelHealth s); inv_other.
    + eapply inv_same; [eassumption|cbn; by rewrite ?P1, ?P2, ?P3, ?P4, ?P5; auto..].
  - injection H as <-. inv_other.
Qed.

Lemma inv_run tr : forall s s', inv s -> run tr s = Some s' -> inv s'.
Proof.
  induction tr as [|l tr IH]; intros s s' Hi H; [by injection H as <-|]. cbn [run] in H.
  destruct (step l s) as [s1|] eqn:E; [|done]. eapply IH; [|done]. by eapply sup_step_inv.
Qed.

Lemma inv_new m : inv (NewSupervisor m).
Proof. split; cbn; try done; unfold in_window; cbn; lia. Qed.

(** ** After a stop *)

Definition is_start (l : Label) : bool := match l with StartBegin _ _ => true | _ => false end.

(** A stop no [handleCrash] and no health loop overlaps with. *)
Definition quiet (s : Supervisor) : Prop :=
  state s = StateStopped /\ calls s = [] /\ starting s = StartIdle /\ forall k, done (Some k) s = true.

Lemma quiet_step l s s' :
  quiet s -> is_start l = false -> step l s = Some s' -> quiet s' /\ next_pid s' = next_pid s.
Proof.
  intros (H1 & H2 & H3 & H4) Hl H. unfold quiet.
  assert (forall i, calls s !! i = None) as Hn by (intros; by rewrite H2).
  destruct l as [p|p|i now|i now ok|k pr|ok pr|ok| |]; try done; cbn [step] in H.
  - case_bool_decide; [|done]. by injection H as <-.
  - unfold monitor_exit in H. destruct (monitors s !! p); [|done]. case_bool_decide; [done|].
    injection H as <-. cbn [state upd_proc]. by rewrite bool_decide_eq_true_2.
  - unfold handleCrash_enter in H. by rewrite Hn in H.
  - unfold handleCrash_step in H. by rewrite Hn in H.
  - unfold healthLoop_tick in H. destruct (loops s !! k) as [[]|]; [|done]. by rewrite H4 in H.
  - unfold Start_step in H. by rewrite H3 in H.
  - unfold Stop_step, cancel_health, stopProcess in H. destruct (stopping s); injection H as <-.
    + destruct (cancelHealth s) as [k|]; [|done]. split; [|done]. split_and!; try done. intros j. specialize (H4 j).
      unfold done in *. cbn [loops upd_loops upd_lifecycle ctx_done] in *.
      apply orb_true_iff in H4 as [->|H4]; [done|]. apply orb_true_intro. right.
      destruct (decide (j = k)) as [->|].
      * rewrite list_lookup_alter_eq. by destruct (loops s !! k).
      * by rewrite list_lookup_alter_ne.
    + by destruct (cmd s).
    + done.
  - injection H as <-. split; [|done]. split_and!; try done.
Qed.

Lemma cancelled_step l s s' :
  ctx_done s = true -> step l s = Some s' -> ctx_done s' = true /\ next_pid s' = next_pid s.
Proof.
  intros Hd H.
  assert (forall c ok, startProcess c ok s = None) as Hs.
  { intros. unfold startProcess, done. rewrite Hd, andb_comm. done. }
  assert (ctx_done (stopProcess s) = true /\ next_pid (stopProcess s) = next_pid s) as [P1 P2].
  { unfold stopProcess. by destruct (cmd s). }
  destruct l as [p|p|i now|i now ok|k pr|ok pr|ok| |]; cbn [step] in H.
  - case_bool_decide; [|done]. by injection H as <-.
  - unfold monitor_exit in H. destruct (monitors s !! p); [|done]. case_bool_decide; [done|].
    injection H as <-. by case_bool_decide.
  - unfold handleCrash_enter in H. destruct (calls s !! i) as [[h k []]|]; try done.
    destruct (managed s); [|by injection H as <-]. destruct (restarting s); [by injection H as <-|].
    cbn zeta in H. destruct (5 <? _); by injection H as <-.
  - unfold handleCrash_step in H. destruct (calls s !! i) as [[h k [|t w|w|w| |]]|]; try done.
    + destruct (_ && _); [by injection H as <-|]. destruct (now <? t); [done|]. by injection H as <-.
    + by injection H as <-.
    + rewrite Hs in H. by injection H as <-.
    + destruct ok; by injection H as <-.
    + by injection H as <-.
  - unfold healthLoop_tick in H. destruct (loops s !! k) as [[]|]; [|done].
    unfold done in H. by rewrite Hd in H.
  - unfold Start_begin in H. destruct (starting s); try done. destruct (_ || _); [by injection H as <-|].
    cbn [managed upd_state] in H. destruct (managed s), ok; by injection H as <-.
  - unfold Start_step in H. rewrite Hs in H. destruct (starting s); try done; [by injection H as <-| |by injection H as <-].
    destruct ok; by injection H as <-.
  - unfold Stop_step, cancel_health in H. destruct (stopping s); injection H as <-; try done.
    by destruct (cancelHealth s).
  - by injection H as <-.
Qed.

(** ** Properties *)

(** C11: in every interleaving of starts, stops, exits, health ticks and crash
    handlers, the number of [handleCrash] calls behind the gate is one or none, as
    the flag says; no restart window has more than five restarts, and the windows
    restarts are counted in begin more than sixty seconds apart. *)
Theorem restart_limit m tr s :
  run tr (NewSupervisor m) = Some s ->
  behind s = (if restarting s then 1%nat else 0%nat) /\
  (forall w, (length (filter (fun x => x = w) (starts s)) <= 5)%nat) /\
  (forall w w', w ∈ starts s -> w' ∈ starts s -> w < w' -> 60000000000 < w' - w).
Proof.
  intros H. pose proof (inv_run tr _ _ (inv_new m) H) as [Hg Hl _ _ Ha].
  assert (forall w, w ∈ starts s -> 0 < in_window s w) as Hin.
  { intros w Hw. unfold in_window.
    assert (w ∈ filter (fun x => x = w) (starts s)) as Hf by by apply list_elem_of_filter.
    destruct (filter (fun x => x = w) (starts s)); [by apply elem_of_nil in Hf|]. cbn. lia. }
  split_and!; [done| |].
  - intros w. specialize (Hl w). unfold in_window in Hl. lia.
  - intros w w' Hw Hw' Hlt. apply (Ha w w'); auto.
Qed.

(** A crash of the first process and the restart: the run the witnesses share. *)
Definition crash_trace : list Label :=
  [StartBegin true true; StartStep true; StartStep true; Exit 0; Monitor 0; Enter 0 0;
   Crash 0 second true; Crash 0 second true; Crash 0 second true; Crash 0 second true].

Lemma restart_limit_witness :
  exists s, run crash_trace (NewSupervisor true) = Some s /\ state s = StateRunning /\ starts s = [0] /\
    (length (filter (fun x => x = 0%Z) (starts s)) <= 5)%nat.
Proof.
  destruct (run crash_trace (NewSupervisor true)) as [s|] eqn:E; [|vm_compute in E; discriminate E].
  exists s. split; [done|]. split; [|split].
  - vm_compute in E. by injection E as <-.
  - vm_compute in E. by injection E as <-.
  - apply (restart_limit true crash_trace s E).
Defined.

(** No process is started any more once the context is cancelled, whatever is
    pending; nor after a stop with no crash handler pending and every health loop
    cancelled, until the next [Start]: there, the state also stays [stopped]. *)
Theorem stays_stopped tr s s' :
  ctx_done s = true \/ (quiet s /\ Forall (fun l => is_start l = false) tr) ->
  run tr s = Some s' ->
  next_pid s' = next_pid s /\ (quiet s -> Forall (fun l => is_start l = false) tr -> state s' = StateStopped).
Proof.
  revert s. induction tr as [|l tr IH]; intros s Hs H; [injection H as <-; split; [done|by intros [? _]]|].
  cbn [run] in H. destruct (step l s) as [s1|] eqn:E; [|done]. cbn [mbind option_bind] in H.
  assert (next_pid s1 = next_pid s /\ (ctx_done s1 = true \/ (quiet s1 /\ Forall (fun l => is_start l = false) tr))) as [E1 H1].
  { destruct Hs as [Hd|[Hq Hf]].
    - destruct (cancelled_step l s s1 Hd E). auto.
    - apply Forall_cons in Hf as [? ?]. destruct (quiet_step l s s1 Hq) as [? ?]; auto. }
  destruct (IH s1 H1 H) as [E2 Hst]. split; [congruence|]. intros Hq Hf. apply Forall_cons in Hf as [Hl Hf].
  destruct (quiet_step l s s1 Hq Hl E) as [Hq1 _]. auto.
Qed.

Lemma stays_stopped_witness :
  next_pid (NewSupervisor true) = 0%nat /\
  exists s', run [StopStep; StopStep; StopStep] (NewSupervisor true) = Some s' /\ next_pid s' = 0%nat.
Proof.
  split; [reflexivity|].
  destruct (run [StopStep; StopStep; StopStep] (NewSupervisor true)) as [s'|] eqn:E; [|vm_compute in E; discriminate E].
  exists s'. split; [reflexivity|].
  apply (stays_stopped [StopStep; StopStep; StopStep] (NewSupervisor true) s'); [|exact E].
  right. split; [|repeat constructor]. split_and!; reflexivity.
Defined.

(** A stop during which the goroutine of the process, still seeing [running],
    calls [handleCrash]; and what that call does afterwards. *)
Definition stop_trace : list Label :=
  [StartBegin true true; StartStep true; StartStep true; StopStep; Exit 0; Monitor 0; StopStep; StopStep].
Definition late_restart : list Label :=
  [Enter 0 0; Crash 0 second true; Crash 0 second true; Crash 0 second true; Crash 0 second true].

(** A [Start] whose process never answers: it is stopped, and its exit seen before
    the state is [failed]. *)
Definition abort_trace : list Label :=
  [StartBegin true true; StartStep true; StartStep false; Monitor 0; StartStep true].

(** A stop is not final.  There is a run in which [Stop] has returned, the
    state is [stopped] and no process is alive, and which continues, without a
    [Start], to the state [running] with a new live process; likewise after a
    [Start] that failed. *)
Theorem stop_race :
  (exists s1 s2, run stop_trace (NewSupervisor true) = Some s1 /\
     state s1 = StateStopped /\ stopping s1 = StopIdle /\ starting s1 = StartIdle /\ alive s1 = ∅ /\
     run late_restart s1 = Some s2 /\ state s2 = StateRunning /\ alive s2 = {[1%nat]}) /\
  (exists s1 s2, run abort_trace (NewSupervisor true) = Some s1 /\
     state s1 = StateFailed /\ starting s1 = StartIdle /\ alive s1 = ∅ /\
     run late_restart s1 = Some s2 /\ state s2 = StateRunning /\ alive s2 = {[1%nat]}).
Proof.
  split; do 2 eexists; split_and!; try (vm_compute; reflexivity); set_solver.
Qed.
