(* ===== verification/DnsServer.v ===== *)
(** * The DNS servers (pkg/dns/server_impl.go)

    [wrappedHandler.serveDNS], which puts the client allowlist and the query
    metrics around the handler of Handler.v, with one instance per listener; and
    the life of the listeners: [Start], their goroutines, and [Shutdown].  The
    sockets, TLS and the PROXY protocol belong to libraries: whether a listener
    can be opened is part of the step, and a writer gives the addresses the
    handler sees. *)

From Stdlib Require Import Ascii.
From S2P Require Import Prelude GoStrings GoNet DnsMsg Pattern BlocklistManager CacheCore Cache KillSwitch Policy Forwarder.
From S2P Require Import Response Handler HandlerProps ClientAcl.
From stdpp Require Import options.
Local Open Scope Z_scope.

Definition RcodeRefused := 5.

(** ** One query *)

(** What the wrapper records. *)
Inductive ServerEvent :=
| ActiveClients (n : Z)
| DNSQueriesTotal (attrs : list (gostring * gostring))
| DNSQueriesByType (attrs : list (gostring * gostring))
| DNSQueryDuration (ms : Z) (attrs : list (gostring * gostring)).

Record wrappedHandler := MkWrapped {
  wh_metrics : bool;
  clientACL : option ClientACL;
  transport : gostring }.

Definition transportLabel (wh : wrappedHandler) : gostring :=
  if nonempty (transport wh) then transport wh else str "unknown".

(** The allowlist, where the listener has one. *)
Definition refused (wh : wrappedHandler) (w : Writer) : bool :=
  match clientACL wh with Some acl => negb (IsAllowed (getClientIP w) acl) | None => false end.

Section serve.
Context {DL : DnsLib} {RX : RegexpLib} {EL : ExprLib}.
Context {W : Type} {WW : World W}.
Context {C : Type} {CI : CacheImpl C}.
Context {K : Type} {KS : KillSwitchChecker K}.
Context (ord : MapOrder) (wall : Z -> WallClock) (groups : GroupCache).

Notation St := (H W C K).

Definition queryTypeName (r : Msg) : gostring :=
  match Msg_Question r with q :: _ => dnsTypeLabel (q_Qtype q) | [] => str "UNKNOWN" end.

Definition query_events (wh : wrappedHandler) (r : Msg) : list ServerEvent :=
  let attrs := [(str "transport", transportLabel wh)] in
  [DNSQueriesTotal attrs;
   DNSQueriesByType (if nonempty (queryTypeName r) then attrs ++ [(str "type", queryTypeName r)] else attrs)].

(** [time.Duration.Milliseconds]. *)
Definition Milliseconds (d : Z) : Z := Z.quot d 1000000.

(** The new state and the events of the wrapper; [None] is a panic. *)
Definition serveDNS (wh : wrappedHandler) (w : Writer) (r : Msg) (h : St) : option (list ServerEvent * St) :=
  '(startTime, h) ← time_Now h;
  if refused wh w then Some ([], set_written (written h ++ [SetRcode zero_Msg r RcodeRefused]) h)
  else
    '(_, h) ← ServeDNS ord wall groups w r h;
    '(end_, h) ← time_Now h;
    Some (if wh_metrics wh
          then [ActiveClients 1] ++ query_events wh r ++
               [DNSQueryDuration (Milliseconds (end_ - startTime)) [(str "transport", transportLabel wh)]; ActiveClients (-1)]
          else [], h).

End serve.

(** ** The listeners *)

Inductive Proto := UDP | TCP | DoT | ACMEHTTP.

#[global] Instance Proto_eq_dec : EqDecision Proto.
Proof. solve_decision. Defined.
#[global] Instance Proto_countable : Countable Proto.
Proof.
  refine (inj_countable'
    (fun p => match p with UDP => 0 | TCP => 1 | DoT => 2 | ACMEHTTP => 3 end%nat)
    (fun n => match n with 0 => UDP | 1 => TCP | 2 => DoT | _ => ACMEHTTP end%nat) _).
  by intros [].
Defined.

(** [assigned]: the servers that are not nil; [pending]: the goroutines that have
    not called [ListenAndServe] yet; [serving]: the listeners that are up. *)
Record Server := MkServer {
  UDPEnabled : bool; TCPEnabled : bool; DotEnabled : bool; ProxyProtocol : bool; tlsConfig : bool;
  acl : ClientACL; metrics : bool;
  running : bool; assigned : gset Proto; pending : gset Proto; serving : gset Proto }.

Definition upd (r : bool) (a p s : gset Proto) (srv : Server) : Server :=
  MkServer (UDPEnabled srv) (TCPEnabled srv) (DotEnabled srv) (ProxyProtocol srv) (tlsConfig srv) (acl srv)
    (metrics srv) r a p s.

(** [NewServer], as far as the listeners go: the allowlist, and what the TLS
    preparation gave. *)
Definition NewServer (udp tcp dot proxy tls acme met : bool) (allowed : list gostring) : Server :=
  MkServer udp tcp dot proxy tls (NewClientACL allowed) met false (if acme then {[ACMEHTTP]} else ∅) ∅ ∅.

(** The wrapper of each listener. *)
Definition handler_for (p : Proto) (srv : Server) : option wrappedHandler :=
  match p with
  | UDP => Some (MkWrapped (metrics srv) (Some (acl srv)) (str "udp"))
  | TCP => Some (MkWrapped (metrics srv) (Some (acl srv)) (str "tcp"))
  | DoT => Some (MkWrapped (metrics srv) None (str "dot"))
  | ACMEHTTP => None
  end.

Inductive StartError := AlreadyRunning | ListenFailed (p : Proto).

Definition set_if (b : bool) (p : Proto) (s : gset Proto) : gset Proto := if b then {[p]} ∪ s else s.

(** [Start] up to the wait: with the PROXY protocol the listeners are opened
    here, [open] says whether that works; otherwise by the goroutines. *)
Definition Start_begin (open : Proto -> bool) (srv : Server) : result StartError unit * Server :=
  if running srv then (Err AlreadyRunning, srv)
  else
    let a := set_if (UDPEnabled srv) UDP (assigned srv) in
    if TCPEnabled srv && ProxyProtocol srv && negb (open TCP)
    then (Err (ListenFailed TCP), upd true a (pending srv) (serving srv) srv)
    else
      let a := set_if (TCPEnabled srv) TCP a in
      let dot := DotEnabled srv && tlsConfig srv in
      if dot && ProxyProtocol srv && negb (open DoT)
      then (Err (ListenFailed DoT), upd true a (pending srv) (serving srv) srv)
      else
        let a := set_if dot DoT a in
        let spawned := set_if (UDPEnabled srv) UDP (set_if (TCPEnabled srv) TCP
                         (filter (fun p => p = DoT \/ p = ACMEHTTP) a)) in
        (Ok (), upd true a (spawned ∪ pending srv) (serving srv) srv).

(** A goroutine opens its listener and serves, or reports an error, which ends
    [Start]. *)
Definition goroutine (p : Proto) (ok : bool) (srv : Server) : option Server :=
  if bool_decide (p ∈ pending srv)
  then Some (upd (running srv) (assigned srv) (pending srv ∖ {[p]}) (if ok then {[p]} ∪ serving srv else serving srv) srv)
  else None.

(** A listener that fails while serving. *)
Definition listener_dies (p : Proto) (srv : Server) : Server :=
  upd (running srv) (assigned srv) (pending srv) (serving srv ∖ {[p]}) srv.

(** [Shutdown]: every assigned server is stopped; one that does not serve gives
    an error ("server not started"), except the HTTP server. *)
Definition Shutdown (srv : Server) : list Proto * Server :=
  if running srv then
    (filter (fun p => p ∈ assigned srv /\ p ∉ serving srv) [UDP; TCP; DoT],
     upd false (assigned srv) (pending srv) (serving srv ∖ assigned srv) srv)
  else ([], srv).

Definition UpdateClientACL (entries : list gostring) (srv : Server) : Server :=
  MkServer (UDPEnabled srv) (TCPEnabled srv) (DotEnabled srv) (ProxyProtocol srv) (tlsConfig srv)
    (Update entries (acl srv)) (metrics srv) (running srv) (assigned srv) (pending srv) (serving srv).

Definition IsRunning (srv : Server) : bool := running srv.

(** Any interleaving. *)
Inductive Event :=
| EStart (open : Proto -> bool)
| EListen (p : Proto) (ok : bool)
| EDies (p : Proto)
| EShutdown
| EUpdate (entries : list gostring).

Definition exec (e : Event) (srv : Server) : Server :=
  match e with
  | EStart open => (Start_begin open srv).2
  | EListen p ok => default srv (goroutine p ok srv)
  | EDies p => listener_dies p srv
  | EShutdown => (Shutdown srv).2
  | EUpdate es => UpdateClientACL es srv
  end.

(** ** Every query gets one answer *)

(** The allowlist is asked on the plain listeners only. *)
Definition is_plain (p : Proto) : bool := match p with UDP | TCP => true | _ => false end.

Definition proto_label (p : Proto) : gostring :=
  match p with UDP => str "udp" | TCP => str "tcp" | DoT => str "dot" | ACMEHTTP => [] end.

(** The change of the gauge of active clients. *)
Definition active_change (ev : list ServerEvent) : Z :=
  foldr (fun e n => match e with ActiveClients d => d + n | _ => n end) 0 ev.
Definition is_total (e : ServerEvent) : bool := match e with DNSQueriesTotal _ => true | _ => false end.

Section answered.
Context {DL : DnsLib} {RX : RegexpLib} {EL : ExprLib}.
Context {W : Type} {WW : World W}.
Context {C : Type} {CI : CacheImpl C}.
Context {K : Type} {KS : KillSwitchChecker K}.
Context (ord : MapOrder) (wall : Z -> WallClock) (groups : GroupCache).
Context {DLok : DnsLibOk DL} {CIok : CacheImplOk C}.

Notation St := (H W C K).

Lemma time_Now_eq (h : St) : exists t w, time_Now h = Some (t, set_world w h).
Proof. unfold time_Now. destruct (w_now (h_world h)) as [t w]. by exists t, w. Qed.

(** C19: A query on any listener gets exactly one response, without a panic.  A
    client outside the allowlist in force is answered REFUSED on the plain
    listeners, and nothing else happens: no upstream traffic, no log entry, no
    change of a dependency, no metric.  Every other query, and every query over
    TLS, is answered by the first stage of the handler that applies; the gauge of
    active clients is back where it was, and with metrics the query is counted
    once, under the transport of its listener. *)
Theorem query_answered_once (srv : Server) (p : Proto) (wh : wrappedHandler) (w : Writer) (r : Msg) (h : St)
    (Hp : handler_for p srv = Some wh) (Hb : buffer_ok (deps h)) (Hc : cache_ok (deps h)) :
  exists ev h', serveDNS ord wall groups wh w r h = Some (ev, h') /\
    if is_plain p && negb (IsAllowed (getClientIP w) (acl srv)) then
      written h' = written h ++ [SetRcode zero_Msg r RcodeRefused] /\ h_sent h' = h_sent h /\
      h_logs h' = h_logs h /\ deps h' = deps h /\ ev = []
    else
      (exists tB tP tE m, (reading tB /\ reading tP /\ reading tE) /\ written h' = written h ++ [fit w m] /\
         served ord r (stage wall groups (deps h) (Blocklist_ h) r (getClientIP w) tB tP tE) h h' m) /\
      active_change ev = 0 /\
      List.filter is_total ev =
        if metrics srv then [DNSQueriesTotal [(str "transport", proto_label p)]] else [].
Proof using DLok.
  unfold serveDNS. destruct (time_Now_eq h) as (t0 & w0 & ->). cbn [mbind option_bind].
  assert (refused wh w = is_plain p && negb (IsAllowed (getClientIP w) (acl srv))) as ->.
  { destruct p; cbn in Hp; by simplify_eq. }
  destruct (is_plain p && _).
  { eexists _, _. split; [reflexivity|]. by split_and!. }
  pose proof (wp_ServeDNS ord wall groups w r (set_world w0 h) Hb Hc) as Hwp. unfold wp in Hwp.
  destruct (ServeDNS ord wall groups w r (set_world w0 h)) as [[[] h1]|]; [|done].
  destruct Hwp as (tB & tP & tE & m & Ht & Hw & Hs & _). cbn [mbind option_bind].
  destruct (time_Now_eq h1) as (t1 & w1 & ->).
  eexists _, _. split; [done|]. split; [|by destruct p; cbn in Hp; simplify_eq; cbn; destruct (metrics srv)].
  exists tB, tP, tE, m. split; [done|]. split; [done|]. exact Hs.
Qed.

End answered.

(** ** The life of the listeners *)

Lemma elem_of_set_if b p s x : x ∈ set_if b p s <-> (b = true /\ x = p) \/ x ∈ s.
Proof. unfold set_if. destruct b; set_solver. Qed.

Lemma exec_assigned e srv :
  serving srv ∪ pending srv ⊆ assigned srv -> serving (exec e srv) ∪ pending (exec e srv) ⊆ assigned (exec e srv).
Proof.
  intros H. destruct e as [open|p ok|p| |es]; cbn [exec].
  - unfold Start_begin. destruct (running srv); [done|]. destruct (_ && _ && _).
    { cbn. intros x Hx. apply elem_of_set_if. right. by apply H. }
    destruct (_ && _ && _); cbn.
    { intros x Hx. rewrite !elem_of_set_if. do 2 right. by apply H. }
    intros x Hx. rewrite !elem_of_set_if. apply elem_of_union in Hx as [Hx|Hx].
    { do 3 right. apply H. set_solver. }
    apply elem_of_union in Hx as [Hx|Hx]; [|do 3 right; apply H; set_solver].
    rewrite !elem_of_set_if in Hx. destruct Hx as [?|[?|Hx]]; [tauto..|].
    apply elem_of_filter in Hx as [_ Hx]. by rewrite !elem_of_set_if in Hx.
  - unfold goroutine. case_bool_decide; cbn; [destruct ok|]; set_solver.
  - cbn. set_solver.
  - unfold Shutdown. destruct (running srv); cbn; set_solver.
  - done.
Qed.

Lemma run_assigned es : forall srv,
  serving srv ∪ pending srv ⊆ assigned srv ->
  serving (foldl (flip exec) srv es) ∪ pending (foldl (flip exec) srv es) ⊆ assigned (foldl (flip exec) srv es).
Proof. induction es as [|e es IH]; intros srv H; [exact H|]. cbn [foldl]. by apply IH, exec_assigned. Qed.

Definition is_start (e : Event) : bool := match e with EStart _ => true | _ => false end.

Lemma exec_idle e srv :
  is_start e = false -> serving srv = ∅ -> pending srv = ∅ ->
  serving (exec e srv) = ∅ /\ pending (exec e srv) = ∅.
Proof.
  intros He Hs Hp. destruct e as [open|p ok|p| |es]; try done; cbn [exec].
  - unfold goroutine. rewrite bool_decide_eq_false_2; [done|]. rewrite Hp. set_solver.
  - cbn. rewrite Hs. split; [set_solver|done].
  - unfold Shutdown. destruct (running srv); cbn; [rewrite Hs; split; [set_solver|done]|done].
Qed.

(** In every interleaving of starts, listener goroutines, listener failures,
    shutdowns and allowlist updates: a start while running is refused and changes
    nothing, and any other start, failed or not, leaves the server marked running,
    so that after a failure a shutdown must come before the next start.  A
    shutdown of a running server leaves no listener up; if every goroutine had
    reached its listener by then, none comes up again until the next start. *)
Theorem server_lifecycle udp tcp dot proxy tls acme met allowed (es : list Event) :
  let srv := foldl (flip exec) (NewServer udp tcp dot proxy tls acme met allowed) es in
  (forall open, running (Start_begin open srv).2 = true /\
     (running srv = true -> Start_begin open srv = (Err AlreadyRunning, srv))) /\
  (running srv = true -> serving (Shutdown srv).2 = ∅ /\ IsRunning (Shutdown srv).2 = false) /\
  (running srv = true -> pending srv = ∅ -> forall es', Forall (fun e => is_start e = false) es' ->
     serving (foldl (flip exec) (Shutdown srv).2 es') = ∅).
Proof.
  intros srv.
  assert (serving srv ∪ pending srv ⊆ assigned srv) as Hinv.
  { apply run_assigned. cbn. set_solver. }
  clearbody srv.
  assert (running srv = true -> serving (Shutdown srv).2 = ∅ /\ running (Shutdown srv).2 = false) as Hsd.
  { intros Hr. unfold Shutdown. rewrite Hr. cbn. split; [|done]. set_solver. }
  split_and!; [|done|].
  - intros open. unfold Start_begin. destruct (running srv) eqn:E; [done|]. split; [|done].
    destruct (_ && _ && _); [done|]. by destruct (_ && _ && _).
  - intros Hr Hp. destruct (Hsd Hr) as [Hs _].
    assert (pending (Shutdown srv).2 = ∅) as Hp' by (unfold Shutdown; by rewrite Hr).
    revert Hs Hp'. generalize (Shutdown srv).2. intros s0 Hs Hp' es'. revert s0 Hs Hp'.
    induction es' as [|e es' IH]; intros s0 Hs Hp' He; [done|]. apply Forall_cons in He as [He1 He].
    cbn [foldl]. destruct (exec_idle e s0 He1 Hs Hp'). by apply IH.
Qed.

(** A goroutine that reaches its listener after a shutdown brings it up: the
    server is not running, the listener serves, and a further shutdown does
    nothing about it. *)
Theorem late_listener :
  let started := (Start_begin (fun _ => true) (NewServer true false false false false false false [])).2 in
  let late := default started (goroutine UDP true (Shutdown started).2) in
  running started = true /\ (Shutdown started).1 = [UDP] /\
  running late = false /\ serving late = {[UDP]} /\ Shutdown late = ([], late).
Proof. vm_compute. split_and!; try reflexivity. Qed.

(** The sample handler behind the plain listener of a server open to one
    network. *)
Lemma query_answered_once_witness :
  exists ev h', @serveDNS simple_dns no_regexp no_expr unit frozen_world Cache (@Cache_impl simple_dns) KillSwitchManager _
      default_order midnight None (MkWrapped true (Some (NewClientACL [str "10.0.0.0/8"])) (str "udp"))
      sample_writer sample_query sample_handler = Some (ev, h') /\
    Rcode <$> written h' = [RcodeRefused] /\ h_logs h' = [].
Proof.
  destruct (@query_answered_once simple_dns no_regexp no_expr unit frozen_world Cache (@Cache_impl simple_dns)
    KillSwitchManager _ default_order midnight None simple_dns_ok (@Cache_impl_ok simple_dns 10)
    (NewServer true true false false false false true [str "10.0.0.0/8"]) UDP
    (MkWrapped true (Some (NewClientACL [str "10.0.0.0/8"])) (str "udp"))
    sample_writer sample_query sample_handler eq_refl ltac:(done) sample_cache_ok) as (ev & h' & E & H).
  exists ev, h'. split; [exact E|].
  change (is_plain UDP && negb (IsAllowed (getClientIP sample_writer) (acl (NewServer true true false false false false true [str "10.0.0.0/8"])))) with true in H.
  destruct H as (Hw & _ & Hl & _). rewrite Hw, Hl. by vm_compute.
Defined.
