(* ===== verification/Doh.v ===== *)
(** * DNS over HTTPS (pkg/api/handler_doh.go)

    [handleDNSQuery] as the code composes it: the query is read from the URL or
    the body, the DNS handler of Handler.v answers a writer that captures its
    message, and the message goes out as JSON or in wire format.  Wire format and
    text forms of records are the DNS library's ([DnsWire], a parameter); the
    body's JSON text is that of [encoding/json], so a JSON answer is the value
    that is encoded. *)

From Stdlib Require Import Ascii.
From S2P Require Import Prelude GoStrings GoStrconv GoBase64 GoNet DnsMsg Pattern BlocklistManager CacheCore Cache KillSwitch.
From S2P Require Import Policy Forwarder Config Session RateLimit Auth Response Handler HandlerProps ClientAcl DnsServer.
From stdpp Require Import options.
Local Open Scope Z_scope.

(** ** Addresses as text *)

(** Lower-case hexadecimal without leading zeros. *)
Definition hex_lower (z : Z) : ascii := chr (if z <? 10 then 48 + z else 87 + z).
Fixpoint skip_zeros (ds : list Z) : list Z :=
  match ds with 0 :: ((_ :: _) as ds') => skip_zeros ds' | _ => ds end.
Definition hex_text (g : Z) : gostring :=
  map hex_lower (skip_zeros [g / 4096; g / 256 mod 16; g / 16 mod 16; g mod 16]).

Fixpoint groups16 (b : list Z) : list Z :=
  match b with x :: y :: b' => x * 256 + y :: groups16 b' | _ => [] end.

Fixpoint zero_prefix (gs : list Z) : nat :=
  match gs with 0 :: gs' => S (zero_prefix gs') | _ => 0 end.

(** The first longest run of at least two zero groups: its start and length. *)
Definition zero_run (gs : list Z) : nat * nat :=
  foldl (fun best i => let l := zero_prefix (drop i gs) in
           if (2 <=? l)%nat && (best.2 <? l)%nat then (i, l) else best) (0, 0)%nat (seq 0 8).

Definition v6_text (b : list Z) : gostring :=
  let gs := groups16 b in
  let '(start, len) := zero_run gs in
  let text l := Join (map hex_text l) (str ":") in
  if (len =? 0)%nat then text gs
  else text (take start gs) ++ str "::" ++ text (drop (start + len) gs).

(** [net.IP.String] of four or sixteen bytes. *)
Definition IP_String (ip : IP) : gostring :=
  match To4 ip with
  | Some b => Join (map Itoa b) (str ".")
  | None => if bool_decide (ip = []) then str "<nil>" else v6_text ip
  end.

(** [net.TCPAddr.String] with port 0; no address is no text. *)
Definition TCPAddr_String (ip : option IP) : gostring :=
  JoinHostPort (match ip with Some a => if bool_decide (a = []) then [] else IP_String a | None => [] end) (str "0").

Example IP_String_v6 : (IP_String <$> ParseIP (str "2001:DB8:0:0:1:0:0:1")) = Some (str "2001:db8::1:0:0:1").
Proof. vm_compute. reflexivity. Qed.
Example IP_String_v4 : (IP_String <$> ParseIP (str "::ffff:192.0.2.9")) = Some (str "192.0.2.9").
Proof. vm_compute. reflexivity. Qed.
Example TCPAddr_v6 : TCPAddr_String (ParseIP (str "fe80::1")) = str "[fe80::1]:0".
Proof. vm_compute. reflexivity. Qed.

(** ** The library *)

Class DnsWire := {
  (** [Msg.Unpack] and [Msg.Pack] *)
  Unpack : gostring -> option Msg;
  Pack : Msg -> option gostring;
  (** [Msg.SetQuestion], which also draws an id *)
  SetQuestion : Z -> gostring -> Z -> Msg;
  (** [Msg.SetEdns0] *)
  SetEdns0 : Msg -> Z -> bool -> Msg;
  (** [dns.StringToType] *)
  StringToType : gostring -> option Z;
  (** [RR.String] and [RR_Header.String] *)
  RR_String : RR -> gostring;
  Hdr_String : RR_Header -> gostring
}.

(** The documented behaviour the theorems rely on. *)
Class DnsWireOk (DW : DnsWire) : Prop := {
  SetQuestion_Question id n t : Msg_Question (SetQuestion id n t) = [MkQuestion n t ClassINET];
  SetEdns0_Question m n d : Msg_Question (SetEdns0 m n d) = Msg_Question m
}.

(** ** Data *)

(** The captured answer, and where the client is. *)
Definition dohWriter (clientIP : gostring) : Writer :=
  MkWriter (Some (str "tcp"))
    (Some (TCPAddr_String (if nonempty clientIP then ParseIP clientIP else ParseIP (str "127.0.0.1")))).

Record DNSQuestion := MkDNSQuestion { dq_Name : gostring; dq_Type : Z }.
Record DNSAnswer := MkDNSAnswer { da_Name : gostring; da_Type : Z; da_TTL : Z; da_Data : gostring }.
Record DNSJSONResponse := MkDNSJSONResponse {
  j_Status : Z; j_TC : bool; j_RD : bool; j_RA : bool; j_AD : bool; j_CD : bool;
  j_Question : list DNSQuestion; j_Answer : list DNSAnswer; j_Authority : list DNSAnswer;
  j_Additional : list DNSAnswer }.

(** The HTTP answers. *)
Inductive DohReply :=
| DohHead                                       (** 200 without a body *)
| DohMethodNotAllowed
| DohError (code : Z)
| DohJSON (body : DNSJSONResponse) (max_age : Z)
| DohWire (body : gostring) (max_age : Z).

(** The errors of the parsers. *)
Inductive DohParseError :=
| ParamTooLarge | InvalidParam | InvalidMessage | MissingName
| UnsupportedContentType | ReadFailed | EmptyBody | QueryTooLarge.

Section doh.
Context {DL : DnsLib} {DW : DnsWire} {RX : RegexpLib} {EL : ExprLib}.
Context {W : Type} {WW : World W}.
Context {C : Type} {CI : CacheImpl C}.
Context {K : Type} {KS : KillSwitchChecker K}.
Context (ord : MapOrder) (wall : Z -> WallClock) (groups : GroupCache).

Notation St := (H W C K).

(** ** Reading the query *)

Definition Query (r : Request) (name : gostring) : gostring := get_first name (query r).
Definition is_on (v : gostring) : bool := bytes_eqb v (str "1") || bytes_eqb v (str "true").

(** The type parameter: a name, or a number of the platform's [int] cut to sixteen
    bits; anything else is A. *)
Definition parse_qtype (typeStr : gostring) : Z :=
  if nonempty typeStr then
    match StringToType (ToUpper typeStr) with
    | Some qt => qt
    | None => match Atoi typeStr with Ok n => n mod 2 ^ 16 | Err _ => TypeA end
    end
  else TypeA.

Definition set_RD (b : bool) (m : Msg) : Msg :=
  MkMsg (Id m) (DnsMsg.Response m) (Opcode m) (Authoritative m) (Truncated m) b
    (RecursionAvailable m) (AuthenticatedData m) (CheckingDisabled m) (Rcode m)
    (Msg_Question m) (Answer m) (Msg_Ns m) (Extra m).
Definition set_CD (b : bool) (m : Msg) : Msg :=
  MkMsg (Id m) (DnsMsg.Response m) (Opcode m) (Authoritative m) (Truncated m) (RecursionDesired m)
    (RecursionAvailable m) (AuthenticatedData m) b (Rcode m)
    (Msg_Question m) (Answer m) (Msg_Ns m) (Extra m).

(** [id]: the random id of the new message. *)
Definition parseDNSQueryGET (id : Z) (r : Request) : result DohParseError Msg :=
  let dnsParam := Query r (str "dns") in
  if nonempty dnsParam then
    if 4096 <? Z.of_nat (length dnsParam) then Err ParamTooLarge
    else match Decode dnsParam with
         | None => Err InvalidParam
         | Some decoded => match Unpack (bytes_string decoded) with None => Err InvalidMessage | Some m => Ok m end
         end
  else
    let name := Query r (str "name") in
    if nonempty name then
      let msg := set_RD true (SetQuestion id (Fqdn name) (parse_qtype (Query r (str "type")))) in
      let msg := if is_on (Query r (str "cd")) then set_CD true msg else msg in
      let msg := if is_on (Query r (str "do")) then SetEdns0 msg 4096 true else msg in
      Ok msg
    else Err MissingName.

(** [body]: what reading the body gives. *)
Definition parseDNSQueryPOST (body : option gostring) (r : Request) : result DohParseError Msg :=
  if negb (Contains (Auth.Get r (str "Content-Type")) (str "application/dns-message")) then Err UnsupportedContentType
  else match body with
       | None => Err ReadFailed
       | Some b =>
           let b := take (Z.to_nat 65536) b in
           if bool_decide (b = []) then Err EmptyBody
           else if 4096 <? Z.of_nat (length b) then Err QueryTooLarge
           else match Unpack b with None => Err InvalidMessage | Some m => Ok m end
       end.

(** ** Writing the answer *)

Definition extractRRData (rr : RR) : gostring :=
  let trim s := TrimSuffix s (str ".") in
  let sp := str " " in
  match rr with
  | RR_A _ a | RR_AAAA _ a => IP_String a
  | RR_CNAME _ t => trim t
  | RR_MX _ p mx => Itoa p ++ sp ++ trim mx
  | RR_NS _ n => trim n
  | RR_PTR _ p => trim p
  | RR_SOA _ ns mbox serial refresh retry expire minttl =>
      trim ns ++ sp ++ trim mbox ++ sp ++ Itoa serial ++ sp ++ Itoa refresh ++ sp ++ Itoa retry ++ sp ++
      Itoa expire ++ sp ++ Itoa minttl
  | RR_SRV _ p w port t => Itoa p ++ sp ++ Itoa w ++ sp ++ Itoa port ++ sp ++ trim t
  | RR_TXT _ txt => Join txt sp
  | RR_CAA _ flag tag value => Itoa flag ++ sp ++ tag ++ sp ++ [chr 34] ++ value ++ [chr 34]
  | _ => TrimPrefix (RR_String rr) (Hdr_String (RR_hdr rr))
  end.

Definition rrToJSON (rr : RR) : DNSAnswer :=
  let h := RR_hdr rr in
  MkDNSAnswer (TrimSuffix (Hdr_Name h) (str ".")) (Hdr_Rrtype h) (Hdr_Ttl h) (extractRRData rr).

Definition calculateTTL (msg : Msg) : Z :=
  match Answer msg with
  | [] => 60
  | rrs =>
      let minTTL := foldl (fun t rr => if Hdr_Ttl (RR_hdr rr) <? t then Hdr_Ttl (RR_hdr rr) else t) 86400 rrs in
      if minTTL =? 0 then 1 else minTTL
  end.

Definition to_JSON (msg : Msg) : DNSJSONResponse :=
  MkDNSJSONResponse (Rcode msg) (Truncated msg) (RecursionDesired msg) (RecursionAvailable msg)
    (AuthenticatedData msg) (CheckingDisabled msg)
    (map (fun q => MkDNSQuestion (TrimSuffix (q_Name q) (str ".")) (q_Qtype q)) (Msg_Question msg))
    (map rrToJSON (Answer msg)) (map rrToJSON (Msg_Ns msg))
    (map rrToJSON (List.filter (fun rr => negb (Hdr_Rrtype (RR_hdr rr) =? TypeOPT)) (Extra msg))).

Definition writeDNSJSON (msg : Msg) : DohReply := DohJSON (to_JSON msg) (calculateTTL msg).

Definition writeDNSWireFormat (msg : Msg) : DohReply :=
  match Pack msg with None => DohError 500 | Some b => DohWire b (calculateTTL msg) end.

(** The format: wire for an Accept header that asks for it or a POST in it, unless
    JSON is asked for. *)
Definition use_JSON (r : Request) : bool :=
  let accept := Auth.Get r (str "Accept") in
  let base :=
    if Contains accept (str "application/dns-message") then false
    else if Contains (Auth.Get r (str "Content-Type")) (str "application/dns-message") && is_method r POST then false
    else true in
  if Contains accept (str "application/dns-json") then true else base.

Definition write_answer (r : Request) (msg : Msg) : DohReply :=
  if use_JSON r then writeDNSJSON msg else writeDNSWireFormat msg.

(** ** The handler *)

Definition doh_wrapper (met : bool) : wrappedHandler := MkWrapped met None (str "doh").

(** The answer of the DNS handler: the last message given to the writer. *)
Definition ask (clientIP : gostring) (m : Msg) (h : St) : option (list ServerEvent * option Msg * St) :=
  let met := d_metrics (deps h) in
  '(ev, h') ← serveDNS ord wall groups (doh_wrapper met) (dohWriter clientIP) m h;
  Some (ev, last (drop (length (written h)) (written h')), h').

(** [dnsHandler]: whether the server was given one. *)
Definition handleDNSQuery (s : Auth.Server) (dnsHandler : bool) (id : Z) (body : option gostring) (r : Request) (h : St)
    : option (DohReply * list ServerEvent * St) :=
  let error code := Some (DohError code, [], h) in
  if is_method r (str "HEAD") then Some (DohHead, [], h)
  else
    let proceed (parsed : result DohParseError Msg) :=
      match parsed with
      | Err _ => error 400
      | Ok m =>
          if bool_decide (Msg_Question m = []) then error 400
          else if is_method r GET && (512 <? Z.of_nat (length (default [] (Pack m)))) then error 413
          else if dnsHandler then
            '(ev, captured, h') ← ask (Auth.getClientIP s r) m h;
            Some (match captured with Some msg => write_answer r msg | None => DohError 504 end, ev, h')
          else Some (write_answer r (SetRcode (SetReply zero_Msg m) m RcodeServerFailure), [], h)
      end in
    if is_method r GET then proceed (parseDNSQueryGET id r)
    else if is_method r POST then proceed (parseDNSQueryPOST body r)
    else Some (DohMethodNotAllowed, [], h).

End doh.

(** ** Properties *)

(** The query a request carries, or the status that refuses it. *)
Definition doh_query {DL : DnsLib} {DW : DnsWire} (id : Z) (body : option gostring) (r : Request) (m : Msg) : Prop :=
  (Method r = GET /\ parseDNSQueryGET id r = Ok m /\ Z.of_nat (length (default [] (Pack m))) <= 512) \/
  (Method r = POST /\ parseDNSQueryPOST body r = Ok m).

Section props.
Context {DL : DnsLib} {DW : DnsWire} {RX : RegexpLib} {EL : ExprLib}.
Context {W : Type} {WW : World W}.
Context {C : Type} {CI : CacheImpl C}.
Context {K : Type} {KS : KillSwitchChecker K}.
Context (ord : MapOrder) (wall : Z -> WallClock) (groups : GroupCache).
Context {DLok : DnsLibOk DL} {CIok : CacheImplOk C}.

Notation St := (H W C K).

Lemma is_method_spec r m : is_method r m = true <-> Method r = m.
Proof. unfold is_method, bytes_eqb. by rewrite bool_decide_eq_true. Qed.

(** The writer of a DoH request never truncates. *)
Lemma doh_fit client m : fit (dohWriter client) m = m.
Proof. reflexivity. Qed.

Lemma ask_answers client m (h : St) :
  buffer_ok (deps h) -> cache_ok (deps h) ->
  exists ev tB tP tE a h', ask ord wall groups client m h = Some (ev, Some a, h') /\
    (reading tB /\ reading tP /\ reading tE) /\ written h' = written h ++ [a] /\
    served ord m (stage wall groups (deps h) (Blocklist_ h) m (Handler.getClientIP (dohWriter client)) tB tP tE) h h' a.
Proof using DLok.
  intros Hb Hc. unfold ask, serveDNS. destruct (time_Now_eq h) as (t0 & w0 & ->). cbn [mbind option_bind refused doh_wrapper clientACL].
  pose proof (wp_ServeDNS ord wall groups (dohWriter client) m (set_world w0 h) Hb Hc) as Hwp. unfold wp in Hwp.
  destruct (ServeDNS ord wall groups (dohWriter client) m (set_world w0 h)) as [[[] h1]|]; [|done].
  destruct Hwp as (tB & tP & tE & a & Ht & Hw & Hs & _). cbn [mbind option_bind].
  destruct (time_Now_eq h1) as (t1 & w1 & ->). cbn [mbind option_bind].
  rewrite doh_fit in Hw. eexists _, tB, tP, tE, a, (set_world w1 h1). split.
  { cbn [written set_world] in *. rewrite Hw, drop_app_length. reflexivity. }
  split; [exact Ht|]. split; [exact Hw|exact Hs].
Qed.

(** C20: A DoH request that carries a query gets the answer of the DNS handler:
    the message that the first stage that applies gives the client, whole, as JSON
    or in wire format (500 if it cannot be packed), never 504.  Every other
    request changes nothing: 200 for HEAD, 405 for other methods, 400 for a query
    that cannot be read or has no question, 413 for a GET over 512 bytes. *)
Theorem doh_answers (s : Auth.Server) (id : Z) (body : option gostring) (r : Request) (h : St)
    (Hb : buffer_ok (deps h)) (Hc : cache_ok (deps h)) :
  (exists m ev tB tP tE a h', doh_query id body r m /\ Msg_Question m <> [] /\
     handleDNSQuery ord wall groups s true id body r h = Some (write_answer r a, ev, h') /\
     (reading tB /\ reading tP /\ reading tE) /\ written h' = written h ++ [a] /\
     served ord m (stage wall groups (deps h) (Blocklist_ h) m
       (Handler.getClientIP (dohWriter (Auth.getClientIP s r))) tB tP tE) h h' a) \/
  ((forall m, doh_query id body r m -> Msg_Question m = []) /\
   exists reply, handleDNSQuery ord wall groups s true id body r h = Some (reply, [], h) /\
     reply = if is_method r (str "HEAD") then DohHead
             else if is_method r GET then
               (match parseDNSQueryGET id r with
                | Ok m => if bool_decide (Msg_Question m = []) then DohError 400 else DohError 413
                | Err _ => DohError 400 end)
             else if is_method r POST then DohError 400 else DohMethodNotAllowed).
Proof using DLok.
  unfold handleDNSQuery, doh_query. destruct (is_method r (str "HEAD")) eqn:Eh.
  { right. apply is_method_spec in Eh. split; [|by eexists]. intros m [(E & _)|(E & _)]; by rewrite E in Eh. }
  assert (forall m, Msg_Question m <> [] -> doh_query id body r m ->
    exists ev tB tP tE a h', ('(ev, captured, h') ← ask ord wall groups (Auth.getClientIP s r) m h;
      Some (match captured with Some msg => write_answer r msg | None => DohError 504 end, ev, h')) =
      Some (write_answer r a, ev, h') /\ (reading tB /\ reading tP /\ reading tE) /\ written h' = written h ++ [a] /\
      served ord m (stage wall groups (deps h) (Blocklist_ h) m
        (Handler.getClientIP (dohWriter (Auth.getClientIP s r))) tB tP tE) h h' a) as Hask.
  { intros m _ _. destruct (ask_answers (Auth.getClientIP s r) m h Hb Hc) as (ev & tB & tP & tE & a & h' & -> & H).
    by exists ev, tB, tP, tE, a, h'. }
  destruct (is_method r GET) eqn:Eg.
  - apply is_method_spec in Eg. assert (Method r <> POST) as Hnp by (by rewrite Eg).
    destruct (parseDNSQueryGET id r) as [m|e] eqn:Ep; cycle 1.
    { right. split; [|by eexists]. intros m [(_ & ? & _)|(? & _)]; congruence. }
    destruct (bool_decide (Msg_Question m = [])) eqn:Hq.
    { right. split; [|by eexists]. apply bool_decide_eq_true in Hq. intros m' [(_ & [= <-] & _)|(? & _)]; congruence. }
    apply bool_decide_eq_false in Hq.
    cbn [andb]. destruct (Z.ltb_spec 512 (Z.of_nat (length (default [] (Pack m))))) as [Hs|Hs].
    { right. split; [|by eexists]. intros m' [(_ & [= <-] & ?)|(? & _)]; [lia|congruence]. }
    left. destruct (Hask m Hq) as (ev & tB & tP & tE & a & h' & H1 & H2); [by left|].
    exists m, ev, tB, tP, tE, a, h'. split; [by left|]. by split_and!; try apply H2.
  - assert (Method r <> GET) as Hng by (by rewrite <- is_method_spec, Eg).
    destruct (is_method r POST) eqn:Epost.
    2:{ right. split; [|by eexists]. intros m [(? & _)|(E & _)]; [done|]. apply is_method_spec in E. congruence. }
    apply is_method_spec in Epost. destruct (parseDNSQueryPOST body r) as [m|e] eqn:Ep; cycle 1.
    { right. split; [|by eexists]. intros m [(? & _)|(_ & ?)]; congruence. }
    case_bool_decide as Hq.
    { right. split; [|by eexists]. intros m' [(? & _)|(_ & [= <-])]; done. }
    cbn [andb]. left. destruct (Hask m Hq) as (ev & tB & tP & tE & a & h' & H1 & H2); [by right|].
    exists m, ev, tB, tP, tE, a, h'. split; [by right|]. by split_and!; try apply H2.
Qed.

(** The lifetime given to HTTP caches is between one second and a day, and not
    above any TTL of the answer, except that a TTL of zero counts as one second. *)
Theorem doh_max_age (m : Msg) (Hm : Forall (fun rr => 0 <= Hdr_Ttl (RR_hdr rr)) (Answer m)) :
  1 <= calculateTTL m <= 86400 /\
  Forall (fun rr => calculateTTL m <= Z.max 1 (Hdr_Ttl (RR_hdr rr))) (Answer m).
Proof using Type.
  unfold calculateTTL. destruct (Answer m) as [|rr0 rrs0] eqn:E; [split; [lia|constructor]|].
  rewrite <- E in *. clear E.
  set (f := fun t rr => _).
  assert (forall rrs t, 0 <= t -> Forall (fun rr => 0 <= Hdr_Ttl (RR_hdr rr)) rrs ->
    0 <= foldl f t rrs <= t /\ Forall (fun rr => foldl f t rrs <= Hdr_Ttl (RR_hdr rr)) rrs) as Hf.
  { induction rrs as [|rr rrs IH]; intros t Ht H; cbn [foldl]; [split; [lia|constructor]|].
    apply Forall_cons in H as [H1 H2].
    assert (0 <= f t rr <= t /\ f t rr <= Hdr_Ttl (RR_hdr rr)) as [Hr1 Hr2].
    { unfold f. destruct (Z.ltb_spec (Hdr_Ttl (RR_hdr rr)) t); lia. }
    destruct (IH (f t rr) ltac:(lia) H2) as [IH1 IH2]. split; [lia|]. constructor; [lia|done]. }
  destruct (Hf (Answer m) 86400 ltac:(lia) Hm) as [H1 H2].
  destruct (Z.eqb_spec (foldl f 86400 (Answer m)) 0) as [E|E].
  - rewrite E in *. split; [lia|]. eapply Forall_impl; [exact H2|]. cbn. intros; lia.
  - split; [lia|]. eapply Forall_impl; [exact H2|]. cbn. intros; lia.
Qed.

(** A numeric type is taken modulo 65536: a query for type 65537 asks for A
    records. *)
Theorem doh_type_wraps (n : Z) (Hn : - 2 ^ 63 <= n < 2 ^ 63) (Hs : StringToType (ToUpper (Itoa n)) = None) :
  parse_qtype (Itoa n) = n mod 65536.
Proof using Type.
  unfold parse_qtype. rewrite Hs, Atoi_Itoa by done. destruct (nonempty (Itoa n)) eqn:E; [done|].
  exfalso. pose proof (Atoi_Itoa n Hn) as Ha. destruct (Itoa n); [|done]. by vm_compute in Ha.
Qed.

End props.

(** ** A concrete request *)

(** Messages of one shape: enough of a library for the witness. *)
Definition simple_wire : DnsWire := {|
  Unpack b := if bool_decide (b = str "query") then Some sample_query else None;
  Pack m := Some (str "message");
  SetQuestion id n t := MkMsg id false 0 false false true false false false 0 [MkQuestion n t ClassINET] [] [] [];
  SetEdns0 m n d := with_Extra (Extra m ++ [RR_OPT (MkHdr [dot] TypeOPT n 0) (MkOPT n 0 d [])]) m;
  StringToType s := if bool_decide (s = str "A") then Some TypeA else None;
  RR_String _ := [];
  Hdr_String _ := []
|}.

Lemma simple_wire_ok : DnsWireOk simple_wire.
Proof. done. Qed.

Definition get_request : Request :=
  MkRequest GET (str "/dns-query") (str "/dns-query") (str "doh.lan") (str "192.0.2.9:4242") [] None false [] false
    [(str "name", str "h.lan"); (str "type", str "65537")].

Lemma doh_answers_witness :
  exists body age ev h', @handleDNSQuery simple_dns simple_wire no_regexp no_expr unit frozen_world Cache.Cache (@Cache_impl simple_dns)
      KillSwitchManager _ default_order midnight None sample_server true 9 None get_request sample_handler =
      Some (DohJSON body age, ev, h') /\ j_Status body = RcodeNameError /\ age = 60.
Proof.
  destruct (@doh_answers simple_dns simple_wire no_regexp no_expr unit frozen_world Cache.Cache (@Cache_impl simple_dns)
    KillSwitchManager _ default_order midnight None simple_dns_ok (@Cache_impl_ok simple_dns 10)
    sample_server 9 None get_request sample_handler ltac:(done) sample_cache_ok)
    as [(m & ev & tB & tP & tE & a & h' & Hq & _ & E & _ & _ & Hs)|[Hn _]].
  - destruct Hq as [(_ & Ep & _)|[Em _]]; [|by vm_compute in Em].
    assert (m = MkMsg 9 false 0 false false true false false false 0 [MkQuestion (str "h.lan.") TypeA ClassINET] [] [] []) as ->.
    { vm_compute in Ep. injection Ep as <-. by vm_compute. }
    match type of Hs with served _ _ ?st _ _ _ => change st with (@StListed no_expr) in Hs end.
    destruct Hs as (-> & _). eexists _, _, ev, h'. split; [exact E|]. by vm_compute.
  - exfalso. assert (@doh_query simple_dns simple_wire 9 None get_request
      (MkMsg 9 false 0 false false true false false false 0 [MkQuestion (str "h.lan.") TypeA ClassINET] [] [] [])) as Hd.
    { left. split; [reflexivity|]. split; [by vm_compute|by vm_compute]. }
    by apply Hn in Hd.
Defined.
