(* ===== verification/PolicyApi.v ===== *)
(** * Policy rules: the table and its API (pkg/storage/sqlite_policies.go, pkg/api/handlers_policy.go)

    The table [policy_rules] with the statements the storage runs on it (an
    AUTOINCREMENT key, a UNIQUE name, a CHECK on the action), and the handlers that validate a rule,
    write it and rebuild the engine of Policy.v from the table.  A statement may
    fail: [Db] says which of a request's statements do.  A request is given by its
    decoded body ([None]: not JSON); the path carries the id. *)

From Stdlib Require Import Ascii.
From S2P Require Import Prelude GoStrings GoStrconv GoNet Pattern Policy.
From stdpp Require Import sorting options.
Local Open Scope Z_scope.

(** ** The table *)

Record PolicyRule := MkPolicyRule {
  pr_ID : Z; pr_Name : gostring; pr_Logic : gostring; pr_Action : gostring; pr_ActionData : gostring;
  pr_Enabled : bool; pr_SortOrder : Z }.

(** The rows, and the next key of AUTOINCREMENT. *)
Record Table := MkTable { rows : list PolicyRule; next_id : Z }.

(** ORDER BY sort_order ASC, id ASC. *)
Definition row_le (a b : PolicyRule) : Prop :=
  pr_SortOrder a < pr_SortOrder b \/ (pr_SortOrder a = pr_SortOrder b /\ pr_ID a <= pr_ID b).

#[global] Instance row_le_dec : RelDecision row_le.
Proof. intros a b. unfold row_le. apply _. Defined.
#[global] Instance row_le_total : Total row_le.
Proof. intros a b. unfold row_le. lia. Qed.
#[global] Instance row_le_trans : Transitive row_le.
Proof. intros a b c. unfold row_le. lia. Qed.

Definition GetPolicyRules (t : Table) : list PolicyRule := merge_sort row_le (rows t).

Definition name_taken (name : gostring) (rs : list PolicyRule) : bool := existsb (fun r => bytes_eqb (pr_Name r) name) rs.

(** The constraints of the table: the CHECK on the action and the UNIQUE name. *)
Definition check_action (action : gostring) : bool :=
  existsb (bytes_eqb action) [ActionBlock; ActionAllow; ActionRedirect; ActionForward].
Definition row_refused (r : PolicyRule) (others : list PolicyRule) : bool :=
  name_taken (pr_Name r) others || negb (check_action (pr_Action r)).

Definition CreatePolicyRule (r : PolicyRule) (t : Table) : option (Z * Table) :=
  if row_refused r (rows t) then None
  else
    let id := next_id t in
    Some (id, MkTable (rows t ++ [MkPolicyRule id (pr_Name r) (pr_Logic r) (pr_Action r) (pr_ActionData r)
                                   (pr_Enabled r) (pr_SortOrder r)]) (id + 1)).

Definition set_row (id : Z) (r : PolicyRule) (x : PolicyRule) : PolicyRule :=
  if pr_ID x =? id
  then MkPolicyRule id (pr_Name r) (pr_Logic r) (pr_Action r) (pr_ActionData r) (pr_Enabled r) (pr_SortOrder r)
  else x.

(** No row with the key is an error, and so is the name of another row. *)
Definition UpdatePolicyRule (id : Z) (r : PolicyRule) (t : Table) : option Table :=
  if existsb (fun x => pr_ID x =? id) (rows t) &&
     negb (row_refused r (filter (fun x => pr_ID x <> id) (rows t)))
  then Some (MkTable (map (set_row id r) (rows t)) (next_id t))
  else None.

Definition DeletePolicyRule (id : Z) (t : Table) : option Table :=
  if existsb (fun x => pr_ID x =? id) (rows t)
  then Some (MkTable (filter (fun x => pr_ID x <> id) (rows t)) (next_id t))
  else None.

(** ** The handlers *)

Record PolicyRequest := MkPolicyRequest {
  rq_Name : gostring; rq_Logic : gostring; rq_Action : gostring; rq_ActionData : gostring; rq_Enabled : bool }.

Record PolicyResponse := MkPolicyResponse {
  rs_ID : Z; rs_Name : gostring; rs_Logic : gostring; rs_Action : gostring; rs_ActionData : gostring; rs_Enabled : bool }.

Inductive Reply :=
| Listed (ps : list PolicyResponse)
| Found (p : PolicyResponse)
| Created (p : PolicyResponse)
| Deleted (id : Z) (name : gostring)
| Matched (b : bool)
| Failed (code : Z).

(** Which statements of a request succeed: the first read, the write, the read
    that rebuilds the engine. *)
Record Db := MkDb { read_ok : bool; write_ok : bool; reread_ok : bool }.

Definition policyRuleToResponse (r : PolicyRule) : PolicyResponse :=
  MkPolicyResponse (pr_ID r) (pr_Name r) (pr_Logic r) (pr_Action r) (pr_ActionData r) (pr_Enabled r).

Definition request_row (q : PolicyRequest) (order : Z) : PolicyRule :=
  MkPolicyRule 0 (rq_Name q) (rq_Logic q) (rq_Action q) (rq_ActionData q) (rq_Enabled q) order.

Definition request_response (id : Z) (q : PolicyRequest) : PolicyResponse :=
  MkPolicyResponse id (rq_Name q) (rq_Logic q) (rq_Action q) (rq_ActionData q) (rq_Enabled q).

Definition validatePolicyRequest (q : PolicyRequest) : bool :=
  let known := existsb (bytes_eqb (rq_Action q)) [ActionBlock; ActionAllow; ActionRedirect; ActionForward] in
  let has_data := negb (bytes_eqb (rq_ActionData q) []) in
  negb (bytes_eqb (rq_Name q) []) && negb (bytes_eqb (rq_Logic q) []) && negb (bytes_eqb (rq_Action q) []) && known &&
  (negb (bytes_eqb (rq_Action q) ActionRedirect) || has_data) &&
  (negb (bytes_eqb (rq_Action q) ActionForward) ||
   (has_data && match ParseUpstreams (rq_ActionData q) with Ok _ => true | Err _ => false end)).

Section api.
Context {RX : RegexpLib} {EL : ExprLib}.

(** The server: its storage and its engine, both optional. *)
Record Api := MkApi { table : option Table; engine : option Engine }.

Definition request_rule (q : PolicyRequest) : Rule :=
  MkRule None (rq_Name q) (rq_Logic q) (rq_Action q) (rq_ActionData q) (rq_Enabled q).
Definition row_rule (r : PolicyRule) : Rule :=
  MkRule None (pr_Name r) (pr_Logic r) (pr_Action r) (pr_ActionData r) (pr_Enabled r).
Definition rule_response (i : nat) (r : Rule) : PolicyResponse :=
  MkPolicyResponse (Z.of_nat i) (Name r) (Logic r) (Action r) (ActionData r) (Enabled r).

Definition loadPolicyResponses (db : Db) (a : Api) : option (list PolicyResponse) :=
  match table a with
  | Some t => if read_ok db then Some (map policyRuleToResponse (GetPolicyRules t)) else None
  | None => Some (match engine a with Some e => imap rule_response (GetRules e) | None => [] end)
  end.

(** A row that does not compile is left out. *)
Definition compile_row (r : PolicyRule) : option Rule :=
  match Compile (row_rule r) with Ok r' => Some r' | Err _ => None end.

Definition rebuildPolicyEngine (db : Db) (t : Table) (a : Api) : Api :=
  match engine a with
  | None => a
  | Some e => if reread_ok db then MkApi (table a) (Some (ReplaceRules (omap compile_row (GetPolicyRules t)) e)) else a
  end.

Definition handleGetPolicies (db : Db) (a : Api) : Reply :=
  match loadPolicyResponses db a with Some ps => Listed ps | None => Failed 500 end.

(** The download has the same content. *)
Definition handleExportPolicies := handleGetPolicies.

Definition handleGetPolicy (path : gostring) (db : Db) (a : Api) : Reply :=
  match ParseInt 64 path with
  | Err _ => Failed 400
  | Ok id =>
      match loadPolicyResponses db a with
      | None => Failed 500
      | Some ps => match List.find (fun p => rs_ID p =? id) ps with Some p => Found p | None => Failed 404 end
      end
  end.

(** The rule must be valid on a fresh engine before anything is stored. *)
Definition checked (q : PolicyRequest) : bool :=
  validatePolicyRequest q && match AddRule (request_rule q) NewEngine with (_, None) => true | _ => false end.

Definition handleAddPolicy (body : option PolicyRequest) (db : Db) (a : Api) : Reply * Api :=
  match engine a, body with
  | None, _ | _, None => (Failed 400, a)
  | Some e, Some q =>
      if negb (checked q) then (Failed 400, a)
      else match table a with
           | Some t =>
               let existing := if read_ok db then GetPolicyRules t else [] in
               match (if write_ok db then CreatePolicyRule (request_row q (Z.of_nat (length existing))) t else None) with
               | None => (Failed 500, a)
               | Some (id, t') => (Created (request_response id q), rebuildPolicyEngine db t' (MkApi (Some t') (engine a)))
               end
           | None =>
               match AddRule (request_rule q) e with
               | (_, Some _) => (Failed 500, a)
               | (e', None) => (Created (request_response (Policy.Count e' - 1) q), MkApi None (Some e'))
               end
           end
  end.

(** The row written has no sort order of its own: it is the zero value. *)
Definition handleUpdatePolicy (path : gostring) (body : option PolicyRequest) (db : Db) (a : Api) : Reply * Api :=
  match engine a with
  | None => (Failed 400, a)
  | Some e =>
      match ParseInt 64 path, body with
      | Err _, _ | _, None => (Failed 400, a)
      | Ok id, Some q =>
          if negb (checked q) then (Failed 400, a)
          else match table a with
               | Some t =>
                   match (if write_ok db then UpdatePolicyRule id (request_row q 0) t else None) with
                   | None => (Failed 404, a)
                   | Some t' => (Found (request_response id q), rebuildPolicyEngine db t' (MkApi (Some t') (engine a)))
                   end
               | None =>
                   if (id <? 0) || (Z.of_nat (length (GetRules e)) <=? id) then (Failed 404, a)
                   else match UpdateRule id (request_rule q) e with
                        | (_, Some _) => (Failed 400, a)
                        | (e', None) => (Found (request_response id q), MkApi None (Some e'))
                        end
               end
      end
  end.

Definition handleDeletePolicy (path : gostring) (db : Db) (a : Api) : Reply * Api :=
  match ParseInt 64 path with
  | Err _ => (Failed 400, a)
  | Ok id =>
      match table a, engine a with
      | Some t, _ =>
          let rules := if read_ok db then GetPolicyRules t else [] in
          match List.find (fun r => pr_ID r =? id) rules with
          | None => (Failed 404, a)
          | Some r =>
              if bytes_eqb (pr_Name r) [] then (Failed 404, a)
              else match (if write_ok db then DeletePolicyRule id t else None) with
                   | None => (Failed 500, a)
                   | Some t' => (Deleted id (pr_Name r), rebuildPolicyEngine db t' (MkApi (Some t') (engine a)))
                   end
          end
      | None, Some e =>
          match (if id <? 0 then None else GetRules e !! Z.to_nat id) with
          | None => (Failed 404, a)
          | Some r => (Deleted id (Name r), MkApi None (Some (RemoveRule (Name r) e).1))
          end
      | None, None => (Failed 404, a)
      end
  end.

Record policyTestRequest := MkTest { t_Logic : gostring; t_Domain : gostring; t_ClientIP : gostring; t_QueryType : gostring }.

(** [handleTestPolicy]: one enabled BLOCK rule on an engine without groups. *)
Definition handleTestPolicy (body : option policyTestRequest) (now : WallClock) : Reply :=
  match body with
  | None => Failed 400
  | Some q =>
      let logic := TrimSpace (t_Logic q) in
      let domain := TrimSpace (t_Domain q) in
      let ip := if bytes_eqb (TrimSpace (t_ClientIP q)) [] then str "127.0.0.1" else TrimSpace (t_ClientIP q) in
      let qt := ToUpper (TrimSpace (t_QueryType q)) in
      let qt := if bytes_eqb qt [] then str "A" else qt in
      if bytes_eqb logic [] || bytes_eqb domain [] || bool_decide (ParseIP ip = None) then Failed 400
      else match AddRule (MkRule None (str "tester") logic ActionBlock [] true) NewEngine with
           | (_, Some _) => Failed 400
           | (e, None) => Matched (bool_decide (is_Some (Evaluate None (NewContext domain ip qt now) e)))
           end
  end.

(** ** Requests *)

Inductive Req :=
| RAdd (body : option PolicyRequest)
| RUpdate (path : gostring) (body : option PolicyRequest)
| RDelete (path : gostring).

Definition exec (q : Req) (db : Db) (a : Api) : Reply * Api :=
  match q with
  | RAdd body => handleAddPolicy body db a
  | RUpdate path body => handleUpdatePolicy path body db a
  | RDelete path => handleDeletePolicy path db a
  end.

Definition run (rs : list (Db * Req)) (a : Api) : Api := foldl (fun a r => (exec r.2 r.1 a).2) a rs.

(** ** The table is well formed *)

Definition table_ok (t : Table) : Prop :=
  NoDup (pr_ID <$> rows t) /\ Forall (fun r => pr_ID r < next_id t) (rows t) /\
  Forall (fun r => is_Some (compile_row r)) (rows t).

Lemma checked_compiles q id order :
  checked q = true ->
  is_Some (compile_row (MkPolicyRule id (rq_Name q) (rq_Logic q) (rq_Action q) (rq_ActionData q) (rq_Enabled q) order)).
Proof.
  intros H. apply andb_true_iff in H as [_ H]. unfold AddRule in H. unfold compile_row, row_rule. cbn [pr_Name pr_Logic pr_Action pr_ActionData pr_Enabled].
  unfold request_rule in H. by destruct (Compile _).
Qed.

Lemma create_ok q order t id t' :
  table_ok t -> checked q = true -> CreatePolicyRule (request_row q order) t = Some (id, t') ->
  table_ok t' /\ id = next_id t /\
  rows t' = rows t ++ [MkPolicyRule id (rq_Name q) (rq_Logic q) (rq_Action q) (rq_ActionData q) (rq_Enabled q) order].
Proof.
  intros (Hd & Hn & Hc) Hq H. unfold CreatePolicyRule in H. destruct (row_refused _ _); [done|]. injection H as <- <-.
  split; [|done]. split_and!; cbn [rows next_id].
  - rewrite fmap_app. apply NoDup_app. split; [done|]. split; [|apply NoDup_singleton].
    intros x Hx Hx'. apply list_elem_of_singleton in Hx'. cbn in Hx'. subst x.
    apply list_elem_of_fmap in Hx as (r & E & Hr). rewrite Forall_forall in Hn. specialize (Hn r Hr). lia.
  - apply Forall_app. split; [|by repeat constructor; cbn; lia].
    eapply Forall_impl; [exact Hn|]. cbn. intros; lia.
  - apply Forall_app. split; [done|]. constructor; [|constructor]. by apply checked_compiles.
Qed.

Lemma set_row_ids id r rs : pr_ID <$> map (set_row id r) rs = pr_ID <$> rs.
Proof.
  induction rs as [|x rs IH]; [done|]. cbn. rewrite IH. f_equal. unfold set_row.
  by destruct (Z.eqb_spec (pr_ID x) id) as [<-|].
Qed.

Lemma update_ok q order t id t' :
  table_ok t -> checked q = true -> UpdatePolicyRule id (request_row q order) t = Some t' ->
  table_ok t' /\ MkPolicyRule id (rq_Name q) (rq_Logic q) (rq_Action q) (rq_ActionData q) (rq_Enabled q) order ∈ rows t'.
Proof.
  intros (Hd & Hn & Hc) Hq H. unfold UpdatePolicyRule in H. destruct (existsb _ _) eqn:Ex; [|done].
  destruct (row_refused _ _); [done|]. injection H as <-. split; [split_and!|]; cbn [rows next_id].
  - by rewrite set_row_ids.
  - apply Forall_forall. intros x Hx. apply list_elem_of_fmap in Hx as (y & -> & Hy). rewrite Forall_forall in Hn.
    specialize (Hn y Hy). unfold set_row. destruct (Z.eqb_spec (pr_ID y) id) as [<-|]; done.
  - apply Forall_forall. intros x Hx. apply list_elem_of_fmap in Hx as (y & -> & Hy). rewrite Forall_forall in Hc.
    unfold set_row. destruct (pr_ID y =? id); [by apply checked_compiles|by apply Hc].
  - apply existsb_exists in Ex as (y & Hy & E). apply list_elem_of_fmap. exists y. split; [|by apply list_elem_of_In].
    unfold set_row. by rewrite E.
Qed.

Lemma filter_sublist_of {A} (P : A -> Prop) `{!forall x, Decision (P x)} (l : list A) : sublist (filter P l) l.
Proof.
  induction l as [|x l IH]; [done|]. rewrite filter_cons. destruct (decide (P x)); by constructor.
Qed.

Lemma delete_ok t id t' :
  table_ok t -> DeletePolicyRule id t = Some t' -> table_ok t' /\ Forall (fun r => pr_ID r <> id) (rows t').
Proof.
  intros (Hd & Hn & Hc) H. unfold DeletePolicyRule in H. destruct (existsb _ _); [|done]. injection H as <-.
  cbn [rows next_id]. split; [split_and!|].
  - eapply sublist_NoDup; [exact Hd|]. apply fmap_sublist, filter_sublist_of.
  - rewrite !Forall_forall in *. intros x Hx. apply list_elem_of_filter in Hx as [_ Hx]. by apply Hn.
  - rewrite !Forall_forall in *. intros x Hx. apply list_elem_of_filter in Hx as [_ Hx]. by apply Hc.
  - apply Forall_forall. intros x Hx. by apply list_elem_of_filter in Hx as [? _].
Qed.

(** ** The engine follows the table *)

Definition in_sync (a : Api) : Prop :=
  exists t e, table a = Some t /\ engine a = Some e /\ table_ok t /\ rules e = omap compile_row (GetPolicyRules t).

Lemma rebuild_sync db t a e :
  engine a = Some e -> table a = Some t -> table_ok t -> reread_ok db = true -> in_sync (rebuildPolicyEngine db t a).
Proof.
  intros He Ht Hok Hr. unfold rebuildPolicyEngine. rewrite He, Hr. eexists t, _. by split_and!.
Qed.

Lemma exec_sync q db a :
  in_sync a -> reread_ok db = true ->
  in_sync (exec q db a).2 /\ forall c, (exec q db a).1 = Failed c -> (exec q db a).2 = a.
Proof.
  intros Hs Hr. pose proof Hs as (t & e & Ht & He & Hok & Hsync). destruct q as [body|path body|path]; cbn [exec].
  - unfold handleAddPolicy. rewrite He, Ht. destruct body as [q|]; [|done]. destruct (checked q) eqn:Ec; [|done]. cbn [negb].
    destruct (write_ok db); [|done]. set (order := Z.of_nat _).
    destruct (CreatePolicyRule (request_row q order) t) as [[id t']|] eqn:E; [|done].
    apply (create_ok _ _ _ _ _ Hok Ec) in E as [Hok' _]. split; [|done]. by eapply rebuild_sync.
  - unfold handleUpdatePolicy. rewrite He, Ht. destruct (ParseInt 64 path) as [id|]; [|done]. destruct body as [q|]; [|done].
    destruct (checked q) eqn:Ec; [|done]. cbn [negb]. destruct (write_ok db); [|done].
    destruct (UpdatePolicyRule id (request_row q 0) t) as [t'|] eqn:E; [|done].
    apply (update_ok _ _ _ _ _ Hok Ec) in E as [Hok' _]. split; [|done]. by eapply rebuild_sync.
  - unfold handleDeletePolicy. rewrite He, Ht. destruct (ParseInt 64 path) as [id|]; [|done].
    destruct (List.find _ _) as [r|]; [|done]. destruct (bytes_eqb _ _); [done|]. destruct (write_ok db); [|done].
    destruct (DeletePolicyRule id t) as [t'|] eqn:E; [|done].
    apply (delete_ok _ _ _ Hok) in E as [Hok' _]. split; [|done]. by eapply rebuild_sync.
Qed.

Lemma run_sync rs : forall a, Forall (fun r => reread_ok r.1 = true) rs -> in_sync a -> in_sync (run rs a).
Proof.
  induction rs as [|r rs IH]; intros a Hr Hs; [done|]. apply Forall_cons in Hr as [Hr1 Hr2]. cbn. apply IH; [done|].
  by apply exec_sync.
Qed.

Lemma omap_all {A B} (f : A -> option B) l : Forall (fun x => is_Some (f x)) l -> length (omap f l) = length l.
Proof.
  induction l as [|x l IH]; intros H; [done|]. apply Forall_cons in H as [[y Hy] H]. cbn. rewrite Hy. cbn. by rewrite IH.
Qed.

(** The rule of a row is true for a query. *)
Definition row_true (groups : GroupCache) (ctx : Context) (r : PolicyRule) : bool :=
  match compileRuleLogic (pr_Logic r) with
  | Some p => match vm_Run (helpers groups) p ctx with Some (ABool b) => b | _ => false end
  | None => false
  end.

Lemma compile_row_fields r r' groups ctx :
  compile_row r = Some r' -> Enabled r' = pr_Enabled r /\ rule_true groups ctx r' = row_true groups ctx r.
Proof.
  unfold compile_row, Compile, rule_true, row_true. destruct (validateAction _); [done|].
  cbn [Logic row_rule Enabled]. destruct (compileRuleLogic (pr_Logic r)); [|done]. by intros [= <-].
Qed.

Lemma evaluate_rows groups ctx l :
  Forall (fun r => is_Some (compile_row r)) l ->
  List.find (fun r => Enabled r && rule_true groups ctx r) (omap compile_row l) =
  List.find (fun r => pr_Enabled r && row_true groups ctx r) l ≫= compile_row.
Proof.
  induction l as [|r l IH]; intros H; [done|]. apply Forall_cons in H as [[r' Hr] H].
  destruct (compile_row_fields r r' groups ctx Hr) as [E1 E2]. cbn. rewrite Hr. cbn. rewrite E1, E2.
  destruct (pr_Enabled r && row_true groups ctx r); [by cbn|]. by apply IH.
Qed.

Lemma GetPolicyRules_Forall (P : PolicyRule -> Prop) t : Forall P (rows t) -> Forall P (GetPolicyRules t).
Proof. intros H. unfold GetPolicyRules. by rewrite (merge_sort_Permutation row_le (rows t)). Qed.

(** C21: As long as the reads that rebuild the engine succeed, after any requests,
    failing ones included, the engine holds one compiled rule per row of the table
    in the order of sort_order and id, and it decides a query by the first enabled
    row, in that order, whose expression is true.  A request that is answered with
    an error has changed neither. *)
Theorem engine_follows_table (a : Api) (rs : list (Db * Req)) (Ha : in_sync a)
    (Hr : Forall (fun r => reread_ok r.1 = true) rs) :
  exists t e, table (run rs a) = Some t /\ engine (run rs a) = Some e /\
    length (rules e) = length (rows t) /\ NoDup (pr_ID <$> rows t) /\
    (forall groups ctx, Evaluate groups ctx e =
       List.find (fun r => pr_Enabled r && row_true groups ctx r) (GetPolicyRules t) ≫= compile_row) /\
    (forall q db c, reread_ok db = true -> (exec q db (run rs a)).1 = Failed c -> (exec q db (run rs a)).2 = run rs a).
Proof.
  pose proof (run_sync rs a Hr Ha) as Hs. pose proof Hs as (t & e & Ht & He & (Hd & Hn & Hc) & Hrules).
  exists t, e. split_and!; [done..| |done| |].
  - rewrite Hrules, omap_all by by apply GetPolicyRules_Forall. unfold GetPolicyRules. by rewrite merge_sort_Permutation.
  - intros groups ctx. unfold Evaluate. rewrite Hrules. by apply evaluate_rows, GetPolicyRules_Forall.
  - intros q db c Hdb. by apply exec_sync.
Qed.

(** ** Create, read, update, delete *)

Lemma find_by_id t r :
  NoDup (pr_ID <$> rows t) -> r ∈ rows t ->
  List.find (fun p => rs_ID p =? pr_ID r) (map policyRuleToResponse (GetPolicyRules t)) = Some (policyRuleToResponse r).
Proof.
  intros Hd Hr. unfold GetPolicyRules. rewrite <- (merge_sort_Permutation row_le (rows t)) in Hd, Hr.
  induction (merge_sort row_le (rows t)) as [|x l IH]; [by apply not_elem_of_nil in Hr|].
  cbn in *. apply NoDup_cons in Hd as [Hx Hd]. destruct (Z.eqb_spec (pr_ID x) (pr_ID r)) as [E|E].
  - apply elem_of_cons in Hr as [->|Hr]; [done|]. exfalso. apply Hx. rewrite E. by apply list_elem_of_fmap_2.
  - apply elem_of_cons in Hr as [->|Hr]; [done|]. by apply IH.
Qed.

Lemma find_no_id t id :
  Forall (fun r => pr_ID r <> id) (rows t) ->
  List.find (fun p => rs_ID p =? id) (map policyRuleToResponse (GetPolicyRules t)) = None.
Proof.
  intros H. apply GetPolicyRules_Forall in H. induction H as [|x l Hx _ IH]; [done|]. cbn.
  by rewrite (proj2 (Z.eqb_neq _ _) Hx).
Qed.

Definition all_ok : Db := MkDb true true true.

Lemma get_row t e id r :
  table_ok t -> r ∈ rows t -> pr_ID r = id -> - 2 ^ 63 <= id < 2 ^ 63 ->
  handleGetPolicy (Itoa id) all_ok (MkApi (Some t) e) = Found (policyRuleToResponse r).
Proof.
  intros (Hd & _) Hr <- Hid. unfold handleGetPolicy. pose proof (Atoi_Itoa _ Hid) as E. unfold Atoi in E. rewrite E.
  cbn [loadPolicyResponses table read_ok all_ok]. by rewrite find_by_id.
Qed.

(** What the API answers can be read back under the id it gives: the rule that
    was created (under a fresh id) or updated, with the content of the request;
    a deleted rule is not found.  Keys are below 2^63. *)
Theorem policy_read_back (t : Table) (e : Engine) (q : PolicyRequest) (path : gostring) (id : Z) (a : Api)
    (Hok : table_ok t) (Hid : - 2 ^ 63 <= id < 2 ^ 63) :
  (handleAddPolicy (Some q) all_ok (MkApi (Some t) (Some e)) = (Created (request_response id q), a) ->
     id = next_id t /\ handleGetPolicy (Itoa id) all_ok a = Found (request_response id q)) /\
  (handleUpdatePolicy (Itoa id) (Some q) all_ok (MkApi (Some t) (Some e)) = (Found (request_response id q), a) ->
     handleGetPolicy (Itoa id) all_ok a = Found (request_response id q)) /\
  (handleDeletePolicy (Itoa id) all_ok (MkApi (Some t) (Some e)) = (Deleted id path, a) ->
     handleGetPolicy (Itoa id) all_ok a = Failed 404).
Proof.
  pose proof (Atoi_Itoa _ Hid) as Ei. unfold Atoi in Ei. split_and!.
  - unfold handleAddPolicy. cbn [engine table]. destruct (checked q) eqn:Ec; [|done]. cbn [negb read_ok write_ok all_ok].
    set (order := Z.of_nat _). destruct (CreatePolicyRule _ t) as [[id' t']|] eqn:E; [|done].
    intros [= -> <-]. apply (create_ok _ _ _ _ _ Hok Ec) in E as (Hok' & -> & Hrows). split; [done|].
    unfold rebuildPolicyEngine. cbn [engine table reread_ok all_ok].
    rewrite (get_row t' _ (next_id t) (MkPolicyRule (next_id t) (rq_Name q) (rq_Logic q) (rq_Action q) (rq_ActionData q) (rq_Enabled q) order)); try done.
    rewrite Hrows. apply elem_of_app. right. by apply list_elem_of_singleton.
  - unfold handleUpdatePolicy. cbn [engine table]. rewrite Ei. destruct (checked q) eqn:Ec; [|done]. cbn [negb write_ok all_ok].
    destruct (UpdatePolicyRule id _ t) as [t'|] eqn:E; [|done]. intros [= <-].
    apply (update_ok _ _ _ _ _ Hok Ec) in E as (Hok' & Hrow). unfold rebuildPolicyEngine. cbn [engine table reread_ok all_ok].
    by rewrite (get_row t' _ id _ Hok' Hrow).
  - unfold handleDeletePolicy. cbn [engine table]. rewrite Ei. cbn [read_ok write_ok all_ok].
    destruct (List.find _ _) as [x|]; [|done]. destruct (bytes_eqb _ _); [done|].
    destruct (DeletePolicyRule id t) as [t'|] eqn:E; [|done]. intros [= _ <-].
    apply (delete_ok _ _ _ Hok) in E as [_ Hgone]. unfold rebuildPolicyEngine, handleGetPolicy. cbn [engine table reread_ok all_ok].
    rewrite Ei. cbn [loadPolicyResponses table read_ok all_ok]. by rewrite find_no_id.
Qed.

(** ** The order of the rules *)

(** An update gives its rule the sort order zero: every rule with a positive sort
    order comes after it from then on, whatever was updated. *)
Theorem update_moves_rule (t t' : Table) (id : Z) (q : PolicyRequest) (Hok : table_ok t) (Hc : checked q = true)
    (Hu : UpdatePolicyRule id (request_row q 0) t = Some t') :
  exists pre x post, GetPolicyRules t' = pre ++ x :: post /\ pr_ID x = id /\ Forall (fun y => pr_SortOrder y <= 0) pre.
Proof.
  apply (update_ok _ _ _ _ _ Hok Hc) in Hu as [_ Hx]. set (x := MkPolicyRule _ _ _ _ _ _ _) in Hx.
  unfold GetPolicyRules. rewrite <- (merge_sort_Permutation row_le (rows t')) in Hx.
  apply list_elem_of_split in Hx as (pre & post & E). exists pre, x, post. split; [done|]. split; [done|].
  pose proof (StronglySorted_merge_sort row_le (rows t')) as Hs. rewrite E in Hs.
  apply Forall_forall. intros y Hy. pose proof (StronglySorted_app_1_elem_of _ _ _ y x Hs Hy ltac:(left)) as Hle.
  unfold row_le in Hle. cbn in Hle. lia.
Qed.

End api.

(** ** A concrete engine

    Every expression compiles and is true. *)

Definition always_expr : ExprLib := {|
  Program := unit; expr_Compile _ _ := Some tt; vm_Run _ _ _ := Some (ABool true) |}.

Definition no_re : RegexpLib := {| Regexp := unit; regexp_Compile _ := None; regexp_MatchString _ _ := false |}.

Definition request (name action : string) (on : bool) : PolicyRequest :=
  MkPolicyRequest (str name) (str "true") (str action) [] on.

Definition fresh_api : @Api always_expr := MkApi (Some (MkTable [] 1)) (Some (@NewEngine always_expr)).

Definition add (name action : string) (on : bool) : Db * Req := (all_ok, RAdd (Some (request name action on))).

Definition any_query : Context := NewContext (str "example.com") (str "192.0.2.9") (str "A") (MkClock 0 0 1 1 0 0).

(** The action the engine takes for a query every enabled rule matches. *)
Definition decision (a : @Api always_expr) : option gostring :=
  e ← engine a; Action <$> @Evaluate no_re always_expr None any_query e.

Definition three_rules : list (Db * Req) := [add "off" "BLOCK" false; add "allow" "ALLOW" true; add "block" "BLOCK" true].

(** Sending a rule back unchanged can reverse the decision of the engine: with an
    ALLOW rule before a BLOCK rule, a PUT of the BLOCK rule with its own content
    puts it first. *)
Theorem unchanged_update_reorders :
  let a := @run no_re always_expr three_rules fresh_api in
  let put := @run no_re always_expr [(all_ok, RUpdate (str "3") (Some (request "block" "BLOCK" true)))] a in
  decision a = Some (str "ALLOW") /\ decision put = Some (str "BLOCK") /\
  handleGetPolicy (str "3") all_ok a = handleGetPolicy (str "3") all_ok put.
Proof. vm_compute. split_and!; reflexivity. Qed.

(** A new rule does not always come last: its sort order is the number of rules,
    which deletions make smaller than an order in use. *)
Theorem add_before_existing :
  let a := @run no_re always_expr (three_rules ++ [(all_ok, RDelete (str "1")); (all_ok, RDelete (str "2")); add "new" "ALLOW" true]) fresh_api in
  handleGetPolicies all_ok a = Listed [MkPolicyResponse 4 (str "new") (str "true") (str "ALLOW") [] true;
                                        MkPolicyResponse 3 (str "block") (str "true") (str "BLOCK") [] true].
Proof. vm_compute. reflexivity. Qed.

Lemma fresh_sync : @in_sync no_re always_expr fresh_api.
Proof. eexists _, _. split_and!; try done. split_and!; constructor. Qed.

Lemma engine_follows_table_witness :
  exists t e, table (@run no_re always_expr three_rules fresh_api) = Some t /\
    engine (@run no_re always_expr three_rules fresh_api) = Some e /\ length (rules e) = 3%nat.
Proof.
  destruct (@engine_follows_table no_re always_expr fresh_api three_rules fresh_sync ltac:(by repeat constructor))
    as (t & e & Ht & He & Hl & _).
  exists t, e. split; [exact Ht|]. split; [exact He|]. rewrite Hl. vm_compute in Ht. injection Ht as <-. reflexivity.
Defined.

Lemma policy_read_back_witness :
  exists a, @handleAddPolicy no_re always_expr (Some (request "r" "BLOCK" true)) all_ok fresh_api =
      (Created (request_response 1 (request "r" "BLOCK" true)), a) /\
    handleGetPolicy (str "1") all_ok a = Found (request_response 1 (request "r" "BLOCK" true)).
Proof.
  eexists. split; [vm_compute; reflexivity|].
  apply (proj1 (@policy_read_back no_re always_expr (MkTable [] 1) (@NewEngine always_expr) (request "r" "BLOCK" true) [] 1
    _ ltac:(split_and!; constructor) ltac:(lia))). vm_compute. reflexivity.
Defined.
