(* ===== verification/GoTime.v ===== *)
(** * time.ParseDuration and filepath.Clean

    The parts of Go's packages [time] and [path/filepath] that the settings API
    uses.  The fraction of a duration goes through float64, whose rounding is the
    parameter of RateLimit.v. *)

From Stdlib Require Import Ascii QArith Qround.
From S2P Require Import Prelude GoStrings GoStrconv RateLimit.
From stdpp Require Import options.
Local Open Scope Z_scope.

Section duration.
Context {R : Rounding}.

(** [leadingInt]: the digits at the start, [None] on overflow. *)
Fixpoint leadingInt (s : gostring) (x : Z) : option (Z * gostring) :=
  match s with
  | c :: s' =>
      if is_digit c then
        if 2 ^ 63 / 10 <? x then None
        else let x := x * 10 + (code c - 48) in if 2 ^ 63 <? x then None else leadingInt s' x
      else Some (x, s)
  | [] => Some (x, s)
  end.

(** [leadingFraction]: the digits that fit, and ten to their number. *)
Fixpoint leadingFraction (s : gostring) (x scale : Z) (overflow : bool) : Z * Z * gostring :=
  match s with
  | c :: s' =>
      if is_digit c then
        if overflow then leadingFraction s' x scale true
        else if (2 ^ 63 - 1) / 10 <? x then leadingFraction s' x scale true
        else let y := x * 10 + (code c - 48) in
             if 2 ^ 63 <? y then leadingFraction s' x scale true else leadingFraction s' y (scale * 10) false
      else (x, scale, s)
  | [] => (x, scale, s)
  end.

Fixpoint unit_text (s : gostring) : gostring * gostring :=
  match s with
  | c :: s' => if is_digit c || bool_decide (c = "."%char) then ([], s) else let '(u, r) := unit_text s' in (c :: u, r)
  | [] => ([], [])
  end.

Definition unit_ns (u : gostring) : option Z :=
  let micro := [chr 194; chr 181; "s"%char] in
  let micro' := [chr 206; chr 188; "s"%char] in
  if bytes_eqb u (str "ns") then Some 1
  else if bytes_eqb u (str "us") || bytes_eqb u micro || bytes_eqb u micro' then Some 1000
  else if bytes_eqb u (str "ms") then Some 1000000
  else if bytes_eqb u (str "s") then Some 1000000000
  else if bytes_eqb u (str "m") then Some 60000000000
  else if bytes_eqb u (str "h") then Some 3600000000000
  else None.

(** [uint64(float64(f) * (float64(unit) / scale))]. *)
Definition fraction_ns (f unit_ scale : Z) : Z :=
  Qfloor (rnd (rnd (inject_Z f) * rnd (rnd (inject_Z unit_) / rnd (inject_Z scale)))%Q).

(** One number with its unit. *)
Definition duration_part (s : gostring) : option (Z * gostring) :=
  match s with
  | [] => None
  | c :: _ =>
      if negb (is_digit c || bool_decide (c = "."%char)) then None
      else
        '(v, s1) ← leadingInt s 0;
        let pre := negb (length s =? length s1)%nat in
        let '(f, scale, s2, post) :=
          match s1 with
          | d :: s1' => if bool_decide (d = "."%char)
                        then let '(f, scale, s2) := leadingFraction s1' 0 1 false in
                             (f, scale, s2, negb (length s1' =? length s2)%nat)
                        else (0, 1, s1, false)
          | [] => (0, 1, s1, false)
          end in
        if negb pre && negb post then None
        else
          let '(u, rest) := unit_text s2 in
          n ← unit_ns u;
          if 2 ^ 63 / n <? v then None
          else
            let v := v * n + (if 0 <? f then fraction_ns f n scale else 0) in
            if 2 ^ 63 <? v then None else Some (v, rest)
  end.

(** Each part consumes a unit: as many parts as bytes are enough. *)
Fixpoint duration_parts (fuel : nat) (s : gostring) (d : Z) : option Z :=
  match s, fuel with
  | [], _ => Some d
  | _, O => None
  | _, S fuel' => '(v, rest) ← duration_part s; if 2 ^ 63 <? d + v then None else duration_parts fuel' rest (d + v)
  end.

Definition ParseDuration (s : gostring) : option Z :=
  let '(neg, s) := match s with
                   | c :: s' => if bool_decide (c = "-"%char) then (true, s')
                                else if bool_decide (c = "+"%char) then (false, s') else (false, s)
                   | [] => (false, s)
                   end in
  if bytes_eqb s (str "0") then Some 0
  else match s with
       | [] => None
       | _ =>
           d ← duration_parts (length s) s 0;
           if neg then Some (- d) else if 2 ^ 63 - 1 <? d then None else Some d
       end.

(** The fuel is enough: a part leaves less to read. *)
Lemma unit_text_length s : let '(u, r) := unit_text s in length s = (length u + length r)%nat.
Proof.
  induction s as [|c s IH]; [done|]. cbn. destruct (_ || _); [done|]. destruct (unit_text s). cbn in *. lia.
Qed.

Lemma leadingInt_length s : forall x v r, leadingInt s x = Some (v, r) -> (length r <= length s)%nat.
Proof.
  induction s as [|c s IH]; intros x v r H; [by injection H as <- <-|]. cbn [leadingInt] in H.
  destruct (is_digit c); [|by injection H as <- <-]. destruct (_ <? x); [done|]. destruct (_ <? _); [done|].
  apply IH in H. cbn. lia.
Qed.

Lemma leadingFraction_length s : forall x sc o, (length (leadingFraction s x sc o).2 <= length s)%nat.
Proof.
  induction s as [|c s IH]; intros x sc o; [done|]. cbn [leadingFraction]. destruct (is_digit c); [|done].
  destruct o; [specialize (IH x sc true); cbn; lia|].
  destruct (_ <? x); [specialize (IH x sc true); cbn; lia|].
  cbv zeta. destruct (_ <? _); [specialize (IH x sc true)|specialize (IH (x * 10 + (code c - 48)) (sc * 10) false)]; cbn; lia.
Qed.

Lemma duration_part_shorter s v r : duration_part s = Some (v, r) -> (length r < length s)%nat.
Proof.
  unfold duration_part. destruct s as [|c s]; [done|]. destruct (negb _); [done|].
  destruct (leadingInt (c :: s) 0) as [[v0 s1]|] eqn:E1; [|done]. cbn [mbind option_bind].
  apply leadingInt_length in E1. intros H.
  set (quad := match s1 with _ :: _ => _ | [] => _ end) in H.
  assert (length quad.1.2 <= length s1)%nat as Hq.
  { subst quad. destruct s1 as [|d s1]; [done|]. case_bool_decide; [|done].
    pose proof (leadingFraction_length s1 0 1 false) as Hl. destruct (leadingFraction s1 0 1 false) as [[f sc] s2].
    cbn in *. lia. }
  destruct quad as [[[f sc] s2] post]. cbn in Hq. destruct (negb _ && negb _); [done|].
  pose proof (unit_text_length s2) as Hu. destruct (unit_text s2) as [u rest].
  destruct (unit_ns u) as [n|] eqn:En; [|done]. cbn [mbind option_bind] in H.
  assert (u <> []) as Hne by (intros ->; done).
  destruct (_ <? v0); [done|]. destruct (_ <? _); [done|]. injection H as <- <-.
  destruct u; [done|]. cbn in Hu. lia.
Qed.

(** More fuel than bytes changes nothing. *)
Lemma duration_parts_fuel n : forall m s d, (length s <= n)%nat -> (length s <= m)%nat ->
  duration_parts n s d = duration_parts m s d.
Proof.
  induction n as [|n IH]; intros m s d Hn Hm.
  { destruct s; [|cbn in Hn; lia]. by destruct m. }
  destruct s as [|c s]; [by destruct m|]. destruct m as [|m]; [cbn in Hm; lia|]. cbn [duration_parts].
  destruct (duration_part (c :: s)) as [[v r]|] eqn:E; [|done]. cbn [mbind option_bind].
  apply duration_part_shorter in E. destruct (_ <? _); [done|]. apply IH; cbn in *; lia.
Qed.

End duration.

(** ** filepath.Clean *)

(** The elements that remain: "." and empty ones go, ".." removes the one before,
    is dropped at the root and kept at the start of a relative path. *)
Definition clean_step (rooted : bool) (out : list gostring) (el : gostring) : list gostring :=
  if bytes_eqb el [] || bytes_eqb el (str ".") then out
  else if bytes_eqb el (str "..") then
    match out with
    | [] => if rooted then [] else [el]
    | last :: out' => if bytes_eqb last (str "..") then el :: out else out'
    end
  else el :: out.

Definition Clean (p : gostring) : gostring :=
  let rooted := HasPrefix p (str "/") in
  let out := rev (foldl (clean_step rooted) [] (SplitByte p "/"%char)) in
  if rooted then str "/" ++ Join out (str "/")
  else match out with [] => str "." | _ => Join out (str "/") end.

Example Clean_up : Clean (str "/var/../../etc//x/./y") = str "/etc/x/y".
Proof. vm_compute. reflexivity. Qed.
Example Clean_rel : Clean (str "a/../../b") = str "../b".
Proof. vm_compute. reflexivity. Qed.
Example ParseDuration_ex : @ParseDuration exact_rounding (str "1h2m3.5s") = Some 3723500000000.
Proof. vm_compute. reflexivity. Qed.
