(* ===== verification/ConfigUpdate.v ===== *)
(** * Settings through the API (pkg/api/handlers_config_update.go, settings_page.go, handlers_features.go)

    The handlers that change the configuration: the file is rewritten from a
    changed copy of the live configuration, and the watcher of Config.v loads it
    again.  A request is given by its decoded JSON body or its form; what the
    encoding package rejects is [None].  The YAML library is the parameter of
    Config.v; [survives] says that it reads back what it wrote. *)

From Stdlib Require Import Ascii.
From S2P Require Import Prelude GoStrings GoStrconv GoNet GoTime RateLimit KillSwitch ClientAcl Config.
From stdpp Require Import options.
Local Open Scope Z_scope.

(** ** Small parsers *)

Definition chr_in (s : string) (c : ascii) : bool := existsb (fun d => bool_decide (c = d)) (str s).

(** [strings.FieldsFunc]: the maximal runs of other bytes. *)
Fixpoint FieldsFunc (sep : ascii -> bool) (s cur : gostring) : list gostring :=
  match s with
  | [] => match cur with [] => [] | _ => [rev cur] end
  | c :: s' => if sep c then match cur with [] => FieldsFunc sep s' [] | _ => rev cur :: FieldsFunc sep s' [] end
               else FieldsFunc sep s' (c :: cur)
  end.

(** "\r\n" becomes "\n". *)
Fixpoint unix_lines (s : gostring) : gostring :=
  match s with
  | c :: ((d :: _) as s') => if (code c =? 13) && (code d =? 10) then unix_lines s' else c :: unix_lines s'
  | _ => s
  end.

Definition nonblank (s : gostring) : bool := negb (bytes_eqb (TrimSpace s) []).

Definition splitList (raw : gostring) : list gostring :=
  map TrimSpace (List.filter nonblank (FieldsFunc (fun c => (code c =? 10) || chr_in ",;" c) (unix_lines raw) [])).

Definition parseCheckbox (value : gostring) : bool :=
  existsb (bytes_eqb (ToLower (TrimSpace value))) [str "true"; str "1"; str "yes"; str "on"].

Definition isNumeric (value : gostring) : bool :=
  negb (bytes_eqb value []) && forallb (fun c => GoStrconv.is_digit c) value.

(** ** Requests *)

Definition Form := list (gostring * gostring).
Fixpoint FormValue (f : Form) (k : string) : gostring :=
  match f with [] => [] | (k', v) :: f' => if bytes_eqb k' (str k) then v else FormValue f' k end.
Definition Values (f : Form) (k : string) : list gostring :=
  map snd (List.filter (fun kv => bytes_eqb kv.1 (str k)) f).
Definition Has (f : Form) (k : string) : bool := existsb (fun kv => bytes_eqb kv.1 (str k)) f.

(** By content type: JSON, or a form. *)
Inductive Body (A : Type) := JSON (x : option A) | FormData (f : option Form).
Arguments JSON {A} x.
Arguments FormData {A} f.

(** [strconv.Atoi] of a required field. *)
Definition int_field (f : Form) (k : string) : option Z :=
  let raw := TrimSpace (FormValue f k) in
  if bytes_eqb raw [] then None else match Atoi raw with Ok n => Some n | Err _ => None end.

(** *** Upstream servers *)

Record upstreamsRequest := MkUpstreamsRequest { ur_Servers : list gostring; ur_Text : gostring }.

(** The loop over the candidates; [seen] holds the names in lower case. *)
Fixpoint upstream_loop (seen : list gostring) (cands : list gostring) : option (list gostring) :=
  match cands with
  | [] => Some []
  | c :: rest =>
      let entry := TrimSpace c in
      if bytes_eqb entry [] then upstream_loop seen rest
      else if negb (Contains entry (str ":")) then None
      else match SplitHostPort entry with
           | Err _ => None
           | Ok _ =>
               if existsb (bytes_eqb (ToLower entry)) seen then upstream_loop seen rest
               else cons entry <$> upstream_loop (ToLower entry :: seen) rest
           end
  end.

Definition parseUpstreamServers (b : Body upstreamsRequest) : option (list gostring) :=
  req ← match b with
        | JSON x => x
        | FormData f => f ← f; Some (MkUpstreamsRequest (Values f "servers[]") (FormValue f "servers"))
        end;
  let candidates := map TrimSpace (List.filter nonblank (ur_Servers req)) ++ splitList (ur_Text req) in
  match candidates with
  | [] => None
  | _ => res ← upstream_loop [] candidates; match res with [] => None | _ => Some res end
  end.

(** *** Cache *)

Record cacheRequest := MkCacheRequest {
  cr_Enabled : option bool; cr_MaxEntries : option Z; cr_MinTTL : gostring; cr_MaxTTL : gostring;
  cr_NegativeTTL : gostring; cr_BlockedTTL : gostring; cr_ShardCount : option Z }.

(** *** Logging *)

Record loggingRequest := MkLoggingRequest {
  lg_Level : gostring; lg_Format : gostring; lg_Output : gostring; lg_FilePath : gostring;
  lg_AddSource : option bool; lg_MaxSize : option Z; lg_MaxBackups : option Z; lg_MaxAge : option Z }.

Definition logging_request (b : Body loggingRequest) : option loggingRequest :=
  match b with
  | JSON x => x
  | FormData f =>
      f ← f; size ← int_field f "max_size"; backups ← int_field f "max_backups"; age ← int_field f "max_age";
      Some (MkLoggingRequest (FormValue f "level") (FormValue f "format") (FormValue f "output") (FormValue f "file_path")
              (Some (parseCheckbox (FormValue f "add_source"))) (Some size) (Some backups) (Some age))
  end.

Definition parseLoggingPayload (b : Body loggingRequest) (current : LoggingConfig) : option LoggingConfig :=
  req ← logging_request b;
  size ← lg_MaxSize req; backups ← lg_MaxBackups req; age ← lg_MaxAge req;
  let clean s := ToLower (TrimSpace s) in
  let level := clean (lg_Level req) in
  let format := clean (lg_Format req) in
  let output := clean (lg_Output req) in
  let path := TrimSpace (lg_FilePath req) in
  if (0 <? size) && one_of level ["debug"; "info"; "warn"; "error"] && one_of format ["json"; "text"] &&
     one_of output ["stdout"; "stderr"; "file"] && negb (bytes_eqb output (str "file") && bytes_eqb path []) &&
     (0 <=? backups) && (0 <=? age)
  then Some (MkLoggingConfig level format output path (default (AddSource current) (lg_AddSource req)) size backups age)
  else None.

(** Only relative traversal is refused. *)
Definition validateFilePath (path : gostring) : bool := negb (Contains (Clean path) (str "..")).

(** *** Block page, allowed clients, features *)

Record blockPageRequest := MkBlockPageRequest { br_Enabled : bool; br_BlockIP : gostring }.

Definition block_page_ok (b : blockPageRequest) : bool :=
  negb (br_Enabled b) || (nonblank (br_BlockIP b) && bool_decide (is_Some (ParseIP (TrimSpace (br_BlockIP b))))).

Fixpoint validate_clients (entries : list gostring) : option (list gostring) :=
  match entries with
  | [] => Some []
  | e :: rest =>
      let entry := TrimSpace e in
      if bytes_eqb entry [] then validate_clients rest
      else if bool_decide (is_Some (ParseCIDR entry)) || bool_decide (is_Some (ParseIP entry))
           then cons entry <$> validate_clients rest
           else None
  end.

Record FeaturesRequest := MkFeaturesRequest { fq_Blocklist : option bool; fq_Policies : option bool }.

Section durations.
Context {R : Rounding}.

Definition parseDurationField (value : gostring) : option Z :=
  let value := TrimSpace value in
  if bytes_eqb value [] then None
  else
    d ← ParseDuration (if isNumeric value then value ++ str "s" else value);
    if d <=? 0 then None else Some d.

Definition cache_request (b : Body cacheRequest) : option cacheRequest :=
  match b with
  | JSON x => x
  | FormData f =>
      f ← f; entries ← int_field f "max_entries"; shards ← int_field f "shard_count";
      Some (MkCacheRequest (Some (parseCheckbox (FormValue f "enabled"))) (Some entries) (FormValue f "min_ttl")
              (FormValue f "max_ttl") (FormValue f "negative_ttl") (FormValue f "blocked_ttl") (Some shards))
  end.

Definition parseCachePayload (b : Body cacheRequest) (current : CacheConfig) : option CacheConfig :=
  req ← cache_request b;
  entries ← cr_MaxEntries req;
  if entries <=? 0 then None else
  minTTL ← parseDurationField (cr_MinTTL req);
  maxTTL ← parseDurationField (cr_MaxTTL req);
  if maxTTL <? minTTL then None else
  negTTL ← parseDurationField (cr_NegativeTTL req);
  blockedTTL ← parseDurationField (cr_BlockedTTL req);
  shards ← cr_ShardCount req;
  if shards <? 0 then None else
  Some (MkCacheConfig (default (ca_Enabled current) (cr_Enabled req)) entries minTTL maxTTL negTTL blockedTTL shards).

(** *** TLS *)

Record tlsRequest := MkTlsRequest {
  tq_DotEnabled : option bool; tq_DotAddress : gostring; tq_CertFile : gostring; tq_KeyFile : gostring;
  tq_Autocert : option AutocertConfig; tq_ACME : option ACMEConfig }.

(** A form field replaces a setting when it is not blank. *)
Definition text_or (f : Form) (k : string) (old : gostring) : gostring :=
  let v := TrimSpace (FormValue f k) in if bytes_eqb v [] then old else v.
Definition list_or (f : Form) (k : string) (old : list gostring) : list gostring :=
  let v := TrimSpace (FormValue f k) in if bytes_eqb v [] then old else splitList v.
Definition duration_or (f : Form) (k : string) (old : Z) : Z :=
  let v := TrimSpace (FormValue f k) in if bytes_eqb v [] then old else default old (ParseDuration v).
Definition int_or (f : Form) (k : string) (old : Z) : Z :=
  let v := TrimSpace (FormValue f k) in
  if bytes_eqb v [] then old else match Atoi v with Ok n => n | Err _ => old end.

Definition autocert_form (f : Form) (ac : AutocertConfig) : AutocertConfig :=
  MkAutocertConfig (parseCheckbox (FormValue f "autocert_enabled")) (list_or f "autocert_hosts" (ac_Hosts ac))
    (text_or f "autocert_cache_dir" (ac_CacheDir ac)) (text_or f "autocert_email" (ac_Email ac))
    (text_or f "autocert_http01_address" (HTTP01Address ac)).

Definition acme_form (f : Form) (a : ACMEConfig) : ACMEConfig :=
  let c := Cloudflare a in
  MkACMEConfig (parseCheckbox (FormValue f "acme_enabled")) (text_or f "acme_dns_provider" (DNSProvider a))
    (list_or f "acme_hosts" (acme_Hosts a)) (list_or f "acme_upstreams" (acme_Upstreams a))
    (text_or f "acme_cache_dir" (acme_CacheDir a)) (text_or f "acme_email" (acme_Email a))
    (duration_or f "acme_renew_before" (RenewBefore a))
    (MkCFConfig (text_or f "acme_cf_api_token" (APIToken c)) (text_or f "acme_cf_zone_id" (ZoneID c))
       (int_or f "acme_cf_ttl" (cf_TTL c)) (duration_or f "acme_cf_propagation_timeout" (PropagationTimeout c))
       (duration_or f "acme_cf_polling_interval" (PollingInterval c))
       (duration_or f "acme_cf_initial_delay" (InitialDelay c))
       (if Has f "acme_cf_skip_auth_check" then parseCheckbox (FormValue f "acme_cf_skip_auth_check") else SkipAuthNSCheck c)).

Definition tls_request (b : Body tlsRequest) (current : ServerConfig) : option tlsRequest :=
  match b with
  | JSON x => x
  | FormData f =>
      f ← f;
      Some (MkTlsRequest
        (if bytes_eqb (FormValue f "dot_enabled") [] then None else Some (parseCheckbox (FormValue f "dot_enabled")))
        (FormValue f "dot_address") (FormValue f "cert_file") (FormValue f "key_file")
        (if Has f "autocert_enabled" || Has f "autocert_hosts" then Some (autocert_form f (Autocert (TLS current))) else None)
        (if Has f "acme_enabled" || Has f "acme_hosts" then Some (acme_form f (ACME (TLS current))) else None))
  end.

(** The new [DotEnabled], [DotAddress] and [TLS]. *)
Definition parseTLSPayload (b : Body tlsRequest) (current : ServerConfig) : option (bool * gostring * TLSConfig) :=
  req ← tls_request b current;
  let t := TLS current in
  if (nonblank (tq_CertFile req) && negb (validateFilePath (tq_CertFile req))) ||
     (nonblank (tq_KeyFile req) && negb (validateFilePath (tq_KeyFile req))) then None
  else Some (default (DotEnabled current) (tq_DotEnabled req),
             if nonblank (tq_DotAddress req) then tq_DotAddress req else DotAddress current,
             MkTLSConfig (if nonblank (tq_CertFile req) then tq_CertFile req else CertFile t)
               (if nonblank (tq_KeyFile req) then tq_KeyFile req else KeyFile t)
               (default (Autocert t) (tq_Autocert req)) (default (ACME t) (tq_ACME req))).

End durations.

(** The host lists differ as multisets, without regard to case. *)
Definition acmeHostsChanged (oldHosts newHosts : list gostring) : bool :=
  if (length oldHosts =? length newHosts)%nat
  then negb (bool_decide (sort_Strings (map ToLower oldHosts) = sort_Strings (map ToLower newHosts)))
  else true.

(** ** The server's side *)

(** What the settings handlers touch: the file, the watcher or the snapshot, the
    switches, and what they reload in the DNS server.  The server is one with a
    DNS handler, a cache and a kill switch; the program gives it its cache when the
    cache section of the file has changed once (Wiring.v). *)
Record Store := MkStore {
  path_set : bool;
  file : option gostring;
  watcher : option Watcher;
  snapshot : option Config;
  killSwitch : KillSwitchManager;
  blockPageIP : gostring;
  blockPageOn : bool;
  dns_acl : option ClientACL;
  acl_row : option (list gostring);       (** dynamic_config[allowed_clients], when there is a storage *)
  cacheClears : nat;
  purgedDirs : list gostring }.

Definition set_config (f : option gostring) (w : option Watcher) (s : Store) : Store :=
  MkStore (path_set s) f w (snapshot s) (killSwitch s) (blockPageIP s) (blockPageOn s) (dns_acl s) (acl_row s)
    (cacheClears s) (purgedDirs s).
Definition set_switch (k : KillSwitchManager) (s : Store) : Store :=
  MkStore (path_set s) (file s) (watcher s) (snapshot s) k (blockPageIP s) (blockPageOn s) (dns_acl s) (acl_row s)
    (cacheClears s) (purgedDirs s).
Definition set_page (ip : gostring) (on : bool) (s : Store) : Store :=
  MkStore (path_set s) (file s) (watcher s) (snapshot s) (killSwitch s) ip on (dns_acl s) (acl_row s)
    (cacheClears s) (purgedDirs s).
Definition set_acl (a : option ClientACL) (r : option (list gostring)) (s : Store) : Store :=
  MkStore (path_set s) (file s) (watcher s) (snapshot s) (killSwitch s) (blockPageIP s) (blockPageOn s) a r
    (cacheClears s) (purgedDirs s).
Definition clear_cache (s : Store) : Store :=
  MkStore (path_set s) (file s) (watcher s) (snapshot s) (killSwitch s) (blockPageIP s) (blockPageOn s) (dns_acl s)
    (acl_row s) (S (cacheClears s)) (purgedDirs s).
Definition purgeACMECache (dir : gostring) (s : Store) : Store :=
  if bytes_eqb dir [] then s else
  MkStore (path_set s) (file s) (watcher s) (snapshot s) (killSwitch s) (blockPageIP s) (blockPageOn s) (dns_acl s)
    (acl_row s) (cacheClears s) (purgedDirs s ++ [dir]).

Definition currentConfig (s : Store) : option Config :=
  match watcher s with Some w => Some (w_cfg w) | None => snapshot s end.

Definition mutableConfig (s : Store) : option Config := if path_set s then currentConfig s else None.

(** Copies with one section changed. *)
Definition with_upstreams (u : list gostring) (c : Config) : Config :=
  MkConfig (Telemetry c) (Server c) (Policy c) (Auth c) (LocalRecords c) (ConditionalForwarding c) (Forwarder c) u
    (Blocklists c) (Whitelist c) (Logging c) (Database c) (Cache c) (BlockPage c) (Unbound c) (UpdateInterval c)
    (AutoUpdateBlocklists c).
Definition with_cache (x : CacheConfig) (c : Config) : Config :=
  MkConfig (Telemetry c) (Server c) (Policy c) (Auth c) (LocalRecords c) (ConditionalForwarding c) (Forwarder c)
    (UpstreamDNSServers c) (Blocklists c) (Whitelist c) (Logging c) (Database c) x (BlockPage c) (Unbound c)
    (UpdateInterval c) (AutoUpdateBlocklists c).
Definition with_logging (l : LoggingConfig) (c : Config) : Config :=
  MkConfig (Telemetry c) (Server c) (Policy c) (Auth c) (LocalRecords c) (ConditionalForwarding c) (Forwarder c)
    (UpstreamDNSServers c) (Blocklists c) (Whitelist c) l (Database c) (Cache c) (BlockPage c) (Unbound c)
    (UpdateInterval c) (AutoUpdateBlocklists c).
Definition with_page (b : BlockPageConfig) (c : Config) : Config :=
  MkConfig (Telemetry c) (Server c) (Policy c) (Auth c) (LocalRecords c) (ConditionalForwarding c) (Forwarder c)
    (UpstreamDNSServers c) (Blocklists c) (Whitelist c) (Logging c) (Database c) (Cache c) b (Unbound c)
    (UpdateInterval c) (AutoUpdateBlocklists c).
Definition with_server_config (x : ServerConfig) (c : Config) : Config :=
  MkConfig (Telemetry c) x (Policy c) (Auth c) (LocalRecords c) (ConditionalForwarding c) (Forwarder c)
    (UpstreamDNSServers c) (Blocklists c) (Whitelist c) (Logging c) (Database c) (Cache c) (BlockPage c) (Unbound c)
    (UpdateInterval c) (AutoUpdateBlocklists c).
Definition with_tls (dot : bool) (addr : gostring) (t : TLSConfig) (x : ServerConfig) : ServerConfig :=
  MkServerConfig (ListenAddress x) (UDPListenAddress x) (TCPListenAddress x) (WebUIAddress x) (TCPEnabled x)
    (UDPEnabled x) (EnableBlocklist x) (EnablePolicies x) (DecisionTrace x) (CORSAllowedOrigins x) dot addr
    (AllowedClients x) (ProxyProtocol x) t (QueryLogger x) (TrustedProxies x).
Definition with_features (bl po : bool) (x : ServerConfig) : ServerConfig :=
  MkServerConfig (ListenAddress x) (UDPListenAddress x) (TCPListenAddress x) (WebUIAddress x) (TCPEnabled x)
    (UDPEnabled x) bl po (DecisionTrace x) (CORSAllowedOrigins x) (DotEnabled x) (DotAddress x)
    (AllowedClients x) (ProxyProtocol x) (TLS x) (QueryLogger x) (TrustedProxies x).

Section handlers.
Context {B : BcryptLib} {Y : YamlLib} {R : Rounding}.

(** The environment of the process; [ok]: the file can be written. *)
Context (e : Env).

(** [config.Save]: the new content, or nothing. *)
Definition Save (ok : bool) (c : Config) : option gostring :=
  data ← yaml_Marshal c; if ok then Some data else None.

Definition Reload (f : option gostring) (w : option Watcher) : option Watcher :=
  match w with Some w => Some (reload e f w).2 | None => None end.

(** No validation; the outcome of the reload is only logged. *)
Definition persistConfigSection (ok : bool) (updated : Config) (s : Store) : result Z Store :=
  if negb (path_set s) then Err 503
  else match Save ok updated with
       | None => Err 500
       | Some data => Ok (set_config (Some data) (Reload (Some data) (watcher s)) s)
       end.

(** The shape the settings handlers share: the live configuration, a parser, the
    change, and what happens once it is saved. *)
Definition update_section {P} (ok : bool) (parsed : Config -> option P) (change : P -> Config -> Config)
    (after : P -> Config -> Store -> Store) (s : Store) : Z * Store :=
  match mutableConfig s with
  | None => (503, s)
  | Some cfg =>
      match parsed cfg with
      | None => (400, s)
      | Some p =>
          match persistConfigSection ok (change p cfg) s with
          | Err code => (code, s)
          | Ok s' => (200, after p cfg s')
          end
      end
  end.

Definition handleUpdateUpstreams (ok : bool) (b : Body upstreamsRequest) : Store -> Z * Store :=
  update_section ok (fun _ => parseUpstreamServers b) with_upstreams (fun _ _ s => s).

Definition handleUpdateCache (ok : bool) (b : Body cacheRequest) : Store -> Z * Store :=
  update_section ok (fun cfg => parseCachePayload b (Cache cfg)) with_cache (fun _ _ s => s).

Definition handleUpdateLogging (ok : bool) (b : Body loggingRequest) : Store -> Z * Store :=
  update_section ok
    (fun cfg => l ← parseLoggingPayload b (Logging cfg);
                if bytes_eqb (FilePath l) [] || validateFilePath (FilePath l) then Some l else None)
    with_logging (fun _ _ s => s).

Definition handleUpdateTLS (ok : bool) (b : Body tlsRequest) : Store -> Z * Store :=
  update_section ok (fun cfg => parseTLSPayload b (Server cfg))
    (fun p cfg => with_server_config (with_tls p.1.1 p.1.2 p.2 (Server cfg)) cfg)
    (fun p cfg s => if acmeHostsChanged (acme_Hosts (ACME (TLS (Server cfg)))) (acme_Hosts (ACME p.2))
                    then purgeACMECache (acme_CacheDir (ACME p.2)) s else s).

Definition handleUpdateBlockPage (ok : bool) (b : option blockPageRequest) : Store -> Z * Store :=
  update_section ok (fun _ => b ← b; if block_page_ok b then Some (MkBlockPageConfig (br_Enabled b) (TrimSpace (br_BlockIP b))) else None)
    with_page
    (fun p _ s => let on := bp_Enabled p && negb (bytes_eqb (BlockIP p) []) in
                  set_page (if on then BlockIP p else []) on s).

(** [db_ok]: the row can be written. *)
Definition handleUpdateAllowedClients (db_ok : bool) (clients : option (list gostring)) (s : Store) : Z * Store :=
  match clients with
  | None => (400, s)
  | Some cs =>
      match validate_clients cs with
      | None => (400, s)
      | Some v =>
          match acl_row s with
          | Some _ => if db_ok then (200, set_acl (Update v <$> dns_acl s) (Some v) s) else (500, s)
          | None => (200, set_acl (Update v <$> dns_acl s) None s)
          end
      end
  end.

(** [handleUpdateFeatures]: the status, the flags it reports, and the store; a
    server without a watcher panics. *)
Definition handleUpdateFeatures (ok : bool) (req : option FeaturesRequest) (s : Store) : option (Z * (bool * bool) * Store) :=
  match req with
  | None => Some (400, (false, false), s)
  | Some q =>
      w ← watcher s;
      match Clone (w_cfg w) with
      | None => Some (500, (false, false), s)
      | Some cfg =>
          let bl := default (EnableBlocklist (Server cfg)) (fq_Blocklist q) in
          let po := default (EnablePolicies (Server cfg)) (fq_Policies q) in
          let toggled := negb (Bool.eqb bl (EnableBlocklist (Server cfg))) in
          match fq_Blocklist q, fq_Policies q with
          | None, None => Some (400, (false, false), s)
          | _, _ =>
              match Save ok (with_server_config (with_features bl po (Server cfg)) cfg) with
              | None => Some (500, (false, false), s)
              | Some data =>
                  let s := set_config (Some data) (Reload (Some data) (watcher s)) s in
                  Some (200, (bl, po), if toggled then clear_cache s else s)
              end
          end
      end
  end.

End handlers.

(** The temporary switches: a duration in seconds, zero for a year. *)
Definition switch_duration (d : Z) : Z := if d =? 0 then 365 * 24 * Hour else d * Second.

Definition handleDisableBlocklist (now : Z) (duration : option Z) (s : Store) : Z * Store :=
  match duration with
  | None => (400, s)
  | Some d => if (d <? 0) || (86400 <? d) then (400, s)
              else (200, clear_cache (set_switch (DisableBlocklistFor now (switch_duration d) (killSwitch s)).1 s))
  end.
Definition handleEnableBlocklist (now : Z) (s : Store) : Z * Store :=
  (200, clear_cache (set_switch (KillSwitch.EnableBlocklist now (killSwitch s)).1 s)).
Definition handleDisablePolicies (now : Z) (duration : option Z) (s : Store) : Z * Store :=
  match duration with
  | None => (400, s)
  | Some d => if (d <? 0) || (86400 <? d) then (400, s)
              else (200, set_switch (DisablePoliciesFor now (switch_duration d) (killSwitch s)).1 s)
  end.
Definition handleEnablePolicies (now : Z) (s : Store) : Z * Store :=
  (200, set_switch (KillSwitch.EnablePolicies now (killSwitch s)).1 s).

(** ** What an update leaves behind *)

Section outcome.
Context {B : BcryptLib} {BO : BcryptLibOk B} {Y : YamlLib} {R : Rounding} (e : Env).

(** YAML reads back what it wrote for this configuration. *)
Definition survives (c : Config) : Prop := exists data, yaml_Marshal c = Some data /\ yaml_Unmarshal data = Some c.

Lemma Load_spec data c :
  yaml_Unmarshal data = Some c ->
  (valid (effective e c) -> Load e (Some data) = Ok (validated (effective e c))) /\
  (~ valid (effective e c) -> exists err, Load e (Some data) = Err (ValidationFailed err)).
Proof using BO.
  intros E. unfold Load. rewrite E. fold (effective e c). destruct (Validate_spec (effective e c)) as [Hv Hc].
  destruct (Validate (effective e c)) as [[[]|err] c']; cbn [fst snd] in *.
  - split; [intros _; by rewrite Hc|]. intros H. exfalso. by apply H, Hv.
  - split; [|by eexists]. intros H. by apply Hv in H.
Qed.

(** A live configuration behind a watcher, in a deployment with a file. *)
Record live (s : Store) (c : Config) : Prop := MkLive {
  live_path : path_set s = true;
  live_watcher : exists w, watcher s = Some w /\ w_cfg w = c }.

Lemma live_current s c : live s c -> mutableConfig s = Some c.
Proof. intros [Hp (w & Hw & Hc)]. unfold mutableConfig, currentConfig. by rewrite Hp, Hw, Hc. Qed.

Lemma persist_spec c s updated :
  live s c -> survives updated ->
  exists s', persistConfigSection e true updated s = Ok s' /\
    yaml_Marshal updated = file s' /\ dns_acl s' = dns_acl s /\
    (valid (effective e updated) -> live s' (validated (effective e updated))) /\
    (~ valid (effective e updated) -> live s' c /\ exists err, Load e (file s') = Err (ValidationFailed err)).
Proof using BO.
  intros [Hp (w & Hw & Hc)] (data & Hm & Hu). destruct (Load_spec data updated Hu) as [Hok Herr].
  unfold persistConfigSection, Save. rewrite Hp, Hm. cbn [negb mbind option_bind].
  eexists. split; [done|]. split; [done|]. split; [done|]. unfold Reload. rewrite Hw. unfold reload. split.
  - intros Hv. rewrite (Hok Hv). split; [done|]. by eexists.
  - intros Hv. destruct (Herr Hv) as [err E]. rewrite E. split; [|by exists err]. split; [done|]. by eexists.
Qed.

Lemma section_reloads {P} (parsed : Config -> option P) change after s c p :
  live s c -> parsed c = Some p -> survives (change p c) -> valid (effective e (change p c)) ->
  (forall p c s, mutableConfig (after p c s) = mutableConfig s) ->
  exists s', update_section e true parsed change after s = (200, s') /\
    mutableConfig s' = Some (validated (effective e (change p c))).
Proof using BO.
  intros Hl Hp Hs Hv Ha. unfold update_section. rewrite (live_current s c Hl), Hp.
  destruct (persist_spec c s _ Hl Hs) as (s' & -> & _ & _ & Hok & _). eexists. split; [done|].
  rewrite Ha. by apply live_current, Hok.
Qed.

Lemma parse_upstreams_nonempty b us : parseUpstreamServers b = Some us -> us <> [].
Proof.
  unfold parseUpstreamServers. destruct (match b with JSON x => x | FormData f => _ end) as [req|]; [|done].
  cbn [mbind option_bind]. destruct (_ ++ _); [done|]. destruct (upstream_loop [] _) as [[|]|]; [done| |done].
  by intros [= <-].
Qed.

Lemma duration_positive v d : parseDurationField v = Some d -> 0 < d.
Proof.
  unfold parseDurationField. destruct (bytes_eqb _ _); [done|]. destruct (ParseDuration _) as [x|]; [|done].
  cbn [mbind option_bind]. destruct (Z.leb_spec x 0); [done|]. by intros [= <-].
Qed.

Lemma parse_cache_positive b cur p :
  parseCachePayload b cur = Some p ->
  0 < ca_MaxEntries p /\ 0 < ca_MinTTL p <= ca_MaxTTL p /\ 0 < ca_NegativeTTL p /\ 0 < ca_BlockedTTL p.
Proof.
  unfold parseCachePayload. destruct (cache_request b) as [req|]; [|done]. cbn [mbind option_bind].
  destruct (cr_MaxEntries req) as [n|]; [|done]. cbn [mbind option_bind]. destruct (Z.leb_spec n 0); [done|].
  destruct (parseDurationField (cr_MinTTL req)) as [a|] eqn:Ea; [|done]. cbn [mbind option_bind].
  destruct (parseDurationField (cr_MaxTTL req)) as [x|] eqn:Ex; [|done]. cbn [mbind option_bind].
  destruct (Z.ltb_spec x a); [done|].
  destruct (parseDurationField (cr_NegativeTTL req)) as [g|] eqn:Eg; [|done]. cbn [mbind option_bind].
  destruct (parseDurationField (cr_BlockedTTL req)) as [k|] eqn:Ek; [|done]. cbn [mbind option_bind].
  destruct (cr_ShardCount req) as [sc|]; [|done]. cbn [mbind option_bind]. destruct (sc <? 0); [done|].
  intros [= <-]. cbn. apply duration_positive in Ea, Ex, Eg, Ek. lia.
Qed.

Lemma parse_logging_valid b cur l :
  parseLoggingPayload b cur = Some l -> logging_valid l /\ 0 < MaxSize l.
Proof.
  unfold parseLoggingPayload. destruct (logging_request b) as [req|]; [|done]. cbn [mbind option_bind].
  destruct (lg_MaxSize req) as [n|]; [|done]. cbn [mbind option_bind].
  destruct (lg_MaxBackups req) as [k|]; [|done]. cbn [mbind option_bind].
  destruct (lg_MaxAge req) as [g|]; [|done]. cbn [mbind option_bind].
  destruct (_ && _) eqn:E; [|done]. intros [= <-]. rewrite !andb_true_iff in E.
  destruct E as ((((((Hn & Hl) & Hf) & Ho) & Hp) & _) & _). apply Z.ltb_lt in Hn.
  rewrite !one_of_spec in Hl, Hf, Ho. cbn [MaxSize]. split; [|done].
  unfold logging_valid. cbn [Level Format Output FilePath]. cbn [fmap list_fmap] in *. split_and!; try done.
  intros Eo Ep. by rewrite Eo, Ep in Hp.
Qed.

Lemma or_int_pos n d : 0 < n -> or_int n d = n.
Proof. intros H. unfold or_int. by rewrite (proj2 (Z.eqb_neq n 0)) by lia. Qed.

Lemma logging_defaults_valid l :
  logging_valid l -> 0 < MaxSize l ->
  logging_defaults l = MkLoggingConfig (Level l) (Format l) (Output l) (FilePath l) (AddSource l) (MaxSize l)
    (or_int (MaxBackups l) 3) (or_int (MaxAge l) 7).
Proof.
  intros (Hl & Hf & Ho & _) Hs. unfold logging_defaults. rewrite (or_int_pos _ _ Hs).
  assert (forall (s : gostring) (l : list gostring) (d : gostring), s ∈ l -> [] ∉ l -> or_str s d = s) as Hne.
  { by intros [|c s] l' d Hin Hn. }
  rewrite (Hne _ _ _ Hl), (Hne _ _ _ Hf), (Hne _ _ _ Ho); [done|..];
    by rewrite !not_elem_of_cons, elem_of_nil; naive_solver.
Qed.

(** An upstream list that was accepted is what the reloaded configuration has. *)
Lemma upstreams_in_force s c b us :
  live s c -> valid (effective e c) -> parseUpstreamServers b = Some us -> survives (with_upstreams us c) ->
  exists s' c', handleUpdateUpstreams e true b s = (200, s') /\ mutableConfig s' = Some c' /\ UpstreamDNSServers c' = us.
Proof using BO.
  intros Hl Hc Hp Hs. pose proof (parse_upstreams_nonempty b us Hp) as Hne.
  destruct (section_reloads (fun _ => parseUpstreamServers b) with_upstreams (fun _ _ s => s) s c us) as (s' & E & Hm); try done.
  { destruct Hc as (?&?&?&?&?&?&?). split_and!; try done. cbn. by destruct us. }
  exists s'. eexists. split_and!; [exact E|exact Hm|]. cbn. by destruct us.
Qed.

(** The cache settings: what is accepted is positive, so no default applies. *)
Lemma cache_in_force s c b p :
  live s c -> valid (effective e c) -> parseCachePayload b (Cache c) = Some p -> survives (with_cache p c) ->
  exists s' c', handleUpdateCache e true b s = (200, s') /\ mutableConfig s' = Some c' /\ Cache c' = p.
Proof using BO.
  intros Hl Hc Hp Hs. pose proof (parse_cache_positive b _ p Hp) as (H1 & H2 & H3 & H4).
  destruct (section_reloads (fun cfg => parseCachePayload b (Cache cfg)) with_cache (fun _ _ s => s) s c p) as (s' & E & Hm); try done.
  exists s'. eexists. split_and!; [exact E|exact Hm|]. cbn. unfold cache_defaults.
  rewrite !or_int_pos by lia. by destruct p.
Qed.

(** The logging settings: a limit of zero becomes its default. *)
Lemma logging_in_force s c b l :
  live s c -> valid (effective e c) -> parseLoggingPayload b (Logging c) = Some l ->
  FilePath l = [] \/ validateFilePath (FilePath l) = true -> survives (with_logging l c) ->
  exists s' c', handleUpdateLogging e true b s = (200, s') /\ mutableConfig s' = Some c' /\
    Logging c' = MkLoggingConfig (Level l) (Format l) (Output l) (FilePath l) (AddSource l) (MaxSize l)
                   (or_int (MaxBackups l) 3) (or_int (MaxAge l) 7).
Proof using BO.
  intros Hl Hc Hp Hf Hs. pose proof (parse_logging_valid b _ l Hp) as [Hv Hz].
  destruct (section_reloads (fun cfg => l ← parseLoggingPayload b (Logging cfg);
    if bytes_eqb (FilePath l) [] || validateFilePath (FilePath l) then Some l else None) with_logging (fun _ _ s => s) s c l)
    as (s' & E & Hm); try done.
  { rewrite Hp. cbn [mbind option_bind]. destruct Hf as [-> | ->]; [done|]. by rewrite orb_true_r. }
  { destruct Hc as (?&?&?&?&_&?&?). split_and!; try done. cbn. rewrite logging_defaults_valid by done. done. }
  exists s'. eexists. split_and!; [exact E|exact Hm|]. cbn. by rewrite logging_defaults_valid.
Qed.

(** The block page: the configuration and the address that the handler gives. *)
Lemma page_in_force s c b :
  live s c -> valid (effective e c) -> block_page_ok b = true ->
  let p := MkBlockPageConfig (br_Enabled b) (TrimSpace (br_BlockIP b)) in survives (with_page p c) ->
  exists s' c', handleUpdateBlockPage e true (Some b) s = (200, s') /\ mutableConfig s' = Some c' /\
    BlockPage c' = p /\ blockPageIP s' = if br_Enabled b then TrimSpace (br_BlockIP b) else [].
Proof using BO.
  intros Hl Hc Hb p Hs. unfold handleUpdateBlockPage, update_section. rewrite (live_current s c Hl).
  cbn [mbind option_bind]. rewrite Hb. fold p.
  destruct (persist_spec c s (with_page p c) Hl Hs) as (s1 & -> & _ & _ & Hok & _).
  assert (live s1 (validated (effective e (with_page p c)))) as Hl1 by by apply Hok.
  eexists _, (validated (effective e (with_page p c))). split_and!; [done| |done|].
  - unfold mutableConfig, currentConfig. cbn [path_set watcher set_page]. apply (live_current _ _ Hl1).
  - cbn. unfold block_page_ok, nonblank in Hb. destruct (br_Enabled b); [|done]. cbn in Hb |- *.
    by destruct (bytes_eqb (TrimSpace (br_BlockIP b)) []).
Qed.

(** The TLS settings are saved before anything validates them: when the result is
    valid it is in force, its empty fields at their defaults, and when it is not,
    the live configuration stays and the file is one that [Load] refuses. *)
Lemma tls_in_force s c b p :
  live s c -> parseTLSPayload b (Server c) = Some p ->
  let u := with_server_config (with_tls p.1.1 p.1.2 p.2 (Server c)) c in survives u ->
  exists s', handleUpdateTLS e true b s = (200, s') /\
    (valid (effective e u) -> exists c', mutableConfig s' = Some c' /\ DotEnabled (Server c') = p.1.1 /\
       DotAddress (Server c') = or_str p.1.2 (str ":853") /\
       TLS (Server c') = tls_defaults (UpstreamDNSServers c) p.2) /\
    (~ valid (effective e u) -> mutableConfig s' = Some c /\ exists err, Load e (file s') = Err (ValidationFailed err)).
Proof using BO.
  intros Hl Hp u Hs. unfold handleUpdateTLS, update_section. rewrite (live_current s c Hl), Hp. fold u.
  destruct (persist_spec c s u Hl Hs) as (s1 & -> & _ & _ & Hok & Hbad). eexists. split; [done|].
  assert (forall b : bool, let s2 := if b then purgeACMECache (acme_CacheDir (ACME p.2)) s1 else s1 in
    mutableConfig s2 = mutableConfig s1 /\ file s2 = file s1) as Hpurge.
  { intros []; [unfold purgeACMECache; by destruct (bytes_eqb _ _)|done]. }
  destruct (Hpurge (acmeHostsChanged (acme_Hosts (ACME (TLS (Server c)))) (acme_Hosts (ACME p.2)))) as [-> ->].
  split; intros Hv.
  - exists (validated (effective e u)). split; [by apply live_current, Hok|]. done.
  - destruct (Hbad Hv) as [Hl1 Herr]. split; [by apply live_current|done].
Qed.

(** The TLS settings are saved without validation.  Switching DNS-over-TLS on
    without a certificate, autocert or ACME is answered 200; the live
    configuration stays as it was, and the file that was written is one that
    [Load] refuses, so the next start of the program fails. *)
Theorem tls_put_unchecked (s : Store) (c : Config) (b : Body tlsRequest) (req : tlsRequest)
    (Hl : live s c) (Hb : b = JSON (Some req)) (Hreq : req = MkTlsRequest (Some true) [] [] [] None None)
    (Hcert : blank (CertFile (TLS (Server c))) = true) (Hkey : blank (KeyFile (TLS (Server c))) = true)
    (Hac : ac_Enabled (Autocert (TLS (Server c))) = false) (Hacme : acme_Enabled (ACME (TLS (Server c))) = false)
    (Hs : survives (with_server_config (with_tls true (DotAddress (Server c)) (TLS (Server c)) (Server c)) c)) :
  exists s' err, handleUpdateTLS e true b s = (200, s') /\ currentConfig s' = currentConfig s /\
    Load e (file s') = Err (ValidationFailed err).
Proof using BO.
  subst b req. unfold handleUpdateTLS, update_section. rewrite (live_current s c Hl).
  set (updated := with_server_config _ c) in Hs.
  assert (parseTLSPayload (JSON (Some (MkTlsRequest (Some true) [] [] [] None None))) (Server c) =
    Some (true, DotAddress (Server c), TLS (Server c))) as ->.
  { unfold parseTLSPayload. cbn. by destruct (TLS (Server c)). }
  cbn [fst snd]. fold updated. destruct (persist_spec c s updated Hl Hs) as (s1 & -> & _ & _ & _ & Hbad).
  destruct Hbad as [Hl1 [err E]].
  { intros (_ & _ & Ht & _). cbn in Ht. destruct (Ht eq_refl) as (_ & _ & _ & Hsrc & _). cbn in Hsrc.
    rewrite Hac, Hacme, Hcert, Hkey in Hsrc. destruct Hsrc as [H|[H|H]]; [by apply H|done|done]. }
  assert (acmeHostsChanged (acme_Hosts (ACME (TLS (Server c)))) (acme_Hosts (ACME (TLS (Server c)))) = false) as ->.
  { unfold acmeHostsChanged. rewrite Nat.eqb_refl. by rewrite bool_decide_eq_true_2. }
  exists s1, err. split; [done|]. split; [|done]. unfold currentConfig.
  destruct Hl as [_ (w & -> & Hw)], Hl1 as [_ (w1 & -> & Hw1)]. congruence.
Qed.

(** The two switches of PUT /api/features are in force as reported, unless
    both are off: that is answered as done and undone by the reload, which turns
    both on.  In particular, switching the blocklist off while the policies are
    off switches the policies on. *)
Theorem features_put (s : Store) (c cfg : Config) (q : FeaturesRequest) (bl po : bool) (Hl : live s c)
    (Hq : fq_Blocklist q <> None \/ fq_Policies q <> None) (Hclone : Clone c = Some cfg)
    (Hbl : bl = default (EnableBlocklist (Server cfg)) (fq_Blocklist q))
    (Hpo : po = default (EnablePolicies (Server cfg)) (fq_Policies q))
    (Hv : valid (effective e (with_server_config (with_features bl po (Server cfg)) cfg)))
    (Hs : survives (with_server_config (with_features bl po (Server cfg)) cfg)) :
  exists s' c', handleUpdateFeatures e true (Some q) s = Some (200, (bl, po), s') /\ currentConfig s' = Some c' /\
    (EnableBlocklist (Server c'), EnablePolicies (Server c')) = if bl || po then (bl, po) else (true, true).
Proof using BO.
  destruct Hl as [_ (w & Hw & Hwc)]. unfold handleUpdateFeatures. rewrite Hw. cbn [mbind option_bind].
  rewrite Hwc, Hclone. rewrite <- Hbl, <- Hpo. destruct Hs as (data & Hm & Hu). unfold Save. rewrite Hm. cbn [mbind option_bind].
  destruct (Load_spec data _ Hu) as [Hok _]. specialize (Hok Hv).
  set (s1 := set_config _ _ s).
  assert (currentConfig s1 = Some (validated (effective e (with_server_config (with_features bl po (Server cfg)) cfg)))) as Hc1.
  { subst s1. unfold currentConfig. cbn [watcher set_config]. unfold Reload, reload. by rewrite Hok. }
  exists (if negb (Bool.eqb bl (EnableBlocklist (Server cfg))) then clear_cache s1 else s1). eexists. split_and!.
  - destruct (fq_Blocklist q), (fq_Policies q); try done. by destruct Hq.
  - destruct (negb _); exact Hc1.
  - cbn. by destruct bl, po.
Qed.

(** C22: What a settings request that its parser accepts puts in force, when the
    file can be written and YAML reads back what it wrote.  Upstreams, cache,
    logging and block page: the handler answers 200 and the live configuration
    has exactly the settings of the request (a logging limit of zero becomes the
    default of three backups or seven days).  TLS: the handler answers 200; if
    the outcome is valid its settings are live (a blank field at its default),
    and if not the live configuration is unchanged and the file no longer loads.
    Features: the two switches are as asked, except that both off turns both on. *)
Theorem settings_in_force (s : Store) (c : Config) (Hl : live s c) (Hc : valid (effective e c)) :
  (forall b us, parseUpstreamServers b = Some us -> survives (with_upstreams us c) ->
     exists s' c', handleUpdateUpstreams e true b s = (200, s') /\ mutableConfig s' = Some c' /\
       UpstreamDNSServers c' = us) /\
  (forall b p, parseCachePayload b (Cache c) = Some p -> survives (with_cache p c) ->
     exists s' c', handleUpdateCache e true b s = (200, s') /\ mutableConfig s' = Some c' /\ Cache c' = p) /\
  (forall b l, parseLoggingPayload b (Logging c) = Some l -> FilePath l = [] \/ validateFilePath (FilePath l) = true ->
     survives (with_logging l c) ->
     exists s' c', handleUpdateLogging e true b s = (200, s') /\ mutableConfig s' = Some c' /\
       Logging c' = MkLoggingConfig (Level l) (Format l) (Output l) (FilePath l) (AddSource l) (MaxSize l)
                      (or_int (MaxBackups l) 3) (or_int (MaxAge l) 7)) /\
  (forall b, block_page_ok b = true ->
     let p := MkBlockPageConfig (br_Enabled b) (TrimSpace (br_BlockIP b)) in survives (with_page p c) ->
     exists s' c', handleUpdateBlockPage e true (Some b) s = (200, s') /\ mutableConfig s' = Some c' /\
       BlockPage c' = p /\ blockPageIP s' = if br_Enabled b then TrimSpace (br_BlockIP b) else []) /\
  (forall b p, parseTLSPayload b (Server c) = Some p ->
     let u := with_server_config (with_tls p.1.1 p.1.2 p.2 (Server c)) c in survives u ->
     exists s', handleUpdateTLS e true b s = (200, s') /\
       (valid (effective e u) -> exists c', mutableConfig s' = Some c' /\ DotEnabled (Server c') = p.1.1 /\
          DotAddress (Server c') = or_str p.1.2 (str ":853") /\
          TLS (Server c') = tls_defaults (UpstreamDNSServers c) p.2) /\
       (~ valid (effective e u) -> mutableConfig s' = Some c /\
          exists err, Load e (file s') = Err (ValidationFailed err))) /\
  (forall q cfg, fq_Blocklist q <> None \/ fq_Policies q <> None -> Clone c = Some cfg ->
     let bl := default (EnableBlocklist (Server cfg)) (fq_Blocklist q) in
     let po := default (EnablePolicies (Server cfg)) (fq_Policies q) in
     let u := with_server_config (with_features bl po (Server cfg)) cfg in
     valid (effective e u) -> survives u ->
     exists s' c', handleUpdateFeatures e true (Some q) s = Some (200, (bl, po), s') /\ currentConfig s' = Some c' /\
       (EnableBlocklist (Server c'), EnablePolicies (Server c')) = if bl || po then (bl, po) else (true, true)).
Proof using BO.
  split_and!; intros.
  - by apply (upstreams_in_force s c).
  - by apply (cache_in_force s c).
  - by apply (logging_in_force s c).
  - by apply (page_in_force s c).
  - by apply (tls_in_force s c).
  - by apply (features_put s c cfg).
Qed.

End outcome.

(** ** Witnesses *)

Section witnesses.

(** The default configuration, and a server that runs with it. *)
Definition sample_config : Config := @effective table_bcrypt no_env (@effective table_bcrypt no_env zero_Config).
Definition sample_store : Store :=
  MkStore true (Some []) (Some (MkWatcher sample_config [])) None NewKillSwitchManager [] false None None 0 [].

Lemma sample_live : live sample_store sample_config.
Proof. split; [done|]. by eexists. Qed.

Lemma valid_by_validate c : (@Validate table_bcrypt c).1 = Ok tt -> valid c.
Proof. apply (Validate_spec (BO := table_bcrypt_ok)). Qed.

Lemma const_survives c : @survives (const_yaml c) c.
Proof. by exists []. Qed.

Lemma settings_in_force_witness :
  let b := JSON (Some (MkUpstreamsRequest [str "9.9.9.9:53"] (str "1.1.1.1:53, 9.9.9.9:53"))) in
  let us := [str "9.9.9.9:53"; str "1.1.1.1:53"] in
  exists s' c',
    @handleUpdateUpstreams table_bcrypt (const_yaml (with_upstreams us sample_config)) no_env true b sample_store = (200, s') /\
    mutableConfig s' = Some c' /\ UpstreamDNSServers c' = us.
Proof.
  intros b us.
  apply (@settings_in_force table_bcrypt table_bcrypt_ok (const_yaml (with_upstreams us sample_config)) exact_rounding no_env
    sample_store sample_config sample_live).
  - apply valid_by_validate. vm_compute. reflexivity.
  - vm_compute. reflexivity.
  - apply const_survives.
Defined.

Lemma tls_put_unchecked_witness :
  let c := sample_config in
  let updated := with_server_config (with_tls true (DotAddress (Server c)) (TLS (Server c)) (Server c)) c in
  exists s' err,
    @handleUpdateTLS table_bcrypt (const_yaml updated) exact_rounding no_env true
      (JSON (Some (MkTlsRequest (Some true) [] [] [] None None))) sample_store = (200, s') /\
    currentConfig s' = currentConfig sample_store /\
    @Load table_bcrypt (const_yaml updated) no_env (file s') = Err (ValidationFailed err).
Proof.
  intros c updated.
  apply (@tls_put_unchecked table_bcrypt table_bcrypt_ok (const_yaml updated) exact_rounding no_env sample_store c _
    (MkTlsRequest (Some true) [] [] [] None None) sample_live); try reflexivity.
  apply const_survives.
Defined.

(** A YAML of two configurations that differ in the switches. *)
Definition switch_yaml (on off : Config) : YamlLib := {|
  yaml_Unmarshal s := if bool_decide (s = []) then Some on else Some off;
  yaml_Marshal c := Some (if EnableBlocklist (Server c) then [] else str "off") |}.

Lemma features_put_witness :
  let off := with_server_config (with_features false false (Server sample_config)) sample_config in
  exists s' c',
    @handleUpdateFeatures table_bcrypt (switch_yaml sample_config off) no_env true
      (Some (MkFeaturesRequest (Some false) (Some false))) sample_store = Some (200, (false, false), s') /\
    currentConfig s' = Some c' /\ (EnableBlocklist (Server c'), EnablePolicies (Server c')) = (true, true).
Proof.
  intros off.
  apply (@features_put table_bcrypt table_bcrypt_ok (switch_yaml sample_config off) no_env sample_store sample_config
    sample_config (MkFeaturesRequest (Some false) (Some false)) false false sample_live).
  - left. discriminate.
  - vm_compute. reflexivity.
  - reflexivity.
  - reflexivity.
  - apply valid_by_validate. vm_compute. reflexivity.
  - exists (str "off"). split; vm_compute; reflexivity.
Defined.

End witnesses.
