(* ===== verification/RecordsLoad.v ===== *)
(** * Local records from the configuration (pkg/api/handlers_localrecords.go, cmd/glory-hole/main.go)

    Three pieces of code turn the configured entries into the records of
    LocalRecords.v: the start of the program, its callback for a changed file,
    and the API after it has saved an edit.  The first two agree entry by entry;
    the third copies fewer fields. *)

From Stdlib Require Import Ascii.
From S2P Require Import Prelude GoStrings GoStrconv GoNet KillSwitch Config ConfigUpdate LocalRecords.
From stdpp Require Import options.
Local Open Scope Z_scope.

(** ** The start of the program *)

(** A pointer to an integer with a default. *)
Definition deref (d : Z) (p : option Z) : Z := default d p.

(** The loops over the address texts: what does not parse, or is of the other
    family, is skipped. *)
Definition ips_v4 (texts : list gostring) : list IP := omap (fun s => ip ← ParseIP s; To4 ip) texts.
Definition ips_v6 (texts : list gostring) : list IP :=
  omap (fun s => ip ← ParseIP s; match To4 ip with Some _ => None | None => Some (default [] (To16 ip)) end) texts.

(** [record.IPs = ips] when there is more than one. *)
Definition all_ips (ips : list IP) (r : LocalRecord) : LocalRecord :=
  if (1 <? length ips)%nat then with_data ips (TxtRecords r) (CaaTag r) (CaaValue r) (CaaFlag r) r else r.

(** [record.TTL], when the entry has one, and [record.Wildcard]. *)
Definition with_common (e : LocalRecordEntry) (r : LocalRecord) : LocalRecord :=
  MkLocalRecord (Domain r) (Type_ r) (Target r) (Ns r) (Mbox r) (CaaTag r) (CaaValue r) (IPs r)
    (TxtRecords r) (Serial r) (if 0 <? le_TTL e then le_TTL e else TTL r) (Refresh r) (Retry r) (Expire r) (Minttl r)
    (Priority r) (Weight r) (Port r) (CaaFlag r) (le_Wildcard e) (Enabled r).

(** The switch over [entry.Type]; [None] is its [continue]. *)
Definition startup_record (e : LocalRecordEntry) : option LocalRecord :=
  let ty t := bytes_eqb (le_Type e) (str t) in
  if ty "A" then
    if bool_decide (le_IPs e = []) then None
    else let ips := ips_v4 (le_IPs e) in
         match ips with [] => None | ip :: _ => Some (all_ips ips (NewARecord (le_Domain e) ip)) end
  else if ty "AAAA" then
    if bool_decide (le_IPs e = []) then None
    else let ips := ips_v6 (le_IPs e) in
         match ips with [] => None | ip :: _ => Some (all_ips ips (NewAAAARecord (le_Domain e) ip)) end
  else if ty "CNAME" then
    if empty (le_Target e) then None else Some (NewCNAMERecord (le_Domain e) (le_Target e))
  else if ty "TXT" then
    if bool_decide (le_TxtRecords e = []) then None else Some (NewTXTRecord (le_Domain e) (le_TxtRecords e))
  else if ty "MX" then
    if empty (le_Target e) then None
    else Some (NewMXRecord (le_Domain e) (le_Target e) (deref 10 (le_Priority e)))
  else if ty "PTR" then
    if empty (le_Target e) then None else Some (NewPTRRecord (le_Domain e) (le_Target e))
  else if ty "SRV" then
    if empty (le_Target e) then None
    else match le_Port e with
         | None => None
         | Some port =>
             if port =? 0 then None
             else Some (NewSRVRecord (le_Domain e) (le_Target e) (deref 0 (le_Priority e)) (deref 0 (le_Weight e)) port)
         end
  else if ty "NS" then
    if empty (le_Target e) then None else Some (NewNSRecord (le_Domain e) (le_Target e))
  else if ty "SOA" then
    if empty (le_Ns e) || empty (le_Mbox e) then None
    else Some (NewSOARecord (le_Domain e) (le_Ns e) (le_Mbox e) (deref 1 (le_Serial e)) (deref 3600 (le_Refresh e))
                 (deref 600 (le_Retry e)) (deref 86400 (le_Expire e)) (deref 300 (le_Minttl e)))
  else if ty "CAA" then
    if empty (le_CaaTag e) || empty (le_CaaValue e) then None
    else Some (NewCAARecord (le_Domain e) (le_CaaTag e) (le_CaaValue e) (deref 0 (le_CaaFlag e)))
  else None.

(** One iteration; a record that the manager refuses is only logged. *)
Definition startup_step (m : Manager) (e : LocalRecordEntry) : Manager :=
  match startup_record e with
  | None => m
  | Some r => (AddRecord (with_common e r) m).1
  end.

(** What the DNS handler gets; [None] is nil. *)
Definition startup_records (c : LocalRecordsConfig) : option Manager :=
  if lr_Enabled c && (0 <? length (lr_Records c))%nat
  then Some (foldl startup_step NewManager (lr_Records c)) else None.

(** ** The callback for a changed file *)

Definition equalStringSlice (a b : list gostring) : bool :=
  (length a =? length b)%nat && forallb (fun p => bytes_eqb p.1 p.2) (zip a b).

Definition equal_entry (a b : LocalRecordEntry) : bool :=
  bytes_eqb (le_Domain a) (le_Domain b) && bytes_eqb (le_Type a) (le_Type b) &&
  bytes_eqb (le_Target a) (le_Target b) && (le_TTL a =? le_TTL b) && Bool.eqb (le_Wildcard a) (le_Wildcard b) &&
  equalStringSlice (le_IPs a) (le_IPs b).

Definition equalLocalRecordsConfig (a b : LocalRecordsConfig) : bool :=
  Bool.eqb (lr_Enabled a) (lr_Enabled b) && (length (lr_Records a) =? length (lr_Records b))%nat &&
  forallb (fun p => equal_entry p.1 p.2) (zip (lr_Records a) (lr_Records b)).

(** The switch of the callback, where an empty field leaves the record nil; the
    two address cases go on to the next entry. *)
Definition hot_record (e : LocalRecordEntry) : option LocalRecord :=
  let ty t := bytes_eqb (le_Type e) (str t) in
  if ty "A" then
    if bool_decide (le_IPs e = []) then None
    else let ips := ips_v4 (le_IPs e) in
         match ips with ip :: _ => Some (all_ips ips (NewARecord (le_Domain e) ip)) | [] => None end
  else if ty "AAAA" then
    if bool_decide (le_IPs e = []) then None
    else let ips := ips_v6 (le_IPs e) in
         match ips with ip :: _ => Some (all_ips ips (NewAAAARecord (le_Domain e) ip)) | [] => None end
  else if ty "CNAME" then
    if negb (empty (le_Target e)) then Some (NewCNAMERecord (le_Domain e) (le_Target e)) else None
  else if ty "TXT" then
    if (0 <? length (le_TxtRecords e))%nat then Some (NewTXTRecord (le_Domain e) (le_TxtRecords e)) else None
  else if ty "MX" then
    if negb (empty (le_Target e))
    then Some (NewMXRecord (le_Domain e) (le_Target e) (deref 10 (le_Priority e))) else None
  else if ty "PTR" then
    if negb (empty (le_Target e)) then Some (NewPTRRecord (le_Domain e) (le_Target e)) else None
  else if ty "SRV" then
    match le_Port e with
    | Some port =>
        if negb (empty (le_Target e)) && negb (port =? 0)
        then Some (NewSRVRecord (le_Domain e) (le_Target e) (deref 0 (le_Priority e)) (deref 0 (le_Weight e)) port)
        else None
    | None => None
    end
  else if ty "NS" then
    if negb (empty (le_Target e)) then Some (NewNSRecord (le_Domain e) (le_Target e)) else None
  else if ty "SOA" then
    if negb (empty (le_Ns e)) && negb (empty (le_Mbox e))
    then Some (NewSOARecord (le_Domain e) (le_Ns e) (le_Mbox e) (deref 1 (le_Serial e)) (deref 3600 (le_Refresh e))
                 (deref 600 (le_Retry e)) (deref 86400 (le_Expire e)) (deref 300 (le_Minttl e)))
    else None
  else if ty "CAA" then
    if negb (empty (le_CaaTag e)) && negb (empty (le_CaaValue e))
    then Some (NewCAARecord (le_Domain e) (le_CaaTag e) (le_CaaValue e) (deref 0 (le_CaaFlag e)))
    else None
  else None.

Definition hot_step (m : Manager) (e : LocalRecordEntry) : Manager :=
  match hot_record e with Some r => (AddRecord (with_common e r) m).1 | None => m end.

(** The variable [cfg] of the callback and what the handler has. *)
Record MainState := MkMain { main_cfg : LocalRecordsConfig; installed : option Manager }.

Definition start (c : LocalRecordsConfig) : MainState := MkMain c (startup_records c).

Definition on_change (st : MainState) (newCfg : LocalRecordsConfig) : MainState :=
  MkMain newCfg
    (if negb (equalLocalRecordsConfig (main_cfg st) newCfg)
     then if lr_Enabled newCfg && (0 <? length (lr_Records newCfg))%nat
          then Some (foldl hot_step NewManager (lr_Records newCfg)) else None
     else installed st).

(** ** The API *)

(** The conversion [RecordType(s)], a string type in the code. *)
Definition RecordType_of (s : gostring) : RecordType :=
  let ty t := bytes_eqb s (str t) in
  if ty "A" then RecordTypeA else if ty "AAAA" then RecordTypeAAAA else if ty "CNAME" then RecordTypeCNAME
  else if ty "MX" then RecordTypeMX else if ty "TXT" then RecordTypeTXT else if ty "SRV" then RecordTypeSRV
  else if ty "PTR" then RecordTypePTR else if ty "NS" then RecordTypeNS else if ty "SOA" then RecordTypeSOA
  else if ty "CAA" then RecordTypeCAA else RecordTypeOther s.

Record LocalRecordResponse := MkRecordResponse {
  rs_ID : gostring; rs_Domain : gostring; rs_Type : gostring; rs_Target : gostring; rs_IPs : list gostring;
  rs_TxtRecords : list gostring; rs_TTL : Z; rs_Priority : option Z; rs_Weight : option Z; rs_Port : option Z;
  rs_Wildcard : bool; rs_Enabled : bool }.

Record LocalRecordAddRequest := MkAddRequest {
  aq_Domain : gostring; aq_Type : gostring; aq_Target : gostring; aq_IPs : list gostring;
  aq_TxtRecords : list gostring; aq_TTL : Z; aq_Priority : option Z; aq_Weight : option Z; aq_Port : option Z;
  aq_Wildcard : bool }.

Definition with_priority (p : option Z) (q : LocalRecordAddRequest) : LocalRecordAddRequest :=
  MkAddRequest (aq_Domain q) (aq_Type q) (aq_Target q) (aq_IPs q) (aq_TxtRecords q) (aq_TTL q) p (aq_Weight q)
    (aq_Port q) (aq_Wildcard q).

(** The switch over the upper-cased type: the request with its defaults, or a
    refusal. *)
Definition check_request (q : LocalRecordAddRequest) : option LocalRecordAddRequest :=
  let ty t := bytes_eqb (ToUpper (aq_Type q)) (str t) in
  if ty "A" || ty "AAAA" then
    if bool_decide (aq_IPs q = []) then None
    else if forallb (fun s => bool_decide (is_Some (ParseIP s))) (aq_IPs q) then Some q else None
  else if ty "CNAME" || ty "PTR" then if empty (aq_Target q) then None else Some q
  else if ty "MX" then
    if empty (aq_Target q) then None
    else Some (match aq_Priority q with None => with_priority (Some 10) q | Some _ => q end)
  else if ty "SRV" then
    if empty (aq_Target q) then None
    else match aq_Priority q, aq_Weight q, aq_Port q with Some _, Some _, Some _ => Some q | _, _, _ => None end
  else if ty "TXT" then if bool_decide (aq_TxtRecords q = []) then None else Some q
  else None.

(** A TTL of zero becomes five minutes. *)
Definition request_entry (q : LocalRecordAddRequest) : LocalRecordEntry :=
  MkLocalRecordEntry None (aq_Priority q) (aq_Weight q) (aq_Port q) None None None None None [] [] [] []
    (aq_Target q) (ToUpper (aq_Type q)) (aq_Domain q) (aq_TxtRecords q) (aq_IPs q)
    (if aq_TTL q =? 0 then 300 else aq_TTL q) (aq_Wildcard q).

Definition with_local_records (l : LocalRecordsConfig) (c : Config) : Config :=
  MkConfig (Telemetry c) (Server c) (Policy c) (Auth c) l (ConditionalForwarding c) (Forwarder c)
    (UpstreamDNSServers c) (Blocklists c) (Whitelist c) (Logging c) (Database c) (Cache c) (BlockPage c) (Unbound c)
    (UpdateInterval c) (AutoUpdateBlocklists c).

(** The server with its DNS handler, when there is one, and the records in it. *)
Record Api := MkApi { store : Store; dnsHandler : option (option Manager) }.

Inductive PersistError := NoConfig | CloneFailed | NotFound | Invalid (err : ConfigErr) | SaveFailed.

Definition list_records (c : option Config) : list LocalRecordResponse :=
  match c with
  | Some cfg =>
      if lr_Enabled (LocalRecords cfg) then
        imap (fun idx entry =>
          MkRecordResponse (le_Domain entry ++ str ":" ++ le_Type entry ++ str ":" ++ Itoa (Z.of_nat idx))
            (le_Domain entry) (le_Type entry) (le_Target entry) (le_IPs entry) (le_TxtRecords entry) (le_TTL entry)
            (le_Priority entry) (le_Weight entry) (le_Port entry) (le_Wildcard entry) true) (lr_Records (LocalRecords cfg))
      else []
  | None => []
  end.

(** By domain, then type ([sort.Slice]; what it does with ties is not specified,
    here they keep their order). *)
Definition response_le (a b : LocalRecordResponse) : Prop :=
  str_lt (rs_Domain a) (rs_Domain b) \/ (rs_Domain a = rs_Domain b /\ str_le (rs_Type a) (rs_Type b)).

#[global] Instance response_le_dec : RelDecision response_le.
Proof. intros a b. unfold response_le. apply _. Defined.

Definition handleGetLocalRecords (a : Api) : list LocalRecordResponse :=
  merge_sort response_le (list_records (currentConfig (store a))).

(** [reloadLocalRecords]: every address that parses, and the optional numbers. *)
Definition api_record (e : LocalRecordEntry) : LocalRecord :=
  MkLocalRecord (le_Domain e) (RecordType_of (le_Type e)) (le_Target e) [] [] [] [] (omap ParseIP (le_IPs e))
    (le_TxtRecords e) 0 (le_TTL e) 0 0 0 0 (deref 0 (le_Priority e)) (deref 0 (le_Weight e)) (deref 0 (le_Port e)) 0
    (le_Wildcard e) true.

Definition api_step (m : Manager) (e : LocalRecordEntry) : Manager := (AddRecord (api_record e) m).1.

Definition api_records (c : LocalRecordsConfig) : option Manager :=
  if negb (lr_Enabled c) || (length (lr_Records c) =? 0)%nat then None
  else Some (foldl api_step NewManager (lr_Records c)).

Definition reloadLocalRecords (a : Api) : Api :=
  match currentConfig (store a) with
  | None => a
  | Some cfg => MkApi (store a) (Some (api_records (LocalRecords cfg)))
  end.

Section handlers.
Context {B : BcryptLib} {Y : YamlLib} (env : Env).

(** Without a file nothing is changed and no error is given. *)
Definition persistLocalRecordsConfig (ok : bool) (mutator : Config -> result PersistError Config) (s : Store) :
    result PersistError Store :=
  if negb (path_set s) then Ok s
  else match currentConfig s with
       | None => Err NoConfig
       | Some cfg =>
           match Config.Clone cfg with
           | None => Err CloneFailed
           | Some cloned =>
               match mutator cloned with
               | Err e => Err e
               | Ok c =>
                   match Config.Validate c with
                   | (Err e, _) => Err (Invalid e)
                   | (Ok _, c) =>
                       match Save ok c with
                       | None => Err SaveFailed
                       | Some data => Ok (set_config (Some data) (Reload env (Some data) (watcher s)) s)
                       end
                   end
               end
           end
       end.

Definition append_entry (entry : LocalRecordEntry) (cfg : Config) : result PersistError Config :=
  Ok (with_local_records (MkLocalRecordsConfig (lr_Records (LocalRecords cfg) ++ [entry]) true) cfg).

(** The status, the list in the reply, and the new state; [None] is a body that is
    not JSON. *)
Definition handleAddLocalRecord (ok : bool) (body : option LocalRecordAddRequest) (a : Api) :
    Z * list LocalRecordResponse * Api :=
  match dnsHandler a with
  | None => (500, [], a)
  | Some _ =>
      match body with
      | None => (400, [], a)
      | Some q =>
          if empty (aq_Domain q) || empty (aq_Type q) then (400, [], a)
          else match check_request q with
               | None => (400, [], a)
               | Some q =>
                   match persistLocalRecordsConfig ok (append_entry (request_entry q)) (store a) with
                   | Err _ => (500, [], a)
                   | Ok s => let a := reloadLocalRecords (MkApi s (dnsHandler a)) in (200, handleGetLocalRecords a, a)
                   end
               end
      end
  end.

Definition same_record (domain recordType : gostring) (e : LocalRecordEntry) : bool :=
  bytes_eqb (le_Domain e) domain && bytes_eqb (le_Type e) recordType.

Definition remove_entries (domain recordType : gostring) (cfg : Config) : result PersistError Config :=
  let kept := List.filter (fun e => negb (same_record domain recordType e)) (lr_Records (LocalRecords cfg)) in
  if existsb (same_record domain recordType) (lr_Records (LocalRecords cfg))
  then Ok (with_local_records (MkLocalRecordsConfig kept (lr_Enabled (LocalRecords cfg))) cfg)
  else Err NotFound.

(** The index at the end of the identifier is not used. *)
Definition handleRemoveLocalRecord (ok : bool) (recordID : gostring) (a : Api) : Z * list LocalRecordResponse * Api :=
  match dnsHandler a with
  | None => (500, [], a)
  | Some _ =>
      if empty recordID then (400, [], a)
      else match SplitByte recordID ":"%char with
           | [domain; recordType; _] =>
               match persistLocalRecordsConfig ok (remove_entries domain recordType) (store a) with
               | Err NotFound => (404, [], a)
               | Err _ => (500, [], a)
               | Ok s => let a := reloadLocalRecords (MkApi s (dnsHandler a)) in (200, handleGetLocalRecords a, a)
               end
           | _ => (400, [], a)
           end
  end.

End handlers.

(** ** Start and hot reload *)

Lemma hot_startup e : hot_record e = startup_record e.
Proof.
  unfold hot_record, startup_record.
  repeat match goal with |- context [bytes_eqb (le_Type e) ?t] => destruct (bytes_eqb (le_Type e) t); [try done|] end;
    [..|done];
    repeat match goal with |- context [empty ?s] => destruct (empty s) end; try done.
  - by destruct (le_TxtRecords e).
  - by destruct (le_Port e).
  - destruct (le_Port e) as [p|]; [cbn; by destruct (p =? 0)|done].
Qed.

Lemma hot_step_startup m e : hot_step m e = startup_step m e.
Proof. unfold hot_step, startup_step. by rewrite hot_startup. Qed.

(** The fields the callback compares. *)
Definition compared (e : LocalRecordEntry) : gostring * gostring * gostring * Z * bool * list gostring :=
  (le_Domain e, le_Type e, le_Target e, le_TTL e, le_Wildcard e, le_IPs e).

Lemma equalStringSlice_spec a b : equalStringSlice a b = true <-> a = b.
Proof.
  unfold equalStringSlice. rewrite (zip_all bytes_eqb eq) by apply bytes_eqb_eq. by rewrite list_eq_Forall2.
Qed.

Lemma equal_entry_spec a b : equal_entry a b = true <-> compared a = compared b.
Proof.
  unfold equal_entry, compared. rewrite !andb_true_iff, !bytes_eqb_eq, Z.eqb_eq, Bool.eqb_true_iff, equalStringSlice_spec.
  split; [by intros (((((-> & ->) & ->) & ->) & ->) & ->)|by intros [= -> -> -> -> -> ->]].
Qed.

Lemma equal_config_spec a b :
  equalLocalRecordsConfig a b = true <->
  lr_Enabled a = lr_Enabled b /\ compared <$> lr_Records a = compared <$> lr_Records b.
Proof.
  unfold equalLocalRecordsConfig. rewrite <- andb_assoc, andb_true_iff, Bool.eqb_true_iff.
  rewrite (zip_all equal_entry (fun x y => compared x = compared y)) by apply equal_entry_spec.
  by rewrite list_eq_Forall2, Forall2_fmap.
Qed.

(** The types whose records have compared fields only. *)
Definition compared_type (e : LocalRecordEntry) : bool :=
  negb (existsb (fun t => bytes_eqb (le_Type e) (str t)) ["TXT"; "MX"; "SRV"; "SOA"; "CAA"]).

Lemma compared_step m a b :
  compared a = compared b -> compared_type b = true -> startup_step m a = startup_step m b.
Proof.
  unfold compared, compared_type, startup_step, startup_record, with_common.
  intros [= -> -> -> -> -> ->]. cbn [existsb]. rewrite !negb_orb, !andb_true_iff, !negb_true_iff.
  intros (-> & -> & -> & -> & -> & _). done.
Qed.

Lemma compared_records a b :
  equalLocalRecordsConfig a b = true -> forallb compared_type (lr_Records b) = true ->
  startup_records a = startup_records b.
Proof.
  rewrite equal_config_spec. intros [He Hr] Ht. unfold startup_records. rewrite He.
  assert (length (lr_Records a) = length (lr_Records b)) as -> by (apply (f_equal length) in Hr; by rewrite !length_fmap in Hr).
  destruct (_ && _); [|done]. f_equal. generalize NewManager. revert Hr Ht. generalize (lr_Records a).
  induction (lr_Records b) as [|y l IH]; intros [|x k] Hr Ht m; try done.
  cbn in Hr, Ht |- *. injection Hr as E Hr. apply andb_true_iff in Ht as [Hy Ht].
  rewrite (compared_step m x y) by (done || by unfold compared; congruence). by apply IH.
Qed.

(** C23: the records served after any sequence of configuration changes are those
    a fresh start would give, with a configuration of the sequence that agrees
    with the last one on the domain, type, target, TTL, wildcard flag and
    addresses of every entry; so they are the last configuration's own records
    when it has no TXT, MX, SRV, SOA or CAA entry, whose other fields the
    comparison leaves out. *)
Theorem hot_reload_serves (c0 : LocalRecordsConfig) (cs : list LocalRecordsConfig) :
  let st := foldl on_change (start c0) cs in
  (exists c, c ∈ c0 :: cs /\ installed st = startup_records c /\
     equalLocalRecordsConfig c (List.last cs c0) = true) /\
  (forallb compared_type (lr_Records (List.last cs c0)) = true ->
     installed st = startup_records (List.last cs c0)).
Proof.
  enough (let st := foldl on_change (start c0) cs in
    main_cfg st = List.last cs c0 /\
    exists c, c ∈ c0 :: cs /\ installed st = startup_records c /\ equalLocalRecordsConfig c (List.last cs c0) = true)
    as [_ (c & Hc & Hi & He)].
  { split; [by exists c|]. intros Ht. cbn zeta. rewrite Hi. by apply compared_records. }
  induction cs as [|n cs IH] using rev_ind; cbn zeta.
  - split; [done|]. exists c0. split_and!; [set_solver|done|]. by apply equal_config_spec.
  - destruct IH as (Hm & c & Hc & Hi & He). rewrite foldl_app, last_last. cbn [foldl on_change main_cfg installed].
    split; [done|]. rewrite Hm. destruct (equalLocalRecordsConfig _ n) eqn:E; cbn [negb].
    + exists c. split_and!; [set_solver|done|]. apply equal_config_spec in He as [], E as []. apply equal_config_spec.
      split; congruence.
    + exists n. split_and!; [set_solver| |by apply equal_config_spec]. unfold startup_records.
      destruct (_ && _); [|done]. f_equal. generalize NewManager.
      induction (lr_Records n) as [|x l IHl]; intros m; [done|]. cbn. by rewrite hot_step_startup, IHl.
Qed.

(** A changed TXT text is not noticed. *)
Lemma txt_edit_missed :
  let entry txt := MkLocalRecordEntry None None None None None None None None None [] [] [] [] [] (str "TXT")
    (str "nas.lan") [str txt] [] 300 false in
  let cfg txt := MkLocalRecordsConfig [entry txt] true in
  let st := on_change (start (cfg "old")) (cfg "new") in
  installed st = startup_records (cfg "old") /\ installed st <> startup_records (cfg "new").
Proof. split; [by vm_compute|]. vm_compute. discriminate. Qed.

(** ** Edits through the API *)

(** No record of the loaded list has a type whose fields are not copied. *)
Lemma api_record_refused e m :
  RecordType_of (le_Type e) = RecordTypeSOA \/ RecordType_of (le_Type e) = RecordTypeCAA -> api_step m e = m.
Proof.
  intros H. unfold api_step, AddRecord, validateRecord, api_record. cbn [Domain Type_ Ns CaaTag].
  destruct (empty (le_Domain e)); [done|]. by destruct H as [-> | ->].
Qed.

Definition no_type (t : RecordType) (m : Manager) : Prop :=
  (forall d rs r, records m !! d = Some rs -> r ∈ rs -> Type_ r <> t) /\ (forall r, r ∈ wildcards m -> Type_ r <> t).

Lemma no_type_add t r m : Type_ r <> t -> no_type t m -> no_type t (AddRecord r m).1.
Proof.
  intros Hr [He Hw]. unfold AddRecord. destruct (validateRecord r); [done|]. cbn [Wildcard with_Domain Domain].
  destruct (Wildcard r); split; cbn [fst records wildcards]; try done.
  - intros x [H|[-> | H%elem_of_nil]%elem_of_cons]%elem_of_app; [by apply Hw|done|done].
  - intros d rs x Hl Hx. destruct (decide (d = normalizeDomain (Domain r))) as [->|Hne].
    + rewrite lookup_insert_eq in Hl. injection Hl as <-.
      apply elem_of_app in Hx as [Hx|[-> | H%elem_of_nil]%elem_of_cons]; [|done|done].
      destruct (records m !! _) as [rs|] eqn:E; cbn in Hx; [by eapply He|by apply elem_of_nil in Hx].
    + rewrite lookup_insert_ne in Hl by done. by eapply He.
Qed.

Lemma no_type_matching t d m : no_type t m -> matching t d m = [].
Proof.
  intros [He Hw]. unfold matching. apply app_nil. split; apply filter_none; intros r Hr; unfold is_live.
  - destruct (records m !! _) as [rs|] eqn:E; [|by apply elem_of_nil in Hr].
    by rewrite bool_decide_eq_false_2 by by eapply He.
  - by rewrite bool_decide_eq_false_2 by by apply Hw.
Qed.

Lemma api_loaded_types t l m :
  t = RecordTypeSOA \/ t = RecordTypeCAA -> no_type t m -> no_type t (foldl api_step m l).
Proof.
  intros Ht. revert m. induction l as [|e l IH]; intros m Hm; [done|]. cbn. apply IH.
  destruct (decide (RecordType_of (le_Type e) = t)) as [E|E].
  - rewrite api_record_refused; [done|]. rewrite E. tauto.
  - by apply no_type_add.
Qed.

Lemma api_records_types t c m :
  t = RecordTypeSOA \/ t = RecordTypeCAA -> api_records c = Some m -> no_type t m.
Proof.
  unfold api_records. intros Ht. destruct (_ || _); [done|]. intros [= <-]. apply api_loaded_types; [done|].
  split; cbn [records wildcards NewManager]; [intros d rs r; by rewrite lookup_empty|by intros r ?%elem_of_nil].
Qed.

Section edits.
Context {B : BcryptLib} {BO : BcryptLibOk B} {Y : YamlLib} (env : Env).

Lemma persist_keeps_config ok mutator s s' :
  persistLocalRecordsConfig env ok mutator s = Ok s' -> currentConfig s <> None -> currentConfig s' <> None.
Proof.
  unfold persistLocalRecordsConfig. intros H Hc. destruct (negb _); [injection H as <-; exact Hc|].
  destruct (currentConfig s) as [cfg|] eqn:E; [|done]. destruct (Config.Clone cfg); [|done].
  destruct (mutator _); [|done]. destruct (Config.Validate _) as [[[]|?] c']; [|done].
  destruct (Save ok c'); [|done]. injection H as <-. revert E. unfold currentConfig. cbn [watcher set_config snapshot].
  unfold Reload. destruct (watcher s); [done|]. by intros ->.
Qed.

(** An edit through the API takes every SOA and CAA record out of service: the
    reload after it does not copy their fields, so the record manager refuses
    them; the configuration keeps them and the next start serves them again. *)
Theorem api_edit_drops (ok : bool) (body : option LocalRecordAddRequest) (id : gostring) (a : Api)
    (res : Z * list LocalRecordResponse * Api)
    (Hres : res = handleAddLocalRecord env ok body a \/ res = handleRemoveLocalRecord env ok id a)
    (Hok : res.1.1 = 200) (Hc : currentConfig (store a) <> None) (m : Manager) (d : gostring)
    (Hm : dnsHandler res.2 = Some (Some m)) :
  LookupSOA d m = [] /\ LookupCAA d m = [].
Proof using.
  assert (exists c, api_records c = Some m) as [c Hr].
  { enough (exists s, res.2 = reloadLocalRecords (MkApi s (dnsHandler a)) /\ currentConfig s <> None) as (s & E & Hs).
    { rewrite E in Hm. unfold reloadLocalRecords in Hm. cbn [store dnsHandler] in Hm.
      destruct (currentConfig s) as [cfg|]; [|done]. cbn in Hm. injection Hm as Hm. by exists (LocalRecords cfg). }
    destruct Hres as [-> | ->].
    - unfold handleAddLocalRecord in *. destruct (dnsHandler a); [|done]. destruct body as [q|]; [|done].
      destruct (_ || _); [done|]. destruct (check_request q) as [q'|]; [|done].
      destruct (persistLocalRecordsConfig _ _ _ _) as [s|] eqn:E; [|done]. exists s. split; [done|].
      by eapply persist_keeps_config.
    - unfold handleRemoveLocalRecord in *. destruct (dnsHandler a); [|done]. destruct (empty id); [done|].
      destruct (SplitByte _ _) as [|x [|y [|z [|]]]]; try done.
      destruct (persistLocalRecordsConfig _ _ _ _) as [s|e] eqn:E; [|by destruct e]. exists s. split; [done|].
      by eapply persist_keeps_config. }
  split; apply no_type_matching; eapply api_records_types; eauto.
Qed.

Lemma persist_ok mutator s c cfg u :
  live s c -> Config.Clone c = Some cfg -> mutator cfg = Ok u -> valid u ->
  survives (validated u) -> valid (effective env (validated u)) ->
  exists s', persistLocalRecordsConfig env true mutator s = Ok s' /\
    live s' (validated (effective env (validated u))).
Proof using BO.
  intros Hl Hc Hu Hv (data & Hm & Hd) He. pose proof (live_path _ _ Hl) as Hp. destruct (live_watcher _ _ Hl) as (w & Hw & Hwc).
  unfold persistLocalRecordsConfig, currentConfig. rewrite Hp, Hw, Hwc, Hc, Hu. cbn [negb].
  destruct (Validate_spec u) as [Hok Hval]. pose proof (proj2 Hok Hv) as E. specialize (Hval E).
  destruct (Config.Validate u) as [r u']. cbn [fst snd] in *. subst r u'. unfold Save. rewrite Hm. cbn [mbind option_bind].
  eexists. split; [done|]. split; [done|]. unfold Reload. cbn [watcher set_config]. eexists. split; [done|].
  unfold reload. by rewrite (proj1 (Load_spec env data _ Hd) He).
Qed.

(** The configuration in force after an entry is added. *)
Definition with_entry (e : LocalRecordEntry) (cfg : Config) : Config :=
  with_local_records (MkLocalRecordsConfig (lr_Records (LocalRecords cfg) ++ [e]) true) cfg.

Definition is_v4 (ip : IP) : bool := bool_decide (is_Some (To4 ip)).

Lemma api_ips q addrs : mapM ParseIP (aq_IPs q) = Some addrs -> omap ParseIP (aq_IPs q) = addrs.
Proof.
  revert addrs. induction (aq_IPs q) as [|s l IH]; intros addrs; cbn; [by intros [= <-]|].
  destruct (ParseIP s) as [ip|]; [|done]. cbn. destruct (mapM ParseIP l) as [k|]; [|done]. cbn. intros [= <-]. f_equal. by apply IH.
Qed.

Lemma mapM_all q addrs :
  mapM ParseIP (aq_IPs q) = Some addrs -> forallb (fun s => bool_decide (is_Some (ParseIP s))) (aq_IPs q) = true.
Proof.
  revert addrs. induction (aq_IPs q) as [|s l IH]; intros addrs; cbn; [done|].
  destruct (ParseIP s) as [ip|]; [|done]. cbn. destruct (mapM ParseIP l) as [k|]; [|done]. intros _. by apply (IH k).
Qed.

(** The two address types. *)
Definition address_types : list (gostring * RecordType) := [(str "A", RecordTypeA); (str "AAAA", RecordTypeAAAA)].

Lemma address_request (q : LocalRecordAddRequest) (t : RecordType) (addrs : list IP) :
  (ToUpper (aq_Type q), t) ∈ address_types -> mapM ParseIP (aq_IPs q) = Some addrs -> addrs <> [] ->
  check_request q = Some q /\ aq_Type q <> [] /\ RecordType_of (ToUpper (aq_Type q)) = t /\
  (t = RecordTypeA \/ t = RecordTypeAAAA).
Proof.
  intros Ht Hips Hne. unfold address_types in Ht. rewrite !elem_of_cons, elem_of_nil in Ht.
  assert (aq_IPs q <> []) as Hi by (intros E; rewrite E in Hips; by injection Hips as <-).
  unfold check_request. rewrite (mapM_all _ _ Hips), bool_decide_eq_false_2 by done.
  destruct Ht as [[= Ht ->]|[[= Ht ->]|[]]]; rewrite Ht;
    (split_and!; [done| |done|tauto]; intros E; by rewrite E in Ht).
Qed.

Definition of_family (t : RecordType) (addrs : list IP) : bool :=
  forallb (fun ip => Bool.eqb (is_v4 ip) (bool_decide (t = RecordTypeA))) addrs.

Lemma address_valid r t :
  Type_ r = t -> t = RecordTypeA \/ t = RecordTypeAAAA -> Domain r <> [] -> IPs r <> [] ->
  validateRecord r = if of_family t (IPs r) then None else Some ErrInvalidIP.
Proof.
  intros Et Ht Hd Hi. unfold validateRecord, of_family. destruct (empty (Domain r)) eqn:E; [by apply bytes_eqb_eq in E|].
  rewrite Et. destruct Ht as [-> | ->]; rewrite bool_decide_eq_false_2 by done.
  - rewrite (forallb_ext (fun ip => bool_decide (is_Some (To4 ip))) (fun ip => Bool.eqb (is_v4 ip) true)); [done|].
    intros ip. unfold is_v4. by destruct (bool_decide _).
  - rewrite (forallb_ext (fun ip => negb (bool_decide (is_Some (To4 ip)))) (fun ip => Bool.eqb (is_v4 ip) false)); [done|].
    intros ip. unfold is_v4. by destruct (bool_decide _).
Qed.

Lemma api_step_address q t addrs m d :
  aq_Domain q <> [] -> aq_Wildcard q = false -> 0 <= aq_TTL q -> RecordType_of (ToUpper (aq_Type q)) = t ->
  t = RecordTypeA \/ t = RecordTypeAAAA -> mapM ParseIP (aq_IPs q) = Some addrs -> addrs <> [] ->
  normalizeDomain d = normalizeDomain (aq_Domain q) ->
  if of_family t addrs
  then exists before, lookup_ips t d (api_step m (request_entry q)) =
         (before ++ addrs, if aq_TTL q =? 0 then 300 else aq_TTL q, true)
  else api_step m (request_entry q) = m.
Proof.
  intros Hq Hw Httl Hrt Ht Hips Hne Hd. set (r := api_record (request_entry q)).
  assert (IPs r = addrs) as Hi by by apply api_ips.
  assert (validateRecord r = if of_family t addrs then None else Some ErrInvalidIP) as Hv.
  { rewrite <- Hi. apply address_valid; try done. by rewrite Hi. }
  unfold api_step. fold r. destruct (of_family t addrs).
  - assert (AddRecord r m = ((AddRecord r m).1, None)) as Ha.
    { unfold AddRecord. rewrite Hv. by destruct (Wildcard (with_Domain _ r)). }
    destruct (add_lookup_address r m _ t d Ha Hrt Ht eq_refl Hw Hd) as [(before & ttl & Hl & Hpos) _].
    exists before. rewrite Hl, Hi, Hpos; [done|]. cbn. destruct (Z.eqb_spec (aq_TTL q) 0); lia.
  - unfold AddRecord. by rewrite Hv.
Qed.

(** What adding an address record does.  An accepted A or AAAA request is saved
    and in the live configuration; it is served, after the addresses the name had
    before and with the TTL asked for (300 when none is given), exactly when all
    its addresses are of the family of its type.  The handler only checks that
    they parse: an A record with an IPv6 address is answered 200 and never
    served. *)
Theorem post_address_served (a : Api) (old : option Manager) (c cfg : Config) (q : LocalRecordAddRequest)
    (t : RecordType) (addrs : list IP)
    (Hh : dnsHandler a = Some old) (Hl : live (store a) c) (Hclone : Config.Clone c = Some cfg)
    (Hq : aq_Domain q <> []) (Hw : aq_Wildcard q = false) (Httl : 0 <= aq_TTL q)
    (Ht : (ToUpper (aq_Type q), t) ∈ address_types)
    (Hips : mapM ParseIP (aq_IPs q) = Some addrs) (Hne : addrs <> [])
    (Hv : valid (with_entry (request_entry q) cfg)) (Hs : survives (validated (with_entry (request_entry q) cfg)))
    (Hr : valid (effective env (validated (with_entry (request_entry q) cfg)))) :
  exists l a' c' m, handleAddLocalRecord env true (Some q) a = (200, l, a') /\
    currentConfig (store a') = Some c' /\
    LocalRecords c' = MkLocalRecordsConfig (lr_Records (LocalRecords cfg) ++ [request_entry q]) true /\
    dnsHandler a' = Some (Some m) /\
    forall d, normalizeDomain d = normalizeDomain (aq_Domain q) ->
      if of_family t addrs
      then exists before, lookup_ips t d m = (before ++ addrs, if aq_TTL q =? 0 then 300 else aq_TTL q, true)
      else m = foldl api_step NewManager (lr_Records (LocalRecords cfg)).
Proof using BO.
  destruct (address_request q t addrs Ht Hips Hne) as (Hck & Hty & Hrt & Hta).
  destruct (persist_ok (append_entry (request_entry q)) (store a) c cfg _ Hl Hclone eq_refl Hv Hs Hr) as (s' & E & Hl').
  unfold handleAddLocalRecord. rewrite Hh. destruct (empty (aq_Domain q)) eqn:Ed; [by apply bytes_eqb_eq in Ed|].
  destruct (empty (aq_Type q)) eqn:Et; [by apply bytes_eqb_eq in Et|]. cbn [orb]. rewrite Hck, E.
  assert (currentConfig s' = Some (validated (effective env (validated (with_entry (request_entry q) cfg))))) as Hcur.
  { destruct (live_watcher _ _ Hl') as (w & Hw' & Hc'). unfold currentConfig. by rewrite Hw', Hc'. }
  eexists _, _, _, _. split; [reflexivity|]. unfold reloadLocalRecords. cbn [store]. rewrite Hcur. cbn [store dnsHandler].
  split; [exact Hcur|]. split; [reflexivity|]. split.
  { cbn. unfold api_records. cbn [lr_Enabled lr_Records negb orb]. by rewrite length_app, Nat.add_comm. }
  intros d Hd. rewrite foldl_app. cbn [foldl]. by apply api_step_address.
Qed.

Lemma SplitByte_id d t i :
  ":"%char ∉ d -> ":"%char ∉ t -> ":"%char ∉ i -> SplitByte (d ++ str ":" ++ t ++ str ":" ++ i) ":"%char = [d; t; i].
Proof.
  intros Hd Ht Hi. change (str ":") with [":"%char]. cbn [app].
  rewrite SplitByte_first by done. rewrite SplitByte_first by done. by rewrite SplitByte_none.
Qed.

Lemma listed_entry (c : option Config) (r : LocalRecordResponse) :
  r ∈ list_records c -> exists cfg e idx, c = Some cfg /\ lr_Enabled (LocalRecords cfg) = true /\
    lr_Records (LocalRecords cfg) !! idx = Some e /\ rs_Domain r = le_Domain e /\ rs_Type r = le_Type e /\
    rs_ID r = le_Domain e ++ str ":" ++ le_Type e ++ str ":" ++ Itoa (Z.of_nat idx).
Proof.
  destruct c as [cfg|]; cbn; [|by intros ?%elem_of_nil]. destruct (lr_Enabled _) eqn:E; [|by intros ?%elem_of_nil].
  intros (idx & e & -> & He)%elem_of_lookup_imap. by exists cfg, e, idx.
Qed.

Lemma Itoa_no_colon n : ":"%char ∉ Itoa n.
Proof.
  intros H. pose proof (Itoa_bytes n) as Hf. rewrite Forall_forall in Hf. by destruct (Hf _ H).
Qed.

(** An identifier of the list is one the removal understands, when the name has
    no colon: it answers 200 and the live configuration and the served records
    have lost every entry with that domain and type and no other, whatever
    index the identifier carries. *)
Theorem listed_id_removes (a : Api) (old : option Manager) (c cfg : Config) (r : LocalRecordResponse)
    (u : Config) (Hh : dnsHandler a = Some old) (Hl : live (store a) c) (Hclone : Config.Clone c = Some cfg)
    (Hsame : LocalRecords cfg = LocalRecords c) (Hr : r ∈ handleGetLocalRecords a)
    (Hd : ":"%char ∉ rs_Domain r) (Ht : ":"%char ∉ rs_Type r)
    (Hu : remove_entries (rs_Domain r) (rs_Type r) cfg = Ok u)
    (Hv : valid u) (Hs : survives (validated u)) (He : valid (effective env (validated u))) :
  exists l a' c', handleRemoveLocalRecord env true (rs_ID r) a = (200, l, a') /\
    currentConfig (store a') = Some c' /\ dnsHandler a' = Some (api_records (LocalRecords c')) /\
    lr_Records (LocalRecords c') =
      List.filter (fun e => negb (same_record (rs_Domain r) (rs_Type r) e)) (lr_Records (LocalRecords c)) /\
    forall idx, ":"%char ∉ idx ->
      handleRemoveLocalRecord env true (rs_Domain r ++ str ":" ++ rs_Type r ++ str ":" ++ idx) a = (200, l, a').
Proof using BO.
  unfold handleGetLocalRecords in Hr. rewrite merge_sort_Permutation in Hr.
  apply listed_entry in Hr as (c1 & e & i & _ & _ & _ & Ed & Ety & Eid). rewrite <- Ed, <- Ety in Eid.
  destruct (persist_ok (remove_entries (rs_Domain r) (rs_Type r)) (store a) c cfg u Hl Hclone Hu Hv Hs He) as (s' & E & Hl').
  pose proof (live_current _ _ Hl') as Hcur. unfold mutableConfig in Hcur. rewrite (live_path _ _ Hl') in Hcur.
  assert (forall idx, ":"%char ∉ idx ->
    handleRemoveLocalRecord env true (rs_Domain r ++ str ":" ++ rs_Type r ++ str ":" ++ idx) a =
    (200, handleGetLocalRecords (reloadLocalRecords (MkApi s' (Some old))), reloadLocalRecords (MkApi s' (Some old)))) as Hall.
  { intros idx Hi. unfold handleRemoveLocalRecord. rewrite Hh, SplitByte_id by done. rewrite E.
    by destruct (empty _) eqn:Ee; [apply bytes_eqb_eq in Ee; destruct (rs_Domain r)|]. }
  eexists _, _, _. split; [rewrite Eid; apply Hall, Itoa_no_colon|].
  unfold reloadLocalRecords at 1 2. cbn [store]. rewrite Hcur. cbn [store dnsHandler]. split; [exact Hcur|].
  split; [done|]. split; [|exact Hall]. unfold remove_entries in Hu. destruct (existsb _ _); [|done].
  injection Hu as <-. cbn. by rewrite Hsame.
Qed.

End edits.

(** ** Witnesses *)

Section witnesses.

(** A YAML that tells configurations apart by their number of records. *)
Definition count_yaml (cs : list Config) : YamlLib := {|
  yaml_Marshal c := Some (repeat "r"%char (length (lr_Records (LocalRecords c))));
  yaml_Unmarshal s := cs !! length s |}.

Definition soa_entry : LocalRecordEntry :=
  MkLocalRecordEntry None None None None None None None None None [] [] (str "admin.lan") (str "ns.lan") [] (str "SOA")
    (str "lan") [] [] 300 false.

Definition nas_request (ip : string) : LocalRecordAddRequest :=
  MkAddRequest (str "nas.lan") (str "a") [] [str ip] [] 60 None None None false.

Definition soa_config : Config := with_local_records (MkLocalRecordsConfig [soa_entry] true) sample_config.
Definition nas_config (ip : string) : Config := with_entry (request_entry (nas_request ip)) soa_config.
Definition sample_yaml (ip : string) : YamlLib := count_yaml [sample_config; soa_config; nas_config ip].

Definition soa_api : Api :=
  MkApi (MkStore true (Some []) (Some (MkWatcher soa_config [])) None NewKillSwitchManager [] false None None 0 [])
    (Some (startup_records (LocalRecords soa_config))).

Lemma soa_live : live (store soa_api) soa_config.
Proof. split; [done|]. by eexists. Qed.

Lemma api_edit_drops_witness :
  let res := @handleAddLocalRecord table_bcrypt (sample_yaml "192.0.2.7") no_env true (Some (nas_request "192.0.2.7")) soa_api in
  exists before m, dnsHandler soa_api = Some (Some before) /\ LookupSOA (str "lan") before <> [] /\
    dnsHandler res.2 = Some (Some m) /\ LookupSOA (str "lan") m = [].
Proof.
  intros res. destruct (dnsHandler res.2) as [[m|]|] eqn:E; [|vm_compute in E; discriminate E|vm_compute in E; discriminate E].
  destruct (startup_records (LocalRecords soa_config)) as [before|] eqn:Eb; [|vm_compute in Eb; discriminate Eb].
  exists before, m. split; [cbn [dnsHandler soa_api]; rewrite Eb; reflexivity|]. split.
  - vm_compute in Eb. injection Eb as <-. vm_compute. discriminate.
  - split; [reflexivity|].
    apply (@api_edit_drops table_bcrypt (sample_yaml "192.0.2.7") no_env true (Some (nas_request "192.0.2.7")) [] soa_api res
      (or_introl eq_refl)); [vm_compute; reflexivity|vm_compute; discriminate|exact E].
Defined.

(** An A record with an IPv6 address: accepted, not served. *)
Lemma post_address_served_witness :
  exists l a' c' m,
    @handleAddLocalRecord table_bcrypt (sample_yaml "2001:db8::7") no_env true (Some (nas_request "2001:db8::7")) soa_api
      = (200, l, a') /\
    currentConfig (store a') = Some c' /\ length (lr_Records (LocalRecords c')) = 2%nat /\
    dnsHandler a' = Some (Some m) /\ LookupA (str "nas.lan") m = ([], 0, false).
Proof.
  destruct (@post_address_served table_bcrypt table_bcrypt_ok (sample_yaml "2001:db8::7") no_env soa_api
    (startup_records (LocalRecords soa_config)) soa_config soa_config (nas_request "2001:db8::7") RecordTypeA
    [[32; 1; 13; 184; 0; 0; 0; 0; 0; 0; 0; 0; 0; 0; 0; 7]]) as (l & a' & c' & m & H1 & H2 & H3 & H4 & H5).
  - reflexivity.
  - exact soa_live.
  - vm_compute. reflexivity.
  - discriminate.
  - reflexivity.
  - vm_compute. discriminate.
  - vm_compute. left.
  - vm_compute. reflexivity.
  - discriminate.
  - apply valid_by_validate. vm_compute. reflexivity.
  - exists (str "rr"). split; vm_compute; reflexivity.
  - apply valid_by_validate. vm_compute. reflexivity.
  - exists l, a', c', m. split; [exact H1|]. split; [exact H2|]. split; [rewrite H3; reflexivity|]. split; [exact H4|].
    specialize (H5 (str "nas.lan") eq_refl). vm_compute in H5. rewrite H5. vm_compute. reflexivity.
Defined.

Definition nas_api : Api :=
  MkApi (MkStore true (Some []) (Some (MkWatcher (nas_config "192.0.2.7") [])) None NewKillSwitchManager [] false
           None None 0 []) (Some None).

Definition nas_listed : LocalRecordResponse :=
  MkRecordResponse (str "nas.lan:A:1") (str "nas.lan") (str "A") [] [str "192.0.2.7"] [] 60 None None None false true.

Lemma listed_id_removes_witness :
  exists l a' c',
    @handleRemoveLocalRecord table_bcrypt (sample_yaml "192.0.2.7") no_env true (str "nas.lan:A:1") nas_api = (200, l, a') /\
    @handleRemoveLocalRecord table_bcrypt (sample_yaml "192.0.2.7") no_env true (str "nas.lan:A:7") nas_api = (200, l, a') /\
    currentConfig (store a') = Some c' /\ lr_Records (LocalRecords c') = [soa_entry].
Proof.
  destruct (@listed_id_removes table_bcrypt table_bcrypt_ok (sample_yaml "192.0.2.7") no_env nas_api None
    (nas_config "192.0.2.7") (nas_config "192.0.2.7") nas_listed soa_config) as (l & a' & c' & H1 & H2 & _ & H4 & H5).
  - reflexivity.
  - split; [reflexivity|]. eexists. split; reflexivity.
  - vm_compute. reflexivity.
  - reflexivity.
  - apply list_elem_of_In. vm_compute. right. left. reflexivity.
  - intros H. apply list_elem_of_In in H. vm_compute in H. intuition discriminate.
  - intros H. apply list_elem_of_In in H. vm_compute in H. intuition discriminate.
  - vm_compute. reflexivity.
  - apply valid_by_validate. vm_compute. reflexivity.
  - exists (str "r"). split; vm_compute; reflexivity.
  - apply valid_by_validate. vm_compute. reflexivity.
  - exists l, a', c'. split; [exact H1|]. split.
    + apply (H5 (str "7")). intros H. apply list_elem_of_In in H. vm_compute in H. intuition discriminate.
    + split; [exact H2|]. rewrite H4. vm_compute. reflexivity.
Defined.

End witnesses.
