(* ===== verification/QueryStore.v ===== *)
(** * The query log in SQLite (pkg/storage/sqlite.go)

    The write path of the storage: the bounded buffer of [LogQuery], the worker
    that collects batches and commits them, the worker that keeps the summary
    tables, the buffer for Unbound's events, and [Close].  Every critical section,
    channel operation and transaction is a step, and a run is any interleaving.
    SQLite is its tables: a transaction commits as a whole or not at all, which
    of the two is part of the step, and the statements are written out.  The texts
    of times depend on the driver and the time zone of the process: they are the
    class [TimeText]. *)

From Stdlib Require Import Ascii.
From S2P Require Import Prelude GoStrings.
From stdpp Require Import options.
Local Open Scope Z_scope.

(** ** Rows and summary tables *)

(** The columns of a query that the summaries read. *)
Record QueryLog := MkQueryLog {
  Timestamp : Z; ClientIP : gostring; Domain : gostring; ResponseCode : Z; Blocked : bool; Cached : bool }.

#[global] Instance QueryLog_eq_dec : EqDecision QueryLog.
Proof. solve_decision. Defined.

Class TimeText := {
  FormatTimestamp : Z -> gostring;      (** [t.Format(time.RFC3339Nano)] *)
  driver_text : Z -> gostring;          (** a time value bound by the driver *)
  hour_text : Z -> gostring }.          (** the hour of a time *)

(** MIN and MAX of two texts. *)
Definition text_min (a b : gostring) : gostring := if str_ltb b a then b else a.
Definition text_max (a b : gostring) : gostring := if str_ltb a b then b else a.

Definition count_if (b : bool) : Z := if b then 1 else 0.
Definition nxdomain (q : QueryLog) : bool := ResponseCode q =? 3.

Record DomainStat := MkDomainStat {
  query_count : Z; last_queried : gostring; first_queried : gostring; blocked : bool }.
Record ClientStat := MkClientStat {
  total_queries : Z; blocked_queries : Z; nxdomain_queries : Z; first_seen : gostring; last_seen : gostring }.
Record HourlyStat := MkHourlyStat {
  h_total : Z; h_blocked : Z; h_cached : Z; h_nxdomain : Z; unique_domains : Z; unique_clients : Z }.

(** Grouping a batch by a key, as the three update functions do with a map. *)
Section group.
Context {U : Type} (key : QueryLog -> gostring) (first : QueryLog -> U) (more : U -> QueryLog -> U).

Definition group_step (m : gmap gostring U) (q : QueryLog) : gmap gostring U :=
  <[key q := match m !! key q with Some u => more u q | None => first q end]> m.

Definition group (queries : list QueryLog) : gmap gostring U := foldl group_step ∅ queries.

End group.

(** The statement for every group, in the order of the map iteration; one that
    fails is logged and skipped. *)
Section upserts.
Context {U R : Type} (upsert : option R -> U -> R) (exec_ok : gostring -> bool).

Definition upsert_step (t : gmap gostring R) (ku : gostring * U) : gmap gostring R :=
  if exec_ok ku.1 then <[ku.1 := upsert (t !! ku.1) ku.2]> t else t.

End upserts.

(** What can go wrong with the database in one transaction, and the order of the
    map iteration, as a rank of the keys. *)
Record Tx := MkTx { tx_ok : bool; exec_ok : gostring -> bool; rank : gostring -> nat }.

Definition ranked {U} (x : Tx) (a b : gostring * U) : Prop := (rank x a.1 <= rank x b.1)%nat.

#[global] Instance ranked_dec {U} x : RelDecision (@ranked U x).
Proof. intros a b. unfold ranked. apply _. Defined.

Definition iterate {U} (x : Tx) (m : gmap gostring U) : list (gostring * U) :=
  merge_sort (ranked x) (map_to_list m).

Definition transaction {U R} (x : Tx) (upsert : option R -> U -> R) (updates : gmap gostring U)
    (t : gmap gostring R) : gmap gostring R :=
  if tx_ok x then foldl (upsert_step upsert (exec_ok x)) t (iterate x updates) else t.

(** *** Domains *)

Record domainStatUpdate := MkDomainUpdate { du_count : Z; du_last : Z; du_blocked : bool }.

Definition domain_first (q : QueryLog) : domainStatUpdate := MkDomainUpdate 1 (Timestamp q) (Blocked q).
Definition domain_more (u : domainStatUpdate) (q : QueryLog) : domainStatUpdate :=
  MkDomainUpdate (du_count u + 1) (if du_last u <? Timestamp q then Timestamp q else du_last u) (du_blocked u).

(** *** Clients *)

Record clientUpdate := MkClientUpdate { cu_total : Z; cu_blocked : Z; cu_nxdomain : Z; cu_first : Z; cu_last : Z }.

Definition client_first (q : QueryLog) : clientUpdate :=
  MkClientUpdate 1 (count_if (Blocked q)) (count_if (nxdomain q)) (Timestamp q) (Timestamp q).
Definition client_more (u : clientUpdate) (q : QueryLog) : clientUpdate :=
  MkClientUpdate (cu_total u + 1) (cu_blocked u + count_if (Blocked q)) (cu_nxdomain u + count_if (nxdomain q))
    (if Timestamp q <? cu_first u then Timestamp q else cu_first u)
    (if cu_last u <? Timestamp q then Timestamp q else cu_last u).

(** *** Hours (the sum of the response times, a float64, is left out) *)

Record hourUpdate := MkHourUpdate {
  hu_total : Z; hu_blocked : Z; hu_cached : Z; hu_nxdomain : Z; hu_domains : gset gostring; hu_clients : gset gostring }.

Definition hour_first (q : QueryLog) : hourUpdate :=
  MkHourUpdate 1 (count_if (Blocked q)) (count_if (Cached q)) (count_if (nxdomain q)) {[Domain q]} {[ClientIP q]}.
Definition hour_more (u : hourUpdate) (q : QueryLog) : hourUpdate :=
  MkHourUpdate (hu_total u + 1) (hu_blocked u + count_if (Blocked q)) (hu_cached u + count_if (Cached q))
    (hu_nxdomain u + count_if (nxdomain q)) ({[Domain q]} ∪ hu_domains u) ({[ClientIP q]} ∪ hu_clients u).

Section tables.
Context {T : TimeText}.

(** A new row gets the time of the update as both of its times. *)
Definition domain_upsert (r : option DomainStat) (u : domainStatUpdate) : DomainStat :=
  let last := driver_text (du_last u) in
  match r with
  | None => MkDomainStat (du_count u) last last (du_blocked u)
  | Some r => MkDomainStat (query_count r + du_count u) (text_max (last_queried r) last) (first_queried r) (blocked r)
  end.

Definition client_upsert (r : option ClientStat) (u : clientUpdate) : ClientStat :=
  let first := FormatTimestamp (cu_first u) in
  let last := FormatTimestamp (cu_last u) in
  match r with
  | None => MkClientStat (cu_total u) (cu_blocked u) (cu_nxdomain u) first last
  | Some r =>
      MkClientStat (total_queries r + cu_total u) (blocked_queries r + cu_blocked u)
        (nxdomain_queries r + cu_nxdomain u) (text_min (first_seen r) first) (text_max (last_seen r) last)
  end.

Definition hour_upsert (r : option HourlyStat) (u : hourUpdate) : HourlyStat :=
  let ds := Z.of_nat (size (hu_domains u)) in
  let cs := Z.of_nat (size (hu_clients u)) in
  match r with
  | None => MkHourlyStat (hu_total u) (hu_blocked u) (hu_cached u) (hu_nxdomain u) ds cs
  | Some r =>
      MkHourlyStat (h_total r + hu_total u) (h_blocked r + hu_blocked u) (h_cached r + hu_cached u)
        (h_nxdomain r + hu_nxdomain u) (Z.max (unique_domains r) ds) (Z.max (unique_clients r) cs)
  end.

Definition updateDomainStats (x : Tx) (queries : list QueryLog) (t : gmap gostring DomainStat) : gmap gostring DomainStat :=
  match queries with [] => t | _ => transaction x domain_upsert (group Domain domain_first domain_more queries) t end.

Definition updateClientStats (x : Tx) (queries : list QueryLog) (t : gmap gostring ClientStat) : gmap gostring ClientStat :=
  match queries with [] => t | _ => transaction x client_upsert (group ClientIP client_first client_more queries) t end.

Definition updateHourlyStats (x : Tx) (queries : list QueryLog) (t : gmap gostring HourlyStat) : gmap gostring HourlyStat :=
  match queries with
  | [] => t
  | _ => transaction x hour_upsert (group (fun q => hour_text (Timestamp q)) hour_first hour_more queries) t
  end.

End tables.

(** ** The storage *)

(** The worker of [flushWorker]: collecting a batch; in the transaction of
    [flushBatch]; about to hand the batch to the statistics worker; updating the
    domain table itself.  [final]: the channel was closed and the worker ends. *)
Inductive FlushWorker :=
| Collecting (batch : list QueryLog)
| Committing (batch : list QueryLog) (final : bool)
| HandingOff (batch : list QueryLog) (final : bool)
| SyncStats (batch : list QueryLog) (final : bool)
| FlushExited.

Inductive StatsWorker :=
| StatsIdle | StatsDomain (b : list QueryLog) | StatsClient (b : list QueryLog) | StatsHourly (b : list QueryLog)
| StatsExited.

Inductive Closing := NotClosing | Marked | Waiting | Closed.

Record SQLiteStorage := MkStorage {
  buffer : list QueryLog; buffer_closed : bool; BufferSize : nat; BatchSize : nat;
  domainStatsCh : list (list QueryLog); domainStatsCh_closed : bool;
  closed : bool; closing : Closing;
  flusher : FlushWorker; stats : StatsWorker; dropped : Z;
  queries : list QueryLog; failed : list QueryLog;
  domain_stats : gmap gostring DomainStat; client_stats : gmap gostring ClientStat;
  hourly_stats : gmap gostring HourlyStat }.

Definition NewSQLiteStorage (bufferSize batchSize : nat) : SQLiteStorage :=
  MkStorage [] false bufferSize batchSize [] false false NotClosing (Collecting []) StatsIdle 0 [] [] ∅ ∅ ∅.

Definition set_buffer (b : list QueryLog) (d : Z) (s : SQLiteStorage) : SQLiteStorage :=
  MkStorage b (buffer_closed s) (BufferSize s) (BatchSize s) (domainStatsCh s) (domainStatsCh_closed s) (closed s)
    (closing s) (flusher s) (stats s) d (queries s) (failed s) (domain_stats s) (client_stats s) (hourly_stats s).
Definition set_flusher (f : FlushWorker) (s : SQLiteStorage) : SQLiteStorage :=
  MkStorage (buffer s) (buffer_closed s) (BufferSize s) (BatchSize s) (domainStatsCh s) (domainStatsCh_closed s) (closed s)
    (closing s) f (stats s) (dropped s) (queries s) (failed s) (domain_stats s) (client_stats s) (hourly_stats s).
Definition set_stats (ch : list (list QueryLog)) (w : StatsWorker) (s : SQLiteStorage) : SQLiteStorage :=
  MkStorage (buffer s) (buffer_closed s) (BufferSize s) (BatchSize s) ch (domainStatsCh_closed s) (closed s)
    (closing s) (flusher s) w (dropped s) (queries s) (failed s) (domain_stats s) (client_stats s) (hourly_stats s).
Definition set_rows (q f : list QueryLog) (s : SQLiteStorage) : SQLiteStorage :=
  MkStorage (buffer s) (buffer_closed s) (BufferSize s) (BatchSize s) (domainStatsCh s) (domainStatsCh_closed s) (closed s)
    (closing s) (flusher s) (stats s) (dropped s) q f (domain_stats s) (client_stats s) (hourly_stats s).
Definition set_tables (d : gmap gostring DomainStat) (c : gmap gostring ClientStat) (h : gmap gostring HourlyStat)
    (s : SQLiteStorage) : SQLiteStorage :=
  MkStorage (buffer s) (buffer_closed s) (BufferSize s) (BatchSize s) (domainStatsCh s) (domainStatsCh_closed s) (closed s)
    (closing s) (flusher s) (stats s) (dropped s) (queries s) (failed s) d c h.
Definition set_closing (bc sc c : bool) (k : Closing) (s : SQLiteStorage) : SQLiteStorage :=
  MkStorage (buffer s) bc (BufferSize s) (BatchSize s) (domainStatsCh s) sc c
    k (flusher s) (stats s) (dropped s) (queries s) (failed s) (domain_stats s) (client_stats s) (hourly_stats s).

Inductive Outcome (A : Type) := Next (a : A) | Blocks | Panics.
Arguments Next {A} a.
Arguments Blocks {A}.
Arguments Panics {A}.

Inductive LogError := ErrClosed | CtxDone | ErrBufferFull.

(** [LogQuery], under the read lock.  [ctx]: the context is done; when the buffer
    has room as well, [pick] says which case of the select is taken.  A query
    without a time gets the present one before. *)
Definition LogQuery (q : QueryLog) (ctx pick : bool) (s : SQLiteStorage) : Outcome (option LogError * SQLiteStorage) :=
  if closed s then Next (Some ErrClosed, s)
  else if ctx && pick then Next (Some CtxDone, s)
  else if buffer_closed s then Panics
  else if (length (buffer s) <? BufferSize s)%nat then Next (None, set_buffer (buffer s ++ [q]) (dropped s) s)
  else if ctx then Next (Some CtxDone, s)
  else Next (Some ErrBufferFull, set_buffer (buffer s) (dropped s + 1) s).

(** After a flush the batch is empty; at the end of the channel the worker leaves. *)
Definition resume (final : bool) : FlushWorker := if final then FlushExited else Collecting [].

(** [case query, ok := <-s.buffer]. *)
Definition flush_receive (s : SQLiteStorage) : Outcome SQLiteStorage :=
  match flusher s with
  | Collecting batch =>
      match buffer s with
      | q :: rest =>
          let batch := batch ++ [q] in
          Next (set_flusher (if (BatchSize s <=? length batch)%nat then Committing batch false else Collecting batch)
                  (set_buffer rest (dropped s) s))
      | [] =>
          if buffer_closed s
          then Next (set_flusher (match batch with [] => FlushExited | _ => Committing batch true end) s)
          else Blocks
      end
  | _ => Blocks
  end.

(** [case <-ticker.C]. *)
Definition flush_tick (s : SQLiteStorage) : Outcome SQLiteStorage :=
  match flusher s with
  | Collecting [] => Next s
  | Collecting batch => Next (set_flusher (Committing batch false) s)
  | _ => Blocks
  end.

(** The transaction of [flushBatch]; when it fails the batch is given up. *)
Definition flush_commit (ok : bool) (s : SQLiteStorage) : Outcome SQLiteStorage :=
  match flusher s with
  | Committing batch final =>
      if ok then Next (set_flusher (HandingOff batch final) (set_rows (queries s ++ batch) (failed s) s))
      else Next (set_flusher (resume final) (set_rows (queries s) (failed s ++ batch) s))
  | _ => Blocks
  end.

(** The rest of [flushBatch], under the read lock: to the channel, or, when the
    storage is closed or the channel is full, the domain table at once. *)
Definition flush_handoff (s : SQLiteStorage) : Outcome SQLiteStorage :=
  match flusher s with
  | HandingOff batch final =>
      if closed s then Next (set_flusher (SyncStats batch final) s)
      else if domainStatsCh_closed s then Panics
      else if (length (domainStatsCh s) <? 100)%nat
           then Next (set_flusher (resume final) (set_stats (domainStatsCh s ++ [batch]) (stats s) s))
           else Next (set_flusher (SyncStats batch final) s)
  | _ => Blocks
  end.

Section steps.
Context {T : TimeText}.

Definition flush_sync (x : Tx) (s : SQLiteStorage) : Outcome SQLiteStorage :=
  match flusher s with
  | SyncStats batch final =>
      Next (set_flusher (resume final)
              (set_tables (updateDomainStats x batch (domain_stats s)) (client_stats s) (hourly_stats s) s))
  | _ => Blocks
  end.

(** [domainStatsWorker]. *)
Definition stats_receive (s : SQLiteStorage) : Outcome SQLiteStorage :=
  match stats s with
  | StatsIdle =>
      match domainStatsCh s with
      | b :: rest => Next (set_stats rest (StatsDomain b) s)
      | [] => if domainStatsCh_closed s then Next (set_stats [] StatsExited s) else Blocks
      end
  | _ => Blocks
  end.

Definition stats_update (x : Tx) (s : SQLiteStorage) : Outcome SQLiteStorage :=
  match stats s with
  | StatsDomain b =>
      Next (set_tables (updateDomainStats x b (domain_stats s)) (client_stats s) (hourly_stats s)
              (set_stats (domainStatsCh s) (StatsClient b) s))
  | StatsClient b =>
      Next (set_tables (domain_stats s) (updateClientStats x b (client_stats s)) (hourly_stats s)
              (set_stats (domainStatsCh s) (StatsHourly b) s))
  | StatsHourly b =>
      Next (set_tables (domain_stats s) (client_stats s) (updateHourlyStats x b (hourly_stats s))
              (set_stats (domainStatsCh s) StatsIdle s))
  | _ => Blocks
  end.

(** [Close]: marked under the lock, with the statistics channel; ... *)
Definition Close_mark (s : SQLiteStorage) : Outcome SQLiteStorage :=
  if closed s then Next s
  else if domainStatsCh_closed s then Panics
  else Next (set_closing (buffer_closed s) true true Marked s).

(** ... then the buffer is closed, outside the lock, and the workers are awaited. *)
Definition Close_buffer (s : SQLiteStorage) : Outcome SQLiteStorage :=
  match closing s with
  | Marked => if buffer_closed s then Panics else Next (set_closing true (domainStatsCh_closed s) (closed s) Waiting s)
  | _ => Blocks
  end.

Definition Close_wait (s : SQLiteStorage) : Outcome SQLiteStorage :=
  match closing s, flusher s, stats s with
  | Waiting, FlushExited, StatsExited =>
      Next (set_closing (buffer_closed s) (domainStatsCh_closed s) (closed s) Closed s)
  | _, _, _ => Blocks
  end.

(** ** Runs *)

Inductive Label :=
| LLog (q : QueryLog) (ctx pick : bool)
| LReceive | LTick | LCommit (ok : bool) | LHandoff | LSync (x : Tx)
| LStatsReceive | LStats (x : Tx)
| LMark | LClose | LReturn.

Definition step (l : Label) (s : SQLiteStorage) : Outcome SQLiteStorage :=
  match l with
  | LLog q ctx pick => match LogQuery q ctx pick s with Next (_, s') => Next s' | Blocks => Blocks | Panics => Panics end
  | LReceive => flush_receive s
  | LTick => flush_tick s
  | LCommit ok => flush_commit ok s
  | LHandoff => flush_handoff s
  | LSync x => flush_sync x s
  | LStatsReceive => stats_receive s
  | LStats x => stats_update x s
  | LMark => Close_mark s
  | LClose => Close_buffer s
  | LReturn => Close_wait s
  end.

Fixpoint run (tr : list Label) (s : SQLiteStorage) : Outcome SQLiteStorage :=
  match tr with
  | [] => Next s
  | l :: tr' => match step l s with Next s' => run tr' s' | o => o end
  end.

(** The queries that [LogQuery] took without an error, in order. *)
Fixpoint accepted (tr : list Label) (s : SQLiteStorage) : list QueryLog :=
  match tr with
  | [] => []
  | l :: tr' =>
      match step l s with
      | Next s' =>
          match l with
          | LLog q ctx pick => match LogQuery q ctx pick s with Next (None, _) => [q] | _ => [] end
          | _ => []
          end ++ accepted tr' s'
      | _ => []
      end
  end.

End steps.

(** ** Grouped updates *)

Section counters.
Context {U R : Type} (key : QueryLog -> gostring) (first : QueryLog -> U) (more : U -> QueryLog -> U).
Context (upsert : option R -> U -> R) (weight : QueryLog -> Z) (inU : U -> Z) (inR : R -> Z).
Context (first_weight : forall q, inU (first q) = weight q).
Context (more_weight : forall u q, inU (more u q) = inU u + weight q).
Context (new_row : forall u, inR (upsert None u) = inU u).
Context (old_row : forall r u, inR (upsert (Some r) u) = inR r + inU u).

Definition counter (t : gmap gostring R) (k : gostring) : Z := from_option inR 0 (t !! k).
Definition total (k : gostring) (l : list QueryLog) : Z :=
  foldr (fun q n => (if bool_decide (key q = k) then weight q else 0) + n) 0 l.

Lemma total_nil k : total k [] = 0.
Proof. done. Qed.
Lemma total_cons k q l : total k (q :: l) = (if bool_decide (key q = k) then weight q else 0) + total k l.
Proof. done. Qed.

Lemma total_app k l1 l2 : total k (l1 ++ l2) = total k l1 + total k l2.
Proof. induction l1 as [|q l IH]; cbn [app]; rewrite ?total_nil, ?total_cons; lia. Qed.

Lemma group_total k l m :
  from_option inU 0 (foldl (group_step key first more) m l !! k) = from_option inU 0 (m !! k) + total k l.
Proof using first_weight more_weight.
  revert m. induction l as [|q l IH]; intros m; cbn [foldl]; rewrite ?total_nil, ?total_cons; [lia|]. rewrite IH. unfold group_step.
  case_bool_decide as Hk.
  - subst k. rewrite lookup_insert_eq. cbn. destruct (m !! key q); cbn; [rewrite more_weight|rewrite first_weight]; lia.
  - rewrite lookup_insert_ne by done. lia.
Qed.

Lemma upserts_counter (ok : gostring -> bool) k l t :
  (forall k, ok k = true) -> NoDup l.*1 ->
  counter (foldl (upsert_step upsert ok) t l) k = counter t k + from_option inU 0 (list_to_map (M := gmap gostring U) l !! k).
Proof using new_row old_row.
  intros Hok. revert t. induction l as [|[k' u] l IH]; intros t Hnd; cbn [foldl].
  { cbn. rewrite lookup_empty. cbn. lia. }
  cbn in Hnd. apply NoDup_cons in Hnd as [Hk' Hnd]. rewrite IH by done. unfold upsert_step. cbn [fst snd]. rewrite Hok.
  rewrite list_to_map_cons. unfold counter. destruct (decide (k' = k)) as [->|Hne].
  - rewrite !lookup_insert_eq. rewrite (not_elem_of_list_to_map_1 _ _ Hk'). cbn.
    destruct (t !! k); cbn; [rewrite old_row|rewrite new_row]; lia.
  - by rewrite !lookup_insert_ne.
Qed.

(** A transaction that works adds to every counter the weight of the rows with its
    key, whatever the order of the map iteration. *)
Lemma transaction_counter x l t k :
  tx_ok x = true -> (forall k, exec_ok x k = true) ->
  counter (transaction x upsert (group key first more l) t) k = counter t k + total k l.
Proof using first_weight more_weight new_row old_row.
  intros Hx Hok. unfold transaction. rewrite Hx. unfold iterate.
  set (m := group key first more l). pose proof (merge_sort_Permutation (ranked x) (map_to_list m)) as Hp.
  assert (NoDup (merge_sort (ranked x) (map_to_list m)).*1) as Hnd.
  { rewrite Hp. apply NoDup_fst_map_to_list. }
  rewrite upserts_counter by done.
  rewrite (list_to_map_proper _ (map_to_list m)), list_to_map_to_list by done.
  f_equal. unfold m, group. rewrite group_total, lookup_empty. cbn. lia.
Qed.

End counters.

Definition works (x : Tx) : Prop := tx_ok x = true /\ forall k, exec_ok x k = true.

Section updates.
Context {T : TimeText}.

Definition one (_ : QueryLog) : Z := 1.

(** The columns that count. *)
Definition domain_count (t : gmap gostring DomainStat) (d : gostring) : Z := counter query_count t d.
Definition rows_of (d : gostring) (l : list QueryLog) : Z := total Domain one d l.
Definition client_rows (c : gostring) (l : list QueryLog) : Z := total ClientIP one c l.

Lemma updateDomainStats_count x l t d :
  works x -> domain_count (updateDomainStats x l t) d = domain_count t d + rows_of d l.
Proof.
  intros [Hx Hok]. unfold updateDomainStats. destruct l as [|q l]; [unfold rows_of; rewrite total_nil; lia|].
  by apply (transaction_counter Domain domain_first domain_more domain_upsert one du_count query_count).
Qed.

Lemma updateClientStats_counter (w : QueryLog -> Z) (inU : clientUpdate -> Z) (inR : ClientStat -> Z) x l t c :
  (forall q, inU (client_first q) = w q) -> (forall u q, inU (client_more u q) = inU u + w q) ->
  (forall u, inR (client_upsert None u) = inU u) -> (forall r u, inR (client_upsert (Some r) u) = inR r + inU u) ->
  works x -> counter inR (updateClientStats x l t) c = counter inR t c + total ClientIP w c l.
Proof.
  intros H1 H2 H3 H4 [Hx Hok]. unfold updateClientStats. destruct l as [|q l]; [rewrite total_nil; lia|].
  by apply (transaction_counter ClientIP client_first client_more client_upsert w inU inR).
Qed.

Lemma updateHourlyStats_counter (w : QueryLog -> Z) (inU : hourUpdate -> Z) (inR : HourlyStat -> Z) x l t h :
  (forall q, inU (hour_first q) = w q) -> (forall u q, inU (hour_more u q) = inU u + w q) ->
  (forall u, inR (hour_upsert None u) = inU u) -> (forall r u, inR (hour_upsert (Some r) u) = inR r + inU u) ->
  works x -> counter inR (updateHourlyStats x l t) h = counter inR t h + total (fun q => hour_text (Timestamp q)) w h l.
Proof.
  intros H1 H2 H3 H4 [Hx Hok]. unfold updateHourlyStats. destruct l as [|q l]; [rewrite total_nil; lia|].
  by apply (transaction_counter (fun q => hour_text (Timestamp q)) hour_first hour_more hour_upsert w inU inR).
Qed.

(** The reference: one statement per row. *)
Definition row_by_row {R} (update : list QueryLog -> gmap gostring R -> gmap gostring R) (l : list QueryLog)
    (t : gmap gostring R) : gmap gostring R := foldl (fun t q => update [q] t) t l.

Lemma row_by_row_counter {R} (inR : R -> Z) update key w l t k :
  (forall l t, counter inR (update l t) k = counter inR t k + total key w k l) ->
  counter inR (row_by_row update l t) k = counter inR (update l t) k.
Proof.
  intros H. rewrite H. unfold row_by_row. revert t. induction l as [|q l IH]; intros t; cbn [foldl]; [rewrite total_nil; lia|].
  rewrite IH, H, !total_cons, total_nil. lia.
Qed.

(** Grouping a batch before the statements is sound for every column that
    counts: the counters of the three summary tables are the same as with one
    statement per row, for every order in which the map is walked, and each grows
    by the number of the rows it is about. *)
Theorem grouped_updates (x : Tx) (l : list QueryLog) (td : gmap gostring DomainStat) (tc : gmap gostring ClientStat)
    (th : gmap gostring HourlyStat) (k : gostring) (Hx : works x) :
  (domain_count (updateDomainStats x l td) k = domain_count (row_by_row (updateDomainStats x) l td) k /\
   domain_count (updateDomainStats x l td) k = domain_count td k + rows_of k l) /\
  (forall inR, inR ∈ [total_queries; blocked_queries; nxdomain_queries] ->
     counter inR (updateClientStats x l tc) k = counter inR (row_by_row (updateClientStats x) l tc) k) /\
  counter total_queries (updateClientStats x l tc) k = counter total_queries tc k + client_rows k l /\
  (forall inR, inR ∈ [h_total; h_blocked; h_cached; h_nxdomain] ->
     counter inR (updateHourlyStats x l th) k = counter inR (row_by_row (updateHourlyStats x) l th) k).
Proof.
  split_and!.
  - symmetry. apply (row_by_row_counter _ _ Domain one). intros l' t'. by apply updateDomainStats_count.
  - by apply updateDomainStats_count.
  - intros inR. rewrite !elem_of_cons, elem_of_nil. intros [->|[->|[->|[]]]]; symmetry.
    + apply (row_by_row_counter _ _ ClientIP one). intros l' t'. by apply (updateClientStats_counter one cu_total).
    + apply (row_by_row_counter _ _ ClientIP (fun q => count_if (Blocked q))). intros l' t'.
      by apply (updateClientStats_counter _ cu_blocked).
    + apply (row_by_row_counter _ _ ClientIP (fun q => count_if (nxdomain q))). intros l' t'.
      by apply (updateClientStats_counter _ cu_nxdomain).
  - by apply (updateClientStats_counter one cu_total).
  - intros inR. rewrite !elem_of_cons, elem_of_nil. intros [->|[->|[->|[->|[]]]]]; symmetry.
    + eapply (row_by_row_counter _ _ _ one). intros l' t'. by apply (updateHourlyStats_counter one hu_total).
    + eapply (row_by_row_counter _ _ _ (fun q => count_if (Blocked q))). intros l' t'.
      by apply (updateHourlyStats_counter _ hu_blocked).
    + eapply (row_by_row_counter _ _ _ (fun q => count_if (Cached q))). intros l' t'.
      by apply (updateHourlyStats_counter _ hu_cached).
    + eapply (row_by_row_counter _ _ _ (fun q => count_if (nxdomain q))). intros l' t'.
      by apply (updateHourlyStats_counter _ hu_nxdomain).
Qed.

End updates.

(** ** The runs *)

Section runs.
Context {T : TimeText}.

(** What the flush worker holds before and after the commit. *)
Definition in_hand (f : FlushWorker) : list QueryLog :=
  match f with Collecting b | Committing b _ => b | _ => [] end.
Definition committed (f : FlushWorker) : list QueryLog :=
  match f with HandingOff b _ | SyncStats b _ => b | _ => [] end.
Definition handing (f : FlushWorker) : list QueryLog := match f with HandingOff b _ => b | _ => [] end.
Definition ends (f : FlushWorker) : bool :=
  match f with Committing _ final | HandingOff _ final | SyncStats _ final => final | FlushExited => true | _ => false end.

(** Committed rows whose domains, or clients, are not counted yet. *)
Definition domain_pending (s : SQLiteStorage) : list QueryLog :=
  committed (flusher s) ++ concat (domainStatsCh s) ++ match stats s with StatsDomain b => b | _ => [] end.
Definition client_pending (s : SQLiteStorage) : list QueryLog :=
  handing (flusher s) ++ concat (domainStatsCh s) ++ match stats s with StatsDomain b | StatsClient b => b | _ => [] end.

(** The rows of a step that go past the statistics worker. *)
Definition bypass (l : Label) (s' : SQLiteStorage) : list QueryLog :=
  match l, flusher s' with LHandoff, SyncStats b _ => b | _, _ => [] end.

Fixpoint bypassed (tr : list Label) (s : SQLiteStorage) : list QueryLog :=
  match tr with
  | [] => []
  | l :: tr' => match step l s with Next s' => bypass l s' ++ bypassed tr' s' | _ => [] end
  end.

Definition takes (l : Label) (s : SQLiteStorage) : list QueryLog :=
  match l with
  | LLog q ctx pick => match LogQuery q ctx pick s with Next (None, _) => [q] | _ => [] end
  | _ => []
  end.

Lemma accepted_cons l tr s s' : step l s = Next s' -> accepted (l :: tr) s = takes l s ++ accepted tr s'.
Proof. intros H. cbn [accepted]. rewrite H. by destruct l. Qed.

Definition label_works (l : Label) : Prop := match l with LSync x | LStats x => works x | _ => True end.

(** The channels, the workers and the closing. *)
Record wf (s : SQLiteStorage) : Prop := MkWf {
  wf_open : closed s = false <-> closing s = NotClosing;
  wf_stats : domainStatsCh_closed s = closed s;
  wf_buffer : buffer_closed s = true <-> closing s = Waiting \/ closing s = Closed;
  wf_ends : ends (flusher s) = true -> buffer s = [] /\ buffer_closed s = true;
  wf_exited : stats s = StatsExited -> domainStatsCh s = [] /\ closed s = true;
  wf_closed : closing s = Closed -> flusher s = FlushExited /\ stats s = StatsExited }.

Ltac cases H :=
  repeat match type of H with
  | (if ?b then _ else _) = _ => let E := fresh "E" in destruct b eqn:E; try discriminate H
  | match ?o with _ => _ end = _ => let E := fresh "E" in destruct o eqn:E; try discriminate H
  end.

(** One call of [LogQuery]: nothing but the drop counter changes, or the query is
    appended. *)
Lemma log_cases q ctx pick s s' :
  step (LLog q ctx pick) s = Next s' ->
  (takes (LLog q ctx pick) s = [] /\ exists d, s' = set_buffer (buffer s) d s) \/
  (takes (LLog q ctx pick) s = [q] /\ closed s = false /\ (length (buffer s) < BufferSize s)%nat /\
   s' = set_buffer (buffer s ++ [q]) (dropped s) s).
Proof.
  cbn [step takes]. unfold LogQuery. intros H.
  destruct (closed s) eqn:Ec; [injection H as <-; left; split; [done|exists (dropped s); by destruct s]|].
  destruct (ctx && pick); [injection H as <-; left; split; [done|exists (dropped s); by destruct s]|].
  destruct (buffer_closed s); [done|]. destruct (Nat.ltb_spec (length (buffer s)) (BufferSize s)).
  { injection H as <-. by right. }
  destruct ctx; injection H as <-; left; split; try done; [exists (dropped s); by destruct s|by eexists].
Qed.

Ltac step_cases l H :=
  destruct l; [|cbn [step] in H;
    unfold flush_receive, flush_tick, flush_commit, flush_handoff, flush_sync, stats_receive, stats_update,
      Close_mark, Close_buffer, Close_wait in H; cases H; injection H as <-; simplify_eq;
    cbn [set_buffer set_flusher set_stats set_rows set_tables set_closing buffer buffer_closed BufferSize BatchSize
      domainStatsCh domainStatsCh_closed closed closing flusher stats dropped queries failed domain_stats client_stats
      hourly_stats]..].

Lemma wf_step l s s' : wf s -> step l s = Next s' -> wf s'.
Proof.
  intros [Ho Hs Hb He Hx Hc] H. step_cases l H; [|cbn [ends] in He; split; cbn; try done..].
  { apply log_cases in H as [(_ & d & ->)|(_ & Hcl & _ & ->)]; split; cbn; try done.
    intros Hf. destruct (He Hf) as [_ Hbc]. apply Hb in Hbc. apply Ho in Hcl. destruct Hbc; congruence. }
  all: try (intros Hq; by destruct (Hc Hq)).
  all: try (by destruct final; cbn; [intros _; apply He|]).
  all: try (destruct (_ <=? _)%nat; cbn; done).
  all: repeat match goal with
    | E : closed _ = _ |- _ => rewrite E in * | E : buffer_closed _ = _ |- _ => rewrite E in *
    | E : domainStatsCh_closed _ = _ |- _ => rewrite E in * end.
  all: try done; try (split; intuition congruence).
  by match goal with E : flusher _ = _ |- _ => rewrite E end.
Qed.

Lemma no_panic l s : wf s -> step l s <> Panics.
Proof.
  intros [Ho Hs Hb He Hx Hc] H.
  assert (closed s = false -> buffer_closed s = false) as Hcb.
  { intros Hcl. apply Ho in Hcl. destruct (buffer_closed s); [|done]. destruct (proj1 Hb eq_refl); congruence. }
  destruct l; cbn [step] in H;
    unfold flush_receive, flush_tick, flush_commit, flush_handoff, flush_sync, stats_receive, stats_update,
      Close_mark, Close_buffer, Close_wait in H.
  { unfold LogQuery in H. destruct (closed s); [done|]. destruct (ctx && pick); [done|]. rewrite (Hcb eq_refl) in H.
    destruct (_ <? _)%nat; [done|]. by destruct ctx. }
  all: cases H; try congruence. destruct (proj1 Hb eq_refl); congruence.
Qed.

Lemma wf_run tr s s' : wf s -> run tr s = Next s' -> wf s'.
Proof.
  revert s. induction tr as [|l tr IH]; intros s Hw H; [by injection H as <-|]. cbn [run] in H.
  destruct (step l s) as [s1| |] eqn:E; [|done|done]. eauto using wf_step.
Qed.

Lemma run_no_panic tr s : wf s -> run tr s <> Panics.
Proof.
  revert s. induction tr as [|l tr IH]; intros s Hw; [done|]. cbn [run].
  destruct (step l s) as [s1| |] eqn:E; [|done|by apply no_panic in E]. eauto using wf_step.
Qed.

Lemma wf_new n b : wf (NewSQLiteStorage n b).
Proof. split; cbn; naive_solver. Qed.

(** What a step does to the queries on their way: a flush takes a batch from the
    front, into the table or not. *)
Definition flushed (ok : bool) (h : list (bool * list QueryLog)) : list QueryLog :=
  concat (map snd (List.filter (fun x => Bool.eqb x.1 ok) h)).
Definition on_the_way (s : SQLiteStorage) : list QueryLog := in_hand (flusher s) ++ buffer s.

Lemma in_hand_resume final : in_hand (resume final) = [].
Proof. by destruct final. Qed.

Lemma flush_moves l s s' :
  step l s = Next s' ->
  exists h, on_the_way s ++ takes l s = concat (map snd h) ++ on_the_way s' /\
    queries s' = queries s ++ flushed true h /\ failed s' = failed s ++ flushed false h.
Proof.
  intros H. unfold on_the_way. step_cases l H.
  { apply log_cases in H as [(-> & d & ->)|(-> & _ & _ & ->)]; exists []; cbn; rewrite !app_nil_r; [done|].
    by rewrite app_assoc. }
  all: cbn [takes]; rewrite ?app_nil_r.
  all: try (exists []; cbn; rewrite ?app_nil_r; repeat match goal with
    E : flusher _ = _ |- _ => rewrite E | E : buffer _ = _ |- _ => rewrite E end; cbn; rewrite ?app_nil_r; done).
  all: rewrite ?in_hand_resume; cbn [in_hand].
  - exists []. match goal with E : buffer _ = _ |- _ => rewrite E end. by destruct batch; cbn; rewrite ?app_nil_r.
  - exists []. cbn [map concat app flushed]. by destruct (_ <=? _)%nat; cbn; rewrite <- ?app_assoc, ?app_nil_r.
  - exists [(true, batch)]. cbn. by rewrite ?app_nil_r.
  - exists [(false, batch)]. cbn. by rewrite ?app_nil_r.
  - exists []. cbn. by rewrite ?app_nil_r.
  - exists []. cbn. by rewrite ?app_nil_r.
Qed.

(** Every committed row is counted for its domain or waits for it. *)
Definition domain_balance (d : gostring) (s : SQLiteStorage) : Z :=
  domain_count (domain_stats s) d + rows_of d (domain_pending s) - rows_of d (queries s).
Definition client_balance (c : gostring) (s : SQLiteStorage) : Z :=
  counter total_queries (client_stats s) c + client_rows c (client_pending s) - client_rows c (queries s).

Lemma rows_app d l1 l2 : rows_of d (l1 ++ l2) = rows_of d l1 + rows_of d l2.
Proof. apply total_app. Qed.
Lemma client_rows_app c l1 l2 : client_rows c (l1 ++ l2) = client_rows c l1 + client_rows c l2.
Proof. apply total_app. Qed.
Lemma rows_nil d : rows_of d [] = 0.
Proof. done. Qed.
Lemma client_rows_nil c : client_rows c [] = 0.
Proof. done. Qed.

Lemma committed_resume final : committed (resume final) = [] /\ handing (resume final) = [].
Proof. by destruct final. Qed.

Lemma updateClientStats_total x l t c :
  works x -> counter total_queries (updateClientStats x l t) c = counter total_queries t c + client_rows c l.
Proof. intros Hx. by apply (updateClientStats_counter one cu_total). Qed.

Lemma step_balance l s s' k :
  label_works l -> step l s = Next s' ->
  domain_balance k s' = domain_balance k s /\
  client_balance k s' + client_rows k (bypass l s') = client_balance k s.
Proof.
  intros Hl H. unfold domain_balance, client_balance, domain_pending, client_pending, bypass. step_cases l H.
  { apply log_cases in H as [(_ & d & ->)|(_ & _ & _ & ->)]; (split; [done|]); by rewrite client_rows_nil, Z.add_0_r. }
  all: repeat match goal with |- context [resume ?f] => destruct (committed_resume f) as [-> ->] end.
  all: cbn [committed handing concat label_works] in *.
  all: rewrite ?updateDomainStats_count, ?updateClientStats_total by done.
  all: rewrite ?concat_app; cbn [concat].
  all: rewrite ?app_nil_r, ?rows_app, ?client_rows_app, ?rows_nil, ?client_rows_nil.
  all: try lia.
  - destruct batch; cbn [committed handing]; rewrite ?rows_nil, ?client_rows_nil; lia.
  - destruct (_ <=? _)%nat; cbn [committed handing]; rewrite ?rows_nil, ?client_rows_nil; lia.
  - match goal with E : flusher _ = _ |- _ => rewrite E end. cbn [committed handing].
    rewrite ?rows_nil, ?client_rows_nil. lia.
  - destruct final; cbn [resume]; rewrite client_rows_nil; lia.
  - repeat match goal with E : flusher _ = _ |- _ => rewrite E | E : stats _ = _ |- _ => rewrite E end.
    cbn [committed handing]. rewrite ?rows_nil, ?client_rows_nil. lia.
Qed.

Lemma balance_new n b k :
  domain_balance k (NewSQLiteStorage n b) = 0 /\ client_balance k (NewSQLiteStorage n b) = 0.
Proof.
  unfold domain_balance, client_balance, domain_count, counter. cbn [NewSQLiteStorage domain_stats client_stats].
  by rewrite !lookup_empty.
Qed.

Lemma run_laws tr : forall s0 s, run tr s0 = Next s ->
  (exists h, on_the_way s0 ++ accepted tr s0 = concat (map snd h) ++ on_the_way s /\
     queries s = queries s0 ++ flushed true h /\ failed s = failed s0 ++ flushed false h) /\
  (Forall label_works tr -> forall k, domain_balance k s = domain_balance k s0 /\
     client_balance k s + client_rows k (bypassed tr s0) = client_balance k s0).
Proof.
  induction tr as [|l tr IH]; intros s0 s H; cbn [run] in H.
    - injection H as <-. split; [exists []; cbn; by rewrite !app_nil_r|]. intros _ k. split; [done|].
      cbn [bypassed]. rewrite client_rows_nil. lia.
    - destruct (step l s0) as [s1| |] eqn:E; [|done|done]. destruct (IH _ _ H) as [(h2 & H1 & H2 & H3) Hk].
      destruct (flush_moves _ _ _ E) as (h1 & G1 & G2 & G3). split.
      + exists (h1 ++ h2). rewrite (accepted_cons _ _ _ _ E), app_assoc, G1, <- app_assoc, H1, H2, H3, G2, G3.
        unfold flushed. rewrite map_app, concat_app, !List.filter_app, !map_app, !concat_app, <- !app_assoc. done.
      + intros [Hl Hf]%Forall_cons k. destruct (Hk Hf k) as [K1 K2]. destruct (step_balance _ _ _ k Hl E) as [B1 B2].
        cbn [bypassed]. rewrite E, client_rows_app. lia.
Qed.

(** C24: conservation in the storage, in every interleaving of logging, flushing,
    statistics and closing.  Nothing panics.  Every query that was accepted is, in
    the order of acceptance, flushed, or in the hands of the flush worker, or in
    the buffer, and what was flushed is in the table or was given up with its
    batch.  If the statistics transactions work, every domain is counted once per
    row of the table, but for the rows that are still on their way to its counter;
    and every client likewise, but for the rows that went past the statistics
    worker because the channel was full or the storage was closing: those are
    never counted for their clients. *)
Theorem store_conservation (tr : list Label) (n b : nat) :
  run tr (NewSQLiteStorage n b) <> Panics /\
  forall s, run tr (NewSQLiteStorage n b) = Next s ->
    (exists h, accepted tr (NewSQLiteStorage n b) = concat (map snd h) ++ in_hand (flusher s) ++ buffer s /\
       queries s = flushed true h /\ failed s = flushed false h) /\
    (Forall label_works tr -> forall k,
       domain_count (domain_stats s) k + rows_of k (domain_pending s) = rows_of k (queries s) /\
       counter total_queries (client_stats s) k + client_rows k (client_pending s)
         + client_rows k (bypassed tr (NewSQLiteStorage n b)) = client_rows k (queries s)).
Proof.
  split; [apply run_no_panic, wf_new|].
  intros s H. destruct (run_laws _ _ _ H) as [(h & H1 & H2 & H3) Hk]. split.
  - exists h. split; [exact H1|]. split; [exact H2|exact H3].
  - intros Hf k. destruct (Hk Hf k) as [K1 K2]. destruct (balance_new n b k) as [N1 N2]. rewrite N1 in K1. rewrite N2 in K2.
    unfold domain_balance, client_balance in *. lia.
Qed.

End runs.

(** ** Closing *)

Section closing.
Context {T : TimeText}.

Definition flush_work (f : FlushWorker) : nat :=
  match f with
  | FlushExited => 0
  | Collecting [] => 1
  | Collecting _ => 5
  | Committing _ final => if final then 3 else 4
  | HandingOff _ final => if final then 2 else 3
  | SyncStats _ final => if final then 1 else 2
  end.
Definition stats_work (w : StatsWorker) : nat :=
  match w with StatsExited => 0 | StatsIdle => 1 | StatsHourly _ => 2 | StatsClient _ => 3 | StatsDomain _ => 4 end.
Definition work_left (s : SQLiteStorage) : nat :=
  5 * length (buffer s) + flush_work (flusher s) + 4 * length (domainStatsCh s) + stats_work (stats s).

Definition is_worker (l : Label) : bool :=
  match l with LReceive | LTick | LCommit _ | LHandoff | LSync _ | LStatsReceive | LStats _ => true | _ => false end.

Lemma resume_work final : flush_work (resume final) = if final then 0%nat else 1%nat.
Proof. by destruct final. Qed.
Lemma flush_work_bound f : (flush_work f <= 5)%nat.
Proof. by destruct f as [[]|b []|b []|b []|]; cbn; lia. Qed.

Lemma flusher_progress l s s' :
  closed s = true -> is_worker l = true -> step l s = Next s' ->
  s' = s \/ (closing s' = closing s /\ (work_left s' < work_left s)%nat).
Proof.
  intros Hc Hw H. unfold work_left. destruct l; try done; cbn [step] in H;
    unfold flush_receive, flush_tick, flush_commit, flush_handoff, flush_sync, stats_receive, stats_update in H;
    rewrite ?Hc in H;
    repeat match type of H with
    | (if ?b then _ else _) = _ => let E := fresh "E" in destruct b eqn:E; try discriminate H
    | match ?o with _ => _ end = _ => let E := fresh "E" in destruct o eqn:E; try discriminate H
    end; injection H as <-; try (by left); right; (split; [done|]);
    cbn [set_buffer set_flusher set_stats set_rows set_tables buffer flusher stats domainStatsCh stats_work length];
    repeat match goal with E : flusher _ = _ |- _ => rewrite E | E : buffer _ = _ |- _ => rewrite E
      | E : stats _ = _ |- _ => rewrite E | E : domainStatsCh _ = _ |- _ => rewrite E end;
    rewrite ?resume_work; cbn [flush_work stats_work length];
    try (destruct batch); try (destruct final); try (destruct (_ <=? _)%nat); cbn [flush_work app length]; try lia.
Qed.

(** Closing the storage ends.  Once the buffer is closed, whatever the database
    does, every step of a worker is an idle tick or brings the end nearer by a
    measure; as long as a worker has not left its loop one can step; and when both
    have left, [Close] returns.  Then no accepted query is left behind: all are in
    the table or in batches that were given up, and if the statistics worked every
    domain counts exactly its rows. *)
Theorem store_close_terminates (tr : list Label) (n b : nat) (s : SQLiteStorage)
    (Hrun : run tr (NewSQLiteStorage n b) = Next s) (Hc : closing s = Waiting) :
  (forall l s', is_worker l = true -> step l s = Next s' ->
     s' = s \/ (closing s' = Waiting /\ (work_left s' < work_left s)%nat)) /\
  ((exists l s', is_worker l = true /\ step l s = Next s' /\ s' <> s) \/
   exists s', step LReturn s = Next s' /\ closing s' = Closed /\ buffer s' = [] /\ in_hand (flusher s') = [] /\
     (Forall label_works tr -> forall d, domain_count (domain_stats s') d = rows_of d (queries s'))).
Proof.
  pose proof (wf_run _ _ _ (wf_new n b) Hrun) as Hwf. pose proof Hwf as [Ho Hs Hb He Hx _].
  assert (closed s = true) as Hcl.
  { destruct (closed s) eqn:E; [done|]. by rewrite (proj1 Ho eq_refl) in Hc. }
  assert (buffer_closed s = true) as Hbc by (apply Hb; by left).
  split; [intros l s' Hl H; rewrite <- Hc; by apply (flusher_progress l)|].
  set (x := MkTx true (fun _ => true) (fun _ => 0%nat)).
  assert (forall l s', is_worker l = true -> step l s = Next s' -> flusher s' <> flusher s \/ stats s' <> stats s ->
    exists l s', is_worker l = true /\ step l s = Next s' /\ s' <> s) as Hgo.
  { intros l s' H1 H2 H3. exists l, s'. split_and!; [done|done|]. intros ->. by destruct H3. }
  destruct (flusher s) as [batch|batch final|batch final|batch final|] eqn:Ef.
  - left. destruct (buffer s) as [|q rest] eqn:Eb.
    + eapply (Hgo LReceive); [done|cbn; unfold flush_receive; by rewrite Ef, Eb, Hbc|]. left. by destruct batch.
    + eapply (Hgo LReceive); [done|cbn; unfold flush_receive; by rewrite Ef, Eb|]. left. cbn.
      destruct (_ <=? _)%nat; [done|]. intros [= E]. apply (f_equal length) in E. rewrite length_app in E. cbn in E. lia.
  - left. eapply (Hgo (LCommit true)); [done|cbn; unfold flush_commit; by rewrite Ef|]. by left.
  - left. eapply (Hgo LHandoff); [done|cbn; unfold flush_handoff; by rewrite Ef, Hcl|]. by left.
  - left. eapply (Hgo (LSync x)); [done|cbn; unfold flush_sync; by rewrite Ef|]. left. by destruct final.
  - destruct (stats s) as [|sb|sb|sb|] eqn:Es.
    + left. destruct (domainStatsCh s) as [|sb rest] eqn:Ed.
      * eapply (Hgo LStatsReceive); [done|cbn; unfold stats_receive; by rewrite Es, Ed, Hs, ?Hcl|]. by right.
      * eapply (Hgo LStatsReceive); [done|cbn; unfold stats_receive; by rewrite Es, Ed|]. by right.
    + left. eapply (Hgo (LStats x)); [done|cbn; unfold stats_update; by rewrite Es|]. by right.
    + left. eapply (Hgo (LStats x)); [done|cbn; unfold stats_update; by rewrite Es|]. by right.
    + left. eapply (Hgo (LStats x)); [done|cbn; unfold stats_update; by rewrite Es|]. by right.
    + right. eexists. split; [cbn; unfold Close_wait; by rewrite Hc, Ef, Es|]. cbn [set_closing closing buffer flusher domain_stats queries].
      rewrite Ef. split_and!; [done|by apply He|done|]. intros Hl d.
      destruct (run_laws _ _ _ Hrun) as [_ Hk]. destruct (Hk Hl d) as [K _]. destruct (balance_new n b d) as [N _].
      rewrite N in K. unfold domain_balance, domain_pending in K. rewrite Ef, Es in K. destruct (Hx eq_refl) as [Hch _].
      rewrite Hch in K. cbn [committed concat app] in K. rewrite rows_nil in K. lia.
Qed.

End closing.

(** ** Unbound's events *)

(** [LogUnboundQuery] gives the lock back between its check and its send. *)
Record UnboundBuffer := MkUnbound {
  unboundBuffer : list QueryLog; unbound_closed : bool; marked : bool; callers : list QueryLog }.

Definition unbound_check (q : QueryLog) (u : UnboundBuffer) : option LogError * UnboundBuffer :=
  if marked u then (Some ErrClosed, u)
  else (None, MkUnbound (unboundBuffer u) (unbound_closed u) (marked u) (callers u ++ [q])).

Definition unbound_send (u : UnboundBuffer) : Outcome (option LogError * UnboundBuffer) :=
  match callers u with
  | [] => Blocks
  | q :: rest =>
      if unbound_closed u then Panics
      else if (length (unboundBuffer u) <? 1000)%nat
           then Next (None, MkUnbound (unboundBuffer u ++ [q]) (unbound_closed u) (marked u) rest)
           else Next (Some ErrBufferFull, MkUnbound (unboundBuffer u) (unbound_closed u) (marked u) rest)
  end.

Definition unbound_mark (u : UnboundBuffer) : UnboundBuffer :=
  MkUnbound (unboundBuffer u) (unbound_closed u) true (callers u).
Definition unbound_close (u : UnboundBuffer) : UnboundBuffer :=
  MkUnbound (unboundBuffer u) true (marked u) (callers u).

(** Unlike a query, an event can be sent on the closed channel: a call that passed
    the check before [Close] and sends after it panics. *)
Lemma unbound_log_race q :
  unbound_send (unbound_close (unbound_mark (unbound_check q (MkUnbound [] false false [])).2)) = Panics.
Proof. done. Qed.

(** ** What the summaries miss *)

Section gaps.
Context {T : TimeText}.

Definition ok_tx : Tx := MkTx true (fun _ => true) (fun _ => 0%nat).

(** The first time of a domain is the last one of the batch it first appears in. *)
Lemma first_queried_is_last (q1 q2 : QueryLog) :
  Domain q1 = Domain q2 -> Timestamp q1 < Timestamp q2 ->
  first_queried <$> updateDomainStats ok_tx [q1; q2] ∅ !! Domain q1 = Some (driver_text (Timestamp q2)).
Proof.
  intros Hd Ht. unfold updateDomainStats, transaction, iterate, group. cbn [tx_ok ok_tx foldl]. unfold group_step.
  rewrite lookup_empty, <- Hd, lookup_insert_eq, insert_insert_eq, insert_empty, map_to_list_singleton.
  cbn. rewrite lookup_insert_eq, lookup_empty. cbn. by rewrite (proj2 (Z.ltb_lt _ _) Ht).
Qed.

End gaps.

(** ** Witnesses *)

Section witnesses.

Definition flat_text : TimeText := {| FormatTimestamp _ := []; driver_text _ := []; hour_text _ := [] |}.

Definition query (t : Z) (client domain : string) : QueryLog := MkQueryLog t (str client) (str domain) 0 false false.

(** Two domains of one hour in two batches count as one. *)
Lemma unique_domains_undercount :
  unique_domains <$> @updateHourlyStats flat_text ok_tx [query 1 "192.0.2.1" "b.example"]
    (@updateHourlyStats flat_text ok_tx [query 0 "192.0.2.1" "a.example"] ∅) !! [] = Some 1.
Proof. by vm_compute. Qed.

Lemma works_ok_tx : works ok_tx.
Proof. by split. Qed.

Lemma grouped_updates_witness :
  let l := [query 0 "192.0.2.1" "a.example"; query 1 "192.0.2.2" "a.example"; query 2 "192.0.2.1" "b.example"] in
  domain_count (@updateDomainStats flat_text ok_tx l ∅) (str "a.example") = 2.
Proof.
  intros l. rewrite (proj2 (proj1 (@grouped_updates flat_text ok_tx l ∅ ∅ ∅ (str "a.example") works_ok_tx))).
  vm_compute. reflexivity.
Defined.

(** Two queries, a flush of one before and of one after the closing. *)
Definition sample_run : list Label :=
  [LLog (query 0 "192.0.2.1" "a.example") false false; LReceive; LTick; LCommit true; LHandoff; LStatsReceive;
   LLog (query 1 "192.0.2.1" "a.example") false false; LMark; LClose; LReceive; LReceive; LCommit true; LHandoff;
   LSync ok_tx; LStats ok_tx; LStats ok_tx; LStats ok_tx].

Lemma sample_works : Forall label_works sample_run.
Proof. repeat constructor. Qed.

(** The second row is counted for its domain, not for its client. *)
Lemma store_conservation_witness :
  exists s, @run flat_text sample_run (NewSQLiteStorage 10 100) = Next s /\
    domain_count (domain_stats s) (str "a.example") = 2 /\ counter total_queries (client_stats s) (str "192.0.2.1") = 1.
Proof.
  destruct (@run flat_text sample_run (NewSQLiteStorage 10 100)) as [s| |] eqn:E;
    [|vm_compute in E; discriminate E|vm_compute in E; discriminate E].
  exists s. split; [reflexivity|].
  destruct (@store_conservation flat_text sample_run 10 100) as [_ H]. destruct (H s E) as [_ Hk].
  destruct (Hk sample_works (str "a.example")) as [Hd _]. destruct (Hk sample_works (str "192.0.2.1")) as [_ Hcl].
  vm_compute in E. injection E as <-. split; [vm_compute; reflexivity|vm_compute; reflexivity].
Defined.

Lemma store_close_terminates_witness :
  exists s, @run flat_text sample_run (NewSQLiteStorage 10 100) = Next s /\ closing s = Waiting /\
    exists l s', is_worker l = true /\ @step flat_text l s = Next s' /\ (work_left s' < work_left s)%nat.
Proof.
  destruct (@run flat_text sample_run (NewSQLiteStorage 10 100)) as [s| |] eqn:E;
    [|vm_compute in E; discriminate E|vm_compute in E; discriminate E].
  assert (Hc : closing s = Waiting) by (vm_compute in E; injection E as <-; reflexivity).
  exists s. split; [reflexivity|]. split; [exact Hc|].
  destruct (@store_close_terminates flat_text sample_run 10 100 s E Hc) as [Hp [(l & s' & H1 & H2 & H3)|(s' & H1 & _)]].
  - exists l, s'. split; [exact H1|]. split; [exact H2|]. destruct (Hp l s' H1 H2) as [H|[_ H]]; [contradiction|exact H].
  - exfalso. vm_compute in E. injection E as <-. vm_compute in H1. discriminate H1.
Defined.

End witnesses.
