(* ===== verification/Startup.v ===== *)
(** * The start of the program (cmd/glory-hole/main.go)

    What [main] does between loading the configuration and serving: the two
    one-time migrations that turn the deprecated whitelist and conditional
    forwarding sections into policy rules, the seeding of the rules table, the
    engine built from it, and the client allowlist.  A boot may find the
    database or the file failing: [Faults] says which statements do. *)

From Stdlib Require Import Ascii.
From S2P Require Import Prelude GoStrings GoStrconv GoNet ClientAcl Pattern Policy Config ConfigUpdate PolicyApi.
From stdpp Require Import sorting options.
Local Open Scope Z_scope.

(** ** Texts *)

Definition dq : ascii := chr 34.
Definition backslash : ascii := chr 92.
Definition hex_digit (z : Z) : ascii := if z <? 10 then chr (48 + z) else chr (87 + z).

(** One byte of [strconv.Quote], the verb [%q].  A byte of a longer rune is kept,
    as Quote keeps the printable ones. *)
Definition quote_byte (c : ascii) : gostring :=
  let z := code c in
  if (z =? 34) || (z =? 92) then [backslash; c]
  else if z =? 7 then str "\a" else if z =? 8 then str "\b" else if z =? 9 then str "\t"
  else if z =? 10 then str "\n" else if z =? 11 then str "\v" else if z =? 12 then str "\f"
  else if z =? 13 then str "\r"
  else if (z <? 32) || (z =? 127) then str "\x" ++ [hex_digit (z / 16); hex_digit (z mod 16)]
  else [c].

Definition Quote (s : gostring) : gostring := dq :: concat (map quote_byte s) ++ [dq].

(** A text between double quotes, as the verb [%s] leaves it. *)
Definition raw (s : gostring) : gostring := dq :: s ++ [dq].

(** [strings.ContainsAny(s, "()[]{}^$|\\+?")] *)
Definition regex_like (s : gostring) : bool := existsb (chr_in "()[]{}^$|\+?") s.

(** ** The rules that replace the deprecated sections *)

Definition star_dot : gostring := str "*.".

(** The body of the loop of [migrateWhitelistToPolicies]: logic and name. *)
Definition whitelist_texts (entry : gostring) : gostring * gostring :=
  if HasPrefix entry star_dot then
    let base := TrimPrefix entry star_dot in
    (str "Domain == " ++ raw base ++ str " || DomainEndsWith(Domain, " ++ raw (dot :: base) ++ str ")",
     str "Allow *." ++ base ++ str " (migrated)")
  else if regex_like entry then
    (str "DomainMatches(Domain, " ++ raw entry ++ str ")", str "Allow pattern " ++ entry ++ str " (migrated)")
  else (str "Domain == " ++ raw entry, str "Allow " ++ entry ++ str " (migrated)").

Definition whitelist_row (i : nat) (entry : gostring) : PolicyRule :=
  MkPolicyRule 0 (whitelist_texts entry).2 (whitelist_texts entry).1 ActionAllow [] true (Z.of_nat i).

Definition whitelist_rows (entries : list gostring) : list PolicyRule := imap whitelist_row entries.

(** [buildPolicyLogicFromCFRule] *)
Definition cf_domain_text (d : gostring) : gostring :=
  if HasPrefix d star_dot then
    let base := TrimPrefix d star_dot in
    str "(Domain == " ++ Quote base ++ str " || DomainEndsWith(Domain, " ++ Quote (dot :: base) ++ str "))"
  else if regex_like d then str "DomainMatches(Domain, " ++ Quote d ++ str ")"
  else str "Domain == " ++ Quote d.

Definition cf_cidr_text (c : gostring) : gostring := str "IPInCIDR(ClientIP, " ++ Quote c ++ str ")".

Definition any_of (parts : list gostring) : gostring :=
  match parts with [p] => p | _ => str "(" ++ GoStrings.Join parts (str " || ") ++ str ")" end.

Definition buildPolicyLogicFromCFRule (r : ForwardingRule) : gostring :=
  GoStrings.Join ((if no_items (fr_Domains r) then [] else [any_of (map cf_domain_text (fr_Domains r))]) ++
        (if no_items (fr_ClientCIDRs r) then [] else [any_of (map cf_cidr_text (fr_ClientCIDRs r))]) ++
        (if no_items (fr_QueryTypes r) then []
         else [str "QueryTypeIn(QueryType, " ++ GoStrings.Join (map Quote (fr_QueryTypes r)) (str ", ") ++ str ")"]))
       (str " && ").

Definition conditionalForwardingPolicyBand : Z := 1000.

(** Rules that are disabled, match nothing or have no upstreams are skipped. *)
Definition cf_row (r : ForwardingRule) : option PolicyRule :=
  let logic := buildPolicyLogicFromCFRule r in
  if negb (fr_Enabled r) then None
  else if bytes_eqb logic [] then None
  else if no_items (fr_Upstreams r) then None
  else
    let prio := if fr_Priority r =? 0 then 50 else fr_Priority r in
    Some (MkPolicyRule 0 (str "Forward " ++ fr_Name r ++ str " (migrated)") logic ActionForward
            (GoStrings.Join (fr_Upstreams r) (str ",")) true (conditionalForwardingPolicyBand + (100 - prio))).

Definition cf_rows (rs : list ForwardingRule) : list PolicyRule := omap cf_row rs.

(** ** The migrations *)

(** The database: the rules table, the sentinels of the key-value table
    [dynamic_config], and its row [allowed_clients] as the list its JSON holds. *)
Record Storage := MkStorage { ptable : Table; dynamic : gmap gostring gostring; clients_row : option (list gostring) }.

(** A missing key is the empty string. *)
Definition GetDynamicConfig (k : gostring) (st : Storage) : gostring := default [] (dynamic st !! k).
Definition SetDynamicConfig (k v : gostring) (st : Storage) : Storage := MkStorage (ptable st) (<[k := v]> (dynamic st)) (clients_row st).

Definition whitelistMigratedSentinel : gostring := str "whitelist_migrated_at".
Definition conditionalForwardingMigratedSentinel : gostring := str "conditional_forwarding_migrated_at".

(** Which statements of a boot succeed: the read of the sentinel, the insert of the
    i-th row, the write of the sentinel, the write of the file. *)
Record Faults := MkFaults { get_ok : bool; insert_ok : nat -> bool; set_ok : bool; save_ok : bool }.

(** The loop over the rows: a duplicate name or another error is counted or
    logged, and the loop goes on. *)
Fixpoint insert_rows (ok : nat -> bool) (i : nat) (rs : list PolicyRule) (t : Table) (migrated : nat) : Table * nat :=
  match rs with
  | [] => (t, migrated)
  | r :: rs' =>
      match (if ok i then CreatePolicyRule r t else None) with
      | Some (_, t') => insert_rows ok (S i) rs' t' (S migrated)
      | None => insert_rows ok (S i) rs' t migrated
      end
  end.

Definition row_entry (r : PolicyRule) : PolicyRuleEntry :=
  MkPolicyRuleEntry (pr_Name r) (pr_Logic r) (pr_Action r) (pr_ActionData r) (pr_Enabled r).

Definition with_policy (p : PolicyConfig) (c : Config) : Config :=
  MkConfig (Telemetry c) (Server c) p (Config.Auth c) (LocalRecords c) (ConditionalForwarding c) (Forwarder c)
    (UpstreamDNSServers c) (Blocklists c) (Whitelist c) (Logging c) (Database c) (Config.Cache c) (BlockPage c) (Unbound c)
    (UpdateInterval c) (AutoUpdateBlocklists c).
Definition with_whitelist (w : list gostring) (c : Config) : Config :=
  MkConfig (Telemetry c) (Server c) (Config.Policy c) (Config.Auth c) (LocalRecords c) (ConditionalForwarding c)
    (Forwarder c) (UpstreamDNSServers c) (Blocklists c) w (Logging c) (Database c) (Config.Cache c) (BlockPage c)
    (Unbound c) (UpdateInterval c) (AutoUpdateBlocklists c).

Section migrations.
Context {Y : YamlLib}.

(** What a migration leaves: the result, the configuration, the database, and
    the content it wrote to the file, if it did. *)
Definition Outcome : Type := bool * Config * option Storage * option gostring.

(** The part after the sentinel check that both migrations share: insert the rows
    (or append them to the configuration when there is no storage), enable the
    policies, drop the section, save, set the sentinel. *)
Definition migrate_rows (f : Faults) (path : bool) (now key : gostring) (rs : list PolicyRule) (drop_section : Config -> Config)
    (cfg : Config) (stor : option Storage) : Outcome :=
  let '(rules', stor', n) :=
    match stor with
    | Some st => let '(t, n) := insert_rows (insert_ok f) 0 rs (ptable st) 0 in
                 (po_Rules (Config.Policy cfg), Some (MkStorage t (dynamic st) (clients_row st)), n)
    | None => (po_Rules (Config.Policy cfg) ++ map row_entry rs, None, length rs)
    end in
  let cfg := drop_section (with_policy (MkPolicyConfig rules' true) cfg) in
  let file := if path then Save (save_ok f) cfg else None in
  let stor := match stor' with
              | Some st => Some (if set_ok f then SetDynamicConfig key now st else st)
              | None => None
              end in
  ((0 <? n)%nat, cfg, stor, file).

Definition sentinel_set (f : Faults) (key : gostring) (stor : option Storage) : bool :=
  match stor with Some st => get_ok f && negb (bytes_eqb (GetDynamicConfig key st) []) | None => false end.

Definition migrateWhitelistToPolicies (f : Faults) (path : bool) (now : gostring) (cfg : Config) (stor : option Storage) : Outcome :=
  if no_items (Whitelist cfg) then (false, cfg, stor, None)
  else if sentinel_set f whitelistMigratedSentinel stor then (false, with_whitelist [] cfg, stor, None)
  else migrate_rows f path now whitelistMigratedSentinel (whitelist_rows (Whitelist cfg)) (with_whitelist []) cfg stor.

Definition no_forwarding : ConditionalForwardingConfig := MkConditionalForwardingConfig [] false.

Definition migrateConditionalForwardingToPolicies (f : Faults) (path : bool) (now : gostring) (cfg : Config)
    (stor : option Storage) : Outcome :=
  if negb (cw_Enabled (ConditionalForwarding cfg)) || no_items (cw_Rules (ConditionalForwarding cfg))
  then (false, cfg, stor, None)
  else if sentinel_set f conditionalForwardingMigratedSentinel stor
  then (false, with_forwarding no_forwarding cfg, stor, None)
  else migrate_rows f path now conditionalForwardingMigratedSentinel (cf_rows (cw_Rules (ConditionalForwarding cfg)))
         (with_forwarding no_forwarding) cfg stor.
End migrations.

(** ** The engine and the allowlist *)

(** The statements of the rest of a boot. *)
Record BootFaults := MkBootFaults {
  bf_whitelist : Faults; bf_forwarding : Faults;
  bf_read : bool; bf_seed : nat -> bool; bf_reread : bool;
  bf_acl_get : bool; bf_acl_set : bool }.

Definition entry_row (i : nat) (e : PolicyRuleEntry) : PolicyRule :=
  MkPolicyRule 0 (pe_Name e) (pe_Logic e) (pe_Action e) (pe_ActionData e) (pe_Enabled e) (Z.of_nat i).

Definition with_clients (l : list gostring) (c : Config) : Config :=
  let x := Server c in
  with_server_config
    (MkServerConfig (ListenAddress x) (UDPListenAddress x) (TCPListenAddress x) (WebUIAddress x) (TCPEnabled x)
       (UDPEnabled x) (EnableBlocklist x) (EnablePolicies x) (DecisionTrace x) (CORSAllowedOrigins x) (DotEnabled x)
       (DotAddress x) l (ProxyProtocol x) (TLS x) (QueryLogger x) (TrustedProxies x)) c.

(** The list in the database, or the seeding of it from the file. *)
Definition load_allowed_clients (b : BootFaults) (cfg : Config) (stor : option Storage) : Config * option Storage :=
  match stor with
  | None => (cfg, None)
  | Some st =>
      match (if bf_acl_get b then clients_row st else None) with
      | Some l => (with_clients l cfg, Some st)
      | None =>
          let yaml := AllowedClients (Server cfg) in
          (cfg, Some (if negb (no_items yaml) && bf_acl_set b then MkStorage (ptable st) (dynamic st) (Some yaml) else st))
      end
  end.

Section boot.
Context {RX : RegexpLib} {EL : ExprLib} {Y : YamlLib}.

Definition entry_rule (e : PolicyRuleEntry) : Rule :=
  MkRule None (pe_Name e) (pe_Logic e) (pe_Action e) (pe_ActionData e) (pe_Enabled e).

Definition add_rules (rs : list Rule) (e : Engine) : Engine := foldl (fun e r => (AddRule r e).1) e rs.

(** The table, seeded on the first boot, and the engine built from it; without
    storage the engine is built from the file. *)
Definition start_policies (b : BootFaults) (cfg : Config) (stor : option Storage) : Engine * option Storage :=
  let yaml := po_Rules (Config.Policy cfg) in
  match stor with
  | None => (add_rules (map entry_rule yaml) NewEngine, None)
  | Some st =>
      let dbRules := if bf_read b then GetPolicyRules (ptable st) else [] in
      let '(dbRules, t) :=
        if no_items dbRules && negb (no_items yaml) then
          let t := (insert_rows (bf_seed b) 0 (imap entry_row yaml) (ptable st) 0).1 in
          (if bf_reread b then GetPolicyRules t else [], t)
        else (dbRules, ptable st) in
      (add_rules (map row_rule dbRules) NewEngine, Some (MkStorage t (dynamic st) (clients_row st)))
  end.

(** The state after a boot: the configuration in use, the engine, the database,
    and the file. *)
Record Booted := MkBooted { b_cfg : Config; b_engine : Engine; b_stor : option Storage; b_file : option gostring }.

Definition boot_with (b : BootFaults) (path : bool) (now : gostring) (cfg : Config) (stor : option Storage)
    (file : option gostring) : Booted :=
  let '(_, cfg, stor, file1) := migrateWhitelistToPolicies (bf_whitelist b) path now cfg stor in
  let '(_, cfg, stor, file2) := migrateConditionalForwardingToPolicies (bf_forwarding b) path now cfg stor in
  let '(engine, stor) := start_policies b cfg stor in
  let '(cfg, stor) := load_allowed_clients b cfg stor in
  MkBooted cfg engine stor (from_option Some (from_option Some file file1) file2).

Definition boot {B : BcryptLib} (e : Env) (b : BootFaults) (path : bool) (now : gostring) (stor : option Storage)
    (file : option gostring) : result LoadErr Booted :=
  match Load e file with
  | Err err => Err err
  | Ok cfg => Ok (boot_with b path now cfg stor file)
  end.

(** ** Inserting rows *)

Definition names (t : Table) : list gostring := pr_Name <$> rows t.

Lemma name_taken_spec n rs : name_taken n rs = bool_decide (n ∈ pr_Name <$> rs).
Proof.
  unfold name_taken. induction rs as [|r rs IH]; [done|]. cbn. rewrite IH. unfold bytes_eqb.
  repeat case_bool_decide; set_solver.
Qed.

(** Rows the table does not take. *)
Definition refused (t : Table) (r : PolicyRule) : Prop := pr_Name r ∈ names t \/ check_action (pr_Action r) = false.

Lemma create_refused r t : refused t r -> CreatePolicyRule r t = None.
Proof.
  intros H. unfold CreatePolicyRule, row_refused. rewrite name_taken_spec.
  destruct H as [H|H]; [by rewrite bool_decide_eq_true_2|]. by rewrite H, orb_true_r.
Qed.

Definition with_id (id : Z) (r : PolicyRule) : PolicyRule :=
  MkPolicyRule id (pr_Name r) (pr_Logic r) (pr_Action r) (pr_ActionData r) (pr_Enabled r) (pr_SortOrder r).

Lemma create_free r t :
  pr_Name r ∉ names t -> check_action (pr_Action r) = true ->
  CreatePolicyRule r t = Some (next_id t, MkTable (rows t ++ [with_id (next_id t) r]) (next_id t + 1)).
Proof. intros H Ha. unfold CreatePolicyRule, row_refused. rewrite name_taken_spec, Ha. by rewrite bool_decide_eq_false_2. Qed.

(** What a run without errors adds: the first row of every name that is free, with
    an action the table takes. *)
Fixpoint missing (taken : list gostring) (rs : list PolicyRule) : list PolicyRule :=
  match rs with
  | [] => []
  | r :: rs' => if bool_decide (pr_Name r ∈ taken) || negb (check_action (pr_Action r)) then missing taken rs' else r :: missing (taken ++ [pr_Name r]) rs'
  end.

Definition numbered (id : Z) (rs : list PolicyRule) : list PolicyRule := imap (fun i r => with_id (id + Z.of_nat i) r) rs.

Lemma numbered_cons id r rs : numbered id (r :: rs) = with_id id r :: numbered (id + 1) rs.
Proof.
  unfold numbered. rewrite imap_cons. f_equal; [f_equal; lia|]. apply imap_ext. intros i x _. cbn. f_equal. lia.
Qed.

Lemma insert_all rs : forall t i n,
  (insert_rows (fun _ => true) i rs t n).1 =
    MkTable (rows t ++ numbered (next_id t) (missing (names t) rs)) (next_id t + Z.of_nat (length (missing (names t) rs))).
Proof.
  induction rs as [|r rs IH]; intros t i n; cbn [insert_rows missing].
  { cbn. rewrite app_nil_r, Z.add_0_r. by destruct t. }
  destruct (bool_decide (pr_Name r ∈ names t)) eqn:H; cbn [orb].
  { bsimpl. rewrite create_refused by by left. apply IH. }
  destruct (check_action (pr_Action r)) eqn:Ha; cbn [negb]; [|rewrite create_refused; [apply IH|by right]].
  bsimpl. rewrite create_free by done. rewrite IH. unfold names. cbn [rows next_id].
  rewrite fmap_app, numbered_cons, <- app_assoc. 
  change (pr_Name <$> [with_id (next_id t) r]) with [pr_Name r]. cbn [length app]. f_equal. lia.
Qed.

Lemma insert_none ok rs : forall t i n,
  Forall (refused t) rs -> insert_rows ok i rs t n = (t, n).
Proof.
  induction rs as [|r rs IH]; intros t i n H; [done|]. apply Forall_cons in H as [H1 H2]. cbn [insert_rows].
  rewrite create_refused by done. by destruct (ok i); apply IH.
Qed.

Lemma missing_names rs : forall taken r, r ∈ rs ->
  pr_Name r ∈ taken ++ (pr_Name <$> missing taken rs) \/ check_action (pr_Action r) = false.
Proof.
  induction rs as [|x rs IH]; intros taken r Hr; [by apply elem_of_nil in Hr|]. cbn [missing].
  destruct (check_action (pr_Action x)) eqn:Ex; cbn [negb].
  - rewrite orb_false_r. apply elem_of_cons in Hr as [->|Hr].
    + left. case_bool_decide; set_solver.
    + case_bool_decide; [by apply IH|]. destruct (IH (taken ++ [pr_Name x]) r Hr) as [Hi|Hi]; [left; set_solver|by right].
  - rewrite orb_true_r. apply elem_of_cons in Hr as [->|Hr]; [by right|by apply IH].
Qed.

Lemma numbered_names id rs : pr_Name <$> numbered id rs = pr_Name <$> rs.
Proof.
  revert id. induction rs as [|r rs IH]; intros id; [done|]. rewrite numbered_cons. cbn. by rewrite IH.
Qed.

Lemma insert_all_names rs t i n r :
  r ∈ rs -> refused (insert_rows (fun _ => true) i rs t n).1 r.
Proof.
  intros H. rewrite insert_all. unfold refused, names at 1. cbn [rows]. rewrite fmap_app, numbered_names. by apply missing_names.
Qed.

Lemma insert_grows ok rs : forall t i n, exists more, rows (insert_rows ok i rs t n).1 = rows t ++ more.
Proof.
  induction rs as [|r rs IH]; intros t i n; [exists []; by rewrite app_nil_r|]. cbn [insert_rows].
  destruct (if ok i then _ else None) as [[id t']|] eqn:E; [|apply IH].
  destruct (ok i); [|done]. unfold CreatePolicyRule in E. destruct (row_refused _ _); [done|].
  injection E as _ <-. destruct (IH (MkTable (rows t ++ [MkPolicyRule (next_id t) (pr_Name r) (pr_Logic r) (pr_Action r)
    (pr_ActionData r) (pr_Enabled r) (pr_SortOrder r)]) (next_id t + 1)) (S i) (S n)) as [more ->].
  eexists. cbn [rows]. by rewrite <- app_assoc.
Qed.

Lemma insert_ext ok rs : forall t i n,
  (forall i, ok i = true) -> insert_rows ok i rs t n = insert_rows (fun _ => true) i rs t n.
Proof.
  induction rs as [|r rs IH]; intros t i n H; [done|]. cbn [insert_rows]. rewrite H.
  destruct (CreatePolicyRule r t) as [[id t']|]; by apply IH.
Qed.

(** ** The engine of a boot *)

Lemma add_rules_cons r rs e : add_rules (r :: rs) e = add_rules rs (AddRule r e).1.
Proof. done. Qed.

Lemma add_rules_rules rs : forall e, rules (add_rules rs e) = rules e ++ omap (fun r => match Compile r with Ok r' => Some r' | Err _ => None end) rs.
Proof.
  induction rs as [|r rs IH]; intros e; [by rewrite app_nil_r|]. rewrite add_rules_cons, IH. unfold AddRule. rewrite omap_cons_eq. destruct (Compile r); cbn [fst rules with_rules]; [|done].
  by rewrite <- app_assoc.
Qed.

Lemma add_rules_with rs : forall e, count e = count (with_rules (rules e)) ->
  add_rules rs e = with_rules (rules (add_rules rs e)).
Proof.
  induction rs as [|r rs IH]; intros e He; [by destruct e; cbn in *; subst|]. rewrite !add_rules_cons.
  apply IH. unfold AddRule. by destruct (Compile r).
Qed.

Lemma add_rules_engine l :
  add_rules (map row_rule l) NewEngine = with_rules (omap compile_row l).
Proof.
  rewrite add_rules_with by done. rewrite add_rules_rules. cbn [rules NewEngine app]. f_equal.
  induction l as [|r l IH]; [done|]. cbn [map]. rewrite !omap_cons_eq, IH. done.
Qed.

Lemma GetPolicyRules_nil t : GetPolicyRules t = [] <-> rows t = [].
Proof.
  unfold GetPolicyRules. split; intros H; [|by rewrite H].
  apply Permutation_nil_r. rewrite <- H. symmetry. apply merge_sort_Permutation.
Qed.

(** ** One boot after another *)

Definition section_rows (cfg : Config) : list PolicyRule :=
  whitelist_rows (Whitelist cfg) ++
  (if cw_Enabled (ConditionalForwarding cfg) then cf_rows (cw_Rules (ConditionalForwarding cfg)) else []).

Lemma migrate_rows_spec f path now key rs dropped cfg st :
  (forall c, po_Rules (Config.Policy (dropped c)) = po_Rules (Config.Policy c)) ->
  exists b cfg' st' file, migrate_rows f path now key rs dropped cfg (Some st) = (b, cfg', Some st', file) /\
    cfg' = dropped (with_policy (MkPolicyConfig (po_Rules (Config.Policy cfg)) true) cfg) /\
    ptable st' = (insert_rows (insert_ok f) 0 rs (ptable st) 0).1 /\
    dynamic st' = (if set_ok f then <[key := now]> (dynamic st) else dynamic st).
Proof.
  intros Hd. unfold migrate_rows. destruct (insert_rows _ _ _ _ _) as [t n]. do 4 eexists.
  split; [done|]. split; [done|]. by destruct (set_ok f).
Qed.

Lemma no_items_true {A} (l : list A) : no_items l = true -> l = [].
Proof. by destruct l. Qed.

(** The rows a migration inserts, by its guards. *)
Lemma whitelist_table f path now cfg st :
  exists b cfg' st' file, migrateWhitelistToPolicies f path now cfg (Some st) = (b, cfg', Some st', file) /\
    ConditionalForwarding cfg' = ConditionalForwarding cfg /\ po_Rules (Config.Policy cfg') = po_Rules (Config.Policy cfg) /\
    Whitelist cfg' = [] /\
    (forall k, k <> whitelistMigratedSentinel -> dynamic st' !! k = dynamic st !! k) /\
    ptable st' = (insert_rows (insert_ok f) 0
      (if sentinel_set f whitelistMigratedSentinel (Some st) then [] else whitelist_rows (Whitelist cfg)) (ptable st) 0).1.
Proof.
  unfold migrateWhitelistToPolicies. destruct (no_items (Whitelist cfg)) eqn:E.
  { apply no_items_true in E. do 4 eexists. split; [done|]. rewrite E. by destruct (sentinel_set _ _ _). }
  destruct (sentinel_set _ _ _); [by do 4 eexists|].
  destruct (migrate_rows_spec f path now whitelistMigratedSentinel (whitelist_rows (Whitelist cfg)) (with_whitelist []) cfg st)
    as (b & cfg' & st' & file & -> & -> & Ht & Hd); [done|].
  do 4 eexists. split; [done|]. split_and!; [done..| |done].
  intros k Hk. rewrite Hd. destruct (set_ok f); [|done]. by rewrite lookup_insert_ne.
Qed.

Lemma forwarding_table f path now cfg st :
  exists b cfg' st' file, migrateConditionalForwardingToPolicies f path now cfg (Some st) = (b, cfg', Some st', file) /\
    po_Rules (Config.Policy cfg') = po_Rules (Config.Policy cfg) /\
    ptable st' = (insert_rows (insert_ok f) 0
      (if sentinel_set f conditionalForwardingMigratedSentinel (Some st) || negb (cw_Enabled (ConditionalForwarding cfg)) then []
       else cf_rows (cw_Rules (ConditionalForwarding cfg))) (ptable st) 0).1.
Proof.
  unfold migrateConditionalForwardingToPolicies. destruct (cw_Enabled (ConditionalForwarding cfg)) eqn:Een; cbn [negb orb].
  2: { do 4 eexists. split; [done|]. by rewrite orb_true_r. }
  destruct (no_items (cw_Rules (ConditionalForwarding cfg))) eqn:E.
  { apply no_items_true in E. do 4 eexists. split; [done|]. rewrite E, orb_false_r. by destruct (sentinel_set _ _ _). }
  rewrite orb_false_r. destruct (sentinel_set _ _ _); [by do 4 eexists|].
  destruct (migrate_rows_spec f path now conditionalForwardingMigratedSentinel
    (cf_rows (cw_Rules (ConditionalForwarding cfg))) (with_forwarding no_forwarding) cfg st)
    as (b & cfg' & st' & file & -> & -> & Ht & Hd); [done|].
  by do 4 eexists.
Qed.

Lemma policies_table b cfg st :
  exists st', start_policies b cfg (Some st) =
    (with_rules (omap compile_row (if no_items (if bf_read b then GetPolicyRules (ptable st) else []) &&
                                      negb (no_items (po_Rules (Config.Policy cfg)))
                                   then if bf_reread b then GetPolicyRules (ptable st') else []
                                   else if bf_read b then GetPolicyRules (ptable st) else [])), Some st') /\
    ptable st' = (insert_rows (bf_seed b) 0
      (if no_items (if bf_read b then GetPolicyRules (ptable st) else []) then imap entry_row (po_Rules (Config.Policy cfg)) else [])
      (ptable st) 0).1.
Proof.
  unfold start_policies. destruct (no_items (if bf_read b then _ else _)) eqn:E; cbn [andb].
  - destruct (no_items (po_Rules (Config.Policy cfg))) eqn:Ey; cbn [negb].
    + apply no_items_true in Ey. rewrite Ey. eexists. split; [by rewrite add_rules_engine|]. done.
    + exists (MkStorage (insert_rows (bf_seed b) 0 (imap entry_row (po_Rules (Config.Policy cfg))) (ptable st) 0).1
               (dynamic st) (clients_row st)).
      by rewrite add_rules_engine.
  - eexists. split; [by rewrite add_rules_engine|]. done.
Qed.

Lemma clients_table b cfg st :
  exists cfg' st', load_allowed_clients b cfg (Some st) = (cfg', Some st') /\ ptable st' = ptable st.
Proof.
  unfold load_allowed_clients. destruct (if bf_acl_get b then _ else _); [by do 2 eexists|].
  do 2 eexists. split; [done|]. by destruct (_ && _).
Qed.

(** A boot whose inserts and reads of the table succeed. *)
Definition clean_boot (b : BootFaults) : Prop :=
  (forall i, insert_ok (bf_whitelist b) i = true) /\ (forall i, insert_ok (bf_forwarding b) i = true) /\
  (forall i, bf_seed b i = true) /\ bf_read b = true /\ bf_reread b = true.

(** A later boot finds the same sections, or what is left of them. *)
Definition later_config (cfg0 cfg : Config) : Prop :=
  Whitelist cfg ⊆ Whitelist cfg0 /\
  (cw_Enabled (ConditionalForwarding cfg) = true -> cw_Enabled (ConditionalForwarding cfg0) = true) /\
  cw_Rules (ConditionalForwarding cfg) ⊆ cw_Rules (ConditionalForwarding cfg0) /\
  po_Rules (Config.Policy cfg) = po_Rules (Config.Policy cfg0).

Lemma whitelist_rows_names w w0 t :
  w ⊆ w0 -> (forall r, r ∈ whitelist_rows w0 -> pr_Name r ∈ names t) -> Forall (refused t) (whitelist_rows w).
Proof.
  intros Hw H. apply Forall_forall. intros r Hr. left. unfold whitelist_rows in Hr. apply elem_of_lookup_imap_1 in Hr as (i & e & -> & He).
  apply list_elem_of_lookup_2, Hw, list_elem_of_lookup in He as [j Hj].
  exact (H (whitelist_row j e) (elem_of_lookup_imap_2 _ _ _ _ Hj)).
Qed.

Lemma cf_rows_names rs rs0 t :
  rs ⊆ rs0 -> (forall r, r ∈ cf_rows rs0 -> pr_Name r ∈ names t) -> Forall (refused t) (cf_rows rs).
Proof.
  intros Hw H. apply Forall_forall. intros r Hr. left. apply H. apply list_elem_of_omap in Hr as (x & Hx & E).
  apply list_elem_of_omap. exists x. split; [by apply Hw|done].
Qed.

Lemma cf_rows_actions rs : Forall (fun r => check_action (pr_Action r) = true) (cf_rows rs).
Proof.
  apply Forall_forall. intros r H. apply list_elem_of_omap in H as (x & _ & E). unfold cf_row in E.
  destruct (negb _); [done|]. destruct (bytes_eqb _ _); [done|]. destruct (no_items _); [done|]. by injection E as <-.
Qed.

Lemma section_actions cfg r : r ∈ section_rows cfg -> check_action (pr_Action r) = true.
Proof.
  intros H. apply elem_of_app in H as [H|H].
  - unfold whitelist_rows in H. by apply elem_of_lookup_imap_1 in H as (i & e & -> & _).
  - destruct (cw_Enabled _); [|by apply elem_of_nil in H]. revert r H. apply Forall_forall, cf_rows_actions.
Qed.

Lemma names_grow t more : names t ⊆ pr_Name <$> (rows t ++ more).
Proof. rewrite fmap_app. set_solver. Qed.

Lemma boot_with_spec b path now cfg st file :
  exists st' t1 t2, b_stor (boot_with b path now cfg (Some st) file) = Some st' /\
    b_engine (boot_with b path now cfg (Some st) file) =
      with_rules (omap compile_row
        (if no_items (if bf_read b then GetPolicyRules t2 else []) && negb (no_items (po_Rules (Config.Policy cfg)))
         then if bf_reread b then GetPolicyRules (ptable st') else []
         else if bf_read b then GetPolicyRules t2 else [])) /\
    t1 = (insert_rows (insert_ok (bf_whitelist b)) 0
      (if sentinel_set (bf_whitelist b) whitelistMigratedSentinel (Some st) then [] else whitelist_rows (Whitelist cfg)) (ptable st) 0).1 /\
    (exists d, dynamic st !! conditionalForwardingMigratedSentinel = d /\
     t2 = (insert_rows (insert_ok (bf_forwarding b)) 0
      (if get_ok (bf_forwarding b) && negb (bytes_eqb (default [] d) []) || negb (cw_Enabled (ConditionalForwarding cfg)) then []
       else cf_rows (cw_Rules (ConditionalForwarding cfg))) t1 0).1) /\
    ptable st' = (insert_rows (bf_seed b) 0
      (if no_items (if bf_read b then GetPolicyRules t2 else []) then imap entry_row (po_Rules (Config.Policy cfg)) else [])
      t2 0).1.
Proof.
  unfold boot_with.
  destruct (whitelist_table (bf_whitelist b) path now cfg st) as (b1 & cfg1 & st1 & f1 & -> & Hcf & Hpo & _ & Hdyn & Ht1).
  destruct (forwarding_table (bf_forwarding b) path now cfg1 st1) as (b2 & cfg2 & st2 & f2 & -> & Hpo2 & Ht2).
  destruct (policies_table b cfg2 st2) as (st3 & -> & Ht3). rewrite Hpo2, Hpo in *. rewrite Hcf in Ht2.
  destruct (clients_table b cfg2 st3) as (cfg4 & st4 & -> & Ht4). cbn [b_stor b_engine].
  exists st4, (ptable st1), (ptable st2). rewrite Ht4. split_and!; [done..|exact Ht1| |exact Ht3].
  exists (dynamic st !! conditionalForwardingMigratedSentinel). split; [done|]. rewrite Ht2. unfold sentinel_set, GetDynamicConfig.
  by rewrite Hdyn.
Qed.

Lemma no_items_cons {A} (l : list A) : no_items l = false -> l <> [].
Proof. by destruct l. Qed.

Lemma boot_first b path now cfg st file :
  clean_boot b -> dynamic st = ∅ ->
  exists st1, b_stor (boot_with b path now cfg (Some st) file) = Some st1 /\
    b_engine (boot_with b path now cfg (Some st) file) = with_rules (omap compile_row (GetPolicyRules (ptable st1))) /\
    (exists more, rows (ptable st1) = rows (ptable st) ++ more) /\
    (forall r, r ∈ section_rows cfg -> pr_Name r ∈ names (ptable st1)) /\
    (rows (ptable st1) = [] -> Forall (refused (ptable st1)) (imap entry_row (po_Rules (Config.Policy cfg)))).
Proof.
  intros (Hw & Hf & Hs & Hr & Hrr) Hd.
  destruct (boot_with_spec b path now cfg st file) as (st1 & t1 & t2 & -> & -> & Ht1 & (d & Hdy & Ht2) & Ht3).
  assert (sentinel_set (bf_whitelist b) whitelistMigratedSentinel (Some st) = false) as Hsn.
  { unfold sentinel_set, GetDynamicConfig. rewrite Hd, lookup_empty. cbn [default]. by rewrite bytes_eqb_refl, andb_false_r. }
  rewrite Hd, lookup_empty in Hdy. subst d. rewrite Hsn, insert_ext in Ht1 by done.
  cbn [default bytes_eqb] in Ht2. unfold bytes_eqb in Ht2. rewrite bool_decide_eq_true_2, andb_false_r, orb_false_l in Ht2 by done.
  rewrite insert_ext in Ht2 by done. rewrite insert_ext in Ht3 by done. rewrite Hr, Hrr in *.
  destruct (insert_grows (fun _ => true) (whitelist_rows (Whitelist cfg)) (ptable st) 0 0) as [m1 E1]. rewrite <- Ht1 in E1.
  destruct (insert_grows (fun _ => true) (if negb (cw_Enabled (ConditionalForwarding cfg)) then []
       else cf_rows (cw_Rules (ConditionalForwarding cfg))) t1 0 0) as [m2 E2]. rewrite <- Ht2 in E2.
  destruct (insert_grows (fun _ => true) (if no_items (GetPolicyRules t2) then imap entry_row (po_Rules (Config.Policy cfg)) else [])
    t2 0 0) as [m3 E3]. rewrite <- Ht3 in E3.
  assert (rows (ptable st1) = [] -> Forall (refused (ptable st1)) (imap entry_row (po_Rules (Config.Policy cfg)))) as Hne.
  { intros Hnil. apply Forall_forall. intros r Hin. rewrite Ht3. rewrite E3 in Hnil. apply app_eq_nil in Hnil as [Hnil _].
    rewrite (proj2 (GetPolicyRules_nil t2) Hnil). cbn [no_items]. by apply insert_all_names. }
  exists st1. split_and!; [done| | | |done].
  - do 2 f_equal. destruct (no_items (GetPolicyRules t2)) eqn:E; cbn [andb].
    + destruct (no_items (po_Rules (Config.Policy cfg))) eqn:Ey; cbn [negb]; [|done].
      apply no_items_true in Ey. rewrite Ey in Ht3. cbn in Ht3. by rewrite Ht3.
    + cbn in Ht3. by rewrite Ht3.
  - exists (m1 ++ m2 ++ m3). by rewrite E3, E2, E1, !app_assoc.
  - intros r Hin. apply elem_of_app in Hin as [Hin|Hin].
    + assert (pr_Name r ∈ names t1) as H.
      { pose proof (insert_all_names (whitelist_rows (Whitelist cfg)) (ptable st) 0 0 r Hin) as [H|H]; [by rewrite Ht1|].
        rewrite (section_actions cfg) in H; [done|]. apply elem_of_app. by left. }
      unfold names. rewrite E3, E2, !fmap_app. set_solver.
    + pose proof (section_actions cfg r) as Ha. unfold section_rows in Ha. rewrite elem_of_app in Ha.
      destruct (cw_Enabled _); [|by apply elem_of_nil in Hin]. cbn [negb] in Ht2.
      assert (pr_Name r ∈ names t2) as H.
      { pose proof (insert_all_names (cf_rows (cw_Rules (ConditionalForwarding cfg))) t1 0 0 r Hin) as [H|H]; [by rewrite Ht2|].
        rewrite Ha in H; [done|by right]. }
      unfold names. rewrite E3, fmap_app. set_solver.
Qed.

Lemma boot_again b path now cfg st file :
  bf_read b = true -> Forall (refused (ptable st)) (section_rows cfg) ->
  (rows (ptable st) = [] -> Forall (refused (ptable st)) (imap entry_row (po_Rules (Config.Policy cfg)))) ->
  exists st', b_stor (boot_with b path now cfg (Some st) file) = Some st' /\ ptable st' = ptable st /\
    b_engine (boot_with b path now cfg (Some st) file) = with_rules (omap compile_row (GetPolicyRules (ptable st))).
Proof.
  intros Hr Hn Hne. apply Forall_app in Hn as [Hn1 Hn2].
  destruct (boot_with_spec b path now cfg st file) as (st1 & t1 & t2 & -> & -> & Ht1 & (d & _ & Ht2) & Ht3).
  assert (t1 = ptable st) as -> by (rewrite Ht1; destruct (sentinel_set _ _ _); [done|]; by rewrite insert_none).
  assert (t2 = ptable st) as ->.
  { rewrite Ht2. destruct (cw_Enabled _); cbn [negb]; [|by rewrite orb_true_r]. destruct (_ || false); [done|]. by rewrite insert_none. }
  rewrite Hr in *. destruct (no_items (GetPolicyRules (ptable st))) eqn:E; cbn [andb].
  - pose proof E as Enil. apply no_items_true, GetPolicyRules_nil in Enil. rewrite insert_none in Ht3 by by apply Hne.
    cbn [fst] in Ht3. exists st1. split_and!; [done|done|]. apply no_items_true in E. rewrite Ht3, E. by destruct (negb (no_items (po_Rules (Config.Policy cfg)))), (bf_reread b).
  - cbn in Ht3. exists st1. by split_and!.
Qed.

Definition reboot (path : bool) (s : Booted) (later : BootFaults * gostring * Config) : Booted :=
  boot_with later.1.1 path later.1.2 later.2 (b_stor s) (b_file s).

(** C27: The migrations run once.  After the first boot with this database, if its
    inserts and reads succeeded, the rules table still has all its old rows and has
    a rule for every whitelist entry and every usable forwarding rule; and then any
    number of boots that can read the rules table leave table and engine as they are,
    although the sentinels, the file or the inserts of any of those boots may fail, and
    the file may still hold the old sections. *)
Theorem reboot_stable (path : bool) (b0 : BootFaults) (now0 : gostring) (cfg0 : Config) (st0 : Storage) (file0 : option gostring)
    (later : list (BootFaults * gostring * Config))
    (Hb : clean_boot b0) (Hd : dynamic st0 = ∅)
    (Hl : Forall (fun l => bf_read l.1.1 = true /\ later_config cfg0 l.2) later) :
  let s1 := boot_with b0 path now0 cfg0 (Some st0) file0 in
  exists st1 stn, b_stor s1 = Some st1 /\ b_stor (foldl (reboot path) s1 later) = Some stn /\
    (exists more, rows (ptable st1) = rows (ptable st0) ++ more) /\
    (forall r, r ∈ section_rows cfg0 -> pr_Name r ∈ names (ptable st1)) /\
    ptable stn = ptable st1 /\ b_engine (foldl (reboot path) s1 later) = b_engine s1 /\
    rules (b_engine s1) = omap compile_row (GetPolicyRules (ptable st1)).
Proof.
  cbn zeta. set (s1 := boot_with b0 path now0 cfg0 (Some st0) file0).
  destruct (boot_first b0 path now0 cfg0 st0 file0 Hb Hd) as (st1 & Hs1 & He1 & Hmore & Hnames & Hne). fold s1 in Hs1, He1.
  enough (exists stn, b_stor (foldl (reboot path) s1 later) = Some stn /\ ptable stn = ptable st1 /\
    b_engine (foldl (reboot path) s1 later) = b_engine s1) as (stn & H1 & H2 & H3).
  { exists st1, stn. split_and!; try done. by rewrite He1. }
  induction later as [|l later IH] using rev_ind; [by exists st1|].
  apply Forall_app in Hl as [Hl Hx]. apply Forall_singleton in Hx as [Hr (Hw & Hen & Hcf & Hpo)].
  destruct (IH Hl) as (stm & Hm1 & Hm2 & Hm3). rewrite foldl_app. cbn [foldl]. unfold reboot at 1 3. rewrite Hm1.
  destruct (boot_again l.1.1 path l.1.2 l.2 stm (b_file (foldl (reboot path) s1 later)) Hr) as (stn & Hn1 & Hn2 & Hn3).
  - rewrite Hm2. apply Forall_app. split.
    + apply (whitelist_rows_names _ (Whitelist cfg0)); [done|]. intros r Hin. apply Hnames, elem_of_app. by left.
    + destruct (cw_Enabled (ConditionalForwarding l.2)); [|done].
      apply (cf_rows_names _ (cw_Rules (ConditionalForwarding cfg0))); [done|]. intros r Hin. apply Hnames, elem_of_app. right.
      by rewrite Hen.
  - by rewrite Hm2, Hpo.
  - exists stn. split_and!; [done|congruence|]. rewrite Hn3, He1. by rewrite Hm2.
Qed.

(** A boot that cannot read the rules table takes it for an empty one: without rules in
    the file the engine has none at all. *)
Lemma failed_read_empties b path now cfg st file :
  bf_read b = false -> po_Rules (Config.Policy cfg) = [] -> rules (b_engine (boot_with b path now cfg (Some st) file)) = [].
Proof. intros Hr Hy. destruct (boot_with_spec b path now cfg st file) as (st' & t1 & t2 & _ & -> & _). by rewrite Hr, Hy. Qed.

(** Once the sentinels are set and readable, a boot leaves a table with rules
    alone, whatever was edited in between and whatever the file holds. *)
Lemma marked_boot b path now cfg st file :
  sentinel_set (bf_whitelist b) whitelistMigratedSentinel (Some st) = true ->
  sentinel_set (bf_forwarding b) conditionalForwardingMigratedSentinel (Some st) = true ->
  bf_read b = true -> rows (ptable st) <> [] ->
  exists st', b_stor (boot_with b path now cfg (Some st) file) = Some st' /\ ptable st' = ptable st.
Proof.
  intros Hw Hf Hr Hne. destruct (boot_with_spec b path now cfg st file) as (st1 & t1 & t2 & -> & _ & Ht1 & (d & Hdy & Ht2) & Ht3).
  rewrite Hw in Ht1. unfold sentinel_set, GetDynamicConfig in Hf. rewrite Hdy in Hf. rewrite Hf in Ht2.
  cbn in Ht1, Ht2. subst t1 t2. exists st1. split; [done|]. rewrite Ht3, Hr.
  destruct (no_items (GetPolicyRules (ptable st))) eqn:E; [|done]. apply no_items_true, GetPolicyRules_nil in E. done.
Qed.

(** The rules of the file are lost when there is a whitelist to migrate: the
    migration fills the table first, so the table is not empty when the seeding
    looks at it, and neither this boot nor a later one inserts them. *)
Theorem whitelist_hides_file_rules (path : bool) (b : BootFaults) (now : gostring) (cfg : Config) (file : option gostring)
    (Hb : clean_boot b) (Hw : Whitelist cfg <> []) (Hcf : cw_Enabled (ConditionalForwarding cfg) = false) :
  exists st1, b_stor (boot_with b path now cfg (Some (MkStorage (MkTable [] 1) ∅ None)) file) = Some st1 /\
    rows (ptable st1) = numbered 1 (missing [] (whitelist_rows (Whitelist cfg))) /\
    (forall r, r ∈ rows (ptable st1) -> exists entry, entry ∈ Whitelist cfg /\ pr_Name r = (whitelist_texts entry).2).
Proof.
  destruct Hb as (Hok & _ & _ & Hr & _).
  destruct (boot_with_spec b path now cfg (MkStorage (MkTable [] 1) ∅ None) file)
    as (st1 & t1 & t2 & -> & _ & Ht1 & (d & _ & Ht2) & Ht3).
  assert (sentinel_set (bf_whitelist b) whitelistMigratedSentinel (Some (MkStorage (MkTable [] 1) ∅ None)) = false) as Hs.
  { unfold sentinel_set, GetDynamicConfig. cbn [dynamic]. rewrite lookup_empty. cbn [default]. by rewrite bytes_eqb_refl, andb_false_r. }
  rewrite Hs, insert_ext, insert_all in Ht1 by done. cbn [ptable rows next_id] in Ht1. change (names (MkTable [] 1)) with (@nil gostring) in Ht1.
  rewrite Hcf, orb_true_r in Ht2. cbn in Ht2. subst t2 t1.
  assert (missing [] (whitelist_rows (Whitelist cfg)) <> []) as Hne.
  { destruct (Whitelist cfg) as [|e l]; [done|]. unfold whitelist_rows. rewrite imap_cons. cbn [missing].
    rewrite bool_decide_eq_false_2 by apply not_elem_of_nil. by change (check_action (pr_Action (whitelist_row 0 e))) with true. }
  rewrite Hr in Ht3. destruct (no_items (GetPolicyRules _)) eqn:E.
  { apply no_items_true, GetPolicyRules_nil in E. cbn [rows app] in E. apply (f_equal length) in E.
    unfold numbered in E. rewrite length_imap in E. by destruct (missing _ _). }
  cbn in Ht3. exists st1. rewrite Ht3. split_and!; [done|done|]. cbn [rows app]. intros r Hin.
  assert (forall taken rs x, x ∈ missing taken rs -> x ∈ rs) as Hsub.
  { intros taken rs. revert taken. induction rs as [|y rs IH]; intros taken x; [done|]. cbn [missing].
    destruct (_ || _); rewrite !elem_of_cons; [by right; eapply IH|]. intros [->|]; [by left|right; by eapply IH]. }
  apply elem_of_lookup_imap_1 in Hin as (i & x & -> & Hx). apply list_elem_of_lookup_2, Hsub in Hx.
  apply elem_of_lookup_imap_1 in Hx as (j & e & -> & He). exists e. split; [by eapply list_elem_of_lookup_2|done].
Qed.

End boot.

(** ** The order of the migrated rules *)

Lemma sorted_before {A} (R : relation A) l a b :
  StronglySorted R l -> a ∈ l -> b ∈ l -> ~ R b a -> a <> b -> exists l1 l2 l3, l = l1 ++ a :: l2 ++ b :: l3.
Proof.
  induction 1 as [|x l Hs IH Hf]; intros Ha Hb Hn Hne; [by apply elem_of_nil in Ha|].
  apply elem_of_cons in Ha as [Ea|Ha]; apply elem_of_cons in Hb as [Eb|Hb].
  - congruence.
  - subst x. apply list_elem_of_split in Hb as (l2 & l3 & ->). by exists [], l2, l3.
  - subst x. rewrite Forall_forall in Hf. exfalso. by apply Hn, Hf.
  - destruct (IH Ha Hb Hn Hne) as (l1 & l2 & l3 & ->). by exists (x :: l1), l2, l3.
Qed.

Lemma GetPolicyRules_before t a b :
  a ∈ rows t -> b ∈ rows t -> ~ row_le b a -> exists l1 l2 l3, GetPolicyRules t = l1 ++ a :: l2 ++ b :: l3.
Proof.
  intros Ha Hb Hn. apply (sorted_before row_le).
  - unfold GetPolicyRules. apply (StronglySorted_merge_sort row_le).
  - unfold GetPolicyRules. by rewrite merge_sort_Permutation.
  - unfold GetPolicyRules. by rewrite merge_sort_Permutation.
  - done.
  - intros ->. apply Hn. right. lia.
Qed.

Definition priority (r : ForwardingRule) : Z := if fr_Priority r =? 0 then 50 else fr_Priority r.

(** The inserted row of a rule whose name is new. *)
Lemma missing_lookup taken rs i r :
  Forall (fun r => check_action (pr_Action r) = true) rs ->
  rs !! i = Some r -> pr_Name r ∉ taken -> NoDup (pr_Name <$> rs) -> exists k, (k <= i)%nat /\ missing taken rs !! k = Some r /\
    forall i' r', rs !! i' = Some r' -> pr_Name r' ∉ taken -> (i < i')%nat ->
      exists k', (k < k')%nat /\ missing taken rs !! k' = Some r'.
Proof.
  revert taken i r. induction rs as [|x rs IH]; intros taken i r Hf Hi Hn Hd; [done|]. apply Forall_cons in Hf as [Hx0 Hf]. cbn in Hd. apply NoDup_cons in Hd as [Hx Hd].
  assert (forall y, y ∈ rs -> pr_Name y ∉ taken -> pr_Name y ∉ taken ++ [pr_Name x]) as Hkeep.
  { intros y Hy Hy'. rewrite elem_of_app, list_elem_of_singleton. intros [|E]; [done|]. apply Hx. rewrite <- E.
    by apply list_elem_of_fmap_2. }
  cbn [missing]. rewrite Hx0. cbn [negb]. rewrite orb_false_r. destruct i as [|i].
  - injection Hi as ->. rewrite bool_decide_eq_false_2 by done. exists 0%nat. split_and!; [lia|done|].
    intros [|i'] r' Hr' Hn' Hlt; [lia|]. cbn in Hr'.
    assert (r' ∈ rs) as Hin by by eapply list_elem_of_lookup_2.
    destruct (IH (taken ++ [pr_Name r]) i' r' Hf Hr' (Hkeep _ Hin Hn') Hd) as (k & _ & Hk & _). exists (S k). split; [lia|done].
  - cbn in Hi. assert (r ∈ rs) as Hin by by eapply list_elem_of_lookup_2. case_bool_decide as Hb.
    + destruct (IH taken i r Hf Hi Hn Hd) as (k & Hle & Hk & Hlater). exists k. split_and!; [lia|done|].
      intros [|i'] r' Hr' Hn' Hlt; [lia|]. apply (Hlater i'); [done..|lia].
    + destruct (IH (taken ++ [pr_Name x]) i r Hf Hi (Hkeep _ Hin Hn) Hd) as (k & Hle & Hk & Hlater).
      exists (S k). split_and!; [lia|done|]. intros [|i'] r' Hr' Hn' Hlt; [lia|]. cbn in Hr'.
      destruct (Hlater i' r' Hr') as (k' & Hk' & Hl'); [|lia|].
      { apply Hkeep; [by eapply list_elem_of_lookup_2|done]. }
      exists (S k'). split; [lia|done].
Qed.

Definition precedes (l : list PolicyRule) (a b : PolicyRule) : Prop := exists l1 l2 l3, l = l1 ++ a :: l2 ++ b :: l3.

Lemma cf_row_order r x : cf_row r = Some x -> pr_SortOrder x = 1100 - priority r.
Proof.
  unfold cf_row, priority. destruct (negb _); [done|]. destruct (bytes_eqb _ _); [done|]. destruct (no_items _); [done|].
  intros [= <-]. cbn [pr_SortOrder]. unfold conditionalForwardingPolicyBand. lia.
Qed.

Lemma inserted_row t rs k x :
  missing (names t) rs !! k = Some x ->
  with_id (next_id t + Z.of_nat k) x ∈ rows (insert_rows (fun _ => true) 0 rs t 0).1.
Proof.
  intros H. rewrite insert_all. cbn [rows]. apply elem_of_app. right. unfold numbered.
  by eapply (elem_of_lookup_imap_2 (fun i r => with_id (next_id t + Z.of_nat i) r)).
Qed.

(** Migrated forwarding rules keep their order.  Of two rules of the section
    with names of their own, the engine's order (ORDER BY sort_order, id) puts the
    one with the higher priority first, the default for a missing priority being
    50, and among equals the one that comes first in the file; rules already in
    the table below the band of 1000 come before both. *)
Theorem cf_order (t : Table) (l1 l2 l3 : list ForwardingRule) (a b : ForwardingRule) (ra rb : PolicyRule)
    (Ha : cf_row a = Some ra) (Hb : cf_row b = Some rb)
    (Hd : NoDup (pr_Name <$> cf_rows (l1 ++ a :: l2 ++ b :: l3)))
    (Hfree : Forall (fun r => pr_Name r ∉ names t) (cf_rows (l1 ++ a :: l2 ++ b :: l3))) :
  let t' := (insert_rows (fun _ => true) 0 (cf_rows (l1 ++ a :: l2 ++ b :: l3)) t 0).1 in
  exists i j, with_id i ra ∈ rows t' /\ with_id j rb ∈ rows t' /\
    (priority b <= priority a -> precedes (GetPolicyRules t') (with_id i ra) (with_id j rb)) /\
    (priority a < priority b -> precedes (GetPolicyRules t') (with_id j rb) (with_id i ra)) /\
    (forall r, r ∈ rows t -> pr_SortOrder r < 1000 -> priority a <= 100 -> precedes (GetPolicyRules t') r (with_id i ra)).
Proof.
  cbn zeta. set (rs := cf_rows (l1 ++ a :: l2 ++ b :: l3)) in *. set (t' := (insert_rows _ _ _ _ _).1).
  assert (rs = cf_rows l1 ++ ra :: cf_rows l2 ++ rb :: cf_rows l3) as Ers.
  { unfold rs, cf_rows. by rewrite omap_app, omap_cons_eq, Ha, omap_app, omap_cons_eq, Hb. }
  assert (rs !! length (cf_rows l1) = Some ra) as Hi by (rewrite Ers; by apply list_lookup_middle).
  assert (rs !! (length (cf_rows l1) + S (length (cf_rows l2)))%nat = Some rb) as Hj.
  { rewrite Ers, lookup_app_r by lia. rewrite Nat.add_comm, Nat.add_sub. by apply (list_lookup_middle (cf_rows l2)). }
  rewrite Forall_forall in Hfree.
  destruct (missing_lookup (names t) rs _ ra (cf_rows_actions _) Hi) as (k & _ & Hk & Hlater).
  { apply Hfree. by eapply list_elem_of_lookup_2. }
  { done. }
  destruct (Hlater _ rb Hj) as (k' & Hlt & Hk'); [|lia|].
  { apply Hfree. by eapply list_elem_of_lookup_2. }
  apply inserted_row in Hk, Hk'. apply cf_row_order in Ha, Hb.
  exists (next_id t + Z.of_nat k), (next_id t + Z.of_nat k'). split_and!; [done..| | |].
  - intros Hp. apply GetPolicyRules_before; [done..|]. unfold row_le. cbn [pr_SortOrder pr_ID with_id]. lia.
  - intros Hp. apply GetPolicyRules_before; [done..|]. unfold row_le. cbn [pr_SortOrder pr_ID with_id]. lia.
  - intros r Hr Ho Hp. apply GetPolicyRules_before; [|done|].
    + unfold t'. destruct (insert_grows (fun _ => true) rs t 0 0) as [more ->]. apply elem_of_app. by left.
    + unfold row_le. cbn [pr_SortOrder pr_ID with_id]. lia.
Qed.

(** ** What the generated expressions say *)

(** The fragment of the expression language the migrations write. *)
Inductive Expr :=
| DomainIs (s : gostring) | EndsWith (s : gostring) | MatchesDomain (s : gostring) | InCIDR (s : gostring)
| TypeIn (l : list gostring) | Or (l : list Expr) | AnyOf (l : list Expr) | AllOf (l : list Expr).


Fixpoint holds (ctx : Context) (e : Expr) : bool :=
  match e with
  | DomainIs s => bytes_eqb (Policy.Domain ctx) s
  | EndsWith s => DomainEndsWith (Policy.Domain ctx) s
  | MatchesDomain s => DomainMatches (Policy.Domain ctx) s
  | InCIDR s => IPInCIDR_pure (Policy.ClientIP ctx) s
  | TypeIn l => QueryTypeIn (Policy.QueryType ctx) l
  | Or l | AnyOf l => existsb (holds ctx) l
  | AllOf l => forallb (holds ctx) l
  end.

(** The expressions of a domain and of a rule. *)
Definition domain_expr (d : gostring) : Expr :=
  if HasPrefix d star_dot
  then let base := TrimPrefix d star_dot in AnyOf [DomainIs base; EndsWith (dot :: base)]
  else if regex_like d then MatchesDomain d else DomainIs d.







(** ** What the entries describe *)

(** An entry of a list is a name, a name with all names below it, or a regexp
    (docs/guide/pattern-matching.md, and the migration plan of the sections). *)
Inductive Matcher := OneName (d : gostring) | NameAndBelow (base : gostring) | RegexpOf (p : gostring).

Definition matcher_of (entry : gostring) : Matcher :=
  if HasPrefix entry star_dot then NameAndBelow (TrimPrefix entry star_dot)
  else if regex_like entry then RegexpOf entry else OneName entry.



Section describes.
Context {RX : RegexpLib}.

(** The names a matcher describes: names are compared without regard to case, and what
    is below a name ends with a dot and that name. *)
Definition describes (domain : gostring) (m : Matcher) : Prop :=
  match m with
  | OneName d => ToLower domain = ToLower d
  | NameAndBelow base => ToLower domain = ToLower base \/ exists labels, ToLower domain = labels ++ dot :: ToLower base
  | RegexpOf p => exists re, regexp_Compile p = Some re /\ regexp_MatchString re (ToLower domain) = true
  end.



End describes.

(** The same as a boolean, with the helpers the generated texts call. *)
Definition domain_holds (domain d : gostring) : bool :=
  match matcher_of d with
  | OneName d => bytes_eqb domain d
  | NameAndBelow base => bytes_eqb domain base || DomainEndsWith domain (dot :: base)
  | RegexpOf p => DomainMatches domain p
  end.




Lemma domain_expr_holds ctx d : holds ctx (domain_expr d) = domain_holds (Policy.Domain ctx) d.
Proof.
  unfold domain_expr, domain_holds, matcher_of. destruct (HasPrefix _ _); [cbn; by rewrite orb_false_r|].
  by destruct (regex_like d).
Qed.


(** ** Regexps that are dead *)

(** Bytes of host names, lower-cased or not. *)
Definition host_byte (c : ascii) : bool :=
  let z := code c in
  (48 <=? z) && (z <=? 57) || (65 <=? z) && (z <=? 90) || (97 <=? z) && (z <=? 122) || (z =? 45) || (z =? 46) || (z =? 95).

Lemma meta_byte c : chr_in "()[]{}^$|\+?" c = true -> host_byte c = false /\ lower_byte c = c /\ c <> dot.
Proof.
  unfold chr_in. intros H. apply existsb_exists in H as (d & Hd & E). bsimpl. subst d.
  repeat (destruct Hd as [<-|Hd]; [by split_and!|]). destruct Hd.
Qed.

Lemma host_lower c : host_byte (lower_byte c) = host_byte c.
Proof. destruct c as [[] [] [] [] [] [] [] []]; by vm_compute. Qed.

Lemma TrimSuffix_keeps c s : c <> dot -> c ∈ s -> c ∈ TrimSuffix s [dot].
Proof.
  intros Hc Hin. destruct (HasSuffix s [dot]) eqn:E.
  - apply HasSuffix_spec in E as [k ->]. rewrite TrimSuffix_app. set_solver.
  - by rewrite TrimSuffix_none.
Qed.

Lemma TrimSuffix_Forall (P : ascii -> Prop) s : Forall P s -> Forall P (TrimSuffix s [dot]).
Proof.
  intros H. destruct (HasSuffix s [dot]) eqn:E.
  - apply HasSuffix_spec in E as [k ->]. rewrite TrimSuffix_app. by apply Forall_app in H as [H _].
  - by rewrite TrimSuffix_none.
Qed.

(** A pattern with a regexp metacharacter matches no host name. *)
Lemma DomainMatches_meta domain pattern :
  Forall (fun c => host_byte c = true) domain -> regex_like pattern = true -> DomainMatches domain pattern = false.
Proof.
  intros Hd Hp. apply existsb_exists in Hp as (c & Hc & Hm). apply list_elem_of_In in Hc.
  apply meta_byte in Hm as (Hh & Hl & Hnd). unfold DomainMatches.
  set (d := ToLower (TrimSuffix domain [dot])). set (p := ToLower (TrimSuffix pattern [dot])).
  assert (c ∈ p) as Hin.
  { unfold p, ToLower. apply list_elem_of_fmap. exists c. split; [done|]. by apply TrimSuffix_keeps. }
  assert (c ∉ d) as Hout.
  { intros H. unfold d, ToLower in H. apply list_elem_of_fmap in H as (x & -> & Hx).
    apply (TrimSuffix_Forall (fun c => host_byte c = true)) in Hd. rewrite Forall_forall in Hd. specialize (Hd x Hx).
    rewrite host_lower in Hh. congruence. }
  assert (forall s, c ∈ s -> bytes_eqb d s = false) as He.
  { intros s Hs. unfold bytes_eqb. apply bool_decide_eq_false. by intros <-. }
  assert (forall s, c ∈ s -> HasSuffix d s = false) as Hsuf.
  { intros s Hs. destruct (HasSuffix d s) eqn:E; [|done]. apply HasSuffix_spec in E as [k E]. rewrite E in Hout. set_solver. }
  assert (forall s, c ∈ s -> HasPrefix d s = false) as Hpre.
  { intros s Hs. destruct (HasPrefix d s) eqn:E; [|done]. apply HasPrefix_spec in E as [k E]. rewrite E in Hout. set_solver. }
  assert (forall s, c ∈ s -> Contains d s = false) as Hcon.
  { intros s Hs. destruct (Contains d s) eqn:E; [|done]. apply Contains_spec in E as (x & y & E). rewrite E in Hout. set_solver. }
  rewrite He by done. destruct (HasPrefix p [dot]) eqn:E.
  - apply HasPrefix_spec in E as [k E]. rewrite E in *. cbn [app drop]. rewrite He, Hsuf; [done|set_solver|set_solver].
  - rewrite (Hsuf (dot :: p)) by set_solver. destruct (negb _); [|done].
    rewrite Hpre, Hcon; [done|set_solver..].
Qed.

Section meaning.
Context {RX : RegexpLib} {EL : ExprLib}.

(** Package expr compiles the text and evaluates it as the expression: with Go's
    string literals, [==], [||], [&&], parentheses and calls of the helpers. *)
Definition reads_as (groups : GroupCache) (text : gostring) (e : Expr) : Prop :=
  exists p, compileRuleLogic text = Some p /\
    forall ctx, vm_Run (helpers groups) p ctx = Some (ABool (holds ctx e)).


Lemma reads_row groups text e r ctx :
  reads_as groups text e -> pr_Logic r = text -> row_true groups ctx r = holds ctx e.
Proof. intros (p & Hc & Hr) E. unfold row_true. by rewrite E, Hc, Hr. Qed.







(** An exact entry describes its name in any case, and the rule it becomes is false for
    every spelling but one: the name of the query is not lower-cased on its way to the
    rule. *)
Lemma other_case_escapes groups d r ctx :
  matcher_of d = OneName d -> reads_as groups (pr_Logic r) (domain_expr d) ->
  ToLower (Policy.Domain ctx) = ToLower d -> Policy.Domain ctx <> d ->
  describes (Policy.Domain ctx) (matcher_of d) /\ row_true groups ctx r = false.
Proof.
  intros Hm Hr He Hn. rewrite Hm. split; [done|]. rewrite (reads_row _ _ _ _ _ Hr) by done. rewrite domain_expr_holds. unfold domain_holds. rewrite Hm.
  by apply bool_decide_eq_false.
Qed.

(** A whitelist entry with a regexp metacharacter stops working when it is
    migrated: the rule it becomes calls [DomainMatches], which compares labels and
    knows no regexps, so it is true for no host name at all. *)
Theorem regex_entry_dead (groups : GroupCache) (i : nat) (entry : gostring) (ctx : Context)
    (Hw : HasPrefix entry star_dot = false) (Hre : regex_like entry = true)
    (Hhost : Forall (fun c => host_byte c = true) (Policy.Domain ctx))
    (Hread : reads_as groups (whitelist_texts entry).1 (MatchesDomain entry)) :
  row_true groups ctx (whitelist_row i entry) = false.
Proof.
  rewrite (reads_row _ _ _ _ _ Hread) by done. cbn [holds]. by apply DomainMatches_meta.
Qed.
End meaning.

(** ** The allowlist *)

(** A read of the row that fails is taken for a missing row: the list of the file
    overwrites the list of the database. *)
Lemma failed_read_overwrites b cfg st :
  bf_acl_get b = false -> bf_acl_set b = true -> AllowedClients (Server cfg) <> [] ->
  load_allowed_clients b cfg (Some st) = (cfg, Some (MkStorage (ptable st) (dynamic st) (Some (AllowedClients (Server cfg))))).
Proof. intros Hg Hs Hy. unfold load_allowed_clients. rewrite Hg, Hs. by destruct (AllowedClients (Server cfg)). Qed.

(** ** The health check *)

(** The address [performHealthCheck] asks; [None]: the file did not load. *)
Definition health_address {B : BcryptLib} {Y : YamlLib} (e : Env) (apiAddr : gostring) (file : option gostring) : option gostring :=
  match apiAddr with
  | [] =>
      match Load e file with
      | Err _ => None
      | Ok cfg =>
          let addr := WebUIAddress (Server cfg) in
          Some (if HasPrefix addr (str ":") then str "http://localhost" ++ addr
                else if negb (HasPrefix addr (str "http://")) && negb (HasPrefix addr (str "https://"))
                then str "http://" ++ addr else addr)
      end
  | _ => Some apiAddr
  end.

(** [get]: the status of a GET, [None] for an error.  The result is the exit code. *)
Definition performHealthCheck {B : BcryptLib} {Y : YamlLib} (e : Env) (apiAddr : gostring) (file : option gostring)
    (get : gostring -> option Z) : Z :=
  match health_address e apiAddr file with
  | None => 1
  | Some addr =>
      match get (addr ++ str "/api/health") with
      | None => 1
      | Some status => if status =? 200 then 0 else 1
      end
  end.

(** ** Witnesses *)

Section witnesses.

(** An expression library that knows one text. *)
Definition reader_expr (text : gostring) (e : Expr) : ExprLib := {|
  Program := unit;
  expr_Compile _ t := if bytes_eqb t text then Some tt else None;
  vm_Run _ _ ctx := Some (ABool (holds ctx e)) |}.

Definition no_faults : Faults := MkFaults true (fun _ => true) true true.
Definition all_faults : Faults := MkFaults false (fun _ => false) false false.
Definition clean : BootFaults := MkBootFaults no_faults no_faults true (fun _ => true) true true true.
Definition broken : BootFaults := MkBootFaults all_faults all_faults true (fun _ => false) true true true.

Definition office_rule (name : string) (prio : Z) : ForwardingRule :=
  MkForwardingRule (str name) [str "*.corp.lan"; str "nas.lan"] [str "10.0.0.0/8"] [str "A"; str "AAAA"]
    [str "10.0.0.1:53"; str "10.0.0.2"] prio true.

Definition old_config : Config :=
  with_policy (MkPolicyConfig [MkPolicyRuleEntry (str "file rule") (str "true") ActionBlock [] true] true)
    (with_forwarding (MkConditionalForwardingConfig [office_rule "office" 0] true)
       (with_whitelist [str "example.com"; str "*.cdn.net"] sample_config)).

Definition new_db : Storage := MkStorage (MkTable [] 1) ∅ None.

Lemma reboot_stable_witness :
  let Y := const_yaml old_config in
  let s1 := @boot_with no_re always_expr Y clean true (str "2025-01-01T00:00:00Z") old_config (Some new_db) None in
  let later := [(broken, str "2025-01-02T00:00:00Z", old_config); (clean, str "2025-01-03T00:00:00Z", old_config)] in
  exists st1 stn, b_stor s1 = Some st1 /\ b_stor (foldl (@reboot no_re always_expr Y true) s1 later) = Some stn /\
    ptable stn = ptable st1 /\ length (rows (ptable stn)) = 3%nat.
Proof.
  cbn zeta.
  destruct (@reboot_stable no_re always_expr (const_yaml old_config) true clean (str "2025-01-01T00:00:00Z") old_config new_db None
    [(broken, str "2025-01-02T00:00:00Z", old_config); (clean, str "2025-01-03T00:00:00Z", old_config)])
    as (st1 & stn & H1 & H2 & _ & _ & H3 & _).
  - by split_and!.
  - done.
  - assert (later_config old_config old_config) by (unfold later_config; by split_and!).
    apply Forall_cons; split; [done|]. apply Forall_cons; split; [done|]. constructor.
  - exists st1, stn. split_and!; [done..|]. rewrite H3. clear H2 H3. vm_compute in H1. injection H1 as <-. done.
Defined.

Definition plain_config : Config :=
  with_policy (MkPolicyConfig [MkPolicyRuleEntry (str "file rule") (str "true") ActionBlock [] true] true)
    (with_forwarding no_forwarding (with_whitelist [str "example.com"] sample_config)).

Lemma whitelist_hides_file_rules_witness :
  exists st1, b_stor (@boot_with no_re always_expr (const_yaml plain_config) clean true (str "2025-01-01T00:00:00Z") plain_config
      (Some (MkStorage (MkTable [] 1) ∅ None)) None) = Some st1 /\
    (pr_Name <$> rows (ptable st1)) = [str "Allow example.com (migrated)"].
Proof.
  destruct (@whitelist_hides_file_rules no_re always_expr (const_yaml plain_config) true clean (str "2025-01-01T00:00:00Z")
    plain_config None) as (st1 & H1 & H2 & _).
  - by split_and!.
  - done.
  - done.
  - exists st1. split; [done|]. rewrite H2. by vm_compute.
Defined.

Lemma cf_order_witness :
  exists i j ra rb,
    precedes (GetPolicyRules (insert_rows (fun _ => true) 0 (cf_rows [office_rule "low" 10; office_rule "high" 90]) (MkTable [] 1) 0).1)
      (with_id j rb) (with_id i ra) /\ pr_Name ra = str "Forward low (migrated)" /\ pr_Name rb = str "Forward high (migrated)".
Proof.
  destruct (cf_row (office_rule "low" 10)) as [ra|] eqn:Ea; [|by vm_compute in Ea].
  destruct (cf_row (office_rule "high" 90)) as [rb|] eqn:Eb; [|by vm_compute in Eb].
  destruct (cf_order (MkTable [] 1) [] [] [] (office_rule "low" 10) (office_rule "high" 90) ra rb Ea Eb)
    as (i & j & _ & _ & _ & H & _).
  - vm_compute. repeat constructor; set_solver.
  - apply Forall_forall. intros r _. apply not_elem_of_nil.
  - exists i, j, ra, rb. split_and!.
    + by apply H.
    + vm_compute in Ea. by injection Ea as <-.
    + vm_compute in Eb. by injection Eb as <-.
Defined.


Lemma regex_entry_dead_witness :
  let entry := str "^cdn[0-9]+.example.com$" in
  let EL := reader_expr (whitelist_texts entry).1 (MatchesDomain entry) in
  @row_true no_re EL None (NewContext (str "cdn7.example.com") (str "192.0.2.9") (str "A") (MkClock 0 0 1 1 0 0))
    (whitelist_row 0 entry) = false.
Proof.
  cbn zeta. set (entry := str "^cdn[0-9]+.example.com$").
  apply (@regex_entry_dead no_re (reader_expr (whitelist_texts entry).1 (MatchesDomain entry)) None 0 entry).
  - done.
  - done.
  - by repeat constructor.
  - exists tt. split; [|done]. unfold compileRuleLogic. cbn [expr_Compile reader_expr]. by rewrite bytes_eqb_refl.
Defined.

End witnesses.
