(* ===== verification/Wiring.v ===== *)
(** * The wiring of the program (cmd/glory-hole/main.go)

    The variables [main] keeps for its callback, and what it hands to the DNS
    handler, the API server and the blocklist manager, at the start and whenever
    the configuration file changes.  A component is given by the configuration it
    was built from; a cache also by a number, its identity.  The callback runs on
    the watcher's goroutine only, one change after the other. *)

From Stdlib Require Import Ascii.
From S2P Require Import Prelude GoStrings GoStrconv Config ConfigUpdate LocalRecords RecordsLoad.
From stdpp Require Import options.
Local Open Scope Z_scope.

(** ** Comparisons *)

Definition equalBlocklistConfig (a b : list gostring) : bool := equalStringSlice a b.

Definition equalCacheConfig (a b : CacheConfig) : bool :=
  Bool.eqb (ca_Enabled a) (ca_Enabled b) && (ca_MaxEntries a =? ca_MaxEntries b) && (ca_MinTTL a =? ca_MinTTL b) &&
  (ca_MaxTTL a =? ca_MaxTTL b) && (ca_NegativeTTL a =? ca_NegativeTTL b) && (ca_BlockedTTL a =? ca_BlockedTTL b) &&
  (ca_ShardCount a =? ca_ShardCount b).

Definition equalLoggingConfig (a b : LoggingConfig) : bool :=
  bytes_eqb (Level a) (Level b) && bytes_eqb (Format a) (Format b) && bytes_eqb (Output a) (Output b) &&
  bytes_eqb (FilePath a) (FilePath b) && Bool.eqb (AddSource a) (AddSource b) && (MaxSize a =? MaxSize b) &&
  (MaxBackups a =? MaxBackups b) && (MaxAge a =? MaxAge b).

Definition equalUnboundConfig (a b : UnboundConfig) : bool :=
  Bool.eqb (ub_Enabled a) (ub_Enabled b) && Bool.eqb (ub_Managed a) (ub_Managed b) && (ub_ListenPort a =? ub_ListenPort b) &&
  bytes_eqb (ub_BinaryPath a) (ub_BinaryPath b) && bytes_eqb (ub_ConfigPath a) (ub_ConfigPath b) &&
  bytes_eqb (ub_ControlSocket a) (ub_ControlSocket b).

Ltac compare_fields :=
  repeat match goal with
  | |- context [bytes_eqb ?x ?y = true] => rewrite (bytes_eqb_eq x y)
  | |- context [Bool.eqb ?x ?y = true] => rewrite (eqb_true_iff x y)
  | |- context [?x =? ?y] => rewrite (Z.eqb_eq x y)
  | |- context [andb _ _ = true] => rewrite andb_true_iff
  end.

Lemma equalCacheConfig_spec a b : equalCacheConfig a b = true <-> a = b.
Proof.
  destruct a, b. unfold equalCacheConfig. cbn. compare_fields. split; [intros; destruct_and!; by subst|by intros [= -> -> -> -> -> -> ->]].
Qed.

Lemma equalLoggingConfig_spec a b : equalLoggingConfig a b = true <-> a = b.
Proof.
  destruct a, b. unfold equalLoggingConfig. cbn. compare_fields. split; [intros; destruct_and!; by subst|by intros [= -> -> -> -> -> -> -> ->]].
Qed.

Lemma equalUnboundConfig_spec a b : equalUnboundConfig a b = true <-> a = b.
Proof.
  destruct a, b. unfold equalUnboundConfig. cbn. compare_fields. split; [intros; destruct_and!; by subst|by intros [= -> -> -> -> -> ->]].
Qed.

(** ** The state *)

(** A cache instance: its number and its configuration. *)
Definition CacheRef : Type := nat * CacheConfig.

Record Wiring := MkWiring {
  cfg : Config;                          (** the variable [cfg] *)
  dnsCache : option CacheRef;            (** the variable [dnsCache] *)
  supervisor : option gostring;          (** [unboundSupervisor]: the address of the running one *)
  h_trace : bool;
  h_forwarder : option Config;           (** the configuration the handler's forwarder was built from *)
  h_cache : option CacheRef;
  h_records : option Manager;
  logger : LoggingConfig;
  api_auth : AuthConfig;
  api_cache : option CacheRef;
  api_supervisor : option gostring;
  bl_manager : option Config;            (** the configuration of the blocklist manager, when there is one *)
  bl_resolvers : list gostring;          (** the upstreams its HTTP client resolves with *)
  bl_updates : nat;                      (** reloads of the lists that were started *)
  closed : list nat;                     (** caches that were closed *)
  next_cache : nat }.

(** [cache.New]: the logger is not nil here. *)
Definition cache_New (n : nat) (c : CacheConfig) : option CacheRef := if ca_MaxEntries c <=? 0 then None else Some (n, c).

Definition unbound_addr (u : UnboundConfig) : gostring := str "127.0.0.1:" ++ Itoa (ub_ListenPort u).

(** ** The start *)

(** [up]: the managed Unbound started. [NewServer] creates the cache and the
    forwarder of the handler; the variable [dnsCache] and the API get none. *)
Definition start (up : bool) (c : Config) : Wiring :=
  let running := ub_Enabled (Unbound c) && ub_Managed (Unbound c) && up in
  let addr := unbound_addr (Unbound c) in
  let c' := if running then with_upstreams [addr] c else c in
  MkWiring c' None (if running then Some addr else None) (DecisionTrace (Server c))
    (if no_items (UpstreamDNSServers c') then None else Some c')
    (if ca_Enabled (Config.Cache c) then cache_New 0 (Config.Cache c) else None)
    (startup_records (LocalRecords c)) (Logging c) (Config.Auth c) None (if running then Some addr else None)
    (if no_items (Blocklists c) then None else Some c') (UpstreamDNSServers c) 0 [] 1.

(** ** The callback *)

Record CallFaults := MkCallFaults { log_ok : bool; sup_ok : bool }.

Definition on_upstreams (n : Config) (w : Wiring) : Wiring :=
  if equalStringSlice (UpstreamDNSServers (cfg w)) (UpstreamDNSServers n) then w
  else MkWiring (cfg w) (dnsCache w) (supervisor w) (h_trace w) (Some n) (h_cache w) (h_records w) (logger w) (api_auth w)
         (api_cache w) (api_supervisor w)
         (match bl_manager w with Some _ => Some n | None => None end)
         (match bl_manager w with Some _ => UpstreamDNSServers n | None => bl_resolvers w end)
         (bl_updates w) (closed w) (next_cache w).

Definition on_blocklists (n : Config) (w : Wiring) : Wiring :=
  match bl_manager w with
  | None => w
  | Some _ =>
      if equalBlocklistConfig (Blocklists (cfg w)) (Blocklists n) then w
      else MkWiring (cfg w) (dnsCache w) (supervisor w) (h_trace w) (h_forwarder w) (h_cache w) (h_records w) (logger w)
             (api_auth w) (api_cache w) (api_supervisor w) (Some n) (bl_resolvers w) (S (bl_updates w)) (closed w) (next_cache w)
  end.

Definition on_cache (n : Config) (w : Wiring) : Wiring :=
  if equalCacheConfig (Config.Cache (cfg w)) (Config.Cache n) then w
  else
    let new := if ca_Enabled (Config.Cache n) then cache_New (next_cache w) (Config.Cache n) else None in
    MkWiring (cfg w) new (supervisor w) (h_trace w) (h_forwarder w) new (h_records w) (logger w) (api_auth w) new
      (api_supervisor w) (bl_manager w) (bl_resolvers w) (bl_updates w)
      (closed w ++ match dnsCache w with Some c => [c.1] | None => [] end)
      (match new with Some _ => S (next_cache w) | None => next_cache w end).

Definition on_logging (f : CallFaults) (n : Config) (w : Wiring) : Wiring :=
  if equalLoggingConfig (Logging (cfg w)) (Logging n) || negb (log_ok f) then w
  else MkWiring (cfg w) (dnsCache w) (supervisor w) (h_trace w) (h_forwarder w) (h_cache w) (h_records w) (Logging n)
         (api_auth w) (api_cache w) (api_supervisor w) (bl_manager w) (bl_resolvers w) (bl_updates w) (closed w) (next_cache w).

Definition on_records (n : Config) (w : Wiring) : Wiring :=
  MkWiring (cfg w) (dnsCache w) (supervisor w) (h_trace w) (h_forwarder w) (h_cache w)
    (installed (on_change (MkMain (LocalRecords (cfg w)) (h_records w)) (LocalRecords n))) (logger w) (api_auth w)
    (api_cache w) (api_supervisor w) (bl_manager w) (bl_resolvers w) (bl_updates w) (closed w) (next_cache w).

(** The cases of a changed Unbound section; the first one also changes [newCfg]. *)
Definition on_unbound (f : CallFaults) (n : Config) (w : Wiring) : Config * Wiring :=
  let old := Unbound (cfg w) in let new := Unbound n in
  if equalUnboundConfig old new then (n, w)
  else if negb (ub_Enabled old) && ub_Enabled new && ub_Managed new then
    if sup_ok f then
      let addr := unbound_addr new in
      let n := with_upstreams [addr] n in
      (n, MkWiring (cfg w) (dnsCache w) (Some addr) (h_trace w) (Some n) (h_cache w) (h_records w) (logger w) (api_auth w)
            (api_cache w) (Some addr) (bl_manager w) (bl_resolvers w) (bl_updates w) (closed w) (next_cache w))
    else (n, w)
  else if ub_Enabled old && negb (ub_Enabled new) then
    (n, MkWiring (cfg w) (dnsCache w) None (h_trace w) (Some n) (h_cache w) (h_records w) (logger w) (api_auth w)
          (api_cache w) None (bl_manager w) (bl_resolvers w) (bl_updates w) (closed w) (next_cache w))
  else (n, w).

Definition set_first (n : Config) (w : Wiring) : Wiring :=
  MkWiring (cfg w) (dnsCache w) (supervisor w) (DecisionTrace (Server n)) (h_forwarder w) (h_cache w) (h_records w)
    (logger w) (Config.Auth n) (api_cache w) (api_supervisor w) (bl_manager w) (bl_resolvers w) (bl_updates w) (closed w)
    (next_cache w).

Definition set_cfg (n : Config) (w : Wiring) : Wiring :=
  MkWiring n (dnsCache w) (supervisor w) (h_trace w) (h_forwarder w) (h_cache w) (h_records w) (logger w) (api_auth w)
    (api_cache w) (api_supervisor w) (bl_manager w) (bl_resolvers w) (bl_updates w) (closed w) (next_cache w).

Definition callback (w : Wiring) (change : CallFaults * Config) : Wiring :=
  let '(f, n) := change in
  let w := on_records n (on_logging f n (on_cache n (on_blocklists n (on_upstreams n (set_first n w))))) in
  let '(n, w) := on_unbound f n w in
  set_cfg n w.

(** ** The callback puts a configuration in force *)

(** What the configuration [c] asks of the handler. *)
Definition wanted_cache (c : Config) : option CacheConfig :=
  if ca_Enabled (Config.Cache c) && (0 <? ca_MaxEntries (Config.Cache c)) then Some (Config.Cache c) else None.

(** The wiring serves [c], in a deployment without Unbound. *)
Record in_force (c : Config) (w : Wiring) : Prop := MkInForce {
  if_cfg : cfg w = c;
  if_trace : h_trace w = DecisionTrace (Server c);
  if_auth : api_auth w = Config.Auth c;
  if_upstreams : default [] (UpstreamDNSServers <$> h_forwarder w) = UpstreamDNSServers c;
  if_cache : snd <$> h_cache w = wanted_cache c;
  if_unbound : supervisor w = None /\ ub_Enabled (Unbound c) = false }.

Lemma cache_New_wanted n c :
  snd <$> (if ca_Enabled (Config.Cache c) then cache_New n (Config.Cache c) else None) = wanted_cache c.
Proof.
  unfold wanted_cache, cache_New. destruct (ca_Enabled _); [|done]. rewrite Z.ltb_antisym. by destruct (_ <=? 0).
Qed.

Lemma start_in_force up c : ub_Enabled (Unbound c) = false -> in_force c (start up c).
Proof.
  intros Hu. unfold start. rewrite Hu. cbn [andb]. split; cbn; try done.
  - destruct (UpstreamDNSServers c) eqn:E; cbn; [done|]. done.
  - apply cache_New_wanted.
Qed.

(** The stages keep what they do not set. *)
Definition same_but_cache (w w' : Wiring) : Prop :=
  cfg w' = cfg w /\ h_trace w' = h_trace w /\ api_auth w' = api_auth w /\ h_forwarder w' = h_forwarder w /\ supervisor w' = supervisor w.

Lemma on_blocklists_same n w : same_but_cache w (on_blocklists n w) /\ h_cache (on_blocklists n w) = h_cache w.
Proof. unfold on_blocklists. destruct (bl_manager w); [|done]. by destruct (equalBlocklistConfig _ _). Qed.
Lemma on_logging_same f n w : same_but_cache w (on_logging f n w) /\ h_cache (on_logging f n w) = h_cache w.
Proof. unfold on_logging. by destruct (_ || _). Qed.
Lemma on_cache_same n w : same_but_cache w (on_cache n w).
Proof. unfold on_cache. by destruct (equalCacheConfig _ _). Qed.

Lemma callback_in_force c w f n :
  in_force c w -> ub_Enabled (Unbound n) = false -> in_force n (callback w (f, n)).
Proof.
  intros [Hc Ht Ha Hu Hca [Hs He]] Hn. unfold callback.
  set (w1 := set_first n w). set (w2 := on_upstreams n w1). set (w3 := on_blocklists n w2). set (w4 := on_cache n w3).
  set (w5 := on_logging f n w4). set (w6 := on_records n w5).
  assert (cfg w2 = c /\ h_trace w2 = DecisionTrace (Server n) /\ api_auth w2 = Config.Auth n /\ supervisor w2 = None /\
    h_cache w2 = h_cache w /\ default [] (UpstreamDNSServers <$> h_forwarder w2) = UpstreamDNSServers n)
    as (H21 & H22 & H23 & H24 & H25 & H26).
  { unfold w2, on_upstreams. destruct (equalStringSlice _ _) eqn:E; [|by split_and!].
    apply equalStringSlice_spec in E. cbn in E |- *. rewrite Hc in E. split_and!; try done. by rewrite Hu. }
  destruct (on_blocklists_same n w2) as [(H31 & H32 & H33 & H34 & H35) H36]. fold w3 in H31, H32, H33, H34, H35, H36.
  destruct (on_cache_same n w3) as (H41 & H42 & H43 & H44 & H45). fold w4 in H41, H42, H43, H44, H45.
  destruct (on_logging_same f n w4) as [(H51 & H52 & H53 & H54 & H55) H56]. fold w5 in H51, H52, H53, H54, H55, H56.
  assert (snd <$> h_cache w4 = wanted_cache n) as H46.
  { unfold w4, on_cache. rewrite H31, H21. destruct (equalCacheConfig _ _) eqn:E; [|by cbn; apply cache_New_wanted].
    apply equalCacheConfig_spec in E. rewrite H36, H25, Hca. unfold wanted_cache. by rewrite E. }
  unfold on_unbound. cbn [w6 on_records cfg]. rewrite H51, H41, H31, H21. rewrite He, Hn. cbn [negb andb].
  assert (in_force n (set_cfg n w6)) as HF.
  { split; cbn; try congruence. split; congruence. }
  by destruct (equalUnboundConfig _ _).
Qed.

(** What every stage but one leaves alone. *)
Lemma on_upstreams_keeps n w : let w' := on_upstreams n w in
  cfg w' = cfg w /\ dnsCache w' = dnsCache w /\ supervisor w' = supervisor w /\ h_cache w' = h_cache w /\ h_records w' = h_records w /\
  api_cache w' = api_cache w /\ api_supervisor w' = api_supervisor w /\ closed w' = closed w /\ next_cache w' = next_cache w /\
  bl_updates w' = bl_updates w /\ (bl_manager w = None -> bl_manager w' = None).
Proof. unfold on_upstreams. destruct (equalStringSlice _ _); cbn; [tauto|]. split_and!; try done. by intros ->. Qed.
Lemma on_blocklists_keeps n w : let w' := on_blocklists n w in
  cfg w' = cfg w /\ dnsCache w' = dnsCache w /\ supervisor w' = supervisor w /\ h_cache w' = h_cache w /\ h_records w' = h_records w /\
  api_cache w' = api_cache w /\ api_supervisor w' = api_supervisor w /\ closed w' = closed w /\ next_cache w' = next_cache w /\
  h_forwarder w' = h_forwarder w /\ (bl_manager w = None -> w' = w).
Proof.
  unfold on_blocklists. destruct (bl_manager w) eqn:E; [|tauto].
  by destruct (equalBlocklistConfig _ _); cbn; rewrite ?E; split_and!.
Qed.
Lemma on_cache_keeps n w : let w' := on_cache n w in
  cfg w' = cfg w /\ supervisor w' = supervisor w /\ h_records w' = h_records w /\ api_supervisor w' = api_supervisor w /\
  h_forwarder w' = h_forwarder w /\ bl_manager w' = bl_manager w /\ bl_updates w' = bl_updates w.
Proof. unfold on_cache. destruct (equalCacheConfig _ _); [tauto|]. cbn. by split_and!. Qed.
Lemma on_logging_keeps f n w : let w' := on_logging f n w in
  cfg w' = cfg w /\ dnsCache w' = dnsCache w /\ supervisor w' = supervisor w /\ h_cache w' = h_cache w /\ h_records w' = h_records w /\
  api_cache w' = api_cache w /\ api_supervisor w' = api_supervisor w /\ closed w' = closed w /\ next_cache w' = next_cache w /\
  h_forwarder w' = h_forwarder w /\ bl_manager w' = bl_manager w /\ bl_updates w' = bl_updates w.
Proof. unfold on_logging. destruct (_ || _); [tauto|]. cbn. by split_and!. Qed.
Lemma on_unbound_keeps f n w : let r := on_unbound f n w in
  dnsCache r.2 = dnsCache w /\ h_cache r.2 = h_cache w /\ h_records r.2 = h_records w /\ api_cache r.2 = api_cache w /\
  closed r.2 = closed w /\ next_cache r.2 = next_cache w /\ bl_manager r.2 = bl_manager w /\ bl_updates r.2 = bl_updates w /\
  LocalRecords r.1 = LocalRecords n /\ Config.Cache r.1 = Config.Cache n.
Proof.
  unfold on_unbound. destruct (equalUnboundConfig _ _); [cbn; by split_and!|].
  destruct (_ && ub_Managed _); [destruct (sup_ok f); cbn; by split_and!|]. destruct (_ && negb _); cbn; by split_and!.
Qed.

(** Rewrite a projection of the callback's result to the stage that sets it. *)
Ltac stages w f n :=
  unfold callback;
  pose proof (on_upstreams_keeps n (set_first n w)) as Kup;
  pose proof (on_blocklists_keeps n (on_upstreams n (set_first n w))) as Kbl;
  pose proof (on_cache_keeps n (on_blocklists n (on_upstreams n (set_first n w)))) as Kca;
  pose proof (on_logging_keeps f n (on_cache n (on_blocklists n (on_upstreams n (set_first n w))))) as Klo;
  pose proof (on_unbound_keeps f n (on_records n (on_logging f n (on_cache n (on_blocklists n (on_upstreams n (set_first n w))))))) as Kub;
  cbn zeta in Kup, Kbl, Kca, Klo, Kub;
  destruct (on_unbound f n _) as [n' wu]; cbn [fst snd] in Kub.

Lemma callback_records w f n :
  h_records (callback w (f, n)) = installed (on_change (MkMain (LocalRecords (cfg w)) (h_records w)) (LocalRecords n)) /\
  LocalRecords (cfg (callback w (f, n))) = LocalRecords n.
Proof.
  stages w f n. destruct_and!. cbn [set_cfg cfg h_records]. split; [|done].
  match goal with H : h_records wu = _ |- _ => rewrite H end. cbn [on_records h_records].
  do 3 f_equal; [f_equal|]; etrans; try eassumption; etrans; try eassumption; etrans; try eassumption; etrans; eassumption || done.
Qed.

(** C29: What a changed file puts in force.  Without Unbound, after the start and
    any number of changes of the file (with failures of the logger in between), the
    DNS handler has the decision trace, the upstream servers and the cache settings
    of the last configuration, the API has its credentials, and the local records of
    the handler are those of [RecordsLoad.on_change].  The rest of the file is not
    claimed: the API has no cache before the cache section changes
    ([api_has_no_cache]), and a change of the section [forwarder] alone is not applied. *)
Theorem reload_in_force (up : bool) (c0 : Config) (changes : list (CallFaults * Config))
    (H0 : ub_Enabled (Unbound c0) = false) (Hc : Forall (fun x => ub_Enabled (Unbound x.2) = false) changes) :
  let w := foldl callback (start up c0) changes in
  let c := List.last (map snd changes) c0 in
  in_force c w /\
  h_records w = installed (foldl on_change (RecordsLoad.start (LocalRecords c0)) (map (fun x => LocalRecords x.2) changes)).
Proof.
  cbn zeta. induction changes as [|[f n] changes IH] using rev_ind.
  { split; [by apply start_in_force|]. unfold start. by rewrite H0. }
  apply Forall_app in Hc as [Hc Hn]. rewrite Forall_singleton in Hn. destruct (IH Hc) as [Hf Hr].
  rewrite !map_app. cbn [map]. rewrite last_last, !foldl_app. cbn [foldl].
  set (w := foldl callback (start up c0) changes) in *. split; [exact (callback_in_force _ w f n Hf Hn)|].
  destruct (callback_records w f n) as [-> _]. rewrite Hr, (if_cfg _ _ Hf). f_equal. f_equal.
  set (m := foldl on_change _ _). assert (main_cfg m = LocalRecords (List.last (map snd changes) c0)) as <-; [|by destruct m].
  unfold m. clear. induction changes as [|x l IH] using rev_ind; [done|]. rewrite !map_app. cbn [map].
  by rewrite foldl_app, last_last.
Qed.

(** With Unbound running, the first change of the file takes it out of service,
    whatever was changed: the variable [cfg] has Unbound's address for upstreams, the
    new configuration those of the file, so the handler gets a forwarder to the
    latter, while the process stays up and the API goes on showing it. *)
Theorem reload_bypasses_unbound (c n : Config) (f : CallFaults)
    (Hen : ub_Enabled (Unbound c) && ub_Managed (Unbound c) = true) (Hsame : Unbound n = Unbound c)
    (Hup : UpstreamDNSServers n <> [unbound_addr (Unbound c)]) :
  let w0 := start true c in
  let w := callback w0 (f, n) in
  UpstreamDNSServers <$> h_forwarder w0 = Some [unbound_addr (Unbound c)] /\
  h_forwarder w = Some n /\ supervisor w = Some (unbound_addr (Unbound c)) /\ api_supervisor w = supervisor w.
Proof.
  cbn zeta. unfold start. rewrite Hen. cbn [andb]. set (addr := unbound_addr (Unbound c)).
  split; [done|]. unfold callback. set (w1 := set_first n _). set (w2 := on_upstreams n w1).
  assert (h_forwarder w2 = Some n /\ supervisor w2 = Some addr /\ api_supervisor w2 = Some addr /\ Unbound (cfg w2) = Unbound n) as H2.
  { unfold w2, on_upstreams. cbn [w1 set_first cfg]. destruct (equalStringSlice _ _) eqn:E; [|by cbn].
    apply equalStringSlice_spec in E. cbn in E. by rewrite <- E in Hup. }
  destruct H2 as (H21 & H22 & H23 & H24).
  pose proof (on_blocklists_keeps n w2) as Kbl. pose proof (on_cache_keeps n (on_blocklists n w2)) as Kca.
  pose proof (on_logging_keeps f n (on_cache n (on_blocklists n w2))) as Klo. cbn zeta in Kbl, Kca, Klo. destruct_and!.
  set (w5 := on_logging f n _) in *.
  assert (h_forwarder w5 = Some n /\ supervisor w5 = Some addr /\ api_supervisor w5 = Some addr /\ Unbound (cfg w5) = Unbound n)
    as (H51 & H52 & H53 & H54) by (split_and!; congruence).
  unfold on_unbound. cbn [on_records cfg].
  assert (equalUnboundConfig (Unbound (cfg w5)) (Unbound n) = true) as -> by by apply equalUnboundConfig_spec.
  cbn. by rewrite H53.
Qed.

(** ** The cache the API knows *)

(** The API holds the cache of the variable [dnsCache]; the one created at the
    start is in neither, and is never closed. *)
Record caches (w : Wiring) : Prop := MkCaches {
  ca_api : api_cache w = dnsCache w;
  ca_not_first : forall n c, dnsCache w = Some (n, c) -> n <> 0%nat /\ h_cache w = dnsCache w;
  ca_open : 0%nat ∉ closed w;
  ca_next : next_cache w <> 0%nat }.

Lemma caches_keep w w' :
  api_cache w' = api_cache w -> dnsCache w' = dnsCache w -> h_cache w' = h_cache w -> closed w' = closed w ->
  next_cache w' = next_cache w -> caches w -> caches w'.
Proof. intros E1 E2 E3 E4 E5 [H1 H2 H3 H4]. split; rewrite ?E1, ?E2, ?E3, ?E4, ?E5; done. Qed.

Lemma on_cache_caches n w : caches w -> caches (on_cache n w).
Proof.
  intros H. unfold on_cache. destruct (equalCacheConfig _ _); [done|]. destruct H as [H1 H2 H3 H4]. split; cbn.
  - done.
  - intros k c E. split; [|by rewrite E]. destruct (ca_Enabled _); [|done]. unfold cache_New in E.
    destruct (_ <=? 0); [done|]. by injection E as <- _.
  - rewrite elem_of_app. intros [|Hin]; [done|]. destruct (dnsCache w) as [[k c]|] eqn:E; [|by apply elem_of_nil in Hin].
    apply list_elem_of_singleton in Hin. cbn in Hin. destruct (H2 k c eq_refl) as [Hk _]. congruence.
  - destruct (if ca_Enabled _ then _ else _); lia.
Qed.

Lemma callback_caches w f n : caches w -> caches (callback w (f, n)).
Proof.
  intros H. stages w f n. destruct_and!.
  assert (caches (on_blocklists n (on_upstreams n (set_first n w)))) as Hw by (eapply caches_keep; [..|exact H]; etrans; eassumption).
  apply (on_cache_caches n) in Hw.
  eapply (caches_keep (on_cache n (on_blocklists n (on_upstreams n (set_first n w))))); [..|done]; cbn [set_cfg api_cache dnsCache h_cache closed next_cache];
    etrans; try eassumption; done.
Qed.

(** Until the cache section of the file changes, the API has no cache although
    the handler may have one: a purge is answered with 503, and switching the
    blocklist does not clear its decisions.  The cache of the start is never
    closed, and never reaches the API. *)
Theorem api_has_no_cache (up : bool) (c0 : Config) (changes : list (CallFaults * Config)) :
  let w := foldl callback (start up c0) changes in
  (Forall (fun x => Config.Cache x.2 = Config.Cache c0) changes ->
     api_cache w = None /\ dnsCache w = None /\ h_cache w = h_cache (start up c0)) /\
  0%nat ∉ closed w /\ (forall n c, api_cache w = Some (n, c) -> n <> 0%nat /\ h_cache w = api_cache w).
Proof.
  cbn zeta. assert (caches (foldl callback (start up c0) changes)) as [Ha Hn Ho _].
  { induction changes as [|[f n] l IH] using rev_ind; [split; cbn; done || set_solver|]. rewrite foldl_app. by apply callback_caches. }
  split_and!; [|done|by rewrite Ha].
  intros Hc. enough (api_cache (foldl callback (start up c0) changes) = None /\ dnsCache (foldl callback (start up c0) changes) = None /\
    h_cache (foldl callback (start up c0) changes) = h_cache (start up c0) /\
    Config.Cache (cfg (foldl callback (start up c0) changes)) = Config.Cache c0) as (? & ? & ? & ?) by done.
  clear Ha Hn Ho. induction changes as [|[f n] l IH] using rev_ind.
  { split_and!; try done. cbn. by destruct (_ && up). }
  apply Forall_app in Hc as [Hc Hx]. rewrite Forall_singleton in Hx. cbn in Hx. rewrite foldl_app. cbn [foldl].
  set (w := foldl callback (start up c0) l) in *. clearbody w. destruct (IH Hc) as (H1 & H2 & H3 & H4).
  assert (on_cache n (on_blocklists n (on_upstreams n (set_first n w))) = on_blocklists n (on_upstreams n (set_first n w))) as Ec.
  { unfold on_cache. rewrite (proj2 (equalCacheConfig_spec _ _)); [done|].
    destruct (on_blocklists_keeps n (on_upstreams n (set_first n w))) as [-> _].
    destruct (on_upstreams_keeps n (set_first n w)) as [-> _]. cbn. congruence. }
  stages w f n. rewrite Ec in *. cbn [on_records dnsCache h_cache api_cache] in Kub. destruct_and!. cbn [set_cfg api_cache dnsCache h_cache cfg].
  cbn [set_first api_cache dnsCache h_cache] in *. split_and!; congruence.
Qed.

(** Without a list at the start there is no blocklist manager, and a list added to
    the file later is not loaded. *)
Theorem no_lists_no_manager (up : bool) (c0 : Config) (changes : list (CallFaults * Config)) (H0 : Blocklists c0 = []) :
  bl_manager (foldl callback (start up c0) changes) = None /\ bl_updates (foldl callback (start up c0) changes) = 0%nat.
Proof.
  induction changes as [|[f n] l IH] using rev_ind; [cbn; by rewrite H0|]. rewrite foldl_app. cbn [foldl].
  set (w := foldl callback (start up c0) l) in *. clearbody w. destruct IH as [H1 H2].
  stages w f n. cbn [on_records bl_manager bl_updates] in Kub. destruct_and!. cbn [set_cfg bl_manager bl_updates].
  assert (bl_manager (on_upstreams n (set_first n w)) = None) as Hm by auto.
  assert (on_blocklists n (on_upstreams n (set_first n w)) = on_upstreams n (set_first n w)) as Eb by auto.
  rewrite Eb in *. cbn [set_first bl_updates] in *. split; congruence.
Qed.

(** ** Witnesses *)

Definition all_fine : CallFaults := MkCallFaults true true.
Definition managed : UnboundConfig := MkUnboundConfig [] [] [] 5353 true true.
Definition unmanaged : UnboundConfig := MkUnboundConfig [] [] [] 5353 false false.

Definition with_unbound (u : UnboundConfig) (c : Config) : Config :=
  MkConfig (Telemetry c) (Server c) (Config.Policy c) (Config.Auth c) (LocalRecords c) (ConditionalForwarding c) (Config.Forwarder c)
    (UpstreamDNSServers c) (Blocklists c) (Whitelist c) (Logging c) (Database c) (Config.Cache c) (BlockPage c) u
    (UpdateInterval c) (AutoUpdateBlocklists c).

Lemma reload_in_force_witness :
  let c := with_unbound unmanaged sample_config in
  let n := with_upstreams [str "9.9.9.9:53"] c in
  default [] (UpstreamDNSServers <$> h_forwarder (foldl callback (start true c) [(all_fine, c); (all_fine, n)])) = [str "9.9.9.9:53"].
Proof.
  cbn zeta. set (c := with_unbound unmanaged sample_config). set (n := with_upstreams [str "9.9.9.9:53"] c).
  destruct (reload_in_force true c [(all_fine, c); (all_fine, n)]) as [H _].
  - done.
  - by repeat constructor.
  - exact (if_upstreams _ _ H).
Defined.

Lemma reload_bypasses_unbound_witness :
  let c := with_unbound managed sample_config in
  UpstreamDNSServers <$> h_forwarder (callback (start true c) (all_fine, c)) = Some [str "1.1.1.1:53"; str "8.8.8.8:53"].
Proof.
  cbn zeta. set (c := with_unbound managed sample_config).
  destruct (reload_bypasses_unbound c c all_fine) as (_ & H & _).
  - done.
  - done.
  - discriminate.
  - rewrite H. by vm_compute.
Defined.
