(* ===== verification/Sql.v ===== *)
(** * What the storage uses of SQL

    The LIKE operator, pagination, and optional texts (NULL is [None]). *)

From Stdlib Require Import Ascii.
From S2P Require Import Prelude GoStrings.
From stdpp Require Import options.

(** ** LIKE *)

Definition percent : ascii := "%"%char.
Definition underscore : ascii := "_"%char.
Definition wild (c : ascii) : bool := bool_decide (c = percent) || bool_decide (c = underscore).

(** Case-insensitive for ASCII, [%] for any text and [_] for any one byte. *)
Fixpoint like (p s : gostring) : bool :=
  match p with
  | [] => match s with [] => true | _ => false end
  | c :: p' =>
      if bool_decide (c = percent) then
        (fix any (s : gostring) : bool := like p' s || match s with [] => false | _ :: s' => any s' end) s
      else match s with
           | [] => false
           | d :: s' => (bool_decide (c = underscore) || bool_decide (lower_byte c = lower_byte d)) && like p' s'
           end
  end.

Definition like_any (p : gostring) : gostring -> bool :=
  fix any (s : gostring) : bool := like p s || match s with [] => false | _ :: s' => any s' end.

Lemma like_percent p s : like (percent :: p) s = like_any p s.
Proof. by destruct s. Qed.

Lemma like_any_spec p s : like_any p s = true <-> exists a b, s = a ++ b /\ like p b = true.
Proof.
  induction s as [|c s IH]; cbn [like_any]; rewrite orb_true_iff.
  - split; [intros [H|H]; [by exists [], []|done]|]. intros (a & b & E & H). symmetry in E. apply app_eq_nil in E as [-> ->]. by left.
  - rewrite IH. split.
    + intros [H|(a & b & -> & H)]; [by exists [], (c :: s)|by exists (c :: a), b].
    + intros ([|d a] & b & E & H); cbn in E; [left; by subst|]. injection E as -> ->. right. by exists a, b.
Qed.

(** A text without wildcards stands for itself. *)
Lemma like_literal t p s :
  forallb (fun c => negb (wild c)) t = true ->
  like (t ++ p) s = true <-> exists b, ToLower s = ToLower t ++ ToLower b /\ length s = (length t + length b)%nat /\
    like p (drop (length t) s) = true /\ b = drop (length t) s.
Proof.
  revert s. induction t as [|c t IH]; intros s Ht.
  - cbn. split; [intros H; by exists s|]. by intros (b & _ & _ & H & _).
  - cbn in Ht. apply andb_true_iff in Ht as [Hc Ht]. unfold wild in Hc. apply negb_true_iff, orb_false_iff in Hc as [H1 H2].
    cbn [like app]. rewrite H1. destruct s as [|d s].
    + split; [done|]. intros (b & E & _). by cbn in E.
    + rewrite H2. cbn [orb]. rewrite andb_true_iff, (IH s Ht). unfold ToLower. cbn. split.
      * intros [E (b & Eb & El & Hl & Hd)]. bsimpl. exists b. split_and!; [by rewrite E, Eb|lia|done|done].
      * intros (b & Eb & El & Hl & Hd). injection Eb as E Eb. split; [by apply bool_decide_eq_true|]. exists b. split_and!; [done|lia|done|done].
Qed.

Lemma like_all s : like [percent] s = true.
Proof. rewrite like_percent. apply like_any_spec. exists s, []. by rewrite app_nil_r. Qed.

Lemma ToLower_drop n s : ToLower (drop n s) = drop n (ToLower s).
Proof. unfold ToLower. change (map lower_byte) with (fmap lower_byte : gostring -> gostring). by rewrite fmap_drop. Qed.

(** [LIKE '%t%'] with a text without wildcards is a search for it that ignores case. *)
Lemma like_contains t s :
  forallb (fun c => negb (wild c)) t = true ->
  like (percent :: t ++ [percent]) s = Contains (ToLower s) (ToLower t).
Proof.
  intros Ht. apply eq_iff_eq_true. rewrite like_percent, like_any_spec, Contains_spec. split.
  - intros (a & b & -> & H). apply like_literal in H as (r & E & _); [|done]. exists (ToLower a), (ToLower r).
    by rewrite ToLower_app, E.
  - intros (x & y & E). exists (take (length x) s), (drop (length x) s). split; [by rewrite take_drop|].
    apply like_literal; [done|].
    assert (length s = (length x + length t + length y)%nat) as Hlen.
    { apply (f_equal length) in E. rewrite !length_app, !length_ToLower in E. lia. }
    exists (drop (length t) (drop (length x) s)). split_and!.
    + assert (ToLower (drop (length x) s) = ToLower t ++ y) as Ed by (by rewrite ToLower_drop, E, drop_app_length).
      rewrite (ToLower_drop (length t)), Ed. by rewrite drop_app_length' by by rewrite length_ToLower.
    + rewrite !length_drop. lia.
    + apply like_all.
    + done.
Qed.

(** A wildcard in the text is not escaped. *)
Lemma like_unescaped : like (percent :: str "_dmarc" ++ [percent]) (str "xdmarc.example.com") = true /\
  Contains (str "xdmarc.example.com") (str "_dmarc") = false.
Proof. by vm_compute. Qed.

(** ** LIMIT and OFFSET *)

(** A negative limit is no limit, a negative offset none. *)
Definition limit_offset {A} (limit offset : Z) (l : list A) : list A :=
  let rest := drop (Z.to_nat offset) l in
  if (limit <? 0)%Z then rest else take (Z.to_nat limit) rest.

(** The pages of a list, one after the other, are the list. *)
Lemma pages_cover {A} (limit : nat) (n : nat) (l : list A) :
  (0 < limit)%nat -> (length l <= n * limit)%nat ->
  concat (map (fun k => limit_offset (Z.of_nat limit) (Z.of_nat (k * limit)) l) (seq 0 n)) = l.
Proof.
  intros Hp. unfold limit_offset. rewrite (proj2 (Z.ltb_ge _ _)) by lia.
  revert l. induction n as [|n IH]; intros l Hl; [by destruct l; cbn in Hl; [|lia]|].
  cbn [seq map concat]. rewrite Nat2Z.id. cbn [Nat.mul]. rewrite drop_0.
  transitivity (take limit l ++ drop limit l); [|apply take_drop]. f_equal. rewrite <- seq_shift, map_map.
  etrans; [|apply (IH (drop limit l)); rewrite length_drop; lia].
  f_equal. apply map_ext. intros k. rewrite !Nat2Z.id, drop_drop. done.
Qed.

(** ** NULL *)

(** [nullify]: a blank text is NULL, others are trimmed. *)
Definition nullify (value : gostring) : option gostring :=
  match TrimSpace value with [] => None | v => Some v end.

Definition NULLIF_empty (value : gostring) : option gostring := match value with [] => None | _ => Some value end.
