(* ===== verification/Clients.v ===== *)
(** * Clients and groups (pkg/storage/sqlite_clients.go, pkg/api/handlers_clients.go, handlers_storage.go)

    The profiles operators give to clients, the groups they put them in, the
    client list with its search and pages, and the handlers that change them and
    refresh the membership cache of Policy.v, which the rules read.  A request is
    given by its path value and its decoded body ([None]: not JSON); [Db] says
    which of its statements succeed. *)

From Stdlib Require Import Ascii.
From S2P Require Import Prelude GoStrings GoStrconv Sql QueryStore Policy.
From stdpp Require Import sorting options.
Local Open Scope Z_scope.

(** ** Tables *)

Record Profile := MkProfileRow { p_display : option gostring; p_notes : option gostring; p_group : option gostring }.
Record Group := MkGroupRow { g_description : option gostring; g_color : option gostring }.

(** [client_stats], [client_profiles] and [client_groups], by their keys. *)
Record ClientDb := MkClientDb {
  client_stats : gmap gostring ClientStat; client_profiles : gmap gostring Profile; client_groups : gmap gostring Group }.

Definition set_profiles (p : gmap gostring Profile) (d : ClientDb) : ClientDb := MkClientDb (client_stats d) p (client_groups d).
Definition set_groups (g : gmap gostring Group) (d : ClientDb) : ClientDb := MkClientDb (client_stats d) (client_profiles d) g.

(** The profile as the caller gives it. *)
Record ClientProfileArg := MkProfileArg { ca_ClientIP : gostring; ca_DisplayName : gostring; ca_GroupName : gostring; ca_Notes : gostring }.

Definition UpdateClientProfile (p : ClientProfileArg) (d : ClientDb) : ClientDb :=
  set_profiles (<[ca_ClientIP p := MkProfileRow (nullify (ca_DisplayName p)) (nullify (ca_Notes p))
                                     (NULLIF_empty (TrimSpace (ca_GroupName p)))]> (client_profiles d)) d.

Definition UpsertClientGroup (name description color : gostring) (d : ClientDb) : ClientDb :=
  set_groups (<[name := MkGroupRow (nullify description) (nullify color)]> (client_groups d)) d.

Definition clear_group (name : gostring) (p : Profile) : Profile :=
  if bool_decide (p_group p = Some name) then MkProfileRow (p_display p) (p_notes p) None else p.

(** One transaction; [None] is [ErrNotFound], which rolls it back. *)
Definition DeleteClientGroup (name : gostring) (d : ClientDb) : option ClientDb :=
  match client_groups d !! name with
  | None => None
  | Some _ => Some (MkClientDb (client_stats d) (clear_group name <$> client_profiles d) (delete name (client_groups d)))
  end.

(** ORDER BY the key. *)
Definition key_le {A} (a b : gostring * A) : Prop := str_le a.1 b.1.
#[global] Instance key_le_dec {A} : RelDecision (@key_le A).
Proof. intros a b. unfold key_le. apply _. Defined.

Definition by_key {A} (m : gmap gostring A) : list (gostring * A) := merge_sort key_le (map_to_list m).

Definition ListClientProfiles (d : ClientDb) : list (option ClientProfile) :=
  map (fun kp => Some (MkProfile kp.1 (default [] (p_group kp.2)))) (by_key (client_profiles d)).

Definition GetClientGroups (d : ClientDb) : list (gostring * gostring * gostring) :=
  map (fun kg => (kg.1, default [] (g_description kg.2), default [] (g_color kg.2))) (by_key (client_groups d)).

(** ** The client list *)

Record ClientSummary := MkSummary {
  cs_ClientIP : gostring; cs_DisplayName : gostring; cs_Notes : gostring; cs_GroupName : gostring; cs_GroupColor : gostring;
  cs_stat : ClientStat }.

(** A row of the join. *)
Definition summary_row (d : ClientDb) (kc : gostring * ClientStat) : ClientSummary :=
  let p := client_profiles d !! kc.1 in
  let group := p ≫= p_group in
  MkSummary kc.1 (default kc.1 (p ≫= p_display)) (default [] (p ≫= p_notes)) (default [] group)
    (default [] (group ≫= fun g => client_groups d !! g ≫= g_color)) kc.2.

(** The WHERE clause of a search; the display name is the profile's own. *)
Definition summary_matches (pattern : gostring) (d : ClientDb) (kc : gostring * ClientStat) : bool :=
  let p := client_profiles d !! kc.1 in
  like pattern (ToLower kc.1) || like pattern (ToLower (default [] (p ≫= p_display))) ||
  like pattern (ToLower (default [] (p ≫= p_notes))) || like pattern (ToLower (default [] (p ≫= p_group))).

(** ORDER BY last_seen DESC. *)
Definition seen_ge (a b : gostring * ClientStat) : Prop := str_le (last_seen b.2) (last_seen a.2).
#[global] Instance seen_ge_dec : RelDecision seen_ge.
Proof. intros a b. unfold seen_ge. apply _. Defined.

(** [WithClientSearch] puts the term in the context, lower-cased and trimmed. *)
Definition WithClientSearch (search : gostring) : gostring := ToLower (TrimSpace search).

Definition defaultClientPageSize : Z := 50.
Definition maxClientPageSize : Z := 500.

Definition client_rows (term : gostring) (d : ClientDb) : list (gostring * ClientStat) :=
  let all := map_to_list (client_stats d) in
  let found := match term with [] => all | _ => List.filter (summary_matches (percent :: term ++ [percent]) d) all end in
  merge_sort seen_ge found.

Definition GetClientSummaries (term : gostring) (limit offset : Z) (d : ClientDb) : list ClientSummary :=
  let limit := if limit <=? 0 then defaultClientPageSize else limit in
  let offset := if offset <? 0 then 0 else offset in
  map (summary_row d) (limit_offset limit offset (client_rows term d)).

(** ** Requests *)

Definition parsePositiveInt (raw : gostring) (fallback max : Z) : Z :=
  match raw with
  | [] => fallback
  | _ => match Atoi raw with
         | Err _ => fallback
         | Ok v => if v <=? 0 then fallback else if (0 <? max) && (max <? v) then max else v
         end
  end.

Definition parseNonNegativeInt (raw : gostring) (fallback : Z) : Z :=
  match raw with
  | [] => fallback
  | _ => match Atoi raw with Err _ => fallback | Ok v => if v <? 0 then fallback else v end
  end.

(** The branches return the same text. *)
Definition sanitizeColor (value : gostring) : gostring := TrimSpace value.

Definition unhex (c : ascii) : option Z :=
  let z := code c in
  if (48 <=? z) && (z <=? 57) then Some (z - 48)
  else if (97 <=? z) && (z <=? 102) then Some (z - 87)
  else if (65 <=? z) && (z <=? 70) then Some (z - 55) else None.

(** [url.PathUnescape] *)
Fixpoint PathUnescape (s : gostring) : option gostring :=
  match s with
  | [] => Some []
  | c :: s' =>
      if bool_decide (c = percent) then
        match s' with
        | a :: b :: s'' => x ← unhex a; y ← unhex b; rest ← PathUnescape s''; Some (chr (16 * x + y) :: rest)
        | _ => None
        end
      else rest ← PathUnescape s'; Some (c :: rest)
  end.

Record clientUpdateRequest := MkClientUpdateRequest { cr_DisplayName : gostring; cr_GroupName : gostring; cr_Notes : gostring }.
Record clientGroupRequest := MkClientGroupRequest { gr_Name : gostring; gr_Description : gostring; gr_Color : gostring }.

(** The server: the tables, when there is a storage, and the membership cache of
    the policy engine. *)
Record Server := MkServer { db : option ClientDb; cache : GroupCache }.

(** Which statements of a request succeed: its own, and the read of the reload. *)
Record Db := MkDb { write_ok : bool; reload_ok : bool }.

Definition reloadClientGroupCache (f : Db) (s : Server) : Server :=
  MkServer (db s) (Reload (match db s with
                           | None => None
                           | Some d => Some (if reload_ok f then Some (ListClientProfiles d) else None)
                           end) (cache s)).1.

Definition handleUpdateClient (f : Db) (path : gostring) (body : option clientUpdateRequest) (s : Server) : Z * Server :=
  match db s with
  | None => (503, s)
  | Some d =>
      match TrimSpace path with
      | [] => (400, s)
      | rawID =>
          match PathUnescape rawID with
          | None => (400, s)
          | Some clientID =>
              match body with
              | None => (400, s)
              | Some q =>
                  let p := MkProfileArg clientID (TrimSpace (cr_DisplayName q)) (TrimSpace (cr_GroupName q)) (TrimSpace (cr_Notes q)) in
                  if write_ok f then (200, reloadClientGroupCache f (MkServer (Some (UpdateClientProfile p d)) (cache s)))
                  else (500, s)
              end
          end
      end
  end.

Definition upsertClientGroup (f : Db) (pathName : gostring) (body : option clientGroupRequest) (s : Server) : Z * Server :=
  match db s with
  | None => (503, s)
  | Some d =>
      match body with
      | None => (400, s)
      | Some q =>
          match (match pathName with [] => TrimSpace (gr_Name q) | _ => pathName end) with
          | [] => (400, s)
          | name =>
              if write_ok f
              then (200, MkServer (Some (UpsertClientGroup name (TrimSpace (gr_Description q)) (sanitizeColor (gr_Color q)) d)) (cache s))
              else (500, s)
          end
      end
  end.

Definition handleCreateClientGroup (f : Db) (body : option clientGroupRequest) (s : Server) : Z * Server :=
  upsertClientGroup f [] body s.
Definition handleUpdateClientGroup (f : Db) (path : gostring) (body : option clientGroupRequest) (s : Server) : Z * Server :=
  upsertClientGroup f (TrimSpace path) body s.

Definition handleDeleteClientGroup (f : Db) (path : gostring) (s : Server) : Z * Server :=
  match db s with
  | None => (503, s)
  | Some d =>
      match TrimSpace path with
      | [] => (400, s)
      | name =>
          if write_ok f then
            match DeleteClientGroup name d with
            | None => (404, s)
            | Some d' => (200, reloadClientGroupCache f (MkServer (Some d') (cache s)))
            end
          else (500, s)
      end
  end.

(** The two lists: [None] is an error status. *)
Definition handleGetClients (f : Db) (limit offset search : gostring) (s : Server) : Z * list ClientSummary :=
  match db s with
  | None => (503, [])
  | Some d =>
      let limit := parsePositiveInt limit defaultClientPageSize maxClientPageSize in
      let offset := parseNonNegativeInt offset 0 in
      let term := match TrimSpace search with [] => [] | search => WithClientSearch search end in
      if reload_ok f then (200, GetClientSummaries term limit offset d) else (500, [])
  end.

Definition handleGetClientGroups (f : Db) (s : Server) : Z * list (gostring * gostring * gostring) :=
  match db s with
  | None => (503, [])
  | Some d => if reload_ok f then (200, GetClientGroups d) else (500, [])
  end.

(** *** Reset, as far as these tables go *)

(** [SQLiteStorage.Reset] deletes the profiles and the groups; [client_stats] is
    not among its tables.  The handler does not refresh the cache. *)
Definition Reset (d : ClientDb) : ClientDb := MkClientDb (client_stats d) ∅ ∅.

Definition handleStorageReset (f : Db) (confirm : option gostring) (s : Server) : Z * Server :=
  match db s with
  | None => (503, s)
  | Some d =>
      match confirm with
      | None => (400, s)
      | Some c =>
          if negb (EqualFold (TrimSpace c) (str "nuke")) then (400, s)
          else if write_ok f then (200, MkServer (Some (Reset d)) (cache s)) else (500, s)
      end
  end.

(** ** Sequences of requests *)

Inductive Req :=
| RUpdateClient (path : gostring) (body : option clientUpdateRequest)
| RCreateGroup (body : option clientGroupRequest)
| RUpdateGroup (path : gostring) (body : option clientGroupRequest)
| RDeleteGroup (path : gostring)
| RReset (confirm : option gostring).

Definition exec (q : Req) (f : Db) (s : Server) : Z * Server :=
  match q with
  | RUpdateClient path body => handleUpdateClient f path body s
  | RCreateGroup body => handleCreateClientGroup f body s
  | RUpdateGroup path body => handleUpdateClientGroup f path body s
  | RDeleteGroup path => handleDeleteClientGroup f path s
  | RReset confirm => handleStorageReset f confirm s
  end.

Definition run (rs : list (Db * Req)) (s : Server) : Server := foldl (fun s r => (exec r.2 r.1 s).2) s rs.

(** Whether the cache is that of the tables after the requests, given that it is before:
    an accepted assignment or deletion reloads it, unless the read fails; an accepted
    reset does not. *)
Fixpoint fresh (rs : list (Db * Req)) (s : Server) (b : bool) : bool :=
  match rs with
  | [] => b
  | (f, q) :: rs' =>
      fresh rs' (exec q f s).2
        (if (exec q f s).1 =? 200
         then match q with
              | RUpdateClient _ _ | RDeleteGroup _ => reload_ok f
              | RReset _ => false
              | _ => b
              end
         else b)
  end.

(** ** The cache follows the profiles *)

Definition group_of (d : ClientDb) (ip : gostring) : option gostring := client_profiles d !! ip ≫= p_group.

(** Membership as the tables have it. *)
Definition member (d : ClientDb) (ip g : gostring) : bool := negb (bytes_eqb g []) && bool_decide (group_of d ip = Some g).

Lemma reload_members l : forall m ip g,
  IsInGroup (Some (foldl reload_step m l)) ip g = true <->
  IsInGroup (Some m) ip g = true \/ (g <> [] /\ exists p, Some p ∈ l /\ ClientIP_ p = ip /\ GroupName p = g).
Proof.
  induction l as [|x l IH]; intros m ip g; cbn [foldl].
  { split; [by left|]. intros [H|(_ & p & Hp & _)]; [done|by apply elem_of_nil in Hp]. }
  rewrite IH. clear IH. destruct x as [x|]; cbn [reload_step].
  2: { split; (intros [H|(Hg & p & Hp & E)]; [by left|right; split; [done|]; exists p; split; [|done]]); set_solver. }
  destruct (bytes_eqb (GroupName x) []) eqn:Eg.
  - apply bytes_eqb_eq in Eg. split; (intros [H|(Hg & p & Hp & E)]; [by left|right; split; [done|]; exists p; split; [|done]]).
    + set_solver.
    + apply elem_of_cons in Hp as [[= ->]|Hp]; [|done]. destruct E as [_ E]. congruence.
  - assert (GroupName x <> []) as Hx by (intros E; by rewrite E, bytes_eqb_refl in Eg).
    cbn [IsInGroup]. destruct (decide (ClientIP_ x = ip)) as [<-|Hne].
    + rewrite lookup_insert_eq. split.
      * intros [H|(Hg & p & Hp & E)]; [|right; split; [done|]; exists p; split; [set_solver|done]]. bsimpl.
        apply elem_of_union in H as [H|H].
        { right. apply elem_of_singleton in H as ->. split; [done|]. exists x. split; [set_solver|done]. }
        left. destruct (m !! ClientIP_ x); cbn in H; [by apply bool_decide_eq_true|by apply not_elem_of_empty in H].
      * intros [H|(Hg & p & Hp & E1 & E2)].
        { left. apply bool_decide_eq_true. destruct (m !! ClientIP_ x); [|done]. cbn. bsimpl. set_solver. }
        apply elem_of_cons in Hp as [[= ->]|Hp]; [left; apply bool_decide_eq_true; set_solver|].
        right. split; [done|]. by exists p.
    + rewrite lookup_insert_ne by done. split; (intros [H|(Hg & p & Hp & E1 & E2)]; [by left|right; split; [done|]; exists p; split; [|done]]).
      * set_solver.
      * apply elem_of_cons in Hp as [[= ->]|Hp]; done.
Qed.

Lemma by_key_elem {A} (m : gmap gostring A) k x : (k, x) ∈ by_key m <-> m !! k = Some x.
Proof. unfold by_key. rewrite merge_sort_Permutation. apply elem_of_map_to_list. Qed.

Lemma listed_members d ip g :
  (g <> [] /\ exists p, Some p ∈ ListClientProfiles d /\ ClientIP_ p = ip /\ GroupName p = g) <-> member d ip g = true.
Proof.
  unfold member, group_of, ListClientProfiles. rewrite andb_true_iff, negb_true_iff, bool_decide_eq_true. split.
  - intros (Hg & p & Hp & E1 & E2). split; [by unfold bytes_eqb; apply bool_decide_eq_false|].
    apply list_elem_of_fmap in Hp as ([k row] & [= ->] & Hk). apply by_key_elem in Hk. cbn in *. subst k. rewrite Hk. cbn.
    destruct (p_group row); cbn in E2; subst; done.
  - intros [Hg E]. unfold bytes_eqb in Hg. apply bool_decide_eq_false in Hg. split; [done|].
    destruct (client_profiles d !! ip) as [row|] eqn:Er; [|done]. cbn in E. exists (MkProfile ip g). split_and!; [|done..].
    apply list_elem_of_fmap. exists (ip, row). split; [cbn; by rewrite E|]. by apply by_key_elem.
Qed.

Definition follows (s : Server) : Prop :=
  exists d, db s = Some d /\ forall ip g, IsInGroup (cache s) ip g = member d ip g.

Lemma reload_follows f d c : reload_ok f = true -> follows (reloadClientGroupCache f (MkServer (Some d) c)).
Proof.
  intros Hf. exists d. split; [done|]. intros ip g. unfold reloadClientGroupCache. cbn [db cache]. rewrite Hf. cbn [Reload fst].
  apply eq_iff_eq_true. rewrite reload_members, <- listed_members. split; [|by right]. intros [H|H]; [|done].
  cbn [IsInGroup] in H. by rewrite lookup_empty in H.
Qed.

Lemma exec_error q f s : (exec q f s).1 <> 200 -> (exec q f s).2 = s.
Proof.
  assert (forall body name, (upsertClientGroup f name body s).1 <> 200 -> (upsertClientGroup f name body s).2 = s) as Hup.
  { intros body name. unfold upsertClientGroup. destruct (db s); [|done]. destruct body as [b|]; [|done].
    destruct (match name with [] => _ | _ => _ end); [done|]. by destruct (write_ok f). }
  destruct q as [path body|body|path body|path|confirm]; cbn [exec]; try apply Hup.
  - unfold handleUpdateClient. destruct (db s); [|done]. destruct (TrimSpace path); [done|]. destruct (PathUnescape _); [|done].
    destruct body; [|done]. by destruct (write_ok f).
  - unfold handleDeleteClientGroup. destruct (db s); [|done]. destruct (TrimSpace path); [done|]. destruct (write_ok f); [|done].
    by destruct (DeleteClientGroup _ _).
  - unfold handleStorageReset. destruct (db s); [|done]. destruct confirm as [x|]; [|done]. destruct (negb _); [done|]. by destruct (write_ok f).
Qed.

(** The database stays, and the cache follows it as [fresh] says. *)
Lemma exec_follows q f s d (b : bool) :
  db s = Some d -> (b = true -> follows s) ->
  is_Some (db (exec q f s).2) /\ (fresh [(f, q)] s b = true -> follows (exec q f s).2).
Proof.
  intros Hd Hs. cbn [fresh]. destruct (Z.eqb_spec (exec q f s).1 200) as [E|E]; [|rewrite exec_error by done; split; [by rewrite Hd|exact Hs]].
  assert (forall body name, (upsertClientGroup f name body s).1 = 200 -> is_Some (db (upsertClientGroup f name body s).2) /\
    (b = true -> follows (upsertClientGroup f name body s).2)) as Hup.
  { intros body name. unfold upsertClientGroup. rewrite Hd. destruct body as [x|]; [|done].
    destruct (match name with [] => _ | _ => _ end); [done|]. destruct (write_ok f); [|done]. cbn [fst snd]. intros _. split; [by eexists|].
    intros Hb. destruct (Hs Hb) as (d' & Hd' & Hm). rewrite Hd in Hd'. injection Hd' as <-. eexists. split; [done|]. exact Hm. }
  destruct q as [path body|body|path body|path|confirm]; cbn [exec] in *; try (by apply Hup).
  - revert E. unfold handleUpdateClient. rewrite Hd. destruct (TrimSpace path); [done|]. destruct (PathUnescape _); [|done].
    destruct body; [|done]. destruct (write_ok f); [|done]. intros _. cbn [fst snd]. split; [by eexists|]. apply reload_follows.
  - revert E. unfold handleDeleteClientGroup. rewrite Hd. destruct (TrimSpace path); [done|]. destruct (write_ok f); [|done].
    destruct (DeleteClientGroup _ d); [|done]. intros _. cbn [fst snd]. split; [by eexists|]. apply reload_follows.
  - revert E. unfold handleStorageReset. rewrite Hd. destruct confirm as [c|]; [|done]. destruct (negb _); [done|]. destruct (write_ok f); [|done].
    intros _. cbn [snd]. split; [by eexists|done].
Qed.

Lemma run_follows rs s d (b : bool) :
  db s = Some d -> (b = true -> follows s) -> is_Some (db (run rs s)) /\ (fresh rs s b = true -> follows (run rs s)).
Proof.
  revert s d b. induction rs as [|[f q] rs IH]; intros s d b Hd Hs; [by split; [eexists|]|].
  destruct (exec_follows q f s d b Hd Hs) as [[d' Hd'] Hf]. exact (IH _ _ _ Hd' Hf).
Qed.

(** The last assignment of a client that was answered with 200 is its group. *)
Lemma update_assigns f path body s d ip :
  db s = Some d -> (handleUpdateClient f path (Some body) s).1 = 200 -> PathUnescape (TrimSpace path) = Some ip ->
  exists d', db (handleUpdateClient f path (Some body) s).2 = Some d' /\
    group_of d' ip = NULLIF_empty (TrimSpace (TrimSpace (cr_GroupName body))) /\
    forall other, other <> ip -> group_of d' other = group_of d other.
Proof.
  intros Hd Hr Hp. unfold handleUpdateClient in *. rewrite Hd in *. destruct (TrimSpace path) as [|c r]; [done|].
  rewrite Hp in *. destruct (write_ok f); [|done]. cbn [snd reloadClientGroupCache db]. eexists. split; [done|].
  unfold group_of, UpdateClientProfile. cbn [client_profiles set_profiles ca_ClientIP]. rewrite lookup_insert_eq. split; [done|].
  intros other Ho. by rewrite lookup_insert_ne.
Qed.

Lemma delete_clears f path s d :
  db s = Some d -> (handleDeleteClientGroup f path s).1 = 200 ->
  exists d', db (handleDeleteClientGroup f path s).2 = Some d' /\ client_groups d' !! TrimSpace path = None /\
    forall ip, group_of d' ip = if bool_decide (group_of d ip = Some (TrimSpace path)) then None else group_of d ip.
Proof.
  intros Hd Hr. unfold handleDeleteClientGroup in *. rewrite Hd in *. destruct (TrimSpace path) as [|c r]; [done|].
  set (name := c :: r) in *. destruct (write_ok f); [|done]. unfold DeleteClientGroup in *. destruct (client_groups d !! name); [|done].
  cbn [snd reloadClientGroupCache db]. eexists. split; [done|]. cbn [client_groups]. split; [apply lookup_delete_eq|].
  intros ip. unfold group_of. cbn [client_profiles]. rewrite lookup_fmap. destruct (client_profiles d !! ip) as [p|]; [|done].
  cbn. unfold clear_group. by destruct (bool_decide (p_group p = Some name)).
Qed.

(** C30: The policy engine's groups are those of the tables.  After any requests, a
    reset of the storage included, and whatever writes and reads fail, [InClientGroup(ip,
    g)] holds exactly when the profile of [ip] has the group [g], unless [fresh] says
    otherwise: from an accepted reset, or an accepted assignment or deletion whose
    reload failed, until the next accepted assignment or deletion that reloads the cache.
    A request that is answered with an error has changed nothing; an accepted assignment
    sets the group of that client and of no other; an accepted deletion that reloads
    takes every member out of the group. *)
Theorem groups_follow (s : Server) (rs : list (Db * Req)) (Hs : follows s) :
  exists d, db (run rs s) = Some d /\
    (fresh rs s true = true -> forall ip g, IsInGroup (cache (run rs s)) ip g = member d ip g) /\
    (forall q f, (exec q f (run rs s)).1 <> 200 -> (exec q f (run rs s)).2 = run rs s) /\
    (forall f path body ip, (exec (RUpdateClient path (Some body)) f (run rs s)).1 = 200 ->
       PathUnescape (TrimSpace path) = Some ip ->
       exists d', db (exec (RUpdateClient path (Some body)) f (run rs s)).2 = Some d' /\
         group_of d' ip = NULLIF_empty (TrimSpace (TrimSpace (cr_GroupName body))) /\
         forall other, other <> ip -> group_of d' other = group_of d other) /\
    (forall f path ip, reload_ok f = true -> (exec (RDeleteGroup path) f (run rs s)).1 = 200 ->
       IsInGroup (cache (exec (RDeleteGroup path) f (run rs s)).2) ip (TrimSpace path) = false).
Proof.
  pose proof Hs as (d0 & Hd0 & _). destruct (run_follows rs s d0 true Hd0 (fun _ => Hs)) as [[d Hd] Hf].
  exists d. split_and!; [done| |intros q f; apply exec_error| |].
  - intros Hb ip g. destruct (Hf Hb) as (d' & Hd' & Hm). rewrite Hd in Hd'. injection Hd' as <-. apply Hm.
  - intros f path body ip H200 Hp. by apply update_assigns.
  - intros f path ip Hq H200. destruct (exec_follows (RDeleteGroup path) f (run rs s) d false Hd ltac:(done)) as [_ Hfd].
    destruct Hfd as (d' & Hd' & Hm'); [cbn [fresh]; by rewrite H200|].
    destruct (delete_clears f path (run rs s) d Hd H200) as (d'' & Hd'' & _ & Hg). cbn [exec] in *.
    rewrite Hd' in Hd''. injection Hd'' as <-. rewrite Hm'. unfold member. rewrite Hg.
    destruct (bool_decide (group_of d ip = Some (TrimSpace path))) eqn:E; [by rewrite andb_false_r|].
    bsimpl. rewrite (bool_decide_eq_false_2 _ E). by rewrite andb_false_r.
Qed.

(** ** Gaps *)

(** After a reset of the storage the rules still see the old groups, until the
    next change of a profile or a restart: the profiles are gone, the cache is as it
    was.  The statistics of the clients are not wiped either. *)
Theorem reset_keeps_groups (s : Server) (d : ClientDb) (f : Db) (confirm ip g : gostring)
    (Hd : db s = Some d) (Hw : write_ok f = true) (Hc : EqualFold (TrimSpace confirm) (str "nuke") = true)
    (Hin : IsInGroup (cache s) ip g = true) :
  exists s' d', handleStorageReset f (Some confirm) s = (200, s') /\ db s' = Some d' /\ group_of d' ip = None /\
    IsInGroup (cache s') ip g = true /\ client_stats d' = client_stats d.
Proof.
  unfold handleStorageReset. rewrite Hd, Hc, Hw. cbn [negb]. do 2 eexists. split; [done|]. split; [done|].
  unfold group_of. cbn. by rewrite lookup_empty.
Qed.

(** The path value is unescaped twice, once by the router: the zone of an address
    is taken for an escape. *)
Lemma zone_refused f body d c :
  (handleUpdateClient f (str "fe80::1%eth0") (Some body) (MkServer (Some d) c)).1 = 400.
Proof. done. Qed.

(** ** The list *)

(** What a search compares: the address and what the profile adds. *)
Definition searched (d : ClientDb) (ip : gostring) : list gostring :=
  let p := client_profiles d !! ip in
  [ip; default [] (p ≫= p_display); default [] (p ≫= p_notes); default [] (p ≫= p_group)].

Definition plain_term (t : gostring) : bool := forallb (fun c => negb (wild c)) t.

Lemma client_rows_elem term d ip st :
  plain_term term = true ->
  (ip, st) ∈ client_rows term d <->
  client_stats d !! ip = Some st /\ (term = [] \/ existsb (fun x => Contains (ToLower x) (ToLower term)) (searched d ip) = true).
Proof.
  intros Ht. unfold client_rows. rewrite merge_sort_Permutation. destruct term as [|c t].
  { rewrite elem_of_map_to_list. tauto. }
  rewrite list_elem_of_In, filter_In, <- list_elem_of_In, elem_of_map_to_list. unfold summary_matches, searched. cbn [existsb].
  rewrite !(like_contains (c :: t)) by done. rewrite !ToLower_idem, orb_false_r, !orb_assoc. split; [tauto|]. intros [H [?|?]]; done.
Qed.

(** The pages of the client list are complete.  Read one after the other with a
    page size that is accepted, they are one list with every client of the
    statistics once; with a search, those clients whose address, name, notes or
    group contain the term, upper and lower case being the same (a term with [%] or
    [_] is taken for a pattern). *)
Theorem clients_listed (term : gostring) (d : ClientDb) (limit n : nat)
    (Hl : (0 < limit)%nat) (Hn : (length (client_rows term d) <= n * limit)%nat) :
  concat (map (fun k => GetClientSummaries term (Z.of_nat limit) (Z.of_nat (k * limit)) d) (seq 0 n)) =
    map (summary_row d) (client_rows term d) /\
  NoDup (fst <$> client_rows term d) /\
  (plain_term term = true -> forall ip st, (ip, st) ∈ client_rows term d <->
     client_stats d !! ip = Some st /\
     (term = [] \/ existsb (fun x => Contains (ToLower x) (ToLower term)) (searched d ip) = true)).
Proof.
  split_and!.
  - etrans; [|exact (f_equal (map (summary_row d)) (pages_cover limit n (client_rows term d) Hl Hn))].
    rewrite concat_map, map_map. f_equal. apply map_ext. intros k. unfold GetClientSummaries. rewrite (proj2 (Z.leb_gt _ _)) by lia. by rewrite (proj2 (Z.ltb_ge _ _)) by lia.
  - unfold client_rows. rewrite merge_sort_Permutation. destruct term as [|c t]; [apply NoDup_fst_map_to_list|].
    generalize (percent :: (c :: t) ++ [percent]). intros pat. pose proof (NoDup_fst_map_to_list (client_stats d)) as H.
    induction (map_to_list (client_stats d)) as [|x l IH]; [done|]. cbn in H. apply NoDup_cons in H as [Hx H]. cbn [List.filter].
    destruct (summary_matches pat d x); [|by apply IH]. cbn. apply NoDup_cons. split; [|by apply IH].
    intros Hin. apply Hx. apply list_elem_of_fmap in Hin as (y & -> & Hy). apply list_elem_of_In, filter_In in Hy as [Hy _].
    apply list_elem_of_In in Hy. by apply list_elem_of_fmap_2.
  - intros Ht ip st. by apply client_rows_elem.
Qed.

(** The page size of a request is between 1 and 500. *)
Lemma page_size raw : 1 <= parsePositiveInt raw defaultClientPageSize maxClientPageSize <= 500.
Proof.
  unfold parsePositiveInt, defaultClientPageSize, maxClientPageSize. destruct raw; [lia|]. destruct (Atoi _); [|lia].
  destruct (Z.leb_spec a0 0); [lia|]. cbn [Z.ltb]. change (0 <? 500) with true. cbn [andb]. destruct (Z.ltb_spec 500 a0); lia.
Qed.

(** ** Witnesses *)

Section witnesses.

Definition stat : ClientStat := MkClientStat 1 0 0 [] [].
Definition two_clients : ClientDb :=
  MkClientDb (<[str "10.0.0.1" := stat]> {[str "10.0.0.2" := stat]})
    {[str "10.0.0.1" := MkProfileRow (Some (str "Tablet")) None (Some (str "kids"))]} {[str "kids" := MkGroupRow None None]}.
Definition fine : Db := MkDb true true.
Definition home : Server := (reloadClientGroupCache fine (MkServer (Some two_clients) None)).

(** Refused requests, a reset, and an assignment after it. *)
Lemma groups_follow_witness :
  let rs := [(fine, RDeleteGroup (str "none")); (fine, RReset (Some (str "NUKE")));
             (fine, RUpdateClient (str "10.0.0.2") (Some (MkClientUpdateRequest [] (str " kids ") [])))] in
  exists d, db (run rs home) = Some d /\ IsInGroup (cache (run rs home)) (str "10.0.0.2") (str "kids") = member d (str "10.0.0.2") (str "kids") /\
    member d (str "10.0.0.2") (str "kids") = true.
Proof.
  cbn zeta. set (rs := [_; _; _]). destruct (groups_follow home rs) as (d & Hd & Hm & _).
  - by apply reload_follows.
  - exists d. split_and!; [exact Hd|apply Hm; by vm_compute|]. vm_compute in Hd. injection Hd as <-. by vm_compute.
Defined.

Lemma reset_keeps_groups_witness :
  exists s', handleStorageReset fine (Some (str "NUKE")) home = (200, s') /\ IsInGroup (cache s') (str "10.0.0.1") (str "kids") = true.
Proof.
  destruct (reset_keeps_groups home two_clients fine (str "NUKE") (str "10.0.0.1") (str "kids")) as (s' & d' & H & _ & _ & Hin & _);
    [done|done|by vm_compute|by vm_compute|]. by exists s'.
Defined.

Lemma clients_listed_witness :
  concat (map (fun k => GetClientSummaries (str "TAB") 1 (Z.of_nat (k * 1)) two_clients) (seq 0 1)) =
    map (summary_row two_clients) (client_rows (str "TAB") two_clients) /\ length (client_rows (str "TAB") two_clients) = 1%nat.
Proof.
  destruct (clients_listed (str "TAB") two_clients 1 1) as [H _]; [lia|by vm_compute; lia|]. split; [exact H|by vm_compute].
Defined.

End witnesses.
