(* ===== verification/Migrations.v ===== *)
(** * The schema and its migrations (pkg/storage/migrations.go, migrations/001_initial.sql)

    The registry of migrations with their statements, as far as they say which
    tables, columns and indexes there are, and the runner.  The rows that a
    migration depends on are those of [policy_rules], whose names must become
    unique; other data is not looked at.  A statement fails as SQLite fails it: a
    table or index that exists already, a table or column that does not, a unique
    index over duplicates.  A run may also be interrupted anywhere. *)

From Stdlib Require Import Ascii String.
From S2P Require Import Prelude GoStrings.
From stdpp Require Import sorting options.
Local Open Scope string_scope.
Local Open Scope Z_scope.
Local Open Scope list_scope.

(** ** Statements *)

Inductive Stmt :=
| CreateTable (if_not_exists : bool) (t : string) (cols : list string)
| AddColumn (t c : string)
| DropTable (t : string)
| RenameTable (a b : string)
| CreateIndex (unique if_not_exists : bool) (i t : string) (cols : list string)
| DropIndexIfExists (i : string)
| InsertSelect (into : string) (into_cols : list string) (from : string) (from_cols : list string)
    (** as many columns as expressions; the columns the expressions read *)
| DedupePolicyNames.   (** DELETE ... WHERE id NOT IN (SELECT MIN(id) ... GROUP BY name) *)

(** An index: its table, its columns, whether it is unique. *)
Record Index := MkIndex { i_table : string; i_cols : list string; i_unique : bool }.
#[global] Instance Index_eq_dec : EqDecision Index.
Proof. solve_decision. Defined.

Record Schema := MkSchema { tables : gmap string (list string); indexes : gmap string Index }.
#[global] Instance Schema_eq_dec : EqDecision Schema.
Proof. solve_decision. Defined.

Definition has_columns (s : Schema) (t : string) (cols : list string) : bool :=
  match tables s !! t with Some cs => forallb (fun c => bool_decide (c ∈ cs)) cols | None => false end.

Definition exec_schema (st : Stmt) (s : Schema) : option Schema :=
  match st with
  | CreateTable ine t cols =>
      match tables s !! t with
      | Some _ => if ine then Some s else None
      | None => Some (MkSchema (<[t := cols]> (tables s)) (indexes s))
      end
  | AddColumn t c =>
      match tables s !! t with
      | Some cs => if bool_decide (c ∈ cs) then None else Some (MkSchema (<[t := (cs ++ [c])%list]> (tables s)) (indexes s))
      | None => None
      end
  | DropTable t =>
      match tables s !! t with
      | Some _ => Some (MkSchema (delete t (tables s)) (filter (fun ki => i_table ki.2 <> t) (indexes s)))
      | None => None
      end
  | RenameTable a b =>
      match tables s !! a, tables s !! b with
      | Some cs, None =>
          Some (MkSchema (<[b := cs]> (delete a (tables s)))
                 ((fun i => if bool_decide (i_table i = a) then MkIndex b (i_cols i) (i_unique i) else i) <$> indexes s))
      | _, _ => None
      end
  | CreateIndex u ine i t cols =>
      match indexes s !! i with
      | Some _ => if ine then Some s else None
      | None => if has_columns s t cols then Some (MkSchema (tables s) (<[i := MkIndex t cols u]> (indexes s))) else None
      end
  | DropIndexIfExists i => Some (MkSchema (tables s) (delete i (indexes s)))
  | InsertSelect into ic from fc =>
      if has_columns s into ic && has_columns s from fc then Some s else None
  | DedupePolicyNames => if has_columns s "policy_rules" ["id"; "name"] then Some s else None
  end.

(** ** The rows of policy_rules: id and name *)

Definition PRow : Type := Z * gostring.

(** SELECT MIN(id) ... GROUP BY name *)
Definition is_min (rs : list PRow) (r : PRow) : bool :=
  forallb (fun x => negb (bytes_eqb x.2 r.2) || (r.1 <=? x.1)) rs.

Definition dedupe (rs : list PRow) : list PRow := List.filter (is_min rs) rs.

Definition exec_rows (st : Stmt) (rs : list PRow) : option (list PRow) :=
  match st with
  | DedupePolicyNames => Some (dedupe rs)
  | CreateIndex true _ _ "policy_rules" _ => if bool_decide (NoDup (snd <$> rs)) then Some rs else None
  | _ => Some rs
  end.

(** ** The registry *)

Record Migration := MkMigration { Version : Z; Stmts : list Stmt }.

Definition queries_v3 : list string :=
  ["id"; "timestamp"; "client_ip"; "domain"; "query_type"; "response_code"; "blocked"; "cached"; "response_time_ms"; "upstream"; "block_trace"].

(** migrations/001_initial.sql *)
Definition initialSchema : list Stmt :=
  [CreateTable true "queries" ["id"; "timestamp"; "client_ip"; "domain"; "query_type"; "response_code"; "blocked"; "cached";
     "response_time_ms"; "upstream"; "upstream_time_ms"];
   CreateIndex false true "idx_queries_timestamp" "queries" ["timestamp"];
   CreateIndex false true "idx_queries_domain" "queries" ["domain"];
   CreateIndex false true "idx_queries_blocked" "queries" ["blocked"];
   CreateIndex false true "idx_queries_client_ip" "queries" ["client_ip"];
   CreateIndex false true "idx_queries_cached" "queries" ["cached"];
   CreateTable true "statistics" ["id"; "timestamp"; "hour"; "total_queries"; "blocked_queries"; "cached_queries";
     "avg_response_time_ms"; "unique_domains"; "unique_clients"];
   CreateIndex false true "idx_statistics_hour" "statistics" ["hour"];
   CreateTable true "domain_stats" ["id"; "domain"; "query_count"; "last_queried"; "first_queried"; "blocked"];
   CreateIndex false true "idx_domain_stats_domain" "domain_stats" ["domain"];
   CreateIndex false true "idx_domain_stats_count" "domain_stats" ["query_count"];
   CreateIndex false true "idx_domain_stats_blocked" "domain_stats" ["blocked"];
   CreateTable true "schema_version" ["version"; "applied_at"]].

Definition migration_2 : list Stmt :=
  [AddColumn "queries" "block_trace"].

Definition migration_3 : list Stmt :=
  [CreateTable false "queries_new" queries_v3;
   InsertSelect "queries_new" queries_v3 "queries" queries_v3;
   DropTable "queries";
   RenameTable "queries_new" "queries";
   CreateIndex false false "idx_queries_timestamp" "queries" ["timestamp"];
   CreateIndex false false "idx_queries_domain" "queries" ["domain"];
   CreateIndex false false "idx_queries_blocked" "queries" ["blocked"];
   CreateIndex false false "idx_queries_client_ip" "queries" ["client_ip"];
   CreateIndex false false "idx_queries_cached" "queries" ["cached"]].

Definition migration_4 : list Stmt :=
  [CreateIndex false false "idx_queries_domain_timestamp" "queries" ["domain"; "timestamp"];
   CreateIndex false false "idx_queries_client_timestamp" "queries" ["client_ip"; "timestamp"];
   CreateIndex false false "idx_queries_blocked_timestamp" "queries" ["blocked"; "timestamp"];
   CreateIndex false false "idx_queries_cached_timestamp" "queries" ["cached"; "timestamp"];
   CreateIndex false false "idx_queries_domain_response_time" "queries" ["domain"; "response_time_ms"]].

Definition migration_5 : list Stmt :=
  [CreateTable true "client_groups" ["name"; "description"; "color"; "created_at"; "updated_at"];
   CreateTable true "client_profiles" ["client_ip"; "display_name"; "notes"; "group_name"; "created_at"; "updated_at"]].

Definition migration_6 : list Stmt :=
  [AddColumn "queries" "upstream_time_ms"].

Definition migration_7 : list Stmt :=
  [CreateIndex false true "idx_queries_query_type" "queries" ["query_type"];
   CreateIndex false true "idx_queries_query_type_timestamp" "queries" ["query_type"; "timestamp"];
   CreateIndex false true "idx_queries_blocked_domain" "queries" ["blocked"; "domain"]].

Definition migration_8 : list Stmt :=
  [CreateIndex false true "idx_queries_client_ip_id" "queries" ["client_ip"; "id"];
   CreateIndex false true "idx_queries_client_ip_timestamp_id" "queries" ["client_ip"; "timestamp"; "id"]].

Definition migration_9 : list Stmt :=
  [CreateIndex false true "idx_queries_timestamp_agg" "queries" ["timestamp"; "blocked"; "cached"]].

Definition migration_10 : list Stmt :=
  [CreateTable true "client_stats" ["client_ip"; "total_queries"; "blocked_queries"; "nxdomain_queries"; "first_seen"; "last_seen"];
   CreateTable true "hourly_stats" ["hour"; "total_queries"; "blocked_queries"; "cached_queries"; "nxdomain_queries";
      "total_response_time_ms"; "unique_domains"; "unique_clients"];
   InsertSelect "client_stats" ["client_ip"; "total_queries"; "blocked_queries"; "nxdomain_queries"; "first_seen"; "last_seen"]
      "queries" ["client_ip"; "blocked"; "response_code"; "timestamp"];
   DropIndexIfExists "idx_queries_blocked";
   DropIndexIfExists "idx_queries_cached";
   DropIndexIfExists "idx_queries_domain";
   DropIndexIfExists "idx_queries_client_ip";
   DropIndexIfExists "idx_queries_client_ip_id";
   DropIndexIfExists "idx_queries_domain_response_time";
   DropIndexIfExists "idx_queries_query_type"].

Definition migration_11 : list Stmt :=
  [AddColumn "queries" "upstream_error"; AddColumn "queries" "dnssec_validated"].

Definition migration_12 : list Stmt :=
  [CreateTable true "policy_rules" ["id"; "name"; "logic"; "action"; "action_data"; "enabled"; "sort_order"; "created_at"; "updated_at"];
   CreateIndex false true "idx_policy_rules_sort" "policy_rules" ["sort_order"]].

Definition migration_13 : list Stmt :=
  [CreateTable true "dynamic_config" ["key"; "value"; "updated_at"]].

Definition migration_14 : list Stmt :=
  [CreateTable true "unbound_queries" ["id"; "timestamp"; "message_type"; "domain"; "query_type"; "response_code"; "duration_ms";
      "dnssec_validated"; "answer_count"; "response_size"; "client_ip"; "server_ip"; "cached_in_unbound"];
   CreateIndex false true "idx_unbound_ts" "unbound_queries" ["timestamp"];
   CreateIndex false true "idx_unbound_domain" "unbound_queries" ["domain"];
   CreateIndex false true "idx_unbound_msgtype" "unbound_queries" ["message_type"];
   AddColumn "queries" "unbound_cached";
   AddColumn "queries" "unbound_duration_ms";
   AddColumn "queries" "unbound_resp_size"].

Definition migration_15 : list Stmt :=
  [DedupePolicyNames; CreateIndex true true "idx_policy_rules_name_uq" "policy_rules" ["name"]].

Definition migration_16 : list Stmt :=
  [CreateIndex false true "idx_queries_blocked_ts_domain" "queries" ["blocked"; "timestamp"; "domain"];
   DropIndexIfExists "idx_queries_blocked_timestamp"].

Definition migrations : list Migration :=
  [MkMigration 1 initialSchema; MkMigration 2 migration_2; MkMigration 3 migration_3; MkMigration 4 migration_4;
   MkMigration 5 migration_5; MkMigration 6 migration_6; MkMigration 7 migration_7; MkMigration 8 migration_8;
   MkMigration 9 migration_9; MkMigration 10 migration_10; MkMigration 11 migration_11; MkMigration 12 migration_12;
   MkMigration 13 migration_13; MkMigration 14 migration_14; MkMigration 15 migration_15; MkMigration 16 migration_16].

Definition version_le (a b : Migration) : Prop := Version a <= Version b.
#[global] Instance version_le_dec : RelDecision version_le.
Proof. intros a b. unfold version_le. apply _. Defined.

Definition getMigrations : list Migration := merge_sort version_le migrations.

(** ** The runner *)

(** The database: the schema, the rows of [schema_version], those of [policy_rules]. *)
Record Database := MkDatabase { schema : Schema; versions : list Z; policies : list PRow }.

(** [ok]: the reads succeed.  Zero without the table. *)
Definition getCurrentVersion (ok : bool) (d : Database) : option Z :=
  if ok then Some (match tables (schema d) !! "schema_version" with
                   | None => 0
                   | Some _ => fold_right Z.max 0 (versions d)
                   end)
  else None.

Fixpoint exec_stmts (sts : list Stmt) (sr : Schema * list PRow) : option (Schema * list PRow) :=
  match sts with
  | [] => Some sr
  | st :: sts' => s ← exec_schema st sr.1; r ← exec_rows st sr.2; exec_stmts sts' (s, r)
  end.

(** One transaction: all of it, with the version recorded, or nothing. [ok]: it
    is not interrupted. *)
Definition applyMigration (ok : bool) (m : Migration) (d : Database) : option Database :=
  if ok then
    sr ← exec_stmts (Stmts m) (schema d, policies d);
    if has_columns sr.1 "schema_version" ["version"; "applied_at"] && negb (bool_decide (Version m ∈ versions d))
    then Some (MkDatabase sr.1 (versions d ++ [Version m]) sr.2) else None
  else None.

Fixpoint apply_all (ok : Z -> bool) (ms : list Migration) (d : Database) : bool * Database :=
  match ms with
  | [] => (true, d)
  | m :: ms' => match applyMigration (ok (Version m)) m d with
                | None => (false, d)
                | Some d' => apply_all ok ms' d'
                end
  end.

(** The faults of a run: the reads of the version, the transaction of a version. *)
Record RunFaults := MkRunFaults { reads_ok : bool; tx_ok : Z -> bool }.

Definition runMigrations (f : RunFaults) (d : Database) : bool * Database :=
  match getCurrentVersion (reads_ok f) d with
  | None => (false, d)
  | Some current => apply_all (tx_ok f) (List.filter (fun m => current <? Version m) getMigrations) d
  end.

Definition applyMigrations := runMigrations.

Definition empty_db : Database := MkDatabase (MkSchema ∅ ∅) [] [].

(** Between two runs the program inserts rules, under new ids; a unique name is
    required once there is an index for it. *)
Definition insert_rule (r : PRow) (d : Database) : Database :=
  match tables (schema d) !! "policy_rules" with
  | None => d
  | Some _ =>
      if bool_decide (r.1 ∈ fst <$> policies d) ||
         (bool_decide (is_Some (indexes (schema d) !! "idx_policy_rules_name_uq")) && bool_decide (r.2 ∈ snd <$> policies d))
      then d else MkDatabase (schema d) (versions d) (policies d ++ [r])
  end.

Inductive Event := Boot (f : RunFaults) | Insert (r : PRow).

Definition step (d : Database) (e : Event) : Database :=
  match e with Boot f => (runMigrations f d).2 | Insert r => insert_rule r d end.

Definition history (es : list Event) : Database := foldl step empty_db es.

(** ** The statements of the storage *)

(** A statement the storage prepares: its tables with the columns it names, and
    how many values it selects (or has placeholders for) and how many the code
    scans (or binds). *)
Record Statement := MkStatement { st_tables : list (string * list string); st_values : nat; st_bound : nat }.

Definition query_columns : list string :=
  ["id"; "timestamp"; "client_ip"; "domain"; "query_type"; "response_code"; "blocked"; "cached"; "response_time_ms"; "upstream";
   "upstream_time_ms"; "block_trace"; "upstream_error"; "dnssec_validated"; "unbound_cached"; "unbound_duration_ms"; "unbound_resp_size"].
Definition scanQueryLogs_dests : nat := 17.
Definition unbound_columns : list string :=
  ["id"; "timestamp"; "message_type"; "domain"; "query_type"; "response_code"; "duration_ms"; "dnssec_validated"; "answer_count";
   "response_size"; "client_ip"; "server_ip"; "cached_in_unbound"].

Definition stmt_insert_query := MkStatement [("queries", drop 1 query_columns)] 16 16.
Definition stmt_domain_stats := MkStatement [("domain_stats", ["domain"; "query_count"; "last_queried"; "first_queried"; "blocked"])] 5 5.
Definition stmt_client_stats :=
  MkStatement [("client_stats", ["client_ip"; "total_queries"; "blocked_queries"; "nxdomain_queries"; "first_seen"; "last_seen"])] 6 6.
Definition stmt_hourly_stats :=
  MkStatement [("hourly_stats", ["hour"; "total_queries"; "blocked_queries"; "cached_queries"; "nxdomain_queries";
     "total_response_time_ms"; "unique_domains"; "unique_clients"])] 8 8.
Definition stmt_recent := MkStatement [("queries", query_columns)] (length query_columns) scanQueryLogs_dests.
Definition stmt_by_domain := MkStatement [("queries", query_columns)] (length query_columns) scanQueryLogs_dests.
Definition stmt_by_client := MkStatement [("queries", query_columns)] (length query_columns) scanQueryLogs_dests.
Definition stmt_filtered := MkStatement [("queries", query_columns)] (length query_columns) scanQueryLogs_dests.
Definition stmt_hours :=
  MkStatement [("hourly_stats", ["total_queries"; "blocked_queries"; "cached_queries"; "unique_domains"; "unique_clients";
     "total_response_time_ms"; "hour"])] 6 6.
Definition stmt_hours_fallback :=
  MkStatement [("queries", ["blocked"; "cached"; "domain"; "client_ip"; "response_time_ms"; "timestamp"])] 6 6.
Definition stmt_top_domains := MkStatement [("queries", ["domain"; "timestamp"; "blocked"])] 4 4.
Definition stmt_blocked_count := MkStatement [("queries", ["blocked"; "timestamp"])] 1 1.
Definition stmt_query_count := MkStatement [("queries", ["timestamp"])] 1 1.
Definition stmt_time_series := MkStatement [("queries", ["timestamp"; "blocked"; "cached"; "response_time_ms"])] 5 5.
Definition stmt_query_types := MkStatement [("queries", ["query_type"; "blocked"; "cached"; "timestamp"])] 4 4.
Definition stmt_cleanup :=
  MkStatement [("queries", ["timestamp"; "domain"; "client_ip"]); ("domain_stats", ["domain"]); ("client_stats", ["client_ip"]);
     ("hourly_stats", ["hour"]); ("unbound_queries", ["timestamp"])] 4 4.
Definition stmt_reset :=
  MkStatement [("queries", []); ("statistics", []); ("domain_stats", []); ("client_profiles", []); ("client_groups", [])] 0 0.
Definition stmt_unbound_insert := MkStatement [("unbound_queries", drop 1 unbound_columns)] 12 12.
Definition stmt_unbound_select := MkStatement [("unbound_queries", unbound_columns)] (length unbound_columns) 13.
Definition stmt_unbound_stats :=
  MkStatement [("unbound_queries", ["cached_in_unbound"; "duration_ms"; "dnssec_validated"; "message_type"; "timestamp"])] 6 6.
Definition stmt_unbound_codes := MkStatement [("unbound_queries", ["response_code"; "message_type"; "timestamp"])] 2 2.
Definition stmt_trace_count := MkStatement [("queries", ["timestamp"; "blocked"; "block_trace"])] 1 1.
Definition stmt_trace_batch := MkStatement [("queries", ["id"; "block_trace"; "timestamp"; "blocked"])] 2 2.
(** Fourteen columns are selected, twelve scanned. *)
Definition stmt_trace_filter :=
  MkStatement [("queries", take 14 query_columns)] (length (take 14 query_columns)) 12.
Definition stmt_client_summaries :=
  MkStatement [("client_stats", ["client_ip"; "first_seen"; "last_seen"; "total_queries"; "blocked_queries"; "nxdomain_queries"]);
     ("client_profiles", ["display_name"; "notes"; "group_name"; "client_ip"]); ("client_groups", ["color"; "name"])] 10 10.
Definition stmt_profile_upsert :=
  MkStatement [("client_profiles", ["client_ip"; "display_name"; "notes"; "group_name"; "created_at"; "updated_at"])] 4 4.
Definition stmt_profile_list := MkStatement [("client_profiles", ["client_ip"; "display_name"; "notes"; "group_name"])] 4 4.
Definition stmt_group_list := MkStatement [("client_groups", ["name"; "description"; "color"])] 3 3.
Definition stmt_group_upsert := MkStatement [("client_groups", ["name"; "description"; "color"; "created_at"; "updated_at"])] 3 3.
Definition stmt_group_delete := MkStatement [("client_profiles", ["group_name"]); ("client_groups", ["name"])] 2 2.
Definition stmt_policy_list :=
  MkStatement [("policy_rules", ["id"; "name"; "logic"; "action"; "action_data"; "enabled"; "sort_order"])] 7 7.
Definition stmt_policy_insert :=
  MkStatement [("policy_rules", ["name"; "logic"; "action"; "action_data"; "enabled"; "sort_order"; "created_at"; "updated_at"])] 6 6.
Definition stmt_policy_update :=
  MkStatement [("policy_rules", ["name"; "logic"; "action"; "action_data"; "enabled"; "sort_order"; "updated_at"; "id"])] 7 7.
Definition stmt_policy_delete := MkStatement [("policy_rules", ["id"])] 1 1.
Definition stmt_config_get := MkStatement [("dynamic_config", ["value"; "key"])] 1 1.
Definition stmt_config_set := MkStatement [("dynamic_config", ["key"; "value"; "updated_at"])] 2 2.

Definition statements : list Statement :=
  [stmt_insert_query; stmt_domain_stats; stmt_client_stats; stmt_hourly_stats; stmt_recent; stmt_by_domain; stmt_by_client;
   stmt_filtered; stmt_hours; stmt_hours_fallback; stmt_top_domains; stmt_blocked_count; stmt_query_count; stmt_time_series;
   stmt_query_types; stmt_cleanup; stmt_reset; stmt_unbound_insert; stmt_unbound_select; stmt_unbound_stats; stmt_unbound_codes;
   stmt_trace_count; stmt_trace_batch; stmt_client_summaries; stmt_profile_upsert; stmt_profile_list; stmt_group_list;
   stmt_group_upsert; stmt_group_delete; stmt_policy_list; stmt_policy_insert; stmt_policy_update; stmt_policy_delete;
   stmt_config_get; stmt_config_set].

(** A statement fits the schema: its tables have its columns. *)
Definition prepares (s : Schema) (st : Statement) : bool := forallb (fun tc => has_columns s tc.1 tc.2) (st_tables st).

(** And its values meet as many variables. *)
Definition well_typed (s : Schema) (st : Statement) : bool := prepares s st && (st_values st =? st_bound st)%nat.

(** ** Deduplication *)

Lemma same_name_same_id (l : list PRow) :
  (forall x y, x ∈ l -> y ∈ l -> x.2 = y.2 -> x.1 = y.1) -> NoDup (fst <$> l) -> NoDup (snd <$> l).
Proof.
  induction l as [|x l IH]; intros H Hd; [constructor|]. cbn in *. apply NoDup_cons in Hd as [Hx Hd]. apply NoDup_cons. split.
  - intros Hin. apply list_elem_of_fmap in Hin as (y & E & Hy). apply Hx. rewrite (H x y) by (set_solver || done).
    by apply list_elem_of_fmap_2.
  - apply IH; [|done]. intros a b Ha Hb. apply H; set_solver.
Qed.

Lemma is_min_spec rs r : is_min rs r = true <-> forall x, x ∈ rs -> x.2 = r.2 -> r.1 <= x.1.
Proof.
  unfold is_min. rewrite forallb_forall. split.
  - intros H x Hx E. apply list_elem_of_In, H in Hx. rewrite E, bytes_eqb_refl in Hx. cbn in Hx. by bsimpl.
  - intros H x Hx. destruct (bytes_eqb x.2 r.2) eqn:E; [|done]. apply bytes_eqb_eq in E. cbn. apply Z.leb_le, H; [|done].
    by apply list_elem_of_In.
Qed.

Lemma dedupe_elem rs r : r ∈ dedupe rs <-> r ∈ rs /\ is_min rs r = true.
Proof. unfold dedupe. by rewrite !list_elem_of_In, filter_In. Qed.

Lemma dedupe_sub (f : PRow -> bool) rs : sublist (List.filter f rs) rs.
Proof. induction rs as [|x rs IH]; [done|]. cbn. destruct (f x); by constructor. Qed.

Lemma dedupe_unique rs : NoDup (fst <$> rs) -> NoDup (fst <$> dedupe rs) /\ NoDup (snd <$> dedupe rs).
Proof.
  intros Hd. assert (NoDup (fst <$> dedupe rs)) as Hd'.
  { eapply sublist_NoDup; [exact Hd|]. apply fmap_sublist, dedupe_sub. }
  split; [done|]. apply same_name_same_id; [|done].
  intros x y Hx Hy E. apply dedupe_elem in Hx as [Hx Hmx], Hy as [Hy Hmy]. rewrite is_min_spec in Hmx, Hmy.
  specialize (Hmx y Hy (eq_sym E)). specialize (Hmy x Hx E). lia.
Qed.

Lemma least_row (rs : list PRow) n : n ∈ snd <$> rs -> exists r, r ∈ rs /\ r.2 = n /\ forall x, x ∈ rs -> x.2 = n -> r.1 <= x.1.
Proof.
  induction rs as [|y rs IH]; intros H; [by apply elem_of_nil in H|]. destruct (decide (n ∈ snd <$> rs)) as [Hin|Hout].
  - destruct (IH Hin) as (r & Hr & E & Hmin). destruct (decide (y.2 = n /\ y.1 < r.1)) as [[Ey Hy]|Hy].
    + exists y. split; [set_solver|]. split; [done|]. intros x Hx Ex. apply elem_of_cons in Hx as [->|Hx]; [lia|].
      specialize (Hmin x Hx Ex). lia.
    + exists r. split; [set_solver|]. split; [done|]. intros x Hx Ex. apply elem_of_cons in Hx as [->|Hx]; [|by apply Hmin].
      destruct (Z.lt_ge_cases y.1 r.1); [|lia]. exfalso. by apply Hy.
  - cbn in H. apply elem_of_cons in H as [E|H]; [|done]. exists y. split; [set_solver|]. split; [done|]. intros x Hx Ex.
    apply elem_of_cons in Hx as [->|Hx]; [lia|]. exfalso. apply Hout. rewrite <- Ex. by apply list_elem_of_fmap_2.
Qed.

Lemma dedupe_keeps_names rs n : n ∈ snd <$> rs -> n ∈ snd <$> dedupe rs.
Proof.
  intros H. apply least_row in H as (r & Hr & <- & Hmin). apply list_elem_of_fmap_2, dedupe_elem. split; [done|].
  apply is_min_spec. intros x Hx E. by apply Hmin.
Qed.

(** ** One version after another *)

Definition exec_schemas (sts : list Stmt) (s : Schema) : option Schema := foldl (fun o st => s ← o; exec_schema st s) (Some s) sts.

(** The schema after the first [k] migrations. *)
Fixpoint schema_at (k : nat) : Schema :=
  match k with
  | O => MkSchema ∅ ∅
  | S k' => let s := schema_at k' in
            match migrations !! k' with
            | Some m => default s (exec_schemas (Stmts m) s)
            | None => s
            end
  end.

Definition last_version : nat := 16.

Lemma migrations_sorted : getMigrations = migrations.
Proof. by vm_compute. Qed.

(** Statements that do not look at the rows. *)
Definition row_neutral (st : Stmt) : bool :=
  match st with DedupePolicyNames => false | CreateIndex true _ _ _ _ => false | _ => true end.

Lemma exec_schemas_none sts : foldl (fun o st => s ← o; exec_schema st s) None sts = None.
Proof. by induction sts. Qed.

Lemma exec_schemas_cons st sts s : exec_schemas (st :: sts) s = s' ← exec_schema st s; exec_schemas sts s'.
Proof. unfold exec_schemas. cbn. destruct (exec_schema st s); [done|]. apply exec_schemas_none. Qed.

Lemma exec_neutral sts s rs :
  forallb row_neutral sts = true -> exec_stmts sts (s, rs) = s' ← exec_schemas sts s; Some (s', rs).
Proof.
  revert s. induction sts as [|st sts IH]; intros s H; [done|]. cbn in H. apply andb_true_iff in H as [H1 H2].
  rewrite exec_schemas_cons. cbn [exec_stmts fst snd]. destruct (exec_schema st s) as [s'|]; [|done]. cbn.
  assert (exec_rows st rs = Some rs) as ->; [|by apply IH]. by destruct st as [| | | |[] | | |].
Qed.

Lemma exec_dedupe s s' rs :
  NoDup (fst <$> rs) -> exec_schemas [DedupePolicyNames; CreateIndex true true "idx_policy_rules_name_uq" "policy_rules" ["name"]] s = Some s' ->
  exec_stmts [DedupePolicyNames; CreateIndex true true "idx_policy_rules_name_uq" "policy_rules" ["name"]] (s, rs) = Some (s', dedupe rs).
Proof.
  intros Hd H. rewrite !exec_schemas_cons in H. cbn [exec_stmts fst snd]. destruct (exec_schema DedupePolicyNames s) as [s1|]; [|done].
  cbn in H |- *. destruct (match indexes s1 !! _ with Some _ => _ | None => _ end) as [s2|]; [|done]. cbn in H |- *.
  rewrite bool_decide_eq_true_2 by by apply dedupe_unique. by injection H as ->.
Qed.

(** What the versions do to the schema, one by one. *)
Definition version_steps (k : nat) : bool :=
  match migrations !! k with
  | Some m => bool_decide (exec_schemas (Stmts m) (schema_at k) = Some (schema_at (S k))) && (Version m =? Z.of_nat (S k)) &&
              has_columns (schema_at (S k)) "schema_version" ["version"; "applied_at"] &&
              (forallb row_neutral (Stmts m) || (Version m =? 15))
  | None => false
  end.

Lemma all_versions_step : forallb version_steps (seq 0 last_version) = true.
Proof. by vm_compute. Qed.

#[local] Opaque schema_at.

Lemma version_step k : (k < last_version)%nat -> version_steps k = true.
Proof. intros H. pose proof all_versions_step as A. rewrite forallb_forall in A. apply A, in_seq. lia. Qed.

Definition applied (k : nat) : list Z := map Z.of_nat (seq 1 k).

(** The database stands at version [k]. *)
Record at_version (k : nat) (d : Database) : Prop := MkAt {
  av_bound : (k <= last_version)%nat;
  av_schema : schema d = schema_at k;
  av_versions : versions d = applied k;
  av_ids : NoDup (fst <$> policies d);
  av_names : (15 <= k)%nat -> NoDup (snd <$> policies d) }.

Lemma applied_S k : applied (S k) = applied k ++ [Z.of_nat (S k)].
Proof. unfold applied. by rewrite seq_S, map_app. Qed.

Lemma applied_not_in k : Z.of_nat (S k) ∉ applied k.
Proof. unfold applied. intros H. apply list_elem_of_fmap in H as (x & E & Hx). apply elem_of_seq in Hx. lia. Qed.

Lemma applied_max k : fold_right Z.max 0 (applied k) = Z.of_nat k.
Proof.
  induction k as [|k IH]; [done|]. rewrite applied_S, fold_right_app. cbn [fold_right].
  assert (forall l z, 0 <= z -> fold_right Z.max z l = Z.max (fold_right Z.max 0 l) z) as H.
  { intros l z Hz. induction l as [|x l IHl]; cbn; [lia|]. rewrite IHl. lia. }
  rewrite H by lia. rewrite IH. lia.
Qed.

Lemma next_version k d m :
  at_version k d -> migrations !! k = Some m ->
  exists d', applyMigration true m d = Some d' /\ at_version (S k) d' /\
    (forall n, n ∈ snd <$> policies d -> n ∈ snd <$> policies d').
Proof.
  intros [Hb Hs Hv Hi Hn] Hm. assert (k < last_version)%nat as Hk.
  { apply lookup_lt_Some in Hm. exact Hm. }
  pose proof (version_step k Hk) as Hstep. unfold version_steps in Hstep. rewrite Hm in Hstep. bsimpl.
  unfold applyMigration. rewrite Hs.
  assert (exists rs', exec_stmts (Stmts m) (schema_at k, policies d) = Some (schema_at (S k), rs') /\ NoDup (fst <$> rs') /\
    ((15 <= S k)%nat -> NoDup (snd <$> rs')) /\ (forall n, n ∈ snd <$> policies d -> n ∈ snd <$> rs')) as (rs' & -> & Hi' & Hn' & Hsub).
  { destruct (forallb row_neutral (Stmts m)) eqn:Er.
    - exists (policies d). rewrite exec_neutral, H by done. split_and!; try done.
      intros H15. apply Hn. destruct (decide (k = 14)%nat) as [->|]; [|lia]. cbn in Hm. injection Hm as <-. by vm_compute in Er.
    - cbn in H0. bsimpl. assert (k = 14%nat) as -> by lia. cbn in Hm. injection Hm as <-. cbn [Stmts] in *.
      exists (dedupe (policies d)). destruct (dedupe_unique _ Hi) as [Hu1 Hu2].
      split; [apply exec_dedupe; assumption|]. split; [exact Hu1|]. split; [intros _; exact Hu2|]. intros n. apply dedupe_keeps_names. }
  cbn [mbind option_bind fst snd]. rewrite H1. rewrite Hv, H2. cbn [andb]. rewrite bool_decide_eq_false_2 by apply applied_not_in.
  cbn [negb]. eexists. split; [done|]. split; [|exact Hsub]. split; cbn [schema versions policies]; try done. by rewrite applied_S.
Qed.

Lemma apply_rest ok k d :
  at_version k d ->
  exists k', (k <= k')%nat /\ at_version k' (apply_all ok (drop k migrations) d).2 /\
    ((apply_all ok (drop k migrations) d).1 = true -> k' = last_version) /\
    ((forall v, ok v = true) -> (apply_all ok (drop k migrations) d).1 = true) /\
    (forall n, n ∈ snd <$> policies d -> n ∈ snd <$> policies (apply_all ok (drop k migrations) d).2).
Proof.
  remember (last_version - k)%nat as j eqn:Ej. revert k d Ej. induction j as [|j IH]; intros k d Ej Ha.
  - assert (k = last_version) as -> by (pose proof (av_bound _ _ Ha); lia). exists last_version. by split_and!.
  - destruct (migrations !! k) as [m|] eqn:Em.
    2: { apply lookup_ge_None in Em. change (length migrations) with last_version in Em. lia. }
    rewrite (drop_S _ _ _ Em). cbn [apply_all]. destruct (ok (Version m)) eqn:Eo.
    2: { exists k. split_and!; try done. intros H. by rewrite H in Eo. }
    destruct (next_version k d m Ha Em) as (d' & -> & Ha' & Hsub).
    destruct (IH (S k) d') as (k' & Hk' & H1 & H2 & H3 & H4); [lia|done|]. exists k'. split_and!; try done; [lia|].
    intros n Hn. by apply H4, Hsub.
Qed.

Lemma run_at f k d :
  at_version k d -> runMigrations f d = if reads_ok f then apply_all (tx_ok f) (drop k migrations) d else (false, d).
Proof.
  intros [Hb Hs Hv _ _]. unfold runMigrations, getCurrentVersion. destruct (reads_ok f); [|done].
  assert ((match tables (schema d) !! "schema_version" with None => 0 | Some _ => fold_right Z.max 0 (versions d) end) = Z.of_nat k) as ->.
  { destruct k as [|k]; [by rewrite Hs|]. pose proof (version_step k ltac:(unfold last_version in *; lia)) as Hst. unfold version_steps in Hst.
    destruct (migrations !! k); [|done]. bsimpl. unfold has_columns in H1. rewrite Hs. destruct (tables (schema_at (S k)) !! _); [|done].
    rewrite Hv. apply applied_max. }
  rewrite migrations_sorted. f_equal. clear -Hb. unfold last_version in Hb.
  do 17 (destruct k as [|k]; [by vm_compute|]). lia.
Qed.

Lemma step_at e k d : at_version k d -> exists k', (k <= k')%nat /\ at_version k' (step d e).
Proof.
  intros Ha. destruct e as [f|r]; cbn [step].
  - rewrite (run_at f k d Ha). destruct (reads_ok f); [|by exists k].
    destruct (apply_rest (tx_ok f) k d Ha) as (k' & Hk & H & _). by exists k'.
  - exists k. split; [done|]. destruct Ha as [Hb Hs Hv Hi Hn]. unfold insert_rule. destruct (tables (schema d) !! _); [|done].
    destruct (_ || _) eqn:E; [done|]. bsimpl. split; cbn [schema versions policies]; try done.
    + rewrite fmap_app. apply NoDup_app. split; [done|]. split; [|apply NoDup_singleton]. intros x Hx Hx'.
      apply list_elem_of_singleton in Hx'. by subst.
    + intros H15. rewrite fmap_app. apply NoDup_app. split; [by apply Hn|]. split; [|apply NoDup_singleton]. intros x Hx Hx'.
      apply list_elem_of_singleton in Hx'. subst x. rewrite Hs in H0. apply andb_false_iff in H0 as [H0|H0]; [|by bsimpl].
      exfalso. bsimpl. apply H0. clear -Hb H15. unfold last_version in Hb.
      assert (k = 15 \/ k = 16)%nat as [-> | ->] by lia; by vm_compute; eexists.
Qed.

Lemma history_at es : exists k, at_version k (history es).
Proof.
  unfold history. induction es as [|e es IH] using rev_ind.
  - exists 0%nat. split; try done; cbn; try constructor. unfold last_version. lia.
  - rewrite foldl_app. destruct IH as [k Hk]. destruct (step_at e k _ Hk) as (k' & _ & H). by exists k'.
Qed.

(** C25: The migrations resume where they stopped.  After any history of boots, each
    possibly interrupted, and of rules inserted in between, the recorded versions are
    1 to some [k] and the schema is that of the first [k] migrations.  A run that is
    not interrupted succeeds; one that succeeds leaves all sixteen versions, recorded
    once each, with the names of the rules unique and none of them lost; and from then
    on no run changes anything. *)
Theorem migrations_resume (es : list Event) (f : RunFaults) :
  let d := history es in
  let r := runMigrations f d in
  (exists k, versions d = applied k /\ schema d = schema_at k /\ (k <= last_version)%nat) /\
  (reads_ok f = true -> (forall v, tx_ok f v = true) -> r.1 = true) /\
  (forall n, n ∈ snd <$> policies d -> n ∈ snd <$> policies r.2) /\
  (r.1 = true -> schema r.2 = schema_at last_version /\ versions r.2 = applied last_version /\ NoDup (snd <$> policies r.2) /\
     forall f', (runMigrations f' r.2).2 = r.2).
Proof.
  cbn zeta. destruct (history_at es) as [k Hk]. set (d := history es) in *. clearbody d.
  split; [exists k; by destruct Hk|]. rewrite (run_at f k d Hk). destruct (reads_ok f); [|by split_and!].
  destruct (apply_rest (tx_ok f) k d Hk) as (k' & _ & Ha & Hd & Hok & Hsub). split_and!; [by intros _|exact Hsub|].
  intros Hr. rewrite (Hd Hr) in Ha. pose proof Ha as [_ Hs Hv _ Hn]. split_and!; [done|done|apply Hn; unfold last_version; lia|].
  intros f'. rewrite (run_at f' last_version _ Ha). by destruct (reads_ok f').
Qed.

Lemma statements_fit : forallb (well_typed (schema_at last_version)) statements = true.
Proof. by vm_compute. Qed.

(** C26: The statements fit the schema.  Once a run of the migrations has succeeded,
    every statement of the storage finds its tables and columns, and scans or binds
    as many values as it has, but for one: the query with a trace filter selects
    fourteen columns and scans twelve. *)
Theorem statements_typed (es : list Event) (f : RunFaults) (Hok : (runMigrations f (history es)).1 = true) :
  Forall (fun st => prepares (schema (runMigrations f (history es)).2) st = true /\ st_values st = st_bound st) statements /\
  prepares (schema (runMigrations f (history es)).2) stmt_trace_filter = true /\
  (st_values stmt_trace_filter, st_bound stmt_trace_filter) = (14, 12)%nat.
Proof.
  destruct (history_at es) as [k Hk]. rewrite (run_at f k _ Hk) in *. destruct (reads_ok f); [|done].
  destruct (apply_rest (tx_ok f) k _ Hk) as (k' & _ & Ha & Hd & _). rewrite (Hd Hok) in Ha. rewrite (av_schema _ _ Ha).
  split_and!; [|by vm_compute|done]. apply Forall_forall. intros st Hst. pose proof statements_fit as H. rewrite forallb_forall in H.
  apply list_elem_of_In, H in Hst. unfold well_typed in Hst. bsimpl. done.
Qed.

(** ** Witnesses *)

Definition interrupted (v : Z) : RunFaults := MkRunFaults true (fun x => negb (x =? v)).
Definition clean_run : RunFaults := MkRunFaults true (fun _ => true).
Definition two_tries : list Event :=
  [Boot (interrupted 14); Insert (1, str "a"); Insert (2, str "a"); Insert (3, str "b"); Boot (interrupted 15)].

Example duplicates_at_14 : policies (history two_tries) = [(1, str "a"); (2, str "a"); (3, str "b")] /\
  policies (runMigrations clean_run (history two_tries)).2 = [(1, str "a"); (3, str "b")].
Proof. by vm_compute. Qed.

Lemma migrations_resume_witness :
  (runMigrations clean_run (history two_tries)).1 = true /\
  NoDup (snd <$> policies (runMigrations clean_run (history two_tries)).2).
Proof.
  destruct (migrations_resume two_tries clean_run) as (_ & Hok & _ & Hend).
  assert ((runMigrations clean_run (history two_tries)).1 = true) as H by by apply Hok. split; [exact H|]. by apply Hend.
Defined.

Lemma statements_typed_witness :
  prepares (schema (runMigrations clean_run (history two_tries)).2) stmt_trace_filter = true.
Proof. apply (statements_typed two_tries clean_run). by vm_compute. Defined.
