(* ===== verification/QueryReads.v ===== *)
(** * Reading and trimming the query log (pkg/storage/sqlite.go, sqlite_trace.go)

    The read side of the storage: the SELECT statements with their filters,
    aggregates and pages as functions of the rows, the traces, the time series,
    and the two operations that delete rows.  Times are stored and compared as
    texts (the class [TimeText] of QueryStore.v); averages, which are floats, are
    left out.  A storage that is closed answers [ErrClosed] before any of this. *)

From Stdlib Require Import Ascii.
From S2P Require Import Prelude GoStrings Sql Migrations CacheCore QueryStore.
From stdpp Require Import sorting options.
Local Open Scope Z_scope.

(** ** Rows *)

(** The column [block_trace]: NULL, a text that is not JSON, or the entries. *)
Inductive TraceText := TraceNull | TraceBad | TraceJson (entries : list BlockTraceEntry).

Record QueryRow := MkRow {
  r_id : Z; r_ts : gostring; r_client : gostring; r_domain : gostring; r_type : gostring; r_code : Z;
  r_blocked : bool; r_cached : bool; r_upstream : option gostring; r_trace : TraceText }.

Definition text_leb (a b : gostring) : bool := negb (str_ltb b a).

(** ORDER BY timestamp DESC *)
Definition newer (a b : QueryRow) : Prop := str_le (r_ts b) (r_ts a).
#[global] Instance newer_dec : RelDecision newer.
Proof. intros a b. unfold newer. apply _. Defined.

Definition newest_first (rows : list QueryRow) : list QueryRow := merge_sort newer rows.

(** [scanQueryLogs]: a trace that does not decode fails the whole read. *)
Definition decodes (r : QueryRow) : bool := match r_trace r with TraceBad => false | _ => true end.
Definition scanQueryLogs (rows : list QueryRow) : option (list QueryRow) := if forallb decodes rows then Some rows else None.

Definition GetRecentQueries (limit offset : Z) (rows : list QueryRow) : option (list QueryRow) :=
  scanQueryLogs (limit_offset limit offset (newest_first rows)).
Definition GetQueriesByDomain (domain : gostring) (limit : Z) (rows : list QueryRow) : option (list QueryRow) :=
  scanQueryLogs (limit_offset limit 0 (newest_first (List.filter (fun r => bytes_eqb (r_domain r) domain) rows))).
Definition GetQueriesByClientIP (client : gostring) (limit : Z) (rows : list QueryRow) : option (list QueryRow) :=
  scanQueryLogs (limit_offset limit 0 (newest_first (List.filter (fun r => bytes_eqb (r_client r) client) rows))).

(** ** Filters *)

(** Times are nanoseconds; [None] is the zero time. *)
Record QueryFilter := MkQueryFilter {
  f_Domain : gostring; f_QueryType : gostring; f_ClientIP : gostring; f_Upstream : gostring; f_ResponseCode : Z;
  f_Blocked : option bool; f_Cached : option bool; f_Start : option Z; f_End : option Z }.

Definition HasFilters (f : QueryFilter) : bool :=
  negb (bytes_eqb (f_Domain f) []) || negb (bytes_eqb (f_QueryType f) []) || bool_decide (is_Some (f_Blocked f)) ||
  bool_decide (is_Some (f_Cached f)) || bool_decide (is_Some (f_Start f)) || bool_decide (is_Some (f_End f)).

(** The conditions with their arguments. *)
Inductive Cond :=
| DomainLike (p : gostring) | TypeIs (t : gostring) | ClientIs (ip : gostring) | UpstreamLike (p : gostring) | CodeIs (c : Z)
| BlockedIs (b : bool) | CachedIs (b : bool) | SinceText (t : gostring) | UntilText (t : gostring).

Definition holds_cond (r : QueryRow) (c : Cond) : bool :=
  match c with
  | DomainLike p => like p (ToLower (r_domain r))
  | TypeIs t => bytes_eqb (ToUpper (r_type r)) t
  | ClientIs ip => bytes_eqb (r_client r) ip
  | UpstreamLike p => match r_upstream r with Some u => like p (ToLower u) | None => false end
  | CodeIs c => r_code r =? c
  | BlockedIs b => Bool.eqb (r_blocked r) b
  | CachedIs b => Bool.eqb (r_cached r) b
  | SinceText t => text_leb t (r_ts r)
  | UntilText t => text_leb (r_ts r) t
  end.

Definition around (s : gostring) : gostring := percent :: ToLower s ++ [percent].

Section reads.
Context {T : TimeText}.

Definition conditions (f : QueryFilter) : list Cond :=
  (if bytes_eqb (f_Domain f) [] then [] else [DomainLike (around (f_Domain f))]) ++
  (if bytes_eqb (f_QueryType f) [] then [] else [TypeIs (ToUpper (f_QueryType f))]) ++
  (if bytes_eqb (f_ClientIP f) [] then [] else [ClientIs (f_ClientIP f)]) ++
  (if bytes_eqb (f_Upstream f) [] then [] else [UpstreamLike (around (f_Upstream f))]) ++
  (if 0 <? f_ResponseCode f then [CodeIs (f_ResponseCode f)] else []) ++
  (match f_Blocked f with Some b => [BlockedIs b] | None => [] end) ++
  (match f_Cached f with Some b => [CachedIs b] | None => [] end) ++
  (match f_Start f with Some t => [SinceText (FormatTimestamp t)] | None => [] end) ++
  (match f_End f with Some t => [UntilText (FormatTimestamp t)] | None => [] end).

Definition GetQueriesFiltered (f : QueryFilter) (limit offset : Z) (rows : list QueryRow) : option (list QueryRow) :=
  scanQueryLogs (limit_offset limit offset (newest_first (List.filter (fun r => forallb (holds_cond r) (conditions f)) rows))).

(** ** Aggregates *)

Definition since_rows (since : gostring) (rows : list QueryRow) : list QueryRow := List.filter (fun r => text_leb since (r_ts r)) rows.

Definition GetBlockedCount (since : Z) (rows : list QueryRow) : Z :=
  Z.of_nat (length (List.filter r_blocked (since_rows (FormatTimestamp since) rows))).
Definition GetQueryCount (since : Z) (rows : list QueryRow) : Z := Z.of_nat (length (since_rows (FormatTimestamp since) rows)).

(** GROUP BY a text: the groups in the order of their first row. *)
Fixpoint group_rows (key : QueryRow -> gostring) (rows : list QueryRow) : list (gostring * list QueryRow) :=
  match rows with
  | [] => []
  | r :: rest =>
      let g := group_rows key rest in
      (key r, r :: List.filter (fun x => bytes_eqb (key x) (key r)) rest) ::
      List.filter (fun kg => negb (bytes_eqb kg.1 (key r))) g
  end.

Definition count_rows (p : QueryRow -> bool) (rows : list QueryRow) : Z := Z.of_nat (length (List.filter p rows)).

(** ORDER BY a count DESC *)
Definition larger {A} (a b : A * list QueryRow) : Prop := (length b.2 <= length a.2)%nat.
#[global] Instance larger_dec {A} : RelDecision (@larger A).
Proof. intros a b. unfold larger. apply _. Defined.

(** The zero time is replaced by seven days ago, which is [week_ago]. *)
Record DomainStats := MkDomainStats { d_Domain : gostring; d_Count : Z; d_First : gostring; d_Last : gostring; d_Blocked : bool }.

Definition min_text (rows : list QueryRow) : gostring :=
  match rows with [] => [] | r :: rest => foldl (fun t x => text_min t (r_ts x)) (r_ts r) rest end.
Definition max_text (rows : list QueryRow) : gostring :=
  match rows with [] => [] | r :: rest => foldl (fun t x => text_max t (r_ts x)) (r_ts r) rest end.

Definition GetTopDomains (limit : Z) (blocked : bool) (since : option Z) (week_ago : Z) (rows : list QueryRow) : list DomainStats :=
  let since := default week_ago since in
  let rows := since_rows (FormatTimestamp since) (List.filter (fun r => Bool.eqb (r_blocked r) blocked) rows) in
  map (fun kg => MkDomainStats kg.1 (Z.of_nat (length kg.2)) (min_text kg.2) (max_text kg.2) blocked)
    (limit_offset limit 0 (merge_sort larger (group_rows r_domain rows))).

Record QueryTypeStats := MkTypeStats { t_Type : gostring; t_Total : Z; t_Blocked : Z; t_Cached : Z }.

Definition type_key (r : QueryRow) : gostring := match ToUpper (r_type r) with [] => str "UNKNOWN" | t => t end.

Definition GetQueryTypeStats (limit : Z) (since : option Z) (week_ago : Z) (rows : list QueryRow) : list QueryTypeStats :=
  let since := default week_ago since in
  let limit := if (limit <=? 0) || (100 <? limit) then 10 else limit in
  map (fun kg => MkTypeStats kg.1 (Z.of_nat (length kg.2)) (count_rows r_blocked kg.2) (count_rows r_cached kg.2))
    (limit_offset limit 0 (merge_sort larger (group_rows type_key (since_rows (FormatTimestamp since) rows)))).

(** ** Statistics *)

Record Statistics := MkStatistics { s_Total : Z; s_Blocked : Z; s_Cached : Z; s_Domains : Z; s_Clients : Z }.

Definition sum_hours (f : HourlyStat -> Z) (hs : list HourlyStat) : Z := foldr (fun h n => f h + n) 0 hs.
Definition max_hours (f : HourlyStat -> Z) (hs : list HourlyStat) : Z := foldr (fun h n => Z.max (f h) n) 0 hs.

Definition hours_since (since : gostring) (hourly : gmap gostring HourlyStat) : list HourlyStat :=
  map snd (List.filter (fun kh => text_leb since kh.1) (map_to_list hourly)).

Definition distinct (key : QueryRow -> gostring) (rows : list QueryRow) : Z := Z.of_nat (length (remove_dups (map key rows))).

(** The hourly table, or the rows when it has nothing; [SUM] and [AVG] over no
    rows are NULL, which does not scan into a number. *)
Definition GetStatistics (hours_ok : bool) (since : Z) (hourly : gmap gostring HourlyStat) (rows : list QueryRow) : option Statistics :=
  let since := FormatTimestamp since in
  let hs := hours_since since hourly in
  let total := sum_hours h_total hs in
  if hours_ok && negb (total =? 0)
  then Some (MkStatistics total (sum_hours h_blocked hs) (sum_hours h_cached hs) (max_hours unique_domains hs) (max_hours unique_clients hs))
  else
    let rows := since_rows since rows in
    match rows with
    | [] => None
    | _ => Some (MkStatistics (Z.of_nat (length rows)) (count_rows r_blocked rows) (count_rows r_cached rows)
                   (distinct r_domain rows) (distinct r_client rows))
    end.

End reads.

(** ** Time series *)

(** Seconds; Go and SQLite divide towards zero. *)
Definition truncateToBucket (unix bucketSeconds : Z) : Z :=
  if bucketSeconds <=? 0 then unix else Z.quot unix bucketSeconds * bucketSeconds.

Record TimeSeriesPoint := MkPoint { p_Timestamp : Z; p_Total : Z; p_Blocked : Z; p_Cached : Z }.

Section series.
Context {T : TimeText}.
(** [strftime('%s', timestamp)] *)
Context (unix_of : gostring -> Z).

Definition bucket_of (bucketSeconds : Z) (r : QueryRow) : Z := Z.quot (unix_of (r_ts r)) bucketSeconds * bucketSeconds.

Definition point_of (bucketSeconds : Z) (rows : list QueryRow) (at_ : Z) : TimeSeriesPoint :=
  let rs := List.filter (fun r => bucket_of bucketSeconds r =? at_) rows in
  MkPoint at_ (Z.of_nat (length rs)) (count_rows r_blocked rs) (count_rows r_cached rs).

(** A bucket without rows is a point of zeros.  [now] in seconds; [start_text] is
    the text of the first bucket's start. *)
Definition GetTimeSeriesStats (now bucketSeconds points : Z) (start_text : gostring) (rows : list QueryRow) : option (list TimeSeriesPoint) :=
  if points <=? 0 then None
  else if bucketSeconds <=? 0 then None
  else
    let start := truncateToBucket now bucketSeconds - bucketSeconds * (points - 1) in
    let rows := since_rows start_text rows in
    Some (map (fun i => point_of bucketSeconds rows (start + Z.of_nat i * bucketSeconds)) (seq 0 (Z.to_nat points))).

End series.

(** ** Traces *)

Record TraceFilter := MkTraceFilter { tf_Stage : gostring; tf_Action : gostring; tf_Rule : gostring; tf_Source : gostring }.

Definition field_ok (wanted have : gostring) : bool := bytes_eqb wanted [] || bytes_eqb have wanted.

Definition matchesFilter (traces : list BlockTraceEntry) (f : TraceFilter) : bool :=
  if bytes_eqb (tf_Stage f) [] && bytes_eqb (tf_Action f) [] && bytes_eqb (tf_Rule f) [] && bytes_eqb (tf_Source f) [] then true
  else existsb (fun t => field_ok (tf_Stage f) (Stage t) && field_ok (tf_Action f) (Action t) && field_ok (tf_Rule f) (Rule t) &&
                         field_ok (tf_Source f) (Source t)) traces.

Definition has_trace (r : QueryRow) : bool := match r_trace r with TraceNull => false | _ => true end.

(** The loop over the scanned rows: what does not scan or decode is skipped, then
    come the filter, the offset and the limit. *)
Fixpoint trace_loop (scans : bool) (f : TraceFilter) (limit offset skipped : Z) (found : list QueryRow) (rows : list QueryRow) : list QueryRow :=
  match rows with
  | [] => found
  | r :: rest =>
      if negb scans then trace_loop scans f limit offset skipped found rest
      else match r_trace r with
           | TraceBad => trace_loop scans f limit offset skipped found rest
           | _ =>
               let traces := match r_trace r with TraceJson es => es | _ => [] end in
               if negb (matchesFilter traces f) then trace_loop scans f limit offset skipped found rest
               else if skipped <? offset then trace_loop scans f limit offset (skipped + 1) found rest
               else let found := found ++ [r] in
                    if limit <=? Z.of_nat (length found) then found else trace_loop scans f limit offset skipped found rest
           end
  end.

(** [Scan] fails unless it gets a variable for every column. *)
Definition scan_fits (st : Statement) : bool := (st_values st =? st_bound st)%nat.

Definition GetQueriesWithTraceFilter (f : TraceFilter) (limit offset : Z) (rows : list QueryRow) : list QueryRow :=
  trace_loop (scan_fits stmt_trace_filter) f limit offset 0 []
    (limit_offset 10000 0 (newest_first (List.filter (fun r => r_blocked r && has_trace r) rows))).

(** The counters of [GetTraceStatistics]. *)
Record TraceCounts := MkTraceCounts {
  ByStage : gmap gostring Z; ByAction : gmap gostring Z; ByRule : gmap gostring Z; BySource : gmap gostring Z }.

Definition bump (k : gostring) (m : gmap gostring Z) : gmap gostring Z := if bytes_eqb k [] then m else <[k := default 0 (m !! k) + 1]> m.

Definition count_trace (c : TraceCounts) (t : BlockTraceEntry) : TraceCounts :=
  MkTraceCounts (bump (Stage t) (ByStage c)) (bump (Action t) (ByAction c)) (bump (Rule t) (ByRule c)) (bump (Source t) (BySource c)).

Definition count_row (c : TraceCounts) (r : QueryRow) : TraceCounts :=
  match r_trace r with TraceJson es => foldl count_trace c es | _ => c end.

Definition id_le (a b : QueryRow) : Prop := r_id a <= r_id b.
#[global] Instance id_le_dec : RelDecision id_le.
Proof. intros a b. unfold id_le. apply _. Defined.

Definition traced (since : gostring) (rows : list QueryRow) : list QueryRow :=
  List.filter (fun r => text_leb since (r_ts r) && r_blocked r && has_trace r) rows.

(** The rows of one batch. *)
Definition trace_batch (batchSize : nat) (since : gostring) (lastID : Z) (rows : list QueryRow) : list QueryRow :=
  take batchSize (merge_sort id_le (List.filter (fun r => lastID <? r_id r) (traced since rows))).

(** The loop with its cursor; [None]: not enough fuel. *)
Fixpoint trace_batches (fuel batchSize : nat) (since : gostring) (rows : list QueryRow) (lastID : Z) (c : TraceCounts) : option TraceCounts :=
  match fuel with
  | O => None
  | S fuel' =>
      let batch := trace_batch batchSize since lastID rows in
      let c := foldl count_row c batch in
      let lastID := match List.last (map Some batch) None with Some r => r_id r | None => lastID end in
      if (length batch <? batchSize)%nat then Some c else trace_batches fuel' batchSize since rows lastID c
  end.

Definition no_counts : TraceCounts := MkTraceCounts ∅ ∅ ∅ ∅.

(** The total and the counters; a time argument is bound as it is. *)
Definition GetTraceStatistics {T : TimeText} (since : Z) (rows : list QueryRow) : option (Z * TraceCounts) :=
  c ← trace_batches (S (length rows)) 1000 (driver_text since) rows 0 no_counts;
  Some (Z.of_nat (length (traced (driver_text since) rows)), c).

(** ** Deleting *)

Record LogDb := MkLogDb {
  l_rows : list QueryRow; l_domains : gmap gostring DomainStat; l_clients : gmap gostring ClientStat;
  l_hours : gmap gostring HourlyStat; l_unbound : list gostring }.   (** the times of Unbound's events *)

Definition older (cutoff : gostring) (r : QueryRow) : bool := str_ltb (r_ts r) cutoff.

(** DELETE ... WHERE rowid IN (SELECT ... LIMIT n) *)
Fixpoint delete_batch {A} (n : nat) (p : A -> bool) (l : list A) : list A * nat :=
  match l with
  | [] => ([], 0%nat)
  | x :: rest =>
      match n with
      | O => (l, 0%nat)
      | S n' => if p x then let '(l', k) := delete_batch n' p rest in (l', S k)
                else let '(l', k) := delete_batch n p rest in (x :: l', k)
      end
  end.

(** What can go wrong: the context before the i-th batch, its statement, and the
    four statements that follow. *)
Record CleanFaults := MkCleanFaults {
  alive : nat -> bool; delete_ok : nat -> bool; domains_ok : bool; clients_ok : bool; hours_ok : bool; unbound_ok : bool }.

Inductive CleanError := CtxErr | QueryFailed.

Fixpoint cleanup_loop (fuel i batchSize : nat) (f : CleanFaults) (cutoff : gostring) (rows : list QueryRow) (total : nat) :
    option (result CleanError nat * list QueryRow) :=
  match fuel with
  | O => None
  | S fuel' =>
      if negb (alive f i) then Some (Err CtxErr, rows)
      else if negb (delete_ok f i) then Some (Err QueryFailed, rows)
      else
        let '(rows', n) := delete_batch batchSize (older cutoff) rows in
        if (n <? batchSize)%nat then Some (Ok (total + n)%nat, rows')
        else cleanup_loop fuel' (S i) batchSize f cutoff rows' (total + n)
  end.

Definition Cleanup {T : TimeText} (f : CleanFaults) (olderThan : Z) (d : LogDb) : option (result CleanError unit * LogDb) :=
  '(res, rows) ← cleanup_loop (S (length (l_rows d))) 0 (Pos.to_nat 50000) f (driver_text olderThan) (l_rows d) 0;
  let d := MkLogDb rows (l_domains d) (l_clients d) (l_hours d) (l_unbound d) in
  match res with
  | Err e => Some (Err e, d)
  | Ok O => Some (Ok tt, d)
  | Ok _ =>
      let cutoff := FormatTimestamp olderThan in
      Some (Ok tt, MkLogDb rows
        (if domains_ok f then filter (fun kv => kv.1 ∈ map r_domain rows) (l_domains d) else l_domains d)
        (if clients_ok f then filter (fun kv => kv.1 ∈ map r_client rows) (l_clients d) else l_clients d)
        (if hours_ok f then filter (fun kv => text_leb cutoff kv.1 = true) (l_hours d) else l_hours d)
        (if unbound_ok f then (delete_batch (Pos.to_nat 50000) (fun t => str_ltb t cutoff) (l_unbound d)).1 else l_unbound d))
  end.

(** [Reset], as far as these tables go: queries and domain_stats are deleted, the
    summaries of the clients and the hours and Unbound's events are not. [ok]: the
    transaction commits. *)
Definition Reset (ok : bool) (d : LogDb) : bool * LogDb :=
  if ok then (true, MkLogDb [] ∅ (l_clients d) (l_hours d) (l_unbound d)) else (false, d).

(** ** Filters, as promised *)

(** A row meets the criteria of a filter that are set. *)
Definition meets {T : TimeText} (f : QueryFilter) (r : QueryRow) : Prop :=
  (f_Domain f <> [] -> Contains (ToLower (r_domain r)) (ToLower (f_Domain f)) = true) /\
  (f_QueryType f <> [] -> ToUpper (r_type r) = ToUpper (f_QueryType f)) /\
  (f_ClientIP f <> [] -> r_client r = f_ClientIP f) /\
  (f_Upstream f <> [] -> exists u, r_upstream r = Some u /\ Contains (ToLower u) (ToLower (f_Upstream f)) = true) /\
  (0 < f_ResponseCode f -> r_code r = f_ResponseCode f) /\
  (forall b, f_Blocked f = Some b -> r_blocked r = b) /\ (forall b, f_Cached f = Some b -> r_cached r = b) /\
  (forall t, f_Start f = Some t -> text_leb (FormatTimestamp t) (r_ts r) = true) /\
  (forall t, f_End f = Some t -> text_leb (r_ts r) (FormatTimestamp t) = true).

Definition plain (t : gostring) : bool := forallb (fun c => negb (wild c)) t.

Lemma plain_lower t : plain t = true -> plain (ToLower t) = true.
Proof.
  unfold plain. intros H. apply forallb_forall. intros c Hc. apply in_map_iff in Hc as (x & <- & Hx).
  rewrite forallb_forall in H. specialize (H x Hx).
  destruct x as [[] [] [] [] [] [] [] []]; vm_compute in *; congruence.
Qed.

Lemma around_contains t s : plain t = true -> like (around t) (ToLower s) = Contains (ToLower s) (ToLower t).
Proof. intros H. unfold around. rewrite like_contains by by apply plain_lower. by rewrite !ToLower_idem. Qed.

Lemma optional_cond (r : QueryRow) (b : bool) (c : Cond) : forallb (holds_cond r) (if b then [] else [c]) = b || holds_cond r c.
Proof. destruct b; cbn; [done|]. by rewrite andb_true_r. Qed.

Lemma text_given (s : gostring) (b : bool) (P : Prop) : (b = true <-> P) -> (bytes_eqb s [] || b = true <-> (s <> [] -> P)).
Proof.
  intros H. rewrite orb_true_iff, bytes_eqb_eq, H. split; [by intros [->|?]|]. intros Hi. destruct (decide (s = [])); [by left|right; by apply Hi].
Qed.

Lemma both_iff (A B A' B' : Prop) : (A <-> A') -> (B <-> B') -> A /\ B <-> A' /\ B'.
Proof. tauto. Qed.

Lemma filter_meets {T : TimeText} f r :
  plain (f_Domain f) = true -> plain (f_Upstream f) = true ->
  forallb (holds_cond r) (conditions f) = true <-> meets f r.
Proof.
  intros Hd Hu. unfold conditions, meets. rewrite !forallb_app, !andb_true_iff, !optional_cond.
  repeat (apply both_iff).
  - apply text_given. cbn [holds_cond]. by rewrite around_contains.
  - apply text_given. cbn [holds_cond]. by rewrite bytes_eqb_eq.
  - apply text_given. cbn [holds_cond]. by rewrite bytes_eqb_eq.
  - apply text_given. cbn [holds_cond]. destruct (r_upstream r) as [u|].
    + rewrite around_contains by done. split; [by exists u|]. intros (x & [= ->] & H). done.
    + split; [done|]. by intros (x & ? & _).
  - destruct (Z.ltb_spec 0 (f_ResponseCode f)); cbn; [|split; [lia|done]]. rewrite andb_true_r, Z.eqb_eq. split; [by intros|by intros H'; apply H'].
  - destruct (f_Blocked f) as [b|]; cbn; [|by split]. rewrite andb_true_r, eqb_true_iff. split; [by intros -> ? [= ->]|]. intros H. by apply H.
  - destruct (f_Cached f) as [b|]; cbn; [|by split]. rewrite andb_true_r, eqb_true_iff. split; [by intros -> ? [= ->]|]. intros H. by apply H.
  - destruct (f_Start f) as [t|]; cbn; [|by split]. rewrite andb_true_r. split; [by intros ? ? [= <-]|]. intros H. by apply H.
  - destruct (f_End f) as [t|]; cbn; [|by split]. rewrite andb_true_r. split; [by intros ? ? [= <-]|]. intros H. by apply H.
Qed.

#[local] Instance newer_trans : Transitive newer.
Proof. intros a b c. unfold newer. intros H1 H2. by etrans. Qed.
#[local] Instance newer_total : Total newer.
Proof. intros a b. unfold newer. destruct (total str_le (r_ts b) (r_ts a)); [by left|by right]. Qed.

Lemma newest_sorted rows : StronglySorted (fun a b => str_le (r_ts b) (r_ts a)) (newest_first rows).
Proof. apply (StronglySorted_merge_sort newer). Qed.

Lemma limit_offset_sub {A} limit offset (l : list A) x : x ∈ limit_offset limit offset l -> x ∈ l.
Proof.
  unfold limit_offset. rewrite !list_elem_of_lookup. destruct (limit <? 0).
  - intros [i Hi]. rewrite lookup_drop in Hi. by eexists.
  - intros [i Hi]. apply lookup_take_Some in Hi as [Hi _]. rewrite lookup_drop in Hi. by eexists.
Qed.

Lemma scan_all rows l : Forall (fun r => decodes r = true) rows -> (forall x, x ∈ l -> x ∈ rows) -> scanQueryLogs l = Some l.
Proof.
  intros H Hs. unfold scanQueryLogs. rewrite (proj2 (forallb_forall _ _)); [done|]. intros x Hx. rewrite Forall_forall in H.
  by apply H, Hs, list_elem_of_In.
Qed.

(** The pages of a filtered read, one after the other, are the rows that pass the
    conditions, each as often as it is stored, in the descending order of the texts of
    their times; with texts that are no patterns, those that meet every criterion. *)
Lemma filtered_pages {T : TimeText} (f : QueryFilter) (rows : list QueryRow) (limit n : nat)
    (Hdec : Forall (fun r => decodes r = true) rows) (Hl : (0 < limit)%nat) (Hn : (length rows <= n * limit)%nat) :
  exists all, mapM (fun k => GetQueriesFiltered f (Z.of_nat limit) (Z.of_nat (k * limit)) rows) (seq 0 n) = Some all /\
    (exists l, concat all = l /\ l ≡ₚ List.filter (fun r => forallb (holds_cond r) (conditions f)) rows /\
       (plain (f_Domain f) = true -> plain (f_Upstream f) = true -> forall r, r ∈ l <-> r ∈ rows /\ meets f r) /\ StronglySorted (fun a b => str_le (r_ts b) (r_ts a)) l).
Proof.
  set (found := List.filter (fun r => forallb (holds_cond r) (conditions f)) rows).
  assert (forall x, x ∈ newest_first found -> x ∈ rows) as Hsub.
  { intros x. unfold newest_first. rewrite merge_sort_Permutation. unfold found. rewrite list_elem_of_In, filter_In, <- list_elem_of_In. tauto. }
  exists (map (fun k => limit_offset (Z.of_nat limit) (Z.of_nat (k * limit)) (newest_first found)) (seq 0 n)). split.
  - apply mapM_Some. apply Forall2_fmap_r, Forall_Forall2_diag, Forall_forall. intros k _. unfold GetQueriesFiltered. fold found.
    apply (scan_all rows); [done|]. intros x Hx. by apply limit_offset_sub, Hsub in Hx.
  - exists (newest_first found). split_and!.
    + apply pages_cover; [done|]. unfold newest_first. rewrite merge_sort_Permutation. unfold found.
      etrans; [apply filter_length_le|done].
    + unfold newest_first. apply merge_sort_Permutation.
    + intros Hd Hu r. unfold newest_first. rewrite merge_sort_Permutation. unfold found.
      rewrite list_elem_of_In, filter_In, <- list_elem_of_In. by rewrite filter_meets.
    + apply newest_sorted.
Qed.

Definition some_row (ts : gostring) (id : Z) (domain : gostring) : QueryRow :=
  MkRow id ts (str "10.0.0.1") domain (str "A") 0 true false (Some (str "1.1.1.1:53")) TraceNull.
Definition no_filter : QueryFilter := MkQueryFilter [] [] [] [] 0 None None None None.

(** ** Groups *)

Lemma elem_filterb {A} (p : A -> bool) l x : x ∈ List.filter p l <-> x ∈ l /\ p x = true.
Proof. by rewrite list_elem_of_In, filter_In, <- list_elem_of_In. Qed.

Lemma group_spec key rows k g :
  (k, g) ∈ group_rows key rows <-> g = List.filter (fun x => bytes_eqb (key x) k) rows /\ g <> [].
Proof.
  revert k g. induction rows as [|r rows IH]; intros k g; cbn.
  { split; [by intros ?%elem_of_nil|]. by intros [-> ?]. }
  rewrite elem_of_cons, elem_filterb, IH. cbn.
  destruct (bytes_eqb (key r) k) eqn:E.
  - apply bytes_eqb_eq in E as ->. rewrite bytes_eqb_refl. split.
    + intros [[= ->]|[_ ?]]; [|done]. done.
    + intros [-> _]. by left.
  - assert (bytes_eqb k (key r) = false) as E'. { apply not_true_iff_false. rewrite bytes_eqb_eq. intros ->. by rewrite bytes_eqb_refl in E. }
    rewrite E'. split; [intros [[= -> ->]|[H _]]; [by rewrite bytes_eqb_refl in E|done]|]. intros H. by right.
Qed.

Lemma group_NoDup key rows : NoDup (map fst (group_rows key rows)).
Proof.
  induction rows as [|r rows IH]; cbn; [constructor|]. constructor.
  - intros H. apply list_elem_of_In, in_map_iff in H as ((k & g) & <- & H). apply filter_In in H as [_ H]. cbn in H. by rewrite bytes_eqb_refl in H.
  - clear -IH. induction (group_rows key rows) as [|kg l IHl]; cbn; [constructor|]. cbn in IH. apply NoDup_cons in IH as [Hn H].
    destruct (negb _); [|by apply IHl]. cbn. constructor; [|by apply IHl]. contradict Hn.
    apply list_elem_of_In, in_map_iff in Hn as (x & <- & Hx). apply filter_In in Hx as [Hx _]. by apply list_elem_of_In, in_map.
Qed.

#[local] Instance larger_trans {A} : Transitive (@larger A).
Proof. intros a b c. unfold larger. lia. Qed.
#[local] Instance larger_total {A} : Total (@larger A).
Proof. intros a b. unfold larger. lia. Qed.

Section top.
Context {T : TimeText}.

(** The rows a statistic on the domains is about. *)
Definition in_window (blocked : bool) (since : Z) (rows : list QueryRow) : list QueryRow :=
  since_rows (FormatTimestamp since) (List.filter (fun r => Bool.eqb (r_blocked r) blocked) rows).

Definition of_domain (domain : gostring) (rows : list QueryRow) : list QueryRow := List.filter (fun r => bytes_eqb (r_domain r) domain) rows.

Lemma take_sorted {A} (R : A -> A -> Prop) n (l : list A) x y :
  StronglySorted R l -> x ∈ take n l -> y ∈ drop n l -> R x y.
Proof.
  intros Hs Hx Hy. rewrite <- (take_drop n l) in Hs. clear -Hs Hx Hy. induction (take n l) as [|z t IH]; [by apply elem_of_nil in Hx|].
  cbn in Hs. apply StronglySorted_inv in Hs as [Hs Hz]. apply elem_of_cons in Hx as [->|Hx]; [|by apply IH].
  rewrite Forall_forall in Hz. apply Hz. set_solver.
Qed.

Lemma StronglySorted_take {A} (R : A -> A -> Prop) n (l : list A) : StronglySorted R l -> StronglySorted R (take n l).
Proof.
  intros H. revert n. induction H as [|x l Hs IH Hf]; intros [|n]; cbn; try constructor; [apply IH|]. by apply Forall_take.
Qed.

Lemma StronglySorted_map {A B} (f : A -> B) (R : A -> A -> Prop) (Q : B -> B -> Prop) l :
  (forall a b, R a b -> Q (f a) (f b)) -> StronglySorted R l -> StronglySorted Q (map f l).
Proof.
  intros Hf. induction 1 as [|x l Hs IH Ha]; cbn; constructor; [done|]. apply Forall_map. eapply Forall_impl; [exact Ha|]. cbn. auto.
Qed.

(** The top of the domains is the top.  The list has at most [limit] domains,
    each once; a domain's count is the number of its rows in the window with the
    status asked for, at least one; the counts do not increase down the list; and a
    domain that is not listed, when the list is not cut short by the number of
    domains, has no more rows than any that is. *)
Theorem top_domains_spec (limit : nat) (blocked : bool) (since week_ago : Z) (rows : list QueryRow) :
  let top := GetTopDomains (Z.of_nat limit) blocked (Some since) week_ago rows in
  let count domain := Z.of_nat (length (of_domain domain (in_window blocked since rows))) in
  (length top <= limit)%nat /\ NoDup (map d_Domain top) /\
  (forall d, d ∈ top -> d_Count d = count (d_Domain d) /\ 0 < d_Count d /\ d_Blocked d = blocked) /\
  StronglySorted (fun a b => d_Count b <= d_Count a) top /\
  (forall domain, domain ∉ map d_Domain top -> 0 < count domain ->
     length top = limit /\ forall d, d ∈ top -> count domain <= d_Count d).
Proof.
  set (groups := group_rows r_domain (in_window blocked since rows)). set (sorted := merge_sort larger groups).
  assert (StronglySorted larger sorted) as Hs by apply (StronglySorted_merge_sort larger).
  assert (sorted ≡ₚ groups) as Hp by apply merge_sort_Permutation.
  assert (NoDup (map fst sorted)) as Hn. { change (NoDup (fst <$> sorted)). rewrite Hp. apply group_NoDup. }
  intros top count. assert (top = map (fun kg => MkDomainStats kg.1 (Z.of_nat (length kg.2)) (min_text kg.2) (max_text kg.2) blocked)
    (take limit sorted)) as ->.
  { unfold top, GetTopDomains, limit_offset. rewrite (proj2 (Z.ltb_ge _ _)) by lia. rewrite Nat2Z.id. cbn [Z.to_nat]. by rewrite drop_0. }
  split_and!.
  - rewrite length_map, length_take. lia.
  - rewrite map_map. cbn. rewrite <- (take_drop limit sorted), map_app in Hn. by apply NoDup_app in Hn as [? _].
  - intros d Hd. apply list_elem_of_In, in_map_iff in Hd as ((k & g) & <- & Hk). cbn. apply list_elem_of_In, elem_of_take in Hk as (i & Hi & _).
    apply list_elem_of_lookup_2 in Hi. rewrite Hp in Hi. apply group_spec in Hi as [-> Hne]. split_and!; [done| |done].
    destruct (List.filter _ _); [done|cbn; lia].
  - eapply StronglySorted_map; [|by apply StronglySorted_take]. unfold larger. cbn. intros. lia.
  - intros domain Hout Hpos. assert ((domain, of_domain domain (in_window blocked since rows)) ∈ sorted) as Hin.
    { rewrite Hp. apply group_spec. split; [done|]. unfold count in Hpos. destruct (of_domain _ _); [cbn in Hpos; lia|done]. }
    rewrite <- (take_drop limit sorted), elem_of_app in Hin. destruct Hin as [Hin|Hin].
    { destruct Hout. rewrite map_map. apply list_elem_of_In, in_map_iff. exists (domain, of_domain domain (in_window blocked since rows)).
      split; [done|]. by apply list_elem_of_In. }
    split.
    + rewrite length_map, length_take. assert (0 < length (drop limit sorted))%nat by (destruct (drop limit sorted); [by apply elem_of_nil in Hin|cbn; lia]).
      rewrite length_drop in *. lia.
    + intros d Hd. apply list_elem_of_In, in_map_iff in Hd as (kg & <- & Hk). apply list_elem_of_In in Hk.
      pose proof (take_sorted larger limit sorted _ _ Hs Hk Hin) as H. unfold larger in H. cbn in *. unfold count. lia.
Qed.

End top.

(** ** The batches of the traces *)

Definition entries (r : QueryRow) : list BlockTraceEntry := match r_trace r with TraceJson es => es | _ => [] end.

(** How many entries of some rows have a text in a field. *)
Definition occurrences (field : BlockTraceEntry -> gostring) (k : gostring) (rows : list QueryRow) : Z :=
  Z.of_nat (length (List.filter (fun t => bytes_eqb (field t) k) (concat (map entries rows)))).

Lemma filterb_length_perm {A} (p : A -> bool) (l k : list A) : l ≡ₚ k -> length (List.filter p l) = length (List.filter p k).
Proof. induction 1 as [|x l k _ IH|x y l|? ? ? _ IH1 _ IH2]; cbn; [done|by destruct (p x); cbn; rewrite IH|by destruct (p x), (p y)|by rewrite IH1]. Qed.

Lemma occurrences_perm field k rows rows' : rows ≡ₚ rows' -> occurrences field k rows = occurrences field k rows'.
Proof.
  intros H. unfold occurrences. f_equal. apply filterb_length_perm. rewrite <- !flat_map_concat_map. by apply Permutation_flat_map.
Qed.

Lemma occurrences_app field k rows rows' : occurrences field k (rows ++ rows') = occurrences field k rows + occurrences field k rows'.
Proof. unfold occurrences. rewrite map_app, concat_app, List.filter_app, length_app. lia. Qed.

Section tally.
Context (get : TraceCounts -> gmap gostring Z) (field : BlockTraceEntry -> gostring).
Context (get_count : forall c t, get (count_trace c t) = bump (field t) (get c)).

Definition tally (c : TraceCounts) (k : gostring) : Z := default 0 (get c !! k).

Lemma tally_bump k c t : k <> [] -> tally (count_trace c t) k = tally c k + (if bytes_eqb (field t) k then 1 else 0).
Proof using get_count.
  intros Hk. unfold tally. rewrite get_count. unfold bump. destruct (bytes_eqb (field t) []) eqn:E.
  - apply bytes_eqb_eq in E. destruct (bytes_eqb (field t) k) eqn:E2; [apply bytes_eqb_eq in E2; congruence|lia].
  - destruct (bytes_eqb (field t) k) eqn:E2.
    + apply bytes_eqb_eq in E2. rewrite E2. by rewrite lookup_insert_eq.
    + rewrite lookup_insert_ne; [lia|]. intros H. by rewrite H, bytes_eqb_refl in E2.
Qed.

Lemma tally_row k c r : k <> [] -> tally (count_row c r) k = tally c k + occurrences field k [r].
Proof using get_count.
  intros Hk. unfold count_row, occurrences. cbn [map concat]. rewrite app_nil_r. unfold entries. destruct (r_trace r) as [| |es]; cbn; [lia|lia|].
  revert c. induction es as [|t es IH]; intros c; cbn; [lia|]. rewrite IH, tally_bump by done. destruct (bytes_eqb (field t) k); cbn; lia.
Qed.

Lemma tally_rows k c rows : k <> [] -> tally (foldl count_row c rows) k = tally c k + occurrences field k rows.
Proof using get_count.
  intros Hk. revert c. induction rows as [|r rows IH]; intros c; [unfold occurrences; cbn; lia|]. cbn [foldl].
  rewrite IH, tally_row by done. rewrite (occurrences_app _ _ [r] rows : occurrences field k (r :: rows) = _). lia.
Qed.

End tally.

#[local] Instance id_le_trans : Transitive id_le.
Proof. intros a b c. unfold id_le. lia. Qed.
#[local] Instance id_le_total : Total id_le.
Proof. intros a b. unfold id_le. lia. Qed.

(** Sorted by distinct ids, what lies beyond the last of the first rows is the rest. *)
Lemma beyond_last (l rest : list QueryRow) x :
  StronglySorted id_le (l ++ x :: rest) -> NoDup (map r_id (l ++ x :: rest)) ->
  List.filter (fun r => r_id x <? r_id r) (l ++ x :: rest) = rest.
Proof.
  induction l as [|y l IH]; cbn; intros Hs Hn.
  - rewrite Z.ltb_irrefl. apply StronglySorted_inv in Hs as [_ Hx]. apply NoDup_cons in Hn as [Hout _].
    apply forallb_filter_id, forallb_forall. intros z Hz. apply Z.ltb_lt. rewrite Forall_forall in Hx.
    assert (r_id x <> r_id z). { contradict Hout. rewrite Hout. by apply list_elem_of_In, in_map. }
    specialize (Hx z (proj2 (list_elem_of_In _ _) Hz)). unfold id_le in Hx. lia.
  - apply StronglySorted_inv in Hs as [Hs Hy]. apply NoDup_cons in Hn as [_ Hn]. rewrite Forall_forall in Hy.
    specialize (Hy x ltac:(set_solver)). unfold id_le in Hy. rewrite (proj2 (Z.ltb_ge _ _)) by done. by apply IH.
Qed.

Lemma filterb_perm {A} (p : A -> bool) (l k : list A) : l ≡ₚ k -> List.filter p l ≡ₚ List.filter p k.
Proof.
  induction 1 as [|x l k _ IH|x y l|? ? ? _ IH1 _ IH2]; cbn; [done|by destruct (p x); [constructor|]| |by etrans].
  destruct (p x), (p y); [constructor|done|done|done].
Qed.

Lemma filterb_narrow {A} (p q : A -> bool) (l : list A) : (forall x, p x = true -> q x = true) -> List.filter p (List.filter q l) = List.filter p l.
Proof.
  intros H. induction l as [|x l IH]; cbn; [done|]. destruct (q x) eqn:E; cbn; [by rewrite IH|]. rewrite IH.
  destruct (p x) eqn:E2; [by rewrite (H x E2) in E|done].
Qed.

Lemma filterb_NoDup {A B} (g : A -> B) (p : A -> bool) l : NoDup (map g l) -> NoDup (map g (List.filter p l)).
Proof.
  induction l as [|x l IH]; cbn; [done|]. intros [Hn H]%NoDup_cons. destruct (p x); cbn; [|by apply IH]. constructor; [|by apply IH].
  contradict Hn. apply list_elem_of_In, in_map_iff in Hn as (y & <- & Hy). apply filter_In in Hy as [Hy _]. by apply list_elem_of_In, in_map.
Qed.

Section batches.
Context (since : gostring) (rows : list QueryRow) (distinct_ids : NoDup (map r_id rows)).

Definition pending (lastID : Z) : list QueryRow := List.filter (fun r => lastID <? r_id r) (traced since rows).

(** A full batch leaves what comes after its last row. *)
Lemma pending_next lastID l x rest :
  merge_sort id_le (pending lastID) = l ++ x :: rest -> pending (r_id x) ≡ₚ rest.
Proof using distinct_ids.
  intros E. assert (StronglySorted id_le (l ++ x :: rest)) as Hs by (rewrite <- E; apply (StronglySorted_merge_sort id_le)).
  assert (pending lastID ≡ₚ l ++ x :: rest) as Hp by (rewrite <- E; symmetry; apply merge_sort_Permutation).
  assert (lastID < r_id x) as Hx.
  { assert (x ∈ pending lastID) as Hin by (rewrite Hp, elem_of_app, elem_of_cons; auto). apply elem_filterb in Hin as [_ Hin]. by apply Z.ltb_lt in Hin. }
  transitivity (List.filter (fun r => r_id x <? r_id r) (pending lastID)).
  { unfold pending. rewrite filterb_narrow; [done|]. intros y Hy. apply Z.ltb_lt in Hy. apply Z.ltb_lt. lia. }
  rewrite (filterb_perm _ _ _ Hp), beyond_last; [done|done|].
  change (NoDup (r_id <$> (l ++ x :: rest))). rewrite <- Hp. unfold pending, traced. by do 2 apply filterb_NoDup.
Qed.

Lemma batches_run batchSize fuel lastID c :
  (0 < batchSize)%nat -> (length (pending lastID) < fuel)%nat ->
  exists c', trace_batches fuel batchSize since rows lastID c = Some c' /\
    forall get field, (forall c t, get (count_trace c t) = bump (field t) (get c)) ->
    forall k, k <> [] -> tally get c' k = tally get c k + occurrences field k (pending lastID).
Proof using distinct_ids.
  intros some. revert lastID c. induction fuel as [|fuel IH]; intros lastID c Hf; [lia|]. cbn [trace_batches].
  unfold trace_batch. fold (pending lastID). set (S := merge_sort id_le (pending lastID)).
  assert (S ≡ₚ pending lastID) as Hp by apply merge_sort_Permutation.
  destruct (Nat.ltb_spec (length (take batchSize S)) batchSize) as [Hlt|Hge].
  - eexists. split; [done|]. intros get field Hg k Hk. rewrite take_ge by (rewrite length_take in Hlt; lia).
    rewrite (tally_rows get field Hg) by done. by rewrite (occurrences_perm _ _ _ _ Hp).
  - destruct (exists_last (l := take batchSize S)) as (l & x & E); [intros E; rewrite E in Hge; cbn in Hge; lia|].
    assert (S = l ++ x :: drop batchSize S) as ES. { rewrite <- (take_drop batchSize S) at 1. by rewrite E, <- app_assoc. }
    rewrite E, map_app. cbn [map]. rewrite last_last.
    pose proof (pending_next lastID l x _ ES) as Hn.
    destruct (IH (r_id x) (foldl count_row c (l ++ [x]))) as (c' & E' & H').
    { rewrite Hn. rewrite length_drop. apply Permutation_length in Hp. rewrite length_take in Hge. lia. }
    exists c'. split; [done|]. intros get field Hg k Hk. rewrite (H' get field Hg k Hk), (tally_rows get field Hg) by done.
    assert (occurrences field k (pending lastID) = occurrences field k (l ++ [x]) + occurrences field k (drop batchSize S)) as ->.
    { rewrite <- (occurrences_perm _ _ _ _ Hp), <- occurrences_app, <- app_assoc. cbn. by rewrite <- ES. }
    rewrite (occurrences_perm _ _ _ _ Hn). lia.
Qed.

End batches.

(** The trace statistics are exact whatever the batches.  Ids are distinct and
    start at 1; the loop ends, and each of the four counters has, for every text that
    is not empty, the number of entries with that text over all the blocked rows of
    the window that have a trace, those whose trace does not decode apart. *)
Theorem trace_statistics_exact {T : TimeText} (since : Z) (rows : list QueryRow)
    (Hids : NoDup (map r_id rows)) (Hpos : Forall (fun r => 0 < r_id r) rows) :
  let window := traced (driver_text since) rows in
  exists c, GetTraceStatistics since rows = Some (Z.of_nat (length window), c) /\
    forall k, k <> [] ->
      default 0 (ByStage c !! k) = occurrences Stage k window /\ default 0 (ByAction c !! k) = occurrences Action k window /\
      default 0 (ByRule c !! k) = occurrences Rule k window /\ default 0 (BySource c !! k) = occurrences Source k window.
Proof.
  intros window. assert (pending (driver_text since) rows 0 = window) as Ew.
  { apply forallb_filter_id, forallb_forall. intros r Hr. apply filter_In in Hr as [Hr _]. rewrite Forall_forall in Hpos.
    by apply Z.ltb_lt, Hpos, list_elem_of_In. }
  destruct (batches_run (driver_text since) rows Hids (Pos.to_nat 1000) (S (length rows)) 0 no_counts) as (c & E & H).
  { lia. }
  { rewrite Ew. apply le_n_S, filter_length_le. }
  exists c. unfold GetTraceStatistics. split; [by rewrite (E : trace_batches _ 1000 _ _ _ _ = _)|].
  rewrite Ew in H. intros k Hk. split_and!; [apply (H ByStage Stage)|apply (H ByAction Action)|apply (H ByRule Rule)|apply (H BySource Source)]; done.
Qed.

Lemma trace_statistics_exact_witness :
  let t := MkTrace (str "blocklist") (str "block") [] (str "hagezi") [] ∅ in
  let r := MkRow 1 (str "1") (str "10.0.0.1") (str "ads.example.com") (str "A") 3 true false None (TraceJson [t; t]) in
  exists c, @GetTraceStatistics flat_text 0 [r] = Some (1, c) /\
    forall k, k <> [] ->
      default 0 (ByStage c !! k) = occurrences Stage k [r] /\ default 0 (ByAction c !! k) = occurrences Action k [r] /\
      default 0 (ByRule c !! k) = occurrences Rule k [r] /\ default 0 (BySource c !! k) = occurrences Source k [r].
Proof.
  intros t r. apply (@trace_statistics_exact flat_text 0 [r]); [repeat constructor; set_solver|repeat constructor].
Defined.

(** ** What is deleted *)

Lemma delete_batch_spec {A} n (p : A -> bool) l :
  let '(l', k) := delete_batch n p l in
  List.filter (fun x => negb (p x)) l' = List.filter (fun x => negb (p x)) l /\ (k <= n)%nat /\ length l = (length l' + k)%nat /\
  ((k < n)%nat -> l' = List.filter (fun x => negb (p x)) l).
Proof.
  revert n. induction l as [|x l IH]; intros n; cbn; [split_and!; [done|lia|done|done]|].
  destruct n as [|n]; [split_and!; [done|lia|cbn; by rewrite Nat.add_0_r|intros; lia]|]. destruct (p x) eqn:E.
  - specialize (IH n). destruct (delete_batch n p l) as [l' k]. destruct IH as (H1 & H2 & H3 & H4). cbn. rewrite ?E. cbn.
    split_and!; [done|lia|lia|intros; apply H4; lia].
  - specialize (IH (S n)). destruct (delete_batch (S n) p l) as [l' k]. destruct IH as (H1 & H2 & H3 & H4). cbn. rewrite E. cbn.
    split_and!; [by rewrite H1|lia|lia|intros; rewrite H4; [done|lia]].
Qed.

Lemma cleanup_loop_spec fuel i batchSize f cutoff rows total :
  (0 < batchSize)%nat -> (length rows < fuel)%nat ->
  let newer r := negb (older cutoff r) in
  exists res rows', cleanup_loop fuel i batchSize f cutoff rows total = Some (res, rows') /\
    List.filter newer rows' = List.filter newer rows /\
    (forall n, res = Ok n -> rows' = List.filter newer rows /\ (n = total + (length rows - length rows'))%nat) /\
    ((forall j, alive f j = true) -> (forall j, delete_ok f j = true) -> exists n, res = Ok n).
Proof.
  intros Hb. revert i rows total. induction fuel as [|fuel IH]; intros i rows total Hf newer; [lia|]. cbn [cleanup_loop].
  destruct (alive f i) eqn:Ea; cbn [negb]; [|exists (Err CtxErr), rows; split_and!; [done|done|done|intros H; by rewrite H in Ea]].
  destruct (delete_ok f i) eqn:Ed; cbn [negb]; [|exists (Err QueryFailed), rows; split_and!; [done|done|done|intros _ H; by rewrite H in Ed]].
  pose proof (delete_batch_spec batchSize (older cutoff) rows) as H. destruct (delete_batch batchSize (older cutoff) rows) as [l' n].
  destruct H as (H1 & H2 & H3 & H4). destruct (Nat.ltb_spec n batchSize).
  - exists (Ok (total + n)%nat), l'. split_and!; [done|by apply H1| |by eexists]. intros ? [= <-]. split; [by apply H4|lia].
  - destruct (IH (S i) l' (total + n)%nat ltac:(lia)) as (res & rows' & E & Hk & Hok & Hfin). exists res, rows'.
    split_and!; [done|by etrans; [apply Hk|apply H1]| |done]. intros m Hm. destruct (Hok m Hm) as [-> ->]. unfold newer. rewrite H1. split; [done|].
    pose proof (filter_length_le (fun r => negb (older cutoff r)) rows). pose proof (filter_length_le (fun r => negb (older cutoff r)) l') as Hl.
    rewrite H1 in Hl. lia.
Qed.

(** Retention.  Trimming the log ends, whatever fails on the way, and never loses
    a row that is not older than the cutoff.  When it succeeds, exactly the older rows
    are gone, and it does succeed when no statement fails and the context lives; if
    there were any, the summaries that survive are those of the domains and clients
    that still have rows (unless their statements fail).  If there were none, nothing
    else is trimmed. *)
Theorem retention_spec {T : TimeText} (f : CleanFaults) (olderThan : Z) (d : LogDb) :
  let newer r := negb (older (driver_text olderThan) r) in
  exists res d', Cleanup f olderThan d = Some (res, d') /\
    List.filter newer (l_rows d') = List.filter newer (l_rows d) /\
    ((forall j, alive f j = true) -> (forall j, delete_ok f j = true) -> res = Ok tt) /\
    (res = Ok tt -> l_rows d' = List.filter newer (l_rows d) /\ (l_rows d' = l_rows d -> d' = d) /\
       (l_rows d' <> l_rows d -> domains_ok f = true -> forall k s,
          l_domains d' !! k = Some s <-> l_domains d !! k = Some s /\ k ∈ map r_domain (l_rows d')) /\
       (l_rows d' <> l_rows d -> clients_ok f = true -> forall k s,
          l_clients d' !! k = Some s <-> l_clients d !! k = Some s /\ k ∈ map r_client (l_rows d'))).
Proof.
  intros newer. unfold Cleanup.
  destruct (cleanup_loop_spec (S (length (l_rows d))) 0 (Pos.to_nat 50000) f (driver_text olderThan) (l_rows d) 0) as (res & rows & E & Hk & Hok & Hfin);
    [lia|lia|].
  rewrite E. cbn [mbind option_bind]. destruct res as [n|e].
  2: { eexists _, _. split; [done|]. cbn. split_and!; [done|intros Ha Hd; by destruct (Hfin Ha Hd)|done]. }
  destruct (Hok n eq_refl) as [Hr Hn]. destruct n as [|n].
  - eexists _, _. split; [done|]. cbn. split_and!; [done|done|]. intros _.
    assert (rows = l_rows d) as Es.
    { rewrite Hr. apply forallb_filter_id, filter_length_forallb. pose proof (filter_length_le (fun r => negb (older (driver_text olderThan) r)) (l_rows d)).
      rewrite Hr in Hn. lia. }
    split_and!; [done|intros _; rewrite Es; by destruct d|(intros Hd; by rewrite Es in Hd)|(intros Hd; by rewrite Es in Hd)].
  - eexists _, _. split; [done|]. cbn. split_and!; [done|done|]. intros _. split_and!; [done| | |].
    + intros Es. rewrite Es in Hn. lia.
    + intros _ -> k s. by rewrite map_lookup_filter_Some.
    + intros _ -> k s. by rewrite map_lookup_filter_Some.
Qed.

(** ** The time series *)

Section series_spec.
Context {T : TimeText} (unix_of : gostring -> Z).

Lemma quot_bucket u b k : 0 < b -> 0 <= u -> (Z.quot u b * b = k * b <-> k * b <= u < (k + 1) * b).
Proof.
  intros Hb Hu. rewrite Z.quot_div_nonneg by lia. pose proof (Z.div_mod u b ltac:(lia)). pose proof (Z.mod_pos_bound u b Hb).
  assert (b * (u / b) = u / b * b) by ring. assert ((k + 1) * b = k * b + b) by ring. split; intros Hk; [lia|].
  f_equal. symmetry. apply (Z.div_unique u b k (u - k * b)); lia.
Qed.

Lemma series_total (b k0 : Z) (rows : list QueryRow) (n : nat) :
  0 < b -> Forall (fun r => 0 <= unix_of (r_ts r)) rows ->
  foldr (fun p t => p_Total p + t) 0 (map (fun i => point_of unix_of b rows (k0 * b + Z.of_nat i * b)) (seq 0 n)) =
  count_rows (fun r => (k0 * b <=? unix_of (r_ts r)) && (unix_of (r_ts r) <? (k0 + Z.of_nat n) * b)) rows.
Proof.
  intros Hb Hr. unfold count_rows. induction n as [|n IH].
  - rewrite filter_none; [done|]. intros x Hx. apply andb_false_iff. destruct (Z.leb_spec (k0 * b) (unix_of (r_ts x))); [right|by left].
    apply Z.ltb_ge. nia.
  - rewrite seq_S, map_app, foldr_app. cbn [foldr map plus].
    assert (forall l z, foldr (fun p t => p_Total p + t) z l = foldr (fun p t => p_Total p + t) 0 l + z) as Hz.
    { clear. induction l as [|p l IH]; intros z; cbn; [lia|]. rewrite IH. lia. }
    rewrite Hz, IH. clear IH Hz. cbn [p_Total point_of].
    induction Hr as [|r rows Hu Hr IH]; cbn; [lia|]. pose proof (quot_bucket _ b (k0 + Z.of_nat n) Hb Hu) as Hq. unfold bucket_of in *.
    destruct (Z.eqb_spec (Z.quot (unix_of (r_ts r)) b * b) (k0 * b + Z.of_nat n * b)) as [E|E];
      destruct (Z.leb_spec (k0 * b) (unix_of (r_ts r))); destruct (Z.ltb_spec (unix_of (r_ts r)) ((k0 + Z.of_nat n) * b));
      destruct (Z.ltb_spec (unix_of (r_ts r)) ((k0 + Z.of_nat (S n)) * b)); cbn [andb length]; try lia; exfalso; nia.
Qed.

(** The time series has the points asked for.  They are [points] consecutive
    buckets, each starting at a multiple of the bucket's length, the last of them the
    one [now] lies in; a point counts the rows of its bucket; and the totals add up to
    the rows of the window, each counted once. *)
Theorem time_series_spec (now b : Z) (points : nat) (start_text : gostring) (rows : list QueryRow)
    (Hb : 0 < b) (Hp : (0 < points)%nat) (Hnow : 0 <= now) (Hr : Forall (fun r => 0 <= unix_of (r_ts r)) rows) :
  let first := (now / b - Z.of_nat points + 1) * b in
  exists ps, GetTimeSeriesStats unix_of now b (Z.of_nat points) start_text rows = Some ps /\
    map p_Timestamp ps = map (fun i => first + Z.of_nat i * b) (seq 0 points) /\
    first + Z.of_nat (points - 1) * b <= now < first + Z.of_nat points * b /\
    Forall (fun p => p_Total p = count_rows (fun r => (p_Timestamp p <=? unix_of (r_ts r)) && (unix_of (r_ts r) <? p_Timestamp p + b)) (since_rows start_text rows) /\
                     p_Blocked p <= p_Total p /\ p_Cached p <= p_Total p) ps /\
    foldr (fun p t => p_Total p + t) 0 ps =
      count_rows (fun r => (first <=? unix_of (r_ts r)) && (unix_of (r_ts r) <? first + Z.of_nat points * b)) (since_rows start_text rows).
Proof.
  intros first. set (rs := since_rows start_text rows).
  assert (Forall (fun r => 0 <= unix_of (r_ts r)) rs) as Hrs.
  { rewrite Forall_forall in Hr |- *. intros x Hx. apply elem_filterb in Hx as [Hx _]. by apply Hr. }
  assert (truncateToBucket now b - b * (Z.of_nat points - 1) = first) as Es.
  { unfold truncateToBucket, first. rewrite (proj2 (Z.leb_gt _ _)) by lia. rewrite Z.quot_div_nonneg by lia. ring. }
  unfold GetTimeSeriesStats. rewrite (proj2 (Z.leb_gt _ _)), (proj2 (Z.leb_gt _ _)) by lia. fold rs. rewrite Es, Nat2Z.id.
  eexists. split; [done|]. split_and!.
  - rewrite map_map. by apply map_ext.
  - unfold first. pose proof (Z.div_mod now b ltac:(lia)). pose proof (Z.mod_pos_bound now b Hb). nia.
  - unfold first. pose proof (Z.div_mod now b ltac:(lia)). pose proof (Z.mod_pos_bound now b Hb). nia.
  - apply Forall_map, Forall_forall. intros i _. cbn [p_Total p_Blocked p_Cached p_Timestamp point_of]. unfold count_rows. split_and!.
    + f_equal. f_equal. apply filter_ext_in. intros r Hin. apply eq_iff_eq_true. unfold bucket_of.
      rewrite andb_true_iff, Z.eqb_eq, Z.leb_le, Z.ltb_lt. rewrite Forall_forall in Hrs.
      pose proof (quot_bucket (unix_of (r_ts r)) b (now / b - Z.of_nat points + 1 + Z.of_nat i) Hb (Hrs r (proj2 (list_elem_of_In _ _) Hin))) as Hq.
      unfold first. replace ((now / b - Z.of_nat points + 1) * b + Z.of_nat i * b) with ((now / b - Z.of_nat points + 1 + Z.of_nat i) * b) by ring.
      rewrite Hq. split; intros; lia.
    + apply inj_le, filter_length_le.
    + apply inj_le, filter_length_le.
  - unfold first. rewrite (series_total b (now / b - Z.of_nat points + 1) rs points) by done. unfold count_rows. f_equal. f_equal. apply filter_ext. intros r. f_equal. f_equal. ring.
Qed.

End series_spec.

Lemma time_series_spec_witness :
  let unix (t : gostring) := 10 * Z.of_nat (length t) in
  let rows := [some_row (str "1") 1 (str "a"); some_row (str "22") 2 (str "b"); some_row (str "333") 3 (str "c"); some_row (str "4444") 4 (str "d")] in
  exists ps, GetTimeSeriesStats unix 45 15 2 [] rows = Some ps /\
    map p_Timestamp ps = [30; 45] /\ 45 <= 45 < 60 /\
    Forall (fun p => p_Total p = count_rows (fun r => (p_Timestamp p <=? unix (r_ts r)) && (unix (r_ts r) <? p_Timestamp p + 15)) (since_rows [] rows) /\
                     p_Blocked p <= p_Total p /\ p_Cached p <= p_Total p) ps /\
    foldr (fun p t => p_Total p + t) 0 ps = count_rows (fun r => (30 <=? unix (r_ts r)) && (unix (r_ts r) <? 60)) (since_rows [] rows).
Proof.
  intros unix rows. apply (time_series_spec unix 45 15 2 [] rows); [lia|lia|lia|]. repeat constructor; vm_compute; congruence.
Defined.

(** ** What the code does not promise *)

(** The filter on traces finds nothing: its statement reads fourteen columns into
    twelve variables, and the rows that do not scan are skipped. *)
Lemma trace_filter_empty f limit offset rows : GetQueriesWithTraceFilter f limit offset rows = [].
Proof.
  unfold GetQueriesWithTraceFilter. change (scan_fits stmt_trace_filter) with false.
  induction (limit_offset 10000 0 _) as [|r l IH]; [done|]. exact IH.
Qed.

(** With no queries in the window the statistics are an error. *)
Lemma statistics_of_nothing {T : TimeText} ok since : GetStatistics ok since ∅ [] = None.
Proof. unfold GetStatistics, hours_since. rewrite map_to_list_empty. cbn. by destruct ok. Qed.

(** After [Reset] the summaries by hour are still there, and answer for the deleted rows. *)
Lemma reset_keeps_hours {T : TimeText} ok since d st :
  sum_hours h_total (hours_since (FormatTimestamp since) (l_hours d)) <> 0 ->
  GetStatistics true since (l_hours d) (l_rows d) = Some st ->
  let d' := (Reset ok d).2 in GetStatistics true since (l_hours d') (l_rows d') = Some st.
Proof.
  intros Hn. assert (l_hours (Reset ok d).2 = l_hours d) as E by by destruct ok. cbn. rewrite E. unfold GetStatistics.
  by rewrite (proj2 (Z.eqb_neq _ _)) by done.
Qed.

(** [HasFilters] does not see a filter on the client, the upstream or the code. *)
Lemma has_filters_partial : HasFilters (MkQueryFilter [] [] (str "10.0.0.1") (str "1.1.1.1") 3 None None None None) = false.
Proof. done. Qed.
