(* ===== verification/Import.v ===== *)
(** * The Pi-hole importer (cmd/glory-hole/import.go)

    Unpacking a Teleporter archive, reading gravity.db, custom.list and
    pihole.toml, and the configuration built from them.  The tables of an SQLite
    file are what the class [Gravity] says of its content; paths are cleaned as
    package path/filepath documents it. *)

From Stdlib Require Import Ascii.
From S2P Require Import Prelude GoStrings GoStrconv GoNet Pattern Policy Config GoTime ConfigUpdate PolicyApi Startup.
From stdpp Require Import sorting options.
Local Open Scope Z_scope.

(** ** Paths *)

Definition slash : ascii := "/"%char.

(** The elements of a cleaned path ([Clean] is in GoTime.v). *)
Definition clean_elems (rooted : bool) (path : gostring) : list gostring :=
  rev (foldl (clean_step rooted) [] (SplitByte path slash)).

(** [filepath.Join] of two elements, the first of them not empty *)
Definition JoinPath (dir name : gostring) : gostring :=
  match name with [] => Clean dir | _ => Clean (dir ++ slash :: name) end.

(** [filepath.Base] *)
Fixpoint strip_slashes (rev : gostring) : gostring :=
  match rev with c :: rest => if bool_decide (c = slash) then strip_slashes rest else rev | [] => [] end.
Definition Base (path : gostring) : gostring :=
  match path with
  | [] => str "."
  | _ =>
      let p := reverse (strip_slashes (reverse path)) in
      match p with
      | [] => [slash]
      | _ => match LastIndexByte p slash with Some i => drop (S i) p | None => p end
      end
  end.

(** ** The archive *)

(** What goes wrong with an entry: its file or directory is not created, or copying
    stops after [part]. *)
Inductive ZipFault := NotCreated | CopyStops (part : gostring).

(** An entry of the archive. *)
Record ZipFile := MkZip { z_name : gostring; z_dir : bool; z_content : gostring; z_fault : option ZipFault }.

Inductive ImportErr :=
| InvalidPath | IoError | TooLarge | NoGravityInZip | BadZip | NoGravity | GravityNotFound | BlocklistsFailed | ListsFailed
| Invalid (e : ConfigErr).

Definition Files : Type := gmap gostring gostring.
Definition maxSize : Z := 500 * 1024 * 1024.

Definition inside (clean_path dest : gostring) : bool :=
  HasPrefix clean_path (Clean dest ++ [slash]) || bytes_eqb clean_path (Clean dest).

(** [extractFile]: the outcome, and the files there are then; directories are not
    tracked. *)
Definition extractFile (f : ZipFile) (dest : gostring) (fs : Files) : result ImportErr unit * Files :=
  let cleanPath := Clean (JoinPath dest (z_name f)) in
  if negb (inside cleanPath dest) then (Err InvalidPath, fs)
  else match z_fault f, z_dir f with
       | Some NotCreated, _ | Some (CopyStops _), true => (Err IoError, fs)
       | Some (CopyStops part), false => (Err IoError, <[cleanPath := part]> fs)
       | None, true => (Ok tt, fs)
       | None, false =>
           let fs := <[cleanPath := take (Z.to_nat maxSize) (z_content f)]> fs in
           if maxSize <? Z.of_nat (length (z_content f)) then (Err TooLarge, fs) else (Ok tt, fs)
       end.

Record PiholeImporter := MkImporter {
  zipPath : gostring; gravityDB : gostring; piholeConfig : gostring; customList : gostring; output : gostring;
  dryRun : bool; validate : bool }.

Definition NewPiholeImporter : PiholeImporter := MkImporter [] [] [] [] [] false true.

Definition set_paths (g c l : gostring) (i : PiholeImporter) : PiholeImporter :=
  MkImporter (zipPath i) g c l (output i) (dryRun i) (validate i).

(** The switch on the base name. *)
Definition detect (baseName path : gostring) (i : PiholeImporter) : PiholeImporter :=
  if Contains baseName (str "gravity.db") then set_paths path (piholeConfig i) (customList i) i
  else if Contains baseName (str "pihole.toml") then set_paths (gravityDB i) path (customList i) i
  else if Contains baseName (str "custom.list") then set_paths (gravityDB i) (piholeConfig i) path i
  else i.

Fixpoint extract_all (zs : list ZipFile) (tempDir : gostring) (i : PiholeImporter) (fs : Files) :
    result ImportErr unit * PiholeImporter * Files :=
  match zs with
  | [] => (Ok tt, i, fs)
  | f :: rest =>
      match extractFile f tempDir fs with
      | (Err e, fs) => (Err e, i, fs)
      | (Ok _, fs) =>
          let cleanedPath := Clean (JoinPath tempDir (z_name f)) in
          let i := if negb (inside cleanedPath tempDir) then i else detect (Base (z_name f)) cleanedPath i in
          extract_all rest tempDir i fs
      end
  end.

(** [extractZip]; [zip]: the entries, [None] when the archive does not open. *)
Definition extractZip (tempDir : gostring) (zip : option (list ZipFile)) (i : PiholeImporter) (fs : Files) :
    result ImportErr unit * PiholeImporter * Files :=
  match zip with
  | None => (Err BadZip, i, fs)
  | Some zs =>
      match extract_all zs tempDir i fs with
      | (Ok _, i, fs) => (if bytes_eqb (gravityDB i) [] then Err NoGravityInZip else Ok tt, i, fs)
      | r => r
      end
  end.

(** ** Domains *)

(** [domainEntryToLogicAndName] *)
Definition domainEntryToLogicAndName (entry verb : gostring) : gostring * gostring :=
  if HasPrefix entry star_dot then
    let baseDomain := TrimPrefix entry star_dot in
    (str "Domain == " ++ Quote baseDomain ++ str " || DomainEndsWith(Domain, " ++ Quote (dot :: baseDomain) ++ str ")",
     verb ++ str " *." ++ baseDomain ++ str " (imported)")
  else if regex_like entry then
    (str "DomainMatches(Domain, " ++ Quote entry ++ str ")", verb ++ str " pattern " ++ entry ++ str " (imported)")
  else (str "Domain == " ++ Quote entry, verb ++ str " " ++ entry ++ str " (imported)").

Definition list_rule (verb action : gostring) (entry : gostring) : PolicyRuleEntry :=
  let '(logic, name) := domainEntryToLogicAndName entry verb in MkPolicyRuleEntry name logic action [] true.

Definition piholeDomainListsToPolicyRules (whitelist blacklist : list gostring) : list PolicyRuleEntry :=
  map (list_rule (str "Allow") ActionAllow) whitelist ++ map (list_rule (str "Block") ActionBlock) blacklist.

(** ** gravity.db *)

Record AdRow := MkAd { ad_id : Z; ad_address : gostring; ad_enabled : Z }.
Record DomainRow := MkDomain { dl_id : Z; dl_type : Z; dl_domain : gostring; dl_enabled : Z }.

(** The two tables of a database file; [None]: the query fails. *)
Class Gravity := { adlist : gostring -> option (list AdRow); domainlist : gostring -> option (list DomainRow) }.

Definition ad_le (a b : AdRow) : Prop := ad_id a <= ad_id b.
#[global] Instance ad_le_dec : RelDecision ad_le.
Proof. intros a b. unfold ad_le. apply _. Defined.
Definition dl_le (a b : DomainRow) : Prop := dl_id a <= dl_id b.
#[global] Instance dl_le_dec : RelDecision dl_le.
Proof. intros a b. unfold dl_le. apply _. Defined.

Definition enabled_ads (rows : list AdRow) : list gostring :=
  map ad_address (merge_sort ad_le (List.filter (fun r => ad_enabled r =? 1) rows)).

(** The loop of [importDomainLists]: exact entries and regexps go to the same list. *)
Definition domain_step (acc : list gostring * list gostring) (r : DomainRow) : list gostring * list gostring :=
  if (dl_type r =? 0) || (dl_type r =? 2) then (acc.1 ++ [dl_domain r], acc.2)
  else if (dl_type r =? 1) || (dl_type r =? 3) then (acc.1, acc.2 ++ [dl_domain r])
  else acc.

Definition enabled_lists (rows : list DomainRow) : list gostring * list gostring :=
  foldl domain_step ([], []) (merge_sort dl_le (List.filter (fun r => dl_enabled r =? 1) rows)).

Definition importBlocklists {G : Gravity} (db : gostring) : option (list gostring) := enabled_ads <$> adlist db.
Definition importDomainLists {G : Gravity} (db : gostring) : option (list gostring * list gostring) := enabled_lists <$> domainlist db.

(** ** custom.list *)

Definition newline : ascii := chr 10.

Definition hosts_line (line : gostring) : option LocalRecordEntry :=
  let line := TrimSpace line in
  if bytes_eqb line [] || HasPrefix line (str "#") then None
  else match Fields line with
       | ip :: domain :: _ => Some (MkLocalRecordEntry None None None None None None None None None [] [] [] [] [] (str "A") domain [] [ip] 300 false)
       | _ => None
       end.

Definition importLocalDNS (data : gostring) : list LocalRecordEntry := omap hosts_line (SplitByte data newline).

(** ** pihole.toml *)

(** [strings.Trim] with a set of bytes *)
Fixpoint trim_set (p : ascii -> bool) (s : gostring) : gostring :=
  match s with c :: rest => if p c then trim_set p rest else s | [] => [] end.
Definition Trim (s : gostring) (cutset : gostring) : gostring :=
  let p c := bool_decide (c ∈ cutset) in reverse (trim_set p (reverse (trim_set p s))).

Definition quotes : gostring := [chr 34; chr 39].
Definition blanks : gostring := [" "%char; chr 9; ","%char].
Definition add_port (u : gostring) : gostring := if Contains u (str ":") then u else u ++ str ":53".

Definition inline_upstream (u : gostring) : option gostring :=
  let u := Trim (TrimSpace u) quotes in if bytes_eqb u [] then None else Some (add_port u).

(** The state of the loop: in the section, in an array, and what was found. *)
Record Toml := MkToml { inDNS : bool; inArray : bool; found : list gostring }.

(** One line; [None]: the slice expression panics. *)
Definition toml_line (t : Toml) (line : gostring) : option Toml :=
  let line := TrimSpace line in
  if HasPrefix line (str "[dns]") then Some (MkToml true (inArray t) (found t))
  else if HasPrefix line (str "[") && negb (HasPrefix line (str "[dns")) then Some (MkToml false false (found t))
  else if negb (inDNS t) then Some t
  else if Contains line (str "upstreams") && Contains line (str "[") then
    match Index line (str "["), Index line (str "]") with
    | Some start, Some end_ =>
        if (S start <=? end_)%nat
        then Some (MkToml true false (found t ++ omap inline_upstream (SplitByte (take (end_ - S start) (drop (S start) line)) ","%char)))
        else None
    | _, _ => Some (MkToml true true (found t))
    end
  else if inArray t then
    if Contains line (str "]") then Some (MkToml true false (found t))
    else
      let line := Trim (Trim line blanks) quotes in
      if negb (bytes_eqb line []) && negb (HasPrefix line (str "#"))
      then Some (MkToml true true (found t ++ [add_port line])) else Some t
  else Some t.

Fixpoint toml_lines (t : Toml) (lines : list gostring) : option Toml :=
  match lines with
  | [] => Some t
  | l :: rest => t ← toml_line t l; toml_lines t rest
  end.

Definition importUpstreams (data : gostring) : option (list gostring) :=
  found <$> toml_lines (MkToml false false []) (SplitByte data newline).

(** ** The configuration *)

Definition import_seconds (n : Z) : Z := n * 1000000000.

(** The literal of [Import]; the fields it leaves out are zero. *)
Definition import_config (blocklists upstreams : list gostring) : Config :=
  let z := zero_Config in
  let s := Server z in
  MkConfig (Telemetry z)
    (MkServerConfig (str ":53") [] [] (str ":8080") true true true true (DecisionTrace s) (CORSAllowedOrigins s) (DotEnabled s)
       (DotAddress s) (AllowedClients s) (ProxyProtocol s) (TLS s) (QueryLogger s) (TrustedProxies s))
    (Config.Policy z) (Auth z) (LocalRecords z) (ConditionalForwarding z) (Forwarder z) upstreams blocklists (Whitelist z)
    (MkLoggingConfig (str "info") (str "text") (str "stdout") [] false 0 0 0)
    (MkDatabaseConfig (str "sqlite") (MkSQLiteConfig (str "./glory-hole.db") 5000 true 0 0) (Statistics (Database z)) 0 0 0 91 true)
    (MkCacheConfig true 10000 (import_seconds 60) (import_seconds (24 * 3600)) (import_seconds 300) 0 0)
    (BlockPage z) (Unbound z) (import_seconds (24 * 3600)) true.

Definition with_records (rs : list LocalRecordEntry) (c : Config) : Config :=
  MkConfig (Telemetry c) (Server c) (Config.Policy c) (Auth c) (MkLocalRecordsConfig rs true) (ConditionalForwarding c) (Forwarder c)
    (UpstreamDNSServers c) (Blocklists c) (Whitelist c) (Logging c) (Database c) (Cache c) (BlockPage c) (Unbound c) (UpdateInterval c)
    (AutoUpdateBlocklists c).

Definition default_imports : list gostring := [str "1.1.1.1:53"; str "8.8.8.8:53"].

Section import.
Context {B : BcryptLib} {G : Gravity}.

(** Steps 1 to 4 and the rest of [Import], once the paths are known; [None]: the
    parser of pihole.toml panics. *)
Definition import_files (i : PiholeImporter) (fs : Files) : option (result ImportErr Config) :=
  if bytes_eqb (gravityDB i) [] then Some (Err NoGravity)
  else match fs !! gravityDB i with
  | None => Some (Err GravityNotFound)
  | Some db =>
      match importBlocklists db with
      | None => Some (Err BlocklistsFailed)
      | Some blocklists =>
          match importDomainLists db with
          | None => Some (Err ListsFailed)
          | Some (whitelist, blacklist) =>
              let policyRules := piholeDomainListsToPolicyRules whitelist blacklist in
              let localRecords := if bytes_eqb (customList i) [] then [] else from_option importLocalDNS [] (fs !! customList i) in
              ups ← (if bytes_eqb (piholeConfig i) [] then Some default_imports
                     else match fs !! piholeConfig i with None => Some [] | Some data => importUpstreams data end);
              let cfg := import_config blocklists ups in
              let cfg := if no_items localRecords then cfg else with_records localRecords cfg in
              let cfg := if no_items policyRules then cfg else with_policy (MkPolicyConfig (po_Rules (Config.Policy cfg) ++ policyRules) true) cfg in
              Some (if validate i then match Validate cfg with (Err e, _) => Err (Invalid e) | (Ok _, cfg) => Ok cfg end else Ok cfg)
          end
      end
  end.

(** [Import]: the result and the files that are left.  [cleanup] removes what was
    unpacked, but only once the archive has been unpacked. *)
Definition Import (i : PiholeImporter) (tempDir : gostring) (zip : option (list ZipFile)) (fs : Files) :
    option (result ImportErr Config) * Files :=
  match zipPath i with
  | [] => (import_files i fs, fs)
  | _ =>
      match extractZip tempDir zip i fs with
      | (Err e, _, fs') => (Some (Err e), fs')
      | (Ok _, i, fs') => (import_files i fs', filter (fun kv => inside kv.1 tempDir = false) fs')
      end
  end.

(** [runImportPihole]: the guard on the flags, then [Import]. *)
Definition runImportPihole (i : PiholeImporter) (tempDir : gostring) (zip : option (list ZipFile)) (fs : Files) :
    option (result ImportErr Config) * Files :=
  if bytes_eqb (zipPath i) [] && bytes_eqb (gravityDB i) [] then (Some (Err NoGravity), fs) else Import i tempDir zip fs.

End import.

(** [formatNumber] *)
Fixpoint group_digits (n : nat) (s : gostring) : gostring :=
  match s with
  | [] => []
  | c :: rest => (if (0 <? n)%nat && (length s mod 3 =? 0)%nat then [","%char] else []) ++ c :: group_digits (S n) rest
  end.
Definition formatNumber (n : Z) : gostring :=
  let s := Itoa n in if (length s <=? 3)%nat then s else group_digits 0 s.

(** [WriteConfig]: the file, when one is written, and whether it succeeds. *)
Definition WriteConfig {Y : YamlLib} (i : PiholeImporter) (date : gostring) (cfg : Config) (write_ok : bool) : bool * option gostring :=
  if dryRun i then (true, None)
  else match yaml_Marshal cfg with
  | None => (false, None)
  | Some data =>
      let nl := [newline] in
      let source := if bytes_eqb (zipPath i) [] then gravityDB i else Base (zipPath i) in
      let out := str "# Glory-Hole Configuration" ++ nl ++ str "# Imported from Pi-hole" ++ nl ++ str "# Import date: " ++ date ++ nl ++ nl ++
                 str "# Import source: " ++ source ++ nl ++ nl ++ data in
      if bytes_eqb (output i) [] || bytes_eqb (output i) (str "-") then (true, None)
      else if write_ok then (true, Some out) else (false, None)
  end.

(** ** Where the archive is unpacked *)

Definition normal (e : gostring) : Prop := e <> [] /\ e <> str "." /\ e <> str ".." /\ slash ∉ e.

(** A path of the directory or under it, in normal form: no element of it leads out. *)
Definition below (path dir : gostring) : Prop :=
  exists es, Forall normal es /\ path = slash :: GoStrings.Join (clean_elems true dir ++ es) [slash].

Lemma SplitByte_elems s c e : e ∈ SplitByte s c -> c ∉ e.
Proof.
  revert e. induction s as [|d s IH]; intros e; cbn [SplitByte].
  - rewrite list_elem_of_singleton. intros ->. apply not_elem_of_nil.
  - case_bool_decide as Hd.
    + rewrite elem_of_cons. intros [->|H]; [apply not_elem_of_nil|by apply IH].
    + destruct (SplitByte s c) as [|x l].
      * rewrite list_elem_of_singleton. intros ->. rewrite list_elem_of_singleton. congruence.
      * rewrite elem_of_cons. intros [->|H]; [|apply IH; set_solver]. rewrite elem_of_cons. intros [->|H]; [done|].
        revert H. apply IH. set_solver.
Qed.

Lemma clean_step_normal stack e : Forall normal stack -> slash ∉ e -> Forall normal (clean_step true stack e).
Proof.
  intros Hs He. unfold clean_step. destruct (bytes_eqb e [] || bytes_eqb e (str ".")) eqn:E1; [done|].
  destruct (bytes_eqb e (str "..")) eqn:E2.
  - destruct stack as [|top rest]; [done|]. apply Forall_cons in Hs as [Ht Hr].
    destruct (bytes_eqb top (str "..")) eqn:E3; [|done]. apply bytes_eqb_eq in E3. by destruct Ht as (_ & _ & ? & _).
  - apply orb_false_iff in E1 as [Ea Eb]. constructor; [|done].
    split_and!; [intros -> | intros -> | intros -> | done]; by rewrite bytes_eqb_refl in *.
Qed.

Lemma clean_elems_normal path : Forall normal (clean_elems true path).
Proof.
  unfold clean_elems. apply List.Forall_rev. assert (Forall (fun e => slash ∉ e) (SplitByte path slash)) as H.
  { apply Forall_forall. intros e. apply SplitByte_elems. }
  assert (Forall normal []) as H0 by constructor. revert H H0. generalize (@nil gostring) as stack. intros stack.
  revert stack. induction (SplitByte path slash) as [|e es IH]; intros stack He Hs; cbn; [done|].
  apply Forall_cons in He as [He Hes]. by apply IH, clean_step_normal.
Qed.

Lemma Clean_rooted path : HasPrefix path [slash] = true -> Clean path = slash :: GoStrings.Join (clean_elems true path) [slash].
Proof. intros H. unfold Clean. change (HasPrefix path (str "/")) with (HasPrefix path [slash]). by rewrite H. Qed.

Lemma normal_no_slash es : Forall normal es -> Forall (fun e => slash ∉ e) es.
Proof. intros H. eapply Forall_impl; [exact H|]. by intros e (_ & _ & _ & He). Qed.

Lemma Join_first es : Forall normal es -> HasPrefix (GoStrings.Join es [slash]) [slash] = false.
Proof.
  intros H. destruct es as [|e es]; [done|]. apply Forall_cons in H as [(Hn & _ & _ & Hs) _]. destruct e as [|c e]; [done|].
  destruct (HasPrefix _ _) eqn:E; [|done]. apply HasPrefix_spec in E as [k E]. exfalso. apply Hs. destruct es; cbn in E; injection E as -> _; set_solver.
Qed.

(** The check on the cleaned path is the real thing. *)
Lemma inside_below q dest : HasPrefix dest [slash] = true -> HasPrefix q [slash] = true -> inside (Clean q) dest = true -> below (Clean q) dest.
Proof.
  intros Hd Hq H. rewrite (Clean_rooted q Hq) in *. unfold inside in H. rewrite (Clean_rooted dest Hd) in H.
  pose proof (clean_elems_normal q) as HE. pose proof (clean_elems_normal dest) as HD. unfold below.
  set (E := clean_elems true q) in *. set (D := clean_elems true dest) in *. apply orb_true_iff in H as [H|H].
  - apply HasPrefix_spec in H as [k H]. cbn in H. injection H as H. destruct (decide (D = [])) as [ED|ED].
    { rewrite ED in H. cbn in H. pose proof (Join_first E HE) as Hf. rewrite H in Hf. pose proof (HasPrefix_app [slash] k : HasPrefix (slash :: k) [slash] = true). congruence. }
    assert (E <> []) as EE. { intros EE. rewrite EE in H. cbn in H. by destruct (GoStrings.Join D [slash]). }
    apply (f_equal (fun s => SplitByte s slash)) in H. rewrite (SplitByte_Join_elems E) in H by (done || by apply normal_no_slash).
    rewrite <- app_assoc in H. cbn [app] in H. rewrite SplitByte_Join_more in H by (done || by apply normal_no_slash).
    exists (SplitByte k slash). rewrite H in HE. apply Forall_app in HE as [_ HE]. split; [done|]. by rewrite H.
  - apply bytes_eqb_eq in H. exists []. split; [constructor|]. by rewrite app_nil_r.
Qed.

Lemma JoinPath_rooted dir name : HasPrefix dir [slash] = true -> HasPrefix (JoinPath dir name) [slash] = true.
Proof.
  intros H. assert (HasPrefix (dir ++ slash :: name) [slash] = true) as H'.
  { apply HasPrefix_spec in H as [k ->]. apply HasPrefix_spec. exists (k ++ slash :: name). by rewrite <- app_assoc. }
  unfold JoinPath. destruct name; [rewrite (Clean_rooted dir H)|rewrite (Clean_rooted _ H')]; apply HasPrefix_spec; by eexists.
Qed.

Lemma extractFile_below f dest fs :
  HasPrefix dest [slash] = true ->
  let '(res, fs') := extractFile f dest fs in
  (forall path content, fs' !! path = Some content -> fs !! path = Some content \/ below path dest) /\
  (res = Ok tt -> inside (Clean (JoinPath dest (z_name f))) dest = true).
Proof.
  intros Hd. unfold extractFile. destruct (inside _ _) eqn:Hi; cbn [negb]; [|split; [by left|done]].
  assert (forall new path content, <[Clean (JoinPath dest (z_name f)):=new]> fs !! path = Some content ->
    fs !! path = Some content \/ below path dest) as H.
  { intros new path content Hl. apply lookup_insert_Some in Hl as [[<- _]|[_ Hl]]; [|by left]. right.
    by apply inside_below; [|apply JoinPath_rooted|]. }
  destruct (z_fault f) as [[]|], (z_dir f); try (split; [by left|done]); try (split; [apply H|done]).
  destruct (_ <? _); (split; [apply H|done]).
Qed.

Definition known (dest old path : gostring) : Prop := path = old \/ below path dest.

Lemma detect_known b p dest i0 i :
  below p dest -> known dest (gravityDB i0) (gravityDB i) -> known dest (piholeConfig i0) (piholeConfig i) -> known dest (customList i0) (customList i) ->
  let i' := detect b p i in
  known dest (gravityDB i0) (gravityDB i') /\ known dest (piholeConfig i0) (piholeConfig i') /\ known dest (customList i0) (customList i').
Proof. intros Hp H1 H2 H3. unfold detect. repeat case_match; split_and!; try done; by right. Qed.

(** An archive is unpacked into its directory and nowhere else.  Whatever the
    names of its entries, every file that is created or changed lies in the temporary
    directory: its path is that of the directory followed by elements none of which is
    empty, a dot or two dots, or contains a slash.  The files the import goes on to read
    are those named on the command line or such files. *)
Theorem zip_stays_inside (tempDir : gostring) (zip : option (list ZipFile)) (i : PiholeImporter) (fs : Files)
    (Habs : HasPrefix tempDir [slash] = true) :
  let '(res, i', fs') := extractZip tempDir zip i fs in
  (forall path content, fs' !! path = Some content -> fs !! path = Some content \/ below path tempDir) /\
  known tempDir (gravityDB i) (gravityDB i') /\ known tempDir (piholeConfig i) (piholeConfig i') /\ known tempDir (customList i) (customList i').
Proof.
  assert (forall zs j g, known tempDir (gravityDB i) (gravityDB j) -> known tempDir (piholeConfig i) (piholeConfig j) ->
    known tempDir (customList i) (customList j) ->
    (forall path content, g !! path = Some content -> fs !! path = Some content \/ below path tempDir) ->
    let '(res, i', fs') := extract_all zs tempDir j g in
    (forall path content, fs' !! path = Some content -> fs !! path = Some content \/ below path tempDir) /\
    known tempDir (gravityDB i) (gravityDB i') /\ known tempDir (piholeConfig i) (piholeConfig i') /\ known tempDir (customList i) (customList i')) as Hall.
  { induction zs as [|f zs IH]; intros j g H1 H2 H3 Hg; cbn; [done|]. pose proof (extractFile_below f tempDir g Habs) as Hx.
    destruct (extractFile f tempDir g) as [[[]|e] g'].
    - destruct Hx as [Hx Hok]. specialize (Hok eq_refl) as Hi. rewrite Hi. cbn [negb].
      destruct (detect_known (Base (z_name f)) (Clean (JoinPath tempDir (z_name f))) tempDir i j) as (K1 & K2 & K3); [|done..|].
      { by apply inside_below; [|apply JoinPath_rooted|]. }
      apply IH; try done. intros path content Hl. apply Hx in Hl as [Hl|Hl]; [by apply Hg in Hl|by right].
    - destruct Hx as [Hx _]. split_and!; [|done..]. intros path content Hl. apply Hx in Hl as [Hl|Hl]; [by apply Hg in Hl|by right]. }
  unfold extractZip. destruct zip as [zs|]; [|split_and!; [by left|by left..]].
  specialize (Hall zs i fs (or_introl eq_refl) (or_introl eq_refl) (or_introl eq_refl) (fun _ _ H => or_introl H)).
  by destruct (extract_all zs tempDir i fs) as [[[[]|e] i'] fs'].
Qed.

Lemma zip_stays_inside_witness :
  let z name := MkZip (str name) false (str "x") None in
  let '(res, i', fs') := extractZip (str "/tmp/pihole-import-1") (Some [z "etc/pihole/gravity.db"; z "../../etc/passwd"]) NewPiholeImporter ∅ in
  (forall path content, fs' !! path = Some content -> (∅ : Files) !! path = Some content \/ below path (str "/tmp/pihole-import-1")) /\
  known (str "/tmp/pihole-import-1") [] (gravityDB i') /\ known (str "/tmp/pihole-import-1") [] (piholeConfig i') /\
  known (str "/tmp/pihole-import-1") [] (customList i').
Proof.
  intros z. apply (zip_stays_inside (str "/tmp/pihole-import-1") (Some [z "etc/pihole/gravity.db"%string; z "../../etc/passwd"%string]) NewPiholeImporter ∅). done.
Defined.

(** ** The two ways to write the upstreams *)

Lemma trim_set_app p a s : forallb p a = true -> trim_set p (a ++ s) = trim_set p s.
Proof. induction a as [|c a IH]; cbn; [done|]. intros H. apply andb_true_iff in H as [-> H]. by apply IH. Qed.

(** A text that neither begins nor ends with bytes of the set. *)
Definition core (p : ascii -> bool) (s : gostring) : bool :=
  match s with [] => false | c :: _ => negb (p c) end && match reverse s with [] => false | c :: _ => negb (p c) end.

Lemma trim_set_core p s k : core p s = true -> trim_set p (s ++ k) = s ++ k.
Proof. unfold core. destruct s as [|c s]; cbn; [done|]. intros H. apply andb_true_iff in H as [H _]. by destruct (p c). Qed.

Lemma core_reverse p s : core p s = true -> core p (reverse s) = true.
Proof. unfold core. rewrite reverse_involutive, andb_comm. done. Qed.

Lemma trim_core p a s b :
  forallb p a = true -> forallb p b = true -> core p s = true ->
  reverse (trim_set p (reverse (trim_set p (a ++ s ++ b)))) = s.
Proof.
  intros Ha Hb Hs. rewrite trim_set_app, trim_set_core by done. rewrite reverse_app.
  assert (forallb p (reverse b) = true) as Hb'.
  { apply forallb_forall. intros x Hx. rewrite forallb_forall in Hb. apply Hb. apply list_elem_of_In. by rewrite <- elem_of_reverse, list_elem_of_In. }
  rewrite trim_set_app by done. pose proof (trim_set_core p (reverse s) [] (core_reverse _ _ Hs)) as H. rewrite app_nil_r in H.
  by rewrite H, reverse_involutive.
Qed.

Lemma trim_left_set s : trim_left s = trim_set is_space_byte s.
Proof. induction s as [|c s IH]; cbn; [done|]. by rewrite IH. Qed.

Lemma TrimSpace_core a s b :
  forallb is_space_byte a = true -> forallb is_space_byte b = true -> core is_space_byte s = true -> TrimSpace (a ++ s ++ b) = s.
Proof. intros Ha Hb Hs. unfold TrimSpace. rewrite !trim_left_set. by apply trim_core. Qed.

(** The bytes of addresses and names of servers. *)
Definition server_byte (c : ascii) : bool := host_byte c || (code c =? 58).
Definition server_text (u : gostring) : bool := negb (bytes_eqb u []) && forallb server_byte u.

Lemma server_core (p : ascii -> bool) u : (forall c, server_byte c = true -> p c = false) -> server_text u = true -> core p u = true.
Proof.
  intros Hp Hu. apply andb_true_iff in Hu as [Hn Hb]. rewrite forallb_forall in Hb. unfold core.
  assert (forall c l, (forall x, x ∈ c :: l -> x ∈ u) -> negb (p c) = true) as H.
  { intros c l Hin. rewrite (Hp c); [done|]. apply Hb, list_elem_of_In, Hin. set_solver. }
  apply andb_true_iff. split.
  - destruct u as [|c u]; [done|]. by apply (H c u).
  - destruct (reverse u) as [|d r] eqn:Er; [apply (f_equal reverse) in Er; rewrite reverse_involutive in Er; by rewrite Er in Hn|].
    apply (H d r). intros x. rewrite <- Er. by rewrite elem_of_reverse.
Qed.

Definition quoted (u : gostring) : gostring := chr 34 :: u ++ [chr 34].

Lemma quoted_core p u : p (chr 34) = false -> core p (quoted u) = true.
Proof. intros H. unfold core, quoted. rewrite reverse_cons, reverse_app. change (reverse [chr 34]) with [chr 34]. cbn [app]. by rewrite H. Qed.

Lemma server_not c : server_byte c = true -> is_space_byte c = false /\ bool_decide (c ∈ quotes) = false /\ c <> "["%char /\ c <> "]"%char /\ c <> ","%char.
Proof. intros H. destruct c as [[] [] [] [] [] [] [] []]; vm_compute in H; try discriminate H; split_and!; by vm_compute. Qed.

Lemma Trim_quoted u : server_text u = true -> Trim (quoted u) quotes = u.
Proof.
  intros Hu. unfold Trim, quoted. apply (trim_core _ [chr 34] u [chr 34]); [done|done|].
  apply server_core; [|done]. intros c Hc. by apply server_not.
Qed.

Lemma inline_quoted u sp : server_text u = true -> forallb is_space_byte sp = true -> inline_upstream (" "%char :: quoted u ++ sp) = Some (add_port u).
Proof.
  intros Hu Hs. unfold inline_upstream. change (" "%char :: quoted u ++ sp) with ([" "%char] ++ quoted u ++ sp). rewrite TrimSpace_core by (done || by apply quoted_core).
  rewrite Trim_quoted by done. unfold server_text in Hu. by destruct (bytes_eqb u []).
Qed.

Lemma server_free (u : gostring) (c : ascii) : server_text u = true -> server_byte c = false -> c ∉ u.
Proof.
  intros Hu Hc Hin. apply andb_true_iff in Hu as [_ Hb]. rewrite forallb_forall in Hb. rewrite (Hb c) in Hc; [done|]. by apply list_elem_of_In.
Qed.

Lemma quoted_free u c : server_text u = true -> server_byte c = false -> c <> chr 34 -> c ∉ quoted u.
Proof. intros Hu Hc Hq. unfold quoted. rewrite elem_of_cons, elem_of_app, list_elem_of_singleton. pose proof (server_free u c Hu Hc). tauto. Qed.

(** The text between the brackets. *)
Definition inline_text (us : list gostring) : gostring := GoStrings.Join (map quoted us) (str ", ").

Lemma inline_all us :
  Forall (fun u => server_text u = true) us ->
  omap inline_upstream (SplitByte (" "%char :: inline_text us ++ [" "%char]) ","%char) = map add_port us.
Proof.
  intros H. induction H as [|u us Hu Hus IH]; [done|]. destruct us as [|u' us].
  - unfold inline_text. cbn [map GoStrings.Join]. rewrite SplitByte_none.
    + rewrite omap_cons_eq, inline_quoted by done. done.
    + pose proof (quoted_free u ","%char Hu eq_refl ltac:(done)). rewrite elem_of_cons, elem_of_app, list_elem_of_singleton. intuition discriminate.
  - replace (" "%char :: inline_text (u :: u' :: us) ++ [" "%char])
      with ((" "%char :: quoted u) ++ ","%char :: (" "%char :: inline_text (u' :: us) ++ [" "%char])).
    2: { unfold inline_text. cbn [map GoStrings.Join]. rewrite <- !app_assoc. by cbn [app str]. }
    rewrite SplitByte_first.
    + rewrite omap_cons_eq. pose proof (inline_quoted u [] Hu eq_refl) as Hq. rewrite app_nil_r in Hq. rewrite Hq, IH. done.
    + pose proof (quoted_free u ","%char Hu eq_refl ltac:(done)). rewrite elem_of_cons. intuition discriminate.
Qed.

Lemma inline_text_free us c :
  Forall (fun u => server_text u = true) us -> server_byte c = false -> c <> chr 34 -> c ∉ str ", " -> c ∉ inline_text us.
Proof.
  intros H Hc Hq Hs. unfold inline_text. induction H as [|u us Hu Hus IH]; [apply not_elem_of_nil|]. destruct us as [|u' us].
  - by apply quoted_free.
  - cbn [map GoStrings.Join]. rewrite !elem_of_app. pose proof (quoted_free u c Hu Hc Hq). tauto.
Qed.

Lemma Index_byte (a b : gostring) (c : ascii) : c ∉ a -> Index (a ++ c :: b) [c] = Some (length a).
Proof.
  induction a as [|x a IH]; intros H; cbn [app Index].
  - rewrite (HasPrefix_app [c] b : HasPrefix (c :: b) [c] = true). done.
  - destruct (HasPrefix (x :: a ++ c :: b) [c]) eqn:E.
    + apply HasPrefix_spec in E as [k E]. cbn in E. injection E as -> _. set_solver.
    + rewrite IH by set_solver. done.
Qed.

Lemma Contains_no (s : gostring) (c : ascii) : c ∉ s -> Contains s [c] = false.
Proof. by rewrite Contains_byte_false. Qed.

Lemma Contains_yes (s : gostring) (c : ascii) : c ∈ s -> Contains s [c] = true.
Proof. by rewrite Contains_byte. Qed.

Definition one_line (us : list gostring) : gostring := str "  upstreams = [" ++ (" "%char :: inline_text us ++ [" "%char]) ++ str "]".
Definition element_line (u : gostring) : gostring := str "    " ++ quoted u ++ str ",".
Definition many_lines (us : list gostring) : list gostring := str "  upstreams = [" :: map element_line us ++ [str "  ]"].

Lemma one_line_parsed us a f :
  Forall (fun u => server_text u = true) us -> toml_line (MkToml true a f) (one_line us) = Some (MkToml true false (f ++ map add_port us)).
Proof.
  intros Hus. set (X := " "%char :: inline_text us ++ [" "%char]).
  assert (forall c, c ∈ str "[]" -> c ∉ X) as HX.
  { intros c Hc. unfold X. rewrite elem_of_cons, elem_of_app, list_elem_of_singleton.
    assert (c ∉ inline_text us); [|intros [E|[?|E]]; [subst c|done|subst c]; by apply list_elem_of_In in Hc as [?|[?|?]]].
    apply list_elem_of_In in Hc. destruct Hc as [<-|[<-|Hc]]; [..|by destruct Hc]; (apply inline_text_free; [done|done|done|by rewrite list_elem_of_In; intros [?|[?|?]]]). }
  set (L := str "upstreams = [" ++ X ++ str "]").
  assert (TrimSpace (one_line us) = L) as HL.
  { change (one_line us) with (str "  " ++ L). rewrite <- (app_nil_r L) at 1. apply TrimSpace_core; [done|done|].
    unfold core, L. rewrite !reverse_app. done. }
  unfold toml_line. rewrite HL. change (HasPrefix L (str "[dns]")) with false. change (HasPrefix L (str "[")) with false. cbn [andb negb inDNS found inArray].
  assert (Contains L (str "upstreams") = true) as ->. { apply Contains_spec. exists [], (str " = [" ++ X ++ str "]"). done. }
  assert (Contains L (str "[") = true) as ->. { apply Contains_spec. exists (str "upstreams = "), (X ++ str "]"). done. }
  assert (Index L (str "[") = Some 12%nat) as -> by (apply (Index_byte (str "upstreams = ") (X ++ str "]") "["%char); by apply (bool_decide_unpack _)).
  assert (Index L (str "]") = Some (13 + length X)%nat) as ->.
  { change L with (str "upstreams = [" ++ X ++ ["]"%char]). rewrite app_assoc, Index_byte; [by rewrite length_app|].
    rewrite elem_of_app. intros [H|H]; [by apply (bool_decide_pack _) in H|]. apply HX in H; [done|]. by apply (bool_decide_unpack _). }
  cbn [andb]. rewrite (proj2 (Nat.leb_le _ _)) by lia. replace (13 + length X - 13)%nat with (length X) by lia.
  change (drop 13 L) with (X ++ str "]"). rewrite take_app_length. unfold X. by rewrite inline_all.
Qed.

Lemma HasPrefix_other c d s p : c <> d -> HasPrefix (c :: s) (d :: p) = false.
Proof. intros H. destruct (HasPrefix _ _) eqn:E; [|done]. apply HasPrefix_spec in E as [k E]. cbn in E. congruence. Qed.

Lemma element_parsed u f :
  server_text u = true -> toml_line (MkToml true true f) (element_line u) = Some (MkToml true true (f ++ [add_port u])).
Proof.
  intros Hu. assert (TrimSpace (element_line u) = quoted u ++ str ",") as HL.
  { unfold element_line. rewrite <- (app_nil_r (quoted u ++ str ",")) at 1. apply TrimSpace_core; [done|done|].
    unfold core. rewrite reverse_app. done. }
  assert (forall c, server_byte c = false -> c <> chr 34 -> c <> ","%char -> Contains (quoted u ++ str ",") [c] = false) as Hno.
  { intros c H1 H2 H3. apply Contains_no. rewrite elem_of_app. change (str ",") with [","%char]. rewrite list_elem_of_singleton.
    pose proof (quoted_free u c Hu H1 H2). tauto. }
  unfold toml_line. rewrite HL. assert (HasPrefix (quoted u ++ str ",") (str "[dns]") = false) as -> by by apply HasPrefix_other.
  assert (HasPrefix (quoted u ++ str ",") (str "[") = false) as -> by by apply HasPrefix_other. cbn [andb negb inDNS found inArray].
  assert (Contains (quoted u ++ str ",") (str "[") = false) as -> by by apply Hno. rewrite andb_false_r.
  assert (Contains (quoted u ++ str ",") (str "]") = false) as -> by by apply Hno.
  assert (Trim (quoted u ++ str ",") blanks = quoted u) as ->. { unfold Trim. apply (trim_core _ [] (quoted u) (str ",")); [done|done|]. by apply quoted_core. }
  rewrite Trim_quoted by done. assert (HasPrefix u (str "#") = false) as ->.
  { destruct (HasPrefix u _) eqn:E; [|done]. apply HasPrefix_spec in E as [k ->]. pose proof (server_free _ "#"%char Hu eq_refl). set_solver. }
  unfold server_text in Hu. by destruct (bytes_eqb u []).
Qed.

Lemma toml_lines_app t l k : toml_lines t (l ++ k) = t ← toml_lines t l; toml_lines t k.
Proof. revert t. induction l as [|x l IH]; intros t; cbn; [done|]. destruct (toml_line t x); cbn; [apply IH|done]. Qed.

Lemma many_lines_parsed us f :
  Forall (fun u => server_text u = true) us -> toml_lines (MkToml true false f) (many_lines us) = Some (MkToml true false (f ++ map add_port us)).
Proof.
  intros H. unfold many_lines. change (str "  upstreams = [" :: map element_line us ++ [str "  ]"]) with ([str "  upstreams = ["] ++ map element_line us ++ [str "  ]"]).
  rewrite !toml_lines_app. cbn [toml_lines mbind option_bind]. change (toml_line (MkToml true false f) (str "  upstreams = [")) with (Some (MkToml true true f)).
  cbn [mbind option_bind]. revert f. induction H as [|u us Hu Hus IH]; intros f; cbn [map toml_lines mbind option_bind].
  - by rewrite app_nil_r.
  - cbn [app toml_lines]. rewrite element_parsed by done. cbn [mbind option_bind]. rewrite IH. by rewrite <- app_assoc.
Qed.

(** Outside the section nothing is read. *)
Definition not_dns (line : gostring) : Prop := HasPrefix (TrimSpace line) (str "[dns]") = false.

Lemma outside_skipped ls f : Forall not_dns ls -> toml_lines (MkToml false false f) ls = Some (MkToml false false f).
Proof.
  induction 1 as [|l ls Hl _ IH]; cbn; [done|]. unfold toml_line. rewrite Hl. cbn [inDNS inArray found]. by destruct (_ && _).
Qed.

Definition no_newline (l : gostring) : Prop := newline ∉ l.

(** The upstreams of pihole.toml are read, in order and with the port 53 where
    none is given, from an array in one line and from an array over several lines
    alike, wherever the section [dns] stands, whatever the other sections hold. *)
Theorem upstreams_read (us : list gostring) (before after : list gostring)
    (Hus : Forall (fun u => server_text u = true) us)
    (Hb : Forall not_dns before) (Ha : Forall not_dns after)
    (Hbn : Forall no_newline before) (Han : Forall no_newline after) :
  let file array := GoStrings.Join (before ++ [str "[dns]"] ++ array ++ [str "[misc]"] ++ after) [newline] in
  importUpstreams (file [one_line us]) = Some (map add_port us) /\ importUpstreams (file (many_lines us)) = Some (map add_port us).
Proof.
  intros file. assert (forall array, Forall no_newline array ->
    toml_lines (MkToml true false []) array = Some (MkToml true false (map add_port us)) -> importUpstreams (file array) = Some (map add_port us)) as H.
  { intros array Hn Hp. unfold importUpstreams, file. rewrite SplitByte_Join_elems.
    - rewrite toml_lines_app, outside_skipped by done. cbn [mbind option_bind app toml_lines].
      change (toml_line (MkToml false false []) (str "[dns]")) with (Some (MkToml true false [])). cbn [mbind option_bind].
      rewrite toml_lines_app, Hp. cbn [mbind option_bind toml_lines].
      change (toml_line (MkToml true false (map add_port us)) (str "[misc]")) with (Some (MkToml false false (map add_port us))).
      cbn [mbind option_bind]. by rewrite outside_skipped.
    - rewrite !Forall_app, !Forall_singleton. split_and!; (done || by apply (bool_decide_unpack _)).
    - by destruct before. }
  assert (forall u, server_text u = true -> newline ∉ quoted u) as Hq by (intros u Hu; by apply quoted_free).
  split; apply H.
  - rewrite Forall_singleton. unfold no_newline, one_line. rewrite !elem_of_app, elem_of_cons, elem_of_app.
    assert (newline ∉ inline_text us). { apply inline_text_free; [done|done|done|]. by apply (bool_decide_unpack _). }
    intros [Hin|[[Hin|[Hin|Hin]]|Hin]]; try done; by apply (bool_decide_pack _) in Hin.
  - cbn [toml_lines]. rewrite one_line_parsed by done. done.
  - unfold many_lines. apply Forall_cons. split; [by apply (bool_decide_unpack _)|]. apply Forall_app. split; [|rewrite Forall_singleton; by apply (bool_decide_unpack _)].
    apply Forall_map. eapply Forall_impl; [exact Hus|]. intros u Hu. unfold no_newline, element_line. rewrite !elem_of_app.
    intros [Hin|[Hin|Hin]]; [by apply (bool_decide_pack _) in Hin|by apply (Hq u)|by apply (bool_decide_pack _) in Hin].
  - by rewrite many_lines_parsed.
Qed.

Lemma upstreams_read_witness :
  let us := [str "1.1.1.1"; str "9.9.9.9:5353"] in
  let before := [str "# pihole"; str "[files]"; str "pid = 1"] in
  let file array := GoStrings.Join (before ++ [str "[dns]"] ++ array ++ [str "[misc]"] ++ [str "upstreams = [ 1 ]"]) [newline] in
  importUpstreams (file [one_line us]) = Some [str "1.1.1.1:53"; str "9.9.9.9:5353"] /\
  importUpstreams (file (many_lines us)) = Some [str "1.1.1.1:53"; str "9.9.9.9:5353"].
Proof.
  intros us before file.
  apply (upstreams_read us before [str "upstreams = [ 1 ]"]); repeat constructor; by apply (bool_decide_unpack _).
Defined.

(** A port in Pi-hole's own notation is not understood. *)
Lemma hash_port : importUpstreams (GoStrings.Join [str "[dns]"; str "upstreams = [ '127.0.0.1#5335' ]"] [newline]) = Some [str "127.0.0.1#5335:53"].
Proof. by vm_compute. Qed.

(** A closing bracket before the opening one, in a comment, ends the program. *)
Lemma bracket_panics : importUpstreams (GoStrings.Join [str "[dns]"; str "# the list] upstreams = ["] [newline]) = None.
Proof. by vm_compute. Qed.

(** ** What the imported lists decide *)














Section decide.
Context {RX : RegexpLib} {EL : ExprLib}.









End decide.

Section imported.
Context {RX : RegexpLib} {EL : ExprLib} {B : BcryptLib} {G : Gravity}.








End imported.

(** ** Witness of the import *)






(** ** Small printing *)

Lemma group_digits_same s : forall n, ","%char ∉ s -> List.filter (fun c => negb (bool_decide (c = ","%char))) (group_digits n s) = s.
Proof.
  induction s as [|c s IH]; intros n H; [done|]. cbn [group_digits]. rewrite List.filter_app.
  assert (List.filter (fun c => negb (bool_decide (c = ","%char))) (if (0 <? n)%nat && (length (c :: s) mod 3 =? 0)%nat then [","%char] else []) = []) as -> by by case_match.
  cbn [app List.filter]. rewrite bool_decide_eq_false_2 by set_solver. cbn [negb]. f_equal. apply IH. set_solver.
Qed.

(** Separators apart, a number is printed with its digits. *)
Lemma formatNumber_digits n : List.filter (fun c => negb (bool_decide (c = ","%char))) (formatNumber n) = Itoa n.
Proof.
  assert (","%char ∉ Itoa n) as H.
  { intros Hin. pose proof (Itoa_bytes n) as Hf. rewrite Forall_forall in Hf. by destruct (Hf _ Hin) as [?|?]. }
  unfold formatNumber. destruct (_ <=? _)%nat; [|by apply group_digits_same].
  apply forallb_filter_id, forallb_forall. intros c Hc. apply negb_true_iff, bool_decide_eq_false. intros ->. by apply H, list_elem_of_In.
Qed.

(** An IPv6 line of custom.list becomes an A record. *)
Lemma ipv6_line : (fun r => (le_Type r, le_IPs r)) <$> hosts_line (str "fd00::1 nas.lan") = Some (str "A", [str "fd00::1"]).
Proof. by vm_compute. Qed.
