(* ===== verification/StatsApi.v ===== *)
(** * Reading the log over HTTP (pkg/api/handlers.go, responses.go)

    The handlers that answer from the storage and from the configuration, with
    their parameters: what they accept, what they pass to the storage, and what
    the answer shows.  A request is its query parameters; times are nanoseconds and
    durations numbers, printed by package time in the program; floats are left out. *)

From Stdlib Require Import Ascii.
From S2P Require Import Prelude GoStrings GoStrconv RateLimit Config GoTime ConfigUpdate QueryStore Sql CacheCore QueryReads.
From stdpp Require Import sorting options.
Local Open Scope Z_scope.

(** ** Parameters *)

(** [strconv.Atoi] within bounds, or the default. *)
Definition int_param (raw : gostring) (fallback low high : Z) : Z :=
  match raw with
  | [] => fallback
  | _ => match Atoi raw with Ok n => if (low <=? n) && (n <=? high) then n else fallback | Err _ => fallback end
  end.

Definition max_int : Z := 2 ^ 63 - 1.

Section params.
Context {R : Rounding}.

(** [time.Parse(time.RFC3339, s)] *)
Context (parse_rfc3339 : gostring -> option Z).

Definition parseDuration (s : gostring) (defaultDuration : Z) : Z :=
  match s with [] => defaultDuration | _ => default defaultDuration (ParseDuration s) end.

Definition Hour_ns : Z := 3600 * 1000000000.

Definition parseTimeSeriesPeriod (value : gostring) : Z * gostring :=
  let v := ToLower value in
  if bytes_eqb v (str "day") || bytes_eqb v (str "daily") then (24 * Hour_ns, str "day")
  else if bytes_eqb v (str "week") || bytes_eqb v (str "weekly") then (7 * 24 * Hour_ns, str "week")
  else (Hour_ns, str "hour").

Definition maxTimeSeriesPoints : Z := 720.

Definition parseTimeSeriesPoints (value : gostring) : Z :=
  let points := match value with [] => 24 | _ => match Atoi value with Ok n => n | Err _ => 24 end end in
  let points := if points <? 1 then 1 else points in
  if maxTimeSeriesPoints <? points then maxTimeSeriesPoints else points.

Definition parseTimeParamValue (now : Z) (value : gostring) : option Z :=
  match value with
  | [] => None
  | _ => match parse_rfc3339 value with
         | Some t => Some t
         | None => match ParseDuration value with Some d => Some (if 0 <? d then now - d else now + d) | None => None end
         end
  end.

Definition buildQueryFilterFromRequest (now : Z) (q : Form) : QueryFilter :=
  let text k := TrimSpace (FormValue q k) in
  let code := match text "response_code" with [] => 0 | t => match Atoi t with Ok c => if 0 <? c then c else 0 | Err _ => 0 end end in
  let status := ToLower (FormValue q "status") in
  MkQueryFilter (text "domain") (text "type") (text "client") (text "upstream") code
    (if bytes_eqb status (str "blocked") then Some true else if bytes_eqb status (str "allowed") then Some false else None)
    (if bytes_eqb status (str "cached") then Some true else None)
    (parseTimeParamValue now (FormValue q "start")) (parseTimeParamValue now (FormValue q "end")).

(** ** The answers *)

(** The storage as the handlers see it: the rows and the hours; [ok] of a read:
    the query does not fail or time out. *)
Record Log := MkLog { lg_rows : list QueryRow; lg_hours : gmap gostring HourlyStat }.

Context {T : TimeText}.

(** [convertQueryLog] keeps every field of the row; the answer is the list of rows
    with the page. *)
Record QueriesResponse := MkQueriesResponse { qr_Queries : list QueryRow; qr_Total : Z; qr_Limit : Z; qr_Offset : Z }.

Definition writeQueriesResponse (queries : list QueryRow) (limit offset : Z) : QueriesResponse :=
  MkQueriesResponse queries (Z.of_nat (length queries)) limit offset.

Definition handleQueries (ok : bool) (now : Z) (storage : option Log) (q : Form) : result Z QueriesResponse :=
  match storage with
  | None => Err 503
  | Some log =>
      let limit := int_param (FormValue q "limit") 100 1 1000 in
      let offset := int_param (FormValue q "offset") 0 0 max_int in
      let f := MkTraceFilter (FormValue q "stage") (FormValue q "action") (FormValue q "rule") (FormValue q "source") in
      if negb (bytes_eqb (tf_Stage f) []) || negb (bytes_eqb (tf_Action f) []) || negb (bytes_eqb (tf_Rule f) []) || negb (bytes_eqb (tf_Source f) [])
      then if ok then Ok (writeQueriesResponse (GetQueriesWithTraceFilter f limit offset (lg_rows log)) limit offset) else Err 500
      else match (if ok then GetQueriesFiltered (buildQueryFilterFromRequest now q) limit offset (lg_rows log) else None) with
           | Some queries => Ok (writeQueriesResponse queries limit offset)
           | None => Err 500
           end
  end.

Definition since_param (now : Z) (raw : gostring) : option Z :=
  match raw with [] => None | _ => let d := parseDuration raw 0 in if 0 <? d then Some (now - d) else None end.

Definition handleTopDomains (ok : bool) (now : Z) (storage : option Log) (q : Form) : result Z (list DomainStats * Z) :=
  match storage with
  | None => Err 503
  | Some log =>
      let limit := int_param (FormValue q "limit") 10 1 100 in
      let blocked := bytes_eqb (FormValue q "blocked") (str "true") in
      if ok then Ok (GetTopDomains limit blocked (since_param now (FormValue q "since")) (now - 7 * 24 * Hour_ns) (lg_rows log), limit) else Err 500
  end.

Definition handleQueryTypes (ok : bool) (now : Z) (storage : option Log) (q : Form) : result Z (list QueryTypeStats * Z) :=
  match storage with
  | None => Err 503
  | Some log =>
      let limit := int_param (FormValue q "limit") 10 1 100 in
      if ok then Ok (GetQueryTypeStats limit (since_param now (FormValue q "since")) (now - 7 * 24 * Hour_ns) (lg_rows log), limit) else Err 500
  end.

(** Without a storage the counts are zero. *)
Definition handleStats (ok hours_ok : bool) (now : Z) (storage : option Log) (q : Form) : result Z Statistics :=
  let since := parseDuration (FormValue q "since") (24 * Hour_ns) in
  match storage with
  | None => Ok (MkStatistics 0 0 0 0 0)
  | Some log =>
      match (if ok then GetStatistics hours_ok (now - since) (lg_hours log) (lg_rows log) else None) with
      | Some st => Ok st
      | None => Err 500
      end
  end.

Definition handleTraceStatistics (ok : bool) (now : Z) (storage : option Log) (q : Form) : option (result Z (Z * TraceCounts)) :=
  match storage with
  | None => Some (Err 503)
  | Some log =>
      let since := match FormValue q "since" with
                   | [] => now - 24 * Hour_ns
                   | raw => match ParseDuration raw with
                            | Some d => now - d
                            | None => default (now - 24 * Hour_ns) (parse_rfc3339 raw)
                            end
                   end in
      if ok then Ok <$> GetTraceStatistics since (lg_rows log) else Some (Err 500)
  end.

(** [unix_of]: the seconds of a stored time. *)
Definition handleStatsTimeSeries (ok : bool) (unix_of : gostring -> Z) (now : Z) (storage : option Log) (q : Form) :
    result Z (list TimeSeriesPoint * Z) :=
  match storage with
  | None => Err 503
  | Some log =>
      let bucket := (parseTimeSeriesPeriod (FormValue q "period")).1 / 1000000000 in
      let points := parseTimeSeriesPoints (FormValue q "points") in
      let start := truncateToBucket (now / 1000000000) bucket - bucket * (points - 1) in
      match (if ok then GetTimeSeriesStats unix_of (now / 1000000000) bucket points (FormatTimestamp (start * 1000000000)) (lg_rows log) else None) with
      | Some ps => Ok (ps, points)
      | None => Err 500
      end
  end.

End params.

(** ** Health *)

Inductive Check := CheckOk | Degraded | Empty | NotConfigured.

(** [handleReadiness]: [ping]: the storage, if any, answers; [size]: the number of
    blocked domains; the status is always 200. *)
Record ReadinessResponse := MkReadiness { rd_storage : Check; rd_blocklist : Check; rd_policy : Check }.
Definition handleReadiness (ping : option bool) (size : option nat) (policy : bool) : Z * ReadinessResponse :=
  (200, MkReadiness (match ping with Some true => CheckOk | Some false => Degraded | None => NotConfigured end)
          (match size with Some O => Empty | Some _ => CheckOk | None => NotConfigured end)
          (if policy then CheckOk else NotConfigured)).

(** ** The configuration *)

Record ConfigServerResponse := MkServerResponse {
  sr_ListenAddress : gostring; sr_WebUIAddress : gostring; sr_TCP : bool; sr_UDP : bool; sr_Blocklist : bool; sr_Policies : bool;
  sr_Trace : bool; sr_Dot : bool; sr_DotAddress : gostring; sr_Clients : list gostring; sr_Origins : list gostring;
  sr_CertFile : gostring; sr_KeyFile : gostring; sr_Autocert : AutocertConfig; sr_ACME : ACMEConfig }.

Record ConfigResponse := MkConfigResponse {
  cr_Server : ConfigServerResponse; cr_Cache : Config.CacheConfig; cr_Policy : PolicyConfig;
  cr_Backend : gostring; cr_BufferSize : Z; cr_RetentionDays : Z; cr_BlockPage : BlockPageConfig; cr_Logging : LoggingConfig;
  cr_Telemetry : TelemetryConfig; cr_Upstreams : list gostring; cr_Blocklists : list gostring; cr_AutoUpdate : bool; cr_Interval : Z }.

(** [durationToString]: what is not positive is shown as zero. *)
Definition durationToString (d : Z) : Z := if d <=? 0 then 0 else d.

Definition without_token (a : ACMEConfig) : ACMEConfig :=
  let c := Cloudflare a in
  MkACMEConfig (acme_Enabled a) (DNSProvider a) (acme_Hosts a) (acme_Upstreams a) (acme_CacheDir a) (acme_Email a) (RenewBefore a)
    (MkCFConfig [] (ZoneID c) (cf_TTL c) (PropagationTimeout c) (PollingInterval c) (InitialDelay c) (SkipAuthNSCheck c)).

Definition convertConfigResponse (cfg : Config) : ConfigResponse :=
  let s := Server cfg in
  let c := Cache cfg in
  MkConfigResponse
    (MkServerResponse (ListenAddress s) (WebUIAddress s) (TCPEnabled s) (UDPEnabled s) (EnableBlocklist s) (EnablePolicies s)
       (DecisionTrace s) (DotEnabled s) (DotAddress s) (AllowedClients s) (CORSAllowedOrigins s)
       (CertFile (TLS s)) (KeyFile (TLS s)) (Autocert (TLS s)) (without_token (ACME (TLS s))))
    (Config.MkCacheConfig (ca_Enabled c) (ca_MaxEntries c) (durationToString (ca_MinTTL c)) (durationToString (ca_MaxTTL c))
       (durationToString (ca_NegativeTTL c)) (durationToString (ca_BlockedTTL c)) (ca_ShardCount c))
    (MkPolicyConfig (po_Rules (Config.Policy cfg)) (po_Enabled (Config.Policy cfg)))
    (Backend (Database cfg)) (db_BufferSize (Database cfg)) (RetentionDays (Database cfg))
    (MkBlockPageConfig (bp_Enabled (BlockPage cfg)) (BlockIP (BlockPage cfg))) (Logging cfg) (Telemetry cfg)
    (UpstreamDNSServers cfg) (Blocklists cfg) (AutoUpdateBlocklists cfg) (durationToString (UpdateInterval cfg)).

Definition set_clients (l : list gostring) (r : ConfigResponse) : ConfigResponse :=
  let s := cr_Server r in
  MkConfigResponse
    (MkServerResponse (sr_ListenAddress s) (sr_WebUIAddress s) (sr_TCP s) (sr_UDP s) (sr_Blocklist s) (sr_Policies s) (sr_Trace s)
       (sr_Dot s) (sr_DotAddress s) l (sr_Origins s) (sr_CertFile s) (sr_KeyFile s) (sr_Autocert s) (sr_ACME s))
    (cr_Cache r) (cr_Policy r) (cr_Backend r) (cr_BufferSize r) (cr_RetentionDays r) (cr_BlockPage r) (cr_Logging r) (cr_Telemetry r)
    (cr_Upstreams r) (cr_Blocklists r) (cr_AutoUpdate r) (cr_Interval r).

(** The allowlist of the database, when it has one, is what is shown. *)
Definition handleGetConfig (read_ok : bool) (s : Store) : result Z ConfigResponse :=
  match currentConfig s with
  | None => Err 503
  | Some cfg =>
      let r := convertConfigResponse cfg in
      Ok (match (if read_ok then acl_row s else None) with Some clients => set_clients clients r | None => r end)
  end.

(** ** Secrets *)

Definition with_token (t : gostring) (c : Config) : Config :=
  let s := Server c in
  let a := ACME (TLS s) in
  let f := Cloudflare a in
  with_server_config (with_tls (DotEnabled s) (DotAddress s)
    (MkTLSConfig (CertFile (TLS s)) (KeyFile (TLS s)) (Autocert (TLS s))
       (MkACMEConfig (acme_Enabled a) (DNSProvider a) (acme_Hosts a) (acme_Upstreams a) (acme_CacheDir a) (acme_Email a) (RenewBefore a)
          (MkCFConfig t (ZoneID f) (cf_TTL f) (PropagationTimeout f) (PollingInterval f) (InitialDelay f) (SkipAuthNSCheck f)))) s) c.

(** The configuration that is shown gives no credential away.  The answer of
    GET /api/config is the same whatever the API key, the user, the password and its
    hash are, and whatever the Cloudflare token is.  The password of the metrics
    endpoint is the exception: it is shown as it is. *)
Theorem config_hides_secrets (read_ok : bool) (s s' : Store) (cfg : Config) (auth : AuthConfig) (token : gostring)
    (Hs : currentConfig s = Some cfg) (Hs' : currentConfig s' = Some (with_auth auth (with_token token cfg))) (Ha : acl_row s' = acl_row s) :
  handleGetConfig read_ok s' = handleGetConfig read_ok s /\
  (exists r, handleGetConfig read_ok s = Ok r /\ APIToken (Cloudflare (sr_ACME (cr_Server r))) = [] /\
     MetricsPassword (cr_Telemetry r) = MetricsPassword (Telemetry cfg)).
Proof.
  unfold handleGetConfig. rewrite Hs, Hs', Ha. split; [done|]. eexists. split; [done|]. by destruct (if read_ok then acl_row s else None).
Qed.

Lemma config_hides_secrets_witness :
  let s c := MkStore true None None (Some c) KillSwitch.NewKillSwitchManager [] false None None 0 [] in
  let other := with_auth (MkAuthConfig true (str "key") [] (str "admin") [] (str "hash")) (with_token (str "token") sample_config) in
  handleGetConfig true (s other) = handleGetConfig true (s sample_config) /\
  (exists r, handleGetConfig true (s sample_config) = Ok r /\ APIToken (Cloudflare (sr_ACME (cr_Server r))) = [] /\
     MetricsPassword (cr_Telemetry r) = MetricsPassword (Telemetry sample_config)).
Proof.
  intros s other.
  apply (config_hides_secrets true (s sample_config) (s other) sample_config (MkAuthConfig true (str "key") [] (str "admin") [] (str "hash")) (str "token")); done.
Defined.

(** Saving the TLS section as it was read erases the token. *)
Lemma resave_drops_token {R : Rounding} read_ok (s : Store) cfg r dot addr t :
  currentConfig s = Some cfg -> handleGetConfig read_ok s = Ok r ->
  parseTLSPayload (JSON (Some (MkTlsRequest None [] [] [] (Some (sr_Autocert (cr_Server r))) (Some (sr_ACME (cr_Server r)))))) (Server cfg) = Some (dot, addr, t) ->
  APIToken (Cloudflare (ACME t)) = [].
Proof.
  intros Hs Hr. unfold parseTLSPayload. cbn [tls_request mbind option_bind tq_CertFile tq_KeyFile]. change (nonblank []) with false. cbn [andb orb].
  intros [= <- <- <-]. cbn. unfold handleGetConfig in Hr. rewrite Hs in Hr. injection Hr as <-.
  by destruct (if read_ok then acl_row s else None).
Qed.

(** ** Pages over HTTP *)

Lemma mapM_fmap_zip {A B C} (W : A -> B -> C) (g : A -> option B) l all :
  mapM g l = Some all -> mapM (fun k => W k <$> g k) l = Some (zip_with W l all) /\ length all = length l.
Proof.
  revert all. induction l as [|k l IH]; intros all; cbn; [by intros [= <-]|]. destruct (g k) as [b|]; cbn; [|done].
  destruct (mapM g l) as [bs|]; cbn; [|done]. intros [= <-]. destruct (IH bs eq_refl) as [-> Hl]. cbn. by rewrite Hl.
Qed.

Lemma mapM_ext_in {A B} (f g : A -> option B) l : (forall k, k ∈ l -> f k = g k) -> mapM f l = mapM g l.
Proof.
  intros H. induction l as [|k l IH]; [done|]. cbn. rewrite H by set_solver. destruct (g k); cbn; [|done]. by rewrite IH by (intros; apply H; set_solver).
Qed.

Lemma Itoa_param n low high d : - 2 ^ 63 <= n < 2 ^ 63 -> low <= n <= high -> int_param (Itoa n) d low high = n.
Proof.
  intros Hn Hb. unfold int_param. pose proof (Atoi_Itoa n Hn) as H. destruct (Itoa n) eqn:E; [done|]. rewrite <- E in *. rewrite H.
  rewrite (proj2 (Z.leb_le _ _)), (proj2 (Z.leb_le _ _)) by lia. done.
Qed.

Section pages.
Context {R : Rounding} (parse_rfc3339 : gostring -> option Z) {T : TimeText}.

Definition page_request (limit : nat) (base : Form) (k : nat) : Form :=
  (str "limit", Itoa (Z.of_nat limit)) :: (str "offset", Itoa (Z.of_nat (k * limit))) :: base.

Definition answered {A} (r : result Z A) : option A := match r with Ok a => Some a | Err _ => None end.

Lemma page_filter now limit base k : buildQueryFilterFromRequest parse_rfc3339 now (page_request limit base k) = buildQueryFilterFromRequest parse_rfc3339 now base.
Proof. done. Qed.

(** A request without a filter on traces. *)
Definition no_trace_params (q : Form) : Prop :=
  FormValue q "stage" = [] /\ FormValue q "action" = [] /\ FormValue q "rule" = [] /\ FormValue q "source" = [].

Lemma page_answer now log limit base k n :
  no_trace_params base -> (1 <= limit <= 1000)%nat -> (k < n)%nat -> Z.of_nat (n * limit) < 2 ^ 63 ->
  answered (handleQueries parse_rfc3339 true now (Some log) (page_request limit base k)) =
  (fun qs => writeQueriesResponse qs (Z.of_nat limit) (Z.of_nat (k * limit))) <$>
    GetQueriesFiltered (buildQueryFilterFromRequest parse_rfc3339 now base) (Z.of_nat limit) (Z.of_nat (k * limit)) (lg_rows log).
Proof.
  intros (H1 & H2 & H3 & H4) Hl Hk Hn. unfold handleQueries.
  change (FormValue (page_request limit base k) "limit") with (Itoa (Z.of_nat limit)).
  change (FormValue (page_request limit base k) "offset") with (Itoa (Z.of_nat (k * limit))).
  change (FormValue (page_request limit base k) "stage") with (FormValue base "stage").
  change (FormValue (page_request limit base k) "action") with (FormValue base "action").
  change (FormValue (page_request limit base k) "rule") with (FormValue base "rule").
  change (FormValue (page_request limit base k) "source") with (FormValue base "source").
  rewrite H1, H2, H3, H4. cbn [tf_Stage tf_Action tf_Rule tf_Source]. change (bytes_eqb [] []) with true. cbn [negb orb].
  rewrite page_filter. assert (k * limit <= n * limit)%nat by (apply Nat.mul_le_mono_r; lia).
  rewrite Itoa_param, Itoa_param by (unfold max_int; lia). by destruct (GetQueriesFiltered _ _ _ _).
Qed.

(** With one, a page is empty. *)
Lemma trace_answer now log limit base k :
  ~ no_trace_params base -> exists l o, handleQueries parse_rfc3339 true now (Some log) (page_request limit base k) = Ok (writeQueriesResponse [] l o).
Proof.
  intros Hn. unfold handleQueries. cbn [tf_Stage tf_Action tf_Rule tf_Source]. destruct (_ || _ || _ || _) eqn:E.
  - do 2 eexists. by rewrite trace_filter_empty.
  - destruct Hn. apply orb_false_iff in E as [E E4]. apply orb_false_iff in E as [E E3]. apply orb_false_iff in E as [E1 E2].
    rewrite negb_false_iff, bytes_eqb_eq in *. by split_and!.
Qed.

#[local] Instance no_trace_params_dec q : Decision (no_trace_params q) := _.

(** C31: Paging through the query log over HTTP.  With a limit the handler accepts and
    rows whose traces decode, the requests for the offsets 0, limit, 2 limit and so on
    are all answered, with at most [limit] queries each.  Without a filter on traces the
    answers are together, in order, the stored rows that pass the conditions of the
    request, each as often as it is stored, in the descending order of the texts of
    their times; if its texts are no LIKE patterns, these are the rows that meet every
    criterion.  With a filter on traces every answer is empty. *)
Theorem http_pages (now : Z) (log : Log) (base : Form) (limit n : nat)
    (Hl : (1 <= limit <= 1000)%nat) (Hn : (length (lg_rows log) <= n * limit)%nat) (Hm : Z.of_nat (n * limit) < 2 ^ 63)
    (Hdec : Forall (fun r => decodes r = true) (lg_rows log)) :
  exists answers,
    mapM (fun k => answered (handleQueries parse_rfc3339 true now (Some log) (page_request limit base k))) (seq 0 n) = Some answers /\
    Forall (fun a => qr_Total a = Z.of_nat (length (qr_Queries a)) /\ qr_Total a <= Z.of_nat limit) answers /\
    (let all := concat (map qr_Queries answers) in
     let f := buildQueryFilterFromRequest parse_rfc3339 now base in
     (no_trace_params base ->
        all ≡ₚ List.filter (fun r => forallb (holds_cond r) (conditions f)) (lg_rows log) /\
        StronglySorted (fun a b => str_le (r_ts b) (r_ts a)) all /\
        (plain (TrimSpace (FormValue base "domain")) = true -> plain (TrimSpace (FormValue base "upstream")) = true ->
         forall r, r ∈ all <-> r ∈ lg_rows log /\ meets f r)) /\
     (~ no_trace_params base -> all = [])).
Proof.
  destruct (decide (no_trace_params base)) as [Hp|Hp].
  - set (f := buildQueryFilterFromRequest parse_rfc3339 now base).
    destruct (filtered_pages f (lg_rows log) limit n) as (all & Hall & l & <- & Hperm & Hmeets & Hsort); [done|lia|done|].
    set (W := fun k qs => writeQueriesResponse qs (Z.of_nat limit) (Z.of_nat (k * limit))).
    destruct (mapM_fmap_zip W _ _ _ Hall) as [Hz Hlen]. exists (zip_with W (seq 0 n) all).
    assert (map qr_Queries (zip_with W (seq 0 n) all) = all) as Hmap.
    { clear -Hlen. revert all Hlen. generalize (seq 0 n). induction l as [|k l IH]; intros [|a all] H; try done. cbn in *. f_equal. apply IH. lia. }
    split; [|split].
    + rewrite <- Hz. apply mapM_ext_in. intros k Hk. rewrite elem_of_seq in Hk. rewrite (page_answer now log limit base k n) by (done || lia). done.
    + apply Forall_forall. intros a Ha. split; [by apply elem_of_zip_with in Ha as (? & ? & -> & _)|].
      assert (qr_Total a = Z.of_nat (length (qr_Queries a))) as -> by by apply elem_of_zip_with in Ha as (? & ? & -> & _).
      assert (qr_Queries a ∈ all) as Hin by (rewrite <- Hmap; apply list_elem_of_In, in_map; by apply list_elem_of_In).
      clear -Hin Hall Hl. apply mapM_Some in Hall. apply list_elem_of_lookup in Hin as [i Hi].
      destruct (Forall2_lookup_r _ _ _ _ _ Hall Hi) as (k & _ & Hk). unfold GetQueriesFiltered, scanQueryLogs in Hk.
      destruct (forallb _ _); [|done]. injection Hk as <-. unfold limit_offset. rewrite (proj2 (Z.ltb_ge _ _)) by lia. rewrite Nat2Z.id, length_take. lia.
    + cbv zeta. rewrite Hmap. split; [|done]. intros _. by split_and!.
  - assert (exists answers, mapM (fun k => answered (handleQueries parse_rfc3339 true now (Some log) (page_request limit base k))) (seq 0 n) = Some answers /\
      Forall (fun a => qr_Total a = 0 /\ qr_Queries a = []) answers) as (answers & Ha & He).
    { generalize (seq 0 n) as ks. induction ks as [|k ks (answers & IH1 & IH2)]; [by exists []|]. destruct (trace_answer now log limit base k Hp) as (x & y & E).
      cbn [mapM]. rewrite E. cbn [answered mbind option_bind]. rewrite IH1. eexists. split; [done|]. constructor; [done|exact IH2]. }
    exists answers. split; [exact Ha|]. split.
    + eapply Forall_impl; [exact He|]. intros a [-> ->]. cbn. lia.
    + cbv zeta. split; [done|]. intros _. clear Ha. induction He as [|a answers [_ Ea] _ IH]; [done|]. cbn. by rewrite Ea.
Qed.

(** A filter on traces finds nothing. *)
Lemma trace_params_empty now log q r :
  ~ no_trace_params q -> handleQueries parse_rfc3339 true now (Some log) q = Ok r -> qr_Queries r = [].
Proof.
  intros Hn. unfold handleQueries. cbn [tf_Stage tf_Action tf_Rule tf_Source]. destruct (_ || _ || _ || _) eqn:E.
  - intros [= <-]. cbn. apply trace_filter_empty.
  - destruct Hn. apply orb_false_iff in E as [E E4]. apply orb_false_iff in E as [E E3]. apply orb_false_iff in E as [E1 E2].
    rewrite negb_false_iff, bytes_eqb_eq in *. by split_and!.
Qed.

(** On a new installation the statistics are an error. *)
Lemma stats_of_new now q : handleStats true true now (Some (MkLog [] ∅)) q = Err 500.
Proof. unfold handleStats. cbn [lg_rows lg_hours]. by rewrite statistics_of_nothing. Qed.

End pages.

(** ** Bounds *)

Lemma points_bound value : 1 <= parseTimeSeriesPoints value <= maxTimeSeriesPoints.
Proof.
  unfold parseTimeSeriesPoints. set (p := match value with [] => _ | _ => _ end).
  destruct (Z.ltb_spec p 1); cbn -[maxTimeSeriesPoints].
  - unfold maxTimeSeriesPoints. destruct (Z.ltb_spec 720 1); lia.
  - destruct (Z.ltb_spec maxTimeSeriesPoints p); unfold maxTimeSeriesPoints in *; lia.
Qed.

Lemma http_pages_witness :
  let log := MkLog [some_row (str "1") 1 (str "ads.example.com"); some_row (str "2") 2 (str "www.example.com"); some_row (str "3") 3 (str "ADS.example.org")] ∅ in
  let base := [(str "domain", str " Ads "); (str "status", str "blocked")] in
  exists answers,
    mapM (fun k => answered (@handleQueries exact_rounding (fun _ => None) flat_text true 0 (Some log) (page_request 1 base k))) (seq 0 3) = Some answers /\
    Forall (fun a => qr_Total a = Z.of_nat (length (qr_Queries a)) /\ qr_Total a <= 1) answers /\
    map r_id (concat (map qr_Queries answers)) = [3; 1].
Proof.
  intros log base.
  destruct (@http_pages exact_rounding (fun _ => None) flat_text 0 log base 1 3) as (answers & H1 & H2 & _);
    [lia|cbn; lia|by vm_compute|repeat constructor|].
  exists answers. split_and!; [exact H1|exact H2|]. vm_compute in H1. by injection H1 as <-.
Defined.
