(* ===== verification/BlocklistApi.v ===== *)
(** * Blocklists and cache over HTTP (pkg/api/handlers_blocklists.go, handlers.go)

    The sources of the blocklists, the check of one name, the reload that runs in
    the background, and the purge of the cache. *)

From Stdlib Require Import Ascii.
From S2P Require Import Prelude GoStrings DnsMsg Pattern FlatBlocklist BlocklistSource BlocklistManager CacheCore Cache RateLimit Config GoTime ConfigUpdate.
From stdpp Require Import options.
Local Open Scope Z_scope.

(** ** Sources *)

(** [url.Parse]: the scheme in lower case, [None] for a text that is no URL. *)
Class UrlLib := { url_scheme : gostring -> option gostring }.

Definition web_url {U : UrlLib} (s : gostring) : bool :=
  match url_scheme s with Some sc => bytes_eqb sc (str "http") || bytes_eqb sc (str "https") | None => false end.

(** The loop over the sources; [seen] holds them in lower case. *)
Fixpoint source_loop {U : UrlLib} (seen : list gostring) (raws : list gostring) : option (list gostring) :=
  match raws with
  | [] => Some []
  | raw :: rest =>
      let trimmed := TrimSpace raw in
      if bytes_eqb trimmed [] then source_loop seen rest
      else if negb (web_url trimmed) then None
      else if existsb (bytes_eqb (ToLower trimmed)) seen then source_loop seen rest
      else cons trimmed <$> source_loop (ToLower trimmed :: seen) rest
  end.

Definition with_sources (l : list gostring) (c : Config) : Config :=
  MkConfig (Telemetry c) (Server c) (Config.Policy c) (Auth c) (LocalRecords c) (ConditionalForwarding c) (Forwarder c) (UpstreamDNSServers c)
    l (Whitelist c) (Logging c) (Database c) (Config.Cache c) (BlockPage c) (Unbound c) (Config.UpdateInterval c) (AutoUpdateBlocklists c).

Section api.
Context {B : BcryptLib} {Y : YamlLib} {U : UrlLib} (e : Env).

(** [body]: the decoded sources, [None] when the JSON is refused. *)
Definition handleUpdateBlocklistSources (ok : bool) (body : option (list gostring)) : Store -> Z * Store :=
  update_section e ok (fun _ => raws ← body; source_loop [] raws) with_sources (fun _ _ s => s).

End api.

(** ** The check, the summary, the reload and the purge *)

Definition normalizeDomain (value : gostring) : gostring :=
  match TrimSpace (ToLower value) with [] => [] | t => TrimSuffix t [dot] end.

Section manager_api.
Context {RX : RegexpLib} {DL : DnsLib} (HttpGet : gostring -> option HttpResponse).

(** The answer: the name, the verdict, and whether there is a manager. *)
Definition handleCheckBlocklist (m : option Manager) (raw : gostring) : result Z (gostring * bool * bool) :=
  match TrimSpace raw with
  | [] => Err 400
  | domain =>
      match m with
      | None => Ok (domain, false, false)
      | Some m =>
          let normalized := normalizeDomain domain in
          Ok (normalized, IsBlocked m normalized || IsBlocked m (Fqdn normalized), true)
      end
  end.

Record Summary := MkSummary {
  su_enabled : bool; su_auto : bool; su_total : nat; su_exact : nat; su_pattern_exact : nat; su_wildcard : nat; su_regex : nat;
  su_updated : option Z; su_sources : list gostring }.

Definition buildBlocklistSummary (cfg : option Config) (m : option Manager) : Summary :=
  let st := match m with Some m => Stats m | None => MkManagerStats 0 0 0 0 0 end in
  MkSummary (match cfg with Some c => EnableBlocklist (Server c) | None => false end)
    (match cfg with Some c => AutoUpdateBlocklists c | None => false end)
    (st_total st) (st_exact st) (st_pattern_exact st) (st_pattern_wildcard st) (st_pattern_regex st)
    (match m with Some m => lastUpdated m | None => None end)
    (match cfg with Some c => Config.Blocklists c | None => [] end).

Context {C : Type} {CI : CacheImpl C}.

(** What the handlers reach: the manager and the cache, both optional. *)
Record Reach := MkReach { x_manager : option Manager; x_cache : option C }.

(** The goroutine of [handleBlocklistReload]; [Update] reports no error. *)
Definition reload_job (now : Z) (x : Reach) : Reach :=
  match x_manager x with
  | None => x
  | Some m => MkReach (Some (Update HttpGet now m)) (c_ClearBlocklistDecisions <$> x_cache x)
  end.

(** The status, and whether the job is started. *)
Definition handleBlocklistReload (x : Reach) : Z * bool := match x_manager x with None => (503, false) | Some _ => (202, true) end.

(** [entries]: the count shown; [flush]: the answer of Unbound's control, if it is used. *)
Definition handleCachePurge (entries : C -> nat) (flush : option bool) (x : Reach) : result Z (nat * bool) * Reach :=
  match x_cache x with
  | None => (Err 503, x)
  | Some c => (Ok (entries c, bool_decide (flush = Some true)), MkReach (x_manager x) (Some (c_Clear c)))
  end.

End manager_api.

(** ** Sources, as promised *)

Lemma source_loop_spec {U : UrlLib} raws : forall seen out,
  source_loop seen raws = Some out ->
  (forall s, s ∈ out -> (exists raw, raw ∈ raws /\ s = TrimSpace raw) /\ s <> [] /\ web_url s = true /\ ToLower s ∉ seen) /\
  NoDup (map ToLower out) /\
  (forall raw, raw ∈ raws -> TrimSpace raw <> [] -> ToLower (TrimSpace raw) ∈ seen \/ ToLower (TrimSpace raw) ∈ map ToLower out).
Proof.
  induction raws as [|raw raws IH]; intros seen out; cbn [source_loop].
  { intros [= <-]. split_and!; [by intros ? ?%elem_of_nil|constructor|by intros ? ?%elem_of_nil]. }
  destruct (bytes_eqb (TrimSpace raw) []) eqn:E1.
  { intros H. apply bytes_eqb_eq in E1. apply IH in H as (H1 & H2 & H3). split_and!; [|done|].
    - intros s Hs. destruct (H1 s Hs) as ((r & Hr & ->) & ?). split; [|done]. exists r. set_solver.
    - intros r Hr Hne. apply elem_of_cons in Hr as [->|Hr]; [done|]. by apply H3. }
  destruct (web_url (TrimSpace raw)) eqn:E2; cbn [negb]; [|done].
  assert (TrimSpace raw <> []) as Hne by (intros H; by rewrite H in E1).
  destruct (existsb (bytes_eqb (ToLower (TrimSpace raw))) seen) eqn:E3.
  { intros H. apply existsb_exists in E3 as (x & Hx & E3). apply bytes_eqb_eq in E3. apply list_elem_of_In in Hx.
    apply IH in H as (H1 & H2 & H3). split_and!; [|done|].
    - intros s Hs. destruct (H1 s Hs) as ((r & Hr & ->) & ?). split; [|done]. exists r. set_solver.
    - intros r Hr Hr'. apply elem_of_cons in Hr as [->|Hr]; [left; by rewrite E3|by apply H3]. }
  destruct (source_loop (ToLower (TrimSpace raw) :: seen) raws) as [out'|] eqn:E4; cbn; [|done]. intros [= <-].
  assert (ToLower (TrimSpace raw) ∉ seen) as Hnew.
  { intros Hin. apply not_true_iff_false in E3. apply E3, existsb_exists. eexists. split; [by apply list_elem_of_In|apply bytes_eqb_refl]. }
  apply IH in E4 as (H1 & H2 & H3). split_and!.
  - intros s Hs. apply elem_of_cons in Hs as [->|Hs]; [split_and!; try done; exists raw; set_solver|].
    destruct (H1 s Hs) as ((r & Hr & ->) & ? & ? & Hn). split_and!; try done; [exists r; set_solver|set_solver].
  - constructor; [|done]. intros Hin. apply list_elem_of_In, in_map_iff in Hin as (s & Es & Hs). apply list_elem_of_In in Hs.
    destruct (H1 s Hs) as (_ & _ & _ & Hn). rewrite Es in Hn. set_solver.
  - intros r Hr Hr'. cbn. apply elem_of_cons in Hr as [->|Hr]; [right; set_solver|]. destruct (H3 r Hr Hr') as [H|H]; [|right; set_solver].
    apply elem_of_cons in H as [->|H]; [right; set_solver|by left].
Qed.

Section saved.
Context {B : BcryptLib} {BO : BcryptLibOk B} {Y : YamlLib} {U : UrlLib} (e : Env).

(** The sources of a PUT that is accepted are the sources in use: they are in the
    file and the live configuration, in the order of the request, trimmed, each a web
    address, no two of them equal up to case, and none that was asked for is missing.
    One address that is not of the web refuses the request and changes nothing. *)
Theorem sources_saved (s : Store) (c : Config) (raws : list gostring) (Hl : live s c) (Hv : valid (effective e c)) :
  match source_loop [] raws with
  | None => handleUpdateBlocklistSources e true (Some raws) s = (400, s)
  | Some out =>
      (survives (with_sources out c) ->
       exists s' c', handleUpdateBlocklistSources e true (Some raws) s = (200, s') /\ mutableConfig s' = Some c' /\ Config.Blocklists c' = out) /\
      Forall (fun x => x <> [] /\ web_url x = true /\ exists raw, raw ∈ raws /\ x = TrimSpace raw) out /\ NoDup (map ToLower out) /\
      (forall raw, raw ∈ raws -> TrimSpace raw <> [] -> ToLower (TrimSpace raw) ∈ map ToLower out)
  end.
Proof using BO.
  destruct (source_loop [] raws) as [out|] eqn:E.
  - split.
    + intros Hs. destruct (section_reloads (BO := BO) e (fun _ => raws ← Some raws; source_loop [] raws) with_sources (fun _ _ s => s) s c out) as (s' & H & Hm); try done.
      exists s'. eexists. split_and!; [exact H|exact Hm|done].
    + apply source_loop_spec in E as (H1 & H2 & H3). split_and!; [|done|].
      * apply Forall_forall. intros x Hx. destruct (H1 x Hx) as (? & ? & ? & _). done.
      * intros raw Hr Hne. destruct (H3 raw Hr Hne) as [H|H]; [by apply elem_of_nil in H|done].
  - unfold handleUpdateBlocklistSources, update_section. rewrite (live_current s c Hl). cbn [mbind option_bind]. by rewrite E.
Qed.

End saved.

(** Removing the last source does not unblock anything: the update without sources
    keeps the list it had. *)
Lemma last_source_removed {RX : RegexpLib} {DL : DnsLib} HttpGet now auto interval (m : Manager) domain :
  IsBlocked (Update HttpGet now (UpdateConfig (MkBlocklistConfig [] auto interval) m)) domain = IsBlocked m domain.
Proof. done. Qed.

(** ** The check agrees with the resolver *)

Section check.
Context {RX : RegexpLib} {DL : DnsLib} {DLok : DnsLibOk DL}.

Lemma Match_fqdn_same m d d' : d <> [] -> d' <> [] -> match_fqdn d = match_fqdn d' -> IsBlocked m d = IsBlocked m d'.
Proof.
  intros H H' E. unfold IsBlocked, Match. rewrite E. destruct (bytes_eqb d []) eqn:E1; [by apply bytes_eqb_eq in E1|].
  destruct (bytes_eqb d' []) eqn:E2; [by apply bytes_eqb_eq in E2|]. done.
Qed.

Lemma last_suffix (s : gostring) : bool_decide (last s = Some dot) = HasSuffix s [dot].
Proof.
  apply eq_iff_eq_true. rewrite bool_decide_eq_true, HasSuffix_spec. split.
  - intros H. by apply last_Some in H.
  - intros [k ->]. by rewrite last_snoc.
Qed.

Lemma trim_left_suffix s : exists a, s = a ++ trim_left s.
Proof. induction s as [|c s [a IH]]; cbn; [by exists []|]. destruct (is_space_byte c); [exists (c :: a); cbn; by f_equal|by exists []]. Qed.

Lemma trim_left_head s c k : trim_left s = c :: k -> is_space_byte c = false.
Proof. induction s as [|d s IH]; cbn; [done|]. destruct (is_space_byte d) eqn:E; [done|]. by intros [= <- _]. Qed.

Lemma TrimSpace_idem s : TrimSpace (TrimSpace s) = TrimSpace s.
Proof.
  unfold TrimSpace at 2 3. set (u := trim_left s). set (v := trim_left (reverse u)).
  assert (trim_left v = v) as Hv.
  { destruct v as [|c k] eqn:E; [done|]. cbn. by rewrite (trim_left_head (reverse u) c k E). }
  assert (trim_left (reverse v) = reverse v) as Hr.
  { destruct (trim_left_suffix (reverse u)) as [a Ha]. fold v in Ha. apply (f_equal reverse) in Ha. rewrite reverse_involutive, reverse_app in Ha.
    destruct (reverse v) as [|c k]; [done|]. cbn. unfold u in Ha. cbn in Ha. by rewrite (trim_left_head s c _ Ha). }
  unfold TrimSpace. by rewrite Hr, reverse_involutive, Hv.
Qed.

Lemma match_fqdn_dot s : HasSuffix (ToLower s) [dot] = true -> match_fqdn s = ToLower s.
Proof. intros H. unfold match_fqdn. by rewrite last_suffix, H. Qed.
Lemma match_fqdn_nodot s : HasSuffix (ToLower s) [dot] = false -> match_fqdn s = ToLower s ++ [dot].
Proof. intros H. unfold match_fqdn. by rewrite last_suffix, H. Qed.

Lemma ToLower_dots s : HasSuffix (ToLower s) [dot; dot] = HasSuffix s [dot; dot].
Proof.
  apply eq_iff_eq_true. rewrite !HasSuffix_spec. split; [|intros [k ->]; exists (ToLower k); by rewrite ToLower_app].
  intros [k E]. exists (take (length s - 2) s). assert (length s = length k + 2)%nat as Hlen by (rewrite <- (length_ToLower s), E, length_app; done).
  rewrite <- (take_drop (length s - 2) s) at 1. f_equal. assert (ToLower (drop (length s - 2) s) = [dot; dot]) as H.
  { unfold ToLower. change (map lower_byte) with (fmap lower_byte : gostring -> gostring). rewrite fmap_drop. change (fmap lower_byte s) with (ToLower s).
    rewrite E. replace (length s - 2)%nat with (length k) by lia. by rewrite drop_app_length. }
  destruct (drop (length s - 2) s) as [|a [|b [|]]]; try done. cbn in H. injection H as Ha Hb. by rewrite (proj1 (lower_byte_dot a) Ha), (proj1 (lower_byte_dot b) Hb).
Qed.

(** The check of a name over HTTP gives the verdict of the resolver: whatever the
    case of the name, with or without its final dot, and with blanks around it, the
    answer says blocked exactly when a query for the name is blocked by the lists. *)
Theorem check_agrees (m : Manager) (raw : gostring)
    (Hne : TrimSpace raw <> []) (Hdots : HasSuffix (TrimSpace raw) [dot; dot] = false) :
  handleCheckBlocklist (Some m) raw = Ok (normalizeDomain (TrimSpace raw), IsBlocked m (TrimSpace raw), true) /\
  forall name, ToLower name = ToLower (TrimSpace raw) -> IsBlocked m name = IsBlocked m (TrimSpace raw).
Proof using DLok.
  split.
  2: { intros name En. apply Match_fqdn_same; [intros ->; by destruct (TrimSpace raw)|done|]. unfold match_fqdn. by rewrite En. }
  unfold handleCheckBlocklist. set (d := TrimSpace raw) in *. destruct d as [|c0 d0] eqn:Ed; [done|]. rewrite <- Ed in *. clear c0 d0 Ed.
  do 2 f_equal. f_equal. assert (normalizeDomain d = TrimSuffix (ToLower d) [dot]) as ->.
  { unfold normalizeDomain. rewrite TrimSpace_ToLower. unfold d. rewrite TrimSpace_idem. fold d. by destruct (ToLower d). }
  assert (ToLower d <> []) as HL by (by destruct d).
  assert (HasSuffix (ToLower d) [dot; dot] = false) as Hdd by by rewrite ToLower_dots.
  assert (ToLower (ToLower d) = ToLower d) as Hid by apply ToLower_idem. destruct (HasSuffix (ToLower d) [dot]) eqn:Es.
  - pose proof (match_fqdn_dot d Es) as Hm. apply HasSuffix_spec in Es as [k Ek]. rewrite Ek, TrimSuffix_app in *.
    assert (HasSuffix k [dot] = false) as Hk.
    { destruct (HasSuffix k [dot]) eqn:E; [|done]. apply HasSuffix_spec in E as [j ->]. rewrite <- app_assoc in Hdd. cbn in Hdd.
      by rewrite (HasSuffix_app j [dot; dot]) in Hdd. }
    assert (ToLower k = k) as Hkl by (rewrite ToLower_app in Hid; by apply app_inv_tail in Hid).
    rewrite Fqdn_add by done.
    assert (IsBlocked m (k ++ [dot]) = IsBlocked m d) as ->.
    { apply Match_fqdn_same; [done| |]; [intros ->; done|]. rewrite Hm, <- Hid at 1. rewrite (match_fqdn_dot (ToLower (k ++ [dot]))); rewrite !Hid; [done|apply HasSuffix_app]. }
    destruct (decide (k = [])) as [->|Hkn]; [done|]. assert (IsBlocked m k = IsBlocked m d) as ->; [|by rewrite orb_diag].
    apply Match_fqdn_same; [done|done|]. rewrite Hm. by rewrite match_fqdn_nodot, Hkl by by rewrite Hkl.
  - rewrite (TrimSuffix_none _ _ Es). rewrite Fqdn_add by done. pose proof (match_fqdn_nodot d Es) as Hm.
    assert (IsBlocked m (ToLower d) = IsBlocked m d) as ->.
    { apply Match_fqdn_same; [done|intros ->; done|]. rewrite Hm. by rewrite match_fqdn_nodot, Hid by by rewrite Hid. }
    assert (IsBlocked m (ToLower d ++ [dot]) = IsBlocked m d) as ->; [|by rewrite orb_diag].
    apply Match_fqdn_same; [by destruct (ToLower d)|intros ->; done|]. rewrite Hm.
    rewrite match_fqdn_dot; rewrite ToLower_app, Hid; [done|apply HasSuffix_app].
Qed.

End check.

(** ** Witnesses *)

Definition prefix_urls : UrlLib := {| url_scheme s := if HasPrefix s (str "https://") then Some (str "https") else if HasPrefix s (str "http://") then Some (str "http") else None |}.

Lemma sources_saved_witness :
  let out := [str "https://a.org/l"; str "http://b.org/l"] in
  exists s' c', @handleUpdateBlocklistSources table_bcrypt (const_yaml (with_sources out sample_config)) prefix_urls no_env true
      (Some [str " https://a.org/l"; []; str "https://A.org/l"; str "http://b.org/l"]) sample_store = (200, s') /\
    mutableConfig s' = Some c' /\ Config.Blocklists c' = out.
Proof.
  intros out.
  destruct (@sources_saved table_bcrypt table_bcrypt_ok (const_yaml (with_sources out sample_config)) prefix_urls no_env sample_store sample_config
    [str " https://a.org/l"; []; str "https://A.org/l"; str "http://b.org/l"] sample_live) as [H _]; [|apply H, const_survives].
  apply valid_by_validate. by vm_compute.
Defined.

Lemma check_agrees_witness :
  let m := @Update no_regexp simple_dns sample_get 7 (@NewManager no_regexp BlocklistManager.sample_config None) in
  @handleCheckBlocklist no_regexp simple_dns (Some m) (str " X.Ads.example.COM. ") = Ok (str "x.ads.example.com", true, true).
Proof.
  intros m. destruct (@check_agrees no_regexp simple_dns simple_dns_ok m (str " X.Ads.example.COM. ")) as [H _]; [by vm_compute|by vm_compute|].
  rewrite H. by vm_compute.
Defined.
