(* ===== verification/Acme.v ===== *)
(** * Certificates for DNS over TLS (pkg/dns/tls.go, autocert_impl.go)

    Which certificate the DoT listener uses, the cache on disk, the two background
    loops that obtain and renew it, the account, and the TXT records of the DNS-01
    challenge.  The certification authority and Cloudflare's API are outside: what
    they answer is part of the events.  Times are seconds. *)

From Stdlib Require Import Ascii.
From S2P Require Import Prelude GoStrings Config.
From stdpp Require Import options.
Local Open Scope Z_scope.

(** ** The cache on disk *)

(** A certificate with the leaf's fields, and the number of its key. *)
Record Cert := MkCert { NotAfter : Z; DNSNames : list gostring; key_of : Z }.
#[global] Instance Cert_eq_dec : EqDecision Cert.
Proof. solve_decision. Defined.

(** cert.pem and key.pem *)
Record CacheDir := MkCacheDir { cert_pem : option Cert; key_pem : option Z }.

Definition certCoversHosts (leaf : Cert) (hosts : list gostring) : bool :=
  forallb (fun h => bool_decide (ToLower h ∈ map ToLower (DNSNames leaf))) hosts.

(** [loadCached]: the pair must match, be valid now and cover the hosts. *)
Definition loadCached (now : Z) (hosts : list gostring) (d : CacheDir) : option Cert :=
  match cert_pem d, key_pem d with
  | Some c, Some k =>
      if negb (k =? key_of c) then None
      else if NotAfter c <? now then None
      else if negb (certCoversHosts c hosts) then None
      else Some c
  | _, _ => None
  end.

(** What an order gives: the certificate with its key, [None] for any error before,
    whether each of the two files can be written, and whether the pair loads. *)
Record Order := MkOrder { o_cert : option Cert; o_write_cert : bool; o_write_key : bool; o_pair : bool }.

(** [obtainCert], from the order on. *)
Definition obtainCert (o : Order) (d : CacheDir) : option Cert * CacheDir :=
  match o_cert o with
  | None => (None, d)
  | Some c =>
      if negb (o_write_cert o) then (None, d)
      else
        let d := MkCacheDir (Some c) (key_pem d) in
        if negb (o_write_key o) then (None, d)
        else
          let d := MkCacheDir (Some c) (Some (key_of c)) in
          if o_pair o then (Some c, d) else (None, d)
  end.

(** ** The manager and its two goroutines *)

Definition first_backoff : Z := 30.
Definition maxBackoff : Z := 15 * 60.
Definition maxRetries : nat := 3.
Definition renew_backoff : Z := 2 * 60.

Inductive Retry := RetryOff | RetryWait (backoff : Z) | RetryBusy (backoff : Z).
Inductive Renew := RenewIdle | RenewBusy (attempt : nat) (backoff : Z) | RenewWait (attempt : nat) (backoff : Z) | RenewOff.

Record Manager := MkManager { certStore : option Cert; cache : CacheDir; retry : Retry; renew : Renew; stopped : bool }.

Section acme.
Context (hosts : list gostring) (renewBefore : Z).

(** [newACMEManager], past the check of the token: the cached certificate, or the
    retry loop. *)
Definition newACMEManager (now : Z) (d : CacheDir) : Manager :=
  match loadCached now hosts d with
  | Some c => MkManager (Some c) d RetryOff RenewIdle false
  | None => MkManager None d (RetryWait first_backoff) RenewIdle false
  end.

Inductive Event :=
| RetryFires (now : Z)            (** the timer of the retry loop *)
| RetryEnds (o : Order)           (** the order of the retry loop ends *)
| RenewTick (now : Z)             (** the twelve-hour ticker *)
| RenewEnds (o : Order)
| RenewFires                      (** the timer between attempts *)
| Stop                            (** [close(m.stopCh)] *)
| RetrySeesStop | RenewSeesStop.  (** the goroutines take the closed channel *)

Definition getCertificate (m : Manager) : option Cert := certStore m.

Definition set_retry (r : Retry) (m : Manager) : Manager := MkManager (certStore m) (cache m) r (renew m) (stopped m).
Definition set_renew (r : Renew) (m : Manager) : Manager := MkManager (certStore m) (cache m) (retry m) r (stopped m).

(** The retry loop: [ensureCert] looks at the cache, then orders. *)
Definition retry_fires (now : Z) (m : Manager) : Manager :=
  match retry m with
  | RetryWait backoff =>
      match loadCached now hosts (cache m) with
      | Some c => MkManager (Some c) (cache m) RetryOff (renew m) (stopped m)
      | None => set_retry (RetryBusy backoff) m
      end
  | _ => m
  end.

Definition next_backoff (backoff : Z) : Z := let b := backoff * 2 in if maxBackoff <? b then maxBackoff else b.

Definition retry_ends (o : Order) (m : Manager) : Manager :=
  match retry m with
  | RetryBusy backoff =>
      match obtainCert o (cache m) with
      | (Some c, d) => MkManager (Some c) d RetryOff (renew m) (stopped m)
      | (None, d) => MkManager (certStore m) d (RetryWait (next_backoff backoff)) (renew m) (stopped m)
      end
  | _ => m
  end.

(** [maybeRenew]: nothing before it is due, then up to three attempts. *)
Definition renew_tick (now : Z) (m : Manager) : Manager :=
  match renew m, certStore m with
  | RenewIdle, Some c => if now <? NotAfter c - renewBefore then m else set_renew (RenewBusy 1 renew_backoff) m
  | _, _ => m
  end.

Definition renew_ends (o : Order) (m : Manager) : Manager :=
  match renew m with
  | RenewBusy attempt backoff =>
      match obtainCert o (cache m) with
      | (Some c, d) => MkManager (Some c) d (retry m) RenewIdle (stopped m)
      | (None, d) =>
          MkManager (certStore m) d (retry m) (if (attempt <? maxRetries)%nat then RenewWait attempt backoff else RenewIdle) (stopped m)
      end
  | _ => m
  end.

Definition renew_fires (m : Manager) : Manager :=
  match renew m with RenewWait attempt backoff => set_renew (RenewBusy (S attempt) (backoff * 2)) m | _ => m end.

Definition step (m : Manager) (e : Event) : Manager :=
  match e with
  | RetryFires now => retry_fires now m
  | RetryEnds o => retry_ends o m
  | RenewTick now => renew_tick now m
  | RenewEnds o => renew_ends o m
  | RenewFires => renew_fires m
  | Stop => MkManager (certStore m) (cache m) (retry m) (renew m) true
  | RetrySeesStop => if stopped m then match retry m with RetryWait _ => set_retry RetryOff m | _ => m end else m
  | RenewSeesStop => if stopped m then match renew m with RenewIdle | RenewWait _ _ => set_renew RenewOff m | _ => m end else m
  end.

Definition run (m : Manager) (es : list Event) : Manager := foldl step m es.

(** ** What holds in every interleaving *)

(** The authority keeps its promise: a certificate it issues is for the hosts. *)
Definition promised (o : Order) : Prop := forall c, o_cert o = Some c -> certCoversHosts c hosts = true.
Definition promised_event (e : Event) : Prop := match e with RetryEnds o | RenewEnds o => promised o | _ => True end.

Definition backoff_ok (b : Z) : Prop := exists n : nat, b = Z.min (first_backoff * 2 ^ Z.of_nat n) maxBackoff.

Record good (m : Manager) : Prop := MkGood {
  g_covers : forall c, certStore m = Some c -> certCoversHosts c hosts = true;
  g_empty : certStore m = None -> renew m = RenewIdle \/ renew m = RenewOff;
  g_retry : retry m <> RetryOff -> certStore m = None;
  g_backoff : forall b, retry m = RetryWait b \/ retry m = RetryBusy b -> backoff_ok b;
  g_attempt : forall a b, renew m = RenewBusy a b \/ renew m = RenewWait a b -> (1 <= a <= maxRetries)%nat /\ b = renew_backoff * 2 ^ (Z.of_nat a - 1) /\
                (renew m = RenewWait a b -> (a < maxRetries)%nat) }.

Lemma loadCached_covers now d c : loadCached now hosts d = Some c -> certCoversHosts c hosts = true.
Proof.
  unfold loadCached. destruct (cert_pem d) as [x|]; [|done]. destruct (key_pem d); [|done]. destruct (negb _); [done|].
  destruct (_ <? _); [done|]. destruct (certCoversHosts x hosts) eqn:E; [|done]. by intros [= <-].
Qed.

Lemma obtain_covers o d c d' : promised o -> obtainCert o d = (Some c, d') -> certCoversHosts c hosts = true.
Proof.
  unfold obtainCert, promised. intros Hp. destruct (o_cert o) as [x|]; [|done]. destruct (negb (o_write_cert o)); [done|].
  destruct (negb (o_write_key o)); [done|]. destruct (o_pair o); [|done]. intros [= <- _]. by apply Hp.
Qed.

Lemma first_backoff_ok : backoff_ok first_backoff.
Proof. by exists 0%nat. Qed.

Lemma next_backoff_ok b : backoff_ok b -> backoff_ok (next_backoff b).
Proof.
  intros [n ->]. exists (S n). unfold next_backoff, first_backoff, maxBackoff. replace (Z.of_nat (S n)) with (Z.of_nat n + 1) by lia.
  rewrite Z.pow_add_r by lia. destruct (Z.ltb_spec (15 * 60) (Z.min (30 * 2 ^ Z.of_nat n) (15 * 60) * 2)); lia.
Qed.

Lemma new_good now d : good (newACMEManager now d).
Proof.
  unfold newACMEManager. destruct (loadCached now hosts d) as [c|] eqn:E; constructor; cbn; try done.
  - intros x [= <-]. by eapply loadCached_covers.
  - by intros b [?|?].
  - by intros a b [?|?].
  - by left.
  - intros b [[= <-]|?]; [apply first_backoff_ok|done].
  - by intros a b [?|?].
Qed.

Lemma step_good m e : good m -> promised_event e -> good (step m e).
Proof.
  intros [H1 H2 H3 H4 H5] He. destruct e as [now|o|now|o| | | |]; cbn [step].
  - unfold retry_fires. destruct (retry m) as [|b|b] eqn:Er; [by constructor; rewrite ?Er| |by constructor; rewrite ?Er].
    specialize (H3 ltac:(done)). destruct (loadCached now hosts (cache m)) as [c|] eqn:E.
    + constructor; cbn; [intros x [= <-]; by eapply loadCached_covers|done|done|by intros x [?|?]|done].
    + constructor; cbn; [done|done|done|intros x [?|[= <-]]; [done|apply H4; by left]|done].
  - unfold retry_ends. destruct (retry m) as [|b|b] eqn:Er; [by constructor; rewrite ?Er|by constructor; rewrite ?Er|].
    specialize (H3 ltac:(done)). destruct (obtainCert o (cache m)) as [[c|] d] eqn:E.
    + constructor; cbn; [intros x [= <-]; by eapply obtain_covers|done|done|by intros x [?|?]|done].
    + constructor; cbn; [done|done|done|intros x [[= <-]|?]; [apply next_backoff_ok, H4; by right|done]|done].
  - unfold renew_tick. destruct (renew m) eqn:Er; try by constructor; rewrite ?Er. destruct (certStore m) as [c|] eqn:Ec; [|by constructor; rewrite ?Er, ?Ec].
    destruct (_ <? _); [by constructor; rewrite ?Er, ?Ec|]. constructor; cbn; rewrite ?Ec; try done.
    intros a b [[= <- <-]|?]; [|done]. split; [unfold maxRetries; lia|]. by split.
  - unfold renew_ends. destruct (renew m) as [|a b|a b|] eqn:Er; try by constructor; rewrite ?Er.
    assert (certStore m <> None) as Hc by (intros Hc; destruct (H2 Hc); congruence).
    destruct (obtainCert o (cache m)) as [[c|] d] eqn:E.
    + constructor; cbn; [intros x [= <-]; by eapply obtain_covers|done|intros Hr; by destruct (Hc (H3 Hr))|done|intros ? ? [?|?]; done].
    + constructor; cbn [certStore retry renew]; [done|done|done|done|]. destruct (Nat.ltb_spec a maxRetries); [|by intros ? ? [?|?]].
      intros a' b' [?|[= <- <-]]; [done|]. destruct (H5 a b ltac:(by left)) as (Hr1 & Hr2 & _). split; [exact Hr1|]. split; [exact Hr2|]. intros _. lia.
  - unfold renew_fires. destruct (renew m) as [|a b|a b|] eqn:Er; try by constructor; rewrite ?Er.
    assert (certStore m <> None) as Hc by (intros Hc; destruct (H2 Hc); congruence).
    destruct (H5 a b ltac:(by right)) as (Ha & Hb & Hlt). specialize (Hlt eq_refl). constructor; cbn; try done.
    intros a' b' [[= <- <-]|?]; [|done]. split; [lia|]. split; [|done]. rewrite Hb. replace (Z.of_nat (S a) - 1) with (Z.of_nat a - 1 + 1) by lia.
    rewrite Z.pow_add_r by lia. lia.
  - by constructor.
  - destruct (stopped m); [|by constructor]. destruct (retry m) eqn:Er; [by constructor; rewrite ?Er| |by constructor; rewrite ?Er].
    constructor; cbn; [done|done|done|by intros ? [?|?]|done].
  - destruct (stopped m); [|by constructor]. destruct (renew m) eqn:Er; try (by constructor; rewrite ?Er); (constructor; cbn; [done|by right|done|done|by intros ? ? [?|?]]).
Qed.

Lemma run_good m es : good m -> Forall promised_event es -> good (run m es).
Proof. intros Hm H. revert m Hm. induction H as [|e es He Hes IH]; intros m Hm; cbn; [done|]. by apply IH, step_good. Qed.

Lemma step_keeps m e : is_Some (certStore m) -> is_Some (certStore (step m e)).
Proof.
  intros [c Hc]. destruct e as [now|o|now|o| | | |]; cbn [step]; unfold retry_fires, retry_ends, renew_tick, renew_ends, renew_fires, set_retry, set_renew;
    rewrite ?Hc; repeat case_match; cbn; rewrite ?Hc; by eexists.
Qed.

Lemma run_keeps m es : is_Some (certStore m) -> is_Some (certStore (run m es)).
Proof. revert m. induction es as [|e es IH]; intros m H; cbn; [done|]. by apply IH, step_keeps. Qed.

(** C33: The certificate of the DoT listener.  In every interleaving of the two loops,
    with an authority that issues for the hosts it is asked for: whatever certificate
    is served covers every configured host; once one is served, one is served for ever,
    failed renewals included; the two loops never have an order in progress at the same
    time; the wait of the retry loop is half a minute doubled at every failure, at most
    a quarter of an hour; and a renewal makes at most three attempts, two and four
    minutes apart. *)
Theorem acme_invariant (now : Z) (d : CacheDir) (es more : list Event)
    (Hp : Forall promised_event es) :
  let m := run (newACMEManager now d) es in
  (forall c, getCertificate m = Some c -> certCoversHosts c hosts = true) /\
  (is_Some (getCertificate m) -> is_Some (getCertificate (run m more))) /\
  (forall b a b', retry m = RetryBusy b -> renew m <> RenewBusy a b') /\
  (forall b, retry m = RetryWait b -> exists n : nat, b = Z.min (30 * 2 ^ Z.of_nat n) 900) /\
  (forall a b, renew m = RenewWait a b -> (a = 1%nat /\ b = 120) \/ (a = 2%nat /\ b = 240)).
Proof.
  intros m. destruct (run_good _ es (new_good now d) Hp) as [H1 H2 H3 H4 H5]. fold m in H1, H2, H3, H4, H5. split_and!.
  - exact H1.
  - apply run_keeps.
  - intros b a b' Hr Hn. assert (certStore m = None) as Hc by (apply H3; by rewrite Hr). destruct (H2 Hc); congruence.
  - intros b Hb. apply H4. by left.
  - intros a b Hr. destruct (H5 a b ltac:(by right)) as (Ha & -> & Hlt). specialize (Hlt Hr). unfold maxRetries in *.
    assert (a = 1 \/ a = 2)%nat as [-> | ->] by lia; [by left|by right].
Qed.

End acme.

(** ** Renewals and restarts *)

(** The attempts of one renewal. *)
Definition attempts (o1 o2 o3 : Order) : list Event := [RenewEnds o1; RenewFires; RenewEnds o2; RenewFires; RenewEnds o3].

(** The first order that succeeds, if any. *)
Definition first_success (o1 o2 o3 : Order) (d : CacheDir) : option Cert :=
  match obtainCert o1 d with
  | (Some c, _) => Some c
  | (None, d1) => match obtainCert o2 d1 with (Some c, _) => Some c | (None, d2) => (obtainCert o3 d2).1 end
  end.

(** A renewal that is due takes the first of three orders that succeeds and keeps
    the old certificate if none does; before it is due, nothing is ordered.  What a
    successful order leaves on disk is served at once by the next start, as long as it
    is valid and covers the hosts of that start; with other hosts it is not. *)
Theorem renewal_outcome (hosts : list gostring) (renewBefore now : Z) (m : Manager) (c : Cert) (o1 o2 o3 : Order)
    (Hi : renew m = RenewIdle) (Hc : getCertificate m = Some c) :
  let m' := run hosts renewBefore m (RenewTick now :: attempts o1 o2 o3) in
  renew m' = RenewIdle /\
  (now < NotAfter c - renewBefore -> m' = m) /\
  (NotAfter c - renewBefore <= now -> getCertificate m' = Some (default c (first_success o1 o2 o3 (cache m)))) /\
  (forall o d c' d', obtainCert o d = (Some c', d') -> forall t hs,
     getCertificate (newACMEManager hs t d') = if negb (NotAfter c' <? t) && certCoversHosts c' hs then Some c' else None).
Proof.
  unfold getCertificate in *.
  assert (forall o d c' d', obtainCert o d = (Some c', d') -> forall t hs,
     certStore (newACMEManager hs t d') = if negb (NotAfter c' <? t) && certCoversHosts c' hs then Some c' else None) as Hre.
  { intros o d c' d' H t hs. unfold obtainCert in H. destruct (o_cert o) as [x|]; [|done]. destruct (negb (o_write_cert o)); [done|].
    destruct (negb (o_write_key o)); [done|]. destruct (o_pair o); [|done]. injection H as -> <-.
    unfold newACMEManager, loadCached. cbn [cert_pem key_pem]. rewrite Z.eqb_refl. cbn [negb].
    destruct (_ <? _); cbn [negb andb]; [done|]. by destruct (certCoversHosts c' hs). }
  cbn [run foldl attempts step]. unfold renew_tick. rewrite Hi, Hc. destruct (Z.ltb_spec now (NotAfter c - renewBefore)) as [Hlt|Hge].
  - unfold renew_ends, renew_fires. rewrite !Hi. split_and!; [done|done|lia|done].
  - split; [|split; [lia|split; [intros _|done]]]; unfold first_success, renew_ends, renew_fires, set_renew; cbn [renew certStore cache];
      destruct (obtainCert o1 (cache m)) as [[c1|] d1]; cbn -[obtainCert]; try done;
      destruct (obtainCert o2 d1) as [[c2|] d2]; cbn -[obtainCert]; try done; destruct (obtainCert o3 d2) as [[c3|] d3]; cbn; done.
Qed.

(** A key that cannot be written leaves a pair that does not load, although the old
    certificate was valid. *)
Lemma half_written (hosts : list gostring) now (c c' : Cert) :
  key_of c' <> key_of c ->
  let d' := (obtainCert (MkOrder (Some c') true false true) (MkCacheDir (Some c) (Some (key_of c)))).2 in
  loadCached now hosts d' = None.
Proof. intros H. cbn. unfold loadCached. cbn. by rewrite (proj2 (Z.eqb_neq _ _)) by congruence. Qed.

(** ** Where the certificate comes from *)

Inductive TlsSource :=
| NoDot | Manual | AcmeDNS (token : gostring) (upstreams : list gostring) | AutocertHTTP (dir : gostring) (address : gostring).
Inductive TlsError := BadKeyPair | NoToken | NoTlsConfiguration.

(** [user_cache]: the user's cache directory joined with the name of the program's. *)
Definition autocert_dir (a : AutocertConfig) (user_cache : option gostring) : gostring :=
  match ac_CacheDir a with [] => default (str "./.cache/autocert") user_cache | d => d end.

Definition acme_token (env : gostring) (a : ACMEConfig) : gostring :=
  match APIToken (Cloudflare a) with [] => env | t => t end.

(** [buildTLSResources]; [pair_ok]: the manual pair loads, [env]: CF_DNS_API_TOKEN. *)
Definition buildTLSResources (s : ServerConfig) (upstreams : list gostring) (pair_ok : bool) (env : gostring) (user_cache : option gostring) :
    result TlsError TlsSource :=
  if negb (DotEnabled s) then Ok NoDot
  else if negb (empty (CertFile (TLS s))) && negb (empty (KeyFile (TLS s))) then if pair_ok then Ok Manual else Err BadKeyPair
  else if acme_Enabled (ACME (TLS s)) then
    let ups := match acme_Upstreams (ACME (TLS s)) with [] => upstreams | us => us end in
    match acme_token env (ACME (TLS s)) with [] => Err NoToken | t => Ok (AcmeDNS t ups) end
  else if ac_Enabled (Autocert (TLS s)) then Ok (AutocertHTTP (autocert_dir (Autocert (TLS s)) user_cache) (HTTP01Address (Autocert (TLS s))))
  else Err NoTlsConfiguration.

Lemma blank_empty s : empty s = true -> blank s = true.
Proof. unfold empty, blank. intros H. apply bool_decide_eq_true in H. by subst. Qed.

(** A configuration that was accepted has a source for its certificate: starting
    DoT on it never fails for want of one, and what can fail is only the loading of the
    manual pair or a missing token.  A manual pair wins over ACME, ACME over
    autocert, the token of the file over that of the environment, and the ACME
    upstreams over those of the server. *)
Theorem tls_source (c : Config) (upstreams : list gostring) (pair_ok : bool) (env : gostring) (user_cache : option gostring)
    (Hv : valid c) (Hdot : DotEnabled (Server c) = true) :
  let t := TLS (Server c) in
  match buildTLSResources (Server c) upstreams pair_ok env user_cache with
  | Err BadKeyPair => pair_ok = false /\ CertFile t <> [] /\ KeyFile t <> []
  | Err NoToken => acme_Enabled (ACME t) = true /\ env = [] /\ APIToken (Cloudflare (ACME t)) = []
  | Err NoTlsConfiguration => False
  | Ok NoDot => False
  | Ok Manual => CertFile t <> [] /\ KeyFile t <> []
  | Ok (AcmeDNS token ups) =>
      (CertFile t = [] \/ KeyFile t = []) /\ acme_Enabled (ACME t) = true /\ token <> [] /\
      (APIToken (Cloudflare (ACME t)) <> [] -> token = APIToken (Cloudflare (ACME t))) /\
      (acme_Upstreams (ACME t) <> [] -> ups = acme_Upstreams (ACME t))
  | Ok (AutocertHTTP dir address) =>
      acme_Enabled (ACME t) = false /\ ac_Enabled (Autocert t) = true /\ blank address = false /\ ac_Hosts (Autocert t) <> []
  end.
Proof.
  intros t. destruct Hv as (_ & _ & Ht & _). destruct (Ht Hdot) as (_ & Hman & Hac & Hsome & _). fold t in Hman, Hac, Hsome.
  unfold buildTLSResources. rewrite Hdot. cbn [negb]. fold t.
  destruct (empty (CertFile t)) eqn:E1, (empty (KeyFile t)) eqn:E2; cbn [negb andb].
  1-3: destruct (acme_Enabled (ACME t)) eqn:Ea.
  1,3,5: unfold acme_token; destruct (APIToken (Cloudflare (ACME t))) as [|x tok] eqn:Et; [destruct env as [|y env']|];
    [done|split_and!; try done..]; try (by left; apply bool_decide_eq_true in E1); try (by right; apply bool_decide_eq_true in E2);
    by destruct (acme_Upstreams (ACME t)).
  1-3: destruct (ac_Enabled (Autocert t)) eqn:Eu; [destruct (Hac eq_refl) as [? ?]; by split_and!|].
  1-3: destruct Hsome as [Hm|[?|?]]; [|done|done]; destruct (Hman Hm) as [Hc Hk];
    (try (apply blank_empty in E1; congruence)); (try (apply blank_empty in E2; congruence)).
  unfold empty in E1, E2. apply bool_decide_eq_false in E1, E2. by destruct pair_ok.
Qed.

(** ** The account *)

(** account.key.pem and account.json: absent, unreadable, or a key and the account
    registered for a key. *)
Record UserFiles := MkUserFiles { f_key : option (option Z); f_reg : option (option Z) }.
Record acmeUser := MkUser { u_key : Z; u_registration : option Z }.

(** [loadOrCreateACMEUser]; [fresh]: the key it would generate. *)
Definition loadOrCreateACMEUser (fresh : Z) (write_ok : bool) (f : UserFiles) : option acmeUser * UserFiles :=
  let reg := match f_reg f with Some (Some r) => Some r | _ => None end in
  match f_key f with
  | Some (Some k) => (Some (MkUser k reg), f)
  | _ => if write_ok then (Some (MkUser fresh reg), MkUserFiles (Some (Some fresh)) (f_reg f)) else (None, f)
  end.

(** [saveRegistration], and the branch of [obtainCert] that registers. *)
Definition register (r : option Z) (save_ok : bool) (u : acmeUser) (f : UserFiles) : option acmeUser * UserFiles :=
  match u_registration u with
  | Some _ => (Some u, f)
  | None =>
      match r with
      | None => (None, f)
      | Some r => (Some (MkUser (u_key u) (Some r)), if save_ok then MkUserFiles (f_key f) (Some (Some r)) else f)
      end
  end.

(** The account is made once: a later start finds the key and the registration. *)
Lemma account_stable fresh fresh' f u f' r u' f'' :
  loadOrCreateACMEUser fresh true f = (Some u, f') -> register (Some r) true u f' = (Some u', f'') ->
  loadOrCreateACMEUser fresh' true f'' = (Some u', f'').
Proof.
  unfold loadOrCreateACMEUser. destruct f as [k g]. cbn [f_key f_reg]. destruct k as [[k|]|]; intros [= <- <-];
    unfold register; cbn [u_registration u_key f_key f_reg]; destruct g as [[g|]|]; by intros [= <- <-].
Qed.

(** A key that does not parse is replaced, but the registration of the old key stays. *)
Lemma stale_registration fresh old : loadOrCreateACMEUser fresh true (MkUserFiles (Some None) (Some (Some old))) =
  (Some (MkUser fresh (Some old)), MkUserFiles (Some (Some fresh)) (Some (Some old))).
Proof. done. Qed.

(** [getAutocertManager]: the first call decides for all. *)
Definition getAutocertManager (once : option (gostring * list gostring * gostring)) (dir : gostring) (hosts : list gostring) (email : gostring) :
    gostring * list gostring * gostring := default (dir, hosts, email) once.

(** ** The challenge records *)

Record Txt := MkTxt { t_id : gostring; t_fqdn : gostring; t_value : gostring; t_ttl : Z }.
Record Zone := MkZone { txts : list Txt; recordIDs : gmap gostring gostring }.

Record Provider := MkProvider { p_zone : gostring; p_ttl : Z; p_timeout : Z; p_interval : Z }.

Definition newCFZoneProvider (cfg : CFConfig) (token : gostring) : option Provider :=
  if empty token then None else if blank (ZoneID cfg) then None
  else Some (MkProvider (ZoneID cfg) (cf_TTL cfg) (PropagationTimeout cfg) (PollingInterval cfg)).

(** What the API does: whether the list and each deletion succeed, and the id of the
    record it creates, [None] for any failure. *)
Record Api := MkApi { list_ok : bool; delete_ok : gostring -> bool; created : option gostring }.

Definition deleteRecord (a : Api) (id : gostring) (z : Zone) : Zone :=
  if delete_ok a id then MkZone (List.filter (fun t => negb (bytes_eqb (t_id t) id)) (txts z)) (recordIDs z) else z.

Definition purgeStaleRecords (a : Api) (fqdn : gostring) (z : Zone) : Zone :=
  if list_ok a then foldl (fun z t => deleteRecord a (t_id t) z) z (List.filter (fun t => bytes_eqb (t_fqdn t) fqdn) (txts z)) else z.

(** [Present]; [fqdn] and [value]: what lego derives for the domain. *)
Definition Present (a : Api) (p : Provider) (fqdn value token : gostring) (z : Zone) : bool * Zone :=
  let z := purgeStaleRecords a fqdn z in
  match created a with
  | None => (false, z)
  | Some id => (true, MkZone (txts z ++ [MkTxt id fqdn (chr 34 :: value ++ [chr 34]) (p_ttl p)]) (<[token := id]> (recordIDs z)))
  end.

Definition CleanUp (a : Api) (token : gostring) (z : Zone) : Zone :=
  let id := default [] (recordIDs z !! token) in
  let z := MkZone (txts z) (delete token (recordIDs z)) in
  if bytes_eqb id [] then z else deleteRecord a id z.

Definition of_name (fqdn : gostring) (l : list Txt) : list Txt := List.filter (fun t => bytes_eqb (t_fqdn t) fqdn) l.

Lemma delete_all a (l : list Txt) : forall z,
  (forall id, delete_ok a id = true) ->
  foldl (fun z t => deleteRecord a (t_id t) z) z l =
    MkZone (List.filter (fun t => negb (existsb (fun x => bytes_eqb (t_id t) (t_id x)) l)) (txts z)) (recordIDs z).
Proof.
  induction l as [|x l IH]; intros z H; cbn.
  - destruct z as [ts ids]. cbn. f_equal. symmetry. by apply forallb_filter_id, forallb_forall.
  - rewrite IH by done. unfold deleteRecord. rewrite H. cbn [txts recordIDs]. f_equal.
    induction (txts z) as [|t ts IHt]; cbn; [done|]. destruct (bytes_eqb (t_id t) (t_id x)); cbn; [done|]. destruct (existsb _ l); cbn; by rewrite IHt.
Qed.

Lemma purge_all a fqdn z :
  list_ok a = true -> (forall id, delete_ok a id = true) -> NoDup (map t_id (txts z)) ->
  purgeStaleRecords a fqdn z = MkZone (List.filter (fun t => negb (bytes_eqb (t_fqdn t) fqdn)) (txts z)) (recordIDs z).
Proof.
  intros Hl Hd Hn. unfold purgeStaleRecords. rewrite Hl, delete_all by done. f_equal. apply filter_ext_in. intros t Ht. f_equal.
  destruct (bytes_eqb (t_fqdn t) fqdn) eqn:E.
  - apply existsb_exists. exists t. split; [apply filter_In; by split|apply bytes_eqb_refl].
  - apply not_true_iff_false. intros Hex. apply existsb_exists in Hex as (x & Hx & Hid). apply filter_In in Hx as [Hx Hf]. apply bytes_eqb_eq in Hid.
    assert (t = x) as <-; [|congruence]. clear -Hn Ht Hx Hid. induction (txts z) as [|y l IH]; [done|]. cbn in Hn. apply NoDup_cons in Hn as [Hy Hn].
    destruct Ht as [->|Ht], Hx as [->|Hx]; [done| | |by apply IH]; exfalso; apply Hy; [rewrite Hid|rewrite <- Hid]; apply list_elem_of_In, in_map; done.
Qed.

(** The challenge records come and go.  With the API at hand, presenting a
    challenge leaves exactly one TXT record for its name, with its value, in place of
    any left over from before, and the records of other names alone; cleaning up
    removes it.  So a second challenge for the same name, which a certificate for a
    domain and its wildcard needs, removes the record of the first. *)
Theorem challenge_records (a : Api) (p : Provider) (z : Zone) (fqdn value token id : gostring)
    (Hl : list_ok a = true) (Hd : forall x, delete_ok a x = true) (Hc : created a = Some id)
    (Hn : NoDup (map t_id (txts z))) (Hnew : id ∉ map t_id (txts z)) (Hid : id <> []) :
  let r := Present a p fqdn value token z in
  let rest := List.filter (fun t => negb (bytes_eqb (t_fqdn t) fqdn)) (txts z) in
  r.1 = true /\ of_name fqdn (txts r.2) = [MkTxt id fqdn (chr 34 :: value ++ [chr 34]) (p_ttl p)] /\
  (forall other, other <> fqdn -> of_name other (txts r.2) = of_name other (txts z)) /\
  txts (CleanUp a token r.2) = rest /\ of_name fqdn (txts (CleanUp a token r.2)) = [].
Proof.
  intros r rest. unfold r, Present. rewrite purge_all by done. fold rest. rewrite Hc. cbn [fst snd txts recordIDs].
  assert (of_name fqdn rest = []) as Hrest.
  { apply filter_none. intros x Hx. apply list_elem_of_In, filter_In in Hx as [_ Hx]. by apply negb_true_iff in Hx. }
  assert (txts (CleanUp a token (MkZone (rest ++ [MkTxt id fqdn (chr 34 :: value ++ [chr 34]) (p_ttl p)]) (<[token:=id]> (recordIDs z)))) = rest) as Hclean.
  { unfold CleanUp. cbn [recordIDs txts]. rewrite lookup_insert_eq. change (default [] (Some id)) with id.
    assert (bytes_eqb id [] = false) as -> by (apply not_true_iff_false; by rewrite bytes_eqb_eq). unfold deleteRecord. rewrite Hd. cbn [txts].
    rewrite List.filter_app. cbn. rewrite bytes_eqb_refl. cbn. rewrite app_nil_r. apply forallb_filter_id, forallb_forall. intros x Hx.
    apply negb_true_iff, not_true_iff_false. rewrite bytes_eqb_eq. intros <-. apply Hnew. apply filter_In in Hx as [Hx _]. by apply list_elem_of_In, in_map. }
  split_and!; [done| | |done|by rewrite Hclean].
  - unfold of_name. rewrite List.filter_app. fold (of_name fqdn rest). rewrite Hrest. cbn. by rewrite bytes_eqb_refl.
  - intros other Ho. unfold of_name. rewrite List.filter_app. cbn.
    assert (bytes_eqb fqdn other = false) as -> by (apply not_true_iff_false; rewrite bytes_eqb_eq; congruence). rewrite app_nil_r.
    unfold rest. clear -Ho. induction (txts z) as [|t l IH]; cbn; [done|]. destruct (bytes_eqb (t_fqdn t) fqdn) eqn:E; cbn.
    + rewrite IH. destruct (bytes_eqb (t_fqdn t) other) eqn:E'; [|done]. apply bytes_eqb_eq in E, E'. congruence.
    + by rewrite IH.
Qed.

(** ** Witnesses *)

Definition some_hosts : list gostring := [str "dns.example.com"].
Definition issued (n : Z) : Cert := MkCert (n * 86400) [str "DNS.example.com"] n.
Definition good_order (n : Z) : Order := MkOrder (Some (issued n)) true true true.
Definition failed : Order := MkOrder None true true true.

Lemma acme_invariant_witness :
  let m := run some_hosts 2592000 (newACMEManager some_hosts 0 (MkCacheDir None None)) [RetryFires 30; RetryEnds failed; RetryFires 90; RetryEnds (good_order 90)] in
  getCertificate m = Some (issued 90) /\
  (forall c, getCertificate m = Some c -> certCoversHosts c some_hosts = true) /\
  (is_Some (getCertificate m) -> is_Some (getCertificate (run some_hosts 2592000 m [RenewTick 6000000; RenewEnds failed]))).
Proof.
  intros m. destruct (acme_invariant some_hosts 2592000 0 (MkCacheDir None None) [RetryFires 30; RetryEnds failed; RetryFires 90; RetryEnds (good_order 90)]
    [RenewTick 6000000; RenewEnds failed]) as (H1 & H2 & _).
  - repeat constructor; intros c Hc; [done|]. injection Hc as <-. by vm_compute.
  - split; [by vm_compute|]. by split.
Defined.

Lemma renewal_outcome_witness :
  let m := MkManager (Some (issued 90)) (MkCacheDir (Some (issued 90)) (Some 90)) RetryOff RenewIdle false in
  getCertificate (run some_hosts 2592000 m (RenewTick 6000000 :: attempts failed (good_order 180) failed)) = Some (issued 180).
Proof.
  intros m. destruct (renewal_outcome some_hosts 2592000 6000000 m (issued 90) failed (good_order 180) failed) as (_ & _ & H & _); [done|done|].
  rewrite H; [by vm_compute|by vm_compute].
Defined.

(** An accepted configuration with ACME. *)
Definition acme_config : Config :=
  let z := zero_Config in
  let t := MkTLSConfig [] [] (MkAutocertConfig false [] [] [] [])
    (MkACMEConfig true (str "cloudflare") some_hosts [] [] [] 0 (MkCFConfig [] [] 120 0 0 0 false)) in
  MkConfig (Telemetry z)
    (MkServerConfig (str ":53") [] [] [] true true true true false [] true (str ":853") [] false t (QueryLogger (Server z)) [])
    (Config.Policy z) (Auth z) (LocalRecords z) (ConditionalForwarding z) (Forwarder z) [str "1.1.1.1:53"] [] []
    (MkLoggingConfig (str "info") (str "text") (str "stdout") [] false 0 0 0) (Database z) (Cache z) (BlockPage z) (Unbound z) 0 false.

Lemma tls_source_witness :
  valid acme_config /\ buildTLSResources (Server acme_config) [str "1.1.1.1:53"] true (str "tok") None = Ok (AcmeDNS (str "tok") [str "1.1.1.1:53"]) /\
  str "tok" <> [].
Proof.
  assert (valid acme_config) as Hv.
  { apply (Validate_spec (BO := table_bcrypt_ok)). by vm_compute. }
  pose proof (tls_source acme_config [str "1.1.1.1:53"] true (str "tok") None Hv eq_refl) as H.
  assert (buildTLSResources (Server acme_config) [str "1.1.1.1:53"] true (str "tok") None = Ok (AcmeDNS (str "tok") [str "1.1.1.1:53"])) as E by by vm_compute.
  rewrite E in H. destruct H as (_ & _ & H & _). by split_and!.
Defined.

Lemma challenge_records_witness :
  let a := MkApi true (fun _ => true) (Some (str "2")) in
  let z := MkZone [MkTxt (str "1") (str "_acme-challenge.example.com") (str "old") 120] ∅ in
  let r := Present a (MkProvider (str "zone") 120 0 0) (str "_acme-challenge.example.com") (str "new") (str "tok") z in
  map t_id (of_name (str "_acme-challenge.example.com") (txts r.2)) = [str "2"] /\ txts (CleanUp a (str "tok") r.2) = [].
Proof.
  intros a z r. destruct (challenge_records a (MkProvider (str "zone") 120 0 0) z (str "_acme-challenge.example.com") (str "new") (str "tok") (str "2"))
    as (_ & H2 & _ & H4 & _); try done.
  - repeat constructor. set_solver.
  - cbn. set_solver.
Defined.
