(* ===== verification/Routes.v ===== *)
(** * The routes of the API (pkg/api/api.go)

    The table of patterns that [New] registers, and what [http.ServeMux] does with
    it: registering a pattern that conflicts with another one panics; a request
    goes to the most specific pattern that matches its method and the segments of
    its escaped path, each unescaped, or is redirected, or refused.  Behind the
    middleware chain of Auth.v this decides which handler runs for whom. *)

From Stdlib Require Import Ascii.
From S2P Require Import Prelude GoStrings GoNet GoBase64 GoTime Sql Clients Config Session RateLimit Auth.
From stdpp Require Import options.
Local Open Scope Z_scope.

(** ** Patterns *)

(** A segment: a literal, [{name}], or the rest of the path after a final slash.  The
    trailing slash of a request is the segment "/", which [{$}] is a literal for. *)
Inductive Seg := Lit (s : gostring) | Wild | Multi.
#[global] Instance Seg_eq_dec : EqDecision Seg.
Proof. solve_decision. Defined.

Definition slash_seg : gostring := str "/".

(** A pattern with an empty method is for every method. *)
Record Pattern := MkPattern { p_method : gostring; p_path : list Seg }.

Definition parse_seg (s : gostring) : Seg :=
  if bytes_eqb s (str "{$}") then Lit slash_seg
  else if HasPrefix s (str "{") && HasSuffix s (str "}") then Wild
  else Lit s.

Fixpoint parse_segs (parts : list gostring) : list Seg :=
  match parts with
  | [] => []
  | [x] => [if bytes_eqb x [] then Multi else parse_seg x]
  | x :: rest => parse_seg x :: parse_segs rest
  end.

Definition parsePattern (p : gostring) : Pattern :=
  let '(m, path) := match IndexByte p " "%char with Some i => (take i p, drop (S i) p) | None => ([], p) end in
  MkPattern m (parse_segs (drop 1 (SplitByte path "/"%char))).

(** ** Matching *)

(** [Multi] is only ever the last segment. *)

Fixpoint path_matches (p : list Seg) (segs : list gostring) : bool :=
  match p, segs with
  | [], [] => true
  | Multi :: _, _ :: _ => true
  | Lit a :: p', s :: segs' => bytes_eqb a s && path_matches p' segs'
  | Wild :: p', s :: segs' => negb (bytes_eqb s slash_seg) && path_matches p' segs'
  | _, _ => false
  end.

(** A pattern for GET is one for HEAD as well. *)
Definition method_matches (m method : gostring) : bool :=
  bytes_eqb m [] || bytes_eqb m method || (bytes_eqb m (str "GET") && bytes_eqb method (str "HEAD")).

Definition matches (p : Pattern) (method : gostring) (segs : list gostring) : bool :=
  method_matches (p_method p) method && path_matches (p_path p) segs.

(** ** Precedence and conflicts *)

(** Everything [p] matches, [q] matches. *)
Fixpoint path_below (p q : list Seg) : bool :=
  match p, q with
  | [], [] => true
  | _ :: _, Multi :: _ => true
  | Lit a :: p', Lit b :: q' => bytes_eqb a b && path_below p' q'
  | Lit a :: p', Wild :: q' => negb (bytes_eqb a slash_seg) && path_below p' q'
  | Wild :: p', Wild :: q' => path_below p' q'
  | _, _ => false
  end.

Definition method_below (m n : gostring) : bool := bytes_eqb n [] || bytes_eqb m n || (bytes_eqb m (str "HEAD") && bytes_eqb n (str "GET")).

Definition below (p q : Pattern) : bool := method_below (p_method p) (p_method q) && path_below (p_path p) (p_path q).

(** Nothing is matched by both. *)
Fixpoint path_disjoint (p q : list Seg) : bool :=
  match p, q with
  | [], [] => false
  | Multi :: _, _ :: _ => false
  | _ :: _, Multi :: _ => false
  | Lit a :: p', Lit b :: q' => negb (bytes_eqb a b) || path_disjoint p' q'
  | Lit a :: p', Wild :: q' | Wild :: p', Lit a :: q' => bytes_eqb a slash_seg || path_disjoint p' q'
  | Wild :: p', Wild :: q' => path_disjoint p' q'
  | _, _ => true
  end.

Definition disjoint_patterns (p q : Pattern) : bool :=
  (negb (method_below (p_method p) (p_method q)) && negb (method_below (p_method q) (p_method p))) ||
  path_disjoint (p_path p) (p_path q).

Definition conflict (p q : Pattern) : bool :=
  negb (disjoint_patterns p q) && Bool.eqb (below p q) (below q p).

(** [HandleFunc], one after the other; [None]: a registration panics. *)
Fixpoint register_all (new done_ : list (Pattern * string)) : option (list (Pattern * string)) :=
  match new with
  | [] => Some done_
  | r :: rest => if existsb (fun x => conflict x.1 r.1) done_ then None else register_all rest (done_ ++ [r])
  end.

(** ** Requests *)

(** The segments of an escaped path, unescaped one by one; one that does not
    unescape is taken as it is. *)
Definition unescape_seg (s : gostring) : gostring := default s (PathUnescape s).

Fixpoint segments (parts : list gostring) : list gostring :=
  match parts with
  | [] => []
  | [x] => [if bytes_eqb x [] then slash_seg else unescape_seg x]
  | x :: rest => unescape_seg x :: segments rest
  end.

Definition path_segments (escaped : gostring) : list gostring := segments (drop 1 (SplitByte escaped "/"%char)).

(** [cleanPath] of net/http *)
Definition cleanPath (p : gostring) : gostring :=
  let p := if HasPrefix p slash_seg then p else slash_seg ++ p in
  let np := Clean p in
  if HasSuffix p slash_seg && negb (bytes_eqb np slash_seg) then np ++ slash_seg else np.

Definition Table : Type := list (Pattern * string).

(** The most specific pattern that matches. *)
Definition tree_match (t : Table) (method : gostring) (segs : list gostring) : option (Pattern * string) :=
  List.find (fun x => matches x.1 method segs && forallb (fun y => negb (matches y.1 method segs) || below x.1 y.1) t) t.

(** The match is exact: not by the rest after a slash, or that rest is empty. *)
Definition exact_match (x : option (Pattern * string)) (path : gostring) : bool :=
  match x with
  | None => false
  | Some (p, _) =>
      negb (bool_decide (List.last (p_path p) Wild = Multi)) ||
      (HasSuffix path slash_seg && (length (p_path p) =? length (path_segments path))%nat)
  end.

Inductive Dispatch := Moved (to_slash : bool) | NotAllowed | NotFound | Unavailable | Serve (handler : string).

(** [findHandler]; a CONNECT request is matched as it is. *)
Definition findHandler (t : Table) (method escaped : gostring) : Dispatch :=
  let connect := bytes_eqb method (str "CONNECT") in
  let path := if connect then escaped else cleanPath escaped in
  let n := tree_match t method (path_segments path) in
  let longer := path ++ slash_seg in
  if negb (exact_match n path) && negb (HasSuffix path slash_seg) && exact_match (tree_match t method (path_segments longer)) longer
  then Moved true
  else if negb (bytes_eqb path escaped) then Moved false
  else match n with
       | Some x => Serve x.2
       | None => if existsb (fun x => path_matches (p_path x.1) (path_segments path)) t then NotAllowed else NotFound
       end.

(** ** The table *)

Definition route_texts : list (string * string) :=
  [("/dns-query", "handleDNSQuery");
   ("/api/health", "handleHealth");
   ("/health", "handleLiveness");
   ("/ready", "handleReadiness");
   ("GET /api/csrf-token", "handleCSRFToken");
   ("/api/stats", "handleStats");
   ("/api/stats/timeseries", "handleStatsTimeSeries");
   ("/api/stats/query-types", "handleQueryTypes");
   ("/api/traces/stats", "handleTraceStatistics");
   ("/api/queries", "handleQueries");
   ("/api/top-domains", "handleTopDomains");
   ("POST /api/blocklist/reload", "handleBlocklistReload");
   ("POST /api/cache/purge", "handleCachePurge");
   ("POST /api/storage/reset", "handleStorageReset");
   ("GET /api/policies", "handleGetPolicies");
   ("POST /api/policies", "handleAddPolicy");
   ("GET /api/policies/{id}", "handleGetPolicy");
   ("PUT /api/policies/{id}", "handleUpdatePolicy");
   ("DELETE /api/policies/{id}", "handleDeletePolicy");
   ("GET /api/policies/export", "handleExportPolicies");
   ("POST /api/policies/test", "handleTestPolicy");
   ("GET /api/localrecords", "handleGetLocalRecords");
   ("POST /api/localrecords", "handleAddLocalRecord");
   ("DELETE /api/localrecords/{id}", "handleRemoveLocalRecord");
   ("GET /api/conditionalforwarding", "handleConditionalForwardingGone");
   ("POST /api/conditionalforwarding", "handleConditionalForwardingGone");
   ("DELETE /api/conditionalforwarding/{id}", "handleConditionalForwardingGone");
   ("GET /api/features", "handleGetFeatures");
   ("PUT /api/features", "handleUpdateFeatures");
   ("POST /api/features/blocklist/disable", "handleDisableBlocklist");
   ("POST /api/features/blocklist/enable", "handleEnableBlocklist");
   ("POST /api/features/policies/disable", "handleDisablePolicies");
   ("POST /api/features/policies/enable", "handleEnablePolicies");
   ("GET /api/config", "handleGetConfig");
   ("PUT /api/config/upstreams", "handleUpdateUpstreams");
   ("PUT /api/config/cache", "handleUpdateCache");
   ("PUT /api/config/logging", "handleUpdateLogging");
   ("PUT /api/config/tls", "handleUpdateTLS");
   ("PUT /api/config/block-page", "handleUpdateBlockPage");
   ("PUT /api/config/allowed-clients", "handleUpdateAllowedClients");
   ("GET /queries", "handleQueriesPage");
   ("GET /policies", "handlePoliciesPage");
   ("GET /localrecords", "handleLocalRecordsPage");
   ("GET /settings", "handleSettingsPage");
   ("GET /clients", "handleClientsPage");
   ("GET /blocklists", "handleBlocklistsPage");
   ("GET /resolver", "handleResolverPage");
   ("GET /resolver/queries", "handleResolverQueriesPage");
   ("GET /resolver/settings", "handleResolverSettingsPage");
   ("GET /resolver/zones", "handleResolverZonesPage");
   ("GET /login", "handleLoginPage");
   ("POST /login", "handleLoginPost");
   ("POST /logout", "handleLogout");
   ("GET /{$}", "handleDashboard");
   ("GET /api/clients", "handleGetClients");
   ("PUT /api/clients/{client}", "handleUpdateClient");
   ("GET /api/client-groups", "handleGetClientGroups");
   ("POST /api/client-groups", "handleCreateClientGroup");
   ("PUT /api/client-groups/{group}", "handleUpdateClientGroup");
   ("DELETE /api/client-groups/{group}", "handleDeleteClientGroup");
   ("GET /api/blocklists", "handleGetBlocklists");
   ("GET /api/blocklists/check", "handleCheckBlocklist");
   ("PUT /api/config/blocklists", "handleUpdateBlocklistSources");
   ("GET /api/unbound/status", "handleGetUnboundStatus");
   ("GET /api/unbound/stats", "handleGetUnboundStats");
   ("GET /api/unbound/config", "handleGetUnboundConfig");
   ("PUT /api/unbound/config/server", "handleUpdateUnboundServer");
   ("GET /api/unbound/forward-zones", "handleGetForwardZones");
   ("POST /api/unbound/forward-zones", "handleAddForwardZone");
   ("PUT /api/unbound/forward-zones/{name}", "handleUpdateForwardZone");
   ("DELETE /api/unbound/forward-zones/{name}", "handleDeleteForwardZone");
   ("POST /api/unbound/reload", "handleUnboundReload");
   ("POST /api/unbound/flush-cache", "handleUnboundFlushCache");
   ("GET /api/unbound/queries", "handleGetUnboundQueries");
   ("GET /api/unbound/query-stats", "handleGetUnboundQueryStats");
   ("/_astro/", "astroFileServer");
   ("/favicon.svg", "astroFileServer")].

(** Those behind [unboundGuard], which answers 503 without a supervisor. *)
Definition guarded : list string :=
  ["handleGetUnboundStats"; "handleGetUnboundConfig"; "handleUpdateUnboundServer"; "handleGetForwardZones"; "handleAddForwardZone";
   "handleUpdateForwardZone"; "handleDeleteForwardZone"; "handleUnboundReload"; "handleUnboundFlushCache"].

Definition unboundGuard (supervisor : bool) (d : Dispatch) : Dispatch :=
  match d with Serve h => if bool_decide (h ∈ guarded) && negb supervisor then Unavailable else d | _ => d end.

Definition route_patterns : Table := map (fun x => (parsePattern (str x.1), x.2)) route_texts.

(** The multiplexer of [New], and the handler it calls. *)
Definition mux : option Table := register_all route_patterns [].
Definition route (supervisor : bool) (method escaped : gostring) : option Dispatch :=
  t ← mux; Some (unboundGuard supervisor (findHandler t method escaped)).

(** ** The order of the patterns *)

Lemma bytes_eqb_neq a b : bytes_eqb a b = false <-> a <> b.
Proof. rewrite <- not_true_iff_false. by rewrite bytes_eqb_eq. Qed.

#[local] Ltac eqbs :=
  repeat match goal with
  | H : _ && _ = true |- _ => apply andb_true_iff in H as [? ?]
  | H : _ || _ = true |- _ => apply orb_true_iff in H
  | H : negb _ = true |- _ => apply negb_true_iff in H
  | H : bytes_eqb _ _ = true |- _ => apply bytes_eqb_eq in H
  | H : bytes_eqb _ _ = false |- _ => apply bytes_eqb_neq in H
  | |- _ && _ = true => apply andb_true_iff; split
  | |- negb _ = true => apply negb_true_iff
  | |- bytes_eqb _ _ = true => apply bytes_eqb_eq
  | |- bytes_eqb _ _ = false => apply bytes_eqb_neq
  end; subst.

Lemma path_below_sound p q segs : path_below p q = true -> path_matches p segs = true -> path_matches q segs = true.
Proof.
  revert q segs. induction p as [|[a| |] p IH]; intros [|[b| |] q] [|s segs]; cbn; try done; intros Hb Hm; eqbs; eauto.
Qed.

Lemma path_below_trans p q r : path_below p q = true -> path_below q r = true -> path_below p r = true.
Proof.
  revert q r. induction p as [|[a| |] p IH]; intros [|[b| |] q] [|[c| |] r]; cbn; try done; intros Hb Hm; eqbs; eauto.
Qed.

Lemma path_disjoint_sound p q segs : path_disjoint p q = true -> path_matches p segs = true -> path_matches q segs = true -> False.
Proof.
  revert q segs. induction p as [|[a| |] p IH]; intros [|[b| |] q] [|s segs]; cbn; try done; intros Hd H1 H2; eqbs;
    try destruct Hd; eqbs; eauto.
Qed.

Lemma method_below_sound m n method : method_below m n = true -> method_matches m method = true -> method_matches n method = true.
Proof.
  unfold method_below, method_matches. rewrite !orb_true_iff, !andb_true_iff, !bytes_eqb_eq. intros H1 H2.
  destruct H1 as [[-> | ->]|[-> ->]]; [tauto|done|]. destruct H2 as [[H2 | <-]|[H2 _]]; [done|tauto|done].
Qed.

Lemma method_below_trans m n o : method_below m n = true -> method_below n o = true -> method_below m o = true.
Proof.
  unfold method_below. rewrite !orb_true_iff, !andb_true_iff, !bytes_eqb_eq. intros H1 H2.
  destruct H2 as [[-> | <-]|[-> ->]]; [tauto|done|]. destruct H1 as [[H1 | ->]|[_ H1]]; [done|tauto|done].
Qed.

(** Two method names that match the same method are ordered. *)
Lemma methods_meet m n method :
  method_matches m method = true -> method_matches n method = true -> method_below m n = true \/ method_below n m = true.
Proof.
  unfold method_below, method_matches. rewrite !orb_true_iff, !andb_true_iff, !bytes_eqb_eq. intros H1 H2.
  destruct H1 as [[-> | ->]|[-> ->]]; [tauto| |]; (destruct H2 as [[-> | ->]|[-> E]]; [tauto| |]); tauto.
Qed.

Lemma below_sound p q m path : below p q = true -> matches p m path = true -> matches q m path = true.
Proof.
  unfold below, matches. rewrite !andb_true_iff. intros [H1 H2] [H3 H4].
  split; [by eapply method_below_sound|by eapply path_below_sound].
Qed.

Lemma below_trans p q r : below p q = true -> below q r = true -> below p r = true.
Proof.
  unfold below. rewrite !andb_true_iff. intros [H1 H2] [H3 H4]. split; [by eapply method_below_trans|by eapply path_below_trans].
Qed.

Lemma below_refl p : below p p = true.
Proof.
  unfold below, method_below. rewrite bytes_eqb_refl, orb_true_r. cbn. induction (p_path p) as [|[] l IH]; cbn; [done|..]; eauto.
  by rewrite bytes_eqb_refl.
Qed.

(** Of two patterns without conflict that match the same request, exactly one is
    below the other. *)
Lemma no_conflict_ordered p q m path :
  conflict p q = false -> matches p m path = true -> matches q m path = true ->
  (below p q = true /\ below q p = false) \/ (below q p = true /\ below p q = false).
Proof.
  unfold conflict. intros Hc Hp Hq. unfold matches in Hp, Hq. eqbs.
  assert (disjoint_patterns p q = false) as E.
  { unfold disjoint_patterns. apply orb_false_iff. split.
    - apply andb_false_iff. rewrite !negb_false_iff. by eapply methods_meet.
    - apply not_true_iff_false. intros Hd. by eapply path_disjoint_sound. }
  rewrite E in Hc. cbn in Hc. destruct (below p q), (below q p); [done|by left|by right|done].
Qed.

Lemma conflict_sym p q : conflict p q = conflict q p.
Proof.
  unfold conflict, disjoint_patterns. f_equal; [|by destruct (below p q), (below q p)].
  f_equal. f_equal; [apply andb_comm|]. generalize (p_path q). induction (p_path p) as [|[a| |] l IH]; intros [|[b| |] k]; cbn; try done.
  - rewrite IH. destruct (bytes_eqb a b) eqn:E, (bytes_eqb b a) eqn:E'; try done; eqbs; done.
  - by rewrite IH.
  - by rewrite IH.
Qed.

(** ** Registration *)

Definition no_conflicts (t : Table) : Prop := forall x y, x ∈ t -> y ∈ t -> x = y \/ conflict x.1 y.1 = false.

Lemma register_all_ok new done_ t : no_conflicts done_ -> register_all new done_ = Some t -> t = done_ ++ new /\ no_conflicts t.
Proof.
  revert done_. induction new as [|r new IH]; intros d Hd; cbn; [intros [= ->]; by rewrite app_nil_r|].
  destruct (existsb _ _) eqn:E; [done|]. intros H. apply IH in H as [-> H]; [by rewrite <- app_assoc in *|].
  assert (forall x, x ∈ d -> conflict x.1 r.1 = false) as Hr.
  { intros x Hx. apply not_true_iff_false. intros Hc. apply not_true_iff_false in E. apply E, existsb_exists. exists x.
    split; [by apply list_elem_of_In|done]. }
  intros x y Hx Hy. apply elem_of_app in Hx as [Hx|Hx], Hy as [Hy|Hy]; rewrite ?list_elem_of_singleton in *; subst; eauto.
  right. rewrite conflict_sym. by apply Hr.
Qed.

(** ** The most specific pattern *)

Lemma least_pattern (t l : Table) m path :
  no_conflicts t -> l <> [] -> (forall x, x ∈ l -> x ∈ t /\ matches x.1 m path = true) ->
  exists x, x ∈ l /\ forall y, y ∈ l -> below x.1 y.1 = true.
Proof.
  intros Ht. induction l as [|x l IH]; [done|]. intros _ Hl. destruct l as [|z l].
  { exists x. split; [set_solver|]. intros y Hy. apply list_elem_of_singleton in Hy as ->. apply below_refl. }
  destruct IH as (y & Hy & Hmin); [done|intros w Hw; apply Hl; by right|].
  destruct (Hl x) as [Hx Mx]; [by left|]. destruct (Hl y) as [Hyt My]; [by right|].
  destruct (Ht x y Hx Hyt) as [->|Hc]; [exists y; split; [by right|]|].
  { intros w Hw. apply elem_of_cons in Hw as [->|Hw]; [apply below_refl|by apply Hmin]. }
  destruct (no_conflict_ordered _ _ _ _ Hc Mx My) as [[H _]|[H _]].
  - exists x. split; [by left|]. intros w Hw. apply elem_of_cons in Hw as [->|Hw]; [apply below_refl|]. eapply below_trans; eauto.
  - exists y. split; [by right|]. intros w Hw. apply elem_of_cons in Hw as [->|Hw]; eauto.
Qed.

Lemma find_none {A} (f : A -> bool) l : List.find f l = None -> forall x, x ∈ l -> f x = false.
Proof. intros H x Hx. eapply find_none; [exact H|by apply list_elem_of_In]. Qed.

Lemma tree_match_spec t m path :
  no_conflicts t ->
  match tree_match t m path with
  | Some x => x ∈ t /\ matches x.1 m path = true /\
      (forall y, y ∈ t -> matches y.1 m path = true -> below x.1 y.1 = true /\ (y <> x -> below y.1 x.1 = false))
  | None => forall y, y ∈ t -> matches y.1 m path = false
  end.
Proof.
  intros Ht. unfold tree_match. destruct (List.find _ t) as [x|] eqn:E.
  - apply find_some in E as [Hx E]. apply list_elem_of_In in Hx. apply andb_true_iff in E as [Hm Hf]. split; [done|]. split; [done|].
    intros y Hy My. rewrite forallb_forall in Hf. specialize (Hf y (proj1 (list_elem_of_In _ _) Hy)). rewrite My in Hf. cbn in Hf.
    split; [done|]. intros Hne. destruct (Ht x y Hx Hy) as [->|Hc]; [done|].
    destruct (no_conflict_ordered _ _ _ _ Hc Hm My) as [[_ H]|[_ H]]; [done|congruence].
  - intros y Hy. apply not_true_iff_false. intros My.
    destruct (least_pattern t (List.filter (fun x => matches x.1 m path) t) m path Ht) as (x & Hx & Hmin).
    { intros H. assert (y ∈ List.filter (fun x => matches x.1 m path) t) as Hi by (by apply list_elem_of_In, filter_In; rewrite <- list_elem_of_In).
      rewrite H in Hi. by apply elem_of_nil in Hi. }
    { intros x Hx. apply list_elem_of_In, filter_In in Hx as [Hx Mx]. by rewrite list_elem_of_In. }
    apply list_elem_of_In, filter_In in Hx as [Hx Mx]. pose proof (find_none _ _ E x (proj2 (list_elem_of_In _ _) Hx)) as Hf. cbn in Hf.
    rewrite Mx in Hf. cbn in Hf. apply not_true_iff_false in Hf. apply Hf, forallb_forall. intros z Hz.
    destruct (matches z.1 m path) eqn:Mz; [|done]. cbn. apply Hmin. by apply list_elem_of_In, filter_In.
Qed.

(** ** The path behind the segments *)

Definition slash : ascii := "/"%char.

Lemma PathUnescape_slash a b :
  PathUnescape (a ++ slash :: b) = (x ← PathUnescape a; y ← PathUnescape b; Some (x ++ slash :: y)).
Proof.
  remember (length a) as n eqn:Hn. revert a Hn. induction (lt_wf n) as [n _ IH]. intros a ->.
  destruct a as [|c a]; [cbn; by destruct (PathUnescape b)|]. cbn [app PathUnescape]. case_bool_decide as Hc.
  - destruct a as [|h [|l a]]; [by destruct b| |].
    + cbn. by destruct (unhex h).
    + cbn [app]. destruct (unhex h) as [x|]; [|done]. cbn. destruct (unhex l) as [y|]; [|done]. cbn.
      rewrite (IH (length a)) by (cbn; done || lia). destruct (PathUnescape a); [|done]. cbn. by destruct (PathUnescape b).
  - rewrite (IH (length a)) by (cbn; done || lia). destruct (PathUnescape a); [|done]. cbn. by destruct (PathUnescape b).
Qed.

Lemma PathUnescape_nil s : PathUnescape s = Some [] -> s = [].
Proof.
  destruct s as [|c s]; [done|]. cbn. case_bool_decide.
  - destruct s as [|a [|b s]]; try done. destruct (unhex a); [|done]. cbn. destruct (unhex b); [|done]. cbn. by destruct (PathUnescape s).
  - by destruct (PathUnescape s).
Qed.

Lemma Join_SplitByte s : GoStrings.Join (SplitByte s slash) [slash] = s.
Proof.
  induction s as [|c s IH]; [done|]. cbn [SplitByte]. destruct (SplitByte s slash) as [|x l] eqn:E.
  { destruct s as [|c' s]; cbn in E; [done|]. case_bool_decide; [done|]. by destruct (SplitByte s slash). }
  case_bool_decide as Hc; [rewrite Hc|].
  - cbn [GoStrings.Join app] in IH |- *. by rewrite IH.
  - destruct l; cbn [GoStrings.Join app] in IH |- *; by rewrite IH.
Qed.

(** The segments from the unescaped parts. *)
Fixpoint segs_of (ds : list gostring) : list gostring :=
  match ds with
  | [] => []
  | [x] => [if bytes_eqb x [] then slash_seg else x]
  | x :: rest => x :: segs_of rest
  end.

Lemma unescape_parts parts p :
  parts <> [] -> PathUnescape (GoStrings.Join parts [slash]) = Some p ->
  exists ds, ds <> [] /\ p = GoStrings.Join ds [slash] /\ segments parts = segs_of ds.
Proof.
  revert p. induction parts as [|x parts IH]; intros p Hn H; [done|]. destruct parts as [|y parts].
  - cbn [GoStrings.Join] in H. exists [p]. split; [done|]. split; [done|]. cbn. unfold unescape_seg. rewrite H. cbn.
    destruct (bytes_eqb x []) eqn:Ex; [apply bytes_eqb_eq in Ex as ->; by injection H as <-|].
    destruct (bytes_eqb p []) eqn:Ep; [|done]. apply bytes_eqb_eq in Ep as ->. apply PathUnescape_nil in H as ->.
    by rewrite bytes_eqb_refl in Ex.
  - change (GoStrings.Join (x :: y :: parts) [slash]) with (x ++ slash :: GoStrings.Join (y :: parts) [slash]) in H.
    rewrite PathUnescape_slash in H. destruct (PathUnescape x) as [d|] eqn:Ed; [|done]. cbn [mbind option_bind] in H.
    destruct (PathUnescape (GoStrings.Join (y :: parts) [slash])) as [q|] eqn:Eq; [|done]. cbn in H. injection H as <-.
    destruct (IH q) as (ds & Hd & -> & Hs); [done|done|]. exists (d :: ds). split; [done|]. split; [by destruct ds|].
    change (segments (x :: y :: parts)) with (unescape_seg x :: segments (y :: parts)). rewrite Hs.
    destruct ds; [done|]. cbn [segs_of]. unfold unescape_seg. by rewrite Ed.
Qed.

Lemma path_of_segments escaped path :
  HasPrefix escaped [slash] = true -> PathUnescape escaped = Some path ->
  exists ds, ds <> [] /\ path = slash :: GoStrings.Join ds [slash] /\ path_segments escaped = segs_of ds.
Proof.
  intros Hs H. apply HasPrefix_spec in Hs as [rest ->]. cbn [app] in *. cbn [PathUnescape] in H.
  rewrite bool_decide_eq_false_2 in H by done. destruct (PathUnescape rest) as [p|] eqn:Ep; [|done]. cbn in H. injection H as <-.
  rewrite <- (Join_SplitByte rest) in Ep. apply unescape_parts in Ep as (ds & Hd & -> & Hseg); [by exists ds|].
  destruct rest as [|c rest]; cbn; [done|]. case_bool_decide; [done|]. by destruct (SplitByte rest slash).
Qed.

(** ** Who reaches what *)

Definition public_handlers : list string :=
  ["handleDNSQuery"; "handleHealth"; "handleLiveness"; "handleReadiness"; "handleLoginPage"; "handleLoginPost"; "handleLogout"; "astroFileServer"].

(** The handlers that change the state of the program. *)
Definition mutating_handlers : list string :=
  ["handleBlocklistReload"; "handleCachePurge"; "handleStorageReset"; "handleAddPolicy"; "handleUpdatePolicy"; "handleDeletePolicy";
   "handleAddLocalRecord"; "handleRemoveLocalRecord"; "handleUpdateFeatures"; "handleDisableBlocklist"; "handleEnableBlocklist";
   "handleDisablePolicies"; "handleEnablePolicies"; "handleUpdateUpstreams"; "handleUpdateCache"; "handleUpdateLogging"; "handleUpdateTLS";
   "handleUpdateBlockPage"; "handleUpdateAllowedClients"; "handleUpdateClient"; "handleCreateClientGroup"; "handleUpdateClientGroup";
   "handleDeleteClientGroup"; "handleUpdateBlocklistSources"; "handleUpdateUnboundServer"; "handleAddForwardZone";
   "handleUpdateForwardZone"; "handleDeleteForwardZone"; "handleUnboundReload"; "handleUnboundFlushCache"].

(** The ways to read a list of parts as unescaped parts: an escaped slash joins two. *)
Fixpoint groupings (bs : list gostring) : list (list gostring) :=
  match bs with
  | [] => []
  | [b] => [[b]]
  | b :: rest => flat_map (fun g => match g with h :: t => [b :: g; (b ++ slash :: h) :: t] | [] => [] end) (groupings rest)
  end.

Definition slash_free (s : gostring) : bool := bool_decide (slash ∉ s).

Lemma slash_free_spec s : slash_free s = true <-> slash ∉ s.
Proof. unfold slash_free. apply bool_decide_eq_true. Qed.

Lemma Join_cons2 x y l : GoStrings.Join (x :: y :: l) [slash] = x ++ slash :: GoStrings.Join (y :: l) [slash].
Proof. done. Qed.

Lemma first_slash (a b x y : gostring) : slash ∉ a -> a ++ slash :: x = b ++ slash :: y -> slash ∉ b -> a = b /\ x = y.
Proof.
  revert b. induction a as [|c a IH]; intros [|d b] Ha E Hb; cbn in E.
  - by injection E as ->.
  - injection E as <- _. exfalso. apply Hb. by left.
  - injection E as -> _. exfalso. apply Ha. by left.
  - injection E as <- E. destruct (IH b) as [-> ->]; [set_solver|done|set_solver|done].
Qed.

Lemma split_first (d : gostring) : slash ∈ d -> exists a b, d = a ++ slash :: b /\ slash ∉ a.
Proof.
  induction d as [|c d IH]; intros H; [by apply elem_of_nil in H|]. destruct (decide (c = slash)) as [->|Hc].
  - exists [], d. split; [done|]. apply not_elem_of_nil.
  - apply elem_of_cons in H as [H|H]; [done|]. apply IH in H as (a & b & -> & Ha). exists (c :: a), b. split; [done|set_solver].
Qed.

Lemma grouping_of bs ds :
  bs <> [] -> ds <> [] -> Forall (fun b => slash ∉ b) bs -> GoStrings.Join ds [slash] = GoStrings.Join bs [slash] -> ds ∈ groupings bs.
Proof.
  revert ds. induction bs as [|b bs IH]; intros ds Hb Hd Hf E; [done|]. apply Forall_cons in Hf as [Hfb Hf]. destruct bs as [|b' bs].
  - destruct ds as [|d [|d' ds]]; [done|cbn in E; subst; by left|]. rewrite Join_cons2 in E. cbn [GoStrings.Join] in E.
    exfalso. apply Hfb. rewrite <- E. set_solver.
  - destruct ds as [|d ds]; [done|]. rewrite (Join_cons2 b) in E.
    assert (exists h t, (GoStrings.Join (h :: t) [slash] = GoStrings.Join (b' :: bs) [slash]) /\
      (d :: ds = b :: h :: t \/ d :: ds = (b ++ slash :: h) :: t)) as (h & t & Ej & Hs).
    { destruct (decide (slash ∈ d)) as [Hin|Hout].
      - apply split_first in Hin as (a & h & -> & Ha). exists h, ds.
        destruct ds as [|d' ds]; rewrite ?Join_cons2 in E; cbn [GoStrings.Join] in E.
        + apply first_slash in E as [-> ->]; [|done|done]. split; [done|by right].
        + rewrite <- app_assoc in E. cbn in E. apply first_slash in E as [-> E]; [|done|done]. split; [by rewrite Join_cons2|by right].
      - destruct ds as [|h t]; [cbn in E; exfalso; apply Hout; rewrite E; set_solver|]. rewrite Join_cons2 in E.
        apply first_slash in E as [-> E]; [|done|done]. exists h, t. split; [done|by left]. }
    assert (h :: t ∈ groupings (b' :: bs)) as Hg by (by apply IH).
    change (groupings (b :: b' :: bs)) with
      (flat_map (fun g => match g with h :: t => [b :: g; (b ++ slash :: h) :: t] | [] => [] end) (groupings (b' :: bs))).
    apply list_elem_of_In, in_flat_map. exists (h :: t). split; [by apply list_elem_of_In|]. cbn. destruct Hs as [->| ->]; tauto.
Qed.

(** The literals of a pattern that has nothing else. *)
Fixpoint literals (p : list Seg) : option (list gostring) :=
  match p with
  | [] => Some []
  | Lit a :: p' => if bytes_eqb a slash_seg then None else ls ← literals p'; Some (a :: ls)
  | _ => None
  end.

Definition bypass_texts : list gostring := map str authBypassPaths ++ [str "/favicon.svg"].

(** The checks on one entry of the table. *)
Definition first_ok (p : list Seg) : bool :=
  match p with
  | Lit a :: rest =>
      if bytes_eqb a slash_seg then bool_decide (rest = [])
      else slash_free a && negb (bytes_eqb a (str "static")) && negb (bytes_eqb a (str "_astro"))
  | _ => false
  end.

Definition protected_ok (p : list Seg) : bool :=
  first_ok p && forallb (fun b => forallb (fun g => negb (path_matches p (segs_of g))) (groupings (drop 1 (SplitByte b slash)))) bypass_texts.

Definition public_ok (p : list Seg) : bool :=
  match literals p with
  | Some ls => bool_decide (slash :: GoStrings.Join ls [slash] ∈ bypass_texts)
  | None => bool_decide (p = [Lit (str "_astro"); Multi])
  end.

Definition mutating_ok (p : Pattern) : bool :=
  bool_decide (p_method p ∈ map str ["POST"; "PUT"; "DELETE"]) &&
  match p_path p with Lit a :: _ :: _ => bytes_eqb a (str "api") | _ => false end.

Definition entry_ok (x : Pattern * string) : bool :=
  (if bool_decide (x.2 ∈ public_handlers) then public_ok (p_path x.1) else protected_ok (p_path x.1)) &&
  (if bool_decide (x.2 ∈ mutating_handlers) then mutating_ok x.1 else true).

Lemma table_ok : forallb entry_ok route_patterns = true.
Proof. by vm_compute. Qed.

Lemma mux_registers : mux = Some route_patterns.
Proof. by vm_compute. Qed.

Lemma mux_no_conflicts : no_conflicts route_patterns.
Proof. refine (proj2 (register_all_ok route_patterns [] route_patterns _ mux_registers)). intros x y Hx. by apply elem_of_nil in Hx. Qed.

Lemma entries_ok x : x ∈ route_patterns -> entry_ok x = true.
Proof. intros H. apply list_elem_of_In in H. revert x H. apply forallb_forall, table_ok. Qed.

#[local] Opaque route_patterns.

Lemma first_literal a p ds :
  a <> slash_seg -> ds <> [] -> path_matches (Lit a :: p) (segs_of ds) = true -> exists ds', ds = a :: ds' /\ path_matches p (segs_of ds') = true.
Proof.
  intros Ha Hd H. destruct ds as [|d [|d' ds]]; [done| |].
  - cbn in H. apply andb_true_iff in H as [H Hp]. apply bytes_eqb_eq in H. destruct (bytes_eqb d []); [done|]. subst. by exists [].
  - cbn [segs_of] in H. cbn [path_matches] in H. apply andb_true_iff in H as [H Hp]. apply bytes_eqb_eq in H. subst. by exists (d' :: ds).
Qed.

Lemma literal_path ls p ds : literals p = Some ls -> (p <> [] -> ds <> []) -> path_matches p (segs_of ds) = true -> ds = ls.
Proof.
  revert ls ds. induction p as [|[a| |] p IH]; intros ls ds Hl Hd H; cbn [literals] in Hl; try done.
  - injection Hl as <-. destruct ds as [|d [|d' ds]]; done.
  - destruct (bytes_eqb a slash_seg) eqn:Ea; [done|]. apply bytes_eqb_neq in Ea. destruct (literals p) as [ks|]; [|done]. injection Hl as <-.
    apply first_literal in H as (ds' & -> & H); [|done|by apply Hd]. f_equal. apply IH; [done| |done]. intros Hp ->. by destruct p as [|[] ?].
Qed.

Lemma prefix_literal (a b rest : gostring) :
  slash ∉ a -> slash ∉ b -> HasPrefix (slash :: a ++ rest) (slash :: b ++ [slash]) = true -> (rest = [] \/ exists k, rest = slash :: k) -> a = b.
Proof.
  intros Ha Hb H Hr. apply HasPrefix_spec in H as [k H]. cbn in H. injection H as H. rewrite <- app_assoc in H. cbn in H.
  destruct Hr as [->|[r ->]].
  - rewrite app_nil_r in H. exfalso. apply Ha. rewrite H. set_solver.
  - by apply first_slash in H as [-> _].
Qed.

Lemma Join_rest a ds : exists rest, GoStrings.Join (a :: ds) [slash] = a ++ rest /\ (rest = [] \/ exists k, rest = slash :: k).
Proof.
  destruct ds as [|d ds]; [exists []; rewrite app_nil_r; eauto|]. rewrite Join_cons2. eexists. split; [done|]. right. by eexists.
Qed.

(** A pattern that passed the check is for no path that needs no credential. *)
Lemma protected_path p ds :
  protected_ok p = true -> ds <> [] -> path_matches p (segs_of ds) = true ->
  let path := slash :: GoStrings.Join ds [slash] in
  path ∉ bypass_texts /\ HasPrefix path (str "/static/") = false /\ HasPrefix path (str "/_astro/") = false.
Proof.
  intros H Hd Hm path. unfold protected_ok in H. apply andb_true_iff in H as [Hf Hb]. rewrite forallb_forall in Hb. split.
  - intros Hin. assert (Forall (fun b => drop 1 (SplitByte b slash) <> [] /\ Forall (fun x => slash ∉ x) (drop 1 (SplitByte b slash)) /\
      b = slash :: GoStrings.Join (drop 1 (SplitByte b slash)) [slash]) bypass_texts) as Hall.
    { repeat (apply Forall_cons; split; [split; [by vm_compute|split; [|by vm_compute]]|]); [..|by apply Forall_nil].
      all: apply (bool_decide_eq_true_1 _); by vm_compute. }
    rewrite Forall_forall in Hall. destruct (Hall path Hin) as (Hn & Hsf & E). apply list_elem_of_In, Hb in Hin. rewrite forallb_forall in Hin.
    unfold path in E at 1. injection E as E. apply grouping_of in E; [|done..]. apply list_elem_of_In, Hin in E. by rewrite Hm in E.
  - destruct p as [|[a| |] p]; try done. cbn [first_ok] in Hf. destruct (bytes_eqb a slash_seg) eqn:Ea.
    + apply bytes_eqb_eq in Ea as ->. apply bool_decide_eq_true in Hf as ->. unfold path.
      destruct ds as [|d [|d' ds]]; [done| |cbn in Hm; apply andb_true_iff in Hm as [_ Hm]; by destruct ds].
      cbn in Hm. apply andb_true_iff in Hm as [Hm _]. apply bytes_eqb_eq in Hm. destruct (bytes_eqb d []) eqn:Ed.
      * by apply bytes_eqb_eq in Ed as ->.
      * by subst d.
    + apply bytes_eqb_neq in Ea. apply first_literal in Hm as (ds' & -> & _); [|done|done].
      apply andb_true_iff in Hf as [Hf H1]. apply andb_true_iff in Hf as [H H2]. apply slash_free_spec in H.
      apply negb_true_iff, bytes_eqb_neq in H1, H2. destruct (Join_rest a ds') as (rest & Er & Hr). unfold path. rewrite Er. split; apply not_true_iff_false; intros Hp.
      * apply H2. apply (prefix_literal a (str "static") rest); try done. by apply slash_free_spec.
      * apply H1. apply (prefix_literal a (str "_astro") rest); try done. by apply slash_free_spec.
Qed.

Lemma mutating_not_public h : h ∈ mutating_handlers -> h ∈ public_handlers -> False.
Proof.
  intros H1 H2. assert (forallb (fun x => negb (bool_decide (x ∈ public_handlers))) mutating_handlers = true) as H by (by vm_compute).
  rewrite forallb_forall in H. apply list_elem_of_In, H in H1. by rewrite bool_decide_eq_true_2 in H1.
Qed.

Section gate.
Context {B : BcryptLib} {R : Rounding}.

Lemma bypass_paths path : one_of path authBypassPaths || bytes_eqb path (str "/favicon.svg") = true <-> path ∈ bypass_texts.
Proof.
  unfold bypass_texts. rewrite orb_true_iff, elem_of_app, list_elem_of_singleton, bytes_eqb_eq, one_of_spec. done.
Qed.

Lemma isAuthRequired_path s r :
  authEnabled (auth s) = true -> Method r <> OPTIONS ->
  (isAuthRequired s r = true <-> Path r ∉ bypass_texts /\ HasPrefix (Path r) (str "/static/") = false /\ HasPrefix (Path r) (str "/_astro/") = false).
Proof.
  intros He Hm. rewrite <- bypass_paths. unfold isAuthRequired, is_method. rewrite He.
  assert (bytes_eqb (Method r) OPTIONS = false) as -> by (by apply bytes_eqb_neq).
  destruct (one_of (Path r) authBypassPaths), (HasPrefix (Path r) (str "/static/")), (HasPrefix (Path r) (str "/_astro/")),
    (bytes_eqb (Path r) (str "/favicon.svg")); cbn; naive_solver.
Qed.

(** The entry of a table a request is dispatched to. *)
Definition served_by (t : Table) (m : gostring) (path : list gostring) (x : Pattern * string) : Prop :=
  x ∈ t /\ matches x.1 m path = true /\
  forall y, y ∈ t -> matches y.1 m path = true -> below x.1 y.1 = true /\ (y <> x -> below y.1 x.1 = false).

Lemma findHandler_served t m escaped h :
  no_conflicts t -> findHandler t m escaped = Serve h -> exists x, x.2 = h /\ served_by t m (path_segments escaped) x.
Proof.
  intros Ht Hf. unfold findHandler in Hf. set (path := if bytes_eqb m _ then _ else _) in Hf.
  destruct (_ && _ && _); [done|]. destruct (bytes_eqb path escaped) eqn:E; [|done]. apply bytes_eqb_eq in E. cbn [negb] in Hf. rewrite E in Hf.
  pose proof (tree_match_spec t m (path_segments escaped) Ht) as Hs.
  destruct (tree_match _ _ _) as [x|]; [|by case_match]. injection Hf as <-. by exists x.
Qed.

Lemma route_served sup m escaped h :
  route sup m escaped = Some (Serve h) -> exists x, x.2 = h /\ served_by route_patterns m (path_segments escaped) x.
Proof.
  unfold route. rewrite mux_registers. cbn [mbind option_bind]. intros [= H].
  apply findHandler_served; [apply mux_no_conflicts|]. destruct (findHandler route_patterns m escaped); cbn in H; try done.
  by destruct (_ && _).
Qed.

(** An entry that passed the check, for a path it matches. *)
Lemma public_path p ds :
  public_ok p = true -> ds <> [] -> path_matches p (segs_of ds) = true ->
  let path := slash :: GoStrings.Join ds [slash] in path ∈ bypass_texts \/ HasPrefix path (str "/_astro/") = true.
Proof.
  intros Hp Hd Hm path. unfold public_ok in Hp. destruct (literals p) as [ls|] eqn:El.
  - left. apply bool_decide_eq_true in Hp. unfold path. by rewrite (literal_path ls p ds El (fun _ => Hd) Hm).
  - right. apply bool_decide_eq_true in Hp as ->. apply first_literal in Hm as (ds' & -> & Hm); [|done|done].
    destruct ds' as [|d ds']; [done|]. unfold path. rewrite Join_cons2. apply HasPrefix_spec. by eexists.
Qed.

Lemma mutating_request x m ds r :
  mutating_ok x = true -> ds <> [] -> matches x m (segs_of ds) = true -> Method r = m -> Path r = slash :: GoStrings.Join ds [slash] ->
  Get r (str "Authorization") = [] -> requiresCSRFCheck r = true.
Proof.
  unfold mutating_ok, matches. intros Hx Hd Hm <- Hp Ha. apply andb_true_iff in Hx as [Hx Hl]. apply andb_true_iff in Hm as [Hm1 Hm2].
  apply bool_decide_eq_true in Hx. unfold requiresCSRFCheck. apply andb_true_iff. split; [apply andb_true_iff; split|].
  - unfold method_matches in Hm1. rewrite !orb_true_iff, andb_true_iff, !bytes_eqb_eq in Hm1.
    cbn [map] in Hx. rewrite !elem_of_cons, elem_of_nil in Hx.
    destruct Hx as [E|[E|[E|[]]]]; rewrite E in Hm1; (destruct Hm1 as [[Hm1|Hm1]|[Hm1 _]]; try done; by rewrite <- Hm1).
  - destruct (p_path x) as [|[a| |] [|y q]]; try done. apply bytes_eqb_eq in Hl as ->.
    apply first_literal in Hm2 as (ds' & -> & Hm2); [|done|done]. destruct ds' as [|d ds']; [by destruct y|].
    rewrite Hp, Join_cons2. apply HasPrefix_spec. by eexists.
  - by rewrite Ha.
Qed.

(** C5: Only the public handlers can be reached without a credential.  The routes
    register without a conflict, and a request goes to the one pattern that is more
    specific than every other one it matches.  With authentication on, whatever the
    request and however its path is escaped: if it passes the middleware chain and is
    dispatched to a handler that is not one of the eight public ones, it is
    authenticated; and if that handler changes state and the request has no
    Authorization header, it carries the CSRF token of its session.  The public
    handlers are public: they never need a credential. *)
Theorem route_gate (blocked : option (gostring -> bool)) (sup : bool) (r : Request) (escaped : gostring) (now : Z) (s : Server) (h : string)
    (He : authEnabled (auth s) = true)
    (Hpath : PathUnescape escaped = Some (Path r)) (Hslash : HasPrefix escaped [slash] = true)
    (Hpass : reply (chain blocked routes r now s).1 = Routed) (Hroute : route sup (Method r) escaped = Some (Serve h)) :
  (exists x, x.2 = h /\ served_by route_patterns (Method r) (path_segments escaped) x) /\
  (h ∉ public_handlers -> authenticated r now s) /\
  (h ∈ mutating_handlers -> Get r (str "Authorization") = [] -> csrf_presented r now s) /\
  (h ∈ public_handlers -> isAuthRequired s r = false).
Proof.
  apply chain_routed in Hpass as (_ & Hm & _ & Hauth). destruct (route_served sup _ _ _ Hroute) as (x & <- & Hx). clear Hroute. split; [exact (ex_intro _ x (conj eq_refl Hx))|].
  destruct (path_of_segments escaped (Path r) Hslash Hpath) as (ds & Hd & Hp & Hseg). destruct Hx as (Hin & Hmx & _). rewrite Hseg in Hmx.
  apply entries_ok in Hin. apply andb_true_iff in Hin as [Hpub Hmut].
  assert (path_matches (p_path x.1) (segs_of ds) = true) as Hpm by (by apply andb_true_iff in Hmx as [_ ?]).
  pose proof (isAuthRequired_path s r He Hm) as Hreq.
  assert (x.2 ∉ public_handlers -> isAuthRequired s r = true) as Hprot.
  { intros Hn. rewrite bool_decide_eq_false_2 in Hpub by done. apply Hreq. rewrite Hp. by apply (protected_path (p_path x.1)). }
  split_and!.
  - intros Hn. destruct Hauth as [E|[Ha _]]; [|done]. by rewrite Hprot in E.
  - intros Hi Hno. rewrite bool_decide_eq_true_2 in Hmut by done.
    destruct Hauth as [E|[_ Hc]]; [|apply Hc; by eapply mutating_request].
    rewrite Hprot in E; [done|]. intros Hp'. by apply (mutating_not_public x.2).
  - intros Hi. rewrite bool_decide_eq_true_2 in Hpub by done. apply not_true_iff_false. intros E. apply Hreq in E as (E1 & _ & E3).
    destruct (public_path _ ds Hpub Hd Hpm) as [H|H]; rewrite <- Hp in H; [done|congruence].
Qed.
End gate.

(** ** Witness *)

(** The server after a login, and a request of the session it began, with an escaped
    slash in its path. *)
Definition logged_in : Server :=
  (@handleLoginPost table_bcrypt
     (sample_request POST (str "/login") [] [(str "username", str "admin"); (str "password", str "secret")]) 5 draws sample_server).2.

Definition session_request : Request :=
  MkRequest (str "PUT") (str "/api/clients/a/b") (str "/api/clients/a%2Fb") (str "dns.home") (str "192.0.2.7:4711")
    [(str "X-CSRF-Token", Encode [4; 5; 6])] (Some (Encode [1; 2; 3])) true [] false [].

Lemma route_gate_witness :
  @authenticated table_bcrypt session_request 6 logged_in /\ csrf_presented session_request 6 logged_in.
Proof.
  pose proof (@route_gate table_bcrypt exact_rounding None true session_request (str "/api/clients/a%2Fb") 6 logged_in "handleUpdateClient"
    ltac:(vm_compute; reflexivity) ltac:(vm_compute; reflexivity) ltac:(vm_compute; reflexivity) ltac:(vm_compute; reflexivity)
    ltac:(vm_compute; reflexivity)) as (_ & H1 & H2 & _).
  split; [apply H1|apply H2].
  - apply (bool_decide_eq_true_1 _). vm_compute. reflexivity.
  - apply (bool_decide_eq_true_1 _). vm_compute. reflexivity.
  - vm_compute. reflexivity.
Defined.
