(* ===== verification/UnboundLog.v ===== *)
(** * Unbound's events and statistics (pkg/unbound/dnstap_reader.go, stats.go;
    pkg/storage/sqlite.go; pkg/api/handlers_unbound.go; cmd/glory-hole/main.go)

    A dnstap message becomes an entry, which goes into the reply buffer of the
    handler and, through a bounded channel and a worker that writes batches, into
    the table of events; the table is read by page and by its counters.  The other
    source of numbers is the output of unbound-control.  Unpacking a message is the
    class [DnsWire] of Doh.v; floats are the class [Floats]. *)

From Stdlib Require Import Ascii.
From S2P Require Import Prelude GoStrings GoStrconv GoNet DnsMsg CacheCore Doh ReplyBuffer Sql Migrations QueryStore QueryReads Config ConfigUpdate StatsApi.
From stdpp Require Import sorting options.
Local Open Scope Z_scope.

(** What the code does with float64; only the milliseconds of a duration are kept,
    by their bits. *)
Class Floats := {
  ms_of_us : Z -> Z;                    (** [float64(us) / 1000.0] *)
  ParseFloat_value : gostring -> Z;     (** [v, _ := strconv.ParseFloat(s, 64)] *)
  times_1000 : Z -> Z;
  float_int64 : Z -> Z;                 (** the conversion to int64 *)
  percent_of : Z -> Z -> Z }.           (** [float64(a) / float64(b) * 100] *)

(** ** dnstap messages *)

Inductive TapType := TClientQuery | TClientResponse | TResolverQuery | TResolverResponse | TOther (name : gostring).

Definition type_text (t : TapType) : gostring :=
  match t with
  | TClientQuery => str "CLIENT_QUERY" | TClientResponse => CLIENT_RESPONSE
  | TResolverQuery => str "RESOLVER_QUERY" | TResolverResponse => str "RESOLVER_RESPONSE" | TOther n => n
  end.

(** A field that is absent is [None]; its getter gives zero. *)
Record TapMessage := MkTap {
  t_type : TapType; t_query : option gostring; t_response : option gostring;
  t_qsec : option Z; t_qnsec : option Z; t_rsec : option Z; t_rnsec : option Z; t_qaddr : IP; t_raddr : IP }.

(** [nsecToTime], in nanoseconds; the conversion of the seconds wraps. *)
Definition nsecToTime (sec nsec : Z) : Z := wraps 64 sec * 1000000000 + nsec.

(** [Time.Sub] saturates; [Microseconds] truncates. *)
Definition Sub (t u : Z) : Z := Z.max (- 2 ^ 63) (Z.min (t - u) (2 ^ 63 - 1)).
Definition Microseconds (d : Z) : Z := Z.quot d 1000.

Section reader.
Context {D : DnsLib} {W : DnsWire} {F : Floats}.

(** [dns.RcodeToString] *)
Context (RcodeToString : Z -> gostring).

Definition type_label (qtype : Z) : gostring :=
  let label := TypeToString qtype in if bytes_eqb label [] then str "TYPE" ++ Itoa qtype else label.

Definition addr_text (a : IP) : gostring := match a with [] => [] | _ => IP_String a end.

Definition convertMessage (m : TapMessage) : option UnboundQueryLog :=
  let done_ (e : Z * gostring * gostring * gostring * Z * bool * Z * Z) :=
    let '(ts, domain, qt, code, ms, ad, answers, size) := e in
    Some (MkUnboundQueryLog 0 ts (type_text (t_type m)) domain qt code ms ad answers size (addr_text (t_qaddr m)) (addr_text (t_raddr m)) false) in
  match t_type m with
  | TClientQuery | TResolverQuery =>
      wire ← t_query m;
      msg ← Unpack wire;
      match Msg_Question msg with
      | [] => None
      | q :: _ => done_ (nsecToTime (default 0 (t_qsec m)) (default 0 (t_qnsec m)), q_Name q, type_label (q_Qtype q), [], 0, false, 0, 0)
      end
  | TClientResponse | TResolverResponse =>
      wire ← t_response m;
      msg ← Unpack wire;
      match Msg_Question msg with
      | [] => None
      | q :: _ =>
          let ts := nsecToTime (default 0 (t_rsec m)) (default 0 (t_rnsec m)) in
          let ms := match t_qsec m, t_rsec m with
                    | Some s, Some _ => ms_of_us (Microseconds (Sub ts (nsecToTime s (default 0 (t_qnsec m)))))
                    | _, _ => 0
                    end in
          done_ (ts, q_Name q, type_label (q_Qtype q), RcodeToString (Rcode msg), ms, AuthenticatedData msg,
                 Z.of_nat (length (Answer msg)), Z.of_nat (length wire))
      end
  | TOther _ => None
  end.

(** A frame: one that does not unmarshal, one without a message, or a message. *)
Inductive Frame := BadFrame | NoMessage | Tap (m : TapMessage).

(** [handleConnection]: the entries given to the callback, until the stream ends or
    the context is found cancelled before a frame. *)
Fixpoint handle_frames (cancelled : nat -> bool) (i : nat) (frames : list Frame) : list UnboundQueryLog :=
  match frames with
  | [] => []
  | f :: rest =>
      if cancelled i then []
      else (match f with Tap m => option_list (convertMessage m) | _ => [] end) ++ handle_frames cancelled (S i) rest
  end.

Definition handleConnection (decoder_ok : bool) (cancelled : nat -> bool) (frames : list Frame) : list UnboundQueryLog :=
  if decoder_ok then handle_frames cancelled 0 frames else [].

(** ** The table of events *)

(** The column types of unbound_queries: the time is a text. *)
Record EventRow := MkEvent { e_ts : gostring; e_log : UnboundQueryLog }.

(** The worker has a batch in hand, or has returned. *)
Inductive Worker := Batching (batch : list UnboundQueryLog) | Returned.

(** [flushed]: the batches written, with the outcome of their transaction. *)
Record UStore := MkUStore {
  u_closed : bool; u_buffer : list UnboundQueryLog; u_worker : Worker; u_flushed : list (bool * list UnboundQueryLog) }.

Definition new_ustore : UStore := MkUStore false [] (Batching []) [].

(** [LogUnboundQuery] when no [Close] runs in between (QueryStore.v has the race). *)
Definition LogUnboundQuery (q : UnboundQueryLog) (u : UStore) : option LogError * UStore :=
  if u_closed u then (Some ErrClosed, u)
  else if (length (u_buffer u) <? 1000)%nat then (None, MkUStore false (u_buffer u ++ [q]) (u_worker u) (u_flushed u))
  else (Some ErrBufferFull, u).

(** The closure [flush]; [ok]: the transaction commits. *)
Definition flush (ok : bool) (batch : list UnboundQueryLog) (done_ : list (bool * list UnboundQueryLog)) : list (bool * list UnboundQueryLog) :=
  match batch with [] => done_ | _ => done_ ++ [(ok, batch)] end.

(** One round of [unboundFlushWorker]: the channel, or the ticker. *)
Definition worker_recv (ok : bool) (u : UStore) : option UStore :=
  match u_worker u with
  | Returned => None
  | Batching batch =>
      match u_buffer u with
      | q :: rest =>
          let batch := batch ++ [q] in
          if (100 <=? length batch)%nat then Some (MkUStore (u_closed u) rest (Batching []) (flush ok batch (u_flushed u)))
          else Some (MkUStore (u_closed u) rest (Batching batch) (u_flushed u))
      | [] => if u_closed u then Some (MkUStore true [] Returned (flush ok batch (u_flushed u))) else None
      end
  end.

Definition worker_tick (ok : bool) (u : UStore) : option UStore :=
  match u_worker u with
  | Returned => None
  | Batching batch => Some (MkUStore (u_closed u) (u_buffer u) (Batching []) (flush ok batch (u_flushed u)))
  end.

(** The part of [Close] for this channel. *)
Definition close_unbound (u : UStore) : UStore := MkUStore true (u_buffer u) (u_worker u) (u_flushed u).

(** [flushUnboundBatch]: the rows of the transactions that committed, with the time
    as text. *)
Definition event_table {T : TimeText} (u : UStore) : list EventRow :=
  map (fun e => MkEvent (FormatTimestamp (ReplyBuffer.Timestamp e)) e) (concat (map snd (List.filter fst (u_flushed u)))).

(** ** The callback and runs *)

Record Sink := MkSink { k_replies : ReplyBuffer; k_store : option UStore; k_accepted : list UnboundQueryLog }.

(** The callback main installs; [None]: a panic. *)
Definition dnstap_callback (e : UnboundQueryLog) (k : Sink) : option Sink :=
  b ← ReplyBuffer.Add (Some e) (k_replies k);
  Some (match k_store k with
        | None => MkSink b None (k_accepted k)
        | Some u => let '(err, u') := LogUnboundQuery e u in
                    MkSink b (Some u') (match err with None => k_accepted k ++ [e] | Some _ => k_accepted k end)
        end).

Inductive Label := LTap (m : TapMessage) | LRecv (ok : bool) | LTick (ok : bool) | LClose.

Definition on_store (f : UStore -> option UStore) (k : Sink) : option Sink :=
  u ← k_store k; u' ← f u; Some (MkSink (k_replies k) (Some u') (k_accepted k)).

(** A step that is blocked leaves the state; a panic is [None]. *)
Definition tap_step (k : Sink) (l : Label) : option Sink :=
  match l with
  | LTap m => match convertMessage m with Some e => dnstap_callback e k | None => Some k end
  | LRecv ok => Some (default k (on_store (worker_recv ok) k))
  | LTick ok => Some (default k (on_store (worker_tick ok) k))
  | LClose => Some (default k (on_store (fun u => Some (close_unbound u)) k))
  end.

Fixpoint tap_run (k : Sink) (ls : list Label) : option Sink :=
  match ls with [] => Some k | l :: ls' => k' ← tap_step k l; tap_run k' ls' end.

(** The messages of a run that become entries, in order. *)
Definition tapped (ls : list Label) : list UnboundQueryLog :=
  omap (fun l => match l with LTap m => convertMessage m | _ => None end) ls.

End reader.

(** ** Reading the table *)

Record UnboundQueryFilter := MkUFilter {
  uf_Domain : gostring; uf_QueryType : gostring; uf_MessageType : gostring; uf_RCode : gostring; uf_Cached : option bool;
  uf_Start : gostring; uf_End : gostring }.

Definition when_set (v : gostring) (b : bool) : bool := bytes_eqb v [] || b.

(** The WHERE clause; the bounds are compared as texts. *)
Definition event_matches (f : UnboundQueryFilter) (r : EventRow) : bool :=
  let e := e_log r in
  when_set (uf_Domain f) (like (percent :: uf_Domain f ++ [percent]) (ToLower (l_Domain e))) &&
  when_set (uf_QueryType f) (bytes_eqb (l_QueryType e) (uf_QueryType f)) &&
  when_set (uf_MessageType f) (bytes_eqb (MessageType e) (uf_MessageType f)) &&
  when_set (uf_RCode f) (bytes_eqb (l_ResponseCode e) (uf_RCode f)) &&
  (match uf_Cached f with Some b => Bool.eqb (l_CachedInUnbound e) b | None => true end) &&
  when_set (uf_Start f) (text_leb (uf_Start f) (e_ts r)) && when_set (uf_End f) (text_leb (e_ts r) (uf_End f)).

Definition event_newer (a b : EventRow) : Prop := str_le (e_ts b) (e_ts a).
#[global] Instance event_newer_dec : RelDecision event_newer.
Proof. intros a b. unfold event_newer. apply _. Defined.

Definition GetUnboundQueries (f : UnboundQueryFilter) (limit offset : Z) (rows : list EventRow) : list EventRow :=
  limit_offset limit offset (merge_sort event_newer (List.filter (event_matches f) rows)).

(** The averages apart, which are floats. *)
Record UnboundQueryStats := MkUStats {
  us_Total : Z; us_CacheHits : Z; us_HitRate : Z; us_Recursive : Z; us_DNSSECPct : Z; us_Codes : gmap gostring Z }.

Definition count_code (m : gmap gostring Z) (r : EventRow) : gmap gostring Z :=
  let c := l_ResponseCode (e_log r) in <[c := default 0 (m !! c) + 1]> m.

Definition GetUnboundQueryStats {T : TimeText} {F : Floats} (since : Z) (rows : list EventRow) : UnboundQueryStats :=
  let found := List.filter (fun r => bytes_eqb (MessageType (e_log r)) CLIENT_RESPONSE && text_leb (FormatTimestamp since) (e_ts r)) rows in
  let count p := Z.of_nat (length (List.filter p found)) in
  let total := Z.of_nat (length found) in
  let hits := count (fun r => l_CachedInUnbound (e_log r)) in
  let dnssec := count (fun r => l_DNSSECValidated (e_log r)) in
  MkUStats total hits (if 0 <? total then percent_of hits total else 0) (count (fun r => negb (l_CachedInUnbound (e_log r))))
    (if 0 <? total then percent_of dnssec total else 0) (foldl count_code ∅ found).

Section handlers.
Context (parse_rfc3339 : gostring -> option Z).

(** The storage is the rows and whether the statement succeeds. *)
Definition EventLog : Type := list EventRow * bool.

Record EventsResponse := MkEvents { er_queries : list EventRow; er_total : Z; er_limit : Z; er_offset : Z }.

Definition event_filter (q : Form) : UnboundQueryFilter :=
  let cached := FormValue q "cached" in
  MkUFilter (FormValue q "domain") (FormValue q "type") (FormValue q "message_type") (FormValue q "rcode")
    (if bytes_eqb cached [] then None else Some (bytes_eqb cached (str "true") || bytes_eqb cached (str "1")))
    (FormValue q "start") (FormValue q "end").

Definition handleGetUnboundQueries (stor : option EventLog) (q : Form) : result Z EventsResponse :=
  match stor with
  | None => Err 503
  | Some (rows, ok) =>
      let limit := int_param (FormValue q "limit") 100 1 1000 in
      let offset := int_param (FormValue q "offset") 0 0 max_int in
      if ok then let found := GetUnboundQueries (event_filter q) limit offset rows in
                 Ok (MkEvents found (Z.of_nat (length found)) limit offset)
      else Err 500
  end.

Definition handleGetUnboundQueryStats {T : TimeText} {F : Floats} (now : Z) (stor : option EventLog) (q : Form) : result Z UnboundQueryStats :=
  match stor with
  | None => Err 503
  | Some (rows, ok) =>
      let since := match FormValue q "since" with
                   | [] => now - 24 * Hour_ns
                   | p => default (now - 24 * Hour_ns) (parse_rfc3339 p)
                   end in
      if ok then Ok (GetUnboundQueryStats since rows) else Err 500
  end.

End handlers.

(** ** unbound-control *)

Record Stats := MkStats {
  TotalQueries : Z; CacheHits : Z; CacheMiss : Z; CacheHitRate : Z; AvgRecursionMs : Z; MsgCacheCount : Z; RRSetCacheCount : Z;
  MemTotalBytes : Z; UptimeSeconds : Z; QueryTypes : gmap gostring Z; ResponseCodes : gmap gostring Z }.

Definition zero_Stats : Stats := MkStats 0 0 0 0 0 0 0 0 0 ∅ ∅.

Section stats.
Context {F : Floats}.

(** [strings.SplitN(line, "=", 2)], both sides trimmed *)
Definition split_stat (line : gostring) : option (gostring * gostring) :=
  i ← IndexByte line "="%char; Some (TrimSpace (take i line), TrimSpace (drop (S i) line)).

Definition type_key_prefix : gostring := str "num.query.type.".
Definition code_key_prefix : gostring := str "num.answer.rcode.".

(** The switch on the key. *)
Definition set_stat (s : Stats) (key val : gostring) : Stats :=
  let n := ParseInt_value val in
  let '(MkStats tq ch cm hr av mc rc mt up qt rr) := s in
  if bytes_eqb key (str "total.num.queries") then MkStats n ch cm hr av mc rc mt up qt rr
  else if bytes_eqb key (str "total.num.cachehits") then MkStats tq n cm hr av mc rc mt up qt rr
  else if bytes_eqb key (str "total.num.cachemiss") then MkStats tq ch n hr av mc rc mt up qt rr
  else if bytes_eqb key (str "total.recursion.time.avg") then MkStats tq ch cm hr (times_1000 (ParseFloat_value val)) mc rc mt up qt rr
  else if bytes_eqb key (str "msg.cache.count") then MkStats tq ch cm hr av n rc mt up qt rr
  else if bytes_eqb key (str "rrset.cache.count") then MkStats tq ch cm hr av mc n mt up qt rr
  else if bytes_eqb key (str "mem.total.sbrk") then MkStats tq ch cm hr av mc rc n up qt rr
  else if bytes_eqb key (str "time.up") then MkStats tq ch cm hr av mc rc mt (float_int64 (ParseFloat_value val)) qt rr
  else if HasPrefix key type_key_prefix then MkStats tq ch cm hr av mc rc mt up (<[TrimPrefix key type_key_prefix := n]> qt) rr
  else if HasPrefix key code_key_prefix then MkStats tq ch cm hr av mc rc mt up qt (<[TrimPrefix key code_key_prefix := n]> rr)
  else s.

Definition stat_line (s : Stats) (line : gostring) : Stats :=
  match split_stat line with Some (key, val) => set_stat s key val | None => s end.

Definition parseStats (output : gostring) : Stats :=
  let s := foldl stat_line zero_Stats (SplitByte output (chr 10)) in
  let '(MkStats tq ch cm hr av mc rc mt up qt rr) := s in
  MkStats tq ch cm (if 0 <? tq then percent_of ch tq else 0) av mc rc mt up qt rr.

(** [GetStats]; [run]: the output of unbound-control, when it succeeds. *)
Definition GetStats (controlBin : gostring) (run : option gostring) : option Stats :=
  if bytes_eqb controlBin [] then None else parseStats <$> run.

(** [handleGetUnboundStats] behind its guard. *)
Definition handleGetUnboundStats (supervisor : option (gostring * option gostring)) : result Z Stats :=
  match supervisor with
  | None => Err 503
  | Some (bin, run) => match GetStats bin run with Some s => Ok s | None => Err 500 end
  end.

End stats.

(** ** From the socket to the table *)

Section pipeline.
Context {D : DnsLib} {W : DnsWire} {F : Floats} (RcodeToString : Z -> gostring).
Notation convert := (convertMessage RcodeToString).
Notation taps := (tapped RcodeToString).

Lemma convert_uncached m e : convert m = Some e -> l_CachedInUnbound e = false.
Proof.
  unfold convertMessage. destruct (t_type m); try done.
  all: destruct (t_query m), (t_response m); cbn [mbind option_bind]; try done.
  all: destruct (Unpack _) as [msg|]; cbn [mbind option_bind]; [|done]; by destruct (Msg_Question msg); [|intros [= <-]].
Qed.

Definition hand (u : UStore) : list UnboundQueryLog := match u_worker u with Batching b => b | Returned => [] end.

Definition conserved (accepted : list UnboundQueryLog) (u : UStore) : Prop :=
  accepted = concat (map snd (u_flushed u)) ++ hand u ++ u_buffer u /\ (u_worker u = Returned -> u_buffer u = [] /\ u_closed u = true).

Lemma flush_concat ok b fl : concat (map snd (flush ok b fl)) = concat (map snd fl) ++ b.
Proof. destruct b; cbn; [by rewrite app_nil_r|]. rewrite map_app, concat_app. cbn. by rewrite app_nil_r. Qed.

Lemma recv_conserved ok a u u' : conserved a u -> worker_recv ok u = Some u' -> conserved a u'.
Proof.
  unfold conserved, worker_recv, hand. intros [-> Hr] H. destruct (u_worker u) as [b|]; [|done].
  destruct (u_buffer u) as [|q rest]; [destruct (u_closed u); [|done]; injection H as <-|destruct (_ <=? _)%nat; injection H as <-];
    cbn; rewrite ?flush_concat, ?app_nil_r, <- ?app_assoc; done.
Qed.

Lemma tick_conserved ok a u u' : conserved a u -> worker_tick ok u = Some u' -> conserved a u'.
Proof.
  unfold conserved, worker_tick, hand. intros [-> Hr] H. destruct (u_worker u) as [b|]; [|done]. injection H as <-.
  cbn. by rewrite flush_concat, <- app_assoc.
Qed.

Lemma log_conserved q a u :
  conserved a u -> let '(err, u') := LogUnboundQuery q u in conserved (match err with None => a ++ [q] | Some _ => a end) u'.
Proof.
  intros Hc. unfold LogUnboundQuery. destruct (u_closed u) eqn:Ec; [exact Hc|]. destruct (_ <? _)%nat; [|exact Hc].
  destruct Hc as [-> Hr]. unfold conserved, hand. cbn. split; [by rewrite <- !app_assoc|]. intros H. apply Hr in H as [_ H]. congruence.
Qed.

(** The state after the labels [ls]. *)
Record tap_inv (n : nat) (ls : list Label) (k : Sink) : Prop := MkTapInv {
  ti_replies : ReplyBuffer.holds n (k_replies k) (ReplyBuffer.history (map Some (taps ls)));
  ti_store : exists u, k_store k = Some u /\ conserved (k_accepted k) u;
  ti_accepted : sublist (k_accepted k) (taps ls) }.

Lemma taps_snoc ls l : taps (ls ++ [l]) = taps ls ++ (match l with LTap m => option_list (convert m) | _ => [] end).
Proof. unfold tapped. rewrite omap_app. f_equal. destruct l as [m| | |]; cbn; by try destruct (convert m). Qed.

Lemma on_store_inv n ls l k f :
  tap_inv n ls k -> (forall a u u', conserved a u -> f u = Some u' -> conserved a u') -> (match l with LTap _ => False | _ => True end) ->
  tap_inv n (ls ++ [l]) (default k (on_store f k)).
Proof.
  intros [H1 (u & Hu & Hc) H3] Hf Hl. assert (taps (ls ++ [l]) = taps ls) as E.
  { rewrite taps_snoc. by destruct l; [|rewrite app_nil_r..]. }
  unfold on_store. rewrite Hu. cbn. destruct (f u) as [u'|] eqn:Ef; cbn; split; rewrite ?E; cbn; try done.
  - exists u'. split; [done|]. by eapply Hf.
  - by exists u.
Qed.

Lemma tap_step_inv n ls k l : tap_inv n ls k -> exists k', tap_step RcodeToString k l = Some k' /\ tap_inv n (ls ++ [l]) k'.
Proof.
  intros Hk. destruct l as [m|ok|ok|]; cbn [tap_step].
  - destruct (convert m) as [e|] eqn:Ee.
    + destruct Hk as [H1 (u & Hu & Hc) H3]. unfold dnstap_callback.
      destruct (ReplyBuffer.Add_holds n (k_replies k) _ (Some e) H1) as (b & -> & Hb). cbn [mbind option_bind]. rewrite Hu.
      pose proof (log_conserved e (k_accepted k) u Hc) as Hlog. destruct (LogUnboundQuery e u) as [err u'].
      eexists. split; [done|]. split; cbn [k_replies k_store k_accepted]; rewrite ?taps_snoc, ?Ee; try change (option_list (Some e)) with [e].
      * rewrite map_app. unfold ReplyBuffer.history in *. rewrite omap_app, reverse_app. cbn [map].
        assert (reverse (omap client_response [Some e]) = option_list (client_response (Some e))) as -> by
          (rewrite omap_cons_eq; by destruct (client_response (Some e))). exact Hb.
      * eauto.
      * destruct err; [by apply sublist_inserts_r|by apply sublist_app].
    + exists k. split; [done|]. destruct Hk as [H1 H2 H3]. by split; rewrite ?taps_snoc, ?Ee; cbn; rewrite ?app_nil_r.
  - eexists. split; [done|]. apply on_store_inv; [done|apply recv_conserved|done].
  - eexists. split; [done|]. apply on_store_inv; [done|apply tick_conserved|done].
  - eexists. split; [done|]. apply on_store_inv; [done| |done]. intros a u u' [-> Hr] [= <-]. split; [done|]. cbn. intros H. by apply Hr in H as [? _].
Qed.

Lemma tap_run_inv n ls ls' k : tap_inv n ls k -> exists k', tap_run RcodeToString k ls' = Some k' /\ tap_inv n (ls ++ ls') k'.
Proof.
  revert ls k. induction ls' as [|l ls' IH]; intros ls k Hk; cbn [tap_run]; [exists k; by rewrite app_nil_r|].
  destruct (tap_step_inv n ls k l Hk) as (k1 & -> & Hk1). cbn [mbind option_bind]. destruct (IH _ _ Hk1) as (k2 & -> & Hk2).
  exists k2. split; [done|]. by rewrite <- app_assoc in Hk2.
Qed.

(** After the close, one round per event and one more end the worker. *)
Lemma drain oks k u :
  k_store k = Some u -> u_closed u = true -> length oks = S (length (u_buffer u)) ->
  exists k' u', tap_run RcodeToString k (map LRecv oks) = Some k' /\ k_store k' = Some u' /\ u_worker u' = Returned /\ k_accepted k' = k_accepted k.
Proof.
  revert k u. induction oks as [|ok oks IH]; intros k u Hu Hc Hl; cbn in Hl; [lia|]. cbn [map tap_run tap_step mbind option_bind].
  unfold on_store. rewrite Hu. cbn [mbind option_bind]. unfold worker_recv. destruct (u_worker u) as [b|] eqn:Ew.
  - destruct (u_buffer u) as [|q rest] eqn:Eb; cbn in Hl.
    + rewrite Hc. cbn [mbind option_bind default]. destruct oks; [|cbn in Hl; lia]. do 2 eexists. split; [done|]. done.
    + assert (forall u1, u_closed u1 = true -> u_buffer u1 = rest -> exists k' u',
        tap_run RcodeToString (MkSink (k_replies k) (Some u1) (k_accepted k)) (map LRecv oks) = Some k' /\ k_store k' = Some u' /\
        u_worker u' = Returned /\ k_accepted k' = k_accepted k) as H.
      { intros u1 H1 H2. apply (IH (MkSink (k_replies k) (Some u1) (k_accepted k)) u1); [done|done|rewrite H2; lia]. }
      destruct (_ <=? _)%nat; apply H; done.
  - cbn [mbind option_bind default]. clear -Hu Ew. exists k, u. split; [|done]. clear -Hu Ew.
    induction oks as [|ok' oks IH]; [done|]. cbn [map tap_run tap_step]. unfold on_store. rewrite Hu. cbn [mbind option_bind].
    unfold worker_recv. rewrite Ew. cbn. exact IH.
Qed.

Lemma rows_accepted {T : TimeText} a u : conserved a u -> forall r, r ∈ event_table u -> e_log r ∈ a.
Proof.
  intros [-> _] r Hr. unfold event_table in Hr. apply list_elem_of_In, in_map_iff in Hr as (e & <- & He). cbn.
  apply elem_of_app. left. apply in_concat in He as (b & Hb & He). apply in_map_iff in Hb as ([ok b'] & <- & Hb). apply filter_In in Hb as [Hb _].
  apply list_elem_of_In, in_concat. exists b'. split; [|done]. apply in_map_iff. by exists (ok, b').
Qed.

Lemma taps_uncached ls e : e ∈ taps ls -> l_CachedInUnbound e = false.
Proof.
  unfold tapped. intros H. apply list_elem_of_omap in H as (l & _ & H). destruct l; [|done..]. by eapply convert_uncached.
Qed.

Lemma count_codes rows m :
  map_fold (fun _ v a => v + a) 0 (foldl count_code m rows) = map_fold (fun _ v a => v + a) 0 m + Z.of_nat (length rows).
Proof.
  revert m. induction rows as [|r rows IH]; intros m; cbn [foldl length]; [lia|]. rewrite IH. unfold count_code.
  set (c := l_ResponseCode (e_log r)). assert (forall x v (m : gmap gostring Z), m !! x = None -> map_fold (fun _ v a => v + a) 0 (<[x := v]> m) = v + map_fold (fun _ v a => v + a) 0 m) as Hi.
  { intros x v m' Hm. apply map_fold_insert_L; [|done]. intros. lia. }
  destruct (m !! c) as [v|] eqn:Ec; cbn [default].
  - assert (map_fold (fun _ v a => v + a) 0 m = v + map_fold (fun _ v a => v + a) 0 (delete c m)) as ->.
    { rewrite <- (Hi c v (delete c m)) by apply lookup_delete_eq. by rewrite insert_delete_id. }
    rewrite <- insert_delete_eq, (Hi c _ (delete c m)) by apply lookup_delete_eq. cbn. lia.
  - rewrite Hi by done. cbn. lia.
Qed.

Lemma reply_uncached ls n cutoff d q e :
  In e (filter (fun e => reply_matches d q e = true) (fresh_prefix cutoff (take n (ReplyBuffer.history (map Some (taps ls)))))) ->
  r_cachedInUnbound e = false.
Proof.
  intros H. apply list_elem_of_In, list_elem_of_filter in H as [_ H].
  assert (e ∈ take n (ReplyBuffer.history (map Some (taps ls)))) as H'.
  { revert H. generalize (take n (ReplyBuffer.history (map Some (taps ls)))). intros l. induction l as [|x l IH]; cbn; [done|].
    destruct (_ <? _); [by intros H%elem_of_nil|]. rewrite !elem_of_cons. tauto. }
  apply elem_of_take in H' as (i & H' & _). apply list_elem_of_lookup_2 in H'. unfold ReplyBuffer.history in H'.
  rewrite elem_of_reverse in H'. apply list_elem_of_omap in H' as (o & Ho & E). apply list_elem_of_fmap in Ho as (x & -> & Hx).
  cbn in E. destruct (bytes_eqb _ _); [|done]. injection E as <-. cbn. by apply (taps_uncached ls).
Qed.

Lemma hd_error_in {A} (l : list A) x : List.hd_error l = Some x -> In x l.
Proof. destruct l; cbn; [done|]. intros [= ->]. by left. Qed.

Lemma filter_all {A} (p : A -> bool) l : (forall x, In x l -> p x = true) -> List.filter p l = l.
Proof. induction l as [|x l IH]; cbn; [done|]. intros H. rewrite H by by left. f_equal. apply IH. intros y Hy. apply H. by right. Qed.

Lemma stats_uncached {T : TimeText} since rows :
  (forall r, r ∈ rows -> l_CachedInUnbound (e_log r) = false) ->
  let s := GetUnboundQueryStats since rows in
  us_CacheHits s = 0 /\ us_Recursive s = us_Total s /\ map_fold (fun _ v a => v + a) 0 (us_Codes s) = us_Total s.
Proof.
  intros Hun. cbv zeta. unfold GetUnboundQueryStats. cbn [us_CacheHits us_Recursive us_Total us_Codes].
  set (found := List.filter _ rows).
  assert (forall r, In r found -> l_CachedInUnbound (e_log r) = false) as Hf.
  { intros r Hr. apply filter_In in Hr as [Hr _]. by apply Hun, list_elem_of_In. }
  split; [|split].
  - rewrite filter_none; [done|]. intros r Hr. by apply Hf, list_elem_of_In.
  - rewrite filter_all; [done|]. intros r Hr. by rewrite Hf.
  - by rewrite count_codes.
Qed.

(** C34: Unbound's events from the socket to the tables.  In every interleaving of
    messages, rounds of the worker and ticks, with any transactions failing: nothing
    panics; every event that was accepted was written with its batch, is in the worker's
    hands or in the channel, in order and once; every row was accepted; a reply is the
    newest that matches; and after a close the worker returns within one round per
    buffered event and one more, with everything flushed.  The counters add up, but no
    event is ever marked as answered from Unbound's cache: the hits are always zero, and
    every client response is counted as recursive. *)
Theorem unbound_events {T : TimeText} (n : nat) (ls : list Label) (since : Z) (Hn : (0 < n)%nat) :
  exists b k u, NewReplyBuffer (Z.of_nat n) = Some b /\ tap_run RcodeToString (MkSink b (Some new_ustore) []) ls = Some k /\ k_store k = Some u /\
    sublist (k_accepted k) (taps ls) /\ k_accepted k = concat (map snd (u_flushed u)) ++ hand u ++ u_buffer u /\
    (forall r, r ∈ event_table u -> e_log r ∈ k_accepted k) /\
    (forall now d q maxAge, exists found, FindReply now d q maxAge (k_replies k) = Some found /\
       found = spec_find (cutoff_of now maxAge) (ToLower d) q (take n (ReplyBuffer.history (map Some (taps ls)))) /\
       forall m, found = Some m -> CachedInUnbound m = false) /\
    (let s := GetUnboundQueryStats since (event_table u) in
     us_CacheHits s = 0 /\ us_Recursive s = us_Total s /\ map_fold (fun _ v a => v + a) 0 (us_Codes s) = us_Total s) /\
    (forall oks, length oks = S (length (u_buffer u)) -> exists k' u', tap_run RcodeToString k (LClose :: map LRecv oks) = Some k' /\
       k_store k' = Some u' /\ u_worker u' = Returned /\ concat (map snd (u_flushed u')) = k_accepted k).
Proof.
  destruct (ReplyBuffer.new_holds n Hn) as (b & Hb & Hh). exists b.
  assert (tap_inv n [] (MkSink b (Some new_ustore) [])) as H0.
  { split; [exact Hh|exists new_ustore; split; [done|by split]|done]. }
  destruct (tap_run_inv n [] ls _ H0) as (k & Hk & [H1 (u & Hu & Hc) H3]). cbn [app] in *. exists k, u.
  pose proof (rows_accepted (k_accepted k) u Hc) as Hrows.
  assert (forall r, r ∈ event_table u -> l_CachedInUnbound (e_log r) = false) as Hun.
  { intros r Hr. apply (taps_uncached ls). eapply elem_of_sublist; [by apply Hrows|exact H3]. }
  split_and!; try done; try (by destruct Hc); try (by apply stats_uncached).
  - intros now d q maxAge. eexists. split; [by apply (ReplyBuffer.FindReply_spec n)|]. split; [done|].
    intros m Hm. unfold spec_find in Hm. apply fmap_Some in Hm as (e & He & ->). cbn.
    eapply (reply_uncached ls n (cutoff_of now maxAge)). by apply hd_error_in in He.
  - intros oks Hl. cbn [tap_run tap_step]. unfold on_store. rewrite Hu. cbn [mbind option_bind].
    destruct (drain oks (MkSink (k_replies k) (Some (close_unbound u)) (k_accepted k)) (close_unbound u)) as (k' & u' & E1 & E2 & E3 & E4); [done..|].
    exists k', u'. split_and!; [exact E1|done|done|].
    assert (tap_inv n ls (MkSink (k_replies k) (Some (close_unbound u)) (k_accepted k))) as Hi.
    { split; [done| |done]. exists (close_unbound u). split; [done|]. destruct Hc as [Hc Hc']. split; [exact Hc|]. cbn. intros H. by apply Hc' in H as [? _]. }
    destruct (tap_run_inv n ls (map LRecv oks) _ Hi) as (k2 & Ek & [_ (u2 & Eu & Hc2) _]). rewrite E1 in Ek. injection Ek as <-.
    rewrite E2 in Eu. injection Eu as <-. destruct Hc2 as [Hc2 Hr]. destruct (Hr E3) as [Hb2 _]. cbn in E4. rewrite <- E4, Hc2, Hb2.
    unfold hand. rewrite E3. by rewrite !app_nil_r.
Qed.

End pipeline.

(** ** What the parser reads *)

(** The value of the last line with the key. *)
Definition last_value (k : gostring) (kvs : list (gostring * gostring)) : option gostring :=
  foldl (fun o kv => if bytes_eqb kv.1 k then Some kv.2 else o) None kvs.

Lemma last_value_snoc k kvs key val : last_value k (kvs ++ [(key, val)]) = if bytes_eqb key k then Some val else last_value k kvs.
Proof. unfold last_value. by rewrite foldl_app. Qed.

Section parsed.
Context {F : Floats}.

Definition num (k : string) (kvs : list (gostring * gostring)) : Z := from_option ParseInt_value 0 (last_value (str k) kvs).

(** The statistics are those of the pairs; the rate apart, which is set at the end. *)
Record stats_of (kvs : list (gostring * gostring)) (s : Stats) : Prop := MkStatsOf {
  so_total : TotalQueries s = num "total.num.queries" kvs;
  so_hits : CacheHits s = num "total.num.cachehits" kvs;
  so_miss : CacheMiss s = num "total.num.cachemiss" kvs;
  so_avg : AvgRecursionMs s = from_option (fun v => times_1000 (ParseFloat_value v)) 0 (last_value (str "total.recursion.time.avg") kvs);
  so_msg : MsgCacheCount s = num "msg.cache.count" kvs;
  so_rrset : RRSetCacheCount s = num "rrset.cache.count" kvs;
  so_mem : MemTotalBytes s = num "mem.total.sbrk" kvs;
  so_up : UptimeSeconds s = from_option (fun v => float_int64 (ParseFloat_value v)) 0 (last_value (str "time.up") kvs);
  so_types : forall t, QueryTypes s !! t = ParseInt_value <$> last_value (type_key_prefix ++ t) kvs;
  so_codes : forall c, ResponseCodes s !! c = ParseInt_value <$> last_value (code_key_prefix ++ c) kvs }.

Lemma prefixed_key p key t : HasPrefix key p = true -> bytes_eqb key (p ++ t) = bytes_eqb (TrimPrefix key p) t.
Proof.
  intros H. unfold TrimPrefix. rewrite H. apply HasPrefix_spec in H as [k ->]. rewrite drop_app_length.
  apply eq_iff_eq_true. rewrite !bytes_eqb_eq. split; [|by intros ->]. intros E. by apply app_inv_head in E.
Qed.

Lemma other_prefix p key t : HasPrefix key p = false -> bytes_eqb key (p ++ t) = false.
Proof.
  intros H. apply not_true_iff_false. intros E. apply bytes_eqb_eq in E as ->. by rewrite HasPrefix_app in H.
Qed.

Lemma bytes_eqb_insert (k v t : gostring) (m : gmap gostring Z) (o : option gostring) :
  (<[k := ParseInt_value v]> m) !! t = ParseInt_value <$> (if bytes_eqb k t then Some v else o) <->
  (bytes_eqb k t = false -> m !! t = ParseInt_value <$> o).
Proof.
  destruct (bytes_eqb k t) eqn:E.
  - apply bytes_eqb_eq in E as ->. rewrite lookup_insert_eq. done.
  - rewrite lookup_insert_ne; [tauto|]. intros ->. by rewrite bytes_eqb_refl in E.
Qed.

#[local] Ltac fields :=
  split; unfold num; try intros t; rewrite last_value_snoc;
  cbn [TotalQueries CacheHits CacheMiss AvgRecursionMs MsgCacheCount RRSetCacheCount MemTotalBytes UptimeSeconds QueryTypes ResponseCodes].

Lemma set_stat_of kvs s key val : stats_of kvs s -> stats_of (kvs ++ [(key, val)]) (set_stat s key val).
Proof.
  intros [H1 H2 H3 H4 H5 H6 H7 H8 H9 H10]. destruct s as [tq ch cm hr av mc rc mt up qt rr].
  cbn [TotalQueries CacheHits CacheMiss AvgRecursionMs MsgCacheCount RRSetCacheCount MemTotalBytes UptimeSeconds QueryTypes ResponseCodes] in *.
  unfold set_stat.
  assert (forall k, bytes_eqb key (str k) = true -> (forall t, bytes_eqb key (type_key_prefix ++ t) = HasPrefix (str k) type_key_prefix && bytes_eqb key (type_key_prefix ++ t)) /\
    (forall t, bytes_eqb key (code_key_prefix ++ t) = HasPrefix (str k) code_key_prefix && bytes_eqb key (code_key_prefix ++ t))) as Hk.
  { intros k E. apply bytes_eqb_eq in E as ->. split; intros t; (destruct (HasPrefix _ _) eqn:Ep; [done|by rewrite other_prefix]). }
  repeat match goal with
  | |- context [if bytes_eqb key (str ?k) then _ else _] =>
      let E := fresh "E" in destruct (bytes_eqb key (str k)) eqn:E;
      [destruct (Hk k E) as [T1 T2]; fields;
       try rewrite T1; try rewrite T2; try (apply bytes_eqb_eq in E as ->; done)|]
  end.
  destruct (HasPrefix key type_key_prefix) eqn:Ep.
  - fields; rewrite ?E, ?E0, ?E1, ?E2, ?E3, ?E4, ?E5, ?E6; try done.
    + rewrite prefixed_key by done. by apply bytes_eqb_insert.
    + apply HasPrefix_spec in Ep as [k ->]. done.
  - destruct (HasPrefix key code_key_prefix) eqn:Ec.
    + fields; rewrite ?E, ?E0, ?E1, ?E2, ?E3, ?E4, ?E5, ?E6; try done.
      * by rewrite other_prefix.
      * rewrite prefixed_key by done. by apply bytes_eqb_insert.
    + fields; rewrite ?E, ?E0, ?E1, ?E2, ?E3, ?E4, ?E5, ?E6; try done.
      * by rewrite other_prefix.
      * by rewrite other_prefix.
Qed.

Lemma stats_of_zero : stats_of [] zero_Stats.
Proof. by split. Qed.

Lemma stat_lines_of lines kvs s : stats_of kvs s -> stats_of (kvs ++ omap split_stat lines) (foldl stat_line s lines).
Proof.
  revert kvs s. induction lines as [|l lines IH]; intros kvs s H; [by rewrite app_nil_r|].
  rewrite omap_cons_eq. cbn [foldl]. unfold stat_line at 2. destruct (split_stat l) as [[key val]|]; [|by apply IH].
  cbn [option_list app]. change ((key, val) :: ?k) with ([(key, val)] ++ k). rewrite app_assoc. by apply IH, set_stat_of.
Qed.

(** The statistics of unbound-control: every line that is a pair sets the field its
    key names, the last of a key holds, lines without an equals sign and other keys
    count for nothing, and the hit rate is that of the fields read. *)
Theorem stats_parsed (lines : list gostring) (Hne : lines <> []) (Hl : Forall (fun l => chr 10 ∉ l) lines) :
  let s := parseStats (GoStrings.Join lines [chr 10]) in
  stats_of (omap split_stat lines) s /\
  CacheHitRate s = if 0 <? TotalQueries s then percent_of (CacheHits s) (TotalQueries s) else 0.
Proof.
  intros s. subst s. unfold parseStats. rewrite SplitByte_Join_elems by done.
  pose proof (stat_lines_of lines [] zero_Stats stats_of_zero) as H. cbn [app] in H.
  destruct (foldl stat_line zero_Stats lines) as [tq ch cm hr av mc rc mt up qt rr]. split; [|done].
  destruct H as [H1 H2 H3 H4 H5 H6 H7 H8 H9 H10]. by split.
Qed.

End parsed.

(** ** A concrete stream *)

(** Floats that are integers: enough for the witnesses. *)
Definition whole_floats : Floats := {|
  ms_of_us n := Z.quot n 1000; ParseFloat_value := ParseInt_value; times_1000 n := 1000 * n; float_int64 n := n;
  percent_of a b := Z.quot (100 * a) b |}.

Definition sample_tap (t : TapType) : TapMessage :=
  MkTap t (Some (str "query")) (Some (str "query")) (Some 1) (Some 0) (Some 1) (Some 5000000) [] [].

Lemma unbound_events_witness :
  exists k u, @tap_run simple_dns simple_wire whole_floats (fun _ => str "NOERROR")
      (MkSink (MkReplyBuffer (replicate 2 zero_entry) 0 0) (Some new_ustore) [])
      [LTap (sample_tap TClientResponse); LTap (sample_tap (TOther (str "AUTH_QUERY"))); LRecv true; LTap (sample_tap TClientQuery); LTick true] = Some k /\
    k_store k = Some u /\ length (@event_table flat_text u) = 1%nat /\ length (u_buffer u) = 1%nat /\
    us_CacheHits (@GetUnboundQueryStats flat_text whole_floats 0 (@event_table flat_text u)) = 0.
Proof.
  destruct (@unbound_events simple_dns simple_wire whole_floats (fun _ => str "NOERROR") flat_text 2
    [LTap (sample_tap TClientResponse); LTap (sample_tap (TOther (str "AUTH_QUERY"))); LRecv true; LTap (sample_tap TClientQuery); LTick true]
    0 ltac:(lia)) as (b & k & u & Hb & Hk & Hu & _ & _ & _ & _ & (H0 & _) & _).
  vm_compute in Hb. injection Hb as <-. exists k, u. split; [exact Hk|]. split; [exact Hu|].
  vm_compute in Hk. injection Hk as <-. vm_compute in Hu. injection Hu as <-. split; [by vm_compute|]. split; [by vm_compute|exact H0].
Defined.

Lemma stats_parsed_witness :
  let s := @parseStats whole_floats (GoStrings.Join [str "total.num.queries=8"; str "noise"; str "total.num.cachehits = 6"; str "num.query.type.A=5"] [chr 10]) in
  TotalQueries s = 8 /\ CacheHits s = 6 /\ CacheHitRate s = 75 /\ QueryTypes s !! str "A" = Some 5.
Proof.
  intros s. destruct (@stats_parsed whole_floats [str "total.num.queries=8"; str "noise"; str "total.num.cachehits = 6"; str "num.query.type.A=5"])
    as [[H1 H2 _ _ _ _ _ _ H9 _] Hr]; [done| |].
  { repeat (constructor; [apply (bool_decide_unpack _); by vm_compute|]). constructor. }
  fold s in H1, H2, H9, Hr. rewrite Hr, H1, H2, (H9 (str "A")). by vm_compute.
Defined.
