(* ===== verification/Timestamps.v ===== *)
(** * The texts of times (pkg/storage/sqlite_time.go, sqlite.go;
    scripts/migrate-timestamps.go)

    The database keeps times as texts and compares them as texts.  This file has the
    calendar, [Time.Format] and [time.Parse] for the layouts of the storage, the texts
    the class [TimeText] of QueryStore.v stands for, the parser of the texts read back,
    and what the comparisons of the statements mean for the times.  The offset and the
    name of the local zone are functions of the instant, as in the zone database. *)

From Stdlib Require Import Ascii.
From S2P Require Import Prelude GoStrings GoStrconv GoTime Sql Migrations QueryStore QueryReads.
From stdpp Require Import sorting options.
Local Open Scope Z_scope.

(** ** The calendar *)

Record Date := MkDate { d_year : Z; d_month : Z; d_day : Z }.

Definition leap (y : Z) : bool := (y mod 4 =? 0) && (negb (y mod 100 =? 0) || (y mod 400 =? 0)).

Definition daysIn (m y : Z) : Z :=
  if m =? 2 then if leap y then 29 else 28
  else if (m =? 4) || (m =? 6) || (m =? 9) || (m =? 11) then 30 else 31.

Definition valid_date (d : Date) : Prop := 1 <= d_month d <= 12 /\ 1 <= d_day d <= daysIn (d_month d) (d_year d).

(** The years begin in March, so that a leap day is the last of its year. *)
Definition march_year (d : Date) : Z := if d_month d <=? 2 then d_year d - 1 else d_year d.
Definition march_month (m : Z) : Z := if m <=? 2 then m + 9 else m - 3.

(** Days before a year, and before a day of it. *)
Definition year_days (y : Z) : Z := 365 * y + y / 4 - y / 100 + y / 400.
Definition doy_of (m d : Z) : Z := (153 * march_month m + 2) / 5 + d - 1.

Definition month_day (doy : Z) : Z * Z :=
  let mp := (5 * doy + 2) / 153 in (if mp <? 10 then mp + 3 else mp - 9, doy - (153 * mp + 2) / 5 + 1).

(** The year of a day of an era, 400 years that are 146097 days. *)
Definition era_year (doe : Z) : Z := (doe - doe / 1460 + doe / 36524 - doe / 146096) / 365.

(** Days from the first of January 1970. *)
Definition days_of (d : Date) : Z := year_days (march_year d) + doy_of (d_month d) (d_day d) - 719468.

Definition date_of (n : Z) : Date :=
  let z := n + 719468 in
  let doe := z mod 146097 in
  let yoe := era_year doe in
  let '(m, d) := month_day (doe - year_days yoe) in
  MkDate (yoe + 400 * (z / 146097) + (if m <=? 2 then 1 else 0)) m d.

(** ** Layouts *)

(** The pieces of a layout, by the reference time: 2006, 01, 02, 15, 04, 05,
    .999999999, Z07:00, -07:00, -0700, MST. *)
Inductive Elem := Year | Month | Day | Hour | Minute | Second | Frac | IsoZone | ColonZone | NumZone | Abbrev | Lit (c : ascii).

Definition date_layout : list Elem := [Year; Lit "-"; Month; Lit "-"; Day].
Definition clock_layout : list Elem := [Hour; Lit ":"; Minute; Lit ":"; Second].
Definition RFC3339Nano : list Elem := date_layout ++ [Lit "T"] ++ clock_layout ++ [Frac; IsoZone].
Definition RFC3339 : list Elem := date_layout ++ [Lit "T"] ++ clock_layout ++ [IsoZone].
Definition plain_layout : list Elem := date_layout ++ [Lit " "] ++ clock_layout.
Definition string_layout : list Elem := plain_layout ++ [Frac; Lit " "; NumZone; Lit " "; Abbrev].

(** A time with its zone. *)
Record Zoned := MkZoned { z_ns : Z; z_off : Z; z_abbr : gostring }.

Definition second_ns : Z := 1000000000.
Definition local_sec (z : Zoned) : Z := z_ns z / second_ns + z_off z.
Definition local_day (z : Zoned) : Z := local_sec z / 86400.

(** [appendInt]: at least so many digits. *)
Fixpoint low_digits (width : nat) (n : Z) : gostring :=
  match width with O => [] | S w => low_digits w (n / 10) ++ [digit (n mod 10)] end.

Definition pad (width : nat) (n : Z) : gostring :=
  (if n <? 0 then ["-"%char] else []) ++
  (if Z.abs n <? 10 ^ Z.of_nat width then low_digits width (Z.abs n) else Utoa (Z.abs n)).

(** The digits of a fraction, up to the last that is not zero. *)
Fixpoint frac_digits (k : nat) (n : Z) : gostring :=
  match k with
  | O => []
  | S k' => if n =? 0 then [] else digit (n / 10 ^ Z.of_nat k') :: frac_digits k' (n mod 10 ^ Z.of_nat k')
  end.

Definition frac_text (n : Z) : gostring := match frac_digits 9 n with [] => [] | ds => dot :: ds end.

Definition zone_text (colon : gostring) (off : Z) : gostring :=
  let m := Z.quot off 60 in
  (if m <? 0 then "-"%char else "+"%char) :: pad 2 (Z.abs m / 60) ++ colon ++ pad 2 (Z.abs m mod 60).

Definition format_elem (z : Zoned) (e : Elem) : gostring :=
  let d := date_of (local_day z) in
  let sod := local_sec z mod 86400 in
  match e with
  | Year => pad 4 (d_year d) | Month => pad 2 (d_month d) | Day => pad 2 (d_day d)
  | Hour => pad 2 (sod / 3600) | Minute => pad 2 (sod mod 3600 / 60) | Second => pad 2 (sod mod 60)
  | Frac => frac_text (z_ns z mod second_ns)
  | IsoZone => if z_off z =? 0 then str "Z" else zone_text [":"%char] (z_off z)
  | ColonZone => zone_text [":"%char] (z_off z)
  | NumZone => zone_text [] (z_off z)
  | Abbrev => match z_abbr z with [] => zone_text [] (z_off z) | a => a end
  | Lit c => [c]
  end.

Definition Format (layout : list Elem) (z : Zoned) : gostring := concat (map (format_elem z) layout).

(** [Time.String]; [mono]: the reading of the monotonic clock, when there is one. *)
Definition Time_String (z : Zoned) (mono : option gostring) : gostring :=
  Format string_layout z ++ match mono with Some m => str " m=" ++ m | None => [] end.

(** ** Parsing *)

Definition getnum (s : gostring) (fixed : bool) : option (Z * gostring) :=
  match s with
  | a :: s1 =>
      if is_digit a then
        match s1 with
        | b :: s2 => if is_digit b then Some (10 * (code a - 48) + (code b - 48), s2) else if fixed then None else Some (code a - 48, s1)
        | [] => if fixed then None else Some (code a - 48, [])
        end
      else None
  | [] => None
  end.

Fixpoint take_digits (s : gostring) : gostring * gostring :=
  match s with
  | c :: s' => if is_digit c then let '(ds, r) := take_digits s' in (c :: ds, r) else ([], s)
  | [] => ([], [])
  end.

(** [parseNanoseconds]: the first nine digits. *)
Definition frac_value (ds : gostring) : Z :=
  let ds := take 9 ds in default 0 (value_of ds 0) * 10 ^ (9 - Z.of_nat (length ds)).

Definition comma_or_period (c : ascii) : bool := bool_decide (c = dot) || bool_decide (c = ","%char).

(** A fraction at the start, if there is one. *)
Definition fraction (s : gostring) : option (Z * gostring) :=
  match s with
  | c :: (d :: _) as s' => if comma_or_period c && is_digit d then let '(ds, r) := take_digits (tl s) in Some (frac_value ds, r) else None
  | _ => None
  end.

Fixpoint cutspace (s : gostring) : gostring :=
  match s with c :: s' => if bool_decide (c = " "%char) then cutspace s' else s | [] => [] end.

Definition parseSignedOffset (s : gostring) : nat :=
  match s with
  | c :: r =>
      if bool_decide (c = "+"%char) || bool_decide (c = "-"%char) then
        match leadingInt r 0 with
        | Some (x, rem) => if (length rem =? length r)%nat || (23 <? x) then 0%nat else (length s - length rem)%nat
        | None => 0%nat
        end
      else 0%nat
  | [] => 0%nat
  end.

Definition is_upper (c : ascii) : bool := (65 <=? code c) && (code c <=? 90).

Fixpoint upper_run (fuel : nat) (s : gostring) : nat :=
  match fuel, s with
  | S fuel', c :: s' => if is_upper c then S (upper_run fuel' s') else 0%nat
  | _, _ => 0%nat
  end.

(** The length of the abbreviation at the start. *)
Definition parseTimeZone (s : gostring) : option nat :=
  if (length s <? 3)%nat then None
  else if bytes_eqb (take 4 s) (str "ChST") || bytes_eqb (take 4 s) (str "MeST") then Some 4%nat
  else if bytes_eqb (take 3 s) (str "GMT") then Some (3 + parseSignedOffset (drop 3 s))%nat
  else if bytes_eqb (take 1 s) (str "+") || bytes_eqb (take 1 s) (str "-") then
    match parseSignedOffset s with O => None | n => Some n end
  else match upper_run 6 s with
       | 5%nat => if bytes_eqb (take 1 (drop 4 s)) (str "T") then Some 5%nat else None
       | 4%nat => if bytes_eqb (take 1 (drop 3 s)) (str "T") || bytes_eqb (take 4 s) (str "WITA") then Some 4%nat else None
       | 3%nat => Some 3%nat
       | _ => None
       end.

(** What has been read; [f_utc]: the zone is UTC by its letter or name. *)
Record Fields := MkFields {
  f_year : Z; f_month : Z; f_day : Z; f_hour : Z; f_min : Z; f_sec : Z; f_nsec : Z; f_off : option Z; f_utc : bool }.

Definition no_fields : Fields := MkFields 0 1 1 0 0 0 0 None false.

Definition set_nsec (n : Z) (f : Fields) : Fields :=
  MkFields (f_year f) (f_month f) (f_day f) (f_hour f) (f_min f) (f_sec f) n (f_off f) (f_utc f).
Definition set_zone (o : option Z) (u : bool) (f : Fields) : Fields :=
  MkFields (f_year f) (f_month f) (f_day f) (f_hour f) (f_min f) (f_sec f) (f_nsec f) o u.

(** The hours and minutes of an offset. *)
Definition offset_at (width : nat) (s : gostring) : option (Z * gostring) :=
  match s with
  | sign :: r =>
      if (length s <? width)%nat then None
      else
        '(hr, _) ← getnum (take 2 r) true;
        '(mm, _) ← getnum (drop (width - 3) (take (width - 1) r)) true;
        if (24 <? hr) || (60 <? mm) then None
        else
          let off := (hr * 60 + mm) * 60 in
          if bool_decide (sign = "+"%char) then Some (off, drop width s)
          else if bool_decide (sign = "-"%char) then Some (- off, drop width s)
          else None
  | [] => None
  end.

Definition colon_offset (s : gostring) : option (Z * gostring) :=
  if bool_decide (s !! 3%nat = Some ":"%char) then offset_at 6 s else None.

(** The layout is looked at for a fraction to come. *)
Fixpoint frac_next (rest : list Elem) : bool :=
  match rest with Lit _ :: rest' => frac_next rest' | Frac :: _ => true | _ => false end.

Definition parse_elem (e : Elem) (rest : list Elem) (f : Fields) (s : gostring) : option (Fields * gostring) :=
  let '(MkFields y mo d h mi sec ns off utc) := f in
  match e with
  | Year =>
      let t := take 4 s in
      if (length t =? 4)%nat && forallb is_digit t then v ← value_of t 0; Some (MkFields v mo d h mi sec ns off utc, drop 4 s) else None
  | Month => '(v, r) ← getnum s true; if (v <=? 0) || (12 <? v) then None else Some (MkFields y v d h mi sec ns off utc, r)
  | Day => '(v, r) ← getnum s true; Some (MkFields y mo v h mi sec ns off utc, r)
  | Hour => '(v, r) ← getnum s false; if 24 <=? v then None else Some (MkFields y mo d v mi sec ns off utc, r)
  | Minute => '(v, r) ← getnum s true; if 60 <=? v then None else Some (MkFields y mo d h v sec ns off utc, r)
  | Second =>
      '(v, r) ← getnum s true;
      if 60 <=? v then None
      else let f' := MkFields y mo d h mi v ns off utc in
           match fraction r with
           | Some (n, r') => if frac_next rest then Some (f', r) else Some (set_nsec n f', r')
           | None => Some (f', r)
           end
  | Frac => match fraction s with Some (n, r) => Some (set_nsec n f, r) | None => Some (f, s) end
  | IsoZone =>
      match s with
      | c :: r => if bool_decide (c = "Z"%char) then Some (set_zone off true f, r)
                  else '(o, r') ← colon_offset s; Some (set_zone (Some o) utc f, r')
      | [] => None
      end
  | ColonZone => '(o, r) ← colon_offset s; Some (set_zone (Some o) utc f, r)
  | NumZone => '(o, r) ← offset_at 5 s; Some (set_zone (Some o) utc f, r)
  | Abbrev => if bytes_eqb (take 3 s) (str "UTC") then Some (set_zone off true f, drop 3 s)
              else n ← parseTimeZone s; Some (f, drop n s)
  | Lit c => match s with
             | x :: r => if bool_decide (x = c) then Some (f, if bool_decide (c = " "%char) then cutspace s else r) else None
             | [] => if bool_decide (c = " "%char) then Some (f, []) else None
             end
  end.

Fixpoint parse_layout (layout : list Elem) (f : Fields) (s : gostring) : option (Fields * gostring) :=
  match layout with
  | [] => Some (f, s)
  | e :: rest => '(f', s') ← parse_elem e rest f s; parse_layout rest f' s'
  end.

(** The instant and the offset. *)
Definition time_of (f : Fields) : option (Z * Z) :=
  if (f_day f <? 1) || (daysIn (f_month f) (f_year f) <? f_day f) then None
  else
    let sec := 86400 * days_of (MkDate (f_year f) (f_month f) (f_day f)) + 3600 * f_hour f + 60 * f_min f + f_sec f in
    let off := if f_utc f then 0 else default 0 (f_off f) in
    Some ((sec - off) * second_ns + f_nsec f, off).

(** [time.Parse]: nothing may be left over. *)
Definition Parse (layout : list Elem) (s : gostring) : option (Z * Z) :=
  '(f, rest) ← parse_layout layout no_fields s;
  match rest with [] => time_of f | _ => None end.

(** [time.Time{}]: the first of January of the year 1. *)
Definition zero_time : Z * Z := (days_of (MkDate 1 1 1) * 86400 * second_ns, 0).

Definition strip_mono (s : gostring) : gostring :=
  match GoStrings.Index s (str " m=") with Some (S i) => take (S i) s | _ => s end.

Fixpoint first_layout (layouts : list (list Elem)) (s : gostring) : option (Z * Z) :=
  match layouts with
  | [] => None
  | l :: ls => match Parse l s with Some t => Some t | None => first_layout ls s end
  end.

Definition sqlite_layouts : list (list Elem) :=
  [RFC3339Nano; RFC3339; plain_layout ++ [Frac; ColonZone]; plain_layout ++ [ColonZone]; string_layout;
   plain_layout ++ [Lit " "; NumZone; Lit " "; Abbrev]; plain_layout].

Definition parseSQLiteTime (value : gostring) : Z * Z :=
  match value with
  | [] => zero_time
  | _ => default zero_time (first_layout sqlite_layouts (strip_mono value))
  end.

Definition parseUnixString (value : gostring) : result NumError Z :=
  match value with
  | [] => Ok zero_time.1
  | _ => match ParseInt 64 value with Ok secs => Ok (secs * second_ns) | Err e => Err e end
  end.

(** ** The texts in the database *)

Section zone.
Context (offset : Z -> Z) (abbr : Z -> gostring) (mono : Z -> option gostring).

Definition in_zone (t : Z) : Zoned := MkZoned t (offset t) (abbr t).

(** [Truncate(time.Hour)] *)
Definition truncate_hour (t : Z) : Z := t - t mod (3600 * second_ns).

(** [FormatTimestamp]; a time the driver binds; the key of an hour. *)
Definition go_text : TimeText := {|
  FormatTimestamp t := Format RFC3339Nano (in_zone t);
  driver_text t := Time_String (in_zone t) (mono t);
  hour_text t := Format plain_layout (in_zone (truncate_hour t)) |}.

(** [t.AddDate(0, 0, n)]: the same clock on another day.  [time.Date] looks the offset up
    as if the clock were that of UTC, and once more at the time this gives. *)
Definition AddDays (t n : Z) : Z :=
  let clock := t + offset t * second_ns + n * 86400 * second_ns in
  let o := offset clock in
  if o =? 0 then clock else clock - offset (clock - o * second_ns) * second_ns.

(** One round of the retention goroutine of main: at its start and every hour. *)
Definition retention_round (f : CleanFaults) (retentionDays now : Z) (d : LogDb) : option (result CleanError unit * LogDb) :=
  @Cleanup go_text f (AddDays now (- retentionDays)) d.

End zone.

(** ** scripts/migrate-timestamps.go *)

Definition script_layouts : list (list Elem) :=
  [string_layout; plain_layout ++ [Frac; Lit " "; NumZone]; plain_layout ++ [Lit " "; NumZone; Lit " "; Abbrev];
   plain_layout ++ [Lit " "; NumZone]].

Definition parseGoTimeString (s : gostring) : option gostring :=
  '(t, off) ← first_layout script_layouts (strip_mono s);
  Some (Format RFC3339Nano (MkZoned t off [])).

(** The condition of its statements. *)
Definition needs_migration (ts : gostring) : bool :=
  like (str "% CET %") ts || like (str "% UTC %") ts || like (str "%m=+%") ts.

(** The loop over the rows in a transaction that commits; [None]: counted as failed. *)
Definition migrate_row (update_ok : bool) (ts : gostring) : option gostring :=
  if update_ok then parseGoTimeString ts else None.

Definition migrate_timestamps (update_ok : Z -> bool) (rows : list (Z * gostring)) : list (Z * gostring) * Z * Z :=
  let found := List.filter (fun r => needs_migration r.2) rows in
  let done_ := List.filter (fun r => bool_decide (is_Some (migrate_row (update_ok r.1) r.2))) found in
  (map (fun r => if needs_migration r.2 then (r.1, default r.2 (migrate_row (update_ok r.1) r.2)) else r) rows,
   Z.of_nat (length done_), Z.of_nat (length found) - Z.of_nat (length done_)).

(** ** The calendar *)

(** A check of every number below a bound, by computation. *)
Definition all_below (n : positive) (P : Z -> bool) : bool :=
  snd (Pos.iter (fun st => (fst st + 1, snd st && P (fst st))) (0, true) n).

Lemma all_below_spec n P : all_below n P = true -> forall i, 0 <= i < Zpos n -> P i = true.
Proof.
  unfold all_below. set (f := fun st : Z * bool => _).
  assert (fst (Pos.iter f (0, true) n) = Zpos n /\ (snd (Pos.iter f (0, true) n) = true -> forall i, 0 <= i < Zpos n -> P i = true)) as [_ H]; [|exact H].
  induction n as [|n IH] using Pos.peano_ind.
  - cbn. split; [done|]. intros H i Hi. by replace i with 0 by lia.
  - rewrite Pos.iter_succ. destruct (Pos.iter f (0, true) n) as [j b]. cbn in *. destruct IH as [-> IH]. split; [lia|].
    intros H i Hi. apply andb_true_iff in H as [H1 H2]. destruct (decide (i = Zpos n)) as [->|]; [done|]. apply IH; [done|lia].
Qed.

#[local] Ltac booleans H :=
  rewrite ?andb_true_iff, ?orb_true_iff, ?andb_true_iff, ?orb_true_iff, ?andb_true_iff, ?negb_true_iff, ?Z.leb_le, ?Z.ltb_lt, ?Z.ltb_ge, ?Z.eqb_eq in H.

Lemma leap_era y k : leap (y + 400 * k) = leap y.
Proof.
  unfold leap. replace ((y + 400 * k) mod 4) with (y mod 4) by (Z.div_mod_to_equations; lia).
  replace ((y + 400 * k) mod 100) with (y mod 100) by (Z.div_mod_to_equations; lia).
  by replace ((y + 400 * k) mod 400) with (y mod 400) by (Z.div_mod_to_equations; lia).
Qed.

Lemma year_days_era y k : year_days (y + 400 * k) = year_days y + 146097 * k.
Proof. unfold year_days. Z.div_mod_to_equations; lia. Qed.

(** The year from March has the leap day of the next. *)
Lemma year_days_next y : year_days (y + 1) = year_days y + (if leap (y + 1) then 366 else 365).
Proof.
  unfold year_days, leap. destruct (Z.eqb_spec ((y + 1) mod 4) 0), (Z.eqb_spec ((y + 1) mod 100) 0), (Z.eqb_spec ((y + 1) mod 400) 0);
    cbn [andb orb negb]; Z.div_mod_to_equations; lia.
Qed.

Lemma year_days_mono y y' : y <= y' -> year_days y <= year_days y'.
Proof. unfold year_days. Z.div_mod_to_equations; lia. Qed.

Lemma era_year_mono a b : 0 <= a <= b -> era_year a <= era_year b.
Proof.
  intros [Ha Hb]. unfold era_year. apply Z.div_le_mono; [lia|]. revert b Hb. apply Z.le_ind; [solve_proper|lia|].
  intros b Hb IH. etransitivity; [exact IH|]. Z.div_mod_to_equations; lia.
Qed.

Lemma era_year_ends y : 0 <= y < 400 -> era_year (year_days y) = y /\ era_year (year_days (y + 1) - 1) = y.
Proof.
  intros Hy. pose proof (all_below_spec 400 (fun y => (era_year (year_days y) =? y) && (era_year (year_days (y + 1) - 1) =? y)) ltac:(by vm_compute) y Hy) as H.
  cbv beta in H. booleans H. exact H.
Qed.

Lemma era_year_spec y doe : 0 <= y < 400 -> year_days y <= doe < year_days (y + 1) -> era_year doe = y.
Proof.
  intros Hy Hd. destruct (era_year_ends y Hy) as [H1 H2]. pose proof (year_days_mono 0 y ltac:(lia)) as H0. change (year_days 0) with 0 in H0.
  pose proof (era_year_mono (year_days y) doe ltac:(lia)). pose proof (era_year_mono doe (year_days (y + 1) - 1) ltac:(lia)). lia.
Qed.

Lemma era_year_exists doe : 0 <= doe < 146097 -> exists y, 0 <= y < 400 /\ year_days y <= doe < year_days (y + 1).
Proof.
  assert (forall k : nat, 0 <= doe < year_days (Z.of_nat k) -> exists y, 0 <= y < Z.of_nat k /\ year_days y <= doe < year_days (y + 1)) as H.
  { induction k as [|k IH]; intros Hd; [change (year_days (Z.of_nat 0)) with 0 in Hd; lia|].
    destruct (decide (doe < year_days (Z.of_nat k))) as [Hlt|Hge].
    - destruct (IH ltac:(lia)) as (y & ? & ?). exists y. lia.
    - exists (Z.of_nat k). replace (Z.of_nat k + 1) with (Z.of_nat (S k)) by lia. lia. }
  intros Hd. apply (H 400%nat). exact Hd.
Qed.

(** The days of a month when February has its leap day. *)
Lemma daysIn_leap m y : daysIn m y = if (m =? 2) && negb (leap y) then 28 else daysIn m 400.
Proof. unfold daysIn. change (leap 400) with true. by destruct (m =? 2), (leap y). Qed.

Lemma month_day_spec doy : 0 <= doy < 366 ->
  let '(m, d) := month_day doy in 1 <= m <= 12 /\ 1 <= d <= daysIn m 400 /\ doy_of m d = doy /\ (m = 2 /\ d = 29 -> doy = 365).
Proof.
  intros H. pose proof (all_below_spec 366 (fun doy => let '(m, d) := month_day doy in (1 <=? m) && (m <=? 12) && (1 <=? d) && (d <=? daysIn m 400) &&
    (doy_of m d =? doy) && (negb ((m =? 2) && (d =? 29)) || (doy =? 365))) ltac:(by vm_compute) doy H) as Hc.
  cbv beta in Hc. destruct (month_day doy) as [m d]. booleans Hc. destruct Hc as (((((? & ?) & ?) & ?) & ?) & Hl).
  split_and!; lia.
Qed.

Lemma doy_of_spec m d : 1 <= m <= 12 -> 1 <= d <= daysIn m 400 ->
  0 <= doy_of m d < 366 /\ month_day (doy_of m d) = (m, d) /\ (doy_of m d = 365 -> m = 2 /\ d = 29).
Proof.
  intros Hm Hd. assert (daysIn m 400 <= 31) by (unfold daysIn; repeat case_match; lia).
  pose proof (all_below_spec 372 (fun i => let m := i / 31 + 1 in let d := i mod 31 + 1 in
    (daysIn m 400 <? d) || ((0 <=? doy_of m d) && (doy_of m d <? 366) && (fst (month_day (doy_of m d)) =? m) && (snd (month_day (doy_of m d)) =? d) &&
      (negb (doy_of m d =? 365) || ((m =? 2) && (d =? 29))))) ltac:(by vm_compute) (31 * (m - 1) + (d - 1)) ltac:(lia)) as H'.
  cbv beta zeta in H'. replace ((31 * (m - 1) + (d - 1)) / 31 + 1) with m in H' by (Z.div_mod_to_equations; lia).
  replace ((31 * (m - 1) + (d - 1)) mod 31 + 1) with d in H' by (Z.div_mod_to_equations; lia).
  booleans H'. destruct H' as [?|((((? & ?) & H1) & H2) & H3)]; [lia|]. split_and!; try lia.
  destruct (month_day (doy_of m d)). cbn in *. by subst.
Qed.

(** A day of a year, in the year from March. *)
Lemma valid_doy d : valid_date d -> 0 <= doy_of (d_month d) (d_day d) /\
  year_days (march_year d) + doy_of (d_month d) (d_day d) < year_days (march_year d + 1) /\ month_day (doy_of (d_month d) (d_day d)) = (d_month d, d_day d).
Proof.
  destruct d as [y m d]. unfold valid_date, march_year. cbn [d_year d_month d_day]. intros [Hm Hd]. rewrite daysIn_leap in Hd.
  assert (daysIn 2 400 = 29) as E2 by done.
  assert (d <= daysIn m 400) as Hd'. { destruct (Z.eqb_spec m 2) as [->|], (leap y); cbn [andb negb] in Hd; lia. }
  destruct (doy_of_spec m d Hm ltac:(lia)) as (H1 & H2 & H3). split; [lia|]. split; [|done]. rewrite year_days_next.
  destruct (decide (doy_of m d = 365)) as [E|]; [|destruct (leap (_ + 1)); lia]. destruct (H3 E) as [-> ->].
  cbn [Z.leb Z.compare Pos.compare Pos.compare_cont]. replace (y - 1 + 1) with y by lia.
  destruct (leap y) eqn:El; [lia|]. cbn in Hd. lia.
Qed.

Lemma days_of_inv d : valid_date d -> date_of (days_of d) = d.
Proof.
  intros H. destruct (valid_doy d H) as (H1 & H2 & H3). unfold date_of, days_of.
  set (doy := doy_of (d_month d) (d_day d)) in *. set (Y := march_year d) in *.
  replace (year_days Y + doy - 719468 + 719468) with (year_days Y + doy) by lia.
  set (q := Y / 400). set (r := Y mod 400). assert (Y = r + 400 * q) as EY by (subst q r; pose proof (Z.div_mod Y 400); lia).
  assert (0 <= r < 400) as Hr by (apply Z.mod_pos_bound; lia).
  assert (year_days Y = year_days r + 146097 * q) as E1 by (rewrite EY; apply year_days_era).
  assert (year_days (Y + 1) = year_days (r + 1) + 146097 * q) as E2.
  { rewrite EY. replace (r + 400 * q + 1) with (r + 1 + 400 * q) by lia. apply year_days_era. }
  pose proof (year_days_mono 0 r ltac:(lia)) as Hlo. change (year_days 0) with 0 in Hlo.
  pose proof (year_days_mono (r + 1) 400 ltac:(lia)) as Hhi. change (year_days 400) with 146097 in Hhi.
  replace ((year_days Y + doy) mod 146097) with (year_days r + doy) by (Z.div_mod_to_equations; lia).
  replace ((year_days Y + doy) / 146097) with q by (Z.div_mod_to_equations; lia).
  rewrite (era_year_spec r) by lia. replace (year_days r + doy - year_days r) with doy by lia. rewrite H3.
  destruct d as [y m dd]. unfold Y, march_year in EY. cbn [d_year d_month d_day] in *. f_equal. destruct (m <=? 2); lia.
Qed.

Lemma date_of_valid n : valid_date (date_of n) /\ days_of (date_of n) = n.
Proof.
  unfold date_of. set (z := n + 719468). set (q := z / 146097). set (doe := z mod 146097).
  assert (z = 146097 * q + doe) as Ez by (subst q doe; apply Z.div_mod; lia).
  assert (0 <= doe < 146097) as Hd by (apply Z.mod_pos_bound; lia).
  destruct (era_year_exists doe Hd) as (y & Hy & Hyd). rewrite (era_year_spec y) by done. rewrite year_days_next in Hyd.
  pose proof (month_day_spec (doe - year_days y) ltac:(destruct (leap _); lia)) as H.
  destruct (month_day (doe - year_days y)) as [m d]. destruct H as (Hm & Hdd & Hdoy & Hl).
  unfold valid_date, days_of, march_year. cbn [d_year d_month d_day]. split.
  - split; [done|]. split; [lia|]. rewrite daysIn_leap. destruct (Z.eqb_spec m 2) as [->|]; cbn [andb]; [|lia].
    cbn [Z.leb Z.compare Pos.compare Pos.compare_cont]. replace (y + 400 * q + 1) with (y + 1 + 400 * q) by lia. rewrite leap_era.
    destruct (leap (y + 1)); cbn [negb]; [lia|]. change (daysIn 2 400) with 29 in Hdd. destruct (decide (d = 29)) as [->|]; [|lia].
    specialize (Hl (conj eq_refl eq_refl)). lia.
  - replace (if m <=? 2 then y + 400 * q + (if m <=? 2 then 1 else 0) - 1 else y + 400 * q + (if m <=? 2 then 1 else 0)) with (y + 400 * q) by (destruct (m <=? 2); lia).
    rewrite year_days_era. subst z. lia.
Qed.

(** ** Texts are read back *)

Lemma pad_low w n : 0 <= n < 10 ^ Z.of_nat w -> pad w n = low_digits w n.
Proof. intros H. unfold pad. rewrite Z.abs_eq, (proj2 (Z.ltb_ge n 0)), (proj2 (Z.ltb_lt n _)) by lia. done. Qed.

Lemma pad2 n : 0 <= n < 100 -> pad 2 n = [digit (n / 10); digit (n mod 10)].
Proof. intros H. rewrite pad_low by exact H. cbn [low_digits app]. by rewrite (Z.mod_small (n / 10)) by (Z.div_mod_to_equations; lia). Qed.

Lemma pad4 n : 0 <= n < 10000 -> pad 4 n = pad 2 (n / 100) ++ pad 2 (n mod 100).
Proof.
  intros H. assert (0 <= n / 100 < 100) by (Z.div_mod_to_equations; lia). assert (0 <= n mod 100 < 100) by (Z.div_mod_to_equations; lia).
  rewrite pad_low, !pad2 by done. cbn [low_digits app].
  replace (n / 10 / 10 / 10 mod 10) with (n / 100 / 10) by (Z.div_mod_to_equations; lia).
  replace (n / 10 / 10 mod 10) with (n / 100 mod 10) by (Z.div_mod_to_equations; lia).
  replace (n / 10 mod 10) with (n mod 100 / 10) by (Z.div_mod_to_equations; lia).
  by replace (n mod 10) with (n mod 100 mod 10) by (Z.div_mod_to_equations; lia).
Qed.

Lemma digit_is k : 0 <= k < 10 -> is_digit (digit k) = true /\ code (digit k) - 48 = k.
Proof. intros H. destruct (digit_code k H) as [E ->]. split; [done|lia]. Qed.

Lemma getnum_pad b n rest : 0 <= n < 100 -> getnum (pad 2 n ++ rest) b = Some (n, rest).
Proof.
  intros H. rewrite pad2 by done. cbn [app getnum].
  destruct (digit_is (n / 10)) as [-> ->]; [Z.div_mod_to_equations; lia|]. destruct (digit_is (n mod 10)) as [-> ->]; [Z.div_mod_to_equations; lia|].
  do 2 f_equal. Z.div_mod_to_equations; lia.
Qed.

Definition no_digit (s : gostring) : Prop := match s with c :: _ => is_digit c = false | [] => True end.

Lemma take_digits_app ds rest : Forall (fun c => is_digit c = true) ds -> no_digit rest -> take_digits (ds ++ rest) = (ds, rest).
Proof.
  intros H Hr. induction H as [|c ds Hc _ IH]; cbn [app take_digits].
  - destruct rest as [|c rest]; [done|]. cbn in Hr. cbn [take_digits]. by rewrite Hr.
  - by rewrite Hc, IH.
Qed.

Lemma frac_digits_spec k n : 0 <= n < 10 ^ Z.of_nat k ->
  Forall (fun c => is_digit c = true) (frac_digits k n) /\ (length (frac_digits k n) <= k)%nat /\
  forall acc, 0 <= acc -> exists v, value_of (frac_digits k n) acc = Some v /\
    v * 10 ^ (Z.of_nat k - Z.of_nat (length (frac_digits k n))) = acc * 10 ^ Z.of_nat k + n.
Proof.
  revert n. induction k as [|k IH]; intros n Hn.
  - change (10 ^ Z.of_nat 0) with 1 in *. cbn. split_and!; [constructor|done|]. intros acc _. exists acc. split; [done|]. cbn. lia.
  - cbn [frac_digits]. destruct (Z.eqb_spec n 0) as [->|Hne].
    + split_and!; [constructor|cbn; lia|]. intros acc _. exists acc. split; [done|]. cbn [length]. rewrite Z.sub_0_r. lia.
    + rewrite Nat2Z.inj_succ, Z.pow_succ_r in Hn by lia. set (p := 10 ^ Z.of_nat k) in *. assert (0 < p) by (apply Z.pow_pos_nonneg; lia).
      assert (0 <= n / p < 10) as Hq by (split; [apply Z.div_pos; lia|apply Z.div_lt_upper_bound; lia]).
      destruct (IH (n mod p) ltac:(apply Z.mod_pos_bound; lia)) as (H1 & H2 & H3). destruct (digit_is (n / p) Hq) as [Hd Hc].
      split_and!; [by constructor|cbn; lia|]. intros acc Ha. cbn [value_of length]. rewrite Hd.
      destruct (H3 (10 * acc + (code (digit (n / p)) - 48)) ltac:(lia)) as (v & Hv & E). exists v. split; [exact Hv|].
      replace (Z.of_nat (S k) - Z.of_nat (S (length (frac_digits k (n mod p))))) with (Z.of_nat k - Z.of_nat (length (frac_digits k (n mod p)))) by lia.
      rewrite E, Hc, Nat2Z.inj_succ, Z.pow_succ_r by lia. fold p. pose proof (Z.div_mod n p ltac:(lia)). lia.
Qed.

Lemma frac_value_digits n : 0 <= n < second_ns -> frac_value (frac_digits 9 n) = n.
Proof.
  intros H. destruct (frac_digits_spec 9 n H) as (_ & Hl & Hv). destruct (Hv 0 ltac:(lia)) as (v & E & Ev).
  unfold frac_value. rewrite take_ge by done. rewrite E. exact Ev.
Qed.

(** What follows a fraction is not part of it. *)
Definition after_frac (s : gostring) : Prop :=
  match s with c :: _ => is_digit c = false /\ comma_or_period c = false | [] => True end.

Lemma fraction_text n rest : 0 <= n < second_ns -> after_frac rest ->
  fraction (frac_text n ++ rest) = if n =? 0 then None else Some (n, rest).
Proof.
  intros Hn Hr. unfold frac_text. destruct (Z.eqb_spec n 0) as [->|Hne].
  - cbn [frac_digits Z.eqb app]. unfold fraction. destruct rest as [|c [|d rest]]; try done. destruct Hr as [_ Hr]. by rewrite Hr.
  - pose proof (frac_value_digits n Hn) as Hv. destruct (frac_digits_spec 9 n Hn) as (Hd & _ & _).
    destruct (frac_digits 9 n) as [|d ds] eqn:E.
    { exfalso. apply Hne. rewrite <- Hv. done. }
    cbn [app fraction tl]. apply Forall_cons in Hd as [Hd Hds]. change (comma_or_period dot) with true. rewrite Hd. cbn [andb].
    change (d :: ds ++ rest) with ((d :: ds) ++ rest). rewrite take_digits_app; [by rewrite Hv|by constructor|]. destruct rest; [done|]. by destruct Hr.
Qed.

(** An offset of whole minutes. *)
Definition offset_ok (off : Z) : Prop := off mod 60 = 0 /\ Z.abs off < 86400.

Lemma zone_parts off : offset_ok off ->
  let m := Z.quot off 60 in 0 <= Z.abs m / 60 < 24 /\ 0 <= Z.abs m mod 60 < 60 /\
  (Z.abs m / 60 * 60 + Z.abs m mod 60) * 60 = Z.abs off /\ (m <? 0) = (off <? 0).
Proof.
  intros [H1 H2] m. assert (off = 60 * m) as E.
  { subst m. pose proof (Z.quot_rem off 60 ltac:(lia)). assert (Z.rem off 60 = 0) as Hz; [|lia].
    apply Z.rem_divide; [lia|]. apply Z.mod_divide; [lia|done]. }
  split_and!; [Z.div_mod_to_equations; lia..|]. destruct (Z.ltb_spec m 0), (Z.ltb_spec off 0); lia.
Qed.

Lemma length_pad2 n : 0 <= n < 100 -> length (pad 2 n) = 2%nat.
Proof. intros H. by rewrite pad2. Qed.

Lemma offset_at_text (colon : gostring) off rest : offset_ok off -> (length colon <= 1)%nat ->
  offset_at (5 + length colon) (zone_text colon off ++ rest) = Some (off, rest).
Proof.
  intros Ho Hc. destruct (zone_parts off Ho) as (H1 & H2 & H3 & H4). unfold zone_text. set (m := Z.quot off 60) in *.
  rewrite H4. rewrite !pad2 by lia. set (a := Z.abs m / 60) in *. set (b := Z.abs m mod 60) in *.
  assert (getnum [digit (a / 10); digit (a mod 10)] true = Some (a, [])) as Ga by (rewrite <- pad2, <- (app_nil_r (pad 2 a)) by lia; apply getnum_pad; lia).
  assert (getnum [digit (b / 10); digit (b mod 10)] true = Some (b, [])) as Gb by (rewrite <- pad2, <- (app_nil_r (pad 2 b)) by lia; apply getnum_pad; lia).
  assert (Hs : forall sign : ascii, offset_at (5 + length colon) ((sign :: [digit (a / 10); digit (a mod 10)] ++ colon ++ [digit (b / 10); digit (b mod 10)]) ++ rest) =
    if bool_decide (sign = "+"%char) then Some ((a * 60 + b) * 60, rest) else if bool_decide (sign = "-"%char) then Some (- ((a * 60 + b) * 60), rest) else None).
  { intros sign. unfold offset_at. destruct colon as [|c [|? ?]]; [| |cbn in Hc; lia]; cbn [app length Nat.add Nat.ltb Nat.leb Nat.sub take drop];
      rewrite ?take_0, ?drop_0, Ga; cbn [mbind option_bind]; rewrite Gb; cbn [mbind option_bind];
      by rewrite (proj2 (Z.ltb_ge 24 a)), (proj2 (Z.ltb_ge 60 b)) by lia. }
  rewrite Hs, H3. destruct (Z.ltb_spec off 0); cbn [bool_decide decide_rel]; repeat case_bool_decide; try done; do 2 f_equal; lia.
Qed.

(** A time that the layouts can hold. *)
Definition year_ok (z : Zoned) : Prop := 0 <= d_year (date_of (local_day z)) < 10000.

(** The fields up to the seconds. *)
Definition fields_of (z : Zoned) : Fields :=
  let d := date_of (local_day z) in
  let sod := local_sec z mod 86400 in
  MkFields (d_year d) (d_month d) (d_day d) (sod / 3600) (sod mod 3600 / 60) (sod mod 60) 0 None false.

Lemma sod_parts z : let sod := local_sec z mod 86400 in
  0 <= sod / 3600 < 24 /\ 0 <= sod mod 3600 / 60 < 60 /\ 0 <= sod mod 60 < 60 /\ sod = 3600 * (sod / 3600) + 60 * (sod mod 3600 / 60) + sod mod 60.
Proof.
  intros sod. assert (0 <= sod < 86400) by (apply Z.mod_pos_bound; lia). clearbody sod. split_and!; Z.div_mod_to_equations; lia.
Qed.

Lemma year_digits y rest : 0 <= y < 10000 ->
  length (take 4 (pad 4 y ++ rest)) = 4%nat /\ forallb is_digit (take 4 (pad 4 y ++ rest)) = true /\
  value_of (take 4 (pad 4 y ++ rest)) 0 = Some y /\ drop 4 (pad 4 y ++ rest) = rest.
Proof.
  intros H. assert (0 <= y / 100 < 100) as Hh by (Z.div_mod_to_equations; lia). assert (0 <= y mod 100 < 100) as Hl by (Z.div_mod_to_equations; lia).
  rewrite pad4, !pad2 by done. cbn [app take drop]. rewrite take_0.
  destruct (digit_is (y / 100 / 10)) as [D1 C1]; [Z.div_mod_to_equations; lia|]. destruct (digit_is (y / 100 mod 10)) as [D2 C2]; [Z.div_mod_to_equations; lia|].
  destruct (digit_is (y mod 100 / 10)) as [D3 C3]; [Z.div_mod_to_equations; lia|]. destruct (digit_is (y mod 100 mod 10)) as [D4 C4]; [Z.div_mod_to_equations; lia|].
  cbn [length forallb value_of]. rewrite D1, D2, D3, D4, C1, C2, C3, C4. split_and!; try done. f_equal. Z.div_mod_to_equations; lia.
Qed.

(** A fraction after the seconds is taken when the layout has none. *)
Definition after_second (rest : list Elem) (f : Fields) (tail : gostring) : Fields * gostring :=
  match fraction tail with
  | Some (n, r) => if frac_next rest then (f, tail) else (set_nsec n f, r)
  | None => (f, tail)
  end.

(** One step of the parser per piece, as a Hoare rule over the rest of the text. *)
Section steps.
Context (y mo d h mi sec ns : Z) (off : option Z) (utc : bool) (rest : list Elem) (tail : gostring).
Notation fs := (MkFields y mo d h mi sec ns off utc).

Lemma step_lit c : c <> " "%char -> parse_elem (Lit c) rest fs (c :: tail) = Some (fs, tail).
Proof. intros H. cbn [parse_elem]. by rewrite (bool_decide_eq_true_2 (c = c)), bool_decide_eq_false_2. Qed.

Lemma step_space : parse_elem (Lit " ") rest fs (" "%char :: tail) = Some (fs, cutspace tail).
Proof. done. Qed.

Lemma step_year v : 0 <= v < 10000 -> parse_elem Year rest fs (pad 4 v ++ tail) = Some (MkFields v mo d h mi sec ns off utc, tail).
Proof. intros H. cbn [parse_elem]. destruct (year_digits v tail H) as (-> & -> & -> & ->). done. Qed.

Lemma step_month v : 1 <= v <= 12 -> parse_elem Month rest fs (pad 2 v ++ tail) = Some (MkFields y v d h mi sec ns off utc, tail).
Proof.
  intros H. cbn [parse_elem]. rewrite getnum_pad by lia. cbn [mbind option_bind]. by rewrite (proj2 (Z.leb_gt v 0)), (proj2 (Z.ltb_ge 12 v)) by lia.
Qed.

Lemma step_day v : 0 <= v < 100 -> parse_elem Day rest fs (pad 2 v ++ tail) = Some (MkFields y mo v h mi sec ns off utc, tail).
Proof. intros H. cbn [parse_elem]. by rewrite getnum_pad. Qed.

Lemma step_hour v : 0 <= v < 24 -> parse_elem Hour rest fs (pad 2 v ++ tail) = Some (MkFields y mo d v mi sec ns off utc, tail).
Proof. intros H. cbn [parse_elem]. rewrite getnum_pad by lia. cbn [mbind option_bind]. by rewrite (proj2 (Z.leb_gt 24 v)) by lia. Qed.

Lemma step_minute v : 0 <= v < 60 -> parse_elem Minute rest fs (pad 2 v ++ tail) = Some (MkFields y mo d h v sec ns off utc, tail).
Proof. intros H. cbn [parse_elem]. rewrite getnum_pad by lia. cbn [mbind option_bind]. by rewrite (proj2 (Z.leb_gt 60 v)) by lia. Qed.

Lemma step_second v : 0 <= v < 60 ->
  parse_elem Second rest fs (pad 2 v ++ tail) = Some (after_second rest (MkFields y mo d h mi v ns off utc) tail).
Proof.
  intros H. cbn [parse_elem]. rewrite getnum_pad by lia. cbn [mbind option_bind]. rewrite (proj2 (Z.leb_gt 60 v)) by lia.
  unfold after_second. destruct (fraction tail) as [[n r]|]; [|done]. by destruct (frac_next rest).
Qed.

End steps.

(** The date and the clock, with one character in between. *)
Lemma parse_date_clock sep L z tail : sep = "T"%char \/ sep = " "%char -> year_ok z ->
  parse_layout (date_layout ++ [Lit sep] ++ clock_layout ++ L) no_fields (Format (date_layout ++ [Lit sep] ++ clock_layout) z ++ tail) =
  let '(f, s) := after_second L (fields_of z) tail in parse_layout L f s.
Proof.
  intros Hsep Hy. destruct (date_of_valid (local_day z)) as [[Hm Hd] _]. destruct (sod_parts z) as (Hh & Hmi & Hs & _).
  assert (daysIn (d_month (date_of (local_day z))) (d_year (date_of (local_day z))) <= 31) as Hd31 by (unfold daysIn; repeat case_match; lia).
  unfold Format, fields_of, no_fields. cbn [date_layout clock_layout app map concat format_elem]. rewrite app_nil_r.
  repeat (rewrite <- app_assoc; cbn [app]). unfold year_ok in Hy. set (D := date_of (local_day z)) in *. set (sod := local_sec z mod 86400) in *.
  cbn [parse_layout]. rewrite step_year by done. cbn [mbind option_bind]. rewrite step_lit by done. cbn [mbind option_bind].
  rewrite step_month by done. cbn [mbind option_bind]. rewrite step_lit by done. cbn [mbind option_bind]. rewrite step_day by lia. cbn [mbind option_bind].
  match goal with |- context [parse_elem (Lit sep) _ ?f (sep :: ?s)] => assert (forall r : list Elem, parse_elem (Lit sep) r f (sep :: s) = Some (f, s)) as -> end.
  { intros r. destruct Hsep as [-> | ->]; [by apply step_lit|]. rewrite step_space. do 2 f_equal.
    rewrite pad2 by lia. cbn [app cutspace]. rewrite bool_decide_eq_false_2; [done|].
    intros E. destruct (digit_is (sod / 3600 / 10)) as [Hdg _]; [Z.div_mod_to_equations; lia|]. by rewrite E in Hdg. }
  cbn [mbind option_bind]. rewrite step_hour by done. cbn [mbind option_bind]. rewrite step_lit by done. cbn [mbind option_bind].
  rewrite step_minute by done. cbn [mbind option_bind]. rewrite step_lit by done. cbn [mbind option_bind]. rewrite step_second by done. cbn [mbind option_bind].
  by destruct (after_second L _ tail).
Qed.

Lemma after_second_frac L f tail : frac_next L = true -> after_second L f tail = (f, tail).
Proof. intros H. unfold after_second. rewrite H. by destruct (fraction tail) as [[? ?]|]. Qed.

Lemma time_of_fields z (off : option Z) (utc : bool) : (if utc then 0 else default 0 off) = z_off z ->
  time_of (set_zone off utc (set_nsec (z_ns z mod second_ns) (fields_of z))) = Some (z_ns z, z_off z).
Proof.
  intros Ho. destruct (date_of_valid (local_day z)) as [[Hm Hd] Hdays]. destruct (sod_parts z) as (_ & _ & _ & Hsod).
  unfold time_of, fields_of. cbn [set_zone set_nsec f_year f_month f_day f_hour f_min f_sec f_nsec f_off f_utc]. cbv zeta in Hsod.
  destruct (date_of (local_day z)) as [y m d] eqn:E. cbn [d_year d_month d_day] in *.
  rewrite (proj2 (Z.ltb_ge d 1)), (proj2 (Z.ltb_ge (daysIn m y) d)) by lia. cbn [orb]. rewrite Ho, Hdays. f_equal. f_equal.
  set (sod := local_sec z mod 86400) in *. pose proof (Z.div_mod (local_sec z) 86400 ltac:(lia)) as H1. fold (local_day z) in H1. fold sod in H1.
  pose proof (Z.div_mod (z_ns z) second_ns ltac:(done)) as H2. unfold local_sec in H1. lia.
Qed.

(** A zone name that is read back whole. *)
Definition zone_ok (off : Z) (abbr : gostring) : Prop :=
  offset_ok off /\ "m"%char ∉ abbr /\ ((abbr = str "UTC" /\ off = 0) \/ (bytes_eqb (take 3 abbr) (str "UTC") = false /\ parseTimeZone abbr = Some (length abbr))).

Lemma frac_step z f rest tail : after_frac tail -> f_nsec f = 0 ->
  parse_elem Frac rest f (format_elem z Frac ++ tail) = Some (set_nsec (z_ns z mod second_ns) f, tail).
Proof.
  intros Ht Hf. destruct f as [y mo d h mi s ns off utc]. cbn in Hf. subst ns. cbn [parse_elem format_elem].
  rewrite fraction_text by (done || (apply Z.mod_pos_bound; done)). destruct (Z.eqb_spec (z_ns z mod second_ns) 0) as [E|]; [|done].
  by rewrite E.
Qed.

Lemma zone_text_first colon off : exists c t, zone_text colon off = c :: t /\ (c = "+"%char \/ c = "-"%char).
Proof. unfold zone_text. destruct (_ <? 0); eauto 6. Qed.

Lemma Parse_RFC3339Nano z : year_ok z -> offset_ok (z_off z) -> Parse RFC3339Nano (Format RFC3339Nano z) = Some (z_ns z, z_off z).
Proof.
  intros Hy Ho. unfold Parse, RFC3339Nano. assert (Format (date_layout ++ [Lit "T"] ++ clock_layout ++ [Frac; IsoZone]) z =
    Format (date_layout ++ [Lit "T"] ++ clock_layout) z ++ format_elem z Frac ++ format_elem z IsoZone) as ->.
  { unfold Format. rewrite !map_app, !concat_app. cbn [map concat]. by rewrite <- !app_assoc, !app_nil_r. }
  rewrite parse_date_clock, after_second_frac; [|done|by left|done]. cbn [parse_layout]. rewrite frac_step; [| |done]; cbn [mbind option_bind].
  2:{ cbn [format_elem]. destruct (_ =? 0); [done|]. destruct (zone_text_first [":"%char] (z_off z)) as (c & t & -> & [-> | ->]); done. }
  set (f := set_nsec _ _). cbn [format_elem]. destruct (Z.eqb_spec (z_off z) 0) as [E|E].
  - unfold parse_elem. subst f. cbn [fields_of set_nsec str String.list_ascii_of_string]. rewrite bool_decide_eq_true_2 by done. cbn [mbind option_bind].
    apply (time_of_fields z None true). by rewrite E.
  - pose proof (offset_at_text [":"%char] (z_off z) [] Ho ltac:(done)) as Hp. rewrite app_nil_r in Hp. cbn [length Nat.add] in Hp.
    unfold parse_elem. subst f. cbn [fields_of set_nsec]. destruct (zone_text_first [":"%char] (z_off z)) as (c & t & Ez & Hc).
    assert (colon_offset (zone_text [":"%char] (z_off z)) = Some (z_off z, [])) as Hco.
    { unfold colon_offset. rewrite Hp. rewrite bool_decide_eq_true_2; [done|]. unfold zone_text. destruct (zone_parts _ Ho) as (H1 & _).
      rewrite (pad2 (Z.abs _ / 60)) by lia. done. }
    rewrite Ez in *. rewrite bool_decide_eq_false_2 by (destruct Hc as [-> | ->]; done). rewrite Hco. cbn [mbind option_bind].
    by apply (time_of_fields z (Some (z_off z)) false).
Qed.

(** Another separator is refused. *)
Lemma parse_date_sep c x L z tail : year_ok z -> c <> " "%char -> x <> c ->
  parse_layout (date_layout ++ Lit c :: L) no_fields (Format date_layout z ++ x :: tail) = None.
Proof.
  intros Hy Hc Hx. destruct (date_of_valid (local_day z)) as [[Hm Hd] _].
  assert (daysIn (d_month (date_of (local_day z))) (d_year (date_of (local_day z))) <= 31) as Hd31 by (unfold daysIn; repeat case_match; lia).
  unfold Format, no_fields. cbn [date_layout app map concat format_elem]. rewrite app_nil_r. repeat (rewrite <- app_assoc; cbn [app]).
  cbn [parse_layout]. rewrite step_year by done. cbn [mbind option_bind]. rewrite step_lit by done. cbn [mbind option_bind].
  rewrite step_month by done. cbn [mbind option_bind]. rewrite step_lit by done. cbn [mbind option_bind]. rewrite step_day by lia. cbn [mbind option_bind parse_elem].
  by rewrite bool_decide_eq_false_2.
Qed.

(** The end of the text of [Time.String]. *)
Definition string_tail (z : Zoned) : gostring := " "%char :: zone_text [] (z_off z) ++ " "%char :: z_abbr z.

Lemma zone_ok_abbr off a : zone_ok off a -> a <> [] /\ cutspace a = a.
Proof.
  intros (_ & _ & [[-> _]|[_ H]]); [done|]. destruct a as [|c a]; [done|]. split; [done|]. cbn [cutspace].
  destruct (decide (c = " "%char)) as [->|]; [|by rewrite bool_decide_eq_false_2]. exfalso. revert H. unfold parseTimeZone.
  destruct (_ <? 3)%nat; [done|]. destruct a as [|? [|? [|? ?]]]; done.
Qed.

Lemma Format_string z : z_abbr z <> [] -> Format string_layout z = Format plain_layout z ++ format_elem z Frac ++ string_tail z.
Proof.
  intros H. unfold string_layout, Format. rewrite !map_app, !concat_app. do 2 f_equal. cbn [map concat app]. unfold string_tail.
  cbn [format_elem]. destruct (z_abbr z); [done|]. by rewrite app_nil_r.
Qed.

Lemma cutspace_zone colon off s : cutspace (zone_text colon off ++ s) = zone_text colon off ++ s.
Proof. destruct (zone_text_first colon off) as (c & t & -> & [-> | ->]); done. Qed.

Lemma string_zone_step z f : zone_ok (z_off z) (z_abbr z) -> f_utc f = false ->
  exists off utc, parse_layout [Lit " "; NumZone; Lit " "; Abbrev] f (string_tail z) = Some (set_zone off utc f, []) /\
    (if utc then 0 else default 0 off) = z_off z.
Proof.
  intros Hz Hu. destruct (zone_ok_abbr _ _ Hz) as [Hne Hcut]. destruct Hz as (Ho & _ & Ha). destruct f as [y mo d h mi s ns off0 utc0].
  cbn in Hu. subst utc0. pose proof (offset_at_text [] (z_off z) (" "%char :: z_abbr z) Ho ltac:(cbn; lia)) as Hp. cbn [length Nat.add] in Hp.
  exists (Some (z_off z)), (bytes_eqb (take 3 (z_abbr z)) (str "UTC")). unfold string_tail. cbn [parse_layout]. rewrite step_space, cutspace_zone. cbn [mbind option_bind].
  cbn [parse_elem]. rewrite Hp. cbn [mbind option_bind]. unfold set_zone at 1. cbn [f_year f_month f_day f_hour f_min f_sec f_nsec f_utc]. rewrite step_space, Hcut. cbn [mbind option_bind].
  cbn [parse_elem]. destruct Ha as [[Ea Eo]|[Ea Ep]].
  - rewrite Ea. split; [done|]. by rewrite Eo.
  - rewrite Ea, Ep. cbn [mbind option_bind]. rewrite drop_all. split; done.
Qed.

Lemma Parse_String z : year_ok z -> zone_ok (z_off z) (z_abbr z) -> Parse string_layout (Format string_layout z) = Some (z_ns z, z_off z).
Proof.
  intros Hy Hz. destruct (zone_ok_abbr _ _ Hz) as [Hne _]. unfold Parse. rewrite Format_string by done. unfold string_layout, plain_layout. rewrite <- !app_assoc.
  rewrite parse_date_clock, after_second_frac; [|done|by right|done]. change ([Frac; ?a; ?b; ?c; ?d]) with (Frac :: [a; b; c; d]). cbn [parse_layout].
  rewrite frac_step by done. cbn [mbind option_bind].
  destruct (string_zone_step z (set_nsec (z_ns z mod second_ns) (fields_of z)) Hz eq_refl) as (off & utc & H1 & H2).
  cbn [parse_layout] in H1. rewrite H1. cbn [mbind option_bind]. by apply time_of_fields.
Qed.

(** The layouts tried before do not read it. *)
Lemma string_colon_zone z : offset_ok (z_off z) -> colon_offset (string_tail z) = None.
Proof.
  intros Ho. unfold colon_offset, string_tail. rewrite bool_decide_eq_false_2; [done|]. destruct (zone_parts _ Ho) as (H1 & _).
  unfold zone_text. rewrite (pad2 (Z.abs _ / 60)) by lia. cbn [app lookup list_lookup]. intros [= E].
  destruct (digit_is (Z.abs (Z.quot (z_off z) 60) / 60 mod 10)) as [Hd _]; [apply Z.mod_pos_bound; lia|]. by rewrite E in Hd.
Qed.

Lemma string_first z : year_ok z -> zone_ok (z_off z) (z_abbr z) -> first_layout sqlite_layouts (Format string_layout z) = Some (z_ns z, z_off z).
Proof.
  intros Hy Hz. destruct (zone_ok_abbr _ _ Hz) as [Hne _]. destruct Hz as [Ho Hz']. pose proof (conj Ho Hz' : zone_ok _ _) as Hz.
  assert (forall L, Parse (date_layout ++ Lit "T" :: L) (Format string_layout z) = None) as HT.
  { intros L. unfold Parse. rewrite Format_string by done. unfold plain_layout, Format. rewrite !map_app, !concat_app. cbn [map concat app format_elem].
    rewrite <- !app_assoc. cbn [app]. fold (Format date_layout z). by rewrite parse_date_sep. }
  assert (forall L, Parse (plain_layout ++ L) (Format string_layout z) =
    '(f, rest) ← (let '(f, s) := after_second L (fields_of z) (format_elem z Frac ++ string_tail z) in parse_layout L f s); match rest with [] => time_of f | _ => None end) as HP.
  { intros L. unfold Parse. rewrite Format_string by done. unfold plain_layout. rewrite <- !app_assoc. rewrite parse_date_clock; [done|by right|done]. }
  unfold sqlite_layouts, first_layout at 1. rewrite (HT (clock_layout ++ [Frac; IsoZone]) : Parse RFC3339Nano _ = None), (HT (clock_layout ++ [IsoZone]) : Parse RFC3339 _ = None).
  rewrite !HP, after_second_frac by done. cbn [parse_layout]. rewrite frac_step by done. cbn [mbind option_bind].
  assert (forall f, parse_elem ColonZone [] f (string_tail z) = None) as HC by (intros [????? ? ? ? ?]; cbn [parse_elem]; by rewrite string_colon_zone).
  rewrite HC. cbn [mbind option_bind].
  assert (after_second [ColonZone] (fields_of z) (format_elem z Frac ++ string_tail z) = (set_nsec (z_ns z mod second_ns) (fields_of z), string_tail z)) as ->.
  { unfold after_second. cbn [format_elem]. rewrite fraction_text by (done || (apply Z.mod_pos_bound; done)).
    destruct (Z.eqb_spec (z_ns z mod second_ns) 0) as [E|]; [|done]. by rewrite E. }
  rewrite HC. cbn [mbind option_bind]. by rewrite Parse_String.
Qed.

(** ** The reading of the monotonic clock *)

Lemma low_digits_digit w n : Forall (fun c => is_digit c = true) (low_digits w n).
Proof.
  revert n. induction w as [|w IH]; intros n; cbn [low_digits]; [constructor|]. apply Forall_app. split; [apply IH|]. repeat constructor.
  apply digit_is, Z.mod_pos_bound. lia.
Qed.

Lemma low_digits_no c w n : is_digit c = false -> c ∉ low_digits w n.
Proof. intros Hc H. pose proof (low_digits_digit w n) as Hf. rewrite Forall_forall in Hf. by rewrite (Hf c H) in Hc. Qed.

Lemma pad_no c w n : 0 <= n < 10 ^ Z.of_nat w -> is_digit c = false -> c ∉ pad w n.
Proof. intros Hn Hc. rewrite pad_low by done. by apply low_digits_no. Qed.

Lemma zone_text_no c colon off : offset_ok off -> is_digit c = false -> c <> "+"%char -> c <> "-"%char -> c ∉ colon -> c ∉ zone_text colon off.
Proof.
  intros Ho Hc Hp Hm Hcol. destruct (zone_parts off Ho) as (H1 & H2 & _). unfold zone_text.
  rewrite not_elem_of_cons, !not_elem_of_app. split_and!; [by destruct (_ <? 0)|apply pad_no; [lia|done]|done|apply pad_no; [lia|done]].
Qed.

#[local] Ltac no_byte :=
  repeat first [rewrite not_elem_of_app; split | rewrite not_elem_of_cons; split | apply not_elem_of_nil | done].

Lemma plain_no_m z : year_ok z -> "m"%char ∉ Format plain_layout z ++ format_elem z Frac.
Proof.
  intros Hy. destruct (date_of_valid (local_day z)) as [[Hm Hd] _]. destruct (sod_parts z) as (Hh & Hmi & Hs & _).
  assert (daysIn (d_month (date_of (local_day z))) (d_year (date_of (local_day z))) <= 31) as Hd31 by (unfold daysIn; repeat case_match; lia).
  unfold year_ok in Hy. unfold Format. cbn [plain_layout date_layout clock_layout app map concat format_elem].
  no_byte; try (apply pad_no; [lia|done]).
  unfold frac_text. destruct (frac_digits_spec 9 (z_ns z mod second_ns) ltac:(by apply Z.mod_pos_bound)) as (Hf & _ & _).
  destruct (frac_digits 9 _) as [|c ds]; [apply not_elem_of_nil|]. rewrite Forall_forall in Hf. intros [?|H]%elem_of_cons; [done|]. by specialize (Hf _ H).
Qed.

Lemma string_no_m z : year_ok z -> zone_ok (z_off z) (z_abbr z) -> "m"%char ∉ Format string_layout z.
Proof.
  intros Hy Hz. destruct (zone_ok_abbr _ _ Hz) as [Hne _]. destruct Hz as (Ho & Hm & _). rewrite Format_string by done. rewrite app_assoc, not_elem_of_app. split; [by apply plain_no_m|].
  unfold string_tail. rewrite not_elem_of_cons, not_elem_of_app, not_elem_of_cons. split_and!; try done. apply zone_text_no; try done. apply not_elem_of_nil.
Qed.

Lemma Index_no_m s : "m"%char ∉ s -> GoStrings.Index s (str " m=") = None.
Proof.
  intros H. destruct (GoStrings.Index s (str " m=")) as [i|] eqn:E; [|done]. exfalso.
  assert (Contains s (str " m=") = true) as Hc by (unfold Contains; rewrite E; by apply bool_decide_eq_true_2).
  apply Contains_spec in Hc as (a & b & ->). apply H. rewrite !elem_of_app. right. left. vm_compute. set_solver.
Qed.

Lemma Index_mono s m : "m"%char ∉ s -> GoStrings.Index (s ++ str " m=" ++ m) (str " m=") = Some (length s).
Proof.
  induction s as [|c s IH]; intros H; [done|]. apply not_elem_of_cons in H as [Hc H]. cbn [app GoStrings.Index length].
  rewrite IH by done. destruct (HasPrefix _ _) eqn:E; [|done]. exfalso. apply HasPrefix_spec in E as [k E]. destruct s as [|d s]; [by inversion E|].
  injection E as _ E _. apply H. rewrite E. by left.
Qed.

Lemma strip_string z mono : year_ok z -> zone_ok (z_off z) (z_abbr z) -> strip_mono (Time_String z mono) = Format string_layout z /\ Time_String z mono <> [].
Proof.
  intros Hy Hz. pose proof (string_no_m z Hy Hz) as Hm. destruct (zone_ok_abbr _ _ Hz) as [Hne _].
  assert (exists c t, Format string_layout z = c :: t) as (c & t & E).
  { rewrite Format_string by done. unfold Format. cbn [plain_layout date_layout app map concat format_elem]. rewrite pad4, pad2 by (unfold year_ok in Hy; Z.div_mod_to_equations; lia). eauto. }
  unfold Time_String, strip_mono. destruct mono as [m|].
  - rewrite Index_mono by done. rewrite E at 1. cbn [length]. split; [|by rewrite E]. replace (S (length t)) with (length (Format string_layout z)) by by rewrite E. by rewrite take_app_length.
  - rewrite app_nil_r, Index_no_m by done. split; [done|]. by rewrite E.
Qed.

(** What the database and the script make of a time. *)
Lemma parse_driver_text z mono : year_ok z -> zone_ok (z_off z) (z_abbr z) -> parseSQLiteTime (Time_String z mono) = (z_ns z, z_off z).
Proof.
  intros Hy Hz. destruct (strip_string z mono Hy Hz) as [Hs Hne]. unfold parseSQLiteTime. destruct (Time_String z mono) eqn:E; [done|]. by rewrite Hs, string_first.
Qed.

Lemma rfc_no_m z : year_ok z -> offset_ok (z_off z) -> "m"%char ∉ Format RFC3339Nano z /\ Format RFC3339Nano z <> [].
Proof.
  intros Hy Ho. pose proof (plain_no_m z Hy) as Hm. unfold Format, RFC3339Nano, plain_layout in *.
  rewrite !map_app, !concat_app in *. cbn [map concat app format_elem] in *. rewrite !not_elem_of_app, ?not_elem_of_cons, ?not_elem_of_app in *.
  destruct Hm as ((Hm1 & Hm2) & Hm3). split.
  - split_and!; try tauto; try done; try apply not_elem_of_nil.
    destruct (_ =? 0); [vm_compute; set_solver|]. apply zone_text_no; try done. set_solver.
  - unfold date_layout. cbn [map concat format_elem]. rewrite pad4, pad2 by (unfold year_ok in Hy; Z.div_mod_to_equations; lia). done.
Qed.

Lemma parse_timestamp_text z : year_ok z -> offset_ok (z_off z) -> parseSQLiteTime (Format RFC3339Nano z) = (z_ns z, z_off z).
Proof.
  intros Hy Ho. destruct (rfc_no_m z Hy Ho) as [Hm Hne]. unfold parseSQLiteTime, strip_mono. rewrite Index_no_m by done.
  destruct (Format RFC3339Nano z) eqn:E; [done|]. rewrite <- E. unfold sqlite_layouts, first_layout at 1. by rewrite Parse_RFC3339Nano.
Qed.

Lemma script_text z mono : year_ok z -> zone_ok (z_off z) (z_abbr z) -> parseGoTimeString (Time_String z mono) = Some (Format RFC3339Nano z).
Proof.
  intros Hy Hz. unfold parseGoTimeString. destruct (strip_string z mono Hy Hz) as [-> _]. unfold script_layouts, first_layout at 1. by rewrite Parse_String.
Qed.

(** ** The order of the texts *)

Lemma str_cmp_app a b r s : length a = length b -> str_cmp (a ++ r) (b ++ s) = match str_cmp a b with Eq => str_cmp r s | c => c end.
Proof.
  revert b. induction a as [|x a IH]; intros [|y b] H; try done. cbn [app str_cmp]. injection H as H. rewrite IH by done. by destruct (code x ?= code y).
Qed.

Lemma compare_pair a b c d k : 0 <= b < k -> 0 <= d < k -> (match a ?= c with Eq => b ?= d | o => o end) = (k * a + b ?= k * c + d).
Proof.
  intros Hb Hd. destruct (Z.compare_spec a c) as [->|Hl|Hl].
  - destruct (Z.compare_spec b d) as [->|?|?]; symmetry; [apply Z.compare_refl|apply Z.compare_lt_iff; lia|apply Z.compare_gt_iff; lia].
  - symmetry. apply Z.compare_lt_iff. nia.
  - symmetry. apply Z.compare_gt_iff. nia.
Qed.

Lemma str_cmp_pad2 m n : 0 <= m < 100 -> 0 <= n < 100 -> str_cmp (pad 2 m) (pad 2 n) = (m ?= n).
Proof.
  intros Hm Hn. rewrite !pad2 by done. cbn [str_cmp].
  assert (forall k, 0 <= k < 100 -> code (digit (k / 10)) = 48 + k / 10 /\ code (digit (k mod 10)) = 48 + k mod 10) as H.
  { intros k Hk. split; apply digit_code; Z.div_mod_to_equations; lia. }
  destruct (H m Hm) as [-> ->], (H n Hn) as [-> ->].
  assert (forall a b, (48 + a ?= 48 + b) = (a ?= b)) as Hs by (intros a b; destruct (Z.compare_spec a b), (Z.compare_spec (48 + a) (48 + b)); lia || done).
  rewrite !Hs. transitivity (match m / 10 ?= n / 10 with Eq => m mod 10 ?= n mod 10 | c => c end).
  - destruct (m / 10 ?= n / 10); [|done..]. by destruct (m mod 10 ?= n mod 10).
  - rewrite (compare_pair _ _ _ _ 10) by (apply Z.mod_pos_bound; lia). by rewrite <- !Z.div_mod.
Qed.

Lemma str_cmp_pad4 m n : 0 <= m < 10000 -> 0 <= n < 10000 -> str_cmp (pad 4 m) (pad 4 n) = (m ?= n).
Proof.
  intros Hm Hn. assert (forall k, 0 <= k < 10000 -> 0 <= k / 100 < 100 /\ 0 <= k mod 100 < 100) as H by (intros; Z.div_mod_to_equations; lia).
  destruct (H m Hm), (H n Hn). rewrite !pad4, str_cmp_app, !str_cmp_pad2 by (done || by rewrite !length_pad2).
  rewrite (compare_pair _ _ _ _ 100) by done. by rewrite <- !Z.div_mod.
Qed.

(** A date as a number. *)
Definition date_key (d : Date) : Z := 100 * (100 * d_year d + d_month d) + d_day d.

Lemma doy_of_mono m d m' d' : 1 <= m <= 12 -> 1 <= m' <= 12 -> 1 <= d <= daysIn m 400 -> 1 <= d' ->
  march_month m < march_month m' \/ march_month m = march_month m' /\ d < d' -> doy_of m d < doy_of m' d'.
Proof.
  intros Hm Hm' Hd Hd' H. unfold doy_of. destruct H as [H|[-> H]]; [|lia].
  pose proof (all_below_spec 13 (fun m => (m <=? 0) || (m =? 2) || ((153 * march_month m + 2) / 5 + daysIn m 400 <=? (153 * (march_month m + 1) + 2) / 5)) ltac:(by vm_compute) m ltac:(lia)) as Hc.
  cbv beta in Hc. booleans Hc. assert ((153 * (march_month m + 1) + 2) / 5 <= (153 * march_month m' + 2) / 5) by (apply Z.div_le_mono; lia).
  destruct Hc as [[?| ->]|?]; [lia| |lia]. exfalso. clear -H Hm'. unfold march_month in H. cbn in H. destruct (Z.leb_spec m' 2); lia.
Qed.

Lemma days_of_mono d d' : valid_date d -> valid_date d' -> date_key d < date_key d' -> days_of d < days_of d'.
Proof.
  intros Hv Hv' Hk. destruct (valid_doy d Hv) as (H1 & H2 & _), (valid_doy d' Hv') as (H3 & _ & _). unfold days_of.
  destruct d as [y m d], d' as [y' m' d']. destruct Hv as [Hm Hd], Hv' as [Hm' Hd'].
  unfold march_year, date_key in *. cbn [d_year d_month d_day] in *.
  assert (daysIn m y <= 31 /\ daysIn m' y' <= 31) as [D1 D2] by (split; unfold daysIn; repeat case_match; lia).
  assert (d <= daysIn m 400) as Hd4.
  { rewrite daysIn_leap in Hd. destruct (Z.eqb_spec m 2) as [->|]; cbn [andb] in Hd; [|lia]. change (daysIn 2 400) with 29 in *. destruct (leap y); cbn in Hd; lia. }
  set (Y := if m <=? 2 then y - 1 else y) in *. set (Y' := if m' <=? 2 then y' - 1 else y') in *.
  destruct (Z.lt_trichotomy Y Y') as [Hlt|[Heq|Hgt]].
  - pose proof (year_days_mono (Y + 1) Y' ltac:(lia)). lia.
  - rewrite Heq. assert (doy_of m d < doy_of m' d'); [|lia]. apply doy_of_mono; try lia. unfold march_month.
    subst Y Y'. destruct (Z.leb_spec m 2), (Z.leb_spec m' 2); lia.
  - exfalso. subst Y Y'. destruct (Z.leb_spec m 2), (Z.leb_spec m' 2); lia.
Qed.

Lemma days_compare n n' : (date_key (date_of n) ?= date_key (date_of n')) = (n ?= n').
Proof.
  destruct (date_of_valid n) as [Hv Hd], (date_of_valid n') as [Hv' Hd'].
  destruct (Z.compare_spec (date_key (date_of n)) (date_key (date_of n'))) as [E|Hlt|Hlt].
  - symmetry. apply Z.compare_eq_iff. rewrite <- Hd, <- Hd'. f_equal.
    destruct (date_of n) as [y m d], (date_of n') as [y' m' d']. unfold valid_date, date_key in *. cbn in *.
    assert (daysIn m y <= 31 /\ daysIn m' y' <= 31) as [? ?] by (split; unfold daysIn; repeat case_match; lia). f_equal; lia.
  - symmetry. apply Z.compare_lt_iff. rewrite <- Hd, <- Hd'. by apply days_of_mono.
  - symmetry. apply Z.compare_gt_iff. rewrite <- Hd, <- Hd'. by apply days_of_mono.
Qed.

Lemma length_date z : year_ok z -> length (Format date_layout z) = 10%nat.
Proof.
  intros Hy. destruct (date_of_valid (local_day z)) as [[Hm Hd] _]. unfold year_ok in Hy. unfold Format.
  assert (daysIn (d_month (date_of (local_day z))) (d_year (date_of (local_day z))) <= 31) as Hd31 by (unfold daysIn; repeat case_match; lia).
  cbn [date_layout map concat format_elem]. rewrite pad4, !pad2 by (Z.div_mod_to_equations; lia). done.
Qed.

Lemma cmp_date z z' : year_ok z -> year_ok z' -> str_cmp (Format date_layout z) (Format date_layout z') = (local_day z ?= local_day z').
Proof.
  intros Hy Hy'. rewrite <- days_compare. destruct (date_of_valid (local_day z)) as [[Hm Hd] _], (date_of_valid (local_day z')) as [[Hm' Hd'] _]. unfold year_ok, Format, date_key in *.
  cbn [date_layout map concat format_elem]. destruct (date_of (local_day z)) as [y m d], (date_of (local_day z')) as [y' m' d']. cbn [d_year d_month d_day] in *.
  assert (daysIn m y <= 31 /\ daysIn m' y' <= 31) as [? ?] by (split; unfold daysIn; repeat case_match; lia).
  rewrite str_cmp_app, str_cmp_pad4 by (done || by rewrite !pad4, !length_app, !length_pad2 by (Z.div_mod_to_equations; lia)).
  cbn [app]. change (str_cmp ("-"%char :: ?a) ("-"%char :: ?b)) with (str_cmp a b).
  rewrite str_cmp_app, str_cmp_pad2 by (lia || by rewrite !length_pad2 by lia). cbn [app]. change (str_cmp ("-"%char :: ?a) ("-"%char :: ?b)) with (str_cmp a b).
  rewrite !app_nil_r, str_cmp_pad2 by lia. rewrite <- (compare_pair (100 * y + m) d) by lia. rewrite <- (compare_pair y m) by lia. by destruct (y ?= y').
Qed.

Lemma cmp_clock z z' : str_cmp (Format clock_layout z) (Format clock_layout z') = (local_sec z mod 86400 ?= local_sec z' mod 86400) /\
  length (Format clock_layout z) = length (Format clock_layout z').
Proof.
  destruct (sod_parts z) as (H1 & H2 & H3 & E), (sod_parts z') as (H1' & H2' & H3' & E'). unfold Format. cbn [clock_layout map concat format_elem app].
  set (s := local_sec z mod 86400) in *. set (s' := local_sec z' mod 86400) in *. set (h := s / 3600) in *. set (h' := s' / 3600) in *.
  set (m := s mod 3600 / 60) in *. set (m' := s' mod 3600 / 60) in *. set (c := s mod 60) in *. set (c' := s' mod 60) in *. split.
  - rewrite str_cmp_app, str_cmp_pad2 by (lia || by rewrite !length_pad2 by lia). change (str_cmp (":"%char :: ?a) (":"%char :: ?b)) with (str_cmp a b).
    rewrite str_cmp_app, str_cmp_pad2 by (lia || by rewrite !length_pad2 by lia). change (str_cmp (":"%char :: ?a) (":"%char :: ?b)) with (str_cmp a b).
    rewrite !app_nil_r, str_cmp_pad2 by lia. replace s with (60 * (60 * h + m) + c) by lia. replace s' with (60 * (60 * h' + m') + c') by lia.
    rewrite <- (compare_pair (60 * h + m) c) by lia. rewrite <- (compare_pair h m) by lia. by destruct (h ?= h').
  - rewrite !app_nil_r. repeat (rewrite ?length_app; cbn [length]). by rewrite !length_pad2 by lia.
Qed.

Lemma Format_parts sep L z : Format (date_layout ++ [Lit sep] ++ clock_layout ++ L) z = Format date_layout z ++ sep :: Format clock_layout z ++ Format L z.
Proof. unfold Format. by rewrite !map_app, !concat_app. Qed.

(** Texts of different layouts: the day decides, then the separator. *)
Lemma cmp_layouts sep sep' L L' z z' : year_ok z -> year_ok z' -> sep <> sep' ->
  str_cmp (Format (date_layout ++ [Lit sep] ++ clock_layout ++ L) z) (Format (date_layout ++ [Lit sep'] ++ clock_layout ++ L') z') =
  match local_day z ?= local_day z' with Eq => code sep ?= code sep' | c => c end.
Proof.
  intros Hy Hy' Hs. rewrite !Format_parts, str_cmp_app, cmp_date by (done || by rewrite !length_date). cbn [str_cmp].
  destruct (Z.compare_spec (code sep) (code sep')) as [E| |]; [by apply code_inj in E|done..].
Qed.

(** Texts of one layout: the second decides. *)
Lemma cmp_same_layout sep L z z' : year_ok z -> year_ok z' -> local_sec z <> local_sec z' ->
  str_cmp (Format (date_layout ++ [Lit sep] ++ clock_layout ++ L) z) (Format (date_layout ++ [Lit sep] ++ clock_layout ++ L) z') =
  (local_sec z ?= local_sec z').
Proof.
  intros Hy Hy' Hne. destruct (cmp_clock z z') as [Hc Hl].
  rewrite !Format_parts, str_cmp_app, cmp_date by (done || by rewrite !length_date). cbn [str_cmp]. rewrite Z.compare_refl, str_cmp_app, Hc by done.
  assert (0 <= local_sec z mod 86400 < 86400 /\ 0 <= local_sec z' mod 86400 < 86400) as [Hb Hb'] by (split; apply Z.mod_pos_bound; lia).
  assert ((local_sec z ?= local_sec z') = match local_day z ?= local_day z' with Eq => local_sec z mod 86400 ?= local_sec z' mod 86400 | c => c end) as E.
  { rewrite (compare_pair _ _ _ _ 86400) by done. unfold local_day. by rewrite <- !Z.div_mod. }
  rewrite E. destruct (local_day z ?= local_day z') eqn:Ed; [|done..]. destruct (Z.compare_spec (local_sec z mod 86400) (local_sec z' mod 86400)) as [Es| |]; [|done..].
  exfalso. by apply Hne, Z.compare_eq_iff.
Qed.

Section windows.
Context (offset : Z -> Z) (abbr : Z -> gostring) (mono : Z -> option gostring).
Notation text := (go_text offset abbr mono).
Notation loc := (in_zone offset abbr).

Definition day (t : Z) : Z := local_day (loc t).

(** A row as the storage writes it. *)
Definition stored (time : QueryRow -> Z) (r : QueryRow) : Prop := r_ts r = @FormatTimestamp text (time r) /\ year_ok (loc (time r)).

Lemma Time_String_parts t : exists L, @driver_text text t = Format (date_layout ++ [Lit " "] ++ clock_layout) (loc t) ++ L.
Proof. cbn [driver_text go_text]. unfold Time_String, string_layout, Format. rewrite map_app, concat_app, <- app_assoc. by eexists. Qed.

Lemma row_vs_driver t c : year_ok (loc t) -> year_ok (loc c) ->
  str_cmp (@FormatTimestamp text t) (@driver_text text c) = if day t <? day c then Lt else Gt.
Proof.
  intros Ht Hc. destruct (Time_String_parts c) as [L ->]. cbn [FormatTimestamp go_text].
  unfold RFC3339Nano. rewrite Format_parts. rewrite <- (app_nil_r clock_layout), Format_parts, <- app_assoc.
  rewrite str_cmp_app, cmp_date by (done || by rewrite !length_date). unfold day.
  destruct (Z.compare_spec (local_day (loc t)) (local_day (loc c))) as [E|H|H], (Z.ltb_spec (local_day (loc t)) (local_day (loc c))); try lia; done.
Qed.

Lemma hour_vs_row h t : year_ok (loc (truncate_hour h)) -> year_ok (loc t) ->
  str_cmp (@hour_text text h) (@FormatTimestamp text t) = if day t <? day (truncate_hour h) then Gt else Lt.
Proof.
  intros Hh Ht. cbn [FormatTimestamp hour_text go_text]. unfold plain_layout, RFC3339Nano. rewrite <- (app_nil_r clock_layout) at 1. rewrite cmp_layouts by done. unfold day.
  destruct (Z.compare_spec (local_day (loc (truncate_hour h))) (local_day (loc t))), (Z.ltb_spec (local_day (loc t)) (local_day (loc (truncate_hour h)))); try lia; done.
Qed.

Lemma filter_on_rows {A} (P : A -> Prop) (p q : A -> bool) l : Forall P l -> (forall x, P x -> p x = q x) -> List.filter p l = List.filter q l.
Proof. intros H Hpq. induction H as [|x l Hx _ IH]; [done|]. cbn. rewrite (Hpq x Hx), IH. done. Qed.

Lemma leb_of_cmp a b : text_leb a b = match str_cmp b a with Lt => false | _ => true end.
Proof. unfold text_leb, str_ltb. by destruct (str_cmp b a). Qed.

Lemma older_by_day time since r : year_ok (loc since) -> stored time r -> older (@driver_text text since) r = negb (day since <=? day (time r)).
Proof.
  intros Hs [E Hy]. unfold older, str_ltb. rewrite E, row_vs_driver by done.
  destruct (Z.ltb_spec (day (time r)) (day since)), (Z.leb_spec (day since) (day (time r))); try lia; done.
Qed.

Lemma cleanup_by_days time since f d : year_ok (loc since) -> Forall (stored time) (l_rows d) ->
  (forall j, alive f j = true) -> (forall j, delete_ok f j = true) ->
  exists d', @Cleanup text f since d = Some (Ok tt, d') /\ l_rows d' = List.filter (fun r => day since <=? day (time r)) (l_rows d).
Proof.
  intros Hs Hr Ha Hd. unfold Cleanup.
  destruct (cleanup_loop_spec (S (length (l_rows d))) 0 (Pos.to_nat 50000) f (@driver_text text since) (l_rows d) 0) as (res & rows & E & _ & Hok & Hfin); [lia|lia|].
  destruct (Hfin Ha Hd) as [n ->]. destruct (Hok n eq_refl) as [Hrows _]. rewrite E. cbn [mbind option_bind].
  assert (rows = List.filter (fun r => day since <=? day (time r)) (l_rows d)) as Er.
  { rewrite Hrows. apply (filter_on_rows (stored time)); [done|]. intros r Hst. by rewrite (older_by_day time since r Hs Hst), negb_involutive. }
  destruct n; eexists; (split; [done|exact Er]).
Qed.

(** Where the clock of the cutoff exists in the zone, it is [n] days earlier. *)
Lemma AddDays_day t n : local_sec (loc (AddDays offset t n)) = local_sec (loc t) + n * 86400 -> day (AddDays offset t n) = day t + n.
Proof. unfold day, local_day. intros ->. by rewrite Z.div_add. Qed.

(** The retention of [n] days: after a round, the rows of today and of the [n] days
    before it, and no others. *)
Lemma retention_keeps_days time n now f d :
  local_sec (loc (AddDays offset now (- n))) = local_sec (loc now) - n * 86400 -> year_ok (loc (AddDays offset now (- n))) ->
  Forall (stored time) (l_rows d) -> (forall j, alive f j = true) -> (forall j, delete_ok f j = true) ->
  exists d', retention_round offset abbr mono f n now d = Some (Ok tt, d') /\ l_rows d' = List.filter (fun r => day now - n <=? day (time r)) (l_rows d).
Proof.
  intros Hc Hy Hr Ha Hd. destruct (cleanup_by_days time _ f d Hy Hr Ha Hd) as (d' & E & Er). exists d'. split; [exact E|].
  rewrite Er, AddDays_day by lia. by replace (day now + - n) with (day now - n) by lia.
Qed.

(** C35: What the windows of the statements mean.  Times are stored and bound in three
    layouts, and compared as texts.  Where the layouts differ, only the days count: the
    retention keeps every row of the cutoff's day; the trace statistics count from the
    beginning of the day of [since]; and the statistics of the dashboard leave out every
    hour of that day, so that "the last 24 hours" are those since midnight.  Where they
    are the same, a row is in the window as soon as its second is later, and out of it
    when its second is earlier. *)
Theorem time_windows (time : QueryRow -> Z) (hour_of : gostring -> Z) (since : Z) (f : CleanFaults) (d : LogDb)
    (Hs : year_ok (loc since)) (Hr : Forall (stored time) (l_rows d))
    (Hh : map_Forall (fun k _ => k = @hour_text text (hour_of k) /\ year_ok (loc (truncate_hour (hour_of k)))) (l_hours d)) :
  ((forall j, alive f j = true) -> (forall j, delete_ok f j = true) -> exists d', @Cleanup text f since d = Some (Ok tt, d') /\
     l_rows d' = List.filter (fun r => day since <=? day (time r)) (l_rows d)) /\
  traced (@driver_text text since) (l_rows d) = List.filter (fun r => (day since <=? day (time r)) && r_blocked r && has_trace r) (l_rows d) /\
  hours_since (@FormatTimestamp text since) (l_hours d) =
    map snd (List.filter (fun kh => day since <? day (truncate_hour (hour_of kh.1))) (map_to_list (l_hours d))) /\
  (forall r, r ∈ l_rows d -> local_sec (loc since) <> local_sec (loc (time r)) ->
     (r ∈ since_rows (@FormatTimestamp text since) (l_rows d) <-> local_sec (loc since) < local_sec (loc (time r)))).
Proof.
  split_and!.
  - intros Ha Hd. by apply cleanup_by_days.
  - apply (filter_on_rows (stored time)); [done|]. intros r Hst. pose proof (older_by_day time since r Hs Hst) as H. unfold older in H. unfold text_leb. by rewrite H, negb_involutive.
  - unfold hours_since. f_equal. apply (filter_on_rows (fun kh => kh.1 = @hour_text text (hour_of kh.1) /\ year_ok (loc (truncate_hour (hour_of kh.1))))).
    + apply Forall_forall. intros [k h] Hk. apply elem_of_map_to_list in Hk. exact (Hh k h Hk).
    + intros [k h] [E Hy]. cbn [fst] in *. rewrite E at 1. rewrite leb_of_cmp, hour_vs_row by done. by destruct (_ <? _).
  - intros r Hin Hne. rewrite Forall_forall in Hr. destruct (Hr r Hin) as [E Hy]. unfold since_rows. rewrite list_elem_of_In, filter_In, <- list_elem_of_In.
    rewrite E, leb_of_cmp. cbn [FormatTimestamp go_text]. unfold RFC3339Nano. rewrite cmp_same_layout by done.
    destruct (Z.compare_spec (local_sec (loc (time r))) (local_sec (loc since))); split; try tauto; try lia; done.
Qed.

(** C36: Times survive the database.  In a zone whose offsets are whole minutes and
    whose names the library reads, a time of the years 0 to 9999 that is stored by
    [FormatTimestamp], or bound by the driver with its zone name and a reading of the
    monotonic clock, is read back by [parseSQLiteTime] with its nanoseconds and its
    offset; and the migration script turns the second text into the first. *)
Theorem time_text_roundtrip (t : Z) (Hy : year_ok (loc t)) (Hz : zone_ok (offset t) (abbr t)) :
  parseSQLiteTime (@FormatTimestamp text t) = (t, offset t) /\
  parseSQLiteTime (@driver_text text t) = (t, offset t) /\
  parseGoTimeString (@driver_text text t) = Some (@FormatTimestamp text t).
Proof.
  split_and!.
  - apply (parse_timestamp_text (loc t)); [done|apply Hz].
  - exact (parse_driver_text (loc t) (mono t) Hy Hz).
  - exact (script_text (loc t) (mono t) Hy Hz).
Qed.

End windows.

(** ** Concrete times *)

Definition cet (t : Z) : Z := 3600.
Definition cet_name (t : Z) : gostring := str "CET".
Definition uptime (t : Z) : option gostring := Some (str "+20.711025655").
Definition utc (t : Z) : Z := 0.
Definition utc_name (t : Z) : gostring := str "UTC".
Definition no_uptime (t : Z) : option gostring := None.

(** 2026-01-01T10:00:47.185322115+01:00 *)
Definition new_year : Z := 1767258047185322115.

Lemma cet_zone_ok t : zone_ok (cet t) (cet_name t).
Proof. split; [by split|]. split; [apply (bool_decide_unpack _); by vm_compute|]. right. by split; vm_compute. Qed.

Lemma time_text_roundtrip_witness :
  parseSQLiteTime (str "2026-01-01 10:00:47.185322115 +0100 CET m=+20.711025655") = (new_year, 3600) /\
  parseGoTimeString (str "2026-01-01 10:00:47.185322115 +0100 CET m=+20.711025655") = Some (str "2026-01-01T10:00:47.185322115+01:00").
Proof.
  destruct (time_text_roundtrip cet cet_name uptime new_year) as (_ & H2 & H3); [by vm_compute|apply cet_zone_ok|].
  split; [exact H2|exact H3].
Defined.

Definition noon_row (t : Z) : QueryRow :=
  MkRow 1 (Format RFC3339Nano (in_zone cet cet_name t)) (str "10.0.0.1") (str "a.example.com") (str "A") 0 false false None TraceNull.

Definition one_hour : HourlyStat := MkHourlyStat 1 0 0 0 1 1.

Lemma one_key_Forall (k : gostring) (P : gostring -> Prop) (h : HourlyStat) : P k -> map_Forall (fun k _ => P k) ({[ k := h ]} : gmap gostring HourlyStat).
Proof. intros H. by apply map_Forall_singleton. Qed.

(** One row and one hour, two hours after the start of the window and on its day: the
    row stays and the hour is not counted. *)
Lemma time_windows_witness :
  let later := new_year + 7200 * second_ns in
  let d := MkLogDb [noon_row later] ∅ ∅ {[ @hour_text (go_text cet cet_name uptime) later := one_hour ]} [] in
  (exists d', @Cleanup (go_text cet cet_name uptime) (MkCleanFaults (fun _ => true) (fun _ => true) true true true true) later d = Some (Ok tt, d') /\ l_rows d' = l_rows d) /\
  hours_since (@FormatTimestamp (go_text cet cet_name uptime) new_year) (l_hours d) = [].
Proof.
  intros later d.
  assert (Forall (stored cet cet_name uptime (fun _ => later)) (l_rows d)) as Hr by (repeat constructor; by vm_compute).
  assert (map_Forall (fun k (_ : HourlyStat) => k = @hour_text (go_text cet cet_name uptime) later /\ year_ok (in_zone cet cet_name (truncate_hour later))) (l_hours d)) as Hh.
  { apply (one_key_Forall _ (fun k => k = _ /\ _)). split; [reflexivity|by vm_compute]. }
  destruct (time_windows cet cet_name uptime (fun _ => later) (fun _ => later) later (MkCleanFaults (fun _ => true) (fun _ => true) true true true true) d ltac:(by vm_compute) Hr Hh) as (H1 & _).
  destruct (time_windows cet cet_name uptime (fun _ => later) (fun _ => later) new_year (MkCleanFaults (fun _ => true) (fun _ => true) true true true true) d ltac:(by vm_compute) Hr Hh) as (_ & _ & H3 & _).
  split; [|by rewrite H3; vm_compute]. destruct H1 as (d' & E & Hd); [done..|]. exists d'. split; [exact E|]. rewrite Hd. by vm_compute.
Defined.

(** In a zone without transitions every clock exists. *)
Lemma AddDays_fixed t n : local_sec (in_zone cet cet_name (AddDays cet t n)) = local_sec (in_zone cet cet_name t) + n * 86400.
Proof.
  unfold AddDays, local_sec, in_zone, cet. cbn -[Z.mul Z.div]. replace (t + 3600 * second_ns + n * 86400 * second_ns - 3600 * second_ns) with (t + (n * 86400) * second_ns) by lia.
  unfold second_ns. rewrite Z.div_add by lia. lia.
Qed.

(** Within one second of UTC the order of the texts is not that of the times. *)
Lemma utc_order_reversed :
  str_lt (@FormatTimestamp (go_text utc utc_name no_uptime) (500 * 1000000)) (@FormatTimestamp (go_text utc utc_name no_uptime) 0).
Proof. by vm_compute. Qed.

(** Rows in another zone than the bound: half past nine of UTC, stored in Berlin, counts
    as after ten of UTC. *)
Lemma zones_compared_as_texts :
  let row := @FormatTimestamp (go_text cet cet_name no_uptime) (34200 * second_ns) in
  let since := @FormatTimestamp (go_text utc utc_name no_uptime) (36000 * second_ns) in
  text_leb since row = true.
Proof. by vm_compute. Qed.

(** ** The script *)

(** Nothing is lost: the ids stay, rows outside the condition stay as they are, and every
    row that it finds in the text of [Time.String] gets the text of [FormatTimestamp]. *)
Lemma script_rows (zone : gostring -> Zoned) rows :
  Forall (fun r => needs_migration r.2 = true -> exists mono, r.2 = Time_String (zone r.2) mono /\ year_ok (zone r.2) /\ zone_ok (z_off (zone r.2)) (z_abbr (zone r.2))) rows ->
  migrate_timestamps (fun _ => true) rows =
  (map (fun r => if needs_migration r.2 then (r.1, Format RFC3339Nano (zone r.2)) else r) rows,
   Z.of_nat (length (List.filter (fun r => needs_migration r.2) rows)), 0).
Proof.
  intros H. unfold migrate_timestamps. rewrite Forall_forall in H.
  assert (forall r, r ∈ rows -> needs_migration r.2 = true -> parseGoTimeString r.2 = Some (Format RFC3339Nano (zone r.2))) as Hp.
  { intros r Hr Hn. destruct (H r Hr Hn) as (m & E & Hy & Hz). rewrite E at 1. exact (script_text _ m Hy Hz). }
  assert (List.filter (fun r => bool_decide (is_Some (migrate_row true r.2))) (List.filter (fun r => needs_migration r.2) rows) = List.filter (fun r => needs_migration r.2) rows) as ->.
  { apply forallb_filter_id, forallb_forall. intros r Hr. apply filter_In in Hr as [Hr Hn]. apply bool_decide_eq_true_2. unfold migrate_row. rewrite (Hp r) by (done || by apply list_elem_of_In). by eexists. }
  f_equal; [f_equal|lia]. apply map_ext_in. intros r Hr. destruct (needs_migration r.2) eqn:E; [|done]. unfold migrate_row. by rewrite (Hp r) by (done || by apply list_elem_of_In).
Qed.

(** A text without the reading of the clock is not found. *)
Lemma script_misses_plain : needs_migration (Time_String (in_zone cet cet_name new_year) None) = false /\
  needs_migration (Time_String (in_zone cet cet_name new_year) (uptime new_year)) = true.
Proof. by vm_compute. Qed.
