(* ===== verification/Resolver.v ===== *)
(** * Outbound resolution (pkg/resolver/resolver.go, http_client.go)

    The resolver behind the downloads of the lists and behind ACME: which name servers
    are asked for a host, in which order, and which address is dialled.  A lookup at a
    server, the lookup of the host's own resolver, and the dialer are parameters; what is
    asked and dialled is recorded. *)

From Stdlib Require Import Ascii.
From S2P Require Import Prelude GoStrings GoStrconv GoNet Doh.
From stdpp Require Import options.
Local Open Scope Z_scope.

(** ** Data *)

Record Resolver := MkResolver { upstreams : list gostring; strict : bool }.

Definition newWithOptions (us : list gostring) (st : bool) : Resolver := MkResolver us st.
Definition New (us : list gostring) : Resolver := newWithOptions us false.
Definition NewStrict (us : list gostring) : Resolver := newWithOptions us true.

(** Who is asked. *)
Inductive Source := System | Upstream (u : gostring).

#[global] Instance Source_eq_dec : EqDecision Source.
Proof. solve_decision. Defined.

Inductive LookupErr := StrictFailed | SystemFailed | AllFailed.
Inductive DialErr := InvalidAddress | LookupFailed (e : LookupErr) | NoAddresses | DialFailed.

Section resolver.
Context (ask : Source -> gostring -> gostring -> option (list IP)).
Context (Dial : gostring -> gostring -> bool).

(** ** Operations *)

(** The loop over the upstreams: the first that answers, and those that were asked. *)
Fixpoint try_upstreams (us : list gostring) (network host : gostring) : option (list IP) * list Source :=
  match us with
  | [] => (None, [])
  | u :: us' =>
      match ask (Upstream u) network host with
      | Some ips => (Some ips, [Upstream u])
      | None => let '(r, tr) := try_upstreams us' network host in (r, Upstream u :: tr)
      end
  end.

Definition LookupIP (r : Resolver) (network host : gostring) : result LookupErr (list IP) * list Source :=
  match upstreams r with
  | [] => (match ask System network host with Some ips => Ok ips | None => Err SystemFailed end, [System])
  | us =>
      let '(found, tr) := try_upstreams us network host in
      match found with
      | Some ips => (Ok ips, tr)
      | None =>
          if strict r then (Err StrictFailed, tr)
          else (match ask System network host with Some ips => Ok ips | None => Err AllFailed end, tr ++ [System])
      end
  end.

(** The address that is dialled, if any, and the servers asked for it. *)
Definition dial_target (r : Resolver) (addr : gostring) : result DialErr gostring * list Source :=
  match SplitHostPort addr with
  | Err _ => (Err InvalidAddress, [])
  | Ok (host, port) =>
      match ParseIP host with
      | Some _ => (Ok addr, [])
      | None =>
          let '(res, tr) := LookupIP r (str "ip") host in
          (match res with
           | Err e => Err (LookupFailed e)
           | Ok [] => Err NoAddresses
           | Ok (ip :: _) => Ok (JoinHostPort (IP_String ip) port)
           end, tr)
      end
  end.

Definition DialContext (r : Resolver) (network addr : gostring) : result DialErr gostring * list Source :=
  let '(res, tr) := dial_target r addr in
  (match res with Ok a => if Dial network a then Ok a else Err DialFailed | Err e => Err e end, tr).

(** How a client resolves names: by the default transport or through the resolver. *)
Inductive Client := DefaultTransport | Through (r : Resolver).

Definition NewHTTPClient (r : Resolver) : Client := match upstreams r with [] => DefaultTransport | _ => Through r end.

(** The client of an ACME order, and of the list downloads. *)
Definition acme_client (us : list gostring) : Client := match us with [] => DefaultTransport | _ => NewHTTPClient (NewStrict us) end.
Definition blocklist_client (us : list gostring) : Client := NewHTTPClient (New us).

(** The default transport resolves by the system. *)
Definition client_dial (c : Client) (network addr : gostring) : result DialErr gostring * list Source :=
  match c with
  | Through r => DialContext r network addr
  | DefaultTransport => DialContext (MkResolver [] false) network addr
  end.

(** ** Who is asked *)

(** The upstreams up to the first that answers. *)
Lemma try_upstreams_spec us network host :
  let '(found, tr) := try_upstreams us network host in
  match found with
  | Some ips => exists before u after, us = before ++ u :: after /\ tr = map Upstream (before ++ [u]) /\
      ask (Upstream u) network host = Some ips /\ Forall (fun v => ask (Upstream v) network host = None) before
  | None => tr = map Upstream us /\ Forall (fun v => ask (Upstream v) network host = None) us
  end.
Proof.
  induction us as [|u us IH]; cbn [try_upstreams]; [by split|]. destruct (ask (Upstream u) network host) as [ips|] eqn:E.
  - by exists [], u, us.
  - destruct (try_upstreams us network host) as [[ips|] tr].
    + destruct IH as (b & v & a & -> & -> & Hv & Hb). exists (u :: b), v, a. split_and!; [done|done|done|by constructor].
    + destruct IH as [-> Hf]. split; [done|by constructor].
Qed.

Lemma system_not_upstream us : System ∉ map Upstream us.
Proof. intros H. apply list_elem_of_fmap in H as (u & ? & _). done. Qed.

(** The system's resolver is asked when there is no upstream, or as the last resort. *)
Lemma LookupIP_asks r network host :
  let '(res, tr) := LookupIP r network host in
  (System ∈ tr <-> upstreams r = [] \/ (strict r = false /\ Forall (fun v => ask (Upstream v) network host = None) (upstreams r))) /\
  (exists k, tr = map Upstream (take k (upstreams r)) \/ tr = map Upstream (upstreams r) ++ [System]) /\
  (forall ips, res = Ok ips -> exists s, last tr = Some s /\ ask s network host = Some ips).
Proof.
  unfold LookupIP. destruct (upstreams r) as [|u0 us0] eqn:Eu.
  { split_and!; [split; [by left|intros _; by left]|exists 0%nat; by right|]. intros ips H. exists System. split; [done|]. destruct (ask System network host); [by injection H as ->|done]. }
  set (us := u0 :: us0). assert (us <> []) as Hne by done. clearbody us. clear u0 us0 Eu. pose proof (try_upstreams_spec us network host) as H. destruct (try_upstreams us network host) as [[ips|] tr].
  - destruct H as (b & v & a & -> & -> & Hv & Hb). split_and!.
    + split; [intros H; by apply system_not_upstream in H|]. intros [?|[_ Hf]]; [by destruct b|]. apply Forall_app in Hf as [_ Hf]. apply Forall_cons in Hf as [Hf _]. congruence.
    + exists (S (length b)). left. f_equal. rewrite take_app_ge by lia. replace (S (length b) - length b)%nat with 1%nat by lia. done.
    + intros ips' [= <-]. exists (Upstream v). split; [|done]. rewrite map_app. apply last_snoc.
  - destruct H as [-> Hf]. destruct (strict r) eqn:Es.
    + split_and!; [|exists (length us); left; by rewrite firstn_all|done].
      split; [intros H; by apply system_not_upstream in H|]. intros [?|[? _]]; done.
    + split_and!; [|exists 0%nat; by right|].
      * split; [intros _; right; by split|]. intros _. apply elem_of_app. right. by apply list_elem_of_singleton.
      * intros ips H. exists System. split; [by rewrite last_snoc|]. destruct (ask System network host); [by injection H as ->|done].
Qed.

End resolver.

(** ** host:port *)

Lemma LastIndexByte_last a b c : c ∉ b -> LastIndexByte (a ++ c :: b) c = Some (length a).
Proof.
  intros H. assert (LastIndexByte b c = None) as Hb.
  { induction b as [|x b IH]; [done|]. apply not_elem_of_cons in H as [Hx H]. cbn. by rewrite IH, bool_decide_eq_false_2 by congruence. }
  induction a as [|x a IH]; cbn [app LastIndexByte length]; [rewrite Hb; by rewrite bool_decide_eq_true_2|by rewrite IH].
Qed.

Lemma Index_first_byte a b c : c ∉ a -> IndexByte (a ++ c :: b) c = Some (length a).
Proof.
  unfold IndexByte. induction a as [|x a IH]; intros H; cbn [app GoStrings.Index].
  - by rewrite (HasPrefix_app [c] b : HasPrefix (c :: b) [c] = true).
  - apply not_elem_of_cons in H as [Hx H]. rewrite IH by done. destruct (HasPrefix (x :: a ++ c :: b) [c]) eqn:E; [|done].
    apply HasPrefix_spec in E as [k [= ->]]. done.
Qed.

Definition no_brackets (s : gostring) : Prop := "["%char ∉ s /\ "]"%char ∉ s.

Lemma no_contains c s : c ∉ s -> Contains s [c] = false.
Proof. by intros H; apply Contains_byte_false. Qed.

Lemma Split_Join host port : no_brackets host -> no_brackets port -> ":"%char ∉ port -> SplitHostPort (JoinHostPort host port) = Ok (host, port).
Proof.
  intros [H1 H2] [P1 P2] P3. unfold JoinHostPort. change (str ":") with [":"%char]. destruct (Contains host [":"%char]) eqn:Ec.
  - change (str "[" ++ host ++ str "]:" ++ port) with ("["%char :: host ++ "]"%char :: ":"%char :: port).
    unfold SplitHostPort. assert (LastIndexByte ("["%char :: host ++ "]"%char :: ":"%char :: port) ":" = Some (S (S (length host)))) as ->.
    { change ("["%char :: host ++ "]"%char :: ":"%char :: port) with ("["%char :: host ++ ["]"%char] ++ ":"%char :: port).
      rewrite (app_assoc host), app_comm_cons, LastIndexByte_last by done. cbn [length]. rewrite length_app. cbn [length]. f_equal. lia. }
    change (HasPrefix ("["%char :: host ++ "]"%char :: ":"%char :: port) (str "[")) with (HasPrefix (["["%char] ++ (host ++ "]"%char :: ":"%char :: port)) ["["%char]).
    rewrite HasPrefix_app. rewrite app_comm_cons, Index_first_byte by (rewrite not_elem_of_cons; done). cbn [length].
    rewrite length_app. cbn [length]. rewrite (proj2 (Nat.eqb_neq _ _)) by (cbn [length]; lia). rewrite (proj2 (Nat.eqb_eq _ _)) by lia.
    cbn [app drop]. replace (S (length host) - 1)%nat with (length host) by lia. rewrite drop_0, take_app_length.
    change (str "[") with ["["%char]. change (str "]") with ["]"%char].
    replace (S (length host) + 1)%nat with (S (S (length host))) by lia. replace (S (S (length host)) + 1)%nat with (S (S (S (length host)))) by lia. cbn [drop].
    assert (drop (S (length host)) (host ++ "]"%char :: ":"%char :: port) = ":"%char :: port) as E1.
    { rewrite drop_app_ge by lia. by replace (S (length host) - length host)%nat with 1%nat by lia. }
    assert (drop (S (S (length host))) (host ++ "]"%char :: ":"%char :: port) = port) as E2.
    { rewrite drop_app_ge by lia. by replace (S (S (length host)) - length host)%nat with 2%nat by lia. }
    rewrite E1, E2. rewrite !no_contains; [done| |].
    + rewrite not_elem_of_cons. done.
    + rewrite not_elem_of_app, !not_elem_of_cons. done.
  - apply Contains_byte_false in Ec. change (host ++ [":"%char] ++ port) with (host ++ ":"%char :: port). unfold SplitHostPort. rewrite LastIndexByte_last by done.
    assert (HasPrefix (host ++ ":"%char :: port) (str "[") = false) as ->.
    { apply not_true_iff_false. intros E. apply HasPrefix_spec in E as [k E]. destruct host; injection E as E _; [done|]. apply H1. rewrite E. by left. }
    rewrite take_app_length. change (str ":") with [":"%char]. rewrite no_contains by done. rewrite !drop_0. change (str "[") with ["["%char]. change (str "]") with ["]"%char].
    rewrite !no_contains by (rewrite not_elem_of_app, not_elem_of_cons; done). do 2 f_equal. rewrite drop_app_ge by lia. by replace (length host + 1 - length host)%nat with 1%nat by lia.
Qed.

Lemma LastIndexByte_after s c i : LastIndexByte s c = Some i -> c ∉ drop (i + 1) s.
Proof.
  revert i. induction s as [|x s IH]; intros i H; [done|]. cbn [LastIndexByte] in H. destruct (LastIndexByte s c) as [k|] eqn:E.
  - injection H as <-. cbn. by apply IH.
  - case_bool_decide; [|done]. injection H as <-. cbn. rewrite drop_0. clear -E. induction s as [|y s IH]; [apply not_elem_of_nil|].
    cbn [LastIndexByte] in E. destruct (LastIndexByte s c); [done|]. case_bool_decide; [done|]. rewrite not_elem_of_cons. split; [congruence|by apply IH].
Qed.

Lemma drop_more c j i (s : gostring) : (j <= i)%nat -> c ∉ drop j s -> c ∉ drop i s.
Proof. intros Hji H Hc. apply H. replace i with (j + (i - j))%nat in Hc by lia. rewrite <- drop_drop in Hc.
  rewrite <- (take_drop (i - j) (drop j s)). apply elem_of_app. by right. Qed.

Lemma Split_port addr host port : SplitHostPort addr = Ok (host, port) -> ":"%char ∉ port /\ no_brackets port.
Proof.
  unfold SplitHostPort. destruct (LastIndexByte addr ":") as [i|] eqn:Ei; [|done]. pose proof (LastIndexByte_after _ _ _ Ei) as Hc.
  set (finish := fun (h : gostring) (j k : nat) =>
    if Contains (drop j addr) (str "[") then Err ErrUnexpectedBracket
    else if Contains (drop k addr) (str "]") then Err ErrUnexpectedBracket else Ok (h, drop (i + 1) addr)).
  assert (forall h j k, (j <= i + 1)%nat -> (k <= i + 1)%nat -> finish h j k = Ok (host, port) -> ":"%char ∉ port /\ no_brackets port) as Hf.
  { intros h j k Hj Hk. unfold finish. destruct (Contains (drop j addr) (str "[")) eqn:E1; [done|]. destruct (Contains (drop k addr) (str "]")) eqn:E2; [done|].
    intros [= _ <-]. apply Contains_byte_false in E1, E2. split; [done|]. split; [by apply (drop_more _ j)|by apply (drop_more _ k)]. }
  destruct (HasPrefix addr (str "[")).
  - destruct (IndexByte addr "]") as [e|]; [|done]. destruct (Nat.eqb_spec (e + 1) (length addr)); [done|].
    destruct (Nat.eqb_spec (e + 1) i); [|by destruct (HasPrefix _ _)]. apply (Hf (take (e - 1) (drop 1 addr)) 1%nat (e + 1)%nat); lia.
  - destruct (Contains (take i addr) _); [done|]. apply (Hf (take i addr) 0%nat 0%nat); lia.
Qed.

(** ** The text of an address *)

Definition bytes_ok (ip : IP) : Prop := Forall (fun b => 0 <= b < 256) ip.

Lemma Join_no c sep l : c ∉ sep -> Forall (fun s => c ∉ s) l -> c ∉ Join l sep.
Proof.
  intros Hs H. induction H as [|s l Hc _ IH]; [apply not_elem_of_nil|]. destruct l as [|t l]; [done|].
  change (Join (s :: t :: l) sep) with (s ++ sep ++ Join (t :: l) sep). rewrite !not_elem_of_app. done.
Qed.

Lemma hex_lower_no c z : 0 <= z < 16 -> c = "["%char \/ c = "]"%char -> c <> hex_lower z.
Proof.
  intros Hz Hc E. assert (code c = code (hex_lower z)) as Ec by by rewrite E. unfold hex_lower in Ec. rewrite code_chr in Ec by (destruct (Z.ltb_spec z 10); lia).
  destruct Hc as [-> | ->]; [change (code "[") with 91 in Ec|change (code "]") with 93 in Ec]; destruct (Z.ltb_spec z 10); lia.
Qed.

Lemma skip_zeros_in ds x : x ∈ skip_zeros ds -> x ∈ ds.
Proof. induction ds as [|[|p|p] [|d ds] IH]; cbn; try done. intros H. right. by apply IH. Qed.

Lemma hex_text_no c g : 0 <= g < 65536 -> c = "["%char \/ c = "]"%char -> c ∉ hex_text g.
Proof.
  intros Hg Hc H. unfold hex_text in H. apply list_elem_of_fmap in H as (z & E & Hz). apply skip_zeros_in in Hz. revert E. apply hex_lower_no; [|done].
  rewrite !elem_of_cons in Hz. destruct Hz as [->|[->|[->|[->|Hn]]]]; [| | | |by apply elem_of_nil in Hn]; Z.div_mod_to_equations; lia.
Qed.

Lemma groups_range b : bytes_ok b -> Forall (fun g => 0 <= g < 65536) (groups16 b).
Proof.
  unfold bytes_ok. remember (length b) as n eqn:En. revert b En. induction n as [n IH] using lt_wf_ind. intros [|x [|y b]] En H; try constructor.
  - apply Forall_cons in H as [? H]. apply Forall_cons in H as [? H]. lia.
  - apply Forall_cons in H as [? H]. apply Forall_cons in H as [? H]. apply (IH (length b)); [subst; cbn; lia|done|done].
Qed.

Lemma To4_bytes ip b : bytes_ok ip -> To4 ip = Some b -> bytes_ok b.
Proof. unfold To4, bytes_ok. intros H E. repeat case_match; simplify_eq; try done; by apply Forall_drop. Qed.

Lemma IP_String_clean ip : bytes_ok ip -> no_brackets (IP_String ip).
Proof.
  intros H. assert (forall c, c = "["%char \/ c = "]"%char -> c ∉ IP_String ip) as Hc; [|split; apply Hc; [by left|by right]].
  intros c Hc. unfold IP_String. destruct (To4 ip) as [b|] eqn:E4.
  - apply Join_no; [destruct Hc as [-> | ->]; vm_compute; set_solver|]. apply Forall_forall. intros s Hs. apply list_elem_of_fmap in Hs as (x & -> & _).
    intros Hin. pose proof (Itoa_bytes x) as Hb. rewrite Forall_forall in Hb. destruct (Hb c Hin) as [?|?]; destruct Hc as [-> | ->]; done.
  - case_bool_decide; [destruct Hc as [-> | ->]; vm_compute; set_solver|]. unfold v6_text. destruct (zero_run (groups16 ip)) as [start len].
    assert (forall l, Forall (fun g => 0 <= g < 65536) l -> c ∉ Join (map hex_text l) (str ":")) as Hj.
    { intros l Hl. apply Join_no; [destruct Hc as [-> | ->]; vm_compute; set_solver|]. apply Forall_fmap. eapply Forall_impl; [exact Hl|]. intros g Hg. by apply hex_text_no. }
    pose proof (groups_range ip H) as Hg. destruct (len =? 0)%nat; [by apply Hj|]. rewrite !not_elem_of_app. split_and!; [by apply Hj, Forall_take| |by apply Hj, Forall_drop].
    destruct Hc as [-> | ->]; vm_compute; set_solver.
Qed.

(** ** Dialling *)

Section dialling.
Context (ask : Source -> gostring -> gostring -> option (list IP)) (Dial : gostring -> gostring -> bool).
Context (Hbytes : forall s network host ips, ask s network host = Some ips -> Forall bytes_ok ips).

(** C37: Outbound names go to the configured servers.  Dialling asks the upstreams in
    their order up to the first that answers, and the system's resolver only without
    upstreams, or as a last resort when the resolver is not strict; an address given as
    a number asks nobody.  What is dialled is the first address of the last answer with
    the port of the request, and it is read back as such.  The client of an ACME order
    with upstreams never asks the system. *)
Theorem outbound_resolution (r : Resolver) (network addr host port : gostring) (Ha : SplitHostPort addr = Ok (host, port)) :
  let '(res, tr) := DialContext ask Dial r network addr in
  (exists k, tr = map Upstream (take k (upstreams r)) \/ tr = map Upstream (upstreams r) ++ [System]) /\
  (System ∈ tr <-> ParseIP host = None /\
     (upstreams r = [] \/ (strict r = false /\ Forall (fun v => ask (Upstream v) (str "ip") host = None) (upstreams r)))) /\
  (forall a, res = Ok a -> Dial network a = true /\
     match ParseIP host with
     | Some _ => a = addr /\ tr = []
     | None => exists s ip ips, last tr = Some s /\ ask s (str "ip") host = Some (ip :: ips) /\ SplitHostPort a = Ok (IP_String ip, port)
     end) /\
  (forall us, us <> [] -> System ∉ snd (client_dial ask Dial (acme_client us) network addr)).
Proof using Type*.
  assert (forall us, us <> [] -> System ∉ snd (client_dial ask Dial (acme_client us) network addr)) as Hacme.
  { intros us Hus. destruct us as [|u us]; [done|]. cbn [acme_client]. unfold NewHTTPClient, client_dial, DialContext, dial_target. cbn [NewStrict newWithOptions upstreams].
    rewrite Ha. destruct (ParseIP host); [apply not_elem_of_nil|].
    pose proof (LookupIP_asks ask (newWithOptions (u :: us) true) (str "ip") host) as Hl. destruct (LookupIP ask _ _ _) as [res tr]. cbn.
    destruct Hl as [Hl _]. intros Hin. apply Hl in Hin as [?|[? _]]; done. }
  destruct (Split_port _ _ _ Ha) as [Hp1 Hp2]. unfold DialContext, dial_target. rewrite Ha. destruct (ParseIP host) as [ip0|] eqn:Ep.
  - split_and!; [exists 0%nat; by left| |intros a|exact Hacme].
    + split; [intros H; by apply elem_of_nil in H|]. by intros [? _].
    + destruct (Dial network addr) eqn:Ed; [|done]. intros [= <-]. done.
  - pose proof (LookupIP_asks ask r (str "ip") host) as Hl. destruct (LookupIP ask r (str "ip") host) as [res tr]. destruct Hl as (H1 & H2 & H3).
    split_and!; [exact H2|by rewrite H1; split; [intros ?; by split|intros [_ ?]]| |exact Hacme].
    intros a. destruct res as [[|ip ips]|e]; try done. destruct (Dial network _) eqn:Ed; [|done]. intros [= <-]. split; [done|].
    destruct (H3 (ip :: ips) eq_refl) as (s & Hs & Hask). exists s, ip, ips. split_and!; [done|done|].
    apply Split_Join; [|done|done]. apply IP_String_clean. by apply Hbytes, Forall_cons in Hask as [? _].
Qed.

End dialling.

(** ** A concrete lookup *)

(** The first server is down, the second has an address, and the system another. *)
Definition sample_ask (s : Source) (network host : gostring) : option (list IP) :=
  match s with
  | System => Some [[127; 0; 0; 1]]
  | Upstream u => if bytes_eqb u (str "9.9.9.9:53") then Some [[32; 1; 13; 184; 0; 0; 0; 0; 0; 0; 0; 0; 0; 0; 0; 7]] else None
  end.

Lemma sample_ask_bytes s network host ips : sample_ask s network host = Some ips -> Forall bytes_ok ips.
Proof.
  assert (forall ip, bytes_ok ip -> Forall bytes_ok [ip]) as H1 by (intros; by repeat constructor).
  destruct s as [|u]; cbn [sample_ask]; [|destruct (bytes_eqb _ _)]; intros [= <-]; apply H1; unfold bytes_ok; repeat constructor; lia.
Qed.

Lemma outbound_resolution_witness :
  DialContext sample_ask (fun _ _ => true) (New [str "1.1.1.1:53"; str "9.9.9.9:53"]) (str "tcp") (str "lists.example.com:443") =
    (Ok (str "[2001:db8::7]:443"), [Upstream (str "1.1.1.1:53"); Upstream (str "9.9.9.9:53")]) /\
  System ∉ snd (client_dial sample_ask (fun _ _ => true) (acme_client [str "1.1.1.1:53"]) (str "tcp") (str "lists.example.com:443")).
Proof.
  pose proof (outbound_resolution sample_ask (fun _ _ => true) sample_ask_bytes (New [str "1.1.1.1:53"; str "9.9.9.9:53"])
    (str "tcp") (str "lists.example.com:443") (str "lists.example.com") (str "443") ltac:(by vm_compute)) as H.
  split; [by vm_compute|]. destruct (DialContext _ _ _ _ _). destruct H as (_ & _ & _ & H). apply H. done.
Defined.

(** A strict resolver without upstreams asks the system. *)
Lemma strict_without_upstreams : snd (LookupIP sample_ask (NewStrict []) (str "ip") (str "lists.example.com")) = [System].
Proof. done. Qed.
