(* ===== verification/Pipeline.v ===== *)
(** * From the handler to the table, and the shutdown (cmd/glory-hole/main.go;
    pkg/dns/query_logger.go, pkg/storage/sqlite.go)

    The query logger of QueryLogger.v and the storage of QueryStore.v put together the
    way main does: the workers of the one are the callers of the other.  A run is any
    interleaving of their steps.  At the end main closes the storage, and the query
    logger after it, by a deferred call. *)

From S2P Require Import QueryLogger.
From S2P Require Import Prelude GoStrings.
From S2P Require Import QueryStore Config.
From stdpp Require Import options.
Local Open Scope Z_scope.

Module QL := QueryLogger.

(** ** Composition *)

(** [refused]: the entries the storage did not take; the error is only printed. *)
Record Pipe := MkPipe { p_logger : QL.QueryLogger QueryLog; p_store : SQLiteStorage; p_refused : list QueryLog }.

(** The size of the channel and of the pool. *)
Definition logger_sizes (c : QueryLoggerConfig) : Z * Z :=
  (if ql_BufferSize c =? 0 then 5000 else ql_BufferSize c, if ql_Workers c =? 0 then 2 else ql_Workers c).

(** The query logger is started when it is enabled, or not configured at all. *)
Definition logger_on (c : QueryLoggerConfig) : bool := ql_Enabled c || ((ql_BufferSize c =? 0) && (ql_Workers c =? 0)).

Definition start_pipe (c : QueryLoggerConfig) (bufferSize batchSize : nat) : option Pipe :=
  if logger_on c then
    let '(b, w) := logger_sizes c in
    q ← QL.NewQueryLogger b w; Some (MkPipe q (NewSQLiteStorage bufferSize batchSize) [])
  else None.

Inductive PLabel :=
| Logger (s : QL.Step QueryLog)            (** a step of the query logger that does not write *)
| Write (i : nat) (ctx pick : bool)      (** worker [i] calls [LogQuery] *)
| Store (l : Label).                     (** a step of the storage's own *)

Definition writes (s : QL.Step QueryLog) : bool := match s with QL.Log _ => true | _ => false end.
Definition logs (l : Label) : bool := match l with LLog _ _ _ => true | _ => false end.

Section pipe.
Context {T : TimeText}.

Definition pipe_step (l : PLabel) (p : Pipe) : Outcome Pipe :=
  match l with
  | Logger s =>
      if writes s then Blocks
      else match QL.run_step s (p_logger p) with
           | QL.Next q => Next (MkPipe q (p_store p) (p_refused p))
           | QL.Blocked => Blocks
           | QL.Panics => Panics
           end
  | Write i ctx pick =>
      match QL.pool (p_logger p) !! i with
      | Some (QL.Counted e) =>
          match LogQuery e ctx pick (p_store p) with
          | Next (err, st) =>
              match QL.worker_log i (p_logger p) with
              | QL.Next q => Next (MkPipe q st (p_refused p ++ match err with Some _ => [e] | None => [] end))
              | _ => Blocks
              end
          | Blocks => Blocks
          | Panics => Panics
          end
      | _ => Blocks
      end
  | Store l =>
      if logs l then Blocks
      else match step l (p_store p) with
           | Next st => Next (MkPipe (p_logger p) st (p_refused p))
           | Blocks => Blocks
           | Panics => Panics
           end
  end.

Fixpoint pipe_run (tr : list PLabel) (p : Pipe) : Outcome Pipe :=
  match tr with
  | [] => Next p
  | l :: tr' => match pipe_step l p with Next p' => pipe_run tr' p' | o => o end
  end.

(** The shutdown of main, after the servers have stopped: [stor.Close], and the deferred
    [queryLogger.Close] when main returns; other steps come in between. *)
Definition shutdown_calls : list PLabel := [Store LMark; Store LClose; Store LReturn; Logger QL.CloseChannel; Logger QL.CloseReturn].

(** ** Where an entry is *)

(** What the callers of [LogAsync] got in. *)
Definition sent (tr : list PLabel) : list QueryLog :=
  QL.accepted (omap (fun l => match l with Logger s => Some s | _ => None end) tr).

(** What the storage has taken. *)
Definition taken (s : SQLiteStorage) : list QueryLog := queries s ++ failed s ++ on_the_way s.

(** What has not reached it. *)
Definition waiting (q : QL.QueryLogger QueryLog) : list QueryLog := QL.holding (QL.pool q) ++ QL.logCh q.

Lemma flushed_split h : concat (map snd h) ≡ₚ flushed true h ++ flushed false h.
Proof.
  unfold flushed. induction h as [|[[] b] h IH]; cbn; [done|rewrite IH; by rewrite app_assoc|]. rewrite IH. solve_Permutation.
Qed.

Lemma step_taken l s s' : step l s = Next s' -> taken s' ≡ₚ taken s ++ takes l s.
Proof.
  intros H. destruct (flush_moves _ _ _ H) as (h & H1 & H2 & H3). unfold taken. rewrite H2, H3.
  transitivity (queries s ++ failed s ++ (flushed true h ++ flushed false h) ++ on_the_way s'); [solve_Permutation|].
  rewrite <- flushed_split, <- H1. solve_Permutation.
Qed.

Lemma not_written s q q' : writes s = false -> QL.run_step s q = QL.Next q' -> QL.logged q' = QL.logged q.
Proof.
  intros Hw H. destruct s; try done; cbn [QL.run_step] in H;
    unfold QL.LogAsync_send, QL.LogAsync_handoff, QL.LogAsync_count, QL.LogAsync_drop, QL.worker_receive, QL.worker_count, QL.Close_close, QL.Close_wait in H;
    repeat case_match; simplify_eq; done.
Qed.

(** The runs of the parts, for their invariants. *)
Definition logger_step (l : PLabel) : list (QL.Step QueryLog) :=
  match l with Logger s => [s] | Write i _ _ => [QL.Log i] | Store _ => [] end.

Lemma sent_steps tr : QL.accepted (flat_map logger_step tr) = sent tr.
Proof.
  unfold sent, QL.accepted. induction tr as [|[s|i c k|l] tr IH]; [done|..]; cbn [flat_map logger_step app]; rewrite ?omap_cons_eq; cbn [option_list app].
  - destruct s; cbn; by rewrite ?IH.
  - exact IH.
  - exact IH.
Qed.

Record pipe_inv (tr : list PLabel) (n c : nat) (p : Pipe) : Prop := MkPipeInv {
  pi_logger : QL.inv (flat_map logger_step tr) n c (p_logger p);
  pi_store : wf (p_store p);
  pi_logged : QL.logged (p_logger p) ≡ₚ taken (p_store p) ++ p_refused p }.

Lemma pipe_step_inv tr n c l p p' : pipe_inv tr n c p -> pipe_step l p = Next p' -> pipe_inv (tr ++ [l]) n c p'.
Proof.
  intros [Hq Hs Hl] H. destruct l as [s|i ctx pick|l]; cbn [pipe_step] in H.
  - destruct (writes s) eqn:Ew; [done|]. destruct (QL.run_step s (p_logger p)) as [| |q] eqn:E; try done. injection H as <-.
    split; cbn [p_logger p_store p_refused]; [|done|by rewrite (not_written _ _ _ Ew E)]. rewrite flat_map_app. by apply QL.inv_step with (p_logger p).
  - destruct (QL.pool (p_logger p) !! i) as [[|e|e|]|] eqn:Ei; try done. destruct (LogQuery e ctx pick (p_store p)) as [[err st]| |] eqn:El; try done.
    destruct (QL.worker_log i (p_logger p)) as [| |q] eqn:Eq; try done. injection H as <-.
    assert (step (LLog e ctx pick) (p_store p) = Next st) as Est by (cbn; by rewrite El).
    assert (QL.logged q = QL.logged (p_logger p) ++ [e]) as Elog by (unfold QL.worker_log in Eq; rewrite Ei in Eq; injection Eq as <-; done).
    split; cbn [p_logger p_store p_refused].
    + rewrite flat_map_app. by apply QL.inv_step with (p_logger p).
    + by apply (wf_step (LLog e ctx pick) (p_store p)).
    + rewrite Elog, Hl, (step_taken _ _ _ Est). cbn [takes]. rewrite El. destruct err; solve_Permutation.
  - destruct (logs l) eqn:Eg; [done|]. destruct (step l (p_store p)) as [st| |] eqn:E; try done. injection H as <-.
    split; cbn [p_logger p_store p_refused].
    + rewrite flat_map_app. cbn. by rewrite app_nil_r.
    + by apply (wf_step l (p_store p)).
    + rewrite Hl, (step_taken _ _ _ E). assert (takes l (p_store p) = []) as -> by by destruct l. by rewrite app_nil_r.
Qed.

Lemma pipe_run_inv tr0 tr n c p p' : pipe_inv tr0 n c p -> pipe_run tr p = Next p' -> pipe_inv (tr0 ++ tr) n c p'.
Proof.
  revert tr0 p. induction tr as [|l tr IH]; intros tr0 p Hi H; cbn [pipe_run] in H; [injection H as <-; by rewrite app_nil_r|].
  destruct (pipe_step l p) as [p1| |] eqn:E; try done. replace (tr0 ++ l :: tr) with ((tr0 ++ [l]) ++ tr) by by rewrite <- app_assoc.
  eauto using pipe_step_inv.
Qed.

Lemma start_inv c n b p : start_pipe c n b = Some p -> exists w k, pipe_inv [] w k p /\ p_store p = NewSQLiteStorage n b /\ p_refused p = [] /\ w = Z.to_nat (logger_sizes c).2.
Proof.
  unfold start_pipe. destruct (logger_on c); [|done]. destruct (logger_sizes c) as [bs w]. destruct (QL.NewQueryLogger bs w) as [q|] eqn:E; [|done].
  cbn. intros [= <-]. exists (Z.to_nat w), (Z.to_nat bs). split_and!; try done. pose proof (QL.inv_init bs w q E) as Hi. split; cbn; [exact Hi|apply wf_new|].
  unfold QL.NewQueryLogger in E. destruct (bs <? 0); [done|]. injection E as <-. done.
Qed.

(** ** Closing *)

Lemma closed_stays l s s' : step l s = Next s' -> closed s = true -> closed s' = true.
Proof.
  intros H Hc. destruct l; cbn [step] in H.
  { unfold LogQuery in H. rewrite Hc in H. by injection H as <-. }
  all: unfold flush_receive, flush_tick, flush_commit, flush_handoff, flush_sync, stats_receive, stats_update, Close_mark, Close_buffer, Close_wait in H;
    repeat case_match; simplify_eq; done.
Qed.

(** A storage that is closed takes nothing, whatever the workers do. *)
Lemma closed_pipe tr p p' : pipe_run tr p = Next p' -> closed (p_store p) = true -> closed (p_store p') = true /\ taken (p_store p') ≡ₚ taken (p_store p).
Proof.
  revert p. induction tr as [|l tr IH]; intros p H Hc; cbn [pipe_run] in H; [injection H as <-; done|].
  destruct (pipe_step l p) as [p1| |] eqn:E; try done.
  assert (closed (p_store p1) = true /\ taken (p_store p1) ≡ₚ taken (p_store p)) as [H1 H2].
  { destruct l as [s|i ctx pick|l]; cbn [pipe_step] in E.
    - destruct (writes s); [done|]. destruct (QL.run_step s _); try done. by injection E as <-.
    - destruct (QL.pool (p_logger p) !! i) as [[| |e|]|]; try done. unfold LogQuery in E. rewrite Hc in E. destruct (QL.worker_log i _); try done. by injection E as <-.
    - destruct (logs l) eqn:Eg; [done|]. destruct (step l (p_store p)) as [st| |] eqn:Es; try done. injection E as <-. cbn. split; [by apply (closed_stays l (p_store p))|].
      rewrite (step_taken _ _ _ Es). assert (takes l (p_store p) = []) as -> by by destruct l. by rewrite app_nil_r. }
  destruct (IH p1 H H1) as [H3 H4]. split; [done|]. by rewrite H4.
Qed.

Lemma finished_waiting tr n c q : QL.inv tr n c q -> (0 < n)%nat -> QL.closeOnce q = QL.Finished -> waiting q = [].
Proof.
  intros Hi Hn Hf. unfold waiting. pose proof (QL.inv_finished _ _ _ _ Hi Hf) as Hx. pose proof (QL.all_exited _ Hx) as Hp. rewrite (QL.inv_pool _ _ _ _ Hi) in Hp.
  assert (QL.logCh q = []) as ->. { apply (QL.inv_exited _ _ _ _ Hi). rewrite Hp. destruct n as [|m]; [lia|]. cbn [replicate]. set_solver. }
  rewrite Hp. assert (forall m, QL.holding (replicate m (QL.Exited : QL.Worker QueryLog)) = []) as Hh by (intros m; induction m as [|m IHm]; [done|exact IHm]). by rewrite Hh.
Qed.

Lemma sent_app tr tr' : sent (tr ++ tr') = sent tr ++ sent tr'.
Proof. unfold sent, QL.accepted. by rewrite !omap_app. Qed.

Lemma pipe_entries tr n c p : pipe_inv tr n c p -> taken (p_store p) ++ p_refused p ++ waiting (p_logger p) ≡ₚ sent tr.
Proof.
  intros [Hq _ Hl]. pose proof (QL.inv_entries _ _ _ _ Hq) as He. rewrite sent_steps in He. rewrite <- He, Hl. unfold waiting. solve_Permutation.
Qed.

(** What a marked storage does not take is refused. *)
Lemma marked_outcome tr n c p p' after :
  pipe_inv tr n c p -> (0 < n)%nat -> pipe_run after p = Next p' -> closed (p_store p) = true -> sent after = [] ->
  closing (p_store p') = Closed -> QL.closeOnce (p_logger p') = QL.Finished ->
  p_refused p' ≡ₚ p_refused p ++ waiting (p_logger p) /\ queries (p_store p') ++ failed (p_store p') ≡ₚ taken (p_store p).
Proof.
  intros Hi Hn H Hc Hs Hcl Hf. pose proof (pipe_run_inv tr after _ _ _ _ Hi H) as Hi'.
  pose proof (pipe_entries _ _ _ _ Hi) as E1. pose proof (pipe_entries _ _ _ _ Hi') as E2.
  destruct (closed_pipe _ _ _ H Hc) as [_ Ht].
  rewrite (finished_waiting _ _ _ _ (pi_logger _ _ _ _ Hi')) in E2 by done. rewrite sent_app, Hs, app_nil_r, app_nil_r, Ht, <- E1 in E2.
  apply Permutation_app_inv_l in E2. split; [exact E2|]. rewrite <- Ht. unfold taken, on_the_way.
  destruct (wf_closed _ (pi_store _ _ _ _ Hi') Hcl) as [Hfl _]. rewrite Hfl. cbn [in_hand app].
  destruct (wf_ends _ (pi_store _ _ _ _ Hi')) as [Hb _]; [by rewrite Hfl|]. by rewrite Hb, app_nil_r.
Qed.

(** The two ends are final. *)
Lemma closing_stays l p p' : wf (p_store p) -> pipe_step l p = Next p' ->
  (closing (p_store p) = Closed \/ l = Store LReturn -> closing (p_store p') = Closed) /\
  (QL.closeOnce (p_logger p) = QL.Finished \/ l = Logger QL.CloseReturn -> QL.closeOnce (p_logger p') = QL.Finished).
Proof.
  intros [Hopen _ _ _ _ _] H. destruct l as [q|i ctx pick|l]; cbn [pipe_step] in H.
  - destruct (writes q) eqn:Ew; [done|]. destruct (QL.run_step q _) as [q'| |] eqn:E; try done. injection H as <-. cbn [p_store p_logger]. split; [by intros [?|?]|].
    destruct q; cbn [QL.run_step] in E; try done;
      unfold QL.LogAsync_send, QL.LogAsync_handoff, QL.LogAsync_count, QL.LogAsync_drop, QL.worker_receive, QL.worker_count, QL.Close_close, QL.Close_wait in E;
      repeat case_match; simplify_eq; try done; by intros [?|?].
  - destruct (QL.pool (p_logger p) !! i) as [[| |e|]|]; try done. destruct (LogQuery e ctx pick _) as [[err st]| |] eqn:El; try done.
    destruct (QL.worker_log i _) as [q'| |] eqn:Ew; try done. injection H as <-. cbn [p_store p_logger]. split; intros [Hc|Hc]; try done.
    + unfold LogQuery in El. repeat case_match; simplify_eq; done.
    + unfold QL.worker_log in Ew. repeat case_match; simplify_eq; done.
  - destruct (logs l) eqn:Eg; [done|]. destruct (step l (p_store p)) as [st| |] eqn:Es; try done. injection H as <-. cbn [p_store p_logger]. split; [|by intros [?|?]].
    destruct l; cbn [step] in Es; try done;
      unfold flush_receive, flush_tick, flush_commit, flush_handoff, flush_sync, stats_receive, stats_update, Close_mark, Close_buffer, Close_wait in Es;
      repeat case_match; simplify_eq; try done; intros [?|?]; simplify_eq/=; try done; intuition congruence.
Qed.

Lemma called_ends tr0 n c tr p p' : pipe_inv tr0 n c p -> pipe_run tr p = Next p' ->
  (closing (p_store p) = Closed \/ Store LReturn ∈ tr -> closing (p_store p') = Closed) /\
  (QL.closeOnce (p_logger p) = QL.Finished \/ Logger QL.CloseReturn ∈ tr -> QL.closeOnce (p_logger p') = QL.Finished).
Proof.
  revert tr0 p. induction tr as [|l tr IH]; intros tr0 p Hi H; cbn [pipe_run] in H.
  - injection H as <-. split; intros [?|?%elem_of_nil]; done.
  - destruct (pipe_step l p) as [p1| |] eqn:E; try done. destruct (closing_stays _ _ _ (pi_store _ _ _ _ Hi) E) as [S1 S2].
    destruct (IH _ _ (pipe_step_inv _ _ _ _ _ _ Hi E) H) as [I1 I2].
    split; intros [Hc|[Hc|Hc]%elem_of_cons]; [apply I1; left; apply S1; by left|apply I1; left; apply S1; by right|apply I1; by right|
      apply I2; left; apply S2; by left|apply I2; left; apply S2; by right|apply I2; by right].
Qed.

(** C38: The query log from the handler to the table, and through the shutdown.  In
    every interleaving each entry that was accepted is written, given up with a failed
    batch, on its way in the storage, refused by it, or waiting in the query logger,
    exactly once.  From the moment main has marked the storage closed, the storage takes
    nothing more: when both have been closed, what was waiting in the query logger at
    that moment has been refused, all of it, and nothing else has been lost.  This is
    what the calls of main's shutdown do, in their order and with any steps of the
    workers in between. *)
Theorem shutdown_loses_waiting (c : QueryLoggerConfig) (n b : nat) (p0 p1 p2 : Pipe) (before after : list PLabel)
    (H0 : start_pipe c n b = Some p0) (Hw : 0 < (logger_sizes c).2) (H1 : pipe_run before p0 = Next p1)
    (H2 : pipe_run after p1 = Next p2) :
  taken (p_store p1) ++ p_refused p1 ++ waiting (p_logger p1) ≡ₚ sent before /\
  (closed (p_store p1) = true -> sent after = [] -> closing (p_store p2) = Closed -> QL.closeOnce (p_logger p2) = QL.Finished ->
   p_refused p2 ≡ₚ p_refused p1 ++ waiting (p_logger p1) /\ queries (p_store p2) ++ failed (p_store p2) ≡ₚ taken (p_store p1)) /\
  (head after = head shutdown_calls -> sublist shutdown_calls after -> sent after = [] ->
   p_refused p2 ≡ₚ p_refused p1 ++ waiting (p_logger p1) /\ queries (p_store p2) ++ failed (p_store p2) ≡ₚ taken (p_store p1)).
Proof.
  destruct (start_inv _ _ _ _ H0) as (w & k & Hi0 & _ & _ & Ew). pose proof (pipe_run_inv [] before _ _ _ _ Hi0 H1) as Hi1. cbn [app] in Hi1.
  assert (0 < w)%nat as Hpos by lia.
  split_and!; [exact (pipe_entries _ _ _ _ Hi1)|intros Hc Hn Hcl Hf; by apply (marked_outcome before w k p1 p2 after)|].
  intros Hh Hsub Hn. destruct (called_ends _ _ _ _ _ _ Hi1 H2) as [Hcl Hf].
  assert (forall l, l ∈ shutdown_calls -> l ∈ after) as Hin by (intros l Hl; eapply elem_of_submseteq; [exact Hl|by apply sublist_submseteq]).
  destruct after as [|l after]; [done|]. cbn in Hh. injection Hh as ->. cbn [pipe_run] in H2.
  destruct (pipe_step (Store LMark) p1) as [p| |] eqn:E; try done. cbn [pipe_step logs step] in E.
  assert (closed (p_store p) = true /\ p_logger p = p_logger p1 /\ p_refused p = p_refused p1 /\ taken (p_store p) = taken (p_store p1)) as (Hc & El & Er & Et).
  { unfold Close_mark in E. destruct (closed (p_store p1)) eqn:Ec; [by injection E as <-|]. destruct (domainStatsCh_closed _); [done|]. by injection E as <-. }
  assert (pipe_inv (before ++ [Store LMark]) w k p) as Hi.
  { apply (pipe_run_inv before [Store LMark] w k p1); [done|]. cbn [pipe_run pipe_step logs step]. cbn [step] in E. by rewrite E. }
  rewrite <- Er, <- El, <- Et. apply (marked_outcome _ _ _ _ _ _ Hi Hpos H2 Hc); [done|..].
  - apply Hcl. right. apply Hin. set_solver.
  - apply Hf. right. apply Hin. set_solver.
Qed.

(** Had the query logger been closed first, the close would refuse nothing. *)
Lemma logger_first tr0 tr n c p p' : pipe_inv tr0 n c p -> (0 < n)%nat -> QL.closeOnce (p_logger p) = QL.Finished -> pipe_run tr p = Next p' -> p_refused p' = p_refused p.
Proof.
  revert tr0 p. induction tr as [|l tr IH]; intros tr0 p Hi Hn Hf H; cbn [pipe_run] in H; [by injection H as <-|].
  destruct (pipe_step l p) as [p1| |] eqn:E; try done. pose proof (pipe_step_inv _ _ _ _ _ _ Hi E) as Hi1.
  pose proof (QL.inv_finished _ _ _ _ (pi_logger _ _ _ _ Hi) Hf) as Hx.
  assert (QL.closeOnce (p_logger p1) = QL.Finished /\ p_refused p1 = p_refused p) as [Hf1 Hr].
  { destruct l as [s|i ctx pick|l]; cbn [pipe_step] in E.
    - destruct (writes s) eqn:Ew; [done|]. destruct (QL.run_step s (p_logger p)) as [| |q] eqn:Es; try done. injection E as <-. split; [|done]. cbn.
      destruct s; cbn [QL.run_step] in Es; unfold QL.LogAsync_send, QL.LogAsync_handoff, QL.LogAsync_count, QL.LogAsync_drop, QL.worker_receive, QL.worker_count, QL.Close_close, QL.Close_wait in Es;
        repeat case_match; simplify_eq; done.
    - destruct (QL.pool (p_logger p) !! i) as [x|] eqn:Ei; [|done]. pose proof (QL.exited_lookup _ _ _ Hx Ei) as ->. done.
    - destruct (logs l); [done|]. destruct (step l (p_store p)); try done. by injection E as <-. }
  rewrite (IH _ _ Hi1 Hn Hf1 H). exact Hr.
Qed.

End pipe.

(** ** A concrete shutdown *)

Definition one_worker : QueryLoggerConfig := MkQueryLoggerConfig true 10 1.
Definition q1 : QueryLog := query 1 "192.0.2.1" "a.example".
Definition q2 : QueryLog := query 2 "192.0.2.1" "b.example".

(** Two queries come in, the first is handed over, and the storage is marked closed. *)
Definition until_marked : list PLabel :=
  [Logger (QL.Send q1); Logger QL.Count; Logger (QL.Send q2); Logger QL.Count; Logger (QL.Receive 0); Logger (QL.Uncount 0); Write 0 false false; Store LMark].

Definition after_marked : list PLabel :=
  [Store LClose; Store LReceive; Store LReceive; Store (LCommit true); Store LHandoff; Store (LSync ok_tx); Store LStatsReceive; Store LReturn;
   Logger QL.CloseChannel; Logger (QL.Receive 0); Logger (QL.Uncount 0); Write 0 false false; Logger (QL.Receive 0); Logger QL.CloseReturn].

Lemma shutdown_loses_waiting_witness :
  exists p0 p1 p2, start_pipe one_worker 10 10 = Some p0 /\ @pipe_run flat_text until_marked p0 = Next p1 /\ @pipe_run flat_text after_marked p1 = Next p2 /\
    p_refused p2 ≡ₚ [q2] /\ queries (p_store p2) ++ failed (p_store p2) ≡ₚ [q1].
Proof.
  destruct (start_pipe one_worker 10 10) as [p0|] eqn:H0; [|by vm_compute in H0].
  destruct (@pipe_run flat_text until_marked p0) as [p1| |] eqn:H1; [|vm_compute in H0; injection H0 as <-; by vm_compute in H1..].
  destruct (@pipe_run flat_text after_marked p1) as [p2| |] eqn:H2; [|vm_compute in H0; injection H0 as <-; vm_compute in H1; injection H1 as <-; by vm_compute in H2..].
  exists p0, p1, p2. split_and!; [done..| |].
  all: destruct (@shutdown_loses_waiting flat_text one_worker 10 10 p0 p1 p2 until_marked after_marked H0 ltac:(done) H1 H2) as (_ & H & _).
  all: vm_compute in H0; injection H0 as <-; vm_compute in H1; injection H1 as <-; vm_compute in H2; injection H2 as <-.
  all: destruct H as [Ha Hb]; [done..|]; [exact Ha || exact Hb].
Defined.
