(* ===== verification/StorageNew.v ===== *)
(** * Opening the storage, and doing without (pkg/storage/factory.go, sqlite.go)

    The factory, the opening of the database, and the interface [storage.Storage] with
    its two implementations: the tables of SQLite, and the storage that does nothing.
    Reads are what the interface promises; the no-op storage is meant to read like a
    database with nothing in it. *)

From Stdlib Require Import Ascii.
From S2P Require Import Policy PolicyApi Clients UnboundLog.
From S2P Require Import Prelude GoStrings GoStrconv Config Sql Migrations QueryStore QueryReads.
From stdpp Require Import options.
Local Open Scope Z_scope.

(** ** Opening *)

Inductive OpenErr := ConnectionFailed | PragmaFailed | MigrationFailed | PrepareFailed.

(** The statements run on every new database, in order. *)
Definition pragmas (c : DatabaseConfig) : list gostring :=
  let q := SQLite c in
  [str "PRAGMA busy_timeout = " ++ Itoa (BusyTimeout q); str "PRAGMA cache_size = " ++ Itoa (- CacheSize q);
   str "PRAGMA synchronous = NORMAL"; str "PRAGMA temp_store = MEMORY"; str "PRAGMA auto_vacuum = INCREMENTAL"] ++
  (if 0 <? MMapSize q then [str "PRAGMA mmap_size = " ++ Itoa (MMapSize q)] else []) ++
  (if WALMode q then [str "PRAGMA journal_mode = WAL"] else []).

Record OpenFaults := MkOpenFaults { ping_ok : bool; pragma_ok : gostring -> bool; migrate : RunFaults; prepare_ok : bool }.

(** [NewSQLiteStorage]; the migrations that were applied stay applied. *)
Definition open_sqlite (f : OpenFaults) (c : DatabaseConfig) (d : Database) : result OpenErr SQLiteStorage * Database :=
  if negb (ping_ok f) then (Err ConnectionFailed, d)
  else if negb (forallb (pragma_ok f) (pragmas c)) then (Err PragmaFailed, d)
  else
    let '(ok, d) := applyMigrations (migrate f) d in
    if negb ok then (Err MigrationFailed, d)
    else if negb (prepare_ok f) then (Err PrepareFailed, d)
    else (Ok (NewSQLiteStorage (Z.to_nat (db_BufferSize c)) (Z.to_nat (Config.BatchSize c))), d).

Inductive NewErr := InvalidConfig | InvalidBackend | OpenFailed (e : OpenErr).

(** What the factory returns. *)
Inductive Handle := NoOpHandle | SQLiteHandle (c : DatabaseConfig) (s : SQLiteStorage).

(** [storage.New]; a missing configuration is the default one. *)
Definition New (f : OpenFaults) (cfg : option DatabaseConfig) (d : Database) : result NewErr Handle * Database :=
  let cfg := default DefaultConfig cfg in
  match storage_Validate cfg with
  | None => (Err InvalidConfig, d)
  | Some cfg =>
      if negb (db_Enabled cfg) then (Ok NoOpHandle, d)
      else if bytes_eqb (Backend cfg) (str "sqlite")
      then let '(r, d) := open_sqlite f cfg d in (match r with Ok s => Ok (SQLiteHandle cfg s) | Err e => Err (OpenFailed e) end, d)
      else (Err InvalidBackend, d)
  end.

(** The storage of main: none when it is off or does not open. *)
Definition main_storage (f : OpenFaults) (cfg : DatabaseConfig) (d : Database) : option Handle * Database :=
  if db_Enabled cfg then let '(r, d) := New f (Some cfg) d in (match r with Ok h => Some h | Err _ => None end, d) else (None, d).

(** ** The interface *)

Section storage.
Context {T : TimeText} {F : UnboundLog.Floats}.
(** [strftime('%s', timestamp)], the present time in seconds, and seven days before it. *)
Context (unix_of : gostring -> Z) (now week_ago : Z).

(** An option is a read that may fail. *)
Class Storage (S : Type) := {
  GetRecentQueries_ : Z -> Z -> S -> option (list QueryRow);
  GetQueriesByDomain_ : gostring -> Z -> S -> option (list QueryRow);
  GetQueriesByClientIP_ : gostring -> Z -> S -> option (list QueryRow);
  GetQueriesFiltered_ : QueryFilter -> Z -> Z -> S -> option (list QueryRow);
  GetStatistics_ : bool -> Z -> S -> option Statistics;
  GetTopDomains_ : Z -> bool -> option Z -> S -> list DomainStats;
  GetBlockedCount_ : Z -> S -> Z;
  GetQueryCount_ : Z -> S -> Z;
  GetTimeSeriesStats_ : Z -> Z -> S -> option (list TimeSeriesPoint);
  GetQueryTypeStats_ : Z -> option Z -> S -> list QueryTypeStats;
  GetTraceStatistics_ : Z -> S -> option (Z * TraceCounts);
  GetQueriesWithTraceFilter_ : TraceFilter -> Z -> Z -> S -> list QueryRow;
  GetClientSummaries_ : gostring -> Z -> Z -> S -> list Clients.ClientSummary;
  ListClientProfiles_ : S -> list (option Policy.ClientProfile);
  GetClientGroups_ : S -> list (gostring * gostring * gostring);
  GetPolicyRules_ : S -> list PolicyApi.PolicyRule;
  GetDynamicConfig_ : gostring -> S -> gostring;
  GetUnboundQueries_ : UnboundLog.UnboundQueryFilter -> Z -> Z -> S -> list UnboundLog.EventRow;
  GetUnboundQueryStats_ : Z -> S -> UnboundLog.UnboundQueryStats;
  (** writes: an error, or the new state *)
  UpdateClientProfile_ : Clients.ClientProfileArg -> S -> option S;
  UpsertClientGroup_ : gostring -> gostring -> gostring -> S -> option S;
  DeleteClientGroup_ : gostring -> S -> option S;
  CreatePolicyRule_ : PolicyApi.PolicyRule -> S -> option (Z * S);
  UpdatePolicyRule_ : Z -> PolicyApi.PolicyRule -> S -> option S;
  DeletePolicyRule_ : Z -> S -> option S;
  SetDynamicConfig_ : gostring -> gostring -> S -> option S }.

(** The tables of the database. *)
Record Tables := MkTables {
  t_log : LogDb; t_clients : Clients.ClientDb; t_rules : PolicyApi.Table; t_settings : gmap gostring gostring; t_events : list UnboundLog.EventRow }.

Definition empty_tables : Tables :=
  MkTables (MkLogDb [] ∅ ∅ ∅ []) (Clients.MkClientDb ∅ ∅ ∅) (PolicyApi.MkTable [] 1) ∅ [].

Definition with_clients (c : Clients.ClientDb) (t : Tables) : Tables := MkTables (t_log t) c (t_rules t) (t_settings t) (t_events t).
Definition with_rules (r : PolicyApi.Table) (t : Tables) : Tables := MkTables (t_log t) (t_clients t) r (t_settings t) (t_events t).

#[export] Instance SQLite_storage : Storage Tables := {|
  GetRecentQueries_ limit offset t := GetRecentQueries limit offset (l_rows (t_log t));
  GetQueriesByDomain_ d limit t := GetQueriesByDomain d limit (l_rows (t_log t));
  GetQueriesByClientIP_ c limit t := GetQueriesByClientIP c limit (l_rows (t_log t));
  GetQueriesFiltered_ f limit offset t := GetQueriesFiltered f limit offset (l_rows (t_log t));
  GetStatistics_ ok since t := GetStatistics ok since (l_hours (t_log t)) (l_rows (t_log t));
  GetTopDomains_ limit blocked since t := GetTopDomains limit blocked since week_ago (l_rows (t_log t));
  GetBlockedCount_ since t := GetBlockedCount since (l_rows (t_log t));
  GetQueryCount_ since t := GetQueryCount since (l_rows (t_log t));
  GetTimeSeriesStats_ bucket points t :=
    GetTimeSeriesStats unix_of now bucket points (FormatTimestamp ((truncateToBucket now bucket - bucket * (points - 1)) * 1000000000)) (l_rows (t_log t));
  GetQueryTypeStats_ limit since t := GetQueryTypeStats limit since week_ago (l_rows (t_log t));
  GetTraceStatistics_ since t := GetTraceStatistics since (l_rows (t_log t));
  GetQueriesWithTraceFilter_ f limit offset t := GetQueriesWithTraceFilter f limit offset (l_rows (t_log t));
  GetClientSummaries_ term limit offset t := Clients.GetClientSummaries term limit offset (t_clients t);
  ListClientProfiles_ t := Clients.ListClientProfiles (t_clients t);
  GetClientGroups_ t := Clients.GetClientGroups (t_clients t);
  GetPolicyRules_ t := PolicyApi.GetPolicyRules (t_rules t);
  GetDynamicConfig_ k t := default [] (t_settings t !! k);
  GetUnboundQueries_ f limit offset t := UnboundLog.GetUnboundQueries f limit offset (t_events t);
  GetUnboundQueryStats_ since t := UnboundLog.GetUnboundQueryStats since (t_events t);
  UpdateClientProfile_ p t := Some (with_clients (Clients.UpdateClientProfile p (t_clients t)) t);
  UpsertClientGroup_ n d c t := Some (with_clients (Clients.UpsertClientGroup n d c (t_clients t)) t);
  DeleteClientGroup_ n t := c ← Clients.DeleteClientGroup n (t_clients t); Some (with_clients c t);
  CreatePolicyRule_ r t := '(id, rs) ← PolicyApi.CreatePolicyRule r (t_rules t); Some (id, with_rules rs t);
  UpdatePolicyRule_ id r t := rs ← PolicyApi.UpdatePolicyRule id r (t_rules t); Some (with_rules rs t);
  DeletePolicyRule_ id t := rs ← PolicyApi.DeletePolicyRule id (t_rules t); Some (with_rules rs t);
  SetDynamicConfig_ k v t := Some (MkTables (t_log t) (t_clients t) (t_rules t) (<[k := v]> (t_settings t)) (t_events t)) |}.

(** [NoOpStorage] has no state. *)
Inductive NoOpStorage := NewNoOpStorage.

(** Its time series: the alignment of an hour when the bucket is less than a second. *)
Definition noop_series (bucket points : Z) : list TimeSeriesPoint :=
  if points <? 1 then []
  else
    let bs := if bucket <=? 0 then 3600 else bucket in
    let start := Z.quot now bs * bs - bucket * (points - 1) in
    map (fun i => MkPoint (start + Z.of_nat i * bucket) 0 0 0) (seq 0 (Z.to_nat points)).

#[export] Instance NoOp_storage : Storage NoOpStorage := {|
  GetRecentQueries_ _ _ _ := Some [];
  GetQueriesByDomain_ _ _ _ := Some [];
  GetQueriesByClientIP_ _ _ _ := Some [];
  GetQueriesFiltered_ _ _ _ _ := Some [];
  GetStatistics_ _ _ _ := Some (MkStatistics 0 0 0 0 0);
  GetTopDomains_ _ _ _ _ := [];
  GetBlockedCount_ _ _ := 0;
  GetQueryCount_ _ _ := 0;
  GetTimeSeriesStats_ bucket points _ := Some (noop_series bucket points);
  GetQueryTypeStats_ _ _ _ := [];
  GetTraceStatistics_ _ _ := Some (0, no_counts);
  GetQueriesWithTraceFilter_ _ _ _ _ := [];
  GetClientSummaries_ _ _ _ _ := [];
  ListClientProfiles_ _ := [];
  GetClientGroups_ _ := [];
  GetPolicyRules_ _ := [];
  GetDynamicConfig_ _ _ := [];
  GetUnboundQueries_ _ _ _ _ := [];
  GetUnboundQueryStats_ _ _ := UnboundLog.MkUStats 0 0 0 0 0 ∅;
  UpdateClientProfile_ _ _ := None;
  UpsertClientGroup_ _ _ _ _ := None;
  DeleteClientGroup_ _ _ := None;
  CreatePolicyRule_ _ s := Some (0, s);
  UpdatePolicyRule_ _ _ s := Some s;
  DeletePolicyRule_ _ s := Some s;
  SetDynamicConfig_ _ _ s := Some s |}.

(** ** The storage that does nothing reads like an empty database *)

Lemma limit_offset_nil {A} limit offset : limit_offset limit offset (@nil A) = [].
Proof. unfold limit_offset. rewrite drop_nil. by destruct (_ <? _); rewrite ?firstn_nil. Qed.

(** Every listing, count and setting of the two is the same; so is the time series for
    valid arguments.  The statistics are the exception: the database without a query
    answers with an error. *)
Lemma noop_reads_empty limit offset domain client f ok since blocked optsince bucket points tf term uf k :
  1 <= points -> 1 <= bucket ->
  GetRecentQueries_ limit offset NewNoOpStorage = GetRecentQueries_ limit offset empty_tables /\
  GetQueriesByDomain_ domain limit NewNoOpStorage = GetQueriesByDomain_ domain limit empty_tables /\
  GetQueriesByClientIP_ client limit NewNoOpStorage = GetQueriesByClientIP_ client limit empty_tables /\
  GetQueriesFiltered_ f limit offset NewNoOpStorage = GetQueriesFiltered_ f limit offset empty_tables /\
  GetTopDomains_ limit blocked optsince NewNoOpStorage = GetTopDomains_ limit blocked optsince empty_tables /\
  GetBlockedCount_ since NewNoOpStorage = GetBlockedCount_ since empty_tables /\
  GetQueryCount_ since NewNoOpStorage = GetQueryCount_ since empty_tables /\
  GetTimeSeriesStats_ bucket points NewNoOpStorage = GetTimeSeriesStats_ bucket points empty_tables /\
  GetQueryTypeStats_ limit optsince NewNoOpStorage = GetQueryTypeStats_ limit optsince empty_tables /\
  GetTraceStatistics_ since NewNoOpStorage = GetTraceStatistics_ since empty_tables /\
  GetQueriesWithTraceFilter_ tf limit offset NewNoOpStorage = GetQueriesWithTraceFilter_ tf limit offset empty_tables /\
  GetClientSummaries_ term limit offset NewNoOpStorage = GetClientSummaries_ term limit offset empty_tables /\
  ListClientProfiles_ NewNoOpStorage = ListClientProfiles_ empty_tables /\
  GetClientGroups_ NewNoOpStorage = GetClientGroups_ empty_tables /\
  GetPolicyRules_ NewNoOpStorage = GetPolicyRules_ empty_tables /\
  GetDynamicConfig_ k NewNoOpStorage = GetDynamicConfig_ k empty_tables /\
  GetUnboundQueries_ uf limit offset NewNoOpStorage = GetUnboundQueries_ uf limit offset empty_tables /\
  GetUnboundQueryStats_ since NewNoOpStorage = GetUnboundQueryStats_ since empty_tables /\
  GetStatistics_ ok since NewNoOpStorage = Some (MkStatistics 0 0 0 0 0) /\ GetStatistics_ ok since empty_tables = None.
Proof.
  intros Hp Hb. cbn -[GetTraceStatistics GetQueriesWithTraceFilter]. split_and!; try done.
  all: try (unfold GetRecentQueries, GetQueriesByDomain, GetQueriesByClientIP, GetQueriesFiltered, UnboundLog.GetUnboundQueries; cbn; by rewrite limit_offset_nil).
  - unfold GetTopDomains. cbn. by rewrite limit_offset_nil.
  - unfold GetTimeSeriesStats, noop_series, truncateToBucket. rewrite (proj2 (Z.leb_gt points 0)), (proj2 (Z.leb_gt bucket 0)), (proj2 (Z.ltb_ge points 1)) by lia. done.
  - unfold GetQueryTypeStats. cbn. by rewrite limit_offset_nil.
  - unfold Clients.GetClientSummaries, Clients.client_rows. cbn [Clients.client_stats]. rewrite map_to_list_empty. by destruct term; cbn [List.filter sorting.merge_sort sorting.merge_sort_aux sorting.merge_stack]; rewrite limit_offset_nil.
  - apply statistics_of_nothing.
Qed.

End storage.

(** ** Who gets which *)

(** Main never runs on the storage that does nothing: it is off or it is SQLite, and
    then the settings are the repaired ones. *)
Lemma main_never_noop f cfg d h d' : main_storage f cfg d = (Some h, d') ->
  exists c s, h = SQLiteHandle c s /\ storage_Validate cfg = Some c /\ 1 <= db_BufferSize c /\ 1 <= Config.BatchSize c /\ 1 <= RetentionDays c.
Proof.
  unfold main_storage, New. destruct (db_Enabled cfg) eqn:Ee; [|done]. cbv zeta.
  change (default DefaultConfig (Some cfg)) with cfg. destruct (storage_Validate cfg) as [c|] eqn:Ev; [|by intros [=]]. pose proof Ev as Hc. unfold storage_Validate in Hc. rewrite Ee in Hc. cbn [negb] in Hc.
  destruct (bytes_eqb (Backend cfg) (str "sqlite")) eqn:Eb; [|done]. cbn [negb] in Hc. injection Hc as <-. cbn [db_Enabled Backend]. rewrite Eb. cbn [negb].
  destruct (open_sqlite f _ d) as [[s|e] d1]; [|by intros [=]]. intros [= <- _]. eexists _, s. split; [done|]. split; [done|]. cbn.
  split_and!; (destruct (Z.ltb_spec (db_BufferSize cfg) 1), (Z.ltb_spec (Config.BatchSize cfg) 1), (Z.ltb_spec (RetentionDays cfg) 1); lia).
Qed.
