(* ===== verification/Control.v ===== *)
(** * Control of Unbound (pkg/unbound/supervisor.go, pkg/api/handlers_unbound.go)

    What Supervisor.v takes as verdicts and UnboundConf.v as answers from outside: the
    search for the programs, the check of the port, the wait for readiness, the command
    lines of unbound-control, and the sequence of [Start]; and the handlers over them,
    with the file on the disk and the configuration Unbound runs with, across restarts
    of the program.  exec.LookPath, the exit status of a command, the probe and the file
    system are parameters. *)

From Stdlib Require Import Ascii.
From S2P Require Import Prelude GoStrings GoStrconv Config Supervisor UnboundConf.
From stdpp Require Import options.
Local Open Scope Z_scope.

(** ** Programs *)

Record Binaries := MkBinaries { binaryPath : gostring; controlBin : gostring; checkconfBin : gostring; anchorBin : gostring }.

Definition no_binaries : Binaries := MkBinaries [] [] [] [].

(** The error of [detectBinaries]: the program that is missing. *)
Definition BinErr := gostring.

(** A program and its arguments. *)
Definition Command : Type := gostring * list gostring.

(** What [unbound-control] and the file system answer to one request, and what
    unbound-checkconf says of a text. *)
Record Env := MkEnv { exec : Command -> bool; check_text : gostring -> bool; tmp_file : bool; live_file : bool }.

(** What [Start] meets: whether the port answers, whether the process starts, what the
    wait sees, and the probe of the external mode. *)
Inductive ReadyEvent := CtxDone | Deadline | Tick (probe : bool).
Inductive WaitErr := Cancelled | TimedOut.
Record StartEnv := MkStartEnv { dial_ok : gostring -> bool; launch : Command -> bool; ready : list ReadyEvent; probe : bool }.

Inductive StartErr := BinariesNotFound (e : BinErr) | PortInUse | LaunchFailed | NotReady (e : WaitErr).

(** The supervisor as the handlers see it, and the text Unbound has read: at its start,
    and at every reload that succeeded. *)
Record Site := MkSite { bins : Binaries; sup : Sup; loaded : option gostring }.

Definition listenAddr (cfg : UnboundConfig) : gostring := str "127.0.0.1:" ++ Itoa (ub_ListenPort cfg).

Section control.
Context (LookPath : gostring -> option gostring).
Context (cfg : UnboundConfig).

Definition common_dirs : list gostring := [str "/usr/local/bin"; str "/usr/local/sbin"; str "/usr/sbin"; str "/usr/bin"].

Definition findBinary (name : gostring) : option gostring :=
  match LookPath name with
  | Some path => Some path
  | None => List.find (fun path => bool_decide (is_Some (LookPath path))) (map (fun dir => dir ++ str "/" ++ name) common_dirs)
  end.

(** The fields are assigned one after the other; a missing program assigns the empty
    path and ends the search. *)
Definition detectBinaries (b : Binaries) : result BinErr unit * Binaries :=
  let path := match ub_BinaryPath cfg with [] => findBinary (str "unbound") | p => Some p end in
  let b := MkBinaries (default [] path) (controlBin b) (checkconfBin b) (anchorBin b) in
  match path with
  | None => (Err (str "unbound"), b)
  | Some _ =>
      let path := findBinary (str "unbound-control") in
      let b := MkBinaries (binaryPath b) (default [] path) (checkconfBin b) (anchorBin b) in
      match path with
      | None => (Err (str "unbound-control"), b)
      | Some _ =>
          let path := findBinary (str "unbound-checkconf") in
          let b := MkBinaries (binaryPath b) (controlBin b) (default [] path) (anchorBin b) in
          match path with
          | None => (Err (str "unbound-checkconf"), b)
          | Some _ => (Ok tt, MkBinaries (binaryPath b) (controlBin b) (checkconfBin b) (default [] (findBinary (str "unbound-anchor"))))
          end
      end
  end.

(** A port that answers is in use. *)
Definition checkPort (e : StartEnv) : bool := negb (dial_ok e (listenAddr cfg)).

(** The command of [bootstrapAnchor], whose result is only logged. *)
Definition bootstrapAnchor (b : Binaries) : option Command :=
  match anchorBin b with [] => None | bin => Some (bin, [str "-a"; str "/etc/unbound/root.key"]) end.

(** [waitReady] over what its select receives; [None] while it waits. *)
Fixpoint waitReady (evs : list ReadyEvent) : option (result WaitErr unit) :=
  match evs with
  | [] => None
  | CtxDone :: _ => Some (Err Cancelled)
  | Deadline :: _ => Some (Err TimedOut)
  | Tick true :: _ => Some (Ok tt)
  | Tick false :: evs' => waitReady evs'
  end.

(** ** unbound-control *)

Definition control_command (b : Binaries) (args : list gostring) : Command :=
  (controlBin b, [str "-c"; ub_ConfigPath cfg; str "-s"; ub_ControlSocket cfg] ++ args).

(** A command without a program does not run. *)
Definition runControl (e : Env) (b : Binaries) (args : list gostring) : bool :=
  nonempty (controlBin b) && exec e (control_command b args).

(** Unbound reads its file when the command succeeds. *)
Definition Reload (e : Env) (s : Site) : bool * Site :=
  if runControl e (bins s) [str "reload"] then (true, MkSite (bins s) (sup s) (conf_file (sup s))) else (false, s).

Definition FlushCache (e : Env) (s : Site) : bool := runControl e (bins s) [str "flush_zone"; str "."].

Record LocalDataEntry := MkLocalDataEntry { Zone : gostring; RR : gostring }.

(** [SyncLocalData]: the commands, whose failures are only logged. *)
Definition SyncLocalData (b : Binaries) (records : list LocalDataEntry) : list Command :=
  control_command b [str "local_zones_remove"] ::
  concat (map (fun r => [control_command b [str "local_zone"; Zone r; str "transparent"]; control_command b [str "local_data"; RR r]]) records).

(** ** Start *)

(** The configuration in memory is the default one, unless it is set already. *)
Definition init_config (s : Sup) : Sup :=
  MkSup (Some (default (DefaultServerConfig (ub_ListenPort cfg) (ub_ControlSocket cfg)) (serverConfig s))) (conf_file s) (defaults s).

(** [Start] on a supervisor that is not running: the error, the state it is left in, and
    the site; [None] while it waits for readiness. *)
Definition Start (e : StartEnv) (s : Site) : option (result StartErr unit * State * Site) :=
  match detectBinaries (bins s) with
  | (Err m, b) =>
      if ub_Managed cfg then Some (Err (BinariesNotFound m), StateFailed, MkSite b (sup s) (loaded s))
      else Some (Ok tt, if probe e then StateRunning else StateDegraded, MkSite b (init_config (sup s)) (loaded s))
  | (Ok _, b) =>
      let s := MkSite b (init_config (sup s)) (loaded s) in
      if negb (ub_Managed cfg) then Some (Ok tt, if probe e then StateRunning else StateDegraded, s)
      else if negb (checkPort e) then Some (Err PortInUse, StateFailed, s)
      else if negb (launch e (binaryPath b, [str "-d"; str "-c"; ub_ConfigPath cfg])) then Some (Err LaunchFailed, StateFailed, s)
      else match waitReady (ready e) with
           | None => None
           | Some (Err w) => Some (Err (NotReady w), StateFailed, MkSite (bins s) (sup s) None)
           | Some (Ok _) => Some (Ok tt, StateRunning, MkSite (bins s) (sup s) (conf_file (sup s)))
           end
  end.

(** A new process of the program: a new supervisor, the file as it was; an external
    Unbound goes on running. *)
Definition new_process (s : Site) : Site :=
  MkSite no_binaries (MkSup None (conf_file (sup s)) (DefaultServerConfig (ub_ListenPort cfg) (ub_ControlSocket cfg)))
    (if ub_Managed cfg then None else loaded s).

Definition boot (e : StartEnv) (s : Site) : option (result StartErr unit * State * Site) := Start e (new_process s).

(** ** Handlers *)

(** A nil list of zones is shown as an empty one. *)
Definition handleGetUnboundConfig (s : Site) : ServerBlock * list ForwardZone * list StubZone :=
  (usc_Server (current (sup s)), ForwardZones (current (sup s)), StubZones (current (sup s))).

Definition handleGetForwardZones (s : Site) : list ForwardZone := ForwardZones (current (sup s)).

Record unboundStatusResponse := MkStatus {
  st_Enabled : bool; st_Managed : bool; st_State : State; st_Error : option gostring; st_ListenAddr : gostring }.

(** [live]: the section of the configuration in force; [supervisor]: its state and last
    error, when there is one. *)
Definition handleGetUnboundStatus (live : UnboundConfig) (supervisor : option (State * option gostring)) : unboundStatusResponse :=
  match supervisor with
  | Some (st, err) => MkStatus (ub_Enabled live) (ub_Managed live) st err (listenAddr cfg)
  | None => MkStatus (ub_Enabled live) (ub_Managed live) StateStopped None []
  end.

Definition handleUnboundReload (e : Env) (s : Site) : Z * Site :=
  let '(ok, s) := Reload e s in (if ok then 200 else 500, s).

Definition handleUnboundFlushCache (e : Env) (s : Site) : Z := if FlushCache e s then 200 else 500.

(** The handlers that change the configuration. *)
Inductive Change :=
| PutServer (body : option (ServerBlock * list gostring))
| PostZone (req : option forwardZoneRequest)
| PutZone (path : gostring) (req : option forwardZoneRequest)
| DeleteZone (name : gostring).

Definition change (c : Change) : Outside -> Sup -> Z * Sup :=
  match c with
  | PutServer body => fun o => handleUpdateUnboundServer o body
  | PostZone req => fun o => handleAddForwardZone o req
  | PutZone path req => fun o => handleUpdateForwardZone o path req
  | DeleteZone name => fun o => handleDeleteForwardZone o name
  end.

(** What the programs answer, as [applyUnboundConfig] meets it. *)
Definition outside (e : Env) (b : Binaries) : Outside :=
  MkOutside (if nonempty (checkconfBin b) then Some (check_text e) else None) (tmp_file e) (live_file e) (runControl e b [str "reload"]).

Definition done_status (st : Z) : bool := st <? 300.

(** A change is answered as done when its reload succeeded. *)
Definition serve_change (e : Env) (c : Change) (s : Site) : Z * Site :=
  let '(st, u) := change c (outside e (bins s)) (sup s) in
  (st, MkSite (bins s) u (if done_status st then conf_file u else loaded s)).

Inductive Request := Edits (c : Change) | PostReload | PostFlush.

Definition serve (e : Env) (r : Request) (s : Site) : Z * Site :=
  match r with
  | Edits c => serve_change e c s
  | PostReload => handleUnboundReload e s
  | PostFlush => (handleUnboundFlushCache e s, s)
  end.

Fixpoint serve_all (rs : list (Env * Request)) (s : Site) : list Z * Site :=
  match rs with
  | [] => ([], s)
  | (e, r) :: rs' => let '(st, s) := serve e r s in let '(sts, s) := serve_all rs' s in (st :: sts, s)
  end.

Definition shown (s : Site) : UnboundServerConfig := current (sup s).

(** ** One change *)

Lemma finish_done ok o c u : (ok < 300) ->
  let '(st, u') := finish ok o c u in
  done_status st = true -> SanitizeConfig c = Ok tt /\ reload_ok o = true /\ u' = MkSup (Some c) (Some (RenderConfig c)) (defaults u).
Proof.
  intros Hok. unfold finish, applyUnboundConfig, WriteConfig. destruct (SanitizeConfig c) as [[]|]; [|by destruct (checkconf o)].
  assert (defaults (edit c u) = defaults u) as Ed by (unfold edit; by destruct (serverConfig u)).
  destruct (checkconf o) as [check|]; [destruct (tmp_ok o); [|done]; destruct (check _); [|done]|]; (destruct (file_ok o); [|done]);
    (destruct (reload_ok o); [cbn; by rewrite Ed|done]).
Qed.

(** A change is answered as done when the file was written and read. *)
Lemma change_done c o u :
  let '(st, u') := change c o u in
  done_status st = true -> SanitizeConfig (current u') = Ok tt /\ reload_ok o = true /\ conf_file u' = Some (RenderConfig (current u')).
Proof.
  assert (forall ok c0, ok < 300 -> let '(st, u') := finish ok o c0 u in
    done_status st = true -> SanitizeConfig (current u') = Ok tt /\ reload_ok o = true /\ conf_file u' = Some (RenderConfig (current u'))) as Hf.
  { intros ok c0 H. pose proof (finish_done ok o c0 u H) as Hd. destruct (finish ok o c0 u) as [st u']. intros E. by destruct (Hd E) as (? & ? & ->). }
  destruct c as [[[p sent]|]|[req|]|path [req|]|name]; cbn; try done; [by apply Hf| | |].
  - unfold handleAddForwardZone. destruct (_ || _); [done|]. destruct (existsb _ _); [done|by apply Hf].
  - unfold handleUpdateForwardZone. destruct (edit_first _ _ _); [by apply Hf|done].
  - unfold handleDeleteForwardZone. destruct (edit_first _ _ _); [by apply Hf|done].
Qed.

(** The handlers do not read the file. *)
Definition same_memory (u v : Sup) : Prop := serverConfig u = serverConfig v /\ defaults u = defaults v.

Lemma current_same u v : same_memory u v -> current u = current v.
Proof. intros [E D]. unfold current. by rewrite E, D. Qed.

Lemma finish_same ok o c u v : same_memory u v -> (finish ok o c u).1 = (finish ok o c v).1 /\ same_memory (finish ok o c u).2 (finish ok o c v).2.
Proof.
  intros [E D]. unfold finish, applyUnboundConfig.
  assert (same_memory (edit c u) (edit c v)) as [E' D'] by (unfold edit; rewrite E; by destruct (serverConfig v) eqn:Ev; split; rewrite ?E, ?Ev).
  set (w := WriteConfig c (file_ok o)). set (w' := WriteConfig c (tmp_ok o)).
  destruct (checkconf o) as [check|]; [destruct w' as [txt|]; [destruct (check txt)|]|]; try (destruct w; [destruct (reload_ok o)|]); by (split; [|split]).
Qed.

Lemma change_same c o u v : same_memory u v -> (change c o u).1 = (change c o v).1 /\ same_memory (change c o u).2 (change c o v).2.
Proof.
  intros H. pose proof (current_same _ _ H) as Hc. destruct c as [[[p sent]|]|[req|]|path [req|]|name]; cbn; try done.
  - rewrite Hc. by apply finish_same.
  - unfold handleAddForwardZone. rewrite Hc. destruct (_ || _); [done|]. destruct (existsb _ _); [done|by apply finish_same].
  - unfold handleUpdateForwardZone. rewrite Hc. destruct (edit_first _ _ _); [by apply finish_same|done].
  - unfold handleDeleteForwardZone. rewrite Hc. destruct (edit_first _ _ _); [by apply finish_same|done].
Qed.

Definition same_site (s t : Site) : Prop := bins s = bins t /\ same_memory (sup s) (sup t).

Lemma serve_same e r s t : same_site s t -> (serve e r s).1 = (serve e r t).1 /\ same_site (serve e r s).2 (serve e r t).2.
Proof.
  intros [Hb Hm]. destruct r as [c| |]; cbn.
  - unfold serve_change. rewrite <- Hb. destruct (change_same c (outside e (bins s)) _ _ Hm) as [E1 E2].
    destruct (change c _ (sup s)), (change c _ (sup t)). cbn in *. by split; [|split].
  - unfold handleUnboundReload, Reload. rewrite <- Hb. by destruct (runControl _ _ _); split; try done; split.
  - unfold handleUnboundFlushCache, FlushCache. rewrite <- Hb. by split.
Qed.

Lemma serve_all_same rs s t : same_site s t -> (serve_all rs s).1 = (serve_all rs t).1 /\ same_site (serve_all rs s).2 (serve_all rs t).2.
Proof.
  revert s t. induction rs as [|[e r] rs IH]; intros s t H; cbn; [done|]. destruct (serve_same e r s t H) as [E1 E2].
  destruct (serve e r s) as [a s'], (serve e r t) as [b t']. cbn in *. destruct (IH _ _ E2) as [E3 E4].
  destruct (serve_all rs s'), (serve_all rs t'). cbn in *. by subst.
Qed.

(** ** A start *)

Lemma boot_spec e s st t : boot e s = Some (Ok tt, st, t) ->
  bins t = (detectBinaries no_binaries).2 /\
  sup t = MkSup (Some (DefaultServerConfig (ub_ListenPort cfg) (ub_ControlSocket cfg))) (conf_file (sup s)) (DefaultServerConfig (ub_ListenPort cfg) (ub_ControlSocket cfg)) /\
  loaded t = (if ub_Managed cfg then conf_file (sup s) else loaded s).
Proof.
  unfold boot, Start, new_process. cbn [bins sup loaded]. destruct (detectBinaries no_binaries) as [[[]|m] b], (ub_Managed cfg); cbn [negb]; try (intros [= <- <-]; done).
  destruct (checkPort e); [|done]. destruct (launch e _); [|done]. cbn. destruct (waitReady (ready e)) as [[[]|w]|]; [|done|done]. by intros [= <- <-].
Qed.

(** The outcome of [Start] is that of the steps of the supervisor. *)
Lemma Start_steps e s r st t : Start e s = Some (r, st, t) ->
  exists tr s', Supervisor.run tr (Supervisor.NewSupervisor (ub_Managed cfg)) = Some s' /\ state s' = st /\ starting s' = StartIdle /\
    (r = Ok tt <-> st = StateRunning \/ st = StateDegraded).
Proof.
  intros H. unfold Start in H. destruct (ub_Managed cfg) eqn:Em; cbn [negb] in H.
  - destruct (detectBinaries (bins s)) as [[[]|m] b]; [destruct (checkPort e); cbn [negb] in H; [destruct (launch e _); cbn [negb] in H; [destruct (waitReady _) as [[[]|w]|]; [| |done]|]|]|];
      injection H as <- <- <-.
    + exists [StartBegin true true; StartStep true; StartStep true]. eexists. split; [reflexivity|]. split; [reflexivity|]. split; [reflexivity|]. split; [by left|done].
    + exists [StartBegin true true; StartStep true; StartStep false; StartStep true]. eexists. split; [reflexivity|]. split; [reflexivity|]. split; [reflexivity|]. split; [done|by intros [?|?]].
    + exists [StartBegin true true; StartStep false]. eexists. split; [reflexivity|]. split; [reflexivity|]. split; [reflexivity|]. split; [done|by intros [?|?]].
    + exists [StartBegin false true]. eexists. split; [reflexivity|]. split; [reflexivity|]. split; [reflexivity|]. split; [done|by intros [?|?]].
    + exists [StartBegin false true]. eexists. split; [reflexivity|]. split; [reflexivity|]. split; [reflexivity|]. split; [done|by intros [?|?]].
  - exists [StartBegin true (probe e)]. eexists. split; [reflexivity|].
    destruct (detectBinaries (bins s)) as [[[]|m] b]; injection H as <- <- <-; (split; [reflexivity|]; split; [reflexivity|]; split; [destruct (probe e); by auto|done]).
Qed.

(** C39: What an edit of Unbound's configuration is made on, and when it counts.  A start
    leaves the file as it is, lets Unbound read it, and sets the configuration in memory
    to the default one: the answers and the configuration shown after it do not depend
    on what was saved before, whatever the requests.  A change that is answered as done
    has been sanitized, written whole and read by Unbound, which then runs with exactly
    what the API shows; so the first of them replaces all that was saved before the
    start. *)
Theorem edits_start_over (e : StartEnv) (s1 s2 t1 t2 : Site) (st1 st2 : State) (rs : list (Env * Request)) (env : Env) (c : Change)
    (H1 : boot e s1 = Some (Ok tt, st1, t1)) (H2 : boot e s2 = Some (Ok tt, st2, t2)) :
  conf_file (sup t1) = conf_file (sup s1) /\ (ub_Managed cfg = true -> loaded t1 = conf_file (sup s1)) /\
  shown t1 = DefaultServerConfig (ub_ListenPort cfg) (ub_ControlSocket cfg) /\
  let '(sts1, u1) := serve_all rs t1 in let '(sts2, u2) := serve_all rs t2 in
  sts1 = sts2 /\ shown u1 = shown u2 /\
  let '(a1, v1) := serve_change env c u1 in let '(a2, v2) := serve_change env c u2 in
  a1 = a2 /\ shown v1 = shown v2 /\
  (done_status a1 = true -> SanitizeConfig (shown v1) = Ok tt /\
     conf_file (sup v1) = Some (RenderConfig (shown v1)) /\ conf_file (sup v2) = conf_file (sup v1) /\
     loaded v1 = conf_file (sup v1)).
Proof.
  apply boot_spec in H1 as (B1 & S1 & L1), H2 as (B2 & S2 & L2). split_and!; [by rewrite S1|intros E; by rewrite E in L1|unfold shown; by rewrite S1|].
  assert (same_site t1 t2) as Hs by (split; [congruence|rewrite S1, S2; by split]).
  destruct (serve_all_same rs _ _ Hs) as [Ea [Hb Hm]]. destruct (serve_all rs t1) as [sts1 u1], (serve_all rs t2) as [sts2 u2]. cbn in *.
  split; [done|]. split; [by apply current_same|]. unfold serve_change. rewrite <- Hb.
  destruct (change_same c (outside env (bins u1)) _ _ Hm) as [E1 E2].
  pose proof (change_done c (outside env (bins u1)) (sup u1)) as D1. pose proof (change_done c (outside env (bins u1)) (sup u2)) as D2.
  destruct (change c _ (sup u1)) as [a1 v1], (change c _ (sup u2)) as [a2 v2]. cbn in *. subst a2.
  pose proof (current_same _ _ E2) as Ec. split; [done|]. split; [exact Ec|]. intros Hd. rewrite Hd.
  destruct (D1 Hd) as (? & _ & F1), (D2 Hd) as (_ & _ & F2). split_and!; [done|done| |done]. rewrite F1, F2. by rewrite <- Ec.
Qed.

(** An external Unbound is controlled only where the program unbound is installed too:
    without it the search ends before unbound-control, and no change is ever done. *)
Lemma external_needs_unbound e s :
  ub_Managed cfg = false -> ub_BinaryPath cfg = [] -> findBinary (str "unbound") = None ->
  exists st t, boot e s = Some (Ok tt, st, t) /\ controlBin (bins t) = [] /\ checkconfBin (bins t) = [] /\
    forall env c, done_status (serve_change env c t).1 = false.
Proof.
  intros Hm Hb Hf. unfold boot, Start, detectBinaries. rewrite Hb, Hf, Hm. eexists _, _. split; [reflexivity|]. split; [done|]. split; [done|].
  intros env c. unfold serve_change. match goal with |- context [change c ?o ?u] => pose proof (change_done c o u) as D; destruct (change c o u) as [a v] end.
  cbn [fst]. destruct (done_status a) eqn:E; [|done]. by destruct (D eq_refl) as (_ & Hr & _).
Qed.

(** [waitReady] ends with the first event that is not an unanswered probe. *)
Lemma waitReady_spec evs : waitReady evs =
  match List.find (fun ev => match ev with Tick false => false | _ => true end) evs with
  | Some CtxDone => Some (Err Cancelled) | Some Deadline => Some (Err TimedOut) | Some (Tick _) => Some (Ok tt) | None => None
  end.
Proof. induction evs as [|[| |[]] evs IH]; cbn; try done. Qed.

End control.

(** ** A restart in between *)

Definition sample_look (name : gostring) : option gostring := Some (str "/usr/sbin/" ++ name).
Definition sample_ub : UnboundConfig := MkUnboundConfig [] (str "/etc/unbound/unbound.conf") (str "/run/control.sock") 5353 true true.
Definition sample_start : StartEnv := MkStartEnv (fun _ => false) (fun _ => true) [Tick false; Tick true] true.
Definition sample_env : Env := MkEnv (fun _ => true) (fun _ => true) true true.
Definition lan_zone : Change := PostZone (Some (MkZoneReq (str "lan.") [str "192.0.2.1"] false false)).
Definition no_change : Change := PutServer (Some (module_config_body [], [])).

Definition fresh : Site := MkSite no_binaries (MkSup None None (DefaultServerConfig 5353 (str "/run/control.sock"))) None.

Definition booted (s : Site) : Site := match boot sample_look sample_ub sample_start s with Some (_, _, t) => t | None => s end.
Definition zone_saved : Site := (serve_change sample_ub sample_env lan_zone (booted fresh)).2.

Lemma boot_sample s : boot sample_look sample_ub sample_start s = Some (Ok tt, StateRunning, booted s).
Proof. reflexivity. Qed.

(** A zone that was saved and is in use is gone from what the API shows after a restart,
    and from the file after the next change of anything. *)
Lemma restart_drops_zone :
  let t := booted zone_saved in
  handleGetForwardZones zone_saved = [MkForwardZone (str "lan.") [str "192.0.2.1"] false false] /\
  loaded t = conf_file (sup zone_saved) /\ handleGetForwardZones t = [] /\
  let '(st, u) := serve_change sample_ub sample_env no_change t in
  st = 200 /\ loaded u = Some (RenderConfig (DefaultServerConfig 5353 (str "/run/control.sock"))).
Proof. cbv zeta. split_and!; [vm_compute; reflexivity|reflexivity|reflexivity|]. split; vm_compute; reflexivity. Qed.

Lemma edits_start_over_witness :
  let t := booted zone_saved in
  shown t = DefaultServerConfig 5353 (str "/run/control.sock") /\ loaded t = conf_file (sup zone_saved) /\
  conf_file (sup zone_saved) <> None /\ done_status (serve_change sample_ub sample_env no_change t).1 = true.
Proof.
  pose proof (edits_start_over sample_look sample_ub sample_start zone_saved fresh (booted zone_saved) (booted fresh) StateRunning StateRunning
                [] sample_env no_change (boot_sample _) (boot_sample _)) as (_ & L & S & _).
  split; [exact S|]. split; [exact (L eq_refl)|]. split; [|vm_compute; reflexivity].
  vm_compute. discriminate.
Defined.
